(* ===== verification/_CoqProject ===== *)
-Q . S2P
Prelude.v
GoStrings.v
GoUtf8.v
GoPath.v
GoIO.v
GoBinary.v
CpioTypes.v
Newc.v
Cpio.v
CpioFs.v
Ramfs.v
Gpt.v
GptData.v
Ed.v
RushParse.v
RushExec.v
Dd.v
DdProgress.v
Field.v
Fmap.v
FmapTool.v
Sort.v
Uniq.v
Comm.v
Wc.v
Cp.v
Ldd.v
Cmp.v
GoText.v
Flags.v
FlagTables.v
CpioCmd.v
Hexdump.v
Ip.v
Tcz.v
Fs.v
FileCmds.v
Id.v
Date.v
Ps.v
Pci.v
Kill.v
Archive.v
Ectool.v
GoDecls.v
EcTable.v
Termios.v
Stty.v
Grep.v
TextCmds.v
SysCmds.v
Boot.v
Kernel.v
Images.v
Bb.v
Dhclient.v
Pflask.v
Pty.v
Ls.v
Builtin.v
KernelCmds.v
Console.v
CmdMains.v
CmdLines.v
ScriptTools.v
Tools.v
ConstTables.v
SmallCmds.v
SmallParts.v
