(* ===== verification/Prelude.v ===== *)
(** * A verification library for u-root

    u-root is a Go user space for Linux kernels: a set of small commands ([cmds/]), the packages
    they share ([pkg/]) and the tools that pack them into an initial RAM file system.  This library
    models the parts that carry logic of their own and proves what they compute.

    ** The program's parts

    - The archive pipeline.  [pkg/ramfs] writes an initramfs through the archive writer of
      [pkg/cpio], which goes through the interface [RecordFormat] to the record format of
      [pkg/cpio/newc]; [pkg/ldd] finds the files a program needs in it, and [cmds/cpio] lists,
      creates and extracts archives, calling the kernel through [pkg/cpio/fs_unix.go].  On top of
      it stand the two builders of images: [scripts/ramfs.go] packs the sources with a tool chain,
      and [bb] rewrites all commands into one program and packs that.
    - Tables on a disk or a flash chip: [pkg/gpt] with [cmds/gpt], and [cmds/fmap] with its
      library; the table of identifiers of [pkg/pci] with [cmds/pci].
    - Interactive programs: the editor [cmds/ed], the shell [cmds/rush] with [cmds/builtin], which
      gives it new commands, and terminals: [cmds/stty] with [pkg/termios], [pkg/pty] and
      [cmds/console], which runs a shell over it.
    - Copying and searching with goroutines: [cmds/dd], [cmds/cp] and [cmds/grep].
    - Packages and networks: [cmds/tcz], [cmds/archive], [cmds/ip], [cmds/dhclient], [cmds/ping],
      [cmds/wifi].
    - Filters and small commands: [field], [sort], [uniq], [comm], [wc], [cmp], [freq], [tee],
      [cat], [truncate], [validate], [date], [ps], [id], [kill], [which], [rm], [ln], [mv] and
      others.
    - Starting up: [uroot] makes the root file system and the environment, [cmds/init] links and
      runs the commands, which [cmds/installcommand] builds on demand; [cmds/switch_root].
    - The kernel: verified boot [cmds/vboot] and [cmds/kexec] with [pkg/kexec], modules with
      [pkg/kmodule], containers [cmds/pflask], mounts and loop devices.
    - Devices: [cmds/ectool], [cmds/io], [cmds/msr], [cmds/mknod].
    - Tools of the project: [scripts/checklicenses], [scripts/build_perf].

    ** Files and sources

    Shared files:
    - [Prelude]: bytes, integers of a fixed width, the results of code that can fail or panic, the
      state and error monad [M] with its tactics, lemmas on lists.
    - [GoStrings], [GoText], [GoUtf8], [GoPath], [GoIO], [GoBinary]: what the programs use of the
      Go standard library, with its laws.  [GoIO] has the classes [Writer] and [WriterOk], the
      documented contract of [io.Writer], and instances for a buffer and for a device that fills
      up; the theorems about writers are proved against the class.
    - [Fs]: relative paths and the file system calls of the file commands.
    - [Flags]: the package [flag]: declarations, the parsing of arguments, and the ways to write a
      flag; [FlagTables]: the flags of every command.
    - [GoDecls]: what groups of constants and structures of a Go file mean.
    - [Kernel]: programs as the list of the calls they make to a world that may refuse any of them,
      with the predicates [planned], [strict], [grows] and [only] on such programs and the hints
      that derive them.

    Components (the source is named first):
    - [pkg/cpio/types.go]: [CpioTypes], records, readers (a file that is opened late may fail when
      it is opened, while it is read and when it is closed) and the class of record formats with
      the contract the archive layer relies on.
    - [pkg/cpio/newc/newc.go]: [Newc]; the writer's state is the sink and the count of bytes
      written, the reader's the archive and a position.  Its instance discharges the contract.
    - [pkg/cpio/cpio.go]: [Cpio], the archive reader and writer over any record format.
    - [pkg/cpio/fs_unix.go], [sysinfo_linux.go], [cmds/cpio]: [CpioFs], extraction as a trace of
      system calls against a kernel that may refuse any of them, inode numbering, archiving;
      [CpioCmd], the command from its arguments on.
    - [pkg/ramfs/ramfs.go]: [Ramfs].  [pkg/ldd/ldd_unix.go]: [Ldd].
    - [pkg/gpt/gpt.go], [cmds/gpt]: [Gpt]; a disk is a byte list of fixed length.  [GptData] has
      the disk of its tests ([pkg/gpt/data.go]).
    - [cmds/ed]: [Ed]; the interface [Editor] with the text and the binary implementation, the
      command interpreter over the interface.
    - [cmds/rush]: [RushParse] (tokenizer, parser, rules) and [RushExec] (expansion, wiring,
      builtins, the loop over the commands of a line).
    - [cmds/dd/dd.go]: [Dd]; the parallel copy is a step relation over the reading goroutine, the
      channel, the buffer pool and the writing loop; [DdProgress] adds the goroutine that reports
      the progress, its channel and the rest of [main].
    - [cmds/cp]: [Cp]; the workers, the offset goroutine and the collector are a step relation.
    - [cmds/grep]: [Grep]; the goroutines that count themselves are a step relation; they share
      their counter with [main] without a lock, so a load and a store of it are two steps.
    - [pkg/termios]: [Termios], and [cmds/stty]: [Stty]; a terminal is its settings, its window and
      the calls made on it; the orders of loops over Go maps are parameters.
    - [cmds/ip]: [Ip], the parser and the netlink calls it makes.  [cmds/tcz]: [Tcz], fetching,
      dependencies, mounting and linking over a small file store.
    - [cmds/archive]: [Archive].  [pkg/pci], [cmds/pci]: [Pci].  [cmds/ectool]: [Ectool].  The
      constants and messages of the controller's protocol ([commands.go]) are in [EcTable].  The
      [main] functions of [archive], [gpt] and [ed] are in [CmdMains].
    - [cmds/ln], [mv], [rm], [readlink], [mkdir], [chmod], [which]: [FileCmds] over [Fs].
    - [cmds/id], [date], [ps], [kill]: [Id], [Date], [Ps], [Kill].
    - [cmds/field], [fmap], [sort], [uniq], [comm], [wc], [cmp]: [Field], [Fmap] (the library and
      the commands on byte lists) with [FmapTool] (the commands on files), [Sort], [Uniq], [Comm],
      [Wc], [Cmp].
    - [cmds/freq], [validate], [truncate], [tee], [cat], [echo], [dirname], [ansi]: the modules of
      [TextCmds].
    - [uroot/root.go], [cmds/init]: [Boot]; a list of calls that may be refused and the files
      written, and the workers of the background build as a step relation.
    - [cmds/switch_root], [run/tempfile.go], [installcommand], [io], [mknod]: the modules of
      [SysCmds].
    - [scripts/ramfs.go] and [bb/ramfs.go]: the modules [Scripts] and [BbImage] of [Images], over
      [Ramfs], [Cpio] and [Newc].  [bb/bb.go], [bb/config.go]: [Bb]; syntax trees have the
      constructors that the rewriting looks at.
    - [cmds/dhclient]: [Dhclient]; the workers and [main] are a step relation, each worker is a
      program of calls.
    - [cmds/pflask]: [Pflask].  [pkg/pty], [cmds/rush/tty_linux.go]: [Pty] over [Termios];
      [cmds/console]: [Console] over [Pty].
    - [cmds/builtin], [cmds/run]: [Builtin].
    - [cmds/ls]: [Ls], with [filepath.Walk] over a tree of files.
    - [cmds/mount], [umount], [losetup], [insmod], [rmmod], [lsmod], [dmesg], [kexec], [vboot],
      [pkg/kmodule], [pkg/kexec]: the modules of [KernelCmds].
    - [scripts/checklicenses], [scripts/build_perf]: [ScriptTools]; the first over [Walk] of [Ls],
      the goroutines of the second as a step relation with the buffers and the errors of the
      tables.
    - [cmds/ping], [seq], [msr], [gpgv], [mm], [unshare], [shutdown], [uname], [pwd], [sleep],
      [wget], [wifi], [xinit]: the modules of [Tools].
    - [cmds/hexdump]: [Hexdump].  [uroot/uname_*.go], [cmds/netcat], [pe], [printenv], [hostname],
      [lddfiles], [srvfiles], [true], [false], the builtins and the start of [rush]: the modules of
      [SmallCmds].  Parts around other models ([sysinfo_darwin.go], the hashes of [validate], the
      port of [io], the build of [build_perf], the start of [dhclient]): [SmallParts].
    - The constants and structures of the packages for Linux: [ConstTables].
    - Whole command lines, from the arguments of the process to the operation, of [dd], [rm], [ln],
      [mkdir], [cp], [wc], [uniq], [comm], [sort], [kexec] and [vboot]: the modules of [CmdLines].

    ** What the theorems show

    - Archives.  [WriteRecord] sends exactly the padded encoding of a record, or a prefix when the
      sink fails (C2), and reading gives the record back (C3); an archive written and read back
      gives the first record of every name in order (C1), names that reach the format are distinct
      and relative (C5), reading ends on every input (C28), [Concat] is writing the transformed
      records (C29).  The modes of the command fit together: what [cpio o] archives [cpio t] lists
      and [cpio i] extracts (C4). Extraction makes exactly the planned calls (C30), inode numbers
      identify files ([inode_identifies_files]), a device node survives the whole trip
      ([device_roundtrip]).  In an initramfs every entry follows its parent, also where files
      disappear while they are copied (C6), and on a host that keeps still [scripts/ramfs.go] makes
      an image that is read back as the device records, the initial archive and the packed files,
      each with its metadata and contents, under its name and after its parent (C7;
      [bb_image_reads_back] for the other builder).  [List] of [pkg/ldd] is closed under
      dependencies (C37).  Extracting an archive of [cmds/archive] makes the planned calls with the
      archived contents ([vtoc_roundtrip]).
    - Partition tables and flash maps.  Round trips with nothing else changed (C15, [gpt_w_New],
      C35), what [Table] checks before it accepts (C34), the 32-bit product that crashes [Write]
      ([Write_array_overflow_panics]).  [gpt -w] and then [gpt] show the tables that were given
      ([gpt_write_show]); on the disk of the tests [New] finds both tables ([chromebook_New]);
      [fmap jget] and then [fmap jput] leave the flash as it was ([jget_jput]).
    - The editor.  The line table describes the data in every session (C16), and no session crashes
      whose lines have neither an [s] nor a number of more than eighteen digits (C17).
    - The shell.  A plain pipeline is parsed into its commands (C21), every accepted line obeys the
      rules ([getCommand_rules]), and the wiring of the streams is what the line says (C22).
    - Building.  [bb] leaves no [main], no [init] and no use of the global flags in a rewritten
      file and keeps everything else (C13), and its table has the commands it took
      ([bb_main_links]).  [builtin] writes exactly the processed sources and the files of the shell
      before it runs the shell (C25); [run] starts what it built ([run_builds_and_runs]).
    - Trust and order of calls.  [vboot] starts only what the key verified, kernel and disk both
      with the signature of the kernel ([vboot_starts_verified]), and [kexec], on the command line
      that [vboot] gives it, boots the files of these names (C14); [gpgv] says OK only for a
      verified signature ([gpgv_ok_verified]), [kexec] boots what it loaded ([kexec_boots_loaded]),
      [pflask] runs the program only after all mounts (C24), [insmod] falls back to the image only
      where the kernel has no other call ([insmod_loads]).
    - Concurrency.  [dd]: prefix order, buffer ownership and completeness in every reachable state
      (C8), every run ends and none is stuck (C9), for positive block sizes and conversions that
      keep the length, the section reader ([section_reads]); its progress reports are complete, the
      last one is the final count (C10), and it can always end ([progress_can_end]).  [cp]: with a
      worker, and none left of an earlier copy, a return without error means a complete copy (C11).
      [grep]: no run goes on for ever, the output has the lines of distinct files, and with one
      file the program exits with the right status (C40); with several a lost update of the counter
      can lose a file or leave [main] waiting ([grep_loses_file], [grep_waits_for_ever]).
      [dhclient]: no send on a closed channel, no infinite run, none stuck (C12), and what one
      worker sends and sets: requests until the first answer, then renewals of the last packet, a
      bounded number of them (C31). [build_perf]: no deadlock and a bound on the steps whatever
      write fails, and complete tables at the end (C26).
    - Command lines.  Every table of flags reads back flags written with one dash, in any order
      ([flags_roundtrip]); the operands of [dd] are its flags ([dd_operands]).
    - Declarations.  The constants and types of [commands.go] are well typed ([ec_package_typed]),
      command numbers say device and command ([command_numbers_unique]), the messages fit the
      packets ([messages_fit]); the copy of the terminal settings in [pflask] is that of the
      package ([pflask_termios_agrees]).
    - Listings.  [hexdump] prints its files line by line, whatever the pieces in which they are
      read, and the bytes can be read back (C33).  [ls] shows one line for every file of the walk
      whatever its caches hold (C27); [checklicenses] prints exactly the files without licence
      ([checklicenses_reports]).
    - Terminals.  The console and a command on a pseudo-terminal leave the settings as they were
      ([console_restores], [Run_restores_terminal]), and a serial port that gets ready is sent
      every byte in order (C32).  Every sequence of runs of [stty] keeps the widths of the settings
      (C39), [load] asks the kernel for the options that [dump] saved, whatever was set in between
      (C20), and a command line asks for exactly the options it names ([stty_sets]); what a driver
      makes of the settings is open.
    - Packages and networks.  The parser of [ip] implements the grammar of its command lines (C18);
      [installPackage] ends on cyclic dependencies and its map of packages is closed (C19).
    - Starting up.  [init] runs to its end when the name of the machine has three letters, even if
      calls are refused, and leaves its environment in [/env] if the files can be written (C23).
    - Filters and file commands.  Parsing of a printed field list ([parseranges_print]); [sort]
      gives the sorted permutation (C36); [uniq] and [comm] against definitions on whole inputs
      ([uniq_groups], [comm_columns]); [rm -i] removes what was confirmed (C38); the formats of
      [date] are one substitution ([dateMap_one_pass]); the search of the identifier table finds
      the first match ([lookup_table]).

    Further theorems stand next to the definitions without being in this list: what [which],
    [field], [kill], [ps], [freq], [truncate], [tee], [cat], [validate], [wc], [cmp], [mknod] and
    [installcommand] do, raw mode and its undoing ([Raw_restores]), the target of relative links
    ([relLink_leads_to_target]), names of temporary files, the background build ([bgbuild_all]),
    the packets, timeouts and packed fields of [ectool]. Some record behaviour that differs from
    what the code means to do, among them [copy_deadlock], [stale_worker_loses_block],
    [getCommand_diverges], [ReadRecord_zero_name_panics], [ed_delete_takes_last_line],
    [ed_dot_overflow_panics], [stty_intr_lost], [grep_loses_file], [grep_waits_for_ever],
    [dropped_first_link_loses_contents], [switch_root_fails], [io_out_writes_zero],
    [archive_shifted], [vboot_disk_needs_kernel_signature], [kexec_cmdline_refused], [ping_counts],
    [lone_brace_panics], [port_error_lost], [dhclient4_no_server_panics],
    [second_path_not_searched], [event_mask_lost], [one_table_written], [enumerations_stuck],
    [mkdir_mode_decimal], [fork_replaced], [toString_reads] and [detach_never_gives_up].

    ** Fuel and bounds

    Recursion that is not structural takes fuel, and a loop of the code that runs out of it gives
    [None], never a result of the code.  The amounts that are proved to be enough: one step per
    unread byte for [ReadRecords], the length of the path for the parents in [Ramfs] and the depth
    of the tree for [WriteFile], one step per byte for the shell parser on pipelines and for
    [WriteTo] and [Discard] of [dd], the number of files plus one for [follow] and [List], one more
    than the number of packages of the server for [installPackage], two levels for the nested
    formats of [date], one step per line or byte plus one for the filters and for [grep_loop], the
    number of polls the timeout allows for [Wait] of [ectool], [n + 1] turns for each byte of a
    serial port that is ready after [n] looks, the number of iterations for [ping], the number of
    terms for [seq], the numbers of attempts and renewals plus two for [dhclient4], thirty-one for
    bringing a link up, the depth of the trees for the files of images, one more than the number of
    records for [cpio_i] and [cpio_t] on an archive that [cpio_o] wrote.  Loops of the shell
    parser, of [dd], [ping] and [seq] and the detaching of [pflask] that do not end are shown to
    exhaust every amount.  Steps of the ticking goroutine of [dd] are not bounded: it is shown that
    the program can end from every state.  The fuel of [rush_main] and of [copyFile] of [Cp] bounds
    the number of lines and the depth of the directories; nothing is claimed about enough of it.
    The step relations have well-founded measures instead of fuel.  Arithmetic of the code at a
    fixed width is written out with [u8], [u16], [u32], [u64] and [i64] where a value can leave its
    range.

    ** Parameters and limits

    Code outside of the repository is a parameter of the definitions that use it: kernel calls,
    files and processes, [regexp], JSON, hash functions, the [unicode] tables beyond Latin-1, ELF
    files and the dynamic linker, netlink and sockets, the server of packages, [go/parser],
    [go/printer] and [imports], the [go] tool, OpenPGP and ed25519, [text/tabwriter].  The
    floating-point numbers of [seq] are given by their operations.  Where theorems need a property
    of a parameter it is a hypothesis, and the lemma after the theorem applies it to a concrete
    instance.  Channels with one sender and one receiver are the list of what is sent; the places
    where the schedule matters ([Dd], [DdProgress], [Cp], [Grep], [Boot], [Dhclient],
    [ScriptTools], [Netcat] of [SmallCmds]) are step relations.  Usage messages and debug output
    are left out.

    Not modelled: the identifiers of [pkg/pci/pciids.go], which are data of 29,600 lines that the
    functions of [Pci] take as a parameter, [cmds/sync] (one system call), the message of
    [u-root.go], helpers of tests and vendored code.

    ** What is left

    Parts of modelled commands: the notification loop of [rush] and the output side of [pkg/pty];
    closer models of what is a parameter now ([time.ParseDuration], the text of floating-point
    numbers, [regexp]); and the command lines of the programs that [CmdLines] does not have, whose
    flags are in [FlagTables] and whose operations take them as arguments. *)

From Stdlib Require Export Strings.Byte.
From Stdlib Require Import Strings.String.
From stdpp Require Export base tactics option numbers list_numbers gmap list.

#[global] Open Scope Z_scope.

(** ** Bytes

    A Go [byte] is the 256-constructor type [byte] of the standard library, a
    Go [string] or [[]byte] a [list byte].  Arithmetic happens on the value
    [b2z b]; a conversion [byte(z)] truncates, as [z2b] does. *)

Abbreviation bytes := (list byte).

Definition b2z (b : byte) : Z := Z.of_N (Byte.to_N b).

Definition z2b (z : Z) : byte :=
  match Byte.of_N (Z.to_N (z `mod` 256)) with
  | Some b => b
  | None => x00
  end.

(** A string literal of the source. *)
Definition str (s : string) : bytes := list_byte_of_string s.

#[export] Instance byte_eq_dec : EqDecision byte := Byte.byte_eq_dec.

Definition byte_eqb (a b : byte) : bool := Byte.eqb a b.

Lemma b2z_range b : 0 <= b2z b < 256.
Proof.
  unfold b2z. pose proof (Byte.to_N_bounded b). lia.
Qed.

Lemma z2b_b2z b : z2b (b2z b) = b.
Proof.
  unfold z2b. rewrite Z.mod_small by apply b2z_range.
  unfold b2z. by rewrite N2Z.id, Byte.of_to_N.
Qed.

Lemma b2z_z2b z : b2z (z2b z) = z `mod` 256.
Proof.
  unfold z2b. pose proof (Z.mod_pos_bound z 256 eq_refl) as Hm.
  destruct (Byte.of_N _) as [b|] eqn:E.
  - apply Byte.to_of_N in E. unfold b2z. lia.
  - apply Byte.of_N_None_iff in E. lia.
Qed.

Lemma b2z_z2b_small z : 0 <= z < 256 -> b2z (z2b z) = z.
Proof. intros. rewrite b2z_z2b. by apply Z.mod_small. Qed.

Lemma z2b_mod z : z2b (z `mod` 256) = z2b z.
Proof. unfold z2b. by rewrite Z.mod_mod. Qed.

#[export] Instance b2z_inj : Inj (=) (=) b2z.
Proof. intros a b H. rewrite <- (z2b_b2z a), <- (z2b_b2z b). by rewrite H. Qed.

#[export] Instance byte_countable : Countable byte.
Proof.
  refine {| encode b := encode (Byte.to_N b); decode p := n ← decode p; Byte.of_N n |}.
  intros b. rewrite decode_encode. apply Byte.of_to_N.
Defined.

Lemma byte_eqb_eq a b : byte_eqb a b = true <-> a = b.
Proof.
  unfold byte_eqb. split.
  - apply Byte.byte_dec_bl.
  - apply Byte.byte_dec_lb.
Qed.

Lemma byte_eqb_refl a : byte_eqb a a = true.
Proof. by apply byte_eqb_eq. Qed.

Lemma byte_eqb_neq a b : byte_eqb a b = false <-> a <> b.
Proof. rewrite <- byte_eqb_eq. by destruct (byte_eqb a b). Qed.

(** ** Machine integers

    Conversions to Go's fixed-width integer types. *)

Definition u8 (z : Z) : Z := z `mod` 2 ^ 8.
Definition u16 (z : Z) : Z := z `mod` 2 ^ 16.
Definition u32 (z : Z) : Z := z `mod` 2 ^ 32.
Definition u64 (z : Z) : Z := z `mod` 2 ^ 64.
Definition i64 (z : Z) : Z := (z + 2 ^ 63) `mod` 2 ^ 64 - 2 ^ 63.

Lemma u32_range z : 0 <= u32 z < 2 ^ 32.
Proof. apply Z.mod_pos_bound. lia. Qed.

Lemma u32_small z : 0 <= z < 2 ^ 32 -> u32 z = z.
Proof. apply Z.mod_small. Qed.

Lemma u32_u32 z : u32 (u32 z) = u32 z.
Proof. apply u32_small, u32_range. Qed.

Lemma u64_range z : 0 <= u64 z < 2 ^ 64.
Proof. apply Z.mod_pos_bound. lia. Qed.

Lemma u64_small z : 0 <= z < 2 ^ 64 -> u64 z = z.
Proof. apply Z.mod_small. Qed.

Lemma i64_small z : - 2 ^ 63 <= z < 2 ^ 63 -> i64 z = z.
Proof. intros. unfold i64. rewrite Z.mod_small; lia. Qed.

Lemma i64_range z : - 2 ^ 63 <= i64 z < 2 ^ 63.
Proof.
  unfold i64. pose proof (Z.mod_pos_bound (z + 2 ^ 63) (2 ^ 64) eq_refl). lia.
Qed.

Lemma i64_add_l a b : i64 (i64 a + b) = i64 (a + b).
Proof.
  unfold i64. f_equal. replace ((a + 2 ^ 63) `mod` 2 ^ 64 - 2 ^ 63 + b + 2 ^ 63) with ((a + 2 ^ 63) `mod` 2 ^ 64 + b) by lia.
  rewrite Zplus_mod_idemp_l. f_equal. lia.
Qed.

(** A number shifted left, with another one in the place below. *)
Lemma lor_shift a b n : 0 <= n -> 0 <= b < 2 ^ n -> Z.lor (Z.shiftl a n) b = a * 2 ^ n + b.
Proof.
  intros Hn Hb. rewrite Z.shiftl_mul_pow2 by done. symmetry. apply Z.add_nocarry_lor. apply Z.bits_inj'. intros i Hi.
  rewrite Z.land_spec, Z.bits_0. destruct (Z.lt_ge_cases i n).
  - rewrite Z.mul_pow2_bits_low by done. done.
  - replace (Z.testbit b i) with false; [apply andb_false_r|]. symmetry.
    rewrite <- (Z.mod_small b (2 ^ n)) by done. apply Z.mod_pow2_bits_high. lia.
Qed.

(** ** Byte orders of [encoding/binary] *)

Fixpoint le_bytes (n : nat) (z : Z) : bytes :=
  match n with
  | O => []
  | S n => z2b z :: le_bytes n (z `div` 256)
  end.

Fixpoint le_val (l : bytes) : Z :=
  match l with
  | [] => 0
  | b :: l => b2z b + 256 * le_val l
  end.

Definition be_bytes (n : nat) (z : Z) : bytes := reverse (le_bytes n z).
Definition be_val (l : bytes) : Z := le_val (reverse l).

Lemma length_le_bytes n z : length (le_bytes n z) = n.
Proof. revert z; induction n as [|n IH]; intros; simpl; [done|]. by rewrite IH. Qed.

Lemma length_be_bytes n z : length (be_bytes n z) = n.
Proof. unfold be_bytes. by rewrite length_reverse, length_le_bytes. Qed.

Lemma le_val_le_bytes n z : le_val (le_bytes n z) = z `mod` 256 ^ Z.of_nat n.
Proof.
  revert z; induction n as [|n IH]; intros z; simpl le_bytes; simpl le_val.
  - by rewrite Z.mod_1_r.
  - rewrite IH, b2z_z2b, Nat2Z.inj_succ, Z.pow_succ_r by lia.
    rewrite Z.rem_mul_r by lia. lia.
Qed.

Lemma le_val_range l : 0 <= le_val l < 256 ^ Z.of_nat (length l).
Proof.
  induction l as [|b l IH]; simpl le_val; simpl length.
  - lia.
  - rewrite Nat2Z.inj_succ, Z.pow_succ_r by lia.
    pose proof (b2z_range b). lia.
Qed.

Lemma le_bytes_le_val l : le_bytes (length l) (le_val l) = l.
Proof.
  induction l as [|b l IH]; simpl; [done|].
  pose proof (b2z_range b).
  replace ((b2z b + 256 * le_val l) `div` 256) with (le_val l).
  2:{ rewrite Z.mul_comm, Z.div_add by lia. rewrite Z.div_small; lia. }
  rewrite IH. f_equal.
  rewrite <- z2b_mod. rewrite Z.mul_comm, Z.mod_add, Z.mod_small by lia. apply z2b_b2z.
Qed.

Lemma be_val_be_bytes n z : be_val (be_bytes n z) = z `mod` 256 ^ Z.of_nat n.
Proof. unfold be_val, be_bytes. by rewrite reverse_involutive, le_val_le_bytes. Qed.

Lemma be_bytes_be_val l : be_bytes (length l) (be_val l) = l.
Proof.
  unfold be_bytes, be_val. rewrite <- (length_reverse l), le_bytes_le_val.
  apply reverse_involutive.
Qed.

(** ** Outcomes

    A Go function call ends by returning ([Ret]), by returning a non-nil
    [error] ([Fail]) or by a run-time panic ([Panic]: an index or slice
    expression out of range, an explicit [panic]). *)

Inductive outcome (E A : Type) : Type :=
| Ret (a : A)
| Fail (e : E)
| Panic.
Arguments Ret {E A} a.
Arguments Fail {E A} e.
Arguments Panic {E A}.

#[export] Instance outcome_ret {E} : MRet (outcome E) := fun A a => Ret a.

#[export] Instance outcome_bind {E} : MBind (outcome E) := fun A B f m =>
  match m with
  | Ret a => f a
  | Fail e => Fail e
  | Panic => Panic
  end.

(** An expression that panics when its operand is out of range. *)
Definition or_panic {E A} (o : option A) : outcome E A :=
  match o with Some a => Ret a | None => Panic end.

Definition is_Ret {E A} (m : outcome E A) : bool :=
  match m with Ret _ => true | _ => false end.

#[export] Instance outcome_eq_dec {E A} `{EqDecision E, EqDecision A} :
  EqDecision (outcome E A).
Proof. solve_decision. Defined.

(** ** Slices

    [slice l lo hi] is Go's [l[lo:hi]]; [None] is the run-time panic. *)

Definition slice {A} (l : list A) (lo hi : Z) : option (list A) :=
  if bool_decide (0 <= lo /\ lo <= hi /\ hi <= Z.of_nat (length l))
  then Some (take (Z.to_nat (hi - lo)) (drop (Z.to_nat lo) l))
  else None.

Definition zlen {A} (l : list A) : Z := Z.of_nat (length l).

Definition zindex {A} (l : list A) (i : Z) : option A :=
  if bool_decide (0 <= i) then l !! Z.to_nat i else None.

Lemma zlen_nonneg {A} (l : list A) : 0 <= zlen l.
Proof. unfold zlen. lia. Qed.

Lemma zlen_app {A} (l k : list A) : zlen (l ++ k) = zlen l + zlen k.
Proof. unfold zlen. rewrite length_app. lia. Qed.

Lemma zlen_nil {A} : zlen (@nil A) = 0.
Proof. done. Qed.

Lemma zlen_cons {A} (a : A) l : zlen (a :: l) = 1 + zlen l.
Proof. unfold zlen. simpl. lia. Qed.

Lemma slice_Some {A} (l : list A) lo hi :
  0 <= lo -> lo <= hi -> hi <= zlen l ->
  slice l lo hi = Some (take (Z.to_nat (hi - lo)) (drop (Z.to_nat lo) l)).
Proof. intros. unfold slice. by rewrite bool_decide_eq_true_2. Qed.

Lemma slice_prefix {A} (l : list A) hi :
  0 <= hi -> hi <= zlen l -> slice l 0 hi = Some (take (Z.to_nat hi) l).
Proof. intros. rewrite slice_Some by lia. by rewrite Z.sub_0_r. Qed.

Lemma slice_suffix {A} (l : list A) lo :
  0 <= lo -> lo <= zlen l -> slice l lo (zlen l) = Some (drop (Z.to_nat lo) l).
Proof.
  intros. rewrite slice_Some by lia. f_equal. apply take_ge.
  rewrite length_drop. unfold zlen in *. lia.
Qed.

Lemma slice_app_l {A} (l k : list A) :
  slice (l ++ k) 0 (zlen l) = Some l.
Proof.
  rewrite slice_prefix by (rewrite ?zlen_app; pose proof (zlen_nonneg k); pose proof (zlen_nonneg l); lia).
  unfold zlen. rewrite Nat2Z.id. by rewrite take_app_length.
Qed.

(** ** Automation *)

Create HintDb goz.
Create Rewrite HintDb goz.
#[export] Hint Rewrite @zlen_app @zlen_nil @zlen_cons
  length_le_bytes length_be_bytes @length_app @length_reverse
  @length_take @length_drop @length_replicate : goz.
#[export] Hint Resolve zlen_nonneg b2z_range u32_range u64_range : goz.

(** Arithmetic on lengths. *)
Ltac zl := unfold zlen in *; autorewrite with goz in *; simpl length in *; lia.

(** Step a monadic computation whose first action is known to succeed. *)
Ltac go_step H := rewrite H; simpl.

(** Case analysis on the scrutinee of a [match] of a hypothesis. *)
Ltac case_hyp H :=
  repeat match type of H with
  | context [match ?x with _ => _ end] =>
      let E := fresh "E" in destruct x eqn:E; simplify_eq/=
  end.

(** ** Errors and stateful code

    A Go [error] value: the sentinels the code compares with, an operating
    system error, or an error built from a message (its format string, without
    the operands). *)

Inductive error : Type :=
| EOF
| ErrUnexpectedEOF
| ErrShortWrite
| Errno (n : Z)
| Errorf (fmt : string).

#[export] Instance error_eq_dec : EqDecision error.
Proof. solve_decision. Defined.

(** A method of a mutable object of type [S]: explicit state passing, the
    state surviving an error return. *)
Definition M (S A : Type) : Type := S -> S * outcome error A.

#[export] Instance M_ret {S} : MRet (M S) := fun A a s => (s, Ret a).
#[export] Instance M_bind {S} : MBind (M S) := fun A B f m s =>
  match m s with
  | (s, Ret a) => f a s
  | (s, Fail e) => (s, Fail e)
  | (s, Panic) => (s, Panic)
  end.

Definition get {S} : M S S := fun s => (s, Ret s).
Definition modify {S} (f : S -> S) : M S unit := fun s => (f s, Ret tt).
Definition raise {S A} (e : error) : M S A := fun s => (s, Fail e).
Definition lift {S A} (o : outcome error A) : M S A := fun s => (s, o).

Lemma M_bind_Ret {S A B} (m : M S A) (f : A -> M S B) s s' a :
  m s = (s', Ret a) -> (m ≫= f) s = f a s'.
Proof. intros H. unfold mbind, M_bind. by rewrite H. Qed.

Lemma M_bind_inv {S A B} (m : M S A) (f : A -> M S B) s t b :
  (m ≫= f) s = (t, Ret b) -> exists s' a, m s = (s', Ret a) /\ f a s' = (t, Ret b).
Proof.
  unfold mbind, M_bind. destruct (m s) as [s' [a|e|]]; intros H; simplify_eq.
  by exists s', a.
Qed.

(** Invert a successful monadic run, one action at a time. *)
Ltac M_inv H :=
  let s := fresh "s" in let a := fresh "a" in let H1 := fresh "Hm" in
  apply M_bind_inv in H as (s & a & H1 & H).

(** ** Chunks

    [chunks n l] cuts [l] in pieces of [n] elements, the last one shorter. *)
Fixpoint chunks_fuel {A} (fuel n : nat) (l : list A) : list (list A) :=
  match fuel, l with
  | _, [] => []
  | O, _ => [l]
  | S fuel, _ => take n l :: chunks_fuel fuel n (drop n l)
  end.

Definition chunks {A} (n : nat) (l : list A) : list (list A) := chunks_fuel (length l) n l.

Lemma concat_chunks {A} n (l : list A) : concat (chunks n l) = l.
Proof.
  unfold chunks. generalize (length l). intros k. revert l.
  induction k as [|k IH]; intros [|a l]; simpl; try done.
  - by rewrite app_nil_r.
  - by rewrite IH, take_drop.
Qed.

Lemma chunks_fuel_bound {A} k n (l : list A) :
  (0 < n)%nat -> (length l <= k)%nat -> Forall (fun c => (0 < length c <= n)%nat) (chunks_fuel k n l).
Proof.
  intros Hn. revert l. induction k as [|k IH]; intros l Hl.
  - destruct l; simpl in *; [constructor|lia].
  - destruct l as [|a l]; simpl; [constructor|]. constructor.
    + rewrite length_take. simpl. lia.
    + apply IH. rewrite length_drop. simpl in *. lia.
Qed.

Lemma chunks_bound {A} n (l : list A) :
  (0 < n)%nat -> Forall (fun c => (0 < length c <= n)%nat) (chunks n l).
Proof. intros. by apply chunks_fuel_bound. Qed.

Lemma chunks_fuel_concat {A} n (ls : list (list A)) k :
  (0 < n)%nat -> Forall (fun c => length c = n) ls -> (length ls <= k)%nat ->
  chunks_fuel k n (concat ls) = ls.
Proof.
  intros Hn Hls. revert k. induction Hls as [|c ls Hc Hls IH]; intros k Hk.
  - by destruct k.
  - simpl in Hk. destruct k as [|k]; [lia|]. simpl.
    destruct (c ++ concat ls) as [|x xs] eqn:E.
    + apply app_eq_nil in E as [-> _]. simpl in Hc. lia.
    + rewrite <- E, <- Hc, take_app_length, drop_app_length.
      rewrite Hc. f_equal. apply IH. lia.
Qed.

(** Pieces of the chunk size come back when their concatenation is cut. *)
Lemma chunks_concat {A} n (ls : list (list A)) :
  (0 < n)%nat -> Forall (fun c => length c = n) ls -> chunks n (concat ls) = ls.
Proof.
  intros Hn Hls. apply chunks_fuel_concat; [done|done|].
  clear -Hn Hls. induction Hls as [|c ls Hc Hls IH]; simpl; [lia|].
  rewrite length_app. lia.
Qed.

Lemma length_concat_const {A} n (ls : list (list A)) :
  Forall (fun c => length c = n) ls -> length (concat ls) = (n * length ls)%nat.
Proof.
  induction 1 as [|c ls Hc Hls IH]; simpl; [lia|]. rewrite length_app. lia.
Qed.

Lemma chunks_fuel_enough {A} n k (l : list A) :
  (0 < n)%nat -> (length l <= k)%nat -> chunks_fuel k n l = chunks n l.
Proof.
  intros Hn. unfold chunks. remember (length l) as m eqn:Em.
  assert (length l <= m)%nat as Hm by lia. clear Em. revert l m Hm.
  induction k as [|k IH]; intros l m Hm Hk.
  - destruct l; simpl in *; [by destruct m|lia].
  - destruct l as [|a l]; [by destruct m|]. destruct m as [|m]; [simpl in Hm; lia|]. cbn [chunks_fuel].
    f_equal. apply IH; [|lia]. rewrite length_drop. simpl in *. lia.
Qed.

(** The first chunk and the rest. *)
Lemma take_app_min {A} k (x y : list A) : take (k `min` length x) (x ++ y) = take k x.
Proof.
  rewrite take_app_le by lia. destruct (decide (k <= length x)%nat) as [Hk|Hk].
  - by rewrite Nat.min_l.
  - rewrite Nat.min_r by lia. by rewrite !take_ge by lia.
Qed.

Lemma chunks_cons {A} n (l : list A) :
  (0 < n)%nat -> l <> [] -> chunks n l = take n l :: chunks n (drop n l).
Proof.
  intros Hn Hl. unfold chunks at 1. destruct l as [|a l]; [done|]. cbn [length chunks_fuel].
  f_equal. apply chunks_fuel_enough; [done|]. rewrite length_drop. simpl. lia.
Qed.
