(* ===== verification/GoStrings.v ===== *)
(** * The Go standard library's string functions

    The functions of [strings], [strconv] and [encoding/hex] and the line scanner of [bufio]
    that the commands call, for the arguments they call them with; text as the list of its
    lines ([unlines]); and the lemmas the components share about them. *)

From Stdlib Require Import Strings.String.
From S2P Require Export Prelude.

(** ** [strings] *)

(** [strings.Split(s, sep)] for a one-byte separator: always at least one
    piece, the empty string splitting into one empty piece. *)
Fixpoint Split (sep : byte) (s : bytes) : list bytes :=
  match s with
  | [] => [[]]
  | c :: s =>
      if byte_eqb c sep then [] :: Split sep s
      else match Split sep s with
           | [] => [[c]]
           | p :: ps => (c :: p) :: ps
           end
  end.

(** [strings.Join(ps, sep)]. *)
Fixpoint Join (sep : bytes) (ps : list bytes) : bytes :=
  match ps with
  | [] => []
  | [p] => p
  | p :: ps => p ++ sep ++ Join sep ps
  end.

Definition in_set (cutset : bytes) (c : byte) : bool :=
  existsb (byte_eqb c) cutset.

Fixpoint TrimLeft (s cutset : bytes) : bytes :=
  match s with
  | [] => []
  | c :: s' => if in_set cutset c then TrimLeft s' cutset else s
  end.

Definition TrimRight (s cutset : bytes) : bytes :=
  reverse (TrimLeft (reverse s) cutset).

Fixpoint HasPrefix (s p : bytes) {struct p} : bool :=
  match p, s with
  | [], _ => true
  | _ :: _, [] => false
  | b :: p, c :: s => byte_eqb b c && HasPrefix s p
  end.

Definition bytes_eqb (s t : bytes) : bool := bool_decide (s = t).

(** Go's [<] on strings is lexicographic on bytes. *)
Fixpoint bytes_leb (s t : bytes) : bool :=
  match s, t with
  | [], _ => true
  | _ :: _, [] => false
  | a :: s, b :: t =>
      if b2z a <? b2z b then true
      else if b2z b <? b2z a then false
      else bytes_leb s t
  end.

Definition bytes_ltb (s t : bytes) : bool := negb (bytes_leb t s).

Lemma Split_nonempty sep s : Split sep s <> [].
Proof.
  destruct s as [|c s]; simpl; [done|].
  destruct (byte_eqb c sep); [done|]. by destruct (Split sep s).
Qed.

Lemma Join_cons sep p ps :
  ps <> [] -> Join sep (p :: ps) = p ++ sep ++ Join sep ps.
Proof. by destruct ps. Qed.

Lemma Join_snoc sep ps p : ps <> [] -> Join sep (ps ++ [p]) = Join sep ps ++ sep ++ p.
Proof.
  induction ps as [|q ps IH]; [done|]. intros _. destruct ps as [|r ps]; [done|].
  change ((q :: r :: ps) ++ [p]) with (q :: ((r :: ps) ++ [p])).
  rewrite Join_cons, IH by done. rewrite (Join_cons sep q (r :: ps)) by done. by rewrite <- !app_assoc.
Qed.

Lemma Join_Split sep s : Join [sep] (Split sep s) = s.
Proof.
  induction s as [|c s IH]; simpl; [done|].
  destruct (byte_eqb c sep) eqn:E.
  - apply byte_eqb_eq in E as ->.
    rewrite Join_cons by apply Split_nonempty. by rewrite IH.
  - pose proof (Split_nonempty sep s).
    destruct (Split sep s) as [|p [|q ps]]; [done| |].
    + simpl in *. by rewrite IH.
    + rewrite Join_cons in * by done. simpl. by rewrite <- IH.
Qed.

Lemma Split_noin sep s : sep ∉ s -> Split sep s = [s].
Proof.
  induction s as [|c s IH]; intros Hn; simpl; [done|].
  apply not_elem_of_cons in Hn as [Hc Hs].
  destruct (byte_eqb c sep) eqn:E.
  - by apply byte_eqb_eq in E as ->.
  - by rewrite IH.
Qed.

Lemma Split_app sep p s :
  sep ∉ p -> Split sep (p ++ sep :: s) = p :: Split sep s.
Proof.
  induction p as [|c p IH]; intros Hn; simpl.
  - by rewrite byte_eqb_refl.
  - apply not_elem_of_cons in Hn as [Hc Hs].
    destruct (byte_eqb c sep) eqn:E.
    + by apply byte_eqb_eq in E as ->.
    + by rewrite IH.
Qed.

Lemma Split_Join sep ps :
  ps <> [] -> Forall (fun p => sep ∉ p) ps -> Split sep (Join [sep] ps) = ps.
Proof.
  induction ps as [|p [|q ps] IH]; intros Hne Hf; [done| |].
  - apply Forall_cons_1 in Hf as [Hp _]. by apply Split_noin.
  - apply Forall_cons_1 in Hf as [Hp Hf].
    rewrite Join_cons by done.
    change (p ++ [sep] ++ Join [sep] (q :: ps)) with (p ++ sep :: Join [sep] (q :: ps)).
    rewrite Split_app by done. by rewrite IH.
Qed.

Lemma Split_pieces sep s : Forall (fun p => sep ∉ p) (Split sep s).
Proof.
  induction s as [|c s IH]; simpl.
  - repeat constructor. apply not_elem_of_nil.
  - destruct (byte_eqb c sep) eqn:E.
    + constructor; [apply not_elem_of_nil|done].
    + apply byte_eqb_neq in E.
      destruct (Split sep s) as [|p ps].
      * repeat constructor. apply not_elem_of_cons; split; [done|apply not_elem_of_nil].
      * apply Forall_cons_1 in IH as [Hp Hf]. constructor; [by apply not_elem_of_cons|done].
Qed.

(** The order of Go strings is total. *)
Lemma bytes_leb_refl s : bytes_leb s s = true.
Proof.
  induction s as [|a s IH]; simpl; [done|].
  destruct (b2z a <? b2z a) eqn:E; [done|done].
Qed.

Lemma bytes_leb_total s t : bytes_leb s t = false -> bytes_leb t s = true.
Proof.
  revert t; induction s as [|a s IH]; intros [|b t]; simpl; try done.
  destruct (Z.ltb_spec (b2z a) (b2z b)), (Z.ltb_spec (b2z b) (b2z a)); try done.
  apply IH.
Qed.

Lemma bytes_leb_antisym s t :
  bytes_leb s t = true -> bytes_leb t s = true -> s = t.
Proof.
  revert t; induction s as [|a s IH]; intros [|b t]; simpl; try done.
  destruct (Z.ltb_spec (b2z a) (b2z b)), (Z.ltb_spec (b2z b) (b2z a)); try done; try lia.
  intros. assert (a = b) as -> by (apply b2z_inj; lia). f_equal. auto.
Qed.

Lemma bytes_leb_trans s t u :
  bytes_leb s t = true -> bytes_leb t u = true -> bytes_leb s u = true.
Proof.
  revert t u; induction s as [|a s IH]; intros [|b t] [|c u]; simpl; try done.
  destruct (Z.ltb_spec (b2z a) (b2z b)), (Z.ltb_spec (b2z b) (b2z c)),
    (Z.ltb_spec (b2z a) (b2z c)); try done; try lia;
  destruct (Z.ltb_spec (b2z b) (b2z a)), (Z.ltb_spec (b2z c) (b2z b)),
    (Z.ltb_spec (b2z c) (b2z a)); try done; try lia.
  apply IH.
Qed.

Definition bytes_le (s t : bytes) : Prop := bytes_leb s t = true.

#[export] Instance bytes_le_dec : RelDecision bytes_le :=
  fun s t => decide (bytes_leb s t = true).
#[export] Instance bytes_le_total : Total bytes_le.
Proof.
  intros s t. unfold bytes_le.
  destruct (bytes_leb s t) eqn:E; [by left|right; by apply bytes_leb_total].
Qed.
#[export] Instance bytes_le_po : PartialOrder bytes_le.
Proof.
  repeat split.
  - intros s. apply bytes_leb_refl.
  - intros s t u. apply bytes_leb_trans.
  - intros s t. apply bytes_leb_antisym.
Qed.

Lemma bytes_eqb_eq s t : bytes_eqb s t = true <-> s = t.
Proof. apply bool_decide_eq_true. Qed.

Lemma HasPrefix_app p s : HasPrefix (p ++ s) p = true.
Proof. induction p as [|b p IH]; simpl; [done|]. by rewrite byte_eqb_refl, IH. Qed.

Lemma HasPrefix_spec s p : HasPrefix s p = true -> s = p ++ drop (length p) s.
Proof.
  revert s; induction p as [|b p IH]; intros s H; [done|].
  destruct s as [|c s]; simpl in *; [done|].
  apply andb_prop in H as [Hb%byte_eqb_eq H]. subst. f_equal. auto.
Qed.

Lemma TrimLeft_app s t cutset :
  Forall (fun c => in_set cutset c = true) s -> TrimLeft (s ++ t) cutset = TrimLeft t cutset.
Proof. induction 1 as [|c s Hc Hs IH]; simpl; [done|]. by rewrite Hc. Qed.

Lemma TrimLeft_stop s cutset :
  (forall c, head s = Some c -> in_set cutset c = false) -> TrimLeft s cutset = s.
Proof. destruct s as [|c s]; simpl; [done|]. intros H. by rewrite (H c). Qed.

(** ** [encoding/hex] *)

Definition hextable : bytes := str "0123456789abcdef".

Definition hex_digit (v : Z) : byte :=
  match zindex hextable v with Some b => b | None => x00 end.

(** [hex.Encode]: two lower-case digits per byte, high nibble first. *)
Fixpoint hex_encode (l : bytes) : bytes :=
  match l with
  | [] => []
  | b :: l => hex_digit (b2z b `div` 16) :: hex_digit (b2z b `mod` 16) :: hex_encode l
  end.

(** [fromHexChar]. *)
Definition hex_value (c : byte) : option Z :=
  let v := b2z c in
  if (48 <=? v) && (v <=? 57) then Some (v - 48)
  else if (97 <=? v) && (v <=? 102) then Some (v - 97 + 10)
  else if (65 <=? v) && (v <=? 70) then Some (v - 65 + 10)
  else None.

(** [hex.Decode]; [None] is its error. *)
Fixpoint hex_decode (l : bytes) : option bytes :=
  match l with
  | [] => Some []
  | [_] => None
  | a :: b :: l =>
      x ← hex_value a; y ← hex_value b; r ← hex_decode l; Some (z2b (x * 16 + y) :: r)
  end.

(** [bytes.ToUpper] on an ASCII string. *)
Definition ascii_upper (c : byte) : byte :=
  if (97 <=? b2z c) && (b2z c <=? 122) then z2b (b2z c - 32) else c.

Definition ToUpper (l : bytes) : bytes := ascii_upper <$> l.

Lemma length_hex_encode l : length (hex_encode l) = (2 * length l)%nat.
Proof. induction l as [|b l IH]; simpl; [done|]. lia. Qed.

Lemma hex_digit_value v :
  0 <= v < 16 -> hex_value (ascii_upper (hex_digit v)) = Some v.
Proof.
  intros H.
  assert (v = 0 \/ v = 1 \/ v = 2 \/ v = 3 \/ v = 4 \/ v = 5 \/ v = 6 \/ v = 7 \/
          v = 8 \/ v = 9 \/ v = 10 \/ v = 11 \/ v = 12 \/ v = 13 \/ v = 14 \/ v = 15) as C by lia.
  repeat destruct C as [->|C]; try reflexivity. subst v. reflexivity.
Qed.

Lemma hex_decode_encode l : hex_decode (ToUpper (hex_encode l)) = Some l.
Proof.
  induction l as [|b l IH]; [done|].
  cbn [hex_encode]. unfold ToUpper in *.
  rewrite !fmap_cons. cbn [hex_decode]. pose proof (b2z_range b).
  assert (0 <= b2z b `div` 16 < 16).
  { split; [apply Z.div_pos; lia|apply Z.div_lt_upper_bound; lia]. }
  rewrite !hex_digit_value by (done || (apply Z.mod_pos_bound; lia)).
  simpl. rewrite IH. simpl. do 2 f_equal.
  rewrite Z.mul_comm, <- Z.div_mod by lia. apply z2b_b2z.
Qed.

(** ** Searching a substring *)

(** [bytes.Index] and [strings.Index]: the first occurrence. *)
Fixpoint Index (s sep : bytes) : option nat :=
  if HasPrefix s sep then Some 0%nat
  else match s with [] => None | _ :: s => S <$> Index s sep end.

(** [bytes.Count] of a non-empty [sep]: occurrences that do not overlap. *)
Fixpoint count_fuel (fuel : nat) (s sep : bytes) : nat :=
  match fuel with
  | O => 0
  | S fuel =>
      match Index s sep with
      | None => 0
      | Some i => S (count_fuel fuel (drop (i + length sep) s) sep)
      end
  end.

Definition Count (s sep : bytes) : nat := count_fuel (length s) s sep.

Lemma HasPrefix_take s p : HasPrefix s p = bool_decide (take (length p) s = p).
Proof.
  revert s. induction p as [|c p IH]; intros s; [done|]. destruct s as [|d s]; [done|]. cbn [HasPrefix length take].
  rewrite IH. destruct (byte_eqb c d) eqn:E.
  - apply byte_eqb_eq in E as ->. apply bool_decide_ext. split; [by intros ->|by intros [= ->]].
  - apply byte_eqb_neq in E. symmetry. apply bool_decide_eq_false_2. naive_solver.
Qed.

Lemma Index_spec s sep i :
  Index s sep = Some i <->
  (i <= length s)%nat /\ HasPrefix (drop i s) sep = true /\ forall j, (j < i)%nat -> HasPrefix (drop j s) sep = false.
Proof.
  revert i. induction s as [|c s IH]; intros i; cbn [Index].
  - destruct (HasPrefix [] sep) eqn:E.
    + split; [intros [= <-]; rewrite drop_0; split_and!; [done|done|lia]|]. intros (Hi & _). cbn in Hi. f_equal. lia.
    + split; [done|]. intros (_ & H & _). by rewrite drop_nil, E in H.
  - destruct (HasPrefix (c :: s) sep) eqn:E.
    + split; [intros [= <-]; split_and!; [lia|done|lia]|]. intros (_ & _ & H). destruct i as [|i]; [done|].
      specialize (H 0%nat ltac:(lia)). by rewrite drop_0, E in H.
    + split.
      * intros (k & Hk & ->)%fmap_Some. apply IH in Hk as (H1 & H2 & H3). split_and!; [cbn; lia|done|].
        intros [|j] Hj; [done|]. apply H3. lia.
      * intros (H1 & H2 & H3). destruct i as [|i]; [by rewrite drop_0, E in H2|].
        assert (Index s sep = Some i) as ->; [|done]. apply IH. split_and!; [cbn in H1; lia|done|].
        intros j Hj. apply (H3 (S j)). lia.
Qed.

(** ** [strconv] *)

(** The two errors of [strconv.NumError]. *)
Inductive num_err := ErrSyntax | ErrRange.

#[export] Instance num_err_eq_dec : EqDecision num_err.
Proof. solve_decision. Defined.

Definition digit_value (c : byte) : option Z :=
  let v := b2z c in
  if (48 <=? v) && (v <=? 57) then Some (v - 48)
  else if (97 <=? v) && (v <=? 122) then Some (v - 97 + 10)
  else if (65 <=? v) && (v <=? 90) then Some (v - 65 + 10)
  else None.

(** The digit loop of [strconv.ParseUint] for a given base: the value, with
    the error if there is one (a syntax error gives 0, an overflow the largest
    value of the width). *)
Fixpoint parse_digits (base maxval : Z) (n : Z) (s : bytes) : Z * option num_err :=
  match s with
  | [] => (n, None)
  | c :: s =>
      match digit_value c with
      | None => (0, Some ErrSyntax)
      | Some v =>
          if base <=? v then (0, Some ErrSyntax)
          else if maxval <? n * base + v then (maxval, Some ErrRange)
          else parse_digits base maxval (n * base + v) s
      end
  end.

Definition ParseUint (s : bytes) (base bits : Z) : Z * option num_err :=
  match s with
  | [] => (0, Some ErrSyntax)
  | _ => parse_digits base (2 ^ bits - 1) 0 s
  end.

(** [strconv.ParseUint(s, 0, bits)]: the base is given by a prefix. *)
Definition ParseUint0 (s : bytes) (bits : Z) : Z * option num_err :=
  match s with
  | x30 :: x78 :: c :: d => ParseUint (c :: d) 16 bits
  | x30 :: x58 :: c :: d => ParseUint (c :: d) 16 bits
  | x30 :: d => ParseUint (x30 :: d) 8 bits
  | _ => ParseUint s 10 bits
  end.

(** [strconv.ParseInt(s, 10, 64)], which [strconv.Atoi] is on a 64-bit host. *)
Definition Atoi (s : bytes) : Z * option num_err :=
  let '(neg, d) := match s with
                   | c :: s' => if byte_eqb c x2b then (false, s')
                                else if byte_eqb c x2d then (true, s')
                                else (false, s)
                   | [] => (false, s)
                   end in
  let '(un, err) := ParseUint d 10 64 in
  match err with
  | Some ErrSyntax => (0, Some ErrSyntax)
  | _ =>
      if negb neg && (2 ^ 63 <=? un) then (2 ^ 63 - 1, Some ErrRange)
      else if neg && (2 ^ 63 <? un) then (- 2 ^ 63, Some ErrRange)
      else (if neg then - un else un, None)
  end.

(** [strconv.Itoa] and the verb [%d]. *)
Fixpoint dec_digits (fuel : nat) (z : Z) (acc : bytes) : bytes :=
  match fuel with
  | O => acc
  | S fuel =>
      let acc := z2b (48 + z `mod` 10) :: acc in
      if z <? 10 then acc else dec_digits fuel (z `div` 10) acc
  end.

Definition Itoa (z : Z) : bytes :=
  if z <? 0 then x2d :: dec_digits (S (Z.to_nat (Z.log2 (- z)))) (- z) []
  else dec_digits (S (Z.to_nat (Z.log2 z))) z [].

Example Itoa_ex1 : Itoa 0 = str "0". Proof. reflexivity. Qed.
Example Itoa_ex2 : Itoa (-1234567) = str "-1234567". Proof. reflexivity. Qed.
Example Atoi_ex1 : Atoi (str "-00120") = (-120, None). Proof. reflexivity. Qed.
Example Atoi_ex2 : Atoi (str "12a") = (0, Some ErrSyntax). Proof. reflexivity. Qed.
Example Atoi_ex3 : Atoi (str "9223372036854775808") = (2 ^ 63 - 1, Some ErrRange).
Proof. reflexivity. Qed.

(** ** [bufio.Scanner] with [ScanLines]

    The lines of a text without their line feed and without one carriage return before
    it; a last line without line feed counts unless it is empty.  A line of 64 KiB or
    more stops the scanner with [ErrTooLong]. *)
Definition MaxScanTokenSize : nat := Z.to_nat 65536.

Definition dropCR (l : bytes) : bytes :=
  match last l with
  | Some x0d => take (length l - 1) l
  | _ => l
  end.

(** The pieces between line feeds, an empty last piece left out. *)
Definition raw_lines (s : bytes) : list bytes :=
  let ps := Split x0a s in
  match last ps with
  | Some [] => take (length ps - 1) ps
  | _ => ps
  end.

Fixpoint scan_tokens (ls : list bytes) : list bytes * option error :=
  match ls with
  | [] => ([], None)
  | l :: ls =>
      if (MaxScanTokenSize <=? length l)%nat then ([], Some (Errorf "bufio.Scanner: token too long"))
      else let '(ts, e) := scan_tokens ls in (dropCR l :: ts, e)
  end.

Definition ScanLines (s : bytes) : list bytes * option error := scan_tokens (raw_lines s).

Example ScanLines_ex : ScanLines (str "ab
c") = ([str "ab"; str "c"], None).
Proof. reflexivity. Qed.

(** ** Texts as lists of lines *)

Definition unlines (ls : list bytes) : bytes := concat ((fun l => l ++ [x0a]) <$> ls).

(** Lines have no line feed. *)
Definition is_line (l : bytes) : Prop := x0a ∉ l.

Lemma unlines_cons l ls : unlines (l :: ls) = l ++ x0a :: unlines ls.
Proof. unfold unlines. rewrite fmap_cons. cbn [concat]. by rewrite <- app_assoc. Qed.

Lemma unlines_app ls ks : unlines (ls ++ ks) = unlines ls ++ unlines ks.
Proof. unfold unlines. by rewrite fmap_app, concat_app. Qed.

Lemma raw_lines_cons l s : is_line l -> raw_lines (l ++ x0a :: s) = l :: raw_lines s.
Proof.
  intros Hl. unfold raw_lines. rewrite Split_app by done. pose proof (Split_nonempty x0a s) as Hne.
  destruct (Split x0a s) as [|p ps]; [done|]. change (last (l :: p :: ps)) with (last (p :: ps)).
  destruct (last (p :: ps)) as [[|]|]; [|done|done]. cbn [length]. rewrite !Nat.sub_succ, !Nat.sub_0_r. done.
Qed.

Lemma raw_lines_unlines ls s : Forall is_line ls -> raw_lines (unlines ls ++ s) = ls ++ raw_lines s.
Proof.
  induction 1 as [|l ls Hl _ IH]; [done|]. rewrite unlines_cons, <- app_assoc. cbn [app].
  by rewrite raw_lines_cons, IH.
Qed.

Lemma raw_lines_last t : is_line t -> t <> [] -> raw_lines t = [t].
Proof. intros Ht Hne. unfold raw_lines. rewrite Split_noin by done. by destruct t. Qed.

(** Every text is terminated lines and a rest. *)
Lemma text_view s : exists ls t, s = unlines ls ++ t /\ Forall is_line ls /\ is_line t.
Proof.
  induction s as [|c s (ls & t & -> & Hls & Ht)].
  - exists [], []. split_and!; [done|constructor|apply not_elem_of_nil].
  - destruct (decide (c = x0a)) as [->|Hc].
    + exists ([] :: ls), t. split_and!; [done| |done]. constructor; [apply not_elem_of_nil|done].
    + destruct ls as [|l ls].
      * exists [], (c :: t). split_and!; [done|done|]. by apply not_elem_of_cons.
      * apply Forall_cons in Hls as [Hl Hls]. exists ((c :: l) :: ls), t. split_and!; [|constructor; [by apply not_elem_of_cons|done]|done].
        by rewrite !unlines_cons, <- !app_assoc.
Qed.

Lemma unlines_Join ls : ls <> [] -> unlines ls = Join [x0a] ls ++ [x0a].
Proof.
  induction ls as [|l [|k ls] IH]; intros Hne; [done|by rewrite unlines_cons|].
  rewrite unlines_cons, IH, (Join_cons [x0a] l (k :: ls)) by done. by rewrite <- !app_assoc.
Qed.

(** [strings.SplitN(s, sep, n)] for a one-byte separator and [n] > 0. *)
Fixpoint SplitN (sep : byte) (n : nat) (s : bytes) : list bytes :=
  match n with
  | O => []
  | S O => [s]
  | S n =>
      match Split sep s with
      | [] | [_] => [s]
      | p :: _ => p :: SplitN sep n (drop (S (length p)) s)
      end
  end.

Example SplitN_ex : SplitN x2f 3 (str "a/b/c/d") = [str "a"; str "b"; str "c/d"].
Proof. reflexivity. Qed.

(** ** Numbers in decimal *)

Definition is_digit (c : byte) : bool := (48 <=? b2z c) && (b2z c <=? 57).

Lemma digit_byte v : 0 <= v < 10 -> is_digit (z2b (48 + v)) = true /\ digit_value (z2b (48 + v)) = Some v.
Proof.
  intros Hv. unfold is_digit, digit_value. rewrite b2z_z2b_small by lia.
  destruct (Z.leb_spec 48 (48 + v)); [|lia]. destruct (Z.leb_spec (48 + v) 57); [|lia].
  simpl. split; [done|]. f_equal. lia.
Qed.

Lemma parse_digits_step maxval n c v s :
  digit_value c = Some v -> 0 <= v < 10 -> n * 10 + v <= maxval ->
  parse_digits 10 maxval n (c :: s) = parse_digits 10 maxval (n * 10 + v) s.
Proof.
  intros Hc Hv Hm. simpl. rewrite Hc. destruct (Z.leb_spec 10 v); [lia|].
  destruct (Z.ltb_spec maxval (n * 10 + v)); [lia|done].
Qed.

(** The digits of [z] in front of [acc]: they parse as [z] and then [acc]. *)
Lemma dec_digits_spec fuel z acc :
  0 <= z < 2 ^ Z.of_nat fuel -> (0 < fuel)%nat ->
  exists ds, dec_digits fuel z acc = ds ++ acc /\ ds <> [] /\ forallb is_digit ds = true /\
    forall maxval, z <= maxval -> parse_digits 10 maxval 0 (ds ++ acc) = parse_digits 10 maxval z acc.
Proof.
  revert z acc. induction fuel as [|fuel IH]; intros z acc Hz Hf; [lia|]. cbn [dec_digits].
  pose proof (Z.mod_pos_bound z 10 eq_refl) as Hm. pose proof (Z.div_mod z 10 ltac:(lia)) as Hdm.
  destruct (digit_byte _ Hm) as [Hd1 Hd2].
  destruct (Z.ltb_spec z 10) as [Hlt|Hge].
  - exists [z2b (48 + z `mod` 10)]. split_and!; [done|done|by simpl; rewrite Hd1|].
    intros maxval Hmax. rewrite Z.mod_small in * by lia. cbn [app].
    rewrite (parse_digits_step _ _ _ _ _ Hd2) by lia. f_equal; lia.
  - assert (0 <= z `div` 10 < 2 ^ Z.of_nat fuel) as Hq.
    { split; [apply Z.div_pos; lia|]. apply Z.div_lt_upper_bound; [lia|].
      rewrite Nat2Z.inj_succ, Z.pow_succ_r in Hz by lia. lia. }
    assert (0 < fuel)%nat as Hf' by (destruct fuel; [simpl in Hz; lia|lia]).
    destruct (IH (z `div` 10) (z2b (48 + z `mod` 10) :: acc) Hq Hf') as (ds & E & Hne & Hds & Hp).
    exists (ds ++ [z2b (48 + z `mod` 10)]). rewrite E, <- app_assoc. split_and!; [done| | |].
    + by intros [? ?]%app_eq_nil.
    + rewrite forallb_app, Hds. simpl. by rewrite Hd1.
    + intros maxval Hmax. cbn [app]. rewrite Hp by lia.
      rewrite (parse_digits_step _ _ _ _ _ Hd2) by lia. f_equal; lia.
Qed.

Lemma Itoa_spec z :
  0 <= z -> exists c ds, Itoa z = c :: ds /\ forallb is_digit (c :: ds) = true /\
    forall maxval, z <= maxval -> parse_digits 10 maxval 0 (c :: ds) = (z, None).
Proof.
  intros Hz. unfold Itoa. destruct (Z.ltb_spec z 0); [lia|].
  destruct (dec_digits_spec (S (Z.to_nat (Z.log2 z))) z []) as (ds & -> & Hne & Hd & Hp); [|lia|].
  - split; [done|]. rewrite Nat2Z.inj_succ, Z2Nat.id by apply Z.log2_nonneg.
    destruct (decide (z = 0)) as [->|]; [done|]. apply Z.log2_spec. lia.
  - rewrite app_nil_r in *. destruct ds as [|c ds]; [done|]. exists c, ds. split_and!; [done|done|].
    intros maxval Hm. by rewrite Hp.
Qed.

(** The digits of a positive number do not begin with a zero. *)
Lemma dec_digits_head fuel z acc :
  0 < z < 2 ^ Z.of_nat fuel -> exists c ds, dec_digits fuel z acc = c :: ds /\ c <> x30.
Proof.
  revert z acc. induction fuel as [|fuel IH]; intros z acc Hz; [cbn in Hz; lia|]. cbn [dec_digits].
  destruct (Z.ltb_spec z 10) as [Hs|Hl].
  - eexists _, _. split; [done|]. intros E. apply (f_equal b2z) in E. rewrite b2z_z2b_small, Z.mod_small in E; [|lia|rewrite Z.mod_small; lia].
    change (b2z x30) with 48 in E. lia.
  - apply IH. rewrite Nat2Z.inj_succ, Z.pow_succ_r in Hz by lia. split; [apply Z.div_str_pos; lia|].
    apply Z.div_lt_upper_bound; lia.
Qed.

Lemma Itoa_head z : 0 < z -> exists c ds, Itoa z = c :: ds /\ c <> x30.
Proof.
  intros Hz. unfold Itoa. destruct (Z.ltb_spec z 0); [lia|]. apply dec_digits_head. split; [done|].
  rewrite Nat2Z.inj_succ, Z2Nat.id by apply Z.log2_nonneg. by apply Z.log2_spec.
Qed.

(** A number in decimal is read back by the base of its prefix. *)
Lemma ParseUint0_Itoa z bits : 0 <= z < 2 ^ bits -> ParseUint0 (Itoa z) bits = (z, None).
Proof.
  intros Hz. destruct (decide (z = 0)) as [->|].
  { change (ParseUint0 (Itoa 0) bits) with (parse_digits 8 (2 ^ bits - 1) 0 [x30]). cbn [parse_digits].
    change (digit_value x30) with (Some 0). cbv iota. change (8 <=? 0) with false. cbv iota. change (0 * 8 + 0) with 0.
    destruct (Z.ltb_spec (2 ^ bits - 1) 0); [lia|done]. }
  destruct (Itoa_head z ltac:(lia)) as (c & ds & E & Hc). destruct (Itoa_spec z ltac:(lia)) as (c' & ds' & E' & _ & Hp).
  rewrite E in E'. injection E' as <- <-. rewrite E.
  assert (ParseUint0 (c :: ds) bits = ParseUint (c :: ds) 10 bits) as -> by (destruct c; done). apply Hp. lia.
Qed.

Lemma Atoi_Itoa z : 0 <= z < 2 ^ 63 -> Atoi (Itoa z) = (z, None).
Proof.
  intros Hz. destruct (Itoa_spec z ltac:(lia)) as (c & ds & -> & Hd & Hp). simpl in Hd.
  apply andb_prop in Hd as [Hc Hd]. unfold is_digit in Hc. apply andb_prop in Hc as [Hc1 Hc2].
  unfold Atoi. assert (byte_eqb c x2b = false) as ->
    by (apply byte_eqb_neq; intros ->; vm_compute in Hc1; discriminate).
  assert (byte_eqb c x2d = false) as ->
    by (apply byte_eqb_neq; intros ->; vm_compute in Hc1; discriminate).
  unfold ParseUint. rewrite Hp by lia. simpl negb. destruct (Z.leb_spec (2 ^ 63) z); [lia|done].
Qed.

Lemma parse_digits_nonneg base maxval n s v e :
  0 <= base -> 0 <= n -> 0 <= maxval -> parse_digits base maxval n s = (v, e) -> 0 <= v.
Proof.
  intros Hb Hn Hm. revert n Hn. induction s as [|c s IH]; intros n Hn; simpl; [by intros [= <- _]|].
  destruct (digit_value c) as [d|] eqn:Ed; [|by intros [= <- _]].
  destruct (base <=? d); [by intros [= <- _]|]. destruct (maxval <? n * base + d); [by intros [= <- _]|].
  apply IH. unfold digit_value in Ed. pose proof (b2z_range c).
  repeat case_match; simplify_eq; nia.
Qed.
