(* ===== verification/GoUtf8.v ===== *)
(** * The Go standard library's [unicode/utf8]

    Decoding and encoding of one rune, the conversion [string(rune)] and the decoding of a
    whole string as [range] and [[]rune] do it: an invalid byte counts as one U+FFFD. *)

From Stdlib Require Import Strings.String.
From S2P Require Export GoStrings.

Definition RuneError : Z := 0xfffd.
Definition MaxRune : Z := 0x10ffff.

Definition is_cont (lo hi : Z) (b : byte) : bool := (lo <=? b2z b) && (b2z b <=? hi).

(** [utf8.DecodeRune]: the rune and its width; width 0 at the end of the string. *)
Definition DecodeRune (s : bytes) : Z * nat :=
  match s with
  | [] => (RuneError, 0%nat)
  | b0 :: s =>
      let c := b2z b0 in
      let two b1 := Z.lor (Z.shiftl (Z.land c 0x1f) 6) (Z.land (b2z b1) 0x3f) in
      let three b1 b2 := Z.lor (Z.shiftl (Z.land c 0x0f) 12)
        (Z.lor (Z.shiftl (Z.land (b2z b1) 0x3f) 6) (Z.land (b2z b2) 0x3f)) in
      let four b1 b2 b3 := Z.lor (Z.shiftl (Z.land c 0x07) 18)
        (Z.lor (Z.shiftl (Z.land (b2z b1) 0x3f) 12)
          (Z.lor (Z.shiftl (Z.land (b2z b2) 0x3f) 6) (Z.land (b2z b3) 0x3f))) in
      let bad := (RuneError, 1%nat) in
      if c <? 0x80 then (c, 1%nat)
      else if (0xc2 <=? c) && (c <=? 0xdf) then
        match s with
        | b1 :: _ => if is_cont 0x80 0xbf b1 then (two b1, 2%nat) else bad
        | _ => bad
        end
      else if (0xe0 <=? c) && (c <=? 0xef) then
        let lo := if c =? 0xe0 then 0xa0 else 0x80 in
        let hi := if c =? 0xed then 0x9f else 0xbf in
        match s with
        | b1 :: b2 :: _ => if is_cont lo hi b1 && is_cont 0x80 0xbf b2 then (three b1 b2, 3%nat) else bad
        | _ => bad
        end
      else if (0xf0 <=? c) && (c <=? 0xf4) then
        let lo := if c =? 0xf0 then 0x90 else 0x80 in
        let hi := if c =? 0xf4 then 0x8f else 0xbf in
        match s with
        | b1 :: b2 :: b3 :: _ =>
            if is_cont lo hi b1 && is_cont 0x80 0xbf b2 && is_cont 0x80 0xbf b3
            then (four b1 b2 b3, 4%nat) else bad
        | _ => bad
        end
      else bad
  end.

(** [string(rune)]. *)
Definition EncodeRune (r : Z) : bytes :=
  let r := if (r <? 0) || (MaxRune <? r) || ((0xd800 <=? r) && (r <=? 0xdfff)) then RuneError else r in
  if r <? 0x80 then [z2b r]
  else if r <? 0x800 then [z2b (0xc0 + Z.shiftr r 6); z2b (0x80 + Z.land r 0x3f)]
  else if r <? 0x10000 then
    [z2b (0xe0 + Z.shiftr r 12); z2b (0x80 + Z.land (Z.shiftr r 6) 0x3f); z2b (0x80 + Z.land r 0x3f)]
  else [z2b (0xf0 + Z.shiftr r 18); z2b (0x80 + Z.land (Z.shiftr r 12) 0x3f);
        z2b (0x80 + Z.land (Z.shiftr r 6) 0x3f); z2b (0x80 + Z.land r 0x3f)].

Fixpoint runes_fuel (fuel : nat) (s : bytes) : list Z :=
  match fuel, s with
  | O, _ | _, [] => []
  | S fuel, _ => let '(r, w) := DecodeRune s in r :: runes_fuel fuel (drop w s)
  end.

(** [[]rune(s)]. *)
Definition runes (s : bytes) : list Z := runes_fuel (length s) s.

Example DecodeRune_ex1 : DecodeRune [xe2; x82; xac; x41] = (0x20ac, 3%nat).
Proof. reflexivity. Qed.
Example DecodeRune_ex2 : DecodeRune [xe2; x41] = (RuneError, 1%nat).
Proof. reflexivity. Qed.
Example EncodeRune_ex : EncodeRune 0x1f600 = [xf0; x9f; x98; x80].
Proof. reflexivity. Qed.

Lemma DecodeRune_width s : s <> [] -> (1 <= snd (DecodeRune s) <= length s)%nat.
Proof.
  destruct s as [|b0 s]; [done|]. intros _. unfold DecodeRune.
  repeat case_match; simpl; lia.
Qed.

Lemma DecodeRune_ascii b s : b2z b < 0x80 -> DecodeRune (b :: s) = (b2z b, 1%nat).
Proof. intros Hb. unfold DecodeRune. destruct (Z.ltb_spec (b2z b) 0x80); [done|lia]. Qed.

(** A byte below 0x80 is its own encoding; a byte from 0x80 on becomes two. *)
Lemma EncodeRune_ascii b : b2z b < 0x80 -> EncodeRune (b2z b) = [b].
Proof.
  intros Hb. pose proof (b2z_range b). unfold EncodeRune, MaxRune.
  destruct (Z.ltb_spec (b2z b) 0); [lia|]. destruct (Z.ltb_spec 0x10ffff (b2z b)); [lia|].
  destruct (Z.leb_spec 0xd800 (b2z b)); [lia|]. simpl.
  destruct (Z.ltb_spec (b2z b) 0x80); [|lia]. by rewrite z2b_b2z.
Qed.

Lemma EncodeRune_high b : 0x80 <= b2z b -> length (EncodeRune (b2z b)) = 2%nat.
Proof.
  intros Hb. pose proof (b2z_range b). unfold EncodeRune, MaxRune.
  destruct (Z.ltb_spec (b2z b) 0); [lia|]. destruct (Z.ltb_spec 0x10ffff (b2z b)); [lia|].
  destruct (Z.leb_spec 0xd800 (b2z b)); [lia|]. simpl.
  destruct (Z.ltb_spec (b2z b) 0x80); [lia|]. destruct (Z.ltb_spec (b2z b) 0x800); [done|lia].
Qed.

(** ** Line feeds separate runes *)

Lemma runes_fuel_enough k s : (length s <= k)%nat -> runes_fuel k s = runes s.
Proof.
  unfold runes. remember (length s) as n eqn:E. revert k s E. induction n as [n IH] using lt_wf_ind. intros k s -> Hk.
  destruct s as [|c s]; [by destruct k|]. destruct k as [|k]; [cbn in Hk; lia|]. cbn [length runes_fuel].
  pose proof (DecodeRune_width (c :: s) ltac:(done)) as Hw. destruct (DecodeRune (c :: s)) as [r w]. cbn [snd] in Hw. f_equal.
  cbn [length] in *. rewrite (IH (length (drop w (c :: s)))), (IH (length (drop w (c :: s))) ltac:(rewrite length_drop; cbn; lia) (length s));
    rewrite ?length_drop; cbn [length]; try done; lia.
Qed.

Lemma runes_cons s : s <> [] -> runes s = fst (DecodeRune s) :: runes (drop (snd (DecodeRune s)) s).
Proof.
  intros Hs. pose proof (DecodeRune_width s Hs) as Hw. unfold runes at 1. destruct s as [|c s]; [done|]. cbn [length runes_fuel].
  destruct (DecodeRune (c :: s)) as [r w]. cbn [fst snd] in *. f_equal. apply runes_fuel_enough. rewrite length_drop. cbn [length] in *. lia.
Qed.

Lemma is_cont_newline lo hi : 0x80 <= lo -> is_cont lo hi x0a = false.
Proof. intros H. unfold is_cont. change (b2z x0a) with 10. destruct (Z.leb_spec lo 10); [lia|done]. Qed.

(** A line feed ends whatever rune is before it. *)
Lemma DecodeRune_newline a s : a <> [] -> DecodeRune (a ++ x0a :: s) = DecodeRune a.
Proof.
  intros Ha. destruct a as [|b0 a]; [done|]. unfold DecodeRune. cbn [app].
  destruct (b2z b0 <? 0x80); [done|]. destruct ((0xc2 <=? b2z b0) && _).
  { destruct a as [|b1 a]; cbn [app]; [by rewrite is_cont_newline by lia|done]. }
  destruct ((0xe0 <=? b2z b0) && _).
  { assert (0x80 <= if b2z b0 =? 0xe0 then 0xa0 else 0x80) by (destruct (_ =? _); lia).
    destruct a as [|b1 [|b2 a]]; cbn [app]; [|by rewrite is_cont_newline, andb_false_r by lia|done].
    destruct s; [done|]. by rewrite is_cont_newline by lia. }
  destruct ((0xf0 <=? b2z b0) && _); [|done].
  assert (0x80 <= if b2z b0 =? 0xf0 then 0x90 else 0x80) by (destruct (_ =? _); lia).
  destruct a as [|b1 [|b2 [|b3 a]]]; cbn [app]; [| |by rewrite (is_cont_newline 0x80 0xbf), andb_false_r by lia|done].
  - destruct s as [|? [|]]; [done|done|]. by rewrite is_cont_newline by lia.
  - destruct s; [done|]. by rewrite (is_cont_newline 0x80 0xbf), andb_false_r by lia.
Qed.

Lemma runes_newline a s : runes (a ++ x0a :: s) = runes a ++ 10 :: runes s.
Proof.
  remember (length a) as n eqn:E. revert a E. induction n as [n IH] using lt_wf_ind. intros a ->.
  destruct (decide (a = [])) as [->|Ha].
  - cbn [app]. rewrite runes_cons by done. rewrite DecodeRune_ascii by done. done.
  - pose proof (DecodeRune_width a Ha) as Hw. rewrite runes_cons by (by destruct a). rewrite DecodeRune_newline by done.
    rewrite (runes_cons a) by done. cbn [app]. f_equal. rewrite drop_app_le by lia.
    eapply IH; [|done]. rewrite length_drop. destruct a; [done|]. cbn [length] in *. lia.
Qed.
