(* ===== verification/GoPath.v ===== *)
(** * The Go standard library's [path/filepath] on Unix

    [Clean], [Join], [Dir], [Base], [Split], [IsAbs] and [Rel] against the root,
    by their documented rules, and what the callers rely on: a cleaned path has
    no empty, dot or inner dot-dot element, [Dir] shortens a path until it
    reaches ["."] or ["/"], and a path made relative to the root is relative. *)

From Stdlib Require Import Strings.String.
From S2P Require Export GoStrings.

Definition Separator : byte := x2f.
Definition sep : bytes := [Separator].
Definition dot : bytes := str ".".
Definition dotdot : bytes := str "..".

(** The element stack of [Clean], last element first. *)
Definition clean_push (rooted : bool) (acc : list bytes) (c : bytes) : list bytes :=
  if bytes_eqb c [] then acc
  else if bytes_eqb c dot then acc
  else if bytes_eqb c dotdot then
    match acc with
    | [] => if rooted then [] else [c]
    | a :: acc' => if bytes_eqb a dotdot then c :: acc else acc'
    end
  else c :: acc.

Definition clean_stack (rooted : bool) (cs : list bytes) : list bytes :=
  foldl (clean_push rooted) [] cs.

Definition IsAbs (p : bytes) : bool := HasPrefix p sep.

Definition Clean (p : bytes) : bytes :=
  let s := Join sep (reverse (clean_stack (IsAbs p) (GoStrings.Split Separator p))) in
  if IsAbs p then Separator :: s
  else match s with [] => dot | _ => s end.

(** [filepath.Split]: everything up to the last separator, and the rest. *)
Fixpoint dir_part (p : bytes) : bytes :=
  match p with
  | [] => []
  | c :: p =>
      match dir_part p with
      | [] => if byte_eqb c Separator then [c] else []
      | d => c :: d
      end
  end.

Definition file_part (p : bytes) : bytes := drop (length (dir_part p)) p.

Definition Dir (p : bytes) : bytes := Clean (dir_part p).

Definition Base (p : bytes) : bytes :=
  match p with
  | [] => dot
  | _ => match file_part (TrimRight p sep) with
         | [] => sep
         | f => f
         end
  end.

(** [filepath.Join]: leading empty elements are dropped, the rest is joined
    and cleaned. *)
Fixpoint PathJoin (elems : list bytes) : bytes :=
  match elems with
  | [] => []
  | [] :: elems => PathJoin elems
  | elems => Clean (Join sep elems)
  end.

(** [filepath.Rel("/", targ)] for an absolute [targ]. *)
Definition RelRoot (targ : bytes) : bytes :=
  let t := Clean targ in
  if bytes_eqb t sep then dot else drop 1 t.

Example Clean_ex1 : Clean (str "a//b/./../c/") = str "a/c". Proof. reflexivity. Qed.
Example Clean_ex2 : Clean (str "/../x/../../y") = str "/y". Proof. reflexivity. Qed.
Example Clean_ex3 : Clean (str "../../a/..") = str "../..". Proof. reflexivity. Qed.
Example Clean_ex4 : Clean (str "") = str ".". Proof. reflexivity. Qed.
Example Dir_ex1 : Dir (str "usr/lib/x") = str "usr/lib". Proof. reflexivity. Qed.
Example Dir_ex2 : Dir (str "/init") = str "/". Proof. reflexivity. Qed.
Example Base_ex1 : Base (str "/usr/lib//") = str "lib". Proof. reflexivity. Qed.
Example Base_ex2 : Base (str "//") = str "/". Proof. reflexivity. Qed.
Example PathJoin_ex1 : PathJoin [[]; str "/a"; []; str "../b"] = str "/b".
Proof. reflexivity. Qed.
Example RelRoot_ex : RelRoot (str "//etc/./passwd") = str "etc/passwd".
Proof. reflexivity. Qed.

(** ** What a cleaned path looks like *)

(** An element that [Clean] keeps. *)
Definition good_elem (c : bytes) : Prop := c <> [] /\ c <> dot /\ Separator ∉ c.

Lemma clean_push_good rooted acc c :
  Separator ∉ c -> Forall good_elem acc -> Forall good_elem (clean_push rooted acc c).
Proof.
  intros Hc Hacc. unfold clean_push.
  destruct (bytes_eqb c []) eqn:E1; [done|].
  destruct (bytes_eqb c dot) eqn:E2; [done|].
  assert (good_elem c) as Hg.
  { unfold good_elem, bytes_eqb in *. apply bool_decide_eq_false in E1, E2. done. }
  destruct (bytes_eqb c dotdot).
  - destruct Hacc as [|a acc Ha Hacc]; [destruct rooted; auto|].
    destruct (bytes_eqb a dotdot); auto.
  - auto.
Qed.

Lemma clean_fold_good rooted acc cs :
  Forall (fun c => Separator ∉ c) cs -> Forall good_elem acc ->
  Forall good_elem (foldl (clean_push rooted) acc cs).
Proof.
  intros Hcs. revert acc. induction Hcs as [|c cs Hc Hcs IH]; simpl; intros acc Ha; [done|].
  apply IH. by apply clean_push_good.
Qed.

Lemma clean_stack_good rooted p :
  Forall good_elem (clean_stack rooted (GoStrings.Split Separator p)).
Proof. apply clean_fold_good; [apply Split_pieces|done]. Qed.

(** The length of the elements, each with a separator. *)
Definition jlen (ps : list bytes) : nat := sum_list_with (fun p => S (length p)) ps.

Lemma length_Join ps : ps <> [] -> S (length (Join sep ps)) = jlen ps.
Proof.
  induction ps as [|p [|q ps] IH]; intros Hne; [done| |].
  - unfold jlen. simpl. lia.
  - rewrite Join_cons by done. rewrite !length_app. simpl length at 2.
    change (jlen (p :: q :: ps)) with (S (length p) + jlen (q :: ps))%nat.
    rewrite <- IH by done. lia.
Qed.

Lemma jlen_reverse ps : jlen (reverse ps) = jlen ps.
Proof.
  unfold jlen. induction ps as [|p ps IH]; [done|].
  rewrite reverse_cons, sum_list_with_app. simpl. lia.
Qed.

Lemma jlen_push rooted acc c :
  (jlen (clean_push rooted acc c) <= jlen acc + (if bytes_eqb c [] then 0 else S (length c)))%nat.
Proof.
  unfold clean_push.
  destruct (bytes_eqb c []); [lia|].
  destruct (bytes_eqb c dot); [lia|].
  destruct (bytes_eqb c dotdot).
  - destruct acc as [|a acc].
    + destruct rooted; unfold jlen; simpl; lia.
    + destruct (bytes_eqb a dotdot); unfold jlen; simpl; lia.
  - unfold jlen; simpl; lia.
Qed.

Lemma jlen_fold rooted acc cs :
  (jlen (foldl (clean_push rooted) acc cs) <= jlen acc + jlen cs)%nat.
Proof.
  revert acc; induction cs as [|c cs IH]; intros acc; simpl; [lia|].
  pose proof (jlen_push rooted acc c) as Hp. specialize (IH (clean_push rooted acc c)).
  change (jlen (c :: cs)) with (S (length c) + jlen cs)%nat.
  destruct (bytes_eqb c []); lia.
Qed.

Lemma jlen_Split p : jlen (GoStrings.Split Separator p) = S (length p).
Proof.
  rewrite <- (Join_Split Separator p) at 2.
  rewrite length_Join by apply Split_nonempty. done.
Qed.

Lemma IsAbs_Split p :
  IsAbs p = true -> exists cs, GoStrings.Split Separator p = [] :: cs.
Proof.
  unfold IsAbs. destruct p as [|c p]; simpl; [done|].
  intros H. apply andb_prop in H as [H _]. apply byte_eqb_eq in H. subst c.
  rewrite byte_eqb_refl. eauto.
Qed.

Lemma length_Clean p : p <> [] -> (length (Clean p) <= length p)%nat.
Proof.
  intros Hp. unfold Clean.
  set (st := clean_stack _ _).
  assert (length p <> 0%nat) by (destruct p; simpl; [done|lia]).
  destruct (decide (reverse st = [])) as [E|E].
  - rewrite E. simpl. destruct (IsAbs p); simpl; lia.
  - pose proof (length_Join _ E) as HL. rewrite jlen_reverse in HL.
    destruct (IsAbs p) eqn:Ea.
    + apply IsAbs_Split in Ea as [cs Ecs].
      pose proof (jlen_Split p) as HS. rewrite Ecs in HS.
      subst st. unfold clean_stack in HL. rewrite Ecs in HL. simpl in HL.
      unfold clean_stack. rewrite Ecs. simpl.
      pose proof (jlen_fold true [] cs) as Hf.
      change (clean_push true [] []) with (@nil bytes) in *.
      unfold jlen in *. simpl in *. lia.
    + pose proof (jlen_fold false [] (GoStrings.Split Separator p)) as Hf.
      rewrite jlen_Split in Hf. subst st. unfold clean_stack in *.
      change (jlen []) with 0%nat in Hf.
      destruct (Join _ _) eqn:EJ; simpl in *; lia.
Qed.

(** ** [Dir] *)

Lemma Split_snoc c s :
  GoStrings.Split c (s ++ [c]) = GoStrings.Split c s ++ [[]].
Proof.
  induction s as [|a s IH]; simpl.
  - by rewrite byte_eqb_refl.
  - rewrite IH. destruct (byte_eqb a c); [done|].
    pose proof (Split_nonempty c s). by destruct (GoStrings.Split c s).
Qed.

Lemma dir_part_shape p :
  dir_part p = [] \/ exists q, dir_part p = q ++ [Separator].
Proof.
  induction p as [|c p IH]; simpl; [by left|].
  destruct IH as [->|[q ->]].
  - destruct (byte_eqb c Separator) eqn:E; [|by left].
    right. exists []. apply byte_eqb_eq in E. by subst.
  - right. exists (c :: q). by destruct q.
Qed.

Lemma length_dir_part p : (length (dir_part p) <= length p)%nat.
Proof.
  induction p as [|c p IH]; simpl; [lia|].
  destruct (dir_part p); [destruct (byte_eqb c Separator)|]; simpl in *; lia.
Qed.

Lemma dir_part_file_part p : dir_part p ++ file_part p = p.
Proof.
  unfold file_part. induction p as [|c p IH]; simpl; [done|].
  destruct (dir_part p) as [|d ds] eqn:E.
  - simpl in IH. destruct (byte_eqb c Separator); simpl; by rewrite ?drop_0.
  - simpl in *. by rewrite IH.
Qed.

Lemma Clean_snoc q : q <> [] -> Clean (q ++ sep) = Clean q.
Proof.
  intros Hq. unfold Clean, sep.
  assert (IsAbs (q ++ [Separator]) = IsAbs q) as -> by (by destruct q).
  rewrite Split_snoc. unfold clean_stack. rewrite foldl_app. simpl.
  unfold clean_push at 1 3. by rewrite (proj2 (bytes_eqb_eq [] [])).
Qed.

(** [Dir] ends at ["."] or ["/"], or is a strictly shorter path. *)
Lemma Dir_shorter p :
  Dir p = dot \/ Dir p = sep \/ (length (Dir p) < length p)%nat.
Proof.
  unfold Dir. pose proof (length_dir_part p) as HL.
  destruct (dir_part_shape p) as [E|[q E]].
  - left. by rewrite E.
  - rewrite E in *. destruct q as [|c q].
    + right; left. reflexivity.
    + right; right. change [Separator] with sep. rewrite Clean_snoc by done.
      assert (length (Clean (c :: q)) <= length (c :: q))%nat by (by apply length_Clean).
      rewrite length_app in HL. simpl in *. lia.
Qed.

(** ** Relative names *)

Lemma Join_good_not_abs ps :
  ps <> [] -> Forall good_elem ps -> IsAbs (Join sep ps) = false.
Proof.
  intros Hne Hg. destruct Hg as [|p ps (Hp & _ & Hs) Hg]; [done|].
  assert (exists c p', p = c :: p' /\ c <> Separator) as (c & p' & -> & Hc).
  { destruct p as [|c p']; [done|]. exists c, p'. split; [done|].
    intros ->. apply Hs. by left. }
  assert (byte_eqb Separator c = false) as E by (by apply byte_eqb_neq).
  destruct ps; [|rewrite Join_cons by done]; unfold IsAbs; simpl; by rewrite E.
Qed.

(** [Rel("/", p)] is never absolute. *)
Lemma RelRoot_not_abs p : IsAbs p = true -> IsAbs (RelRoot p) = false.
Proof.
  intros Ha. unfold RelRoot. destruct (bytes_eqb (Clean p) sep) eqn:E; [done|].
  unfold Clean in *. rewrite Ha in *. simpl drop.
  set (st := clean_stack _ _) in *.
  destruct (decide (reverse st = [])) as [E'|E'].
  - rewrite E' in E. done.
  - rewrite drop_0. apply Join_good_not_abs; [done|].
    apply Forall_reverse, clean_stack_good.
Qed.

(** ** Paths below the root

    An absolute path is its stack of elements; [rel_of] is the relative name of a stack. *)

Definition stack (p : bytes) : list bytes := clean_stack true (GoStrings.Split Separator p).

Definition rel_of (st : list bytes) : bytes :=
  match st with [] => dot | _ => Join sep (reverse st) end.

(** An element of the stack of an absolute path. *)
Definition plain_elem (c : bytes) : Prop := good_elem c /\ c <> dotdot.

Lemma bytes_eqb_refl s : bytes_eqb s s = true.
Proof. by apply bytes_eqb_eq. Qed.

Lemma bytes_eqb_neq s t : s <> t -> bytes_eqb s t = false.
Proof. intros. unfold bytes_eqb. by apply bool_decide_eq_false_2. Qed.

Lemma clean_push_plain rooted acc c : plain_elem c -> clean_push rooted acc c = c :: acc.
Proof.
  intros [(H1 & H2 & _) H3]. unfold clean_push. by rewrite !bytes_eqb_neq by done.
Qed.

Lemma clean_fold_plain rooted acc cs :
  Forall plain_elem cs -> foldl (clean_push rooted) acc cs = reverse cs ++ acc.
Proof.
  intros Hcs. revert acc. induction Hcs as [|c cs Hc Hcs IH]; intros acc; simpl; [done|].
  by rewrite clean_push_plain, IH, reverse_cons, <- app_assoc.
Qed.

Lemma clean_push_rooted acc c :
  Separator ∉ c -> Forall plain_elem acc -> Forall plain_elem (clean_push true acc c).
Proof.
  intros Hc Hacc. unfold clean_push, bytes_eqb. repeat case_bool_decide; try done.
  - destruct acc as [|a acc]; [done|]. apply Forall_cons in Hacc as [[Ha1 Ha2] Hacc].
    case_bool_decide; done.
  - constructor; [|done]. by repeat split.
Qed.

Lemma stack_plain p : Forall plain_elem (stack p).
Proof.
  unfold stack, clean_stack. pose proof (Split_pieces Separator p) as Hp.
  assert (Forall plain_elem []) as Hn by constructor. revert Hn.
  generalize (@nil bytes) as acc. induction Hp as [|c cs Hc Hcs IH]; intros acc Ha; simpl; [done|].
  apply IH. by apply clean_push_rooted.
Qed.

Lemma Clean_abs p : IsAbs p = true -> Clean p = Separator :: Join sep (reverse (stack p)).
Proof. intros Ha. unfold Clean. by rewrite Ha. Qed.

Lemma Join_nil_inv ps : Forall plain_elem ps -> Join sep ps = [] -> ps = [].
Proof.
  intros Hp HJ. destruct Hp as [|p ps [(Hp & _) _] Hps]; [done|]. exfalso.
  destruct ps; [done|]. rewrite Join_cons in HJ by done. by apply app_eq_nil in HJ as [? _].
Qed.

Lemma RelRoot_stack p : IsAbs p = true -> RelRoot p = rel_of (stack p).
Proof.
  intros Ha. unfold RelRoot. rewrite Clean_abs by done. cbn [drop]. rewrite drop_0. unfold rel_of.
  pose proof (Forall_reverse plain_elem (stack p)) as Hr.
  destruct (stack p) as [|c st] eqn:E; [done|]. rewrite bytes_eqb_neq; [done|].
  intros Heq. injection Heq as Heq. apply Join_nil_inv in Heq.
  - rewrite reverse_cons in Heq. by apply app_eq_nil in Heq as [_ ?].
  - apply Hr. rewrite <- E. apply stack_plain.
Qed.

Lemma Split_abs s : GoStrings.Split Separator (Separator :: s) = [] :: GoStrings.Split Separator s.
Proof. done. Qed.

(** [Clean] does not change the stack. *)
Lemma stack_Clean p : IsAbs p = true -> stack (Clean p) = stack p.
Proof.
  intros Ha. rewrite Clean_abs by done. unfold stack at 1, clean_stack. rewrite Split_abs.
  cbn [foldl]. change (clean_push true [] []) with (@nil bytes).
  pose proof (stack_plain p) as Hp. apply Forall_reverse in Hp.
  destruct (decide (reverse (stack p) = [])) as [E|E].
  - rewrite E. simpl. rewrite <- (reverse_involutive (stack p)), E. done.
  - rewrite Split_Join; [|done|].
    + rewrite clean_fold_plain by done. by rewrite reverse_involutive, app_nil_r.
    + eapply Forall_impl; [exact Hp|]. by intros c [(_ & _ & ?) _].
Qed.

Lemma Split_app_noin q f :
  Separator ∉ f -> GoStrings.Split Separator (q ++ Separator :: f) = GoStrings.Split Separator q ++ [f].
Proof.
  intros Hf. induction q as [|a q IH]; cbn [app].
  - rewrite Split_abs, Split_noin by done. done.
  - simpl. rewrite IH. destruct (byte_eqb a Separator); [done|].
    pose proof (Split_nonempty Separator q). by destruct (GoStrings.Split Separator q).
Qed.

Lemma file_part_noin p : Separator ∉ file_part p.
Proof.
  unfold file_part. induction p as [|c p IH]; simpl; [set_solver|].
  destruct (dir_part p) as [|d ds]; simpl in *.
  - rewrite drop_0 in IH. destruct (byte_eqb c Separator) eqn:E; simpl; [done|].
    apply byte_eqb_neq in E. intros [Hx|Hx]%elem_of_cons; [done|]. by apply IH.
  - done.
Qed.

(** An absolute path is its directory's path and one element more. *)
Lemma abs_split p :
  IsAbs p = true ->
  exists q f, p = q ++ Separator :: f /\ dir_part p = q ++ sep /\
    stack p = clean_push true (stack q) f.
Proof.
  intros Ha. pose proof (dir_part_file_part p) as Hp.
  destruct (dir_part_shape p) as [E|[q E]].
  - exfalso. rewrite E in Hp. simpl in Hp. pose proof (file_part_noin p) as Hn. rewrite Hp in Hn.
    destruct p as [|c p]; [done|]. unfold IsAbs in Ha. simpl in Ha.
    apply andb_prop in Ha as [Ha _]. apply byte_eqb_eq in Ha. subst c. apply Hn. by left.
  - rewrite E, <- app_assoc in Hp. simpl in Hp. exists q, (file_part p). split; [done|].
    split; [done|]. unfold stack, clean_stack.
    rewrite <- Hp at 1. rewrite Split_app_noin by apply file_part_noin. by rewrite foldl_app.
Qed.

Lemma IsAbs_app q s : q <> [] -> IsAbs (q ++ s) = IsAbs q.
Proof. destruct q; [done|]. intros _. done. Qed.

(** The directory of an absolute path is absolute and has the stack of what precedes
    the last separator. *)
Lemma Dir_abs p q f :
  IsAbs p = true -> p = q ++ Separator :: f -> dir_part p = q ++ sep ->
  IsAbs (Dir p) = true /\ stack (Dir p) = stack q /\ (Dir p = sep -> stack q = []).
Proof.
  intros Ha Hp Hd. unfold Dir. rewrite Hd.
  assert (IsAbs (q ++ sep) = true) as Hq.
  { destruct q; [done|]. rewrite IsAbs_app by done. subst p. by rewrite IsAbs_app in Ha by done. }
  assert (stack (q ++ sep) = stack q) as Hs.
  { unfold stack, clean_stack, sep. rewrite Split_snoc, foldl_app. simpl. unfold clean_push at 1.
    by rewrite bytes_eqb_refl. }
  split_and!.
  - rewrite Clean_abs by done. done.
  - by rewrite stack_Clean.
  - intros He. apply (f_equal stack) in He. rewrite stack_Clean, Hs in He by done. by rewrite He.
Qed.

Lemma dir_part_nil f : Separator ∉ f -> dir_part f = [].
Proof.
  induction f as [|c f IH]; [done|]. intros [Hc Hf]%not_elem_of_cons. simpl. rewrite IH by done.
  assert (byte_eqb c Separator = false) as -> by (by apply byte_eqb_neq). done.
Qed.

Lemma dir_part_noin q f : Separator ∉ f -> dir_part (q ++ Separator :: f) = q ++ sep.
Proof.
  intros Hf%dir_part_nil.
  induction q as [|a q IH]; simpl; [by rewrite Hf|].
  rewrite IH. by destruct q.
Qed.

Lemma rel_of_stack st : Forall plain_elem st -> rel_of st <> [] /\ IsAbs (rel_of st) = false.
Proof.
  intros Hs. unfold rel_of. destruct st as [|c st]; [done|].
  assert (reverse (c :: st) <> []) as Hne by (rewrite reverse_cons; by intros [_ ?]%app_eq_nil).
  split.
  - intros HJ. apply Join_nil_inv in HJ; [done|by apply Forall_reverse].
  - apply Join_good_not_abs; [done|]. apply Forall_reverse. eapply Forall_impl; [exact Hs|]. by intros ? [].
Qed.

(** The parent of a relative name drops the top of the stack. *)
Lemma Dir_rel_of c st : Forall plain_elem (c :: st) -> Dir (rel_of (c :: st)) = rel_of st.
Proof.
  intros Hs. assert (Hs' := Hs). apply Forall_cons in Hs' as [[(Hc1 & Hc2 & Hc3) Hc4] Hst].
  unfold rel_of at 1. rewrite reverse_cons. destruct st as [|d st].
  - simpl. unfold Dir. by rewrite dir_part_nil.
  - set (st' := d :: st) in *.
    assert (reverse st' <> []) as Hne by (unfold st'; rewrite reverse_cons; by intros [_ ?]%app_eq_nil).
    rewrite Join_snoc by done. unfold Dir. change (sep ++ c) with (Separator :: c). rewrite dir_part_noin by done.
    pose proof (rel_of_stack st' Hst) as [Hr1 Hr2]. change (rel_of st') with (Join sep (reverse st')) in *.
    rewrite Clean_snoc by done. unfold Clean. rewrite Hr2. unfold clean_stack.
    apply Forall_reverse in Hst. rewrite Split_Join; [|done|].
    + rewrite clean_fold_plain by done. rewrite app_nil_r, reverse_involutive.
      by destruct (Join sep (reverse st')).
    + eapply Forall_impl; [exact Hst|]. by intros ? [(_ & _ & ?) _].
Qed.

(** The directory of a relative path is relative. *)
Lemma Dir_not_abs p : IsAbs p = false -> IsAbs (Dir p) = false.
Proof.
  intros Ha. unfold Dir. pose proof (dir_part_file_part p) as Hp.
  assert (IsAbs (dir_part p) = false) as Hd.
  { destruct (dir_part p) as [|c d]; [done|]. rewrite <- Hp in Ha. by rewrite IsAbs_app in Ha by done. }
  unfold Clean. rewrite Hd. pose proof (clean_stack_good false (dir_part p)) as Hg.
  apply Forall_reverse in Hg. destruct (decide (reverse (clean_stack false (GoStrings.Split Separator (dir_part p))) = [])) as [->|Hne]; [done|].
  pose proof (Join_good_not_abs _ Hne Hg). destruct (Join sep _); done.
Qed.

(** An entry of a directory is not the directory. *)
Lemma clean_fixed_not rooted c L : plain_elem c -> L <> c :: clean_stack rooted (reverse L).
Proof.
  intros Hc. induction L as [|x L IH]; intros HL; [done|]. injection HL as -> HL. apply IH.
  rewrite HL at 1. rewrite reverse_cons. unfold clean_stack. rewrite foldl_app. simpl.
  by rewrite clean_push_plain.
Qed.

Lemma stack_Join rooted c st :
  plain_elem c -> Forall (fun q => Separator ∉ q) st ->
  foldl (clean_push rooted) [] (GoStrings.Split Separator (Join sep (reverse (c :: st)))) = c :: clean_stack rooted (reverse st).
Proof.
  intros Hc Hst. rewrite reverse_cons, Split_Join.
  - rewrite foldl_app. simpl. by rewrite clean_push_plain.
  - by destruct (reverse st).
  - apply Forall_app. split; [by apply Forall_reverse|]. destruct Hc as [(_ & _ & ?) _]. by constructor.
Qed.

Lemma PathJoin_entry d c : plain_elem c -> PathJoin [d; c] <> d.
Proof.
  intros Hc Hd. destruct d as [|x d].
  - destruct Hc as [(Hne & _) _]. destruct c; [done|]. simpl in Hd. unfold Clean in Hd. destruct (IsAbs _) in Hd; [done|].
    destruct (Join sep _) in Hd; done.
  - assert (PathJoin [x :: d; c] = Clean ((x :: d) ++ Separator :: c)) as E by done.
    rewrite E in Hd. clear E. set (p := x :: d) in *. unfold Clean in Hd. rewrite IsAbs_app in Hd by done.
    pose proof Hc as [(Hne & _ & Hsep) _].
    set (st := clean_stack (IsAbs p) (GoStrings.Split Separator p)).
    assert (clean_stack (IsAbs p) (GoStrings.Split Separator (p ++ Separator :: c)) = c :: st) as Hst.
    { unfold clean_stack. rewrite Split_app_noin by done. rewrite foldl_app. simpl. by rewrite clean_push_plain. }
    rewrite Hst in Hd. apply (clean_fixed_not (IsAbs p) c st Hc).
    assert (Forall (fun q => Separator ∉ q) st) as Hns.
    { eapply Forall_impl; [apply clean_stack_good|]. by intros q (_ & _ & ?). }
    unfold st at 1. rewrite <- Hd at 2. destruct (IsAbs p) eqn:Ea.
    + rewrite Split_abs. unfold clean_stack. cbn [foldl]. change (clean_push true [] []) with (@nil bytes).
      apply stack_Join; done.
    + pose proof (stack_Join false c st Hc Hns) as HJ. by destruct (Join sep (reverse (c :: st))).
Qed.

(** Joining a name to a directory leaves the name at the end. *)
Lemma PathJoin_last d c : plain_elem c -> exists p, PathJoin [d; c] = p ++ c.
Proof.
  intros Hc. pose proof Hc as [(Hne & _ & Hsep) _]. destruct d as [|x d].
  - exists []. destruct c as [|y c]; [done|]. change (PathJoin [[]; y :: c]) with (Clean (y :: c)). unfold Clean.
    assert (IsAbs (y :: c) = false) as ->.
    { apply not_true_is_false. intros Ha%HasPrefix_spec. apply Hsep. rewrite Ha. left. }
    rewrite Split_noin by done. unfold clean_stack. simpl foldl. by rewrite clean_push_plain.
  - change (PathJoin [x :: d; c]) with (Clean ((x :: d) ++ Separator :: c)). unfold Clean.
    rewrite IsAbs_app by done. unfold clean_stack. rewrite Split_app_noin by done.
    rewrite foldl_app. cbn [foldl]. rewrite clean_push_plain, reverse_cons by done.
    set (st := foldl _ _ _). assert (exists q, Join sep (reverse st ++ [c]) = q ++ c) as [q ->].
    { destruct (decide (reverse st = [])) as [->|Hst]; [by exists []|].
      rewrite Join_snoc by done. eexists. by rewrite app_assoc. }
    destruct (IsAbs _); [by exists (Separator :: q)|]. exists q. destruct (q ++ c) eqn:E; [|done].
    apply app_eq_nil in E as [_ ->]. done.
Qed.
