(* ===== verification/GoIO.v ===== *)
(** * The Go standard library's [io] and [bufio] interfaces

    [io.Writer] as a type class with its contract, two implementations (a [bytes.Buffer], which
    always accepts, and a device with limited room, which fails when it is full),
    [io.ReaderAt] on a file's contents, [io.Copy], and reading lines with [ReadBytes]. *)

From S2P Require Export Prelude.

(** ** [io.Writer] *)

(** [Write w b]: the writer afterwards, how many bytes it took, and the error. *)
Class Writer (W : Type) : Type := io_Write : W -> bytes -> W * (Z * option error).

(** The documented contract: [0 <= n <= len(b)], and a non-nil error if
    [n < len(b)]; [out w] is everything the writer has accepted. *)
Class WriterOk (W : Type) `{Writer W} : Type := {
  out : W -> bytes;
  Write_out w b w' n e :
    io_Write w b = (w', (n, e)) ->
    0 <= n <= zlen b /\ out w' = out w ++ take (Z.to_nat n) b;
  Write_full w b w' n :
    io_Write w b = (w', (n, None)) -> n = zlen b
}.

(** A [bytes.Buffer]. *)
Record Buffer := { buf : bytes }.

#[export] Instance Buffer_Writer : Writer Buffer :=
  fun w b => ({| buf := buf w ++ b |}, (zlen b, None)).

#[export] Program Instance Buffer_WriterOk : WriterOk Buffer := {| out := buf |}.
Next Obligation.
  intros w b w' n e H. unfold io_Write, Buffer_Writer in H. simplify_eq/=.
  split; [pose proof (zlen_nonneg b); lia|]. f_equal.
  rewrite take_ge; [done|]. unfold zlen. lia.
Qed.
Next Obligation. intros w b w' n H. unfold io_Write, Buffer_Writer in H. by simplify_eq. Qed.

(** A file on a device with [room] bytes left: a write that does not fit is
    short and returns ENOSPC (28). *)
Record Device := { dev_data : bytes; dev_room : nat }.

#[export] Instance Device_Writer : Writer Device := fun w b =>
  let k := Nat.min (length b) (dev_room w) in
  ({| dev_data := dev_data w ++ take k b; dev_room := dev_room w - k |},
   (Z.of_nat k, if (length b <=? dev_room w)%nat then None else Some (Errno 28))).

#[export] Program Instance Device_WriterOk : WriterOk Device := {| out := dev_data |}.
Next Obligation.
  intros w b w' n e H. unfold io_Write, Device_Writer in H. simplify_eq/=.
  rewrite Nat2Z.id. split; [unfold zlen; lia|done].
Qed.
Next Obligation.
  intros w b w' n H. unfold io_Write, Device_Writer in H.
  destruct (Nat.leb_spec (length b) (dev_room w)); simplify_eq. unfold zlen. lia.
Qed.

(** ** [io.ReaderAt]

    [ReadAt data off n] on the contents [data] of a file: the bytes read, which
    are fewer than [n] exactly when [io.EOF] is returned with them. *)
Definition ReadAt (data : bytes) (off : Z) (n : nat) : bytes * option error :=
  let got := take n (drop (Z.to_nat off) data) in
  (got, if (length got <? n)%nat then Some EOF else None).

Lemma ReadAt_ok pre mid post :
  ReadAt (pre ++ mid ++ post) (zlen pre) (length mid) = (mid, None).
Proof.
  unfold ReadAt, zlen. rewrite Nat2Z.id, drop_app_length, take_app_length.
  by rewrite Nat.ltb_irrefl.
Qed.

(** ** [io.Copy]

    The loop of [io.Copy] on a source that holds [data]: 32 KiB reads, one
    [Write] for each.  [wr] is the destination's [Write] method; the result is
    the number of bytes copied. *)
Definition copy_buf_size : nat := Z.to_nat 32768.

Section Copy.
Context {S : Type} (wr : bytes -> M S Z).

Fixpoint copy_chunks (written : Z) (cs : list bytes) : M S Z :=
  match cs with
  | [] => mret written
  | c :: cs =>
      n ← wr c;
      if bool_decide (n = zlen c) then copy_chunks (written + n) cs
      else raise ErrShortWrite
  end.

Definition io_Copy (data : bytes) : M S Z :=
  copy_chunks 0 (chunks copy_buf_size data).
End Copy.

(** ** [io.Reader]

    [io_Read r n]: a [Read] into a buffer of [n] bytes; the bytes read and the error that
    came with them. *)
Class Reader (R : Type) : Type := io_Read : R -> nat -> R * (bytes * option error).

(** The documented contract: at most [n] bytes. *)
Class ReaderOk (R : Type) `{Reader R} : Prop :=
  Read_bound r n r' b e : io_Read r n = (r', (b, e)) -> (length b <= n)%nat.

(** A reader on bytes in memory or in a regular file: as many bytes as there are, [EOF] at
    the end. *)
Record Stream := MkStream { unread_bytes : bytes }.

#[export] Instance Stream_Reader : Reader Stream := fun s n =>
  match unread_bytes s with
  | [] => if (n =? 0)%nat then (s, ([], None)) else (s, ([], Some EOF))
  | d => (MkStream (drop n d), (take n d, None))
  end.

#[export] Instance Stream_ReaderOk : ReaderOk Stream.
Proof.
  intros r n r' b e. unfold io_Read, Stream_Reader. destruct (unread_bytes r).
  - destruct (n =? 0)%nat; intros [= _ <- _]; simpl; lia.
  - intros [= _ <- _]. rewrite length_take. lia.
Qed.

(** ** [bufio.Reader.ReadBytes] and [ReadString]

    Up to and including the delimiter; without one, what is left and [io.EOF]. *)
Fixpoint ReadBytes (delim : byte) (s : bytes) : bytes * option error * bytes :=
  match s with
  | [] => ([], Some EOF, [])
  | c :: s =>
      if byte_eqb c delim then ([c], None, s)
      else let '(l, e, r) := ReadBytes delim s in (c :: l, e, r)
  end.

Lemma ReadBytes_delim delim l s : delim ∉ l -> ReadBytes delim (l ++ delim :: s) = (l ++ [delim], None, s).
Proof.
  induction l as [|c l IH]; intros Hl; cbn [app ReadBytes]; [by rewrite byte_eqb_refl|].
  apply not_elem_of_cons in Hl as [Hc Hl]. rewrite (proj2 (byte_eqb_neq c delim)) by done. by rewrite IH.
Qed.

Lemma ReadBytes_end delim l : delim ∉ l -> ReadBytes delim l = (l, Some EOF, []).
Proof.
  induction l as [|c l IH]; intros Hl; cbn [ReadBytes]; [done|].
  apply not_elem_of_cons in Hl as [Hc Hl]. rewrite (proj2 (byte_eqb_neq c delim)) by done. by rewrite IH.
Qed.
