(* ===== verification/GoBinary.v ===== *)
(** * The Go standard library's [encoding/binary] on structs of fixed size

    Fields of a byte string by offset and width, replacing a part of a byte string, and the
    lemmas that relate them; used for the partition tables and for the flash map. *)

From S2P Require Export Prelude.

(** The field of [n] bytes at offset [o]. *)
Definition field (b : bytes) (o n : nat) : bytes := take n (drop o b).

Definition uint (b : bytes) (o n : nat) : Z := le_val (field b o n).

(** [l] with [b] in the place of what was at offset [o]. *)
Definition splice (l : bytes) (o : nat) (b : bytes) : bytes :=
  take o l ++ b ++ drop (o + length b) l.

Definition uints (n : nat) (zs : list Z) : Prop := Forall (fun z => 0 <= z < 256 ^ Z.of_nat n) zs.

(** ** Fields of byte strings *)

Lemma length_splice l o b : (o + length b <= length l)%nat -> length (splice l o b) = length l.
Proof. intros. unfold splice. rewrite !length_app, length_take, length_drop. lia. Qed.

Lemma length_field b o n : (o + n <= length b)%nat -> length (field b o n) = n.
Proof. intros. unfold field. rewrite length_take, length_drop. lia. Qed.

Lemma field_app pre x post : field (pre ++ x ++ post) (length pre) (length x) = x.
Proof. unfold field. by rewrite drop_app_length, take_app_length. Qed.

(** A field of a field. *)
Lemma field_field b o m k n : (k + n <= m)%nat -> field (field b o m) k n = field b (o + k) n.
Proof.
  intros. unfold field. rewrite skipn_firstn_comm, take_take, drop_drop. by rewrite Nat.min_l by lia.
Qed.

Lemma field_splice_same l o b : (o + length b <= length l)%nat -> field (splice l o b) o (length b) = b.
Proof.
  intros. pose proof (field_app (take o l) b (drop (o + length b) l)) as H'.
  rewrite length_take_le in H' by lia. exact H'.
Qed.

Lemma field_splice_other l o b o' n :
  (o + length b <= length l)%nat -> (o' + n <= o \/ o + length b <= o')%nat ->
  field (splice l o b) o' n = field l o' n.
Proof.
  intros Hl Hd. unfold field, splice. destruct Hd as [Hd|Hd].
  - rewrite drop_app_le by (rewrite length_take; lia). rewrite take_app_le by (rewrite length_drop, length_take; lia).
    rewrite skipn_firstn_comm, take_take. by rewrite Nat.min_l by lia.
  - rewrite drop_app_ge by (rewrite length_take; lia). rewrite length_take, Nat.min_l by lia.
    rewrite drop_app_ge by lia. rewrite drop_drop. do 2 f_equal. lia.
Qed.

Lemma field_concat (ls : list bytes) i x o n :
  ls !! i = Some x -> o = length (concat (take i ls)) -> n = length x -> field (concat ls) o n = x.
Proof.
  intros Hi -> ->. rewrite <- (take_drop_middle ls i x Hi) at 1.
  rewrite concat_app, concat_cons. apply field_app.
Qed.

Lemma le_val_le_bytes_small n z : 0 <= z < 256 ^ Z.of_nat n -> le_val (le_bytes n z) = z.
Proof. intros. rewrite le_val_le_bytes. by apply Z.mod_small. Qed.


(** ** Fields next to each other *)

Lemma field_join b o n o' m : o' = (o + n)%nat -> field b o n ++ field b o' m = field b o (n + m).
Proof.
  intros ->. unfold field. rewrite <- drop_drop. rewrite <- (take_drop n (take (n + m) (drop o b))) at 1.
  rewrite take_take, Nat.min_l by lia. f_equal. rewrite skipn_firstn_comm. f_equal. lia.
Qed.

Lemma field_all b : field b 0 (length b) = b.
Proof. unfold field. by rewrite drop_0, firstn_all. Qed.

Lemma le_bytes_uint b o n : (o + n <= length b)%nat -> le_bytes n (uint b o n) = field b o n.
Proof.
  intros Hl. unfold uint. rewrite <- (length_field b o n Hl) at 1. apply le_bytes_le_val.
Qed.

Lemma splice_field l o n : (o + n <= length l)%nat -> splice l o (field l o n) = l.
Proof.
  intros Hl. unfold splice. rewrite length_field by done. unfold field.
  rewrite <- drop_drop, take_drop, take_drop. done.
Qed.

(** Two writes next to each other. *)
Lemma splice_splice l o a b :
  (o + length a + length b <= length l)%nat -> splice (splice l o a) (o + length a) b = splice l o (a ++ b).
Proof.
  intros Hl. unfold splice. rewrite length_app.
  rewrite take_app_ge by (rewrite length_take; lia). rewrite length_take, Nat.min_l by lia.
  rewrite take_app_le by lia. rewrite (take_ge a) by lia.
  rewrite drop_app_ge by (rewrite length_take; lia). rewrite length_take, Nat.min_l by lia.
  rewrite drop_app_ge by lia. rewrite drop_drop, <- !app_assoc. do 4 f_equal. lia.
Qed.
