(* ===== verification/CpioTypes.v ===== *)
(** * Records of a cpio archive ([pkg/cpio/types.go])

    [Info], the metadata of a file, and [Record], an [Info] with the reader of
    the file's contents; the interface [RecordFormat] an archive format offers
    to [pkg/cpio] and the contract the archive layer is proved against. *)

From Stdlib Require Import Strings.String.
From S2P Require Export GoIO.

(** [Info] holds metadata about files; the numeric fields are [uint64]. *)
Record Info := MkInfo {
  Ino : Z; Mode : Z; UID : Z; GID : Z; NLink : Z; MTime : Z; FileSize : Z;
  Dev : Z; Major : Z; Minor : Z; Rmajor : Z; Rminor : Z; Name : bytes
}.

#[export] Instance Info_eq_dec : EqDecision Info.
Proof. solve_decision. Defined.

(** The zero value of the struct. *)
Definition Info0 : Info := MkInfo 0 0 0 0 0 0 0 0 0 0 0 0 [].

Definition set_Name (n : bytes) (i : Info) : Info :=
  MkInfo (Ino i) (Mode i) (UID i) (GID i) (NLink i) (MTime i) (FileSize i)
         (Dev i) (Major i) (Minor i) (Rmajor i) (Rminor i) n.
Definition set_MTime (t : Z) (i : Info) : Info :=
  MkInfo (Ino i) (Mode i) (UID i) (GID i) (NLink i) t (FileSize i)
         (Dev i) (Major i) (Minor i) (Rmajor i) (Rminor i) (Name i).
Definition set_FileSize (n : Z) (i : Info) : Info :=
  MkInfo (Ino i) (Mode i) (UID i) (GID i) (NLink i) (MTime i) n
         (Dev i) (Major i) (Minor i) (Rmajor i) (Rminor i) (Name i).
Definition set_Mode (m : Z) (i : Info) : Info :=
  MkInfo (Ino i) m (UID i) (GID i) (NLink i) (MTime i) (FileSize i)
         (Dev i) (Major i) (Minor i) (Rmajor i) (Rminor i) (Name i).
Definition set_Ino (n : Z) (i : Info) : Info :=
  MkInfo n (Mode i) (UID i) (GID i) (NLink i) (MTime i) (FileSize i)
         (Dev i) (Major i) (Minor i) (Rmajor i) (Rminor i) (Name i).
Definition set_Dev (n : Z) (i : Info) : Info :=
  MkInfo (Ino i) (Mode i) (UID i) (GID i) (NLink i) (MTime i) (FileSize i)
         n (Major i) (Minor i) (Rmajor i) (Rminor i) (Name i).

(** The [io.ReadCloser] of a record: bytes in memory or in the archive
    ([NewBytesReadCloser], [NewReadCloser]), or a [LazyOpen] that opens the
    named file at its first [Read]. *)
Inductive ReadCloser :=
| StaticRC (contents : bytes)
| LazyOpen (name : bytes).

#[export] Instance ReadCloser_eq_dec : EqDecision ReadCloser.
Proof. solve_decision. Defined.

(** [Record] embeds a possibly nil [ReadCloser] and an [Info]. *)
Record Rec := MkRec { rc : option ReadCloser; info : Info }.

#[export] Instance Rec_eq_dec : EqDecision Rec.
Proof. solve_decision. Defined.

Definition map_info (f : Info -> Info) (r : Rec) : Rec := MkRec (rc r) (f (info r)).

Definition StaticRecord (contents : bytes) (i : Info) : Rec :=
  MkRec (Some (StaticRC contents)) (set_FileSize (zlen contents) i).

Definition NewBytesReadCloser (contents : bytes) : ReadCloser := StaticRC contents.
Definition NewReadCloser (contents : bytes) : ReadCloser := StaticRC contents.
Definition NewDeferReadCloser (name : bytes) : ReadCloser := LazyOpen name.

Definition Trailer : bytes := str "TRAILER!!!".
Definition TrailerRecord : Rec := StaticRecord [] (set_Name Trailer Info0).

(** A file that could be opened: the bytes its [Read]s give, the error that ends them when it is
    not the end of the file, and the answer of its [Close]. *)
Record opened := MkOpened { o_data : bytes; o_err : option error; o_close : option error }.

(** The files [LazyOpen] can open, or the error of [os.Open]. *)
Definition files := bytes -> opened + error.

(** A file read to its end, and no file at all. *)
Definition plain (b : bytes) : opened + error := inl (MkOpened b None None).
Definition no_files : files := fun _ => inr (Errno 2).

(** The [Read]s of a record's reader up to the first error: the bytes read, and the error if it
    is not [io.EOF].  A [LazyOpen] that cannot be opened fails at its first [Read]. *)
Definition rc_Read (fs : files) (c : ReadCloser) : bytes * option error :=
  match c with
  | StaticRC b => (b, None)
  | LazyOpen n => match fs n with inl f => (o_data f, o_err f) | inr e => ([], Some e) end
  end.

(** [Close]: the [NopCloser] of bytes in memory, or that of the file that was opened; a [LazyOpen]
    without a file passes a nil file on, whose [Close] gives [os.ErrInvalid]. *)
Definition rc_Close (fs : files) (c : ReadCloser) : option error :=
  match c with
  | StaticRC _ => None
  | LazyOpen n => match fs n with inl f => o_close f | inr _ => Some (Errno 22) end
  end.

Definition as_outcome (e : option error) : outcome error unit :=
  match e with None => Ret tt | Some e => Fail e end.

(** [ioutil.ReadAll]. *)
Definition read_all (fs : files) (c : ReadCloser) : outcome error bytes :=
  match rc_Read fs c with
  | (b, None) => Ret b
  | (_, Some e) => Fail e
  end.

(** The reader gives exactly [b], and closes. *)
Definition reads (fs : files) (c : ReadCloser) (b : bytes) : Prop :=
  rc_Read fs c = (b, None) /\ rc_Close fs c = None.

(** ** The format interface

    [RecordFormat]: a writer state with [WriteRecord], a reader state with
    [ReadRecord].  *)
Class RecordFormat : Type := {
  RecordWriter : Type;
  RecordReader : Type;
  fmt_WriteRecord : Rec -> M RecordWriter unit;
  fmt_ReadRecord : M RecordReader Rec
}.

(** The contract of a format: on the records it can represent ([writable]), writing
    appends the record's encoding to the archive, and reading that encoding gives the
    record back as the format keeps it ([kept]).  [writes_to w a] says that the writer
    stands after the archive [a], [reads_at r a b] that the reader stands in the
    archive [a ++ b] after [a]. *)
Class RecordFormatOk `{RecordFormat} : Type := {
  writable : Rec -> Prop;
  encoding : Rec -> bytes;
  kept : Rec -> Rec;
  writes_to : RecordWriter -> bytes -> Prop;
  reads_at : RecordReader -> bytes -> bytes -> Prop;
  format_write w a r :
    writes_to w a -> writable r ->
    exists w', fmt_WriteRecord r w = (w', Ret tt) /\ writes_to w' (a ++ encoding r);
  format_read d a r b :
    reads_at d a (encoding r ++ b) -> writable r ->
    exists d', fmt_ReadRecord d = (d', Ret (kept r)) /\ reads_at d' (a ++ encoding r) b;
  format_end d a :
    reads_at d a [] -> exists d', fmt_ReadRecord d = (d', Fail EOF);
  kept_Name r : Name (info (kept r)) = Name (info r);
  (** Every record read brings the reader closer to the end of the archive. *)
  unread : RecordReader -> nat;
  format_progress d d' r : fmt_ReadRecord d = (d', Ret r) -> (unread d' < unread d)%nat
}.
