(* ===== verification/Newc.v ===== *)
(** * The "newc" archive format ([pkg/cpio/newc/newc.go])

    A record is a magic number, a header of thirteen 32-bit fields in
    hexadecimal, the NUL-terminated name and the contents, the name and the
    contents padded to four bytes.  The state of the writer is the sink and the
    number of bytes written; that of the reader the archive and a position. *)

From Stdlib Require Import Strings.String.
From S2P Require Export GoStrings CpioTypes.

Definition newcMagic : bytes := str "070701".
Definition magicLen : nat := 6.

(** The header struct; every field is a [uint32]. *)
Record header := MkHeader {
  h_Ino : Z; h_Mode : Z; h_UID : Z; h_GID : Z; h_NLink : Z; h_MTime : Z;
  h_FileSize : Z; h_Major : Z; h_Minor : Z; h_Rmajor : Z; h_Rminor : Z;
  h_NameLength : Z; h_CRC : Z
}.

Definition headerFromInfo (i : Info) : header :=
  MkHeader (u32 (Ino i)) (u32 (Mode i)) (u32 (UID i)) (u32 (GID i)) (u32 (NLink i))
           (u32 (MTime i)) (u32 (FileSize i)) (u32 (Major i)) (u32 (Minor i))
           (u32 (Rmajor i)) (u32 (Rminor i)) (u32 (u32 (zlen (Name i)) + 1)) 0.

(** [(h header) Info()]: [Dev] and [Name] are left zero. *)
Definition header_Info (h : header) : Info :=
  MkInfo (h_Ino h) (h_Mode h) (h_UID h) (h_GID h) (h_NLink h) (h_MTime h)
         (h_FileSize h) 0 (h_Major h) (h_Minor h) (h_Rmajor h) (h_Rminor h) [].

(** [round4]: [(n + 3) &^ 0x3]. *)
Definition round4 (n : Z) : Z := Z.ldiff (n + 3) 3.

(** The fields in the order of the struct, as [binary.Write] and [binary.Read]
    take them. *)
Definition header_fields (h : header) : list Z :=
  [h_Ino h; h_Mode h; h_UID h; h_GID h; h_NLink h; h_MTime h; h_FileSize h;
   h_Major h; h_Minor h; h_Rmajor h; h_Rminor h; h_NameLength h; h_CRC h].

(** [binary.Write(buf, binary.BigEndian, hdr)]. *)
Definition binary_Write (h : header) : bytes :=
  concat (be_bytes 4 <$> header_fields h).

(** [binary.Read(r, binary.BigEndian, &hdr)]: [None] when the bytes run out. *)
Definition binary_Read (b : bytes) : option header :=
  match be_val <$> chunks 4 (take 52 b) with
  | [a1; a2; a3; a4; a5; a6; a7; a8; a9; a10; a11; a12; a13] =>
      if (length b <? 52)%nat then None
      else Some (MkHeader a1 a2 a3 a4 a5 a6 a7 a8 a9 a10 a11 a12 a13)
  | _ => None
  end.

(** ** The writer *)

Record writer (W : Type) := MkWriter { w_magic : bytes; w_w : W; w_pos : Z }.
Arguments MkWriter {W}. Arguments w_magic {W}. Arguments w_w {W}. Arguments w_pos {W}.

Section Write.
Context {W : Type} `{Writer W} (fs : files).

Definition NewWriter (magic : bytes) (w : W) : writer W := MkWriter magic w 0.

(** [writer.Write]: the position moves only when the sink took the write. *)
Definition writer_Write (b : bytes) : M (writer W) Z := fun w =>
  match io_Write (w_w w) b with
  | (s, (n, Some e)) => (MkWriter (w_magic w) s (w_pos w), Fail e)
  | (s, (n, None)) => (MkWriter (w_magic w) s (w_pos w + n), Ret n)
  end.

Definition pad : M (writer W) unit :=
  w ← get;
  let o := round4 (w_pos w) in
  if bool_decide (o <> w_pos w) then
    b ← lift (or_panic (slice (replicate 3 x00) 0 (o - w_pos w)));
    _ ← writer_Write b; mret tt
  else mret tt.

Definition WriteRecord (f : Rec) : M (writer W) unit :=
  w ← get;
  _ ← writer_Write (w_magic w);
  let i := match rc f with None => set_FileSize 0 (info f) | Some _ => info f end in
  let hdr := headerFromInfo i in
  let hexBuf := ToUpper (hex_encode (binary_Write hdr)) in
  _ ← writer_Write hexBuf;
  let cstr := Name (info f) ++ [x00] in
  _ ← writer_Write cstr;
  _ ← pad;
  match rc f with
  | None => mret tt
  | Some c =>
      let '(contents, err) := rc_Read fs c in
      m ← io_Copy writer_Write contents;
      _ ← lift (as_outcome err);
      _ ← lift (as_outcome (rc_Close fs c));
      if bool_decide (0 < m) then pad else mret tt
  end.
End Write.

(** ** The reader *)

Record reader := MkReader { r_magic : bytes; r_r : bytes; r_pos : Z }.

Definition NewReader (magic data : bytes) : reader := MkReader magic data 0.

(** [reader.Read(p)] for a buffer of [n] bytes. *)
Definition reader_Read (n : nat) : M reader bytes := fun r =>
  match ReadAt (r_r r) (r_pos r) n with
  | (got, Some e) => (r, Fail e)
  | (got, None) => (MkReader (r_magic r) (r_r r) (r_pos r + zlen got), Ret got)
  end.

(** [ReadAligned] rounds the position up, also after an error. *)
Definition ReadAligned (n : nat) : M reader bytes := fun r =>
  let '(r', res) := reader_Read n r in
  (MkReader (r_magic r') (r_r r') (round4 (r_pos r')), res).

Definition ReadRecord : M reader Rec :=
  buf ← reader_Read (2 * 52 + magicLen);
  r ← get;
  if bool_decide (take magicLen buf = r_magic r) then
    match hex_decode (drop magicLen buf) with
    | None => raise (Errorf "reader: error decoding hex: %v")
    | Some dst =>
        match binary_Read dst with
        | None => raise ErrUnexpectedEOF
        | Some hdr =>
            nameBuf ← ReadAligned (Z.to_nat (h_NameLength hdr));
            name ← lift (or_panic (slice nameBuf 0 (u32 (h_NameLength hdr - 1))));
            r ← get;
            let content := take (Z.to_nat (h_FileSize hdr)) (drop (Z.to_nat (r_pos r)) (r_r r)) in
            _ ← modify (fun r => MkReader (r_magic r) (r_r r) (round4 (r_pos r + h_FileSize hdr)));
            mret (MkRec (Some (NewReadCloser content)) (set_Name name (header_Info hdr)))
        end
    end
  else raise (Errorf "reader: magic got %q, want %q").

(** ** The encoding of a record *)

Definition padding (n : Z) : bytes := replicate (Z.to_nat (round4 n - n)) x00.

(** What a record's reader holds. *)
Definition contents (fs : files) (f : Rec) : bytes :=
  match rc f with
  | None => []
  | Some c => fst (rc_Read fs c)
  end.

Definition header_of (f : Rec) : header :=
  headerFromInfo (match rc f with None => set_FileSize 0 (info f) | Some _ => info f end).

Definition prologue (magic : bytes) (f : Rec) : bytes :=
  magic ++ ToUpper (hex_encode (binary_Write (header_of f))) ++ Name (info f) ++ [x00].

(** The bytes of one record in an archive. *)
Definition record_bytes (magic : bytes) (fs : files) (f : Rec) : bytes :=
  prologue magic f ++ padding (zlen (prologue magic f)) ++
  contents fs f ++ padding (zlen (contents fs f)).

Lemma round4_spec n : round4 n = 4 * ((n + 3) `div` 4).
Proof.
  unfold round4. change 3 with (Z.ones 2) at 2. rewrite Z.ldiff_ones_r by lia.
  rewrite Z.shiftr_div_pow2, Z.shiftl_mul_pow2 by lia. change (2 ^ 2) with 4. lia.
Qed.

Lemma round4_bounds n : n <= round4 n < n + 4.
Proof.
  rewrite round4_spec. pose proof (Z.div_mod (n + 3) 4).
  pose proof (Z.mod_pos_bound (n + 3) 4). lia.
Qed.

Lemma round4_aligned n : round4 n `mod` 4 = 0.
Proof. rewrite round4_spec, Z.mul_comm. by apply Z.mod_mul. Qed.

Lemma round4_add a n : a `mod` 4 = 0 -> round4 (a + n) = a + round4 n.
Proof.
  intros Ha. apply Z.mod_divide in Ha as [q ->]; [|lia].
  rewrite !round4_spec. replace (q * 4 + n + 3) with (n + 3 + q * 4) by lia.
  rewrite Z.div_add by lia. lia.
Qed.

Lemma round4_id n : n `mod` 4 = 0 -> round4 n = n.
Proof. intros. replace n with (n + 0) at 1 by lia. rewrite round4_add by done. change (round4 0) with 0. lia. Qed.

Lemma zlen_padding n : zlen (padding n) = round4 n - n.
Proof. unfold padding, zlen. rewrite length_replicate. pose proof (round4_bounds n). lia. Qed.

(** ** Writing *)

Section WriteFacts.
Context {W : Type} `{WriterOk W} (fs : files).
Implicit Types w : writer W.

(** [w'] is [w] after [e] went out. *)
Definition appends w (e : bytes) w' : Prop :=
  out (w_w w') = out (w_w w) ++ e /\ w_pos w' = w_pos w + zlen e /\ w_magic w' = w_magic w.

(** The action writes [e]: all of it when it succeeds, a prefix when the sink
    fails; it does not panic. *)
Definition emits {A} w (m : M (writer W) A) (e : bytes) : Prop :=
  match m w with
  | (w', Ret _) => appends w e w'
  | (w', Fail _) => exists k, out (w_w w') = out (w_w w) ++ take k e
  | (_, Panic) => False
  end.

Lemma appends_refl w : appends w [] w.
Proof. unfold appends. rewrite app_nil_r. split_and!; [done|simpl; zl|done]. Qed.

Lemma emits_bind {A B} w (m : M (writer W) A) (f : A -> M (writer W) B) e1 e2 :
  emits w m e1 ->
  (forall w' a, m w = (w', Ret a) -> appends w e1 w' -> emits w' (f a) e2) ->
  emits w (m ≫= f) (e1 ++ e2).
Proof.
  unfold emits, mbind, M_bind. intros H1 H2.
  destruct (m w) as [w1 [a|e|]] eqn:E; [|destruct H1 as [k Hk]|done].
  - specialize (H2 w1 a eq_refl H1). destruct H1 as (Ho & Hp & Hm).
    destruct (f a w1) as [w2 [b|e|]]; [|destruct H2 as [k Hk]|done].
    + destruct H2 as (Ho2 & Hp2 & Hm2). unfold appends.
      rewrite Ho2, Ho, Hp2, Hp, Hm2, Hm, zlen_app, app_assoc. split_and!; [done|lia|done].
    + exists (length e1 + k)%nat. rewrite Hk, Ho, <- app_assoc. f_equal.
      by rewrite take_app_add.
  - exists (Nat.min k (length e1)). rewrite Hk. f_equal.
    rewrite take_app_le by lia. rewrite <- take_take, firstn_all. done.
Qed.

Lemma emits_ret {A} w (a : A) : emits w (mret a) [].
Proof. apply appends_refl. Qed.

Lemma emits_bind_get {B} w (f : writer W -> M (writer W) B) e :
  emits w (f w) e -> emits w (get ≫= f) e.
Proof. done. Qed.

Lemma emits_bind_lift {A B} w (a : A) (f : A -> M (writer W) B) e :
  emits w (f a) e -> emits w (lift (Ret a) ≫= f) e.
Proof. done. Qed.

Lemma emits_raise {A} w e b : emits w (@raise _ A e) b.
Proof. exists O. simpl. by rewrite take_0, app_nil_r. Qed.

Lemma emits_Write w b : emits w (writer_Write b) b.
Proof.
  unfold emits, writer_Write.
  destruct (io_Write (w_w w) b) as [s [n [e|]]] eqn:E.
  - apply Write_out in E as [_ E]. by exists (Z.to_nat n).
  - pose proof E as E'. apply Write_full in E as ->. apply Write_out in E' as [_ E'].
    unfold appends. simpl. rewrite E'. split_and!; [|done|done].
    rewrite take_ge; [done|]. unfold zlen. lia.
Qed.

Lemma writer_Write_n w b w' n : writer_Write b w = (w', Ret n) -> n = zlen b.
Proof.
  unfold writer_Write. destruct (io_Write (w_w w) b) as [s [k [e|]]] eqn:E; intros; simplify_eq.
  by apply Write_full in E.
Qed.

Lemma emits_pad w : emits w pad (padding (w_pos w)).
Proof.
  unfold pad. apply emits_bind_get.
  pose proof (round4_bounds (w_pos w)) as Hr. case_bool_decide as Hne.
  - rewrite slice_prefix by (unfold zlen; rewrite ?length_replicate; lia).
    rewrite take_replicate. unfold padding.
    replace (Nat.min _ 3) with (Z.to_nat (round4 (w_pos w) - w_pos w)) by lia.
    apply emits_bind_lift. rewrite <- (app_nil_r (replicate _ _)) at 2.
    apply emits_bind; [apply emits_Write|]. intros. apply emits_ret.
  - unfold padding. replace (round4 (w_pos w) - w_pos w) with 0 by lia. apply emits_ret.
Qed.

Lemma emits_copy_chunks w n cs : emits w (copy_chunks writer_Write n cs) (concat cs).
Proof.
  revert w n. induction cs as [|c cs IH]; intros w n; simpl; [apply emits_ret|].
  apply emits_bind; [apply emits_Write|]. intros w' k Hk _.
  apply writer_Write_n in Hk as ->. rewrite bool_decide_eq_true_2 by done. apply IH.
Qed.

Lemma copy_chunks_n w n cs w' m :
  copy_chunks writer_Write n cs w = (w', Ret m) -> m = n + zlen (concat cs).
Proof.
  revert w n. induction cs as [|c cs IH]; intros w n Hc; simpl in *.
  - unfold mret, M_ret in Hc. simplify_eq. zl.
  - M_inv Hc. apply writer_Write_n in Hm as ->.
    rewrite bool_decide_eq_true_2 in Hc by done. apply IH in Hc. zl.
Qed.

Lemma emits_Copy w b : emits w (io_Copy writer_Write b) b.
Proof. unfold io_Copy. rewrite <- (concat_chunks copy_buf_size b) at 2. apply emits_copy_chunks. Qed.

Lemma io_Copy_n w b w' m : io_Copy writer_Write b w = (w', Ret m) -> m = zlen b.
Proof. intros Hc. apply copy_chunks_n in Hc. by rewrite concat_chunks in Hc. Qed.

Lemma padding_add a n : a `mod` 4 = 0 -> padding (a + n) = padding n.
Proof. intros. unfold padding. rewrite round4_add by done. do 2 f_equal. lia. Qed.

Lemma padded_aligned a n : a `mod` 4 = 0 -> (a + n + zlen (padding n)) `mod` 4 = 0.
Proof.
  intros. rewrite zlen_padding. replace (a + n + (round4 n - n)) with (a + round4 n) by lia.
  rewrite <- round4_add by done. apply round4_aligned.
Qed.

Lemma emits_pad_at w n :
  (w_pos w - n) `mod` 4 = 0 -> emits w pad (padding n).
Proof.
  intros. rewrite <- (padding_add (w_pos w - n)) by done.
  replace (w_pos w - n + n) with (w_pos w) by lia. apply emits_pad.
Qed.

Lemma emits_outcome {A} w (e : option error) b (k : M (writer W) A) :
  emits w k b -> emits w (_ ← lift (as_outcome e); k) b.
Proof. destruct e as [err|]; [intros _; exact (emits_raise w err b)|done]. Qed.

(** The contents and their padding. *)
Lemma emits_contents w f c :
  w_pos w `mod` 4 = 0 -> rc f = Some c ->
  emits w (let '(b, err) := rc_Read fs c in
           m ← io_Copy writer_Write b;
           _ ← lift (as_outcome err);
           _ ← lift (as_outcome (rc_Close fs c));
           if bool_decide (0 < m) then pad else mret tt)
    (contents fs f ++ padding (zlen (contents fs f))).
Proof.
  intros Ha Hc. unfold contents. rewrite Hc. destruct (rc_Read fs c) as [b err]. cbn [fst].
  apply emits_bind; [apply emits_Copy|].
  intros w1 m Hm (_ & Hp & _). apply io_Copy_n in Hm as ->. apply emits_outcome, emits_outcome.
  case_bool_decide as Hpos.
  - apply emits_pad_at. rewrite Hp. by replace (w_pos w + zlen b - zlen b) with (w_pos w) by lia.
  - pose proof (zlen_nonneg b). replace (zlen b) with 0 by lia. apply emits_ret.
Qed.

(** [WriteRecord] writes exactly the record's encoding, or a prefix of it when
    the sink fails. *)
Lemma emits_WriteRecord w f :
  w_pos w `mod` 4 = 0 -> emits w (WriteRecord fs f) (record_bytes (w_magic w) fs f).
Proof.
  intros Ha. unfold WriteRecord, record_bytes.
  apply emits_bind_get. unfold prologue at 1. rewrite <- !app_assoc.
  apply emits_bind; [apply emits_Write|]. intros w1 ? _ (Ho1 & Hp1 & _).
  apply emits_bind; [apply emits_Write|]. intros w2 ? _ (Ho2 & Hp2 & _).
  rewrite app_assoc.
  apply emits_bind; [apply emits_Write|]. intros w3 ? _ (Ho3 & Hp3 & _).
  fold (header_of f) in *.
  assert (w_pos w3 = w_pos w + zlen (prologue (w_magic w) f)) as Hp.
  { unfold prologue. rewrite Hp3, Hp2, Hp1, !zlen_app. unfold header_of. lia. }
  apply emits_bind.
  { apply emits_pad_at. rewrite Hp.
    by replace (w_pos w + _ - _) with (w_pos w) by lia. }
  intros w4 ? _ (_ & Hp4 & _).
  destruct (rc f) as [c|] eqn:Ec.
  - apply emits_contents; [|done]. rewrite Hp4, Hp. by apply padded_aligned.
  - unfold contents. rewrite Ec. apply emits_ret.
Qed.

Lemma record_bytes_aligned magic f a :
  a `mod` 4 = 0 -> (a + zlen (record_bytes magic fs f)) `mod` 4 = 0.
Proof.
  intros Ha. unfold record_bytes. rewrite !zlen_app, !zlen_padding.
  set (p := zlen (prologue magic f)). set (c := zlen (contents fs f)).
  replace (a + _) with (a + round4 p + round4 c) by lia.
  rewrite <- (round4_add a), <- round4_add by (done || apply round4_aligned).
  apply round4_aligned.
Qed.
End WriteFacts.

(** ** Success on a sink that never fails *)

(** A sink like [bytes.Buffer]. *)
Class WriterTotal (W : Type) `{Writer W} : Prop :=
  Write_total w b : exists w' n, io_Write w b = (w', (n, None)).

#[export] Instance Buffer_WriterTotal : WriterTotal Buffer.
Proof. intros w b. unfold io_Write, Buffer_Writer. eauto. Qed.

Section Total.
Context {W : Type} `{WriterOk W, !WriterTotal W} (fs : files).
Implicit Types w : writer W.

Definition succeeds {A} w (m : M (writer W) A) : Prop := exists w' a, m w = (w', Ret a).

Lemma succeeds_bind {A B} w (m : M (writer W) A) (f : A -> M (writer W) B) :
  succeeds w m -> (forall w' a, succeeds w' (f a)) -> succeeds w (m ≫= f).
Proof.
  intros (w' & a & E) Hf. destruct (Hf w' a) as (w2 & b & E2).
  exists w2, b. by rewrite (M_bind_Ret _ _ _ _ _ E).
Qed.

Lemma succeeds_ret {A} w (a : A) : succeeds w (mret a).
Proof. by exists w, a. Qed.

Lemma succeeds_Write w b : succeeds w (writer_Write b).
Proof.
  unfold succeeds, writer_Write. destruct (Write_total (w_w w) b) as (s & n & ->). eauto.
Qed.

Lemma succeeds_pad w : succeeds w pad.
Proof.
  apply succeeds_bind; [by exists w, w|]. intros w0 w1.
  pose proof (round4_bounds (w_pos w1)). cbv beta zeta.
  case_bool_decide; [|apply succeeds_ret].
  rewrite slice_prefix by (unfold zlen; rewrite ?length_replicate; lia).
  apply succeeds_bind; [eexists _, _; reflexivity|]. intros.
  apply succeeds_bind; [apply succeeds_Write|]. intros. apply succeeds_ret.
Qed.

Lemma succeeds_Copy w b : succeeds w (io_Copy writer_Write b).
Proof.
  unfold io_Copy. generalize 0 (chunks copy_buf_size b). intros n cs. revert w n.
  induction cs as [|c cs IH]; intros w n; simpl; [apply succeeds_ret|].
  destruct (succeeds_Write w c) as (w' & k & E). pose proof (writer_Write_n _ _ _ _ E) as ->.
  unfold succeeds. setoid_rewrite (M_bind_Ret _ _ _ _ _ E).
  rewrite bool_decide_eq_true_2 by done. apply IH.
Qed.

Lemma succeeds_WriteRecord w f :
  (forall c, rc f = Some c -> exists b, reads fs c b) ->
  succeeds w (WriteRecord fs f).
Proof.
  intros Hc. unfold WriteRecord.
  apply succeeds_bind; [by exists w, w|]. intros w1 w1'.
  do 3 (apply succeeds_bind; [apply succeeds_Write|]; intros ? ?).
  apply succeeds_bind; [apply succeeds_pad|]. intros ? ?.
  destruct (rc f) as [c|]; [|apply succeeds_ret].
  destruct (Hc c eq_refl) as (b & -> & ->).
  apply succeeds_bind; [apply succeeds_Copy|]. intros ? m.
  do 2 (apply succeeds_bind; [eexists _, _; reflexivity|]; intros).
  case_bool_decide; [apply succeeds_pad|apply succeeds_ret].
Qed.
End Total.

(** ** Reading *)

Lemma header_fields_range f :
  Forall (fun z => 0 <= z < 2 ^ 32) (header_fields (header_of f)).
Proof. unfold header_of, headerFromInfo, header_fields. simpl. repeat constructor; apply u32_range || lia. Qed.

Lemma be_bytes_fields_lengths zs : Forall (fun c => length c = 4%nat) (be_bytes 4 <$> zs).
Proof. induction zs; constructor; [apply length_be_bytes|done]. Qed.

Lemma length_binary_Write h : length (binary_Write h) = 52%nat.
Proof.
  unfold binary_Write. rewrite (length_concat_const 4) by apply be_bytes_fields_lengths.
  by rewrite length_fmap.
Qed.

Lemma be_val_fields zs :
  Forall (fun z => 0 <= z < 2 ^ 32) zs -> be_val <$> (be_bytes 4 <$> zs) = zs.
Proof.
  induction 1 as [|z zs Hz Hzs IH]; [done|].
  rewrite !fmap_cons, IH, be_val_be_bytes. f_equal. apply Z.mod_small. done.
Qed.

(** [binary.Read] undoes [binary.Write] on the header struct. *)
Lemma binary_Read_Write h :
  Forall (fun z => 0 <= z < 2 ^ 32) (header_fields h) -> binary_Read (binary_Write h) = Some h.
Proof.
  intros Hr. unfold binary_Read. rewrite length_binary_Write.
  rewrite take_ge by (by rewrite length_binary_Write).
  unfold binary_Write. rewrite chunks_concat by (lia || apply be_bytes_fields_lengths).
  rewrite be_val_fields by done. by destruct h.
Qed.

Section ReadFacts.
Context (fs : files).

(** A record the format represents: the name's length and the size fit in 32
    bits, the contents can be read, and the recorded size is that of the contents. *)
Definition newc_writable (f : Rec) : Prop :=
  zlen (Name (info f)) + 1 < 2 ^ 32 /\
  forall c, rc f = Some c ->
    exists b, reads fs c b /\ FileSize (info f) = zlen b /\ zlen b < 2 ^ 32.

(** The record as it is read back. *)
Definition newc_kept (f : Rec) : Rec :=
  MkRec (Some (NewReadCloser (contents fs f)))
        (set_Name (Name (info f)) (header_Info (header_of f))).

Lemma header_of_NameLength f :
  newc_writable f -> h_NameLength (header_of f) = zlen (Name (info f)) + 1.
Proof.
  intros [Hn _]. unfold header_of, headerFromInfo. simpl.
  pose proof (zlen_nonneg (Name (info f))).
  assert (Name (match rc f with Some _ => info f | None => set_FileSize 0 (info f) end)
          = Name (info f)) as -> by (by destruct (rc f)).
  rewrite (u32_small (zlen _)) by lia. apply u32_small. lia.
Qed.

Lemma header_of_FileSize f :
  newc_writable f -> h_FileSize (header_of f) = zlen (contents fs f).
Proof.
  intros [_ Hc]. unfold header_of, headerFromInfo, contents.
  destruct (rc f) as [c|]; simpl; [|done].
  destruct (Hc c eq_refl) as (b & [-> _] & -> & Hb). cbn [fst].
  apply u32_small. pose proof (zlen_nonneg b). lia.
Qed.

(** A [Read] of a segment of the archive. *)
Lemma reader_Read_ok magic pre mid post :
  reader_Read (length mid) (MkReader magic (pre ++ mid ++ post) (zlen pre))
  = (MkReader magic (pre ++ mid ++ post) (zlen (pre ++ mid)), Ret mid).
Proof. unfold reader_Read. cbn [r_r r_pos r_magic]. rewrite ReadAt_ok, zlen_app. done. Qed.

(** [reads_at]: the reader stands at the end of [a], a record boundary. *)
Definition newc_reads_at (magic : bytes) (r : reader) (a b : bytes) : Prop :=
  r = MkReader magic (a ++ b) (zlen a) /\ zlen a `mod` 4 = 0.

Definition hex_header (f : Rec) : bytes := ToUpper (hex_encode (binary_Write (header_of f))).

Lemma length_hex_header f : length (hex_header f) = 104%nat.
Proof. unfold hex_header, ToUpper. by rewrite length_fmap, length_hex_encode, length_binary_Write. Qed.

Lemma decode_hex_header f :
  hex_decode (hex_header f) = Some (binary_Write (header_of f)).
Proof. apply hex_decode_encode. Qed.

(** [ReadAligned] of the name leaves the reader at the contents. *)
Lemma ReadAligned_name magic a f post :
  zlen a `mod` 4 = 0 ->
  let p := magic ++ hex_header f in
  let name := Name (info f) ++ [x00] in
  ReadAligned (length name)
    (MkReader magic ((a ++ p) ++ name ++ post) (zlen (a ++ p)))
  = (MkReader magic ((a ++ p) ++ name ++ post)
       (zlen (a ++ prologue magic f ++ padding (zlen (prologue magic f)))), Ret name).
Proof.
  intros Ha p name. unfold ReadAligned. rewrite reader_Read_ok. simpl. do 2 f_equal.
  assert ((a ++ p) ++ name = a ++ prologue magic f) as ->.
  { unfold prologue, p, name, hex_header. by rewrite <- !app_assoc. }
  rewrite !zlen_app, zlen_padding, round4_add by done. lia.
Qed.

(** The contents of a record are where its header section ends, ... *)
Lemma record_section magic a f b :
  take (Z.to_nat (zlen (contents fs f)))
    (drop (Z.to_nat (zlen (a ++ prologue magic f ++ padding (zlen (prologue magic f)))))
       (a ++ record_bytes magic fs f ++ b)) = contents fs f.
Proof.
  replace (a ++ record_bytes magic fs f ++ b)
    with ((a ++ prologue magic f ++ padding (zlen (prologue magic f))) ++ contents fs f
          ++ padding (zlen (contents fs f)) ++ b)
    by (unfold record_bytes; by rewrite <- !app_assoc).
  unfold zlen at 1 2. by rewrite !Nat2Z.id, drop_app_length, take_app_length.
Qed.

(** ... and rounding up their end gives the end of the record. *)
Lemma record_end magic a f :
  zlen a `mod` 4 = 0 ->
  round4 (zlen (a ++ prologue magic f ++ padding (zlen (prologue magic f)))
          + zlen (contents fs f))
  = zlen (a ++ record_bytes magic fs f).
Proof.
  intros Ha.
  replace (zlen (a ++ prologue magic f ++ padding (zlen (prologue magic f))) + zlen (contents fs f))
    with ((zlen a + zlen (prologue magic f) + zlen (padding (zlen (prologue magic f))))
          + zlen (contents fs f)) by (rewrite !zlen_app; lia).
  rewrite round4_add by (apply padded_aligned; done).
  unfold record_bytes. rewrite !zlen_app. rewrite (zlen_padding (zlen (contents _ _))). lia.
Qed.

(** Reading the encoding of a record gives the record back and moves to the
    next record boundary. *)
Lemma ReadRecord_ok magic r a f b :
  length magic = magicLen ->
  newc_reads_at magic r a (record_bytes magic fs f ++ b) -> newc_writable f ->
  exists r', ReadRecord r = (r', Ret (newc_kept f)) /\
             newc_reads_at magic r' (a ++ record_bytes magic fs f) b.
Proof.
  intros Hm [-> Ha] Hw.
  set (name := Name (info f) ++ [x00]).
  set (pads := padding (zlen (prologue magic f))).
  set (tl := pads ++ contents fs f ++ padding (zlen (contents fs f)) ++ b).
  assert (a ++ record_bytes magic fs f ++ b
          = a ++ (magic ++ hex_header f) ++ name ++ tl) as Earch.
  { unfold record_bytes, prologue, tl, name, hex_header. by rewrite <- !app_assoc. }
  unfold ReadRecord. rewrite Earch.
  replace (2 * 52 + magicLen)%nat with (length (magic ++ hex_header f))
    by (by rewrite length_app, length_hex_header, Hm).
  rewrite (M_bind_Ret _ _ _ _ _ (reader_Read_ok magic a (magic ++ hex_header f) _)).
  rewrite (M_bind_Ret get _ _ _ _ eq_refl). simpl r_magic.
  rewrite <- Hm, take_app_length, drop_app_length.
  rewrite bool_decide_eq_true_2 by done.
  rewrite decode_hex_header, binary_Read_Write by apply header_fields_range.
  rewrite header_of_NameLength, header_of_FileSize by done.
  replace (Z.to_nat (zlen (Name (info f)) + 1)) with (length name) by (subst name; zl).
  rewrite (app_assoc a (magic ++ _)).
  rewrite (M_bind_Ret _ _ _ _ _ (ReadAligned_name magic a f tl Ha)).
  replace (u32 (zlen (Name (info f)) + 1 - 1)) with (zlen (Name (info f))).
  2:{ destruct Hw as [Hn _]. pose proof (zlen_nonneg (Name (info f))). rewrite u32_small; lia. }
  rewrite slice_app_l. cbn [or_panic]. rewrite (M_bind_Ret (lift _) _ _ _ _ eq_refl).
  rewrite (M_bind_Ret get _ _ _ _ eq_refl). simpl r_pos. simpl r_r.
  rewrite (M_bind_Ret (modify _) _ _ _ _ eq_refl). cbn [r_magic r_r r_pos].
  rewrite (app_assoc a (magic ++ _)) in Earch. fold name pads. rewrite <- Earch.
  unfold pads. rewrite record_section.
  eexists; split; [reflexivity|]. unfold newc_reads_at.
  rewrite <- app_assoc. split.
  - f_equal. by apply record_end.
  - rewrite zlen_app. by apply record_bytes_aligned.
Qed.

(** Bytes of the archive the reader has not passed. *)
Definition newc_unread (r : reader) : nat := Z.to_nat (zlen (r_r r) - r_pos r).

Lemma reader_Read_progress n r r' b :
  reader_Read n r = (r', Ret b) ->
  length b = n /\ r_r r' = r_r r /\ r_pos r' = r_pos r + Z.of_nat n /\
  (r_pos r + Z.of_nat n <= zlen (r_r r) \/ n = 0%nat).
Proof.
  unfold reader_Read, ReadAt. intros H.
  destruct (Nat.ltb_spec (length (take n (drop (Z.to_nat (r_pos r)) (r_r r)))) n) as [|Hl];
    simplify_eq/=.
  unfold zlen. rewrite length_take, length_drop in *. split_and!; [lia|done|lia|lia].
Qed.

Lemma binary_Read_FileSize b h : binary_Read b = Some h -> 0 <= h_FileSize h.
Proof.
  unfold binary_Read. intros H.
  assert (Forall (fun z => 0 <= z) (be_val <$> chunks 4 (take 52 b))) as Hf.
  { apply Forall_fmap, Forall_true. intros c. apply le_val_range. }
  case_hyp H. simpl. repeat (apply Forall_cons_1 in Hf as [? Hf]). done.
Qed.

Lemma ReadRecord_progress r r' f :
  ReadRecord r = (r', Ret f) -> (newc_unread r' < newc_unread r)%nat.
Proof.
  unfold ReadRecord. intros H. M_inv H.
  apply reader_Read_progress in Hm as (_ & Hr1 & Hp1 & Hle).
  M_inv H. unfold get in Hm. simplify_eq. case_bool_decide; [|done].
  destruct (hex_decode _); [|done].
  destruct (binary_Read _) as [h|] eqn:Eh; [|done].
  apply binary_Read_FileSize in Eh.
  M_inv H. unfold ReadAligned in Hm. destruct (reader_Read _ _) as [r2 res] eqn:E2. simplify_eq.
  apply reader_Read_progress in E2 as (_ & Hr2 & Hp2 & _).
  M_inv H. unfold lift in Hm. simplify_eq. M_inv H. unfold get in Hm. simplify_eq.
  M_inv H. unfold modify in Hm. simplify_eq. unfold mret, M_ret in H. simplify_eq.
  unfold newc_unread. simpl. rewrite Hr2, Hr1.
  pose proof (round4_bounds (r_pos r2)).
  pose proof (round4_bounds (round4 (r_pos r2) + h_FileSize h)). unfold magicLen in *. lia.
Qed.

(** Fewer bytes than a header is the end of the archive. *)
Lemma ReadRecord_eof magic a b :
  (length b < 110)%nat ->
  ReadRecord (MkReader magic (a ++ b) (zlen a)) = (MkReader magic (a ++ b) (zlen a), Fail EOF).
Proof.
  intros Hb. unfold ReadRecord, mbind, M_bind, reader_Read, ReadAt. simpl r_r; simpl r_pos.
  unfold zlen at 1. rewrite Nat2Z.id, drop_app_length.
  replace (length (take (2 * 52 + magicLen) b) <? 2 * 52 + magicLen)%nat with true; [done|].
  symmetry. apply Nat.ltb_lt. rewrite length_take. unfold magicLen. lia.
Qed.
End ReadFacts.

(** ** The format

    [init] registers [format{magic: newcMagic}]; its writer on a [bytes.Buffer]
    and its reader implement the interface of [pkg/cpio]. *)

#[export] Instance newc_format (fs : files) : RecordFormat := {|
  RecordWriter := writer Buffer;
  RecordReader := reader;
  fmt_WriteRecord := WriteRecord fs;
  fmt_ReadRecord := ReadRecord
|}.

Definition newc_writes_to (w : writer Buffer) (a : bytes) : Prop :=
  w = MkWriter newcMagic {| buf := a |} (zlen a) /\ zlen a `mod` 4 = 0.

Lemma newc_write fs w a f :
  newc_writes_to w a -> newc_writable fs f ->
  exists w', WriteRecord fs f w = (w', Ret tt) /\
             newc_writes_to w' (a ++ record_bytes newcMagic fs f).
Proof.
  intros [-> Ha] [_ Hc].
  destruct (succeeds_WriteRecord fs (MkWriter newcMagic {| buf := a |} (zlen a)) f)
    as (w' & [] & E). { intros c Hrc. destruct (Hc c Hrc) as (b & Hb & _). eauto. }
  pose proof (emits_WriteRecord fs (MkWriter newcMagic {| buf := a |} (zlen a)) f Ha) as He.
  unfold emits in He. rewrite E in *. exists w'. split; [done|].
  destruct He as (Ho & Hp & Hm). destruct w' as [m [b] p]. simpl in *. subst.
  split; [by rewrite zlen_app|]. rewrite zlen_app. by apply record_bytes_aligned.
Qed.

#[export] Program Instance newc_format_ok (fs : files) : @RecordFormatOk (newc_format fs) := {|
  writable := newc_writable fs;
  encoding := record_bytes newcMagic fs;
  kept := newc_kept fs;
  writes_to := newc_writes_to;
  reads_at := newc_reads_at newcMagic;
  unread := newc_unread
|}.
Next Obligation. intros. by apply newc_write. Qed.
Next Obligation. intros. by apply ReadRecord_ok. Qed.
Next Obligation.
  intros fs d a [-> _]. eexists. apply ReadRecord_eof. simpl. lia.
Qed.
Next Obligation. done. Qed.
Next Obligation. intros fs d d' r. apply ReadRecord_progress. Qed.

(** ** Properties *)

Lemma newc_kept_eq fs f :
  newc_writable fs f ->
  newc_kept fs f =
    MkRec (Some (StaticRC (contents fs f)))
      (MkInfo (u32 (Ino (info f))) (u32 (Mode (info f))) (u32 (UID (info f)))
         (u32 (GID (info f))) (u32 (NLink (info f))) (u32 (MTime (info f)))
         (zlen (contents fs f)) 0 (u32 (Major (info f))) (u32 (Minor (info f)))
         (u32 (Rmajor (info f))) (u32 (Rminor (info f))) (Name (info f))).
Proof.
  intros Hw. pose proof (header_of_FileSize fs f Hw) as Hfs.
  unfold newc_kept, header_Info. rewrite Hfs. unfold header_of. by destruct (rc f).
Qed.

(** C2: [WriteRecord] on any sink that honours the [io.Writer] contract, started at a
    record boundary, sends exactly the record's newc encoding and ends at a record
    boundary with the position advanced by its length; when the sink fails it has sent a
    prefix of that encoding; it never panics. *)
Theorem WriteRecord_writes_encoding {W} `{WriterOk W} (fs : files) (w : writer W) (f : Rec) :
  w_pos w `mod` 4 = 0 ->
  match WriteRecord fs f w with
  | (w', Ret _) =>
      out (w_w w') = out (w_w w) ++ record_bytes (w_magic w) fs f /\
      w_pos w' = w_pos w + zlen (record_bytes (w_magic w) fs f) /\ w_pos w' `mod` 4 = 0
  | (w', Fail _) => exists k, out (w_w w') = out (w_w w) ++ take k (record_bytes (w_magic w) fs f)
  | (_, Panic) => False
  end.
Proof.
  intros Ha. pose proof (emits_WriteRecord fs w f Ha) as He. unfold emits in He.
  destruct (WriteRecord fs f w) as [w' [a|e|]]; [|done|done].
  destruct He as (Ho & Hp & _). split_and!; [done|done|].
  rewrite Hp. by apply record_bytes_aligned.
Qed.

Definition ex_rec : Rec := StaticRecord (str "hello") (set_Mode 33188 (set_Name (str "etc/motd") Info0)).

Lemma WriteRecord_writes_encoding_witness :
  let w := NewWriter newcMagic {| dev_data := []; dev_room := 120 |} in
  w_pos w `mod` 4 = 0 /\
  match WriteRecord no_files ex_rec w with
  | (w', Ret _) => False
  | (w', Fail e) => e = Errno 28 /\
      exists k, out (w_w w') = out (w_w w) ++ take k (record_bytes newcMagic no_files ex_rec)
  | (_, Panic) => False
  end.
Proof.
  intros w. split; [reflexivity|].
  pose proof (WriteRecord_writes_encoding no_files w ex_rec eq_refl) as H.
  assert (snd (WriteRecord no_files ex_rec w) = Fail (Errno 28)) as E
    by (vm_compute; reflexivity).
  destruct (WriteRecord _ ex_rec w) as [w' [a|e|]]; simpl in E; simplify_eq.
  split; [done|exact H].
Defined.

(** C3: a record written at a record boundary is read back: [ReadRecord] on the archive
    returns the record with its name, contents and the low 32 bits of its metadata, and
    leaves the reader where the next record starts, whatever follows. *)
Theorem WriteRecord_ReadRecord (fs : files) (a b : bytes) (f : Rec) :
  zlen a `mod` 4 = 0 -> newc_writable fs f ->
  exists w', WriteRecord fs f (MkWriter newcMagic {| buf := a |} (zlen a)) = (w', Ret tt) /\
    ReadRecord (MkReader newcMagic (buf (w_w w') ++ b) (zlen a)) =
      (MkReader newcMagic (buf (w_w w') ++ b) (w_pos w'),
       Ret (MkRec (Some (StaticRC (contents fs f)))
              (MkInfo (u32 (Ino (info f))) (u32 (Mode (info f))) (u32 (UID (info f)))
                 (u32 (GID (info f))) (u32 (NLink (info f))) (u32 (MTime (info f)))
                 (zlen (contents fs f)) 0 (u32 (Major (info f))) (u32 (Minor (info f)))
                 (u32 (Rmajor (info f))) (u32 (Rminor (info f))) (Name (info f))))).
Proof.
  intros Ha Hw.
  destruct (newc_write fs _ a f (conj eq_refl Ha) Hw) as (w' & E & -> & Ha').
  exists (MkWriter newcMagic {| buf := a ++ record_bytes newcMagic fs f |}
            (zlen (a ++ record_bytes newcMagic fs f))). split; [done|]. simpl.
  destruct (ReadRecord_ok fs newcMagic (MkReader newcMagic (a ++ record_bytes newcMagic fs f ++ b) (zlen a))
              a f b eq_refl (conj eq_refl Ha) Hw) as (r' & Er & -> & _).
  rewrite <- app_assoc, Er, newc_kept_eq, <- app_assoc by done. done.
Qed.

Lemma WriteRecord_ReadRecord_witness :
  exists w', WriteRecord no_files ex_rec (MkWriter newcMagic {| buf := str "abcd" |} 4) = (w', Ret tt) /\
    snd (ReadRecord (MkReader newcMagic (buf (w_w w') ++ str "rest") 4)) = Ret ex_rec.
Proof.
  assert (newc_writable no_files ex_rec) as Hw.
  { split; [reflexivity|]. intros c Hc. exists (str "hello"). vm_compute in Hc. simplify_eq. done. }
  destruct (WriteRecord_ReadRecord no_files (str "abcd") (str "rest") ex_rec eq_refl Hw)
    as (w' & E1 & E2).
  exists w'. split; [exact E1|]. change 4 with (zlen (str "abcd")). rewrite E2. reflexivity.
Defined.

(** A header whose name length is zero makes [ReadRecord] panic: the slice bound
    [NameLength-1] wraps to [2^32-1], out of range of the empty name buffer. *)
Theorem ReadRecord_zero_name_panics (h : header) (post : bytes) :
  Forall (fun z => 0 <= z < 2 ^ 32) (header_fields h) -> h_NameLength h = 0 ->
  snd (ReadRecord (NewReader newcMagic
         (newcMagic ++ ToUpper (hex_encode (binary_Write h)) ++ post))) = Panic.
Proof.
  intros Hr H0. unfold ReadRecord, NewReader.
  set (hx := ToUpper _).
  assert (length hx = 104%nat) as Hl.
  { unfold hx, ToUpper. by rewrite length_fmap, length_hex_encode, length_binary_Write. }
  replace (2 * 52 + magicLen)%nat with (length (newcMagic ++ hx)) by (rewrite length_app, Hl; done).
  rewrite (app_assoc newcMagic hx).
  rewrite (M_bind_Ret _ _ _ _ _ (reader_Read_ok newcMagic [] (newcMagic ++ hx) post)).
  rewrite (M_bind_Ret get _ _ _ _ eq_refl). simpl r_magic.
  change magicLen with (length newcMagic).
  rewrite take_app_length, drop_app_length, bool_decide_eq_true_2 by done.
  unfold hx. rewrite hex_decode_encode, binary_Read_Write, H0 by done. reflexivity.
Qed.

Lemma ReadRecord_zero_name_panics_witness :
  snd (ReadRecord (NewReader newcMagic (newcMagic ++
    ToUpper (hex_encode (binary_Write (MkHeader 1 33188 0 0 1 0 0 0 0 0 0 0 0))) ++ str "x"))) = Panic.
Proof.
  apply ReadRecord_zero_name_panics; [|reflexivity]. repeat constructor; vm_compute; congruence.
Defined.
