(* ===== verification/Cpio.v ===== *)
(** * Archives ([pkg/cpio/cpio.go])

    The format registry, the archive [Reader] (which stops at the trailer) and the
    archive [Writer] (which makes names relative and drops records whose name it has
    already written), over any [RecordFormat]. *)

From Stdlib Require Import Strings.String.
From S2P Require Export GoPath CpioTypes Newc.

(** ** The registry of formats *)

Section Registry.
Context {F : Type}.

Record registry := MkRegistry { formatMap : gmap bytes F; formats : list bytes }.

(** [log.Fatalf] ends the program: [None]. *)
Definition AddFormat (name : bytes) (f : F) (g : registry) : option registry :=
  match formatMap g !! name with
  | Some _ => None
  | None => Some (MkRegistry (<[name := f]> (formatMap g)) (formats g ++ [name]))
  end.

Definition Format (name : bytes) (g : registry) : outcome error F :=
  match formatMap g !! name with
  | Some op => Ret op
  | None => Fail (Errorf "Format %v is not one of %v")
  end.
End Registry.
Arguments registry : clear implicits.

Section Archive.
Context `{RecordFormat}.

(** ** Reading *)

Definition Reader_ReadRecord : M RecordReader Rec :=
  r ← fmt_ReadRecord;
  if bool_decide (Name (info r) = Trailer) then raise EOF else mret r.

(** The loop of [ReadRecords]; [None] when [fuel] iterations were not enough. *)
Fixpoint ReadRecords_loop (fuel : nat) (acc : list Rec) (d : RecordReader)
  : option (RecordReader * outcome error (list Rec)) :=
  match fuel with
  | O => None
  | S fuel =>
      match Reader_ReadRecord d with
      | (d, Ret f) => ReadRecords_loop fuel (acc ++ [f]) d
      | (d, Fail EOF) => Some (d, Ret acc)
      | (d, Fail e) => Some (d, Fail e)
      | (d, Panic) => Some (d, Panic)
      end
  end.

Definition ReadRecords (fuel : nat) (d : RecordReader) := ReadRecords_loop fuel [] d.

(** ** Writing *)

(** The [alreadyWritten] map is shared by every copy of the [Writer] value. *)
Record CWriter := MkCWriter { rw : RecordWriter; alreadyWritten : gset bytes }.

Definition NewCWriter (w : RecordWriter) : CWriter := MkCWriter w ∅.

(** The name a record is written under. *)
Definition relative (r : Rec) : Rec :=
  if IsAbs (Name (info r)) then map_info (set_Name (RelRoot (Name (info r)))) r else r.

Definition CWriter_WriteRecord (r : Rec) : M CWriter unit := fun w =>
  let r := relative r in
  if bool_decide (Name (info r) ∈ alreadyWritten w) then (w, Ret tt)
  else
    let '(rw', res) := fmt_WriteRecord r (rw w) in
    (MkCWriter rw' ({[Name (info r)]} ∪ alreadyWritten w), res).

Fixpoint CWriter_WriteRecords (rs : list Rec) : M CWriter unit := fun w =>
  match rs with
  | [] => (w, Ret tt)
  | f :: rs =>
      match CWriter_WriteRecord f w with
      | (w, Ret _) => CWriter_WriteRecords rs w
      | (w, Fail _) => (w, Fail (Errorf "WriteRecords: writing %q got %v"))
      | (w, Panic) => (w, Panic)
      end
  end.

Definition WriteTrailer : M CWriter unit := CWriter_WriteRecord TrailerRecord.

(** [Concat]: reads from one archive and writes to the other, a record at a time. *)
Fixpoint Concat (fuel : nat) (transform : option (Rec -> Rec)) (d : RecordReader) (w : CWriter)
  : option (RecordReader * CWriter * outcome error unit) :=
  match fuel with
  | O => None
  | S fuel =>
      match Reader_ReadRecord d with
      | (d, Fail EOF) => Some (d, w, Ret tt)
      | (d, Fail e) => Some (d, w, Fail e)
      | (d, Panic) => Some (d, w, Panic)
      | (d, Ret f) =>
          let f := match transform with Some t => t f | None => f end in
          match CWriter_WriteRecord f w with
          | (w, Ret _) => Concat fuel transform d w
          | (w, Fail e) => Some (d, w, Fail e)
          | (w, Panic) => Some (d, w, Panic)
          end
      end
  end.

(** ** What a sequence of records leaves in the archive

    The records that reach the format: each under its relative name, the first
    of every name. *)
Fixpoint survivors (seen : gset bytes) (rs : list Rec) : list Rec :=
  match rs with
  | [] => []
  | r :: rs =>
      let r := relative r in
      if bool_decide (Name (info r) ∈ seen) then survivors seen rs
      else r :: survivors ({[Name (info r)]} ∪ seen) rs
  end.

Definition names (rs : list Rec) : list bytes := (fun r => Name (info r)) <$> rs.

Definition seen_after (seen : gset bytes) (rs : list Rec) : gset bytes :=
  list_to_set (names (survivors seen rs)) ∪ seen.

(** Writing a list of records through the format alone. *)
Fixpoint write_all (rs : list Rec) : M RecordWriter unit :=
  match rs with
  | [] => mret tt
  | r :: rs => _ ← fmt_WriteRecord r; write_all rs
  end.
End Archive.

Definition MakeReproducible (file : Rec) : Rec := map_info (set_MTime 0) file.
Definition MakeAllReproducible (fs : list Rec) : list Rec := MakeReproducible <$> fs.

(** ** Facts *)

Section Facts.
Context `{RecordFormat}.

Lemma relative_not_abs r : IsAbs (Name (info (relative r))) = false.
Proof.
  unfold relative. destruct (IsAbs (Name (info r))) eqn:E; [|done]. by apply RelRoot_not_abs.
Qed.

Lemma survivors_props seen rs :
  NoDup (names (survivors seen rs)) /\
  Forall (fun n => (n ∉ seen) /\ IsAbs n = false) (names (survivors seen rs)).
Proof.
  revert seen. induction rs as [|r rs IH]; intros seen; simpl; [repeat constructor|].
  case_bool_decide as Hin; [apply IH|].
  destruct (IH ({[Name (info (relative r))]} ∪ seen)) as [IH1 IH2]. simpl. split.
  - constructor; [|done]. intros Hx. rewrite Forall_forall in IH2.
    apply IH2 in Hx as [Hx _]. apply Hx. by apply elem_of_union_l, elem_of_singleton.
  - constructor; [split; [done|apply relative_not_abs]|].
    eapply Forall_impl; [exact IH2|]. simpl. set_solver.
Qed.

Lemma seen_after_cons seen r rs :
  seen_after seen (r :: rs) =
    (if bool_decide (Name (info (relative r)) ∈ seen) then seen_after seen rs
     else seen_after ({[Name (info (relative r))]} ∪ seen) rs).
Proof.
  unfold seen_after. simpl. case_bool_decide; [done|]. simpl. set_solver.
Qed.

(** The archive writer is the format's writer on the surviving records. *)
Lemma WriteRecords_write_all rs w seen :
  match write_all (survivors seen rs) w with
  | (w', Ret _) =>
      CWriter_WriteRecords rs (MkCWriter w seen) = (MkCWriter w' (seen_after seen rs), Ret tt)
  | (w', Fail _) => exists s',
      CWriter_WriteRecords rs (MkCWriter w seen) =
        (MkCWriter w' s', Fail (Errorf "WriteRecords: writing %q got %v"))
  | (w', Panic) => exists s', CWriter_WriteRecords rs (MkCWriter w seen) = (MkCWriter w' s', Panic)
  end.
Proof.
  revert w seen. induction rs as [|r rs IH]; intros w seen; simpl.
  - unfold seen_after. simpl. do 2 f_equal. set_solver.
  - rewrite seen_after_cons. unfold CWriter_WriteRecord. cbn [rw alreadyWritten].
    case_bool_decide as Hin; [apply IH|].
    cbn [write_all]. unfold mbind, M_bind.
    destruct (fmt_WriteRecord (relative r) w) as [w1 [[]|e|]]; [apply IH|eauto|eauto].
Qed.

Context `{!RecordFormatOk}.

Definition archive_of (rs : list Rec) : bytes := concat (encoding <$> rs).

Lemma archive_of_cons r rs : archive_of (r :: rs) = encoding r ++ archive_of rs.
Proof. done. Qed.

Lemma archive_of_app rs ss : archive_of (rs ++ ss) = archive_of rs ++ archive_of ss.
Proof. unfold archive_of. by rewrite fmap_app, concat_app. Qed.

Lemma write_all_ok rs w a :
  writes_to w a -> Forall writable rs ->
  exists w', write_all rs w = (w', Ret tt) /\ writes_to w' (a ++ archive_of rs).
Proof.
  intros Hw Hrs. revert w a Hw. induction Hrs as [|r rs Hr Hrs IH]; intros w a Hw.
  - exists w. split; [done|]. unfold archive_of. simpl. by rewrite app_nil_r.
  - destruct (format_write w a r Hw Hr) as (w1 & E & Hw1).
    destruct (IH w1 _ Hw1) as (w2 & E2 & Hw2). exists w2. simpl.
    rewrite (M_bind_Ret _ _ _ _ _ E), archive_of_cons, app_assoc. done.
Qed.

(** Reading an archive: the records up to the trailer. *)
Lemma ReadRecords_loop_ok rs d a acc b fuel :
  reads_at d a (archive_of rs ++ encoding TrailerRecord ++ b) ->
  Forall writable rs -> writable TrailerRecord -> Trailer ∉ names rs ->
  (length rs < fuel)%nat ->
  exists d', ReadRecords_loop fuel acc d = Some (d', Ret (acc ++ (kept <$> rs))).
Proof.
  intros Hd Hrs Ht Hn. revert d a acc fuel Hd Hn.
  induction Hrs as [|r rs Hr Hrs IH]; intros d a acc fuel Hd Hn Hf.
  - destruct fuel as [|fuel]; [simpl in Hf; lia|].
    change (archive_of [] ++ encoding TrailerRecord ++ b) with (encoding TrailerRecord ++ b) in Hd.
    destruct (format_read _ _ _ _ Hd Ht) as (d1 & E & _). exists d1. simpl.
    unfold Reader_ReadRecord. rewrite (M_bind_Ret _ _ _ _ _ E).
    rewrite bool_decide_eq_true_2 by (by rewrite kept_Name). by rewrite app_nil_r.
  - destruct fuel as [|fuel]; [simpl in Hf; lia|].
    rewrite archive_of_cons, <- app_assoc in Hd.
    destruct (format_read _ _ _ _ Hd Hr) as (d1 & E & Hd1).
    unfold names in Hn. rewrite fmap_cons in Hn. apply not_elem_of_cons in Hn as [Hn1 Hn].
    destruct (IH d1 _ (acc ++ [kept r]) fuel Hd1 Hn ltac:(simpl in Hf; lia)) as (d2 & E2).
    exists d2. simpl. unfold Reader_ReadRecord. rewrite (M_bind_Ret _ _ _ _ _ E).
    rewrite bool_decide_eq_false_2 by (rewrite kept_Name; congruence).
    simpl. rewrite E2, <- app_assoc. done.
Qed.

(** [ReadRecords] needs at most one iteration per unread byte. *)
Lemma ReadRecords_loop_total fuel acc d :
  (unread d < fuel)%nat -> is_Some (ReadRecords_loop fuel acc d).
Proof.
  revert acc d. induction fuel as [|fuel IH]; intros acc d Hf; [lia|]. simpl.
  unfold Reader_ReadRecord, mbind, M_bind.
  destruct (fmt_ReadRecord d) as [d1 [r|e|]] eqn:E; [|destruct e; eauto|eauto].
  apply format_progress in E. case_bool_decide; simpl; [eauto|]. apply IH. lia.
Qed.

Lemma CWriter_cons r rs w :
  CWriter_WriteRecords (r :: rs) w =
    match CWriter_WriteRecord r w with
    | (w, Ret _) => CWriter_WriteRecords rs w
    | (w, Fail _) => (w, Fail (Errorf "WriteRecords: writing %q got %v"))
    | (w, Panic) => (w, Panic)
    end.
Proof. done. Qed.

(** [Concat] copies a whole archive like [WriteRecords] on the transformed records,
    errors apart. *)
Lemma Concat_ok t rs d a b w fuel w' :
  reads_at d a (archive_of rs ++ encoding TrailerRecord ++ b) ->
  Forall writable rs -> writable TrailerRecord -> Trailer ∉ names rs ->
  (length rs < fuel)%nat ->
  CWriter_WriteRecords ((fun r => t (kept r)) <$> rs) w = (w', Ret tt) ->
  exists d', Concat fuel (Some t) d w = Some (d', w', Ret tt).
Proof.
  intros Hd Hrs Ht Hn. revert d a fuel w Hd Hn.
  induction Hrs as [|r rs Hr Hrs IH]; intros d a fuel w Hd Hn Hf Hw.
  - destruct fuel as [|fuel]; [simpl in Hf; lia|]. simpl in Hw. simplify_eq.
    change (archive_of [] ++ encoding TrailerRecord ++ b) with (encoding TrailerRecord ++ b) in Hd.
    destruct (format_read _ _ _ _ Hd Ht) as (d1 & E & _). exists d1. simpl.
    unfold Reader_ReadRecord. rewrite (M_bind_Ret _ _ _ _ _ E).
    by rewrite bool_decide_eq_true_2 by (by rewrite kept_Name).
  - destruct fuel as [|fuel]; [simpl in Hf; lia|].
    rewrite archive_of_cons, <- app_assoc in Hd.
    destruct (format_read _ _ _ _ Hd Hr) as (d1 & E & Hd1).
    unfold names in Hn. rewrite fmap_cons in Hn. apply not_elem_of_cons in Hn as [Hn1 Hn].
    rewrite fmap_cons, CWriter_cons in Hw.
    simpl. unfold Reader_ReadRecord. rewrite (M_bind_Ret _ _ _ _ _ E).
    rewrite bool_decide_eq_false_2 by (rewrite kept_Name; congruence). simpl.
    destruct (CWriter_WriteRecord (t (kept r)) w) as [w1 [[]|e|]]; [|done|done].
    eapply IH; [exact Hd1|exact Hn|simpl in Hf; lia|exact Hw].
Qed.
End Facts.

(** ** Properties *)

Definition NewArchive (fs : files) : @CWriter (newc_format fs) :=
  @NewCWriter (newc_format fs) (NewWriter newcMagic {| buf := [] |}).

Lemma TrailerRecord_writable fs : newc_writable fs TrailerRecord.
Proof. split; [reflexivity|]. intros c Hc. exists []. unfold TrailerRecord in Hc. by simplify_eq/=. Qed.

(** Writing an archive and its trailer, and reading it. *)
Lemma archive_written (fs : files) (rs : list Rec) :
  Forall (newc_writable fs) (survivors ∅ rs) -> Trailer ∉ names (survivors ∅ rs) ->
  exists w, (CWriter_WriteRecords rs ≫= fun _ => WriteTrailer) (NewArchive fs) = (w, Ret tt) /\
  exists d, @ReadRecords (newc_format fs) (S (length (survivors ∅ rs)))
              (NewReader newcMagic (buf (w_w (@rw (newc_format fs) w)))) =
            Some (d, Ret (newc_kept fs <$> survivors ∅ rs)).
Proof.
  intros Hw Hn. unfold NewArchive, NewCWriter.
  set (w0 := NewWriter newcMagic {| buf := [] |}).
  destruct (@write_all_ok _ (newc_format_ok fs) (survivors ∅ rs) w0 [] (conj eq_refl eq_refl) Hw)
    as (w1 & E1 & Hw1).
  pose proof (@WriteRecords_write_all (newc_format fs) rs w0 ∅) as Href. rewrite E1 in Href.
  rewrite (M_bind_Ret _ _ _ _ _ Href).
  destruct (@format_write _ (newc_format_ok fs) w1 _ TrailerRecord Hw1 (TrailerRecord_writable fs))
    as (w2 & E2 & Hw2).
  unfold WriteTrailer, CWriter_WriteRecord. cbn [alreadyWritten rw].
  change (relative TrailerRecord) with TrailerRecord.
  rewrite bool_decide_eq_false_2.
  2:{ unfold seen_after. rewrite elem_of_union, elem_of_list_to_set. set_solver. }
  rewrite E2. eexists. split; [done|]. cbn [rw]. destruct Hw2 as [-> _]. cbn [w_w buf].
  unfold ReadRecords. apply (@ReadRecords_loop_ok _ (newc_format_ok fs) _ _ [] [] []); try done.
  - apply TrailerRecord_writable.
  - lia.
Qed.

(** C1: an archive written by [WriteRecords] and [WriteTrailer] and read by [ReadRecords]
    gives the records back, in order, each under its relative name and only the first of
    every name, provided every one of them is representable and none is called like the
    trailer; one read per record and one for the trailer is enough. *)
Theorem archive_roundtrip (fs : files) (rs : list Rec) :
  Forall (newc_writable fs) (survivors ∅ rs) -> Trailer ∉ names (survivors ∅ rs) ->
  let '(w, res) := (CWriter_WriteRecords rs ≫= fun _ => WriteTrailer) (NewArchive fs) in
  res = Ret tt /\
  exists d, @ReadRecords (newc_format fs) (S (length (survivors ∅ rs)))
              (NewReader newcMagic (buf (w_w (@rw (newc_format fs) w)))) =
            Some (d, Ret (newc_kept fs <$> survivors ∅ rs)).
Proof.
  intros Hw Hn. destruct (archive_written fs rs Hw Hn) as (w & -> & Hd). done.
Qed.

Lemma static_writable fs f b :
  rc f = Some (StaticRC b) -> FileSize (info f) = zlen b -> zlen b < 2 ^ 32 ->
  zlen (Name (info f)) + 1 < 2 ^ 32 -> newc_writable fs f.
Proof. intros Hc Hs Hb Hn. split; [done|]. intros c Ec. simplify_eq. by exists b. Qed.

Definition ex_recs : list Rec :=
  [ex_rec; map_info (set_Name (str "/etc/./motd")) ex_rec; map_info (set_Name (str "/bin/sh")) ex_rec].

Lemma archive_roundtrip_witness :
  let fs := no_files in
  let '(w, res) := (CWriter_WriteRecords ex_recs ≫= fun _ => WriteTrailer) (NewArchive fs) in
  names (@survivors ∅ ex_recs) = [str "etc/motd"; str "bin/sh"] /\
  res = Ret tt /\
  exists d, @ReadRecords (newc_format fs) 3
              (NewReader newcMagic (buf (w_w (@rw (newc_format fs) w)))) =
            Some (d, Ret (newc_kept fs <$> survivors ∅ ex_recs)).
Proof.
  intros fs.
  assert (names (@survivors ∅ ex_recs) = [str "etc/motd"; str "bin/sh"]) as En
    by (vm_compute; reflexivity).
  pose proof (archive_roundtrip fs ex_recs) as H.
  destruct ((CWriter_WriteRecords ex_recs ≫= fun _ => WriteTrailer) (NewArchive fs)) as [w res].
  split; [exact En|]. apply H.
  - assert (survivors ∅ ex_recs = [ex_rec; map_info (set_Name (str "bin/sh")) ex_rec]) as ->
      by (vm_compute; reflexivity).
    repeat apply Forall_cons_2; try apply Forall_nil_2;
      apply static_writable with (str "hello"); vm_compute; reflexivity.
  - rewrite En. vm_compute. intros Hx.
    repeat (apply elem_of_cons in Hx as [Hx|Hx]; [discriminate|]). by apply elem_of_nil in Hx.
Defined.

(** C5: whatever the format and even when it fails, [WriteRecords] sends the format
    the surviving records in order and nothing else; their names are relative and
    pairwise distinct, and distinct from every name written before. *)
Theorem WriteRecords_names_unique `{RecordFormat} (rs : list Rec) (w : RecordWriter) (seen : gset bytes) :
  rw (fst (CWriter_WriteRecords rs (MkCWriter w seen))) = fst (write_all (survivors seen rs) w) /\
  (snd (CWriter_WriteRecords rs (MkCWriter w seen)) = Ret tt <->
   snd (write_all (survivors seen rs) w) = Ret tt) /\
  NoDup (names (survivors seen rs)) /\
  Forall (fun n => (n ∉ seen) /\ IsAbs n = false) (names (survivors seen rs)).
Proof.
  pose proof (WriteRecords_write_all rs w seen) as Hr.
  pose proof (survivors_props seen rs) as [H1 H2].
  destruct (write_all (survivors seen rs) w) as [w' [[]|e|]]; [rewrite Hr|destruct Hr as [s' ->]..];
    simpl; split_and!; try done.
Qed.

(** C28: [ReadRecords] stops on every input, however corrupt: one iteration per byte of
    the file is always enough. *)
Theorem ReadRecords_terminates (fs : files) (magic data : bytes) :
  is_Some (@ReadRecords (newc_format fs) (S (length data)) (NewReader magic data)).
Proof.
  apply (@ReadRecords_loop_total _ (newc_format_ok fs)). simpl. unfold newc_unread. simpl. zl.
Qed.

(** C29: [Concat] of an archive onto a writer does what [WriteRecords] does with the
    transformed records of that archive, so concatenating initramfs archives drops the
    second archive's duplicates like a single archive would. *)
Theorem Concat_is_WriteRecords (fs : files) (t : Rec -> Rec) (rs : list Rec) (b : bytes)
    (w w' : @CWriter (newc_format fs)) :
  Forall (newc_writable fs) rs -> Trailer ∉ names rs ->
  @CWriter_WriteRecords (newc_format fs) ((fun r => t (newc_kept fs r)) <$> rs) w = (w', Ret tt) ->
  exists d, @Concat (newc_format fs) (S (length rs)) (Some t)
      (NewReader newcMagic (concat (record_bytes newcMagic fs <$> rs)
                            ++ record_bytes newcMagic fs TrailerRecord ++ b)) w =
    Some (d, w', Ret tt).
Proof.
  intros Hw Hn Hr.
  apply (@Concat_ok _ (newc_format_ok fs) t rs _ [] b); try done.
  - apply TrailerRecord_writable.
  - lia.
Qed.

Lemma Concat_is_WriteRecords_witness :
  let fs := no_files in
  let src := [ex_rec; map_info (set_Name (str "bin/sh")) ex_rec] in
  let w1 := fst (CWriter_WriteRecord ex_rec (NewArchive fs)) in
  let r := @CWriter_WriteRecords (newc_format fs) ((fun r => MakeReproducible (newc_kept fs r)) <$> src) w1 in
  snd r = Ret tt /\
  exists d, @Concat (newc_format fs) 3 (Some MakeReproducible)
      (NewReader newcMagic (concat (record_bytes newcMagic fs <$> src)
                            ++ record_bytes newcMagic fs TrailerRecord ++ [])) w1 =
    Some (d, fst r, Ret tt).
Proof.
  intros fs src w1 r.
  assert (snd r = Ret tt) as Es by (vm_compute; reflexivity). split; [exact Es|].
  apply (Concat_is_WriteRecords fs MakeReproducible src [] w1 (fst r)).
  - repeat apply Forall_cons_2; try apply Forall_nil_2;
      apply static_writable with (str "hello"); vm_compute; reflexivity.
  - vm_compute. intros Hx.
    repeat (apply elem_of_cons in Hx as [Hx|Hx]; [discriminate|]). by apply elem_of_nil in Hx.
  - change (@CWriter_WriteRecords (newc_format fs)
              ((fun r0 => MakeReproducible (newc_kept fs r0)) <$> src) w1) with r.
    destruct r as [r1 r2]. simpl in Es. by rewrite Es.
Defined.
