(* ===== verification/CpioFs.v ===== *)
(** * Archives and the file system ([pkg/cpio/fs_unix.go], [pkg/cpio/sysinfo_linux.go], [cmds/cpio])

    Extraction ([CreateFile]) as a trace of system calls against a kernel that may refuse
    any of them, the inode numbering that makes archives reproducible ([inode]), archiving
    a path ([GetRecord]) and the three modes of the [cpio] command. *)

From Stdlib Require Import Strings.String.
From S2P Require Export Cpio.

(** ** File types

    Linux [mode_t] bits (the source's octal constants in hexadecimal, 0777 = 0x1ff,
    0755 = 0x1ed) and the bits of Go's [os.FileMode]. *)

Definition modeTypeMask : Z := 0xf000.
Definition modeSocket : Z := 0xc000.
Definition modeSymlink : Z := 0xa000.
Definition modeFile : Z := 0x8000.
Definition modeBlock : Z := 0x6000.
Definition modeDir : Z := 0x4000.
Definition modeChar : Z := 0x2000.
Definition modeFIFO : Z := 0x1000.
Definition modePermissions : Z := 0x1ff.

Definition ModeDir : Z := 2 ^ 31.
Definition ModeSymlink : Z := 2 ^ 27.
Definition ModeDevice : Z := 2 ^ 26.
Definition ModeNamedPipe : Z := 2 ^ 25.
Definition ModeSocket : Z := 2 ^ 24.
Definition ModeCharDevice : Z := 2 ^ 21.
Definition ModeType : Z :=
  Z.lor ModeDir (Z.lor ModeSymlink (Z.lor ModeNamedPipe (Z.lor ModeSocket ModeDevice))).

Definition modeMap : list (Z * Z) :=
  [(modeSocket, ModeSocket); (modeSymlink, ModeSymlink); (modeFile, 0); (modeBlock, ModeDevice);
   (modeDir, ModeDir); (modeChar, ModeCharDevice); (modeFIFO, ModeNamedPipe)].

Fixpoint assoc {A} (k : Z) (m : list (Z * A)) : option A :=
  match m with
  | [] => None
  | (k', v) :: m => if k =? k' then Some v else assoc k m
  end.

Definition linuxModeToMode (m : Z) : outcome error Z :=
  match assoc (Z.land m modeTypeMask) modeMap with
  | Some t => Ret t
  | None => Fail (Errorf "Invalid file type %#o")
  end.

Definition perm (r : Rec) : Z := Z.land (u32 (Mode (info r))) modePermissions.

Definition dev (r : Rec) : Z := i64 (Z.lor (u64 (Z.shiftl (Rmajor (info r)) 8)) (Rminor (info r))).

(** ** System calls *)

Inductive call :=
| Chmod (name : bytes) (mode : Z)
| Chtimes (name : bytes) (mtime : Z)
| Chown (name : bytes) (uid gid : Z)
| MkdirAll (dir : bytes) (mode : Z)
| Create (name : bytes)
| Write (name : bytes) (b : bytes)
| Close (name : bytes)
| Mknod (name : bytes) (mode dev : Z)
| Symlink (target name : bytes).

Definition S_IFBLK : Z := 0x6000.
Definition S_IFCHR : Z := 0x2000.

Section Extract.
(** The kernel's answer to a call, given the calls before it, and the files a
    lazily opened record reads. *)
Context (sys : list call -> call -> option error) (fs : files).

Definition do_call (c : call) : M (list call) unit := fun tr =>
  (tr ++ [c], match sys tr c with None => Ret tt | Some e => Fail e end).

(** [defer nf.Close()]: runs however the function ends, its error ignored. *)
Definition defer_Close {A} (name : bytes) (m : M (list call) A) : M (list call) A := fun tr =>
  let '(tr, r) := m tr in (tr ++ [Close name], r).

(** [ioutil.ReadAll] of a record: a nil [ReadCloser] is a nil dereference. *)
Definition rec_contents (f : Rec) : outcome error bytes :=
  match rc f with None => Panic | Some c => read_all fs c end.

Definition file_Write (name : bytes) (b : bytes) : M (list call) Z :=
  _ ← do_call (Write name b); mret (zlen b).

Definition setModes (r : Rec) : M (list call) unit :=
  let n := Name (info r) in
  _ ← do_call (Chmod n (perm r));
  _ ← do_call (Chtimes n (i64 (MTime (info r))));
  do_call (Chown n (i64 (UID (info r))) (i64 (GID (info r)))).

Definition CreateFile (f : Rec) : M (list call) unit :=
  m ← lift (linuxModeToMode (Mode (info f)));
  let name := Name (info f) in
  let dir := dir_part name in
  _ ← (if bool_decide (dir <> [] /\ m ∈ [0; ModeDevice; ModeCharDevice; ModeSymlink])
       then do_call (MkdirAll dir 0x1ed) else mret tt);
  if bool_decide (m ∈ [ModeSocket; ModeNamedPipe]) then
    raise (Errorf "%q: type %v: cannot create IPC endpoints")
  else if m =? 0 then
    _ ← do_call (Create name);
    defer_Close name (
      c ← lift (or_panic (rc f));
      let '(b, err) := rc_Read fs c in
      _ ← io_Copy (file_Write name) b;
      _ ← lift (as_outcome err);
      setModes f)
  else if m =? ModeDir then
    _ ← do_call (MkdirAll name (perm f)); setModes f
  else if m =? ModeDevice then
    _ ← do_call (Mknod name (Z.lor (perm f) S_IFBLK) (dev f)); setModes f
  else if m =? ModeCharDevice then
    _ ← do_call (Mknod name (Z.lor (perm f) S_IFCHR) (dev f)); setModes f
  else if m =? ModeSymlink then
    content ← lift (rec_contents f);
    do_call (Symlink content name)
  else raise (Errorf "%v: Unknown type %#o").
End Extract.

(** ** Inode numbers *)

Record inodes := MkInodes { inodeMap : gmap (Z * Z) Info; inumber : Z }.

Definition inodes0 : inodes := MkInodes ∅ 0.

Definition inode (i : Info) (t : inodes) : inodes * (Info * bool) :=
  let d := (Dev i, Ino i) in
  let i := set_Dev 0 i in
  match inodeMap t !! d with
  | Some d => (t, (set_Ino (Ino d) i, true))
  | None =>
      let i := set_Ino (inumber t) i in
      (MkInodes (<[d := i]> (inodeMap t)) (u64 (inumber t + 1)), (i, false))
  end.

(** ** Archiving a path *)

(** [syscall.Stat_t]; every field is unsigned but [st_mtime] and [st_size]. *)
Record Stat_t := MkStat {
  st_dev : Z; st_ino : Z; st_mode : Z; st_nlink : Z; st_uid : Z; st_gid : Z;
  st_rdev : Z; st_size : Z; st_mtime : Z
}.

Definition sysInfo (n : bytes) (s : Stat_t) : Info :=
  MkInfo (st_ino s) (st_mode s) (st_uid s) (st_gid s) (st_nlink s) (u64 (st_mtime s)) (u64 (st_size s))
    (st_dev s) (Z.shiftr (st_dev s) 8) (Z.land (st_dev s) 0xff)
    (Z.shiftr (st_rdev s) 8) (Z.land (st_rdev s) 0xff) n.

(** The type bits [os.Lstat] gives to [fi.Mode()]. *)
Definition fileMode (s : Stat_t) : Z :=
  match assoc (Z.land (st_mode s) modeTypeMask)
    [(modeBlock, ModeDevice); (modeChar, Z.lor ModeDevice ModeCharDevice); (modeDir, ModeDir);
     (modeFIFO, ModeNamedPipe); (modeSymlink, ModeSymlink); (modeFile, 0); (modeSocket, ModeSocket)] with
  | Some t => t
  | None => 0
  end.

(** The file system an archive is made from. *)
Record host := MkHost {
  lstat : bytes -> outcome error Stat_t;
  readlink : bytes -> outcome error bytes;
  readdirnames : bytes -> outcome error (list bytes)
}.

Definition GetRecord (h : host) (path : bytes) : M inodes Rec :=
  sys ← lift (lstat h path);
  '(i, done) ← (fun t => let '(t, r) := inode (sysInfo path sys) t in (t, Ret r));
  let t := Z.land (fileMode sys) ModeType in
  if t =? 0 then
    if done : bool then mret (MkRec None i) else mret (MkRec (Some (NewDeferReadCloser path)) i)
  else if t =? ModeSymlink then
    linkname ← lift (readlink h path);
    mret (StaticRecord linkname i)
  else mret (StaticRecord [] i).

(** ** The [cpio] command

    What a run leaves: the system calls of mode [i], the archive of mode [o], the records
    mode [t] prints; [log.Fatalf] is [Fail]. *)
Section Command.
Context (sys : list call -> call -> option error) (fs : files) (h : host).

(** Mode [i]: a file that cannot be created is logged and skipped. *)
Fixpoint cpio_i (fuel : nat) (d : reader) (tr : list call) : option (list call * outcome error unit) :=
  match fuel with
  | O => None
  | S fuel =>
      match @Reader_ReadRecord (newc_format fs) d with
      | (d, Fail EOF) => Some (tr, Ret tt)
      | (d, Fail _) => Some (tr, Fail (Errorf "error reading records: %v"))
      | (d, Panic) => Some (tr, Panic)
      | (d, Ret r) =>
          match CreateFile sys fs r tr with
          | (tr, Panic) => Some (tr, Panic)
          | (tr, _) => cpio_i fuel d tr
          end
      end
  end.

Fixpoint cpio_o_names (names : list bytes) (w : @CWriter (newc_format fs)) (t : inodes)
  : @CWriter (newc_format fs) * inodes * outcome error unit :=
  match names with
  | [] => (w, t, Ret tt)
  | n :: names =>
      match GetRecord h n t with
      | (t, Fail _) => (w, t, Fail (Errorf "Getting record of %q failed: %v"))
      | (t, Panic) => (w, t, Panic)
      | (t, Ret r) =>
          match CWriter_WriteRecord r w with
          | (w, Ret _) => cpio_o_names names w t
          | (w, Fail _) => (w, t, Fail (Errorf "Writing record %q failed: %v"))
          | (w, Panic) => (w, t, Panic)
          end
      end
  end.

Definition cpio_o (stdin : bytes) : bytes * outcome error unit :=
  let '(names, err) := ScanLines stdin in
  let archive w := buf (w_w (@rw (newc_format fs) w)) in
  match cpio_o_names names (NewArchive fs) inodes0 with
  | (w, _, Ret _) =>
      match err with
      | Some _ => (archive w, Fail (Errorf "Error reading stdin: %v"))
      | None =>
          match WriteTrailer w with
          | (w, Ret _) => (archive w, Ret tt)
          | (w, Fail _) => (archive w, Fail (Errorf "Error writing trailer record: %v"))
          | (w, Panic) => (archive w, Panic)
          end
      end
  | (w, _, r) => (archive w, r)
  end.

Fixpoint cpio_t (fuel : nat) (d : reader) (acc : list Info) : option (list Info * outcome error unit) :=
  match fuel with
  | O => None
  | S fuel =>
      match @Reader_ReadRecord (newc_format fs) d with
      | (d, Fail EOF) => Some (acc, Ret tt)
      | (d, Fail _) => Some (acc, Fail (Errorf "error reading records: %v"))
      | (d, Panic) => Some (acc, Panic)
      | (d, Ret r) => cpio_t fuel d (acc ++ [info r])
      end
  end.
End Command.

(** ** Extraction follows a plan

    [plan f] is what extracting [f] has to do, by the Linux type of the record. *)

Definition is_close (c : call) : bool := match c with Close _ => true | _ => false end.

(** A trace without the deferred [Close]. *)
Definition steps (cs : list call) : list call := filter (fun c => is_close c = false) cs.

Definition plan_modes (f : Rec) : list call :=
  let n := Name (info f) in
  [Chmod n (perm f); Chtimes n (i64 (MTime (info f))); Chown n (i64 (UID (info f))) (i64 (GID (info f)))].

Definition plan_parent (f : Rec) : list call :=
  match dir_part (Name (info f)) with [] => [] | dir => [MkdirAll dir 0x1ed] end.

Definition linux_type (f : Rec) : Z := Z.land (Mode (info f)) modeTypeMask.

Definition plan (fs : files) (f : Rec) : list call :=
  let n := Name (info f) in
  let t := linux_type f in
  if t =? modeFile then
    plan_parent f ++ Create n :: (Write n <$> chunks copy_buf_size (contents fs f)) ++ plan_modes f
  else if t =? modeDir then MkdirAll n (perm f) :: plan_modes f
  else if t =? modeBlock then plan_parent f ++ Mknod n (Z.lor (perm f) S_IFBLK) (dev f) :: plan_modes f
  else if t =? modeChar then plan_parent f ++ Mknod n (Z.lor (perm f) S_IFCHR) (dev f) :: plan_modes f
  else if t =? modeSymlink then plan_parent f ++ [Symlink (contents fs f) n]
  else [].

Definition extractable (f : Rec) : Prop :=
  linux_type f ∈ [modeFile; modeDir; modeBlock; modeChar; modeSymlink].

Section Follow.
Context (sys : list call -> call -> option error) (fs : files).

(** The kernel accepted every call of [cs] but, perhaps, a deferred [Close]. *)
Fixpoint accepted (tr cs : list call) : Prop :=
  match cs with
  | [] => True
  | c :: cs => (is_close c = true \/ sys tr c = None) /\ accepted (tr ++ [c]) cs
  end.

(** The action makes the calls [p]: all of them when it returns, some first ones when
    it fails. *)
Definition follows {A} (m : M (list call) A) (p : list call) : Prop :=
  forall tr, match m tr with
  | (tr', Ret _) => exists cs, tr' = tr ++ cs /\ steps cs = p /\ accepted tr cs
  | (tr', Fail _) => exists cs n, tr' = tr ++ cs /\ steps cs = take n p
  | (_, Panic) => False
  end.

Lemma accepted_app tr cs ds : accepted tr cs -> accepted (tr ++ cs) ds -> accepted tr (cs ++ ds).
Proof.
  revert tr. induction cs as [|c cs IH]; intros tr; simpl.
  - by rewrite app_nil_r.
  - intros [Hc Hcs] Hds. split; [done|]. apply IH; [done|]. by rewrite <- app_assoc.
Qed.

Lemma steps_app cs ds : steps (cs ++ ds) = steps cs ++ steps ds.
Proof. apply filter_app. Qed.

Lemma follows_ret {A} (a : A) : follows (mret a) [].
Proof. intros tr. exists []. by rewrite app_nil_r. Qed.

Lemma follows_raise {A} e p : follows (raise (A := A) e) p.
Proof. intros tr. exists [], 0%nat. by rewrite app_nil_r. Qed.

Lemma follows_bind {A B} (m : M (list call) A) (f : A -> M (list call) B) p q :
  follows m p -> (forall a, follows (f a) q) -> follows (m ≫= f) (p ++ q).
Proof.
  intros Hm Hf tr. specialize (Hm tr). unfold mbind, M_bind.
  destruct (m tr) as [tr1 [a|e|]]; [| |done].
  - destruct Hm as (cs & -> & Hs & Ha). specialize (Hf a (tr ++ cs)).
    destruct (f a (tr ++ cs)) as [tr2 [b|e|]]; [| |done].
    + destruct Hf as (ds & -> & Hs2 & Ha2). exists (cs ++ ds).
      rewrite steps_app, Hs, Hs2, app_assoc. split_and!; [done|done|by apply accepted_app].
    + destruct Hf as (ds & n & -> & Hs2). exists (cs ++ ds), (length p + n)%nat.
      by rewrite steps_app, Hs, Hs2, app_assoc, take_app_add.
  - destruct Hm as (cs & n & -> & Hs). exists cs, (Nat.min n (length p)).
    rewrite take_app_le by lia. rewrite Hs. split; [done|].
    destruct (Nat.le_ge_cases n (length p)); [by rewrite Nat.min_l|].
    rewrite Nat.min_r by done. by rewrite !take_ge.
Qed.

Lemma follows_call c : is_close c = false -> follows (do_call sys c) [c].
Proof.
  intros Hc tr. unfold do_call. destruct (sys tr c) eqn:E.
  - exists [c], 1%nat. unfold steps. by rewrite filter_cons_True.
  - exists [c]. unfold steps. rewrite filter_cons_True by done. simpl. auto.
Qed.

(** A call with a continuation. *)
Lemma follows_then {A} c (m : M (list call) A) p :
  is_close c = false -> follows m p -> follows (_ ← do_call sys c; m) (c :: p).
Proof. intros Hc Hm. by apply (follows_bind _ _ [c] p); [apply follows_call|]. Qed.

Lemma follows_defer {A} n (m : M (list call) A) p : follows m p -> follows (defer_Close n m) p.
Proof.
  intros Hm tr. specialize (Hm tr). unfold defer_Close.
  destruct (m tr) as [tr1 [a|e|]]; [| |done].
  - destruct Hm as (cs & -> & Hs & Ha). exists (cs ++ [Close n]).
    rewrite steps_app, Hs, app_assoc. split_and!; [done|by rewrite app_nil_r|].
    apply accepted_app; [done|]. simpl. auto.
  - destruct Hm as (cs & k & -> & Hs). exists (cs ++ [Close n]), k.
    by rewrite steps_app, Hs, app_assoc, app_nil_r.
Qed.

Lemma follows_copy name w cs :
  follows (copy_chunks (file_Write sys name) w cs) (Write name <$> cs).
Proof.
  revert w. induction cs as [|c cs IH]; intros w; [apply follows_ret|].
  intros tr. cbn [copy_chunks]. unfold file_Write.
  pose proof (follows_then (Write name c) _ (Write name <$> cs) eq_refl (IH (w + zlen c)) tr) as H.
  unfold mbind, M_bind in *. destruct (do_call sys (Write name c) tr) as [tr1 [a|e|]]; try exact H.
  cbn [mret M_ret]. unfold mret, M_ret. rewrite bool_decide_eq_true_2 by done. exact H.
Qed.

Lemma follows_setModes f : follows (setModes sys f) (plan_modes f).
Proof. unfold setModes. by repeat (apply follows_then; [done|]); apply follows_call. Qed.

Lemma follows_outcome {A} e (k : M (list call) A) p :
  follows k p -> follows (_ ← lift (as_outcome e); k) p.
Proof. destruct e as [e|]; [|done]. intros _ tr. exists [], 0%nat. by rewrite app_nil_r. Qed.

Lemma follows_contents {A} f (k : bytes -> M (list call) A) p :
  rc f <> None -> follows (k (contents fs f)) p -> follows (b ← lift (rec_contents fs f); k b) p.
Proof.
  unfold rec_contents, contents, read_all. destruct (rc f) as [c|]; [|done]. intros _ Hk tr.
  specialize (Hk tr). unfold mbind, M_bind, lift.
  destruct (rc_Read fs c) as [b [e|]]; [|done]. exists [], 0%nat. by rewrite app_nil_r.
Qed.

(** The copy of the contents: what was read goes out before the error of reading is reported. *)
Lemma follows_copy_contents {A} f name (k : M (list call) A) p :
  rc f <> None -> follows k p ->
  follows (c ← lift (or_panic (rc f)); let '(b, err) := rc_Read fs c in
           _ ← io_Copy (file_Write sys name) b; _ ← lift (as_outcome err); k)
    ((Write name <$> chunks copy_buf_size (contents fs f)) ++ p).
Proof.
  unfold contents. destruct (rc f) as [c|]; [|done]. intros _ Hk.
  enough (follows (let '(b, err) := rc_Read fs c in
    _ ← io_Copy (file_Write sys name) b; _ ← lift (as_outcome err); k)
    ((Write name <$> chunks copy_buf_size (fst (rc_Read fs c))) ++ p)) as H by exact H.
  destruct (rc_Read fs c) as [b err]. cbn [fst].
  apply follows_bind; [apply follows_copy|]. intros _. by apply follows_outcome.
Qed.

Lemma follows_parent f m :
  m ∈ [0; ModeDevice; ModeCharDevice; ModeSymlink] ->
  follows (if bool_decide (dir_part (Name (info f)) <> [] /\ m ∈ [0; ModeDevice; ModeCharDevice; ModeSymlink])
           then do_call sys (MkdirAll (dir_part (Name (info f))) 0x1ed) else mret tt) (plan_parent f).
Proof.
  intros Hm. unfold plan_parent. destruct (dir_part (Name (info f))) as [|b l].
  - rewrite bool_decide_eq_false_2 by naive_solver. apply follows_ret.
  - rewrite bool_decide_eq_true_2 by done. by apply follows_call.
Qed.
End Follow.

Section CreateFile.
Context (sys : list call -> call -> option error) (fs : files) (f : Rec) (Hrc : rc f <> None).

(** The type of a record decides which branch [CreateFile] takes. *)
Lemma linux_type_cases :
  (linux_type f = modeFile /\ linuxModeToMode (Mode (info f)) = Ret 0) \/
  (linux_type f = modeDir /\ linuxModeToMode (Mode (info f)) = Ret ModeDir) \/
  (linux_type f = modeBlock /\ linuxModeToMode (Mode (info f)) = Ret ModeDevice) \/
  (linux_type f = modeChar /\ linuxModeToMode (Mode (info f)) = Ret ModeCharDevice) \/
  (linux_type f = modeSymlink /\ linuxModeToMode (Mode (info f)) = Ret ModeSymlink) \/
  ((linux_type f ∉ [modeFile; modeDir; modeBlock; modeChar; modeSymlink]) /\ plan fs f = [] /\
   exists r, linuxModeToMode (Mode (info f)) = r /\
     r ∈ [Ret ModeSocket; Ret ModeNamedPipe; Fail (Errorf "Invalid file type %#o")]).
Proof.
  unfold linuxModeToMode, plan. change (Z.land (Mode (info f)) modeTypeMask) with (linux_type f).
  cbn [assoc modeMap]. generalize (linux_type f) as t. intros t.
  repeat match goal with
  | |- context [t =? ?c] => destruct (Z.eqb_spec t c) as [->|?]
  end; try (by (left + (right; left) + (right; right; left) + (right; right; right; left)
               + (right; right; right; right; left))); do 5 right;
  (split; [set_solver|]); (split; [reflexivity|]); eexists; (split; [reflexivity|]); set_solver.
Qed.

Lemma follows_lift_Ret {A B} (a : A) (k : A -> M (list call) B) p :
  follows sys (k a) p -> follows sys (lift (Ret a) ≫= k) p.
Proof. intros H. exact H. Qed.

Lemma follows_CreateFile : follows sys (CreateFile sys fs f) (plan fs f).
Proof.
  pose proof (follows_setModes sys f) as Hs. unfold CreateFile.
  destruct linux_type_cases as [[Et E]|[[Et E]|[[Et E]|[[Et E]|[[Et E]|(Hn & Hpl & r & E & Hr)]]]]];
    rewrite E; [unfold plan; rewrite Et.. |].
  - apply follows_lift_Ret, follows_bind; [by apply follows_parent; set_solver|]. intros _.
    apply follows_then; [done|]. by apply follows_defer, follows_copy_contents.
  - apply follows_lift_Ret, (follows_bind _ _ _ [] _); [|intros _; by apply follows_then].
    rewrite bool_decide_eq_false_2 by (vm_compute; intros [_ H]; set_solver). apply follows_ret.
  - apply follows_lift_Ret, follows_bind; [by apply follows_parent; set_solver|]. intros _.
    by apply follows_then.
  - apply follows_lift_Ret, follows_bind; [by apply follows_parent; set_solver|]. intros _.
    by apply follows_then.
  - apply follows_lift_Ret, follows_bind; [by apply follows_parent; set_solver|]. intros _.
    apply follows_contents; [done|]. by apply follows_call.
  - rewrite Hpl. repeat (apply elem_of_cons in Hr as [->|Hr]); [..|by apply elem_of_nil in Hr].
    + apply follows_lift_Ret, (follows_bind _ _ _ [] []); [|intros _; apply follows_raise].
      rewrite bool_decide_eq_false_2 by (vm_compute; intros [_ H]; set_solver). apply follows_ret.
    + apply follows_lift_Ret, (follows_bind _ _ _ [] []); [|intros _; apply follows_raise].
      rewrite bool_decide_eq_false_2 by (vm_compute; intros [_ H]; set_solver). apply follows_ret.
    + apply follows_raise.
Qed.

(** Only files, directories, devices and symbolic links are created. *)
Lemma CreateFile_extractable tr tr' u : CreateFile sys fs f tr = (tr', Ret u) -> extractable f.
Proof.
  unfold CreateFile, extractable.
  destruct linux_type_cases as [[Et E]|[[Et E]|[[Et E]|[[Et E]|[[Et E]|(Hn & Hpl & r & E & Hr)]]]]];
    [rewrite Et; set_solver.. |]. rewrite E. intros H. exfalso.
  repeat (apply elem_of_cons in Hr as [->|Hr]); [..|by apply elem_of_nil in Hr]; [| |done];
    M_inv H; M_inv H; unfold lift in Hm; simplify_eq; vm_compute in H; done.
Qed.
End CreateFile.

(** ** Inode numbering *)

Fixpoint inode_all (ns : list Info) (t : inodes) : inodes * list (Info * bool) :=
  match ns with
  | [] => (t, [])
  | i :: ns =>
      let '(t, r) := inode i t in
      let '(t, rs) := inode_all ns t in (t, r :: rs)
  end.

Definition devIno (i : Info) : Z * Z := (Dev i, Ino i).

(** The table numbers each known (device, inode) pair below [inumber], injectively. *)
Definition inodes_ok (t : inodes) : Prop :=
  inumber t = Z.of_nat (size (inodeMap t)) /\
  (forall k i, inodeMap t !! k = Some i -> 0 <= Ino i < inumber t) /\
  (forall k l i j, inodeMap t !! k = Some i -> inodeMap t !! l = Some j -> Ino i = Ino j -> k = l).

Lemma inodes0_ok : inodes_ok inodes0.
Proof.
  unfold inodes_ok, inodes0. cbn [inodeMap inumber].
  split_and!; [by rewrite map_size_empty|by intros ?? ?%lookup_empty_Some|by intros ???? ?%lookup_empty_Some].
Qed.

(** What the table says of a pair once [inode] has seen it. *)
Lemma inode_spec i t :
  inodes_ok t -> inumber t < 2 ^ 64 - 1 ->
  let '(t', (i', seen)) := inode i t in
  inodes_ok t' /\ inumber t <= inumber t' <= inumber t + 1 /\
  Dev i' = 0 /\ (seen = true <-> is_Some (inodeMap t !! devIno i)) /\
  (exists j, inodeMap t' !! devIno i = Some j /\ Ino j = Ino i') /\
  inodeMap t ⊆ inodeMap t'.
Proof.
  intros (Hn & Hr & Hi) Hlt. unfold inode. fold (devIno i). cbn [set_Dev].
  destruct (inodeMap t !! devIno i) as [d|] eqn:E; cbn.
  - rewrite E. split; [done|]. split; [lia|]. split; [done|]. split; [by split; eauto|]. by eauto.
  - assert (u64 (inumber t + 1) = inumber t + 1) as -> by (apply u64_small; lia).
    rewrite lookup_insert_eq.
    split; [|split; [lia|]; split; [done|]; split; [by split; [|intros []]|];
           split; [by eauto|by apply insert_subseteq]].
    unfold inodes_ok. cbn. rewrite map_size_insert_None by done. split_and!; [lia| |].
    + intros k j [[<- <-]|[_ Hk]]%lookup_insert_Some; cbn; [lia|]. apply Hr in Hk. lia.
    + intros k l j j' [[<- <-]|[_ Hk]]%lookup_insert_Some [[<- <-]|[_ Hl]]%lookup_insert_Some;
        cbn; intros He; [done| | |by eapply Hi].
      * apply Hr in Hl. lia.
      * apply Hr in Hk. lia.
Qed.

Lemma inode_all_spec ns t t' rs :
  inodes_ok t -> inumber t + zlen ns < 2 ^ 64 -> inode_all ns t = (t', rs) ->
  inodes_ok t' /\ inodeMap t ⊆ inodeMap t' /\
  Forall2 (fun i r => Dev (fst r) = 0 /\
             exists j, inodeMap t' !! devIno i = Some j /\ Ino j = Ino (fst r)) ns rs.
Proof.
  revert t rs. induction ns as [|i ns IH]; intros t rs Hok Hlt H; simpl in H.
  - simplify_eq. split_and!; [done|done|constructor].
  - rewrite zlen_cons in Hlt. pose proof (zlen_nonneg ns).
    pose proof (inode_spec i t Hok ltac:(lia)) as Hi.
    destruct (inode i t) as [t1 [i' seen]]. destruct Hi as (Hok1 & Hb & Hd & _ & (j & Hj & Ej) & Hsub).
    destruct (inode_all ns t1) as [t2 rs2] eqn:E2. simplify_eq.
    destruct (IH t1 rs2 Hok1 ltac:(lia) E2) as (Hok2 & Hsub2 & Hall).
    split_and!; [done|by etrans|]. constructor; [|done]. split; [done|].
    exists j. split; [|done]. by eapply lookup_weaken.
Qed.

(** ** Properties *)

(** C30: extracting a record read from an archive makes the calls its type asks for: parents
    first, then the file, directory, device or link, its contents and at the end its
    permissions, time and owner; all of them, each accepted by the kernel, when [CreateFile]
    returns without error, and a first part of them otherwise.  Sockets, pipes and unknown
    types are refused without touching the file system ([plan] is empty for them). *)
Theorem CreateFile_follows_plan (sys : list call -> call -> option error) (fs : files) (f : Rec) :
  rc f <> None ->
  match CreateFile sys fs f [] with
  | (tr, Ret _) => extractable f /\ steps tr = plan fs f /\ accepted sys [] tr
  | (tr, Fail _) => exists n, steps tr = take n (plan fs f)
  | (_, Panic) => False
  end.
Proof.
  intros Hrc. pose proof (follows_CreateFile sys fs f Hrc []) as H.
  destruct (CreateFile sys fs f []) as [tr [u|e|]] eqn:E; [| |done].
  - destruct H as (cs & -> & Hs & Ha). split_and!; [by eapply CreateFile_extractable|done|done].
  - destruct H as (cs & n & -> & Hs). by exists n.
Qed.

Lemma CreateFile_follows_plan_witness :
  let sys := fun tr c => match c with Chown _ _ _ => Some (Errno 1) | _ => None end in
  let tr := fst (CreateFile sys no_files ex_rec []) in
  snd (CreateFile sys no_files ex_rec []) = Fail (Errno 1) /\
  exists n, steps tr = take n (plan no_files ex_rec) /\ length (steps tr) = 6%nat.
Proof.
  intros sys tr.
  pose proof (CreateFile_follows_plan sys no_files ex_rec ltac:(discriminate)) as H.
  assert (snd (CreateFile sys no_files ex_rec []) = Fail (Errno 1)) as E by reflexivity.
  assert (length (steps tr) = 6%nat) as El by reflexivity.
  split; [exact E|]. subst tr. destruct (CreateFile sys no_files ex_rec []) as [tr r].
  simpl in *. subst r. destruct H as [n Hn]. by exists n.
Defined.

(** [inode] numbers files for reproducible archives: over any sequence of fewer than
    2^64 files, two get the same inode number exactly when they have the same device and
    inode, and the device is cleared in all of them. *)
Theorem inode_identifies_files (ns : list Info) (x y : nat) (i j : Info) (r s : Info * bool) :
  zlen ns < 2 ^ 64 ->
  ns !! x = Some i -> ns !! y = Some j ->
  snd (inode_all ns inodes0) !! x = Some r -> snd (inode_all ns inodes0) !! y = Some s ->
  (Ino (fst r) = Ino (fst s) <-> Dev i = Dev j /\ Ino i = Ino j) /\ Dev (fst r) = 0.
Proof.
  intros Hl Hi Hj Hr Hs. destruct (inode_all ns inodes0) as [t rs] eqn:E. simpl in *.
  destruct (inode_all_spec ns inodes0 t rs inodes0_ok Hl E) as ((_ & _ & Hinj) & _ & Hall).
  destruct (Forall2_lookup_lr _ _ _ _ _ _ Hall Hi Hr) as (Hd & a & Ha & Ea).
  destruct (Forall2_lookup_lr _ _ _ _ _ _ Hall Hj Hs) as (_ & b & Hb & Eb).
  split; [|done]. rewrite <- Ea, <- Eb. split.
  - intros He. pose proof (Hinj _ _ _ _ Ha Hb He) as Heq. unfold devIno in Heq. by simplify_eq.
  - intros [H1 H2]. unfold devIno in *. rewrite H1, H2 in Ha. by simplify_eq.
Qed.

Lemma inode_identifies_files_witness :
  let i := set_Ino 7 (set_Dev 1 Info0) in let j := set_Ino 7 (set_Dev 2 Info0) in
  let rs := snd (inode_all [i; j; i] inodes0) in
  (Ino <$> (fst <$> rs)) = [0; 1; 0] /\
  ((0 = 0 <-> Dev i = Dev i /\ Ino i = Ino i) /\ Dev (set_Ino 0 Info0) = 0).
Proof.
  intros i j rs. split; [vm_compute; reflexivity|].
  apply (inode_identifies_files [i; j; i] 0 2 i i (set_Ino 0 Info0, false) (set_Ino 0 Info0, true));
    vm_compute; reflexivity.
Defined.

(** ** Device nodes *)

Lemma devno_split x : Z.lor (Z.shiftl (Z.shiftr x 8) 8) (Z.land x 0xff) = x.
Proof.
  apply Z.bits_inj'. intros n Hn. rewrite Z.lor_spec, Z.land_spec, Z.shiftl_spec by done.
  change 0xff with (Z.ones 8). destruct (Z.lt_ge_cases n 8).
  - rewrite Z.testbit_neg_r, Z.ones_spec_low by lia. by rewrite andb_true_r.
  - rewrite Z.shiftr_spec, Z.ones_spec_high by lia. rewrite andb_false_r, orb_false_r. f_equal. lia.
Qed.

(** A device number survives the split into major and minor and 32-bit headers. *)
Lemma devno_u32 x :
  0 <= x < 2 ^ 40 ->
  i64 (Z.lor (u64 (Z.shiftl (u32 (Z.shiftr x 8)) 8)) (u32 (Z.land x 0xff))) = x.
Proof.
  intros Hx. assert (0 <= Z.shiftr x 8 < 2 ^ 32).
  { rewrite Z.shiftr_div_pow2 by lia. split; [apply Z.div_pos; lia|]. apply Z.div_lt_upper_bound; lia. }
  assert (0 <= Z.land x 0xff < 256).
  { change 0xff with (Z.ones 8). rewrite Z.land_ones by lia. apply Z.mod_pos_bound. lia. }
  rewrite !u32_small by lia. rewrite u64_small by (rewrite Z.shiftl_mul_pow2; lia).
  rewrite devno_split. apply i64_small. lia.
Qed.

Lemma GetRecord_device h path s t :
  lstat h path = Ret s -> Z.land (st_mode s) modeTypeMask ∈ [modeBlock; modeChar] ->
  exists t' i', GetRecord h path t = (t', Ret (StaticRecord [] i')) /\
    Mode i' = st_mode s /\ Rmajor i' = Z.shiftr (st_rdev s) 8 /\
    Rminor i' = Z.land (st_rdev s) 0xff /\ Name i' = path.
Proof.
  intros Hs Ht. unfold GetRecord, lift, mbind, M_bind. rewrite Hs.
  assert (forall t0, exists t1 i' seen, inode (sysInfo path s) t0 = (t1, (i', seen)) /\
    Mode i' = st_mode s /\ Rmajor i' = Z.shiftr (st_rdev s) 8 /\
    Rminor i' = Z.land (st_rdev s) 0xff /\ Name i' = path) as Hi.
  { intros t0. unfold inode. destruct (_ !! _); eauto 10. }
  destruct (Hi t) as (t1 & i' & seen & -> & Hi'). exists t1, i'. split; [|done].
  unfold fileMode. repeat (apply elem_of_cons in Ht as [->|Ht]); [done|done|by apply elem_of_nil in Ht].
Qed.

(** A block or character device archived by [GetRecord], written and read back in
    newc and extracted by [CreateFile] is made again by [mknod] with the type, the
    permissions and the device number of the original node, for device numbers below 2^40
    (a 32-bit major and an 8-bit minor). *)
Theorem device_roundtrip (h : host) (fs : files) (path : bytes) (s : Stat_t) (t : inodes) :
  lstat h path = Ret s -> Z.land (st_mode s) modeTypeMask ∈ [modeBlock; modeChar] ->
  0 <= st_mode s < 2 ^ 32 -> 0 <= st_rdev s < 2 ^ 40 -> zlen path + 1 < 2 ^ 32 ->
  exists t' r w' d' r', GetRecord h path t = (t', Ret r) /\
    WriteRecord fs r (NewWriter newcMagic {| buf := [] |}) = (w', Ret tt) /\
    ReadRecord (NewReader newcMagic (buf (w_w w'))) = (d', Ret r') /\
    plan fs r' = plan_parent r' ++ Mknod path (Z.land (st_mode s) 0xf1ff) (st_rdev s) :: plan_modes r'.
Proof.
  intros Hs Ht Hm Hd Hp.
  destruct (GetRecord_device h path s t Hs Ht) as (t' & i & Eg & Em & Ej & En & Enm).
  assert (newc_writable fs (StaticRecord [] i)) as Hw by (apply static_writable with []; simpl; subst; done).
  destruct (newc_write fs (NewWriter newcMagic {| buf := [] |}) [] _ (conj eq_refl eq_refl) Hw)
    as (w' & Ew & -> & _).
  pose proof (ReadRecord_ok fs newcMagic _ [] _ [] eq_refl (conj eq_refl eq_refl) Hw) as (d' & Er & _).
  rewrite app_nil_r in Er. do 5 eexists. split; [exact Eg|]. split; [exact Ew|]. split; [exact Er|].
  rewrite newc_kept_eq by done. unfold plan, linux_type, perm, dev. cbn [info Mode Rmajor Rminor Name StaticRecord set_FileSize].
  rewrite Em, Ej, En, Enm, u32_u32, (u32_small (st_mode s)), devno_u32 by done.
  change 0xf1ff with (Z.lor modePermissions modeTypeMask). rewrite Z.land_lor_distr_r.
  repeat (apply elem_of_cons in Ht as [->|Ht]); [done|done|by apply elem_of_nil in Ht].
Qed.

Definition ex_null : Stat_t := MkStat 6 11 (Z.lor modeChar 0x1b6) 1 0 0 0x103 0 1500000000.

Lemma device_roundtrip_witness :
  let h := MkHost (fun _ => Ret ex_null) (fun _ => Fail (Errno 22)) (fun _ => Fail (Errno 20)) in
  let fs := no_files in
  exists t' r w' d' r', GetRecord h (str "dev/null") inodes0 = (t', Ret r) /\
    WriteRecord fs r (NewWriter newcMagic {| buf := [] |}) = (w', Ret tt) /\
    ReadRecord (NewReader newcMagic (buf (w_w w'))) = (d', Ret r') /\
    plan fs r' = plan_parent r' ++ Mknod (str "dev/null") (Z.land (st_mode ex_null) 0xf1ff) 0x103 :: plan_modes r'.
Proof.
  intros h fs.
  apply (device_roundtrip h fs (str "dev/null") ex_null inodes0 eq_refl).
  - change (Z.land (st_mode ex_null) modeTypeMask) with modeChar. set_solver.
  - vm_compute; split; congruence.
  - vm_compute; split; congruence.
  - reflexivity.
Defined.

(** The archive still depends on the device a file lives on: [inode] clears [Dev], which
    the format does not store, and leaves [Major] and [Minor], which it does. *)
Example inode_keeps_device_numbers :
  let s1 := MkStat 0x801 5 33188 1 0 0 0 0 0 in
  let s2 := MkStat 0x802 5 33188 1 0 0 0 0 0 in
  let i1 := fst (snd (inode (sysInfo (str "a") s1) inodes0)) in
  let i2 := fst (snd (inode (sysInfo (str "a") s2) inodes0)) in
  Dev i1 = Dev i2 /\ Ino i1 = Ino i2 /\ headerFromInfo i1 <> headerFromInfo i2.
Proof. split_and!; [reflexivity..|vm_compute; congruence]. Qed.
