(* ===== verification/Ramfs.v ===== *)
(** * Initial RAM file systems ([pkg/ramfs/ramfs.go])

    The records every initramfs starts with, the writer that adds a record for each missing
    parent directory before the record itself, and the copy of files and directory trees
    from the host into the archive. *)

From Stdlib Require Import Strings.String.
From S2P Require Export CpioFs.

Definition S_IFDIR : Z := 0x4000.
Definition S_IFREG : Z := 0x8000.

(** The time zone file for GMT-0. *)
Definition gmt0 : bytes :=
  [x54; x5a; x69; x66; x32; x00; x00; x00; x00; x00; x00; x00; x00; x00; x00; x00; x00; x00;
   x00; x00; x00; x00; x00; x01; x00; x00; x00; x01; x00; x00; x00; x00; x00; x00; x00; x00;
   x00; x00; x00; x01; x00; x00; x00; x04; x00; x00; x00; x00; x00; x00; x47; x4d; x54; x00;
   x00; x00; x54; x5a; x69; x66; x32; x00; x00; x00; x00; x00; x00; x00; x00; x00; x00; x00;
   x00; x00; x00; x00; x00; x00; x00; x01; x00; x00; x00; x01; x00; x00; x00; x00; x00; x00;
   x00; x01; x00; x00; x00; x01; x00; x00; x00; x04; xf8; x00; x00; x00; x00; x00; x00; x00;
   x00; x00; x00; x00; x00; x00; x00; x47; x4d; x54; x00; x00; x00; x0a; x47; x4d; x54; x30;
   x0a].

(** The resolver configuration: one line. *)
Definition nameserver : bytes := str "nameserver 8.8.8.8" ++ [x0a].

Definition dev_info (name : bytes) (mode size rmajor rminor : Z) : Info :=
  MkInfo 0 mode 0 0 0 0 size 0 0 0 rmajor rminor name.

Definition DevCPIO : list Rec :=
  [MkRec None (dev_info (str "tcz") (Z.lor S_IFDIR 0x1ed) 0 0 0);
   MkRec None (dev_info (str "etc") (Z.lor S_IFDIR 0x1ed) 0 0 0);
   MkRec None (dev_info (str "dev") (Z.lor S_IFDIR 0x1ed) 0 0 0);
   MkRec None (dev_info (str "ubin") (Z.lor S_IFDIR 0x1ed) 0 0 0);
   MkRec None (dev_info (str "usr") (Z.lor S_IFDIR 0x1ed) 0 0 0);
   MkRec None (dev_info (str "usr/lib") (Z.lor S_IFDIR 0x1ed) 0 0 0);
   MkRec None (dev_info (str "lib64") (Z.lor S_IFDIR 0x1ed) 0 0 0);
   MkRec None (dev_info (str "bin") (Z.lor S_IFDIR 0x1ed) 0 0 0);
   MkRec None (dev_info (str "dev/console") (Z.lor S_IFCHR 0x180) 0 5 1);
   MkRec None (dev_info (str "dev/tty") (Z.lor S_IFCHR 0x1b6) 0 5 0);
   MkRec None (dev_info (str "dev/null") (Z.lor S_IFCHR 0x1b6) 0 1 3);
   MkRec None (dev_info (str "dev/port") (Z.lor S_IFCHR 0x1a0) 0 1 4);
   MkRec None (dev_info (str "dev/urandom") (Z.lor S_IFCHR 0x1b6) 0 1 9);
   MkRec (Some (NewBytesReadCloser nameserver)) (dev_info (str "etc/resolv.conf") (Z.lor S_IFREG 0x1a4) (zlen nameserver) 0 0);
   MkRec (Some (NewBytesReadCloser gmt0)) (dev_info (str "etc/localtime") (Z.lor S_IFREG 0x1a4) (zlen gmt0) 0 0)].

Section Initramfs.
Context `{RecordFormat}.

(** An archive writer and the names recorded through it. *)
Record Initramfs := MkInitramfs { i_Writer : CWriter; i_files : gset bytes }.

Definition NewInitramfs (w : CWriter) : CWriter * outcome error Initramfs :=
  match CWriter_WriteRecords (MakeAllReproducible DevCPIO) w with
  | (w, Ret _) => (w, Ret (MkInitramfs w ∅))
  | (w, Fail e) => (w, Fail e)
  | (w, Panic) => (w, Panic)
  end.

Definition dir_record (dir : bytes) : Rec :=
  MkRec None (set_Mode (Z.lor S_IFDIR 0x1ed) (set_Name dir Info0)).

(** [WriteRecord] calls itself for the parent directory; [None] when [fuel] nested calls
    were not enough. *)
Fixpoint WriteRecord_fuel (fuel : nat) (r : Rec) (i : Initramfs)
  : option (Initramfs * outcome error unit) :=
  match fuel with
  | O => None
  | S fuel =>
      let name := Name (info r) in
      if bool_decide (name = dot \/ name = sep) then Some (i, Ret tt)
      else
        let dir := Dir name in
        let write i :=
          let '(w, res) := CWriter_WriteRecord r (i_Writer i) in
          Some (MkInitramfs w ({[name]} ∪ i_files i), res) in
        if bool_decide (dir <> sep /\ dir <> dot /\ dir ∉ i_files i) then
          match WriteRecord_fuel fuel (dir_record dir) i with
          | Some (i, Ret _) => write i
          | other => other
          end
        else write i
  end.

(** Every nested call has a shorter name. *)
Definition Initramfs_WriteRecord (r : Rec) (i : Initramfs) : option (Initramfs * outcome error unit) :=
  WriteRecord_fuel (S (length (Name (info r)))) r i.

(** ** Copying from the host *)

Context (h : host).

Definition ENOENT : Z := 2.

(** The loop of [children]: a file that has disappeared is skipped. *)
Fixpoint children_loop {St} (fn : bytes -> St -> option (St * outcome error unit)) (names : list bytes) (s : St)
  : option (St * outcome error unit) :=
  match names with
  | [] => Some (s, Ret tt)
  | name :: names =>
      match fn name s with
      | None => None
      | Some (s, Ret _) => children_loop fn names s
      | Some (s, Fail e) =>
          if bool_decide (e = Errno ENOENT) then children_loop fn names s else Some (s, Fail e)
      | Some (s, Panic) => Some (s, Panic)
      end
  end.

Definition children {St} (dir : bytes) (fn : bytes -> St -> option (St * outcome error unit)) (s : St)
  : option (St * outcome error unit) :=
  match readdirnames h dir with
  | Ret names => children_loop fn names s
  | Fail e => Some (s, Fail e)
  | Panic => Some (s, Panic)
  end.

(** [WriteFile] descends into directories; [fuel] bounds the depth of the tree. *)
Fixpoint WriteFile (fuel : nat) (src dest : bytes) (s : inodes * Initramfs)
  : option ((inodes * Initramfs) * outcome error unit) :=
  match fuel with
  | O => None
  | S fuel =>
      match GetRecord h src (fst s) with
      | (t, Fail e) => Some ((t, snd s), Fail e)
      | (t, Panic) => Some ((t, snd s), Panic)
      | (t, Ret record) =>
          if Z.ldiff (Mode (info record)) 0x1ff =? S_IFDIR then
            children src (fun name => WriteFile fuel (PathJoin [src; name]) (PathJoin [dest; name])) (t, snd s)
          else
            let record := map_info (set_Name dest) record in
            match Initramfs_WriteRecord (MakeReproducible record) (snd s) with
            | None => None
            | Some (i, res) => Some ((t, i), res)
            end
      end
  end.

Fixpoint WriteFiles (fuel : nat) (srcDir destDir : bytes) (fls : list bytes) (s : inodes * Initramfs)
  : option ((inodes * Initramfs) * outcome error unit) :=
  match fls with
  | [] => Some (s, Ret tt)
  | file :: fls =>
      match WriteFile fuel (PathJoin [srcDir; file]) (PathJoin [destDir; file]) s with
      | Some (s, Ret _) => WriteFiles fuel srcDir destDir fls s
      | other => other
      end
  end.
End Initramfs.

(** ** Parents come first *)

Definition rel_name (n : bytes) : bytes := if IsAbs n then RelRoot n else n.

(** Each name's directory is ["."] or was named before ([seen] are the names before). *)
Fixpoint parents_first (seen ns : list bytes) : bool :=
  match ns with
  | [] => true
  | n :: ns => bool_decide (Dir n = dot \/ Dir n ∈ seen) && parents_first (seen ++ [n]) ns
  end.

Definition closed (ns : list bytes) : Prop := forall n, n ∈ ns -> Dir n = dot \/ Dir n ∈ ns.

Lemma parents_first_app seen ns ms :
  parents_first seen (ns ++ ms) = parents_first seen ns && parents_first (seen ++ ns) ms.
Proof.
  revert seen. induction ns as [|n ns IH]; intros seen; simpl.
  - by rewrite app_nil_r.
  - by rewrite IH, <- app_assoc, andb_assoc.
Qed.

Lemma parents_first_closed seen ns :
  parents_first seen ns = true -> forall n, n ∈ ns -> Dir n = dot \/ Dir n ∈ seen ++ ns.
Proof.
  revert seen. induction ns as [|m ns IH]; intros seen H n Hn; [by apply elem_of_nil in Hn|].
  simpl in H. apply andb_prop in H as [Hm H]. apply bool_decide_eq_true in Hm.
  apply elem_of_cons in Hn as [->|Hn].
  - destruct Hm; [by left|]. right. by apply elem_of_app; left.
  - destruct (IH _ H n Hn) as [?|Hd]; [by left|]. right. by rewrite <- app_assoc in Hd.
Qed.

(** Where the parent of a name is known, so is the parent of its relative form. *)
Lemma parent_known n ns :
  closed ns -> Dir n = sep \/ Dir n = dot \/ rel_name (Dir n) ∈ ns ->
  rel_name n ∉ ns -> Dir (rel_name n) = dot \/ Dir (rel_name n) ∈ ns.
Proof.
  intros Hc Hd Hn. unfold rel_name in *. destruct (IsAbs n) eqn:Ha.
  - destruct (abs_split n Ha) as (q & f & Ep & Edp & Es).
    destruct (Dir_abs n q f Ha Ep Edp) as (Hda & Hds & Hroot). rewrite Hda in Hd.
    rewrite RelRoot_stack in Hn |- * by done. rewrite RelRoot_stack, Hds in Hd by done.
    assert (stack q = [] \/ rel_of (stack q) ∈ ns) as Hq.
    { destruct Hd as [Hd|[Hd|Hd]]; [left; by apply Hroot| |by right]. rewrite Hd in Hda. done. }
    clear Hd. pose proof (stack_plain q) as Hpq. pose proof (stack_plain n) as Hpn.
    rewrite Es in *. revert Hn Hpn. unfold clean_push, bytes_eqb.
    repeat case_bool_decide; intros Hn Hpn.
    + destruct Hq as [->|?]; [by left|done].
    + destruct Hq as [->|?]; [by left|done].
    + destruct (stack q) as [|a st] eqn:Eq; [by left|].
      destruct Hq as [?|Hq]; [done|]. pose proof Hpq as Hpq'. apply Forall_cons in Hpq' as [[_ Ha2] _].
      rewrite bool_decide_eq_false_2 in Hn |- * by done.
      apply Hc in Hq. rewrite Dir_rel_of in Hq by done. destruct Hq as [Hq|?]; [|done].
      left. by rewrite Hq.
    + rewrite Dir_rel_of by done. destruct Hq as [->|?]; [by left|by right].
  - rewrite (Dir_not_abs n Ha) in Hd. destruct Hd as [Hd|[?|?]]; [|by left|by right].
    exfalso. pose proof (Dir_not_abs n Ha) as Hx. by rewrite Hd in Hx.
Qed.

(** The outcomes after which the copy of a tree goes on: a missing file is skipped, also when
    it is only found missing while its record is written. *)
Definition goes_on (res : outcome error unit) : Prop := res = Ret tt \/ res = Fail (Errno ENOENT).

Section Facts.
Context `{RecordFormat}.

(** [w'] is the format's writer [w] after the records [ss] were handed to it, one after the other;
    each was written, or found its file missing. *)
Fixpoint offers (ss : list Rec) (w w' : RecordWriter) : Prop :=
  match ss with
  | [] => w = w'
  | r :: ss => exists w1 res, fmt_WriteRecord r w = (w1, res) /\ goes_on res /\ offers ss w1 w'
  end.

(** The records [ss] have reached the format, which started as [w0]. *)
Record ramfs_inv (w0 : RecordWriter) (i : Initramfs) (ss : list Rec) : Prop := {
  inv_written : offers ss w0 (rw (i_Writer i));
  inv_names : alreadyWritten (i_Writer i) = list_to_set (names ss);
  inv_unique : NoDup (names ss);
  inv_parents : parents_first [] (names ss) = true;
  inv_files : forall n, n ∈ i_files i -> rel_name n ∈ names ss
}.

Lemma names_app rs ss : names (rs ++ ss) = names rs ++ names ss.
Proof. apply fmap_app. Qed.

Lemma write_all_app rs ss w w1 :
  write_all rs w = (w1, Ret tt) -> write_all (rs ++ ss) w = write_all ss w1.
Proof.
  revert w. induction rs as [|r rs IH]; intros w Hw; simpl in *.
  - unfold mret, M_ret in Hw. by simplify_eq.
  - unfold mbind, M_bind in *. destruct (fmt_WriteRecord r w) as [w2 [[]|e|]]; [by apply IH|done|done].
Qed.

Lemma relative_name r : Name (info (relative r)) = rel_name (Name (info r)).
Proof. unfold relative, rel_name. by destruct (IsAbs (Name (info r))). Qed.

Lemma offers_app rs ss w w1 w2 : offers rs w w1 -> offers ss w1 w2 -> offers (rs ++ ss) w w2.
Proof.
  revert w. induction rs as [|r rs IH]; intros w; cbn [offers app]; [by intros ->|].
  intros (w' & res & E & Hg & Hrs) Hss. eauto 10.
Qed.

Lemma write_all_offers rs w w' : write_all rs w = (w', Ret tt) -> offers rs w w'.
Proof.
  revert w. induction rs as [|r rs IH]; intros w; cbn [write_all offers].
  - unfold mret, M_ret. intros Hw. by simplify_eq.
  - unfold mbind, M_bind. destruct (fmt_WriteRecord r w) as [w1 [[]|e|]]; [|done..].
    intros Hw. exists w1, (Ret tt). split_and!; [done|by left|by apply IH].
Qed.

(** Where the format misses no file, every record was written. *)
Lemma offers_write_all rs w w' :
  (forall r w w', r ∈ rs -> fmt_WriteRecord r w <> (w', Fail (Errno ENOENT))) ->
  offers rs w w' -> write_all rs w = (w', Ret tt).
Proof.
  intros Hno. revert w. induction rs as [|r rs IH]; intros w; cbn [write_all offers]; [by intros ->|].
  intros (w1 & res & E & [->| ->] & Hrs); [|exfalso; eapply Hno; [by left|exact E]].
  unfold mbind, M_bind. rewrite E. apply IH; [|done]. intros ??? Hr. apply Hno. by right.
Qed.

(** Handing over one record whose parent is known. *)
Lemma inv_write w0 i ss r w' res :
  ramfs_inv w0 i ss -> goes_on res ->
  Dir (Name (info r)) = sep \/ Dir (Name (info r)) = dot \/ Dir (Name (info r)) ∈ i_files i ->
  CWriter_WriteRecord r (i_Writer i) = (w', res) ->
  exists ts, ramfs_inv w0 (MkInitramfs w' ({[Name (info r)]} ∪ i_files i)) (ss ++ ts) /\
    (ts = [relative r] \/ ts = [] /\ rel_name (Name (info r)) ∈ names ss).
Proof.
  intros [Hw Hn Hu Hp Hf] Hg Hd. unfold CWriter_WriteRecord. rewrite relative_name, Hn.
  set (n := Name (info r)) in *. case_bool_decide as Hin; rewrite elem_of_list_to_set in Hin.
  - intros ?. simplify_eq. exists []. rewrite app_nil_r. split; [|by right].
    split; try done. cbn [i_files]. intros m [->%elem_of_singleton|Hm]%elem_of_union; auto.
  - destruct (fmt_WriteRecord (relative r) (rw (i_Writer i))) as [rw' res'] eqn:E; intros ?; simplify_eq.
    exists [relative r]. split; [|by left]. split; cbn [i_Writer rw alreadyWritten i_files].
    + eapply offers_app; [exact Hw|]. cbn [offers]. eauto.
    + rewrite names_app, list_to_set_app_L. cbn. rewrite relative_name. fold n. set_solver.
    + rewrite names_app. cbn. rewrite relative_name. fold n.
      apply NoDup_app. split_and!; [done|set_solver|apply NoDup_singleton].
    + rewrite names_app, parents_first_app, Hp. cbn. rewrite relative_name, andb_true_r. fold n.
      apply bool_decide_eq_true. apply parent_known; [|by naive_solver|done].
      intros m. apply (parents_first_closed [] _ Hp).
    + intros m [->%elem_of_singleton|Hm]%elem_of_union; rewrite names_app, elem_of_app.
      * right. cbn. rewrite relative_name. by left.
      * left. by apply Hf.
Qed.

(** [WriteRecord] has enough fuel and keeps the invariant. *)
Lemma WriteRecord_total fuel r i :
  (length (Name (info r)) < fuel)%nat -> is_Some (WriteRecord_fuel fuel r i).
Proof.
  revert r i. induction fuel as [|fuel IH]; intros r i Hf; [lia|]. simpl.
  case_bool_decide; [eauto|]. case_bool_decide as Hd.
  - destruct Hd as (Hd1 & Hd2 & Hd3).
    destruct (IH (dir_record (Dir (Name (info r)))) i) as [[i' [u|e|]] ->]; [|destruct (CWriter_WriteRecord _ _); eauto|eauto..].
    cbn. destruct (Dir_shorter (Name (info r))) as [?|[?|?]]; [done|done|lia].
  - destruct (CWriter_WriteRecord _ _); eauto.
Qed.

(** [x] is the record made for a directory above the name [n]. *)
Definition parent_of (n : bytes) (x : Rec) : Prop := exists k, x = relative (dir_record (Nat.iter (S k) Dir n)).

(** The records handed over are parent directories, and at the end the record itself. *)
Lemma WriteRecord_inv fuel w0 r i ss i' res :
  ramfs_inv w0 i ss -> goes_on res -> WriteRecord_fuel fuel r i = Some (i', res) ->
  exists ds ts, ramfs_inv w0 i' (ss ++ ds ++ ts) /\ Forall (parent_of (Name (info r))) ds /\
    (ts = [] \/ ts = [relative r]) /\
    (res = Ret tt -> Name (info r) = sep \/ Name (info r) = dot \/
       Name (info r) ∈ i_files i' /\ (ts = [] -> rel_name (Name (info r)) ∈ names (ss ++ ds))).
Proof.
  revert r i ss i' res. induction fuel as [|fuel IH]; intros r i ss i' res Hi Hg; [done|]. simpl.
  case_bool_decide as Hdot.
  { intros ?; simplify_eq. exists [], []. rewrite !app_nil_r. split_and!; [done|done|by left|naive_solver]. }
  assert (forall j us, ramfs_inv w0 j us ->
    Dir (Name (info r)) = sep \/ Dir (Name (info r)) = dot \/ Dir (Name (info r)) ∈ i_files j ->
    (let '(w, res) := CWriter_WriteRecord r (i_Writer j) in
     Some (MkInitramfs w ({[Name (info r)]} ∪ i_files j), res)) = Some (i', res) ->
    exists ts, ramfs_inv w0 i' (us ++ ts) /\ (ts = [] \/ ts = [relative r]) /\ Name (info r) ∈ i_files i' /\
      (ts = [] -> rel_name (Name (info r)) ∈ names us)) as Hwr.
  { intros j us Hj Hd Hw. destruct (CWriter_WriteRecord r (i_Writer j)) as [w' res'] eqn:E. simplify_eq.
    destruct (inv_write _ _ _ _ _ _ Hj Hg Hd E) as (ts & Hts & Hcase). exists ts.
    split_and!; [done|naive_solver|cbn; set_solver|naive_solver]. }
  case_bool_decide as Hd.
  - destruct (WriteRecord_fuel fuel _ i) as [[j res1]|] eqn:E; [|done]. intros Hw.
    assert (goes_on res1) as Hg1 by (destruct res1 as [[]|e|]; [by left|by simplify_eq|by simplify_eq]).
    destruct (IH _ _ _ _ _ Hi Hg1 E) as (ds & ts & Hj & Hds & Hts & Hf).
    assert (Forall (parent_of (Name (info r))) (ds ++ ts)) as Hdt.
    { apply Forall_app_2; [|destruct Hts as [->| ->]; [done|apply Forall_singleton; by exists 0%nat]].
      eapply Forall_impl; [exact Hds|]. intros x [k ->]. exists (S k). cbn [dir_record info Name set_Mode set_Name].
      by rewrite (Nat.iter_succ_r (S k)). }
    destruct res1 as [[]|e|]; [|simplify_eq..].
    + destruct (Hwr j _ Hj) as (us & Hu & Hcase & Hin & Hnm); [cbn in Hf; naive_solver|done|].
      exists (ds ++ ts), us. rewrite <- app_assoc in Hu. rewrite <- !app_assoc. split_and!; [by rewrite <- ?app_assoc in *|done|done|].
      intros _. right; right. split; [done|]. intros Hu0. rewrite <- ?app_assoc in *. by apply Hnm.
    + exists (ds ++ ts), []. rewrite app_nil_r. split_and!; [done|done|by left|done].
    + by destruct Hg.
  - intros Hw. destruct (Hwr i ss Hi) as (us & Hu & Hcase & Hin & Hnm); [|exact Hw|].
    + destruct (decide (Dir (Name (info r)) = sep)); [by left|].
      destruct (decide (Dir (Name (info r)) = dot)); [by right; left|].
      right; right. apply dec_stable. naive_solver.
    + exists [], us. cbn [app]. rewrite app_nil_r. split_and!; [done|done|done|naive_solver].
Qed.

Lemma NewInitramfs_inv w i w' :
  NewInitramfs (NewCWriter w) = (w', Ret i) ->
  ramfs_inv w i (survivors ∅ (MakeAllReproducible DevCPIO)).
Proof.
  unfold NewInitramfs, NewCWriter.
  pose proof (WriteRecords_write_all (MakeAllReproducible DevCPIO) w ∅) as Hw.
  pose proof (survivors_props ∅ (MakeAllReproducible DevCPIO)) as [Hu _].
  destruct (write_all _ w) as [w1 [[]|e|]] eqn:E.
  - rewrite Hw. intros ?. simplify_eq. split; cbn [i_Writer rw alreadyWritten i_files].
    + by apply write_all_offers.
    + unfold seen_after. by rewrite union_empty_r_L.
    + exact Hu.
    + vm_compute. reflexivity.
    + intros n Hn. by apply elem_of_empty in Hn.
  - destruct Hw as [s' ->]. done.
  - destruct Hw as [s' ->]. done.
Qed.
End Facts.

(** ** Copying files keeps the invariant *)

Section CopyFacts.
Context `{RecordFormat} (h : host).

Definition inv_kept (w0 : RecordWriter) (s s' : inodes * Initramfs) : Prop :=
  forall ss, ramfs_inv w0 (snd s) ss -> exists ts, ramfs_inv w0 (snd s') (ss ++ ts).

#[export] Instance inv_kept_preorder w0 : PreOrder (inv_kept w0).
Proof.
  split.
  - intros s ss Hs. exists []. by rewrite app_nil_r.
  - intros s1 s2 s3 H12 H23 ss Hs. destruct (H12 ss Hs) as (ts & Ht).
    destruct (H23 _ Ht) as (us & Hu). exists (ts ++ us). by rewrite app_assoc.
Qed.

Lemma WriteRecord_kept w0 t t' r i i' res :
  Initramfs_WriteRecord r i = Some (i', res) -> goes_on res -> inv_kept w0 (t, i) (t', i').
Proof.
  intros Hw Hg ss Hs. destruct (WriteRecord_inv _ _ _ _ _ _ _ Hs Hg Hw) as (ds & ts & Hi & _). eauto.
Qed.

Lemma children_loop_kept w0 (fn : bytes -> inodes * Initramfs -> option ((inodes * Initramfs) * outcome error unit)) ns s s' res :
  (forall n s s' res, fn n s = Some (s', res) -> goes_on res -> inv_kept w0 s s') ->
  children_loop fn ns s = Some (s', res) -> goes_on res -> inv_kept w0 s s'.
Proof.
  intros Hfn. revert s. induction ns as [|n ns IH]; intros s; simpl; [by intros ?; simplify_eq|].
  destruct (fn n s) as [[s1 [[]|e|]]|] eqn:E; [| | |done].
  - intros Hl Hg. etrans; [|by apply IH]. eapply Hfn; [exact E|by left].
  - case_bool_decide as He.
    + intros Hl Hg. subst e. etrans; [|by apply IH]. eapply Hfn; [exact E|by right].
    + intros ? [?|?]; simplify_eq.
  - intros ? [?|?]; simplify_eq.
Qed.

Lemma WriteFile_kept w0 fuel src dest s s' res :
  WriteFile h fuel src dest s = Some (s', res) -> goes_on res -> inv_kept w0 s s'.
Proof.
  revert src dest s s' res. induction fuel as [|fuel IH]; intros src dest s s' res; [done|]. simpl.
  assert (forall t, inv_kept w0 s (t, s.2)) as Hsame 
    by (intros t ss Hs; exists []; by rewrite app_nil_r).
  destruct (GetRecord h src s.1) as [t [record|e|]] eqn:Eg; [|by intros ? _; simplify_eq..].
  case_match.
  - unfold children. destruct (readdirnames h src); [|by intros ? _; simplify_eq..].
    intros Hl Hg ss Hs. eapply (children_loop_kept w0) in Hl; [|by intros; eapply IH|done]. by apply Hl.
  - destruct (Initramfs_WriteRecord _ _) as [[i r]|] eqn:E; [|done]. intros Heq Hg ss Hs; simplify_eq.
    exact (WriteRecord_kept w0 t t _ _ _ _ E Hg ss Hs).
Qed.

Lemma WriteFiles_kept w0 fuel sd dd fls s s' :
  WriteFiles h fuel sd dd fls s = Some (s', Ret tt) -> inv_kept w0 s s'.
Proof.
  revert s. induction fls as [|f fls IH]; intros s; simpl; [by intros ?; simplify_eq|].
  destruct (WriteFile h fuel _ _ s) as [[s1 [[]|e|]]|] eqn:E; [|done..].
  intros Hl. etrans; [|by apply IH]. eapply WriteFile_kept; [exact E|by left].
Qed.

(** One successful call on an initramfs. *)
Inductive ramfs_step : inodes * Initramfs -> inodes * Initramfs -> Prop :=
| step_WriteRecord r t i i' :
    Initramfs_WriteRecord r i = Some (i', Ret tt) -> ramfs_step (t, i) (t, i')
| step_WriteFiles fuel sd dd fls s s' :
    WriteFiles h fuel sd dd fls s = Some (s', Ret tt) -> ramfs_step s s'.

Lemma ramfs_step_kept w0 s s' : rtc ramfs_step s s' -> inv_kept w0 s s'.
Proof.
  induction 1 as [s|s1 s2 s3 Hst _ IH]; [done|]. etrans; [|exact IH].
  destruct Hst as [r t i i' Hr|fuel sd dd fls s s' Hr]; [|by eapply WriteFiles_kept].
  eapply WriteRecord_kept; [exact Hr|by left].
Qed.
End CopyFacts.

(** ** Properties *)

(** C6: whatever records and files are added to a new initramfs, in whatever format and from
    whatever host, the format is handed each name once and every entry after its parent
    directory: the records [ss] it is handed have distinct names, and the directory of each is
    ["."] or the name of an earlier one.  Each of them was written, or reported a missing file,
    which the copy of a directory skips; where no file is missing all of them are written. *)
Theorem initramfs_parents_first `{RecordFormat} (h : host) (w : RecordWriter) (w' : CWriter)
    (i : Initramfs) (t : inodes) (s : inodes * Initramfs) :
  NewInitramfs (NewCWriter w) = (w', Ret i) -> rtc (ramfs_step h) (t, i) s ->
  exists ss, offers ss w (rw (i_Writer (snd s))) /\
    NoDup (names ss) /\ parents_first [] (names ss) = true /\
    ((forall r w1 w2, r ∈ ss -> fmt_WriteRecord r w1 <> (w2, Fail (Errno ENOENT))) ->
     write_all ss w = (rw (i_Writer (snd s)), Ret tt)).
Proof.
  intros Hn Hs. apply NewInitramfs_inv in Hn.
  destruct (ramfs_step_kept h w _ _ Hs _ Hn) as (ts & [H1 _ H3 H4 _]).
  eexists. split_and!; [exact H1|exact H3|exact H4|]. intros Hno. by apply offers_write_all.
Qed.

Section Termination.
Context `{RecordFormat} (h : host) (rank : bytes -> nat).
(** The tree below a directory is finite: the entries of a directory have a smaller rank. *)
Hypothesis rank_children : forall src s ns n,
  lstat h src = Ret s -> Z.ldiff (st_mode s) 0x1ff = S_IFDIR ->
  readdirnames h src = Ret ns -> n ∈ ns -> (rank (PathJoin [src; n]) < rank src)%nat.

Lemma GetRecord_Mode src t t' r :
  GetRecord h src t = (t', Ret r) -> exists s, lstat h src = Ret s /\ Mode (info r) = st_mode s.
Proof.
  unfold GetRecord, lift, mbind, M_bind. destruct (lstat h src) as [s|e|]; [|done..].
  intros Hr. exists s. split; [done|]. unfold inode in Hr.
  repeat (case_match; simplify_eq/=; unfold mret, M_ret in *; simplify_eq/=; try done).
Qed.

Lemma children_loop_total {St} (fn : bytes -> St -> option (St * outcome error unit)) ns s :
  (forall n s, n ∈ ns -> is_Some (fn n s)) -> is_Some (children_loop fn ns s).
Proof.
  revert s. induction ns as [|n ns IH]; intros s Hfn; simpl; [eauto|].
  destruct (Hfn n s ltac:(by left)) as [[s1 [u|e|]] ->]; [| |eauto].
  - apply IH. intros. apply Hfn. by right.
  - case_bool_decide; [|eauto]. apply IH. intros. apply Hfn. by right.
Qed.

Lemma WriteFile_total fuel src dest s :
  (rank src < fuel)%nat -> is_Some (WriteFile h fuel src dest s).
Proof.
  revert src dest s. induction fuel as [|fuel IH]; intros src dest s Hf; [lia|]. simpl.
  destruct (GetRecord h src s.1) as [t [r|e|]] eqn:E; [|eauto..].
  apply GetRecord_Mode in E as (st & Hst & Hm). rewrite Hm. destruct (Z.eqb_spec (Z.ldiff (st_mode st) 0x1ff) S_IFDIR) as [Hd|Hd].
  - unfold children. destruct (readdirnames h src) as [ns|e|] eqn:En; [|eauto..].
    apply children_loop_total. intros n s' Hn. apply IH.
    eapply Nat.lt_le_trans; [by eapply rank_children|]. by apply Nat.lt_succ_r.
  - unfold Initramfs_WriteRecord.
    match goal with |- context [WriteRecord_fuel ?k ?r ?i] =>
      destruct (WriteRecord_total k r i (Nat.lt_succ_diag_r _)) as [[i' res] ->] end. eauto.
Qed.
End Termination.

(** Copying a directory tree of finite depth ends: with [fuel] above the rank of the
    source, and at most one nested call per byte of a name to create its parents,
    [WriteFile] has a result on every host and from every state. *)
Theorem WriteFile_terminates `{RecordFormat} (h : host) (rank : bytes -> nat) (fuel : nat)
    (src dest : bytes) (s : inodes * Initramfs) :
  (forall src s ns n, lstat h src = Ret s -> Z.ldiff (st_mode s) 0x1ff = S_IFDIR ->
     readdirnames h src = Ret ns -> n ∈ ns -> (rank (PathJoin [src; n]) < rank src)%nat) ->
  (rank src < fuel)%nat -> is_Some (WriteFile h fuel src dest s).
Proof. intros. by eapply WriteFile_total. Qed.

(** A host with one directory [/d] holding a file [f] of five bytes and a file [g]. *)
Definition ex_host : host := MkHost
  (fun p => if bytes_eqb p (str "/d") then Ret (MkStat 1 1 (Z.lor S_IFDIR 0x1ed) 2 0 0 0 0 0)
            else if bytes_eqb p (str "/d/f") then Ret (MkStat 1 2 (Z.lor S_IFREG 0x1a4) 1 0 0 0 5 0)
            else if bytes_eqb p (str "/d/g") then Ret (MkStat 1 3 (Z.lor S_IFREG 0x1a4) 1 0 0 0 0 0)
            else Fail (Errno ENOENT))
  (fun _ => Fail (Errno 22))
  (fun p => if bytes_eqb p (str "/d") then Ret [str "f"; str "gone"; str "g"] else Fail (Errno 20)).

(** A format that keeps the records themselves. *)
Definition log_format : RecordFormat := {|
  RecordWriter := list Rec; RecordReader := list Rec;
  fmt_WriteRecord r w := (w ++ [r], Ret tt);
  fmt_ReadRecord := raise EOF |}.

Lemma WriteFile_terminates_witness :
  let H := log_format in
  let s : inodes * Initramfs := (inodes0, MkInitramfs (@NewCWriter H (@nil Rec)) ∅) in
  is_Some (WriteFile ex_host 2 (str "/d") (str "etc") s) /\
  match WriteFile ex_host 2 (str "/d") (str "etc") s with
  | Some (s', Ret _) => Name ∘ info <$> (rw (i_Writer (snd s')) : list Rec) = [str "etc"; str "etc/f"; str "etc/g"]
  | _ => False
  end.
Proof.
  intros H s. split; [|vm_compute; reflexivity].
  apply (WriteFile_terminates ex_host (fun p => if bytes_eqb p (str "/d") then 1%nat else 0%nat)); [|vm_compute; lia].
  intros src st ns n Hl Hm Hd Hn. cbn [readdirnames ex_host] in Hd.
  destruct (bytes_eqb src (str "/d")) eqn:E; [|discriminate].
  apply bytes_eqb_eq in E. subst src. injection Hd as <-.
  repeat (apply elem_of_cons in Hn as [->|Hn]; [vm_compute; lia|]). by apply elem_of_nil in Hn.
Defined.

(** The newc format with a directory that holds a file which cannot be opened any more, one that is
    gone and one that can be read. *)
Lemma initramfs_parents_first_witness :
  let fs : files := fun p => if bytes_eqb p (str "/d/g") then plain [] else inr (Errno ENOENT) in
  let H := newc_format fs in
  exists w' i s ss, NewInitramfs (NewArchive fs) = (w', Ret i) /\ rtc (ramfs_step ex_host) (inodes0, i) s /\
    offers ss (NewWriter newcMagic {| buf := [] |}) (rw (i_Writer (snd s))) /\
    NoDup (names ss) /\ parents_first [] (names ss) = true /\
    Forall (fun n => n ∈ alreadyWritten (i_Writer (snd s))) [str "etc/doc"; str "etc/doc/d"; str "etc/doc/d/f"; str "etc/doc/d/g"].
Proof.
  intros fs H.
  assert (match NewInitramfs (NewArchive fs) with
          | (_, Ret i) =>
              match WriteFiles ex_host 2 sep (str "/etc/doc") [str "d"] (inodes0, i) with
              | Some (s, Ret _) =>
                  bool_decide (Forall (fun n => n ∈ alreadyWritten (i_Writer (snd s))) [str "etc/doc"; str "etc/doc/d"; str "etc/doc/d/f"; str "etc/doc/d/g"])
              | _ => false
              end
          | _ => false
          end = true) as Hb by (vm_compute; reflexivity).
  destruct (NewInitramfs (NewArchive fs)) as [w' [i|e|]] eqn:E; [|discriminate..].
  destruct (WriteFiles ex_host 2 _ _ _ (inodes0, i)) as [[s [[]|e|]]|] eqn:Es; [|discriminate..].
  apply bool_decide_eq_true in Hb.
  assert (rtc (ramfs_step ex_host) (inodes0, i) s) as Hr by (apply rtc_once; by eapply step_WriteFiles).
  destruct (@initramfs_parents_first H ex_host (NewWriter newcMagic {| buf := [] |}) w' i inodes0 s E Hr)
    as (ss & H1 & H2 & H3 & _).
  exists w', i, s, ss. by split_and!.
Defined.

(** ** Two ways to lose files *)

(** A directory with a set-id or sticky bit is not recognised as a directory: its entries
    are never listed, whatever they are. *)
Theorem WriteFile_skips_sticky_directories `{RecordFormat} (h : host) (rd : bytes -> outcome error (list bytes))
    (fuel : nat) (src dest : bytes) (s : inodes * Initramfs) (st : Stat_t) :
  lstat h src = Ret st -> Z.land (st_mode st) modeTypeMask = modeDir ->
  Z.land (st_mode st) 0xe00 <> 0 ->
  WriteFile (MkHost (lstat h) (readlink h) rd) (S fuel) src dest s = WriteFile h (S fuel) src dest s.
Proof.
  intros Hl Hd Hs. cbn [WriteFile].
  change (GetRecord (MkHost (lstat h) (readlink h) rd) src s.1) with (GetRecord h src s.1).
  destruct (GetRecord h src s.1) as [t [r|e|]] eqn:E; [|done..].
  apply GetRecord_Mode in E as (st' & Hst & ->). rewrite Hl in Hst. injection Hst as <-.
  destruct (Z.eqb_spec (Z.ldiff (st_mode st) 0x1ff) S_IFDIR) as [He|He]; [|done].
  exfalso. apply Hs. replace (Z.land (st_mode st) 0xe00) with (Z.land (Z.ldiff (st_mode st) 0x1ff) 0xe00).
  - by rewrite He.
  - apply Z.bits_inj'. intros n Hn. rewrite !Z.land_spec, Z.ldiff_spec.
    destruct (decide (n < 9)) as [Hlt|Hge].
    + assert (Z.testbit 0xe00 n = false) as ->; [|by rewrite !andb_false_r].
      change 0xe00 with (Z.shiftl 7 9). by rewrite Z.shiftl_spec_low.
    + change 0x1ff with (Z.ones 9). rewrite Z.ones_spec_high by lia. by rewrite andb_true_r.
Qed.

(** A file that disappears between [Lstat] and [Open] leaves its header in the archive
    without the contents it announces; the error is taken for a file that was never there,
    the copy succeeds, and the archive can no longer be read. *)
Example vanished_file_corrupts_archive :
  let fs : files := fun p => if bytes_eqb p (str "/d/g") then plain [] else inr (Errno ENOENT) in
  let s := (inodes0, MkInitramfs (NewArchive fs) ∅) in
  match @WriteFile (newc_format fs) ex_host 2 (str "/d") (str "etc") s with
  | Some (s', Ret _) =>
      match @WriteTrailer (newc_format fs) (@i_Writer (newc_format fs) (snd s')) with
      | (w, Ret _) =>
          option_map snd (@ReadRecords (newc_format fs) 9
            (NewReader newcMagic (buf (w_w (@rw (newc_format fs) w))))) =
          Some (Fail (Errorf "reader: magic got %q, want %q"))
      | _ => False
      end
  | _ => False
  end.
Proof. vm_compute. reflexivity. Qed.
