(* ===== verification/Gpt.v ===== *)
(** * GUID partition tables ([pkg/gpt/gpt.go], [cmds/gpt/gpt.go])

    The on-disk layout of headers and partition entries, [Table], which reads and checks one
    copy of the table, [Write], which computes the checksums and stores one copy, and [New],
    which reads both copies and compares them.  A disk is a byte list of fixed length. *)

From Stdlib Require Import Strings.String.
From S2P Require Export GoIO GoBinary.

Definition BlockSize : Z := 512.
Definition HeaderOff : Z := 0x200.
Definition HeaderSize : Z := 0x5c.
Definition Signature : Z := 0x5452415020494645.
Definition Revision : Z := 0x10000.
Definition MaxNPart : Z := 0x80.

(** [uuid.UUID] is an array of 16 bytes. *)
Record Header := MkHeader {
  h_Signature : Z; h_Revision : Z; h_HeaderSize : Z; h_CRC : Z; h_Reserved : Z;
  h_CurrentLBA : Z; h_BackupLBA : Z; h_FirstLBA : Z; h_LastLBA : Z; h_DiskGUID : bytes;
  h_PartStart : Z; h_NPart : Z; h_PartSize : Z; h_PartCRC : Z
}.

Record Part := MkPart {
  PartGUID : bytes; UniqueGUID : bytes; p_FirstLBA : Z; p_LastLBA : Z; Attribute : Z; PartName : bytes
}.

Record GPT := MkGPT { Header_ : Header; Parts : list Part }.

#[export] Instance Header_eq_dec : EqDecision Header.
Proof. solve_decision. Defined.
#[export] Instance Part_eq_dec : EqDecision Part.
Proof. solve_decision. Defined.
#[export] Instance GPT_eq_dec : EqDecision GPT.
Proof. solve_decision. Defined.

Definition EqualHeader (p b : Header) : bool :=
  bool_decide (h_Signature p = h_Signature b) &&
  bool_decide (h_Revision p = h_Revision b) &&
  bool_decide (h_HeaderSize p = h_HeaderSize b) &&
  bool_decide (h_CurrentLBA p = h_BackupLBA b) &&
  bool_decide (h_BackupLBA p = h_CurrentLBA b) &&
  bool_decide (h_FirstLBA p = h_FirstLBA b) &&
  bool_decide (h_LastLBA p = h_LastLBA b) &&
  bool_decide (h_DiskGUID p = h_DiskGUID b) &&
  bool_decide (h_NPart p = h_NPart b) &&
  bool_decide (h_PartSize p = h_PartSize b) &&
  bool_decide (h_PartCRC p = h_PartCRC b).

(** ** [encoding/binary], little endian *)

Definition header_Write (h : Header) : bytes :=
  le_bytes 8 (h_Signature h) ++ le_bytes 4 (h_Revision h) ++ le_bytes 4 (h_HeaderSize h) ++
  le_bytes 4 (h_CRC h) ++ le_bytes 4 (h_Reserved h) ++ le_bytes 8 (h_CurrentLBA h) ++
  le_bytes 8 (h_BackupLBA h) ++ le_bytes 8 (h_FirstLBA h) ++ le_bytes 8 (h_LastLBA h) ++
  h_DiskGUID h ++ le_bytes 8 (h_PartStart h) ++ le_bytes 4 (h_NPart h) ++
  le_bytes 4 (h_PartSize h) ++ le_bytes 4 (h_PartCRC h).

Definition part_Write (p : Part) : bytes :=
  PartGUID p ++ UniqueGUID p ++ le_bytes 8 (p_FirstLBA p) ++ le_bytes 8 (p_LastLBA p) ++
  le_bytes 8 (Attribute p) ++ PartName p.

Definition header_Read (b : bytes) : Header :=
  MkHeader (uint b 0 8) (uint b 8 4) (uint b 12 4) (uint b 16 4) (uint b 20 4) (uint b 24 8)
    (uint b 32 8) (uint b 40 8) (uint b 48 8) (field b 56 16) (uint b 72 8) (uint b 80 4)
    (uint b 84 4) (uint b 88 4).

Definition part_Read (b : bytes) : Part :=
  MkPart (field b 0 16) (field b 16 16) (uint b 32 8) (uint b 40 8)
    (uint b 48 8) (field b 56 72).

Definition part_bytes : nat := 128.

(** ** [hash/crc32], polynomial IEEE *)

Definition crc_bit (c : Z) : Z :=
  if Z.odd c then Z.lxor (Z.shiftr c 1) 0xedb88320 else Z.shiftr c 1.

Definition crc_byte (c : Z) (b : byte) : Z := Nat.iter 8 crc_bit (Z.lxor c (b2z b)).

Definition ChecksumIEEE (l : bytes) : Z := Z.lxor (foldl crc_byte 0xffffffff l) 0xffffffff.

(** The check value of the CRC-32 catalogue. *)
Example ChecksumIEEE_check : ChecksumIEEE (str "123456789") = 0xcbf43926.
Proof. vm_compute. reflexivity. Qed.

(** ** The disk *)

Definition disk := bytes.

(** [ReadAt(p, off)] for a buffer of [n] bytes. *)
Definition disk_ReadAt (d : disk) (off : Z) (n : nat) : bytes * option error :=
  if off <? 0 then ([], Some (Errno 22)) else ReadAt d off n.

(** [binary.Read] of [n] bytes through a section reader of [s] bytes at [off]. *)
Definition section_Read (d : disk) (off s : Z) (n : nat) : outcome error bytes :=
  match disk_ReadAt d off (Nat.min n (Z.to_nat s)) with
  | (got, Some (Errno e)) => Fail (Errno e)
  | (got, _) =>
      if (length got =? n)%nat then Ret got
      else if (length got =? 0)%nat then Fail EOF else Fail ErrUnexpectedEOF
  end.

(** [WriteAt(b, off)]: a write past the end stops there with ENOSPC. *)
Definition disk_WriteAt (d : disk) (off : Z) (b : bytes) : disk * option error :=
  if off <? 0 then (d, Some (Errno 22))
  else if bool_decide (off + zlen b <= zlen d) then (splice d (Z.to_nat off) b, None)
  else (splice d (Nat.min (Z.to_nat off) (length d)) (take (length d - Z.to_nat off) b), Some (Errno 28)).

(** [copy(h[o:], b)] writes what fits; the slice expression panics past the end. *)
Definition copy_at (h : bytes) (o : Z) (b : bytes) : outcome error bytes :=
  if bool_decide (0 <= o <= zlen h) then Ret (splice h (Z.to_nat o) (take (length h - Z.to_nat o) b))
  else Panic.

(** ** [Table] *)

Definition set_CRC (c : Z) (h : Header) : Header :=
  MkHeader (h_Signature h) (h_Revision h) (h_HeaderSize h) c (h_Reserved h) (h_CurrentLBA h)
    (h_BackupLBA h) (h_FirstLBA h) (h_LastLBA h) (h_DiskGUID h) (h_PartStart h) (h_NPart h)
    (h_PartSize h) (h_PartCRC h).
Definition set_PartCRC (c : Z) (h : Header) : Header :=
  MkHeader (h_Signature h) (h_Revision h) (h_HeaderSize h) (h_CRC h) (h_Reserved h) (h_CurrentLBA h)
    (h_BackupLBA h) (h_FirstLBA h) (h_LastLBA h) (h_DiskGUID h) (h_PartStart h) (h_NPart h)
    (h_PartSize h) c.

(** The loop that reads [n] entries of size [s], the first of them entry [i]. *)
Fixpoint read_parts (r : disk) (base s : Z) (i : Z) (n : nat) : outcome error (list Part) :=
  match n with
  | O => Ret []
  | S n =>
      match section_Read r (i64 (base + i * s)) s part_bytes with
      | Ret b => ps ← read_parts r base s (i + 1) n; Ret (part_Read b :: ps)
      | Fail _ => Fail (Errorf "%s GPT partition %d failed: %v")
      | Panic => Panic
      end
  end.

(** The table, if there is one to return, and the error. *)
Definition Table (r : disk) (off : Z) : outcome error (option GPT * option error) :=
  let err s := Ret (None, Some (Errorf s)) in
  match section_Read r off HeaderSize (Z.to_nat HeaderSize) with
  | Fail e => Ret (None, Some e)
  | Panic => Panic
  | Ret hb =>
      let g := header_Read hb in
      if bool_decide (h_Signature g <> Signature) then err "%s GPT signature invalid (%x), needs to be %x"%string
      else if bool_decide (h_Revision g <> Revision) then err "%s GPT revision (%x) is not supported value (%x)"%string
      else if bool_decide (h_HeaderSize g <> HeaderSize) then err "%s GPT HeaderSize (%x) is not supported value (%x)"%string
      else if bool_decide (h_NPart g > MaxNPart) then err "%s GPT MaxNPart (%x) is above maximum of %x"%string
      else
        let s := h_PartSize g in
        match disk_ReadAt r (i64 (h_PartStart g * BlockSize)) (Z.to_nat (h_NPart g * s)) with
        | (_, Some _) => err "%s Reading partitions: Wanted %d bytes, got %d: %v"%string
        | (partBlocks, None) =>
            if bool_decide (ChecksumIEEE partBlocks <> h_PartCRC g) then
              Ret (Some (MkGPT g []), Some (Errorf "%s Partition CRC: Header %v, computed checksum is %08x, header has %08x"))
            else
              match disk_ReadAt r off (Z.to_nat (h_HeaderSize g)) with
              | (_, Some _) => err "%s Reading Header: Wanted %d bytes, got %d: %v"%string
              | (hdr, None) =>
                  hdr ← copy_at hdr 16 (replicate 4 x00);
                  if bool_decide (ChecksumIEEE hdr <> h_CRC g) then
                    Ret (Some (MkGPT g []), Some (Errorf "%s Header CRC: computed checksum is %08x, header has %08x"))
                  else
                    match read_parts r (i64 (u64 (h_PartStart g * BlockSize))) s 0 (Z.to_nat (h_NPart g)) with
                    | Ret ps => Ret (Some (MkGPT g ps), None)
                    | Fail e => Ret (None, Some e)
                    | Panic => Panic
                    end
              end
        end
  end.

(** ** [Write] *)

(** The loop that lays the entries out in [h]. *)
Fixpoint layout_parts (h : bytes) (s i : Z) (n : nat) (ps : list Part) : outcome error bytes :=
  match n with
  | O => Ret h
  | S n =>
      match ps with
      | [] => Panic
      | p :: ps => h ← copy_at h (i * s) (part_Write p); layout_parts h s (i + 1) n ps
      end
  end.

Definition WriteAt (b : bytes) (off : Z) : M (disk * GPT) unit := fun '(d, g) =>
  match disk_WriteAt d off b with
  | (d, None) => ((d, g), Ret tt)
  | (d, Some e) => ((d, g), Fail e)
  end.

Definition set_header (f : Header -> Header) : M (disk * GPT) unit :=
  modify (fun '(d, g) => (d, MkGPT (f (Header_ g)) (Parts g))).

Definition Write : M (disk * GPT) unit :=
  '(_, g) ← get;
  let h := replicate (Z.to_nat (u32 (h_NPart (Header_ g) * h_PartSize (Header_ g)))) x00 in
  h ← lift (layout_parts h (h_PartSize (Header_ g)) 0 (Z.to_nat (h_NPart (Header_ g))) (Parts g));
  let ps := i64 (u64 (h_PartStart (Header_ g) * BlockSize)) in
  _ ← (fun s => match WriteAt h ps s with
                | (s, Fail _) => (s, Fail (Errorf "Writing %d bytes of partition table at %v: %v"))
                | other => other
                end);
  _ ← set_header (set_PartCRC (ChecksumIEEE h));
  _ ← set_header (set_CRC 0);
  '(_, g) ← get;
  let b := header_Write (Header_ g) in
  h ← lift (copy_at (replicate (Z.to_nat (h_HeaderSize (Header_ g))) x00) 0 b);
  let c := ChecksumIEEE h in
  _ ← set_header (set_CRC c);
  h ← lift (copy_at h 16 (le_bytes 4 c));
  WriteAt h (i64 (u64 (h_CurrentLBA (Header_ g) * BlockSize))).

(** ** [New] *)

(** The two tables and the error; a nil [*GPT] is [None]. *)
Definition New (r : disk) : outcome error (option GPT * option GPT * option error) :=
  '(g, err) ← Table r HeaderOff;
  match err, g with
  | Some e, _ => Ret (None, None, Some e)
  | None, None => Panic
  | None, Some g =>
      '(b, err) ← Table r (i64 (u64 (h_BackupLBA (Header_ g) * BlockSize)));
      match err, b with
      | Some e, _ => Ret (Some g, None, Some e)
      | None, None => Panic
      | None, Some b =>
          if negb (EqualHeader (Header_ g) (Header_ b)) then
            Ret (Some g, Some b, Some (Errorf "Primary GPT(%s) and backup GPT(%s) Header differ"))
          else if bool_decide (h_CRC (Header_ g) = h_CRC (Header_ b)) then
            Ret (Some g, Some b, Some (Errorf "Primary (%v) and Backup (%v) Header CRC (%x) are the same and should differ"))
          else if bool_decide (Parts g <> Parts b) then
            Ret (Some b, Some g, Some (Errorf "Primary GPT(%s) and backup GPT(%s) Parts differ"))
          else Ret (Some g, Some b, None)
      end
  end.

(** ** The command

    [gpt -w] writes the two tables decoded from its input; without [-w] it prints the
    tables it could read. *)
Definition gpt_w (g0 g1 : GPT) (d : disk) : disk * outcome error unit :=
  match Write (d, g0) with
  | ((d, _), Ret _) =>
      match Write (d, g1) with
      | ((d, _), Ret _) => (d, Ret tt)
      | ((d, _), Fail _) => (d, Fail (Errorf "Writing %v: %v"))
      | ((d, _), Panic) => (d, Panic)
      end
  | ((d, _), Fail _) => (d, Fail (Errorf "Writing %v: %v"))
  | ((d, _), Panic) => (d, Panic)
  end.

(** What is printed, and the error [log.Fatal] reports. *)
Definition gpt_show (r : disk) : outcome error (list GPT * option error) :=
  '(g, b, err) ← New r;
  match g, b with
  | None, _ => Ret ([], err)
  | Some _, None => Ret ([], Some (Errorf "Primary found: %s But no backup GPT found: %v"))
  | Some g, Some b => Ret ([g; b], err)
  end.

(** ** Encoding and decoding *)

Definition header_ok (h : Header) : Prop :=
  uints 8 [h_Signature h; h_CurrentLBA h; h_BackupLBA h; h_FirstLBA h; h_LastLBA h; h_PartStart h] /\
  uints 4 [h_Revision h; h_HeaderSize h; h_CRC h; h_Reserved h; h_NPart h; h_PartSize h; h_PartCRC h] /\
  length (h_DiskGUID h) = 16%nat.

Definition part_ok (p : Part) : Prop :=
  uints 8 [p_FirstLBA p; p_LastLBA p; Attribute p] /\
  length (PartGUID p) = 16%nat /\ length (UniqueGUID p) = 16%nat /\ length (PartName p) = 72%nat.

Lemma length_header_Write h : header_ok h -> length (header_Write h) = 92%nat.
Proof. intros (_ & _ & Hg). unfold header_Write. rewrite !length_app, !length_le_bytes, Hg. done. Qed.

Lemma length_part_Write p : part_ok p -> length (part_Write p) = part_bytes.
Proof. intros (_ & H1 & H2 & H3). unfold part_Write. rewrite !length_app, !length_le_bytes, H1, H2, H3. done. Qed.

(** Evaluate [field] on a concatenation of pieces whose lengths [len] rewrites. *)
Ltac fields len :=
  repeat match goal with
  | |- context [field (concat ?ls) ?o ?n] =>
      let go i := rewrite (field_concat ls i _ o n eq_refl)
                    by (simpl; rewrite ?length_app, ?length_le_bytes; len; reflexivity) in
      first [go 0%nat|go 1%nat|go 2%nat|go 3%nat|go 4%nat|go 5%nat|go 6%nat|go 7%nat|go 8%nat
            |go 9%nat|go 10%nat|go 11%nat|go 12%nat|go 13%nat]
  end.

Lemma header_Read_Write h : header_ok h -> header_Read (header_Write h) = h.
Proof.
  intros (H8 & H4 & Hg). unfold header_Read, uint.
  assert (header_Write h = concat
    [le_bytes 8 (h_Signature h); le_bytes 4 (h_Revision h); le_bytes 4 (h_HeaderSize h);
     le_bytes 4 (h_CRC h); le_bytes 4 (h_Reserved h); le_bytes 8 (h_CurrentLBA h);
     le_bytes 8 (h_BackupLBA h); le_bytes 8 (h_FirstLBA h); le_bytes 8 (h_LastLBA h);
     h_DiskGUID h; le_bytes 8 (h_PartStart h); le_bytes 4 (h_NPart h);
     le_bytes 4 (h_PartSize h); le_bytes 4 (h_PartCRC h)]) as ->.
  { cbn [concat]. by rewrite app_nil_r. }
  fields ltac:(rewrite ?Hg).
  repeat (apply Forall_cons in H8 as [? H8]). repeat (apply Forall_cons in H4 as [? H4]).
  rewrite !le_val_le_bytes_small by done. by destruct h.
Qed.

Lemma part_Read_Write p : part_ok p -> part_Read (part_Write p) = p.
Proof.
  intros (H8 & H1 & H2 & H3). unfold part_Read, uint.
  assert (part_Write p = concat
    [PartGUID p; UniqueGUID p; le_bytes 8 (p_FirstLBA p); le_bytes 8 (p_LastLBA p);
     le_bytes 8 (Attribute p); PartName p]) as ->.
  { cbn [concat]. by rewrite app_nil_r. }
  fields ltac:(rewrite ?H1, ?H2, ?H3).
  repeat (apply Forall_cons in H8 as [? H8]).
  rewrite !le_val_le_bytes_small by done. by destruct p.
Qed.

(** ** The partition array *)

(** An entry of [s] bytes: the encoded partition and zeros. *)
Definition entry (s : nat) (p : Part) : bytes := part_Write p ++ replicate (s - part_bytes) x00.

Definition array (g : GPT) : bytes := concat (entry (Z.to_nat (h_PartSize (Header_ g))) <$> Parts g).

Lemma length_entry s p : part_ok p -> (part_bytes <= s)%nat -> length (entry s p) = s.
Proof. intros Hp Hs. unfold entry. rewrite length_app, length_part_Write, length_replicate by done. lia. Qed.

Lemma length_entries s ps :
  Forall part_ok ps -> (part_bytes <= s)%nat -> length (concat (entry s <$> ps)) = (s * length ps)%nat.
Proof.
  intros Hps Hs. rewrite (length_concat_const s).
  - by rewrite length_fmap.
  - apply Forall_fmap. eapply Forall_impl; [exact Hps|]. intros p Hp. by apply length_entry.
Qed.

(** Copying one entry into zeros. *)
Lemma copy_at_zeros pre b k :
  (length b <= k)%nat ->
  copy_at (pre ++ replicate k x00) (zlen pre) b = Ret (pre ++ b ++ replicate (k - length b) x00).
Proof.
  intros Hk. unfold copy_at, zlen. rewrite bool_decide_eq_true_2 by (rewrite length_app; lia).
  rewrite Nat2Z.id, length_app, length_replicate. f_equal.
  rewrite take_ge by lia. unfold splice. rewrite take_app_length, drop_app_add', drop_replicate by lia.
  done.
Qed.

Lemma layout_parts_ok s pre ps :
  (part_bytes <= s)%nat -> Forall part_ok pre -> Forall part_ok ps ->
  layout_parts (concat (entry s <$> pre) ++ replicate (s * length ps) x00) (Z.of_nat s) (zlen pre)
    (length ps) ps = Ret (concat (entry s <$> (pre ++ ps))).
Proof.
  intros Hs Hd Hps. revert pre Hd. induction Hps as [|p ps Hp Hps IH]; intros pre Hd.
  - simpl. by rewrite Nat.mul_0_r, !app_nil_r.
  - cbn [length layout_parts].
    assert (zlen pre * Z.of_nat s = zlen (concat (entry s <$> pre))) as ->.
    { unfold zlen. rewrite length_entries by done. lia. }
    pose proof (length_part_Write p Hp) as Hl.
    rewrite copy_at_zeros by (rewrite Hl; nia). cbn [mbind outcome_bind].
    replace (s * S (length ps) - length (part_Write p))%nat with ((s - part_bytes) + s * length ps)%nat by nia.
    rewrite replicate_add, (app_assoc (part_Write p)). fold (entry s p).
    rewrite app_assoc. replace (zlen pre + 1) with (zlen (pre ++ [p])) by zl.
    specialize (IH (pre ++ [p])). rewrite fmap_app, concat_app in IH. cbn in IH. rewrite app_nil_r in IH.
    unfold mbind, outcome_bind. rewrite IH by (apply Forall_app_2; [done|by constructor]).
    by rewrite <- app_assoc.
Qed.

(** ** One copy of the table on the disk *)

Definition header_at (g : GPT) : Z := h_CurrentLBA (Header_ g) * BlockSize.
Definition parts_at (g : GPT) : Z := h_PartStart (Header_ g) * BlockSize.
Definition array_size (g : GPT) : Z := h_NPart (Header_ g) * h_PartSize (Header_ g).

(** A table [Write] and [Table] agree on: the constants of the format, as many entries as
    the header says, entries no smaller than their encoding, an array of less than 4 GiB. *)
Record gpt_ok (g : GPT) : Prop := {
  ok_header : header_ok (Header_ g);
  ok_parts : Forall part_ok (Parts g);
  ok_Signature : h_Signature (Header_ g) = Signature;
  ok_Revision : h_Revision (Header_ g) = Revision;
  ok_HeaderSize : h_HeaderSize (Header_ g) = HeaderSize;
  ok_NPart : zlen (Parts g) = h_NPart (Header_ g) /\ h_NPart (Header_ g) <= MaxNPart;
  ok_PartSize : Z.of_nat part_bytes <= h_PartSize (Header_ g);
  ok_array : array_size g < 2 ^ 32
}.

(** Both regions lie on the disk, apart from each other. *)
Record fits (d : disk) (g : GPT) : Prop := {
  fits_disk : zlen d < 2 ^ 63;
  fits_header : header_at g + HeaderSize <= zlen d;
  fits_array : parts_at g + array_size g <= zlen d;
  fits_apart : header_at g + HeaderSize <= parts_at g \/ parts_at g + array_size g <= header_at g
}.

Definition disk_field (d : disk) (off n : Z) : bytes := field d (Z.to_nat off) (Z.to_nat n).

Definition stored (d : disk) (g : GPT) : Prop :=
  disk_field d (header_at g) HeaderSize = header_Write (Header_ g) /\
  disk_field d (parts_at g) (array_size g) = array g.

(** The table with its checksums. *)
Definition seal (g : GPT) : GPT :=
  let h := set_CRC 0 (set_PartCRC (ChecksumIEEE (array g)) (Header_ g)) in
  MkGPT (set_CRC (ChecksumIEEE (header_Write h)) h) (Parts g).

Definition sealed (g : GPT) : Prop :=
  h_PartCRC (Header_ g) = ChecksumIEEE (array g) /\
  h_CRC (Header_ g) = ChecksumIEEE (header_Write (set_CRC 0 (Header_ g))).

Lemma seal_sealed g : sealed (seal g).
Proof. done. Qed.

(** ** Checksums are 32 bits *)

Lemma lxor_range a b n : 0 <= n -> 0 <= a < 2 ^ n -> 0 <= b < 2 ^ n -> 0 <= Z.lxor a b < 2 ^ n.
Proof.
  intros Hn Ha Hb. split; [apply Z.lxor_nonneg; lia|].
  destruct (decide (Z.lxor a b = 0)) as [->|Hne]; [lia|].
  assert (0 <= Z.lxor a b) by (apply Z.lxor_nonneg; lia).
  apply Z.log2_lt_pow2; [lia|]. eapply Z.le_lt_trans; [apply Z.log2_lxor; lia|].
  destruct (decide (n = 0)) as [->|]; [assert (a = 0 /\ b = 0) as [-> ->] by lia; done|].
  apply Z.max_lub_lt.
  - destruct (decide (a = 0)) as [->|]; [simpl; lia|]. apply Z.log2_lt_pow2; lia.
  - destruct (decide (b = 0)) as [->|]; [simpl; lia|]. apply Z.log2_lt_pow2; lia.
Qed.

Lemma crc_bit_range c : 0 <= c < 2 ^ 32 -> 0 <= crc_bit c < 2 ^ 32.
Proof.
  intros Hc. assert (0 <= Z.shiftr c 1 < 2 ^ 32).
  { rewrite Z.shiftr_div_pow2 by lia. split; [apply Z.div_pos; lia|]. apply Z.div_lt_upper_bound; lia. }
  unfold crc_bit. destruct (Z.odd c); [|done]. apply lxor_range; lia.
Qed.

Lemma ChecksumIEEE_range l : 0 <= ChecksumIEEE l < 2 ^ 32.
Proof.
  unfold ChecksumIEEE. apply lxor_range; [lia| |lia].
  assert (0 <= 0xffffffff < 2 ^ 32) as H by lia. revert H. generalize 0xffffffff as c.
  induction l as [|b l IH]; intros c Hc; simpl; [done|]. apply IH. unfold crc_byte.
  pose proof (b2z_range b). assert (0 <= Z.lxor c (b2z b) < 2 ^ 32) as Hx by (apply lxor_range; lia).
  revert Hx. generalize (Z.lxor c (b2z b)) as x. intros x Hx.
  do 8 (apply crc_bit_range in Hx). exact Hx.
Qed.

(** ** Reading what is stored *)

Lemma disk_ReadAt_ok d off n :
  0 <= off -> off + Z.of_nat n <= zlen d ->
  disk_ReadAt d off n = (field d (Z.to_nat off) n, None).
Proof.
  intros Ho Hl. unfold disk_ReadAt, ReadAt. destruct (Z.ltb_spec off 0); [lia|].
  fold (field d (Z.to_nat off) n). rewrite length_field by (unfold zlen in Hl; lia).
  by rewrite Nat.ltb_irrefl.
Qed.

Lemma section_Read_ok d off s n :
  0 <= off -> off + Z.of_nat n <= zlen d -> Z.of_nat n <= s ->
  section_Read d off s n = Ret (field d (Z.to_nat off) n).
Proof.
  intros Ho Hl Hs. unfold section_Read. rewrite Nat.min_l by lia. rewrite disk_ReadAt_ok by done.
  rewrite length_field by (unfold zlen in Hl; lia). by rewrite Nat.eqb_refl.
Qed.

Lemma copy_CRC h c : header_ok h -> copy_at (header_Write h) 16 (le_bytes 4 c) = Ret (header_Write (set_CRC c h)).
Proof.
  intros Hh. pose proof (length_header_Write h Hh) as Hl. unfold copy_at, zlen. rewrite Hl.
  rewrite bool_decide_eq_true_2 by lia. reflexivity.
Qed.

Lemma read_parts_ok r base s pre ps :
  (part_bytes <= s)%nat -> Forall part_ok pre -> Forall part_ok ps ->
  0 <= base -> base + Z.of_nat s * zlen (pre ++ ps) <= zlen r -> zlen r < 2 ^ 63 ->
  field r (Z.to_nat base) (s * length (pre ++ ps)) = concat (entry s <$> (pre ++ ps)) ->
  read_parts r base (Z.of_nat s) (zlen pre) (length ps) = Ret ps.
Proof.
  intros Hs Hd Hps Hb Hl Hr. revert pre Hd Hl. induction Hps as [|p ps Hp Hps IH]; intros pre Hd Hl Hf; [done|].
  cbn [length read_parts]. rewrite zlen_app, zlen_cons in Hl.
  pose proof (zlen_nonneg pre). pose proof (zlen_nonneg ps).
  assert (part_bytes <= s)%nat as Hs' by done. unfold part_bytes in Hs'.
  rewrite i64_small by nia. rewrite section_Read_ok; [|nia|unfold part_bytes; nia|unfold part_bytes; lia].
  assert (field r (Z.to_nat (base + zlen pre * Z.of_nat s)) part_bytes = part_Write p) as ->.
  { replace (Z.to_nat (base + zlen pre * Z.of_nat s)) with (Z.to_nat base + s * length pre)%nat
      by (unfold zlen; nia).
    rewrite <- (field_field r (Z.to_nat base) (s * length (pre ++ p :: ps)))
      by (rewrite length_app; simpl; unfold part_bytes; nia).
    rewrite Hf, fmap_app, concat_app, fmap_cons, concat_cons. unfold entry at 2.
    rewrite <- app_assoc, <- (length_entries s pre), <- (length_part_Write p) by done. apply field_app. }
  unfold mbind, outcome_bind. rewrite part_Read_Write by done.
  replace (zlen pre + 1) with (zlen (pre ++ [p])) by zl.
  rewrite IH; [done|by apply Forall_app_2; [|constructor]| |].
  - rewrite <- app_assoc. simpl. rewrite zlen_app, zlen_cons. lia.
  - by rewrite <- app_assoc.
Qed.

Lemma Table_stored d g :
  gpt_ok g -> fits d g -> sealed g -> stored d g -> Table d (header_at g) = Ret (Some g, None).
Proof.
  intros [Hh Hp Hsig Hrev Hhs [Hn1 Hn2] Hps Ha] [Fd Fh Fa _] [Sp Sc] [Eh Ea].
  assert (Hh' := Hh). destruct Hh' as (H8 & H4 & _).
  repeat (apply Forall_cons in H8 as [? H8]). repeat (apply Forall_cons in H4 as [? H4]).
  assert (0 <= header_at g) as Hhat by (unfold header_at, BlockSize; lia).
  assert (0 <= parts_at g) as Hpat by (unfold parts_at, BlockSize; lia).
  assert (0 <= array_size g) as Hsz by (unfold array_size; nia).
  unfold Table. rewrite section_Read_ok by (rewrite ?Z2Nat.id; unfold HeaderSize in *; lia).
  fold (disk_field d (header_at g) HeaderSize). rewrite Eh, header_Read_Write by done.
  rewrite Hsig, Hrev, Hhs. do 3 rewrite bool_decide_eq_false_2 by (intros ?; done).
  rewrite bool_decide_eq_false_2 by lia.
  fold (array_size g). change (h_PartStart (Header_ g) * BlockSize) with (parts_at g).
  rewrite u64_small, i64_small by lia.
  rewrite disk_ReadAt_ok by lia. fold (disk_field d (parts_at g) (array_size g)). rewrite Ea.
  rewrite bool_decide_eq_false_2 by (intros Hx; apply Hx; by rewrite Sp).
  rewrite disk_ReadAt_ok by (rewrite ?Z2Nat.id; unfold HeaderSize in *; lia).
  fold (disk_field d (header_at g) HeaderSize). rewrite Eh.
  change (replicate 4 x00) with (le_bytes 4 0). rewrite copy_CRC by done. cbn [mbind outcome_bind].
  unfold mbind, outcome_bind. rewrite bool_decide_eq_false_2 by (intros Hx; apply Hx; by rewrite Sc).
  pose proof (read_parts_ok d (parts_at g) (Z.to_nat (h_PartSize (Header_ g))) [] (Parts g)) as Hr.
  change (zlen []) with 0 in Hr. rewrite Z2Nat.id in Hr by lia.
  replace (Z.to_nat (h_NPart (Header_ g))) with (length (Parts g)) by (unfold zlen in Hn1; lia).
  rewrite Hr; [by destruct g| | |done|done| |done|].
  - unfold part_bytes in *. lia.
  - constructor.
  - simpl. rewrite Hn1. unfold array_size in Fa. lia.
  - simpl. unfold array in Ea. rewrite <- Ea. unfold disk_field. f_equal. unfold array_size, zlen in *. nia.
Qed.

(** ** Writing *)

Lemma header_ok_set_CRC h c : header_ok h -> 0 <= c < 2 ^ 32 -> header_ok (set_CRC c h).
Proof.
  intros (H8 & H4 & Hg) Hc. split_and!; [done| |done]. unfold uints in *.
  repeat (apply Forall_cons in H4 as [? H4]).
  repeat (apply Forall_cons_2; [done|]). apply Forall_nil_2.
Qed.

Lemma header_ok_set_PartCRC h c : header_ok h -> 0 <= c < 2 ^ 32 -> header_ok (set_PartCRC c h).
Proof.
  intros (H8 & H4 & Hg) Hc. split_and!; [done| |done]. unfold uints in *.
  repeat (apply Forall_cons in H4 as [? H4]).
  repeat (apply Forall_cons_2; [done|]). apply Forall_nil_2.
Qed.

Lemma header_ok_seal g : header_ok (Header_ g) -> header_ok (Header_ (seal g)).
Proof.
  intros Hh. apply header_ok_set_CRC; [|apply ChecksumIEEE_range].
  apply header_ok_set_CRC; [|lia]. apply header_ok_set_PartCRC; [done|apply ChecksumIEEE_range].
Qed.

Lemma gpt_ok_seal g : gpt_ok g -> gpt_ok (seal g).
Proof. intros [Hh]. split; try done. by apply header_ok_seal. Qed.

(** What [Write] does to the disk: the array, then the header. *)
Definition written (d : disk) (g : GPT) : disk :=
  splice (splice d (Z.to_nat (parts_at g)) (array g)) (Z.to_nat (header_at g)) (header_Write (Header_ (seal g))).

Lemma disk_WriteAt_ok d off b :
  0 <= off -> off + zlen b <= zlen d -> disk_WriteAt d off b = (splice d (Z.to_nat off) b, None).
Proof.
  intros Ho Hl. unfold disk_WriteAt. destruct (Z.ltb_spec off 0); [lia|].
  by rewrite bool_decide_eq_true_2.
Qed.

Lemma copy_at_fill b k : length b = k -> copy_at (replicate k x00) 0 b = Ret b.
Proof.
  intros <-. pose proof (copy_at_zeros [] b (length b) ltac:(lia)) as H.
  rewrite Nat.sub_diag in H. simpl in H. rewrite app_nil_r in H. exact H.
Qed.

Lemma length_array g : gpt_ok g -> zlen (array g) = array_size g.
Proof.
  intros [_ Hp _ _ _ [Hn _] Hs _]. unfold array, zlen.
  rewrite length_entries; [|done|lia]. unfold array_size, zlen in *.
  rewrite Nat2Z.inj_mul, Z2Nat.id, Hn by lia. lia.
Qed.

(** The positions of a table, as the code computes them. *)
Lemma positions d g :
  gpt_ok g -> fits d g ->
  0 <= header_at g < 2 ^ 63 /\ 0 <= parts_at g < 2 ^ 63 /\ 0 <= array_size g.
Proof.
  intros [(H8 & H4 & _)] [Fd Fh Fa _]. unfold uints in *.
  repeat (apply Forall_cons in H8 as [? H8]). repeat (apply Forall_cons in H4 as [? H4]).
  unfold header_at, parts_at, array_size, BlockSize, HeaderSize in *. nia.
Qed.

Lemma Write_ok d g :
  gpt_ok g -> fits d g -> Write (d, g) = ((written d g, seal g), Ret tt).
Proof.
  intros Hok Hf. pose proof (positions d g Hok Hf) as (Hh & Hp & Hs).
  pose proof (length_array g Hok) as Hla. assert (Hok' := Hok).
  destruct Hok' as [Hhd Hps _ _ Hhs [Hn1 _] Hsz Ha]. destruct Hf as [Fd Fh Fa _].
  unfold Write. rewrite (M_bind_Ret get _ _ _ _ eq_refl).
  fold (array_size g). rewrite u32_small by lia.
  pose proof (layout_parts_ok (Z.to_nat (h_PartSize (Header_ g))) [] (Parts g)) as Hl.
  change (zlen []) with 0 in Hl. simpl app in Hl. rewrite Z2Nat.id in Hl by lia.
  replace (Z.to_nat (h_PartSize (Header_ g)) * length (Parts g))%nat with (Z.to_nat (array_size g)) in Hl
    by (unfold array_size, zlen in *; nia).
  replace (length (Parts g)) with (Z.to_nat (h_NPart (Header_ g))) in Hl by (unfold zlen in Hn1; lia).
  rewrite (M_bind_Ret (lift _) _ _ _ (array g)) by (unfold lift; by rewrite Hl by (done || lia)).
  change (h_PartStart (Header_ g) * BlockSize) with (parts_at g). rewrite u64_small, i64_small by lia.
  rewrite (M_bind_Ret _ _ _ (splice d (Z.to_nat (parts_at g)) (array g), g) tt)
    by (unfold WriteAt; by rewrite disk_WriteAt_ok by lia).
  do 2 rewrite (M_bind_Ret (set_header _) _ _ _ _ eq_refl). rewrite (M_bind_Ret get _ _ _ _ eq_refl).
  cbn [Header_ Parts set_CRC set_PartCRC h_HeaderSize h_CurrentLBA].
  set (h0 := set_CRC 0 (set_PartCRC (ChecksumIEEE (array g)) (Header_ g))).
  assert (header_ok h0) as Hh0.
  { apply header_ok_set_CRC; [|lia]. apply header_ok_set_PartCRC; [done|apply ChecksumIEEE_range]. }
  pose proof (length_header_Write h0 Hh0) as Hl0.
  rewrite Hhs. rewrite (M_bind_Ret (lift _) _ _ _ (header_Write h0)) by (unfold lift; by rewrite copy_at_fill).
  rewrite (M_bind_Ret (set_header _) _ _ _ _ eq_refl).
  rewrite (M_bind_Ret (lift _) _ _ _ (header_Write (Header_ (seal g)))) by (unfold lift; by rewrite copy_CRC).
  fold (header_at g). rewrite u64_small, i64_small by lia. unfold WriteAt.
  rewrite disk_WriteAt_ok; [done|lia|].
  unfold zlen. rewrite (length_splice d) by (unfold zlen in *; lia).
  rewrite length_header_Write by (by apply header_ok_seal). unfold HeaderSize, zlen in *. lia.
Qed.

Lemma zlen_array_nat g : gpt_ok g -> length (array g) = Z.to_nat (array_size g).
Proof. intros H. pose proof (length_array g H). unfold zlen in *. lia. Qed.

(** What is on the disk afterwards: the table, and the rest as it was. *)
Lemma written_spec d g :
  gpt_ok g -> fits d g ->
  length (written d g) = length d /\ stored (written d g) (seal g) /\
  forall o n, 0 <= o -> 0 <= n ->
    (o + n <= header_at g \/ header_at g + HeaderSize <= o) ->
    (o + n <= parts_at g \/ parts_at g + array_size g <= o) ->
    disk_field (written d g) o n = disk_field d o n.
Proof.
  intros Hok Hf. pose proof (positions d g Hok Hf) as (Hh & Hp & Hs).
  pose proof (zlen_array_nat g Hok) as Hla.
  pose proof (length_header_Write _ (header_ok_seal g (ok_header g Hok))) as Hlh.
  destruct Hf as [Fd Fh Fa Fap]. unfold written, HeaderSize in *.
  set (d1 := splice d _ (array g)).
  assert (length d1 = length d) as Hd1 by (apply length_splice; unfold zlen in *; lia).
  split; [rewrite length_splice; [done|]; unfold zlen in *; lia|]. split; [split|].
  - unfold disk_field. replace (Z.to_nat HeaderSize) with (length (header_Write (Header_ (seal g))))
      by (by rewrite Hlh). apply field_splice_same. rewrite Hlh, Hd1. unfold zlen in *.
    change (header_at (seal g)) with (header_at g). lia.
  - change (array (seal g)) with (array g). unfold disk_field.
    change (array_size (seal g)) with (array_size g). change (parts_at (seal g)) with (parts_at g).
    rewrite field_splice_other by (rewrite ?Hlh, ?Hd1; unfold zlen in *; lia).
    rewrite <- Hla. apply field_splice_same. unfold zlen in *; lia.
  - intros o n Ho Hn Hd2 Hd3. unfold disk_field.
    rewrite field_splice_other by (rewrite ?Hlh, ?Hd1; unfold zlen in *; lia).
    apply field_splice_other; unfold zlen in *; lia.
Qed.

(** ** Both copies *)

(** The regions of two tables do not meet. *)
Definition apart (g b : GPT) : Prop :=
  let disjoint o n o' n' := o + n <= o' \/ o' + n' <= o in
  disjoint (header_at g) HeaderSize (header_at b) HeaderSize /\
  disjoint (header_at g) HeaderSize (parts_at b) (array_size b) /\
  disjoint (parts_at g) (array_size g) (header_at b) HeaderSize /\
  disjoint (parts_at g) (array_size g) (parts_at b) (array_size b).

Lemma fits_same_length d d' g : length d = length d' -> fits d g -> fits d' g.
Proof. intros He [F1 F2 F3 F4]. unfold zlen in *. rewrite He in *. split; done. Qed.

Lemma stored_apart d g b :
  gpt_ok g -> gpt_ok b -> fits d g -> fits d b -> apart g b -> stored d g -> stored (written d b) g.
Proof.
  intros Hg Hb Fg Fb (A1 & A2 & A3 & A4) [S1 S2].
  pose proof (positions d g Hg Fg) as (? & ? & ?). pose proof (positions d b Hb Fb) as (? & ? & ?).
  destruct (written_spec d b Hb Fb) as (_ & _ & Hother). unfold HeaderSize in *. split.
  - rewrite <- S1. apply Hother; unfold HeaderSize; lia.
  - rewrite <- S2. apply Hother; unfold HeaderSize; lia.
Qed.

Lemma disk_ReadAt_None d off n b : disk_ReadAt d off n = (b, None) -> b = field d (Z.to_nat off) n.
Proof. unfold disk_ReadAt, ReadAt. destruct (off <? 0); [done|]. by intros [=<-]. Qed.

Lemma read_parts_length r base s i n ps : read_parts r base s i n = Ret ps -> length ps = n.
Proof.
  revert i ps. induction n as [|n IH]; intros i ps; simpl; [by intros [= <-]|].
  destruct (section_Read _ _ _ _); [|done..]. unfold mbind, outcome_bind.
  destruct (read_parts r base s (i + 1) n) as [qs|e|] eqn:E; [|done..]. intros [= <-].
  simpl. f_equal. by eapply IH.
Qed.

(** ** Properties *)

(** C15: a table written to a disk with [Write] is read back by [Table] at its own LBA:
    every field and partition, with the checksums [Write] computed; nothing outside the
    two regions of the table changes. *)
Theorem Write_Table (d : disk) (g : GPT) :
  gpt_ok g -> fits d g ->
  exists d', Write (d, g) = ((d', seal g), Ret tt) /\
    Table d' (header_at g) = Ret (Some (seal g), None) /\
    forall o n, 0 <= o -> 0 <= n ->
      (o + n <= header_at g \/ header_at g + HeaderSize <= o) ->
      (o + n <= parts_at g \/ parts_at g + array_size g <= o) ->
      disk_field d' o n = disk_field d o n.
Proof.
  intros Hg Hf. destruct (written_spec d g Hg Hf) as (Hl & Hst & Hother).
  exists (written d g). split; [by apply Write_ok|]. split; [|exact Hother].
  apply (Table_stored _ (seal g)); [by apply gpt_ok_seal| |apply seal_sealed|done].
  apply fits_same_length with d; [done|]. destruct Hf. by split.
Qed.

Definition ex_part (n : Z) : Part :=
  MkPart (replicate 16 x01) (replicate 16 x02) n (n + 7) 0 (replicate 72 x00).

Definition ex_header (cur bak ps : Z) : Header :=
  MkHeader Signature Revision HeaderSize 0 0 cur bak 4 12 (replicate 16 x07) ps 2 128 0.

Definition ex_gpt (cur bak ps : Z) : GPT := MkGPT (ex_header cur bak ps) [ex_part 4; ex_part 5].

Definition ex_disk : disk := replicate (16 * 512) xff.

Lemma ex_gpt_ok cur bak ps :
  0 <= cur < 16 -> 0 <= bak < 16 -> 0 <= ps < 16 -> gpt_ok (ex_gpt cur bak ps).
Proof.
  intros. split; cbn; try done.
  - unfold header_ok, uints. change (256 ^ Z.of_nat 8) with (2 ^ 64). change (256 ^ Z.of_nat 4) with (2 ^ 32).
    cbn [ex_header h_Signature h_CurrentLBA h_BackupLBA h_FirstLBA h_LastLBA h_PartStart h_Revision
         h_HeaderSize h_CRC h_Reserved h_NPart h_PartSize h_PartCRC h_DiskGUID].
    unfold Signature, Revision, HeaderSize.
    split_and!; [| |done]; repeat (apply Forall_cons_2; [lia|]); apply Forall_nil_2.
  - assert (forall n, 0 <= n < 16 -> part_ok (ex_part n)) as Hp.
    { intros n Hn. unfold part_ok, uints. change (256 ^ Z.of_nat 8) with (2 ^ 64).
      cbn [ex_part p_FirstLBA p_LastLBA Attribute PartGUID UniqueGUID PartName].
      split_and!; [|done..]. repeat (apply Forall_cons_2; [lia|]). apply Forall_nil_2. }
    repeat (apply Forall_cons_2; [apply Hp; lia|]). apply Forall_nil_2.
Qed.

Lemma ex_gpt_fits cur bak ps :
  0 <= cur < 16 -> 0 <= ps < 16 -> cur < ps \/ ps < cur -> fits ex_disk (ex_gpt cur bak ps).
Proof.
  intros. assert (zlen ex_disk = 8192) as El by (vm_compute; reflexivity).
  split; rewrite ?El; unfold header_at, parts_at, array_size, BlockSize, HeaderSize; cbn; lia.
Qed.

Lemma Write_Table_witness :
  exists d', Write (ex_disk, ex_gpt 1 14 2) = ((d', seal (ex_gpt 1 14 2)), Ret tt) /\
    Table d' 512 = Ret (Some (seal (ex_gpt 1 14 2)), None) /\ disk_field d' 0 512 = replicate 512 xff.
Proof.
  destruct (Write_Table ex_disk (ex_gpt 1 14 2) (ex_gpt_ok 1 14 2 ltac:(lia) ltac:(lia) ltac:(lia))
              (ex_gpt_fits 1 14 2 ltac:(lia) ltac:(lia) ltac:(lia))) as (d' & Hw & Ht & Ho).
  exists d'. split; [exact Hw|]. split; [exact Ht|].
  rewrite Ho; [vm_compute; reflexivity|lia|lia|unfold header_at, BlockSize; cbn; lia|].
  unfold parts_at, BlockSize; cbn; lia.
Defined.

(** [New] on a disk that holds a primary table at LBA 1 and a backup that agrees with it. *)
Lemma New_stored d g b :
  gpt_ok g -> gpt_ok b -> fits d g -> fits d b -> sealed g -> sealed b -> stored d g -> stored d b ->
  h_CurrentLBA (Header_ g) = 1 -> EqualHeader (Header_ g) (Header_ b) = true -> Parts g = Parts b ->
  h_CRC (Header_ g) <> h_CRC (Header_ b) -> New d = Ret (Some g, Some b, None).
Proof.
  intros Hg Hb Fg Fb Sg Sb Eg Eb H1 Heq Hps Hcrc. unfold New.
  replace HeaderOff with (header_at g) by (unfold header_at; rewrite H1; done). rewrite (Table_stored d g) by done.
  unfold mbind, outcome_bind. assert (h_BackupLBA (Header_ g) = h_CurrentLBA (Header_ b)) as ->.
  { unfold EqualHeader in Heq. rewrite !andb_true_iff, !bool_decide_eq_true in Heq. by destruct_and! Heq. }
  change (h_CurrentLBA (Header_ b) * BlockSize) with (header_at b).
  pose proof (positions d b Hb Fb) as (Hpb & _ & _). rewrite u64_small, i64_small by lia.
  rewrite (Table_stored d b) by done. rewrite Heq. cbn [negb]. rewrite bool_decide_eq_false_2 by done.
  by rewrite bool_decide_eq_false_2 by (intros Hx; by apply Hx).
Qed.

(** When [gpt -w] has written a primary table at LBA 1 and a backup that names it,
    agreeing in everything [EqualHeader] compares and lying apart on the disk, [New] finds
    both copies, in this order and without error, unless the two header checksums collide. *)
Theorem gpt_w_New (d : disk) (g b : GPT) :
  gpt_ok g -> gpt_ok b -> fits d g -> fits d b -> apart g b ->
  h_CurrentLBA (Header_ g) = 1 -> EqualHeader (Header_ (seal g)) (Header_ (seal b)) = true ->
  Parts g = Parts b -> h_CRC (Header_ (seal g)) <> h_CRC (Header_ (seal b)) ->
  exists d', gpt_w g b d = (d', Ret tt) /\ New d' = Ret (Some (seal g), Some (seal b), None).
Proof.
  intros Hg Hb Fg Fb Hap H1 Heq Hps Hcrc.
  pose proof (written_spec d g Hg Fg) as (Hl1 & Hs1 & _).
  assert (fits (written d g) b) as Fb1 by (by apply fits_same_length with d).
  pose proof (written_spec _ b Hb Fb1) as (Hl2 & Hs2 & _).
  exists (written (written d g) b). unfold gpt_w. rewrite !Write_ok by done. split; [done|].
  pose proof (positions d b Hb Fb) as (Hpb & _ & _).
  assert (fits (written (written d g) b) (seal g)) as Fg2.
  { apply fits_same_length with d; [congruence|]. destruct Fg. by split. }
  assert (fits (written (written d g) b) (seal b)) as Fb2.
  { apply fits_same_length with d; [congruence|]. destruct Fb. by split. }
  assert (stored (written (written d g) b) (seal g)) as Hs3.
  { apply stored_apart; [by apply gpt_ok_seal|done| |done|done|done].
    apply fits_same_length with d; [done|]. destruct Fg. by split. }
  by apply New_stored; [apply gpt_ok_seal|apply gpt_ok_seal|..].
Qed.

Lemma gpt_w_New_witness :
  exists d', gpt_w (ex_gpt 1 14 2) (ex_gpt 14 1 12) ex_disk = (d', Ret tt) /\
    New d' = Ret (Some (seal (ex_gpt 1 14 2)), Some (seal (ex_gpt 14 1 12)), None).
Proof.
  apply gpt_w_New.
  - apply ex_gpt_ok; lia.
  - apply ex_gpt_ok; lia.
  - apply ex_gpt_fits; lia.
  - apply ex_gpt_fits; lia.
  - unfold apart, header_at, parts_at, array_size, BlockSize, HeaderSize; cbn; lia.
  - reflexivity.
  - vm_compute. reflexivity.
  - reflexivity.
  - vm_compute. congruence.
Defined.

(** C34: [Table] accepts only checked tables: when it returns one without error, the
    signature, revision and header size are the supported ones, there are as many
    partitions as the header says and at most 128, the array on the disk has the checksum
    the header names, and the header bytes on the disk, with their checksum zeroed, have
    the checksum the header holds. *)
Theorem Table_checks (r : disk) (off : Z) (g : GPT) :
  Table r off = Ret (Some g, None) ->
  h_Signature (Header_ g) = Signature /\ h_Revision (Header_ g) = Revision /\
  h_HeaderSize (Header_ g) = HeaderSize /\ zlen (Parts g) = h_NPart (Header_ g) /\
  h_NPart (Header_ g) <= MaxNPart /\
  ChecksumIEEE (disk_field r (i64 (parts_at g)) (array_size g)) = h_PartCRC (Header_ g) /\
  exists hdr, copy_at (disk_field r off HeaderSize) 16 (replicate 4 x00) = Ret hdr /\
    ChecksumIEEE hdr = h_CRC (Header_ g).
Proof.
  unfold Table. destruct (section_Read r off HeaderSize (Z.to_nat HeaderSize)) as [hb|e|] eqn:Es; [|done..].
  set (h := header_Read hb).
  case_bool_decide as H1; [done|].
  case_bool_decide as H2; [done|].
  case_bool_decide as H3; [done|]. case_bool_decide as H4; [done|].
  destruct (disk_ReadAt r (i64 _) _) as [blocks [e|]] eqn:Eb; [done|].
  case_bool_decide as Hc; [done|].
  destruct (disk_ReadAt r off _) as [hdr [e|]] eqn:Eh; [done|].
  unfold mbind, outcome_bind. destruct (copy_at hdr 16 _) as [hdr0|e|] eqn:Ec; [|done..].
  case_bool_decide as Hh; [done|].
  destruct (read_parts _ _ _ _ _) as [ps|e|] eqn:Ep; [|done..]. intros ?. simplify_eq. cbn.
  apply disk_ReadAt_None in Eb as ->. apply disk_ReadAt_None in Eh as ->. apply read_parts_length in Ep.
  pose proof (le_val_range (field hb 80 4)) as [Hn _].
  rewrite H3 in Ec. split_and!; try done.
  - unfold zlen. rewrite Ep. apply Z2Nat.id. exact Hn.
  - by exists hdr0.
Qed.

Lemma Table_checks_witness :
  let d' := fst (fst (Write (ex_disk, ex_gpt 1 14 2))) in
  Table d' 512 = Ret (Some (seal (ex_gpt 1 14 2)), None) /\
  ChecksumIEEE (disk_field d' 1024 256) = h_PartCRC (Header_ (seal (ex_gpt 1 14 2))).
Proof.
  intros d'. assert (Table d' 512 = Ret (Some (seal (ex_gpt 1 14 2)), None)) as Ht
    by (vm_compute; reflexivity).
  split; [exact Ht|]. destruct (Table_checks d' 512 _ Ht) as (_ & _ & _ & _ & _ & H & _). exact H.
Defined.

(** [Write] multiplies the number and the size of the entries in 32 bits: when that
    product wraps below one entry size, the array buffer is too small for the second entry
    and the program panics before anything is written. *)
Theorem Write_array_overflow_panics (d : disk) (g : GPT) :
  2 <= h_NPart (Header_ g) -> 2 <= zlen (Parts g) -> 0 <= h_PartSize (Header_ g) ->
  u32 (h_NPart (Header_ g) * h_PartSize (Header_ g)) < h_PartSize (Header_ g) ->
  Write (d, g) = ((d, g), Panic).
Proof.
  intros Hn Hl Hs Ho. unfold Write. rewrite (M_bind_Ret get _ _ _ _ eq_refl).
  pose proof (u32_range (h_NPart (Header_ g) * h_PartSize (Header_ g))) as Hr.
  set (h := replicate _ x00).
  assert (zlen h < h_PartSize (Header_ g)) as Hh by (unfold h, zlen; rewrite length_replicate; lia).
  assert (layout_parts h (h_PartSize (Header_ g)) 0 (Z.to_nat (h_NPart (Header_ g))) (Parts g) = Panic) as E.
  { destruct (Z.to_nat (h_NPart (Header_ g))) as [|[|k]] eqn:Ek; [lia..|].
    destruct (Parts g) as [|p [|q ps]]; [unfold zlen in Hl; simpl in Hl; lia..|].
    cbn [layout_parts]. unfold mbind, outcome_bind.
    assert (exists h', copy_at h (0 * h_PartSize (Header_ g)) (part_Write p) = Ret h' /\ length h' = length h)
      as (h' & -> & Hh').
    { eexists. unfold copy_at. rewrite bool_decide_eq_true_2 by (pose proof (zlen_nonneg h); lia).
      split; [done|]. apply length_splice. rewrite length_take. simpl. lia. }
    unfold copy_at. rewrite bool_decide_eq_false_2; [done|]. unfold zlen in *. lia. }
  unfold lift. unfold mbind at 1, M_bind at 1. by rewrite E.
Qed.

Lemma Write_array_overflow_panics_witness :
  let h := MkHeader Signature Revision HeaderSize 0 0 1 14 4 12 (replicate 16 x07) 2 128 (2 ^ 25) 0 in
  let g := MkGPT h (ex_part <$> replicate 128 4) in
  Write (ex_disk, g) = ((ex_disk, g), Panic).
Proof.
  intros h g. apply Write_array_overflow_panics; vm_compute; congruence.
Defined.
