(* ===== verification/GptData.v ===== *)
(** * The disk of a Chromebook ([pkg/gpt/data.go])

    The blocks of a real disk that the package carries for its tests, and the model of
    [pkg/gpt/gpt.go] run on them: the primary table is accepted with the header that the tests
    expect, damaged headers are refused for the reason that the tests expect, the table can be
    written back, and the backup agrees with it. *)

From Stdlib Require Import Strings.String.
From S2P Require Import GoStrings Gpt.

(** A row of sixteen bytes. *)
Definition row (s : string) : bytes := default [] (hex_decode (str s)).

(** The protective boot record, the header and the first entries. *)
Definition block_boot : list (Z * bytes) := [
  (0x0, row "ded7d2b238d74698a2ec3f18c6015337");
  (0x10, row "fbfcbf0006b90001f3a5ea1f06000052");
  (0x20, row "89e583ec1c6a1ec746fa000252b441bb");
  (0x30, row "aa5531c930f6f9cd135ab408721781fb");
  (0x40, row "55aa7511d1e9730d66c7065907b442eb");
  (0x50, row "13b44889e6cd1383e13f510fb6c640f7");
  (0x60, row "e152506631c0669940e8dc008b4e568b");
  (0x70, row "465a5051f7e1f776fa9141668b464e66");
  (0x80, row "8b565253e8c400e2fb31f65f5958668b");
  (0x90, row "15660b5504660b5508660b550c740cf6");
  (0xa0, row "453004740621f6751989fe01c7e2df21");
  (0xb0, row "f6752ee8e1004d697373696e67204f53");
  (0xc0, row "0d0ae8d2004d756c7469706c65206163");
  (0xd0, row "7469766520706172746974696f6e730d");
  (0xe0, row "0a91bfbe07576631c0b08066abb0ed66");
  (0xf0, row "ab668b4420668b5424e84000668b4428");
  (0x100, row "668b542c662b4420661b5424e87000e8");
  (0x110, row "2a00660fb7c166abf3a45e668b443466");
  (0x120, row "8b5438e82200813efe7d55aa758589ec");
  (0x130, row "5a5f0766b821475054faffe46621d274");
  (0x140, row "046683c8ff66abc3bb007c6660665266");
  (0x150, row "5006536a016a1089e666f776dcc0e406");
  (0x160, row "88e188c592f676e088c608e141b80102");
  (0x170, row "8a5600cd138d64106661720c027efb66");
  (0x180, row "83c0016683d200c3e80c004469736b20");
  (0x190, row "6572726f720d0a5eacb40e8a3e6204b3");
  (0x1a0, row "07cd103c0a75f1cd4bf36386276849ee");
  (0x1b0, row "a8b0ea1128f31707000000001d9a0000");
  (0x1c0, row "0200eeffffff01000000bf5f69000000");
  (0x1d0, row "00000000000000000000000000000000");
  (0x1e0, row "00000000000000000000000000000000");
  (0x1f0, row "000000000000000000000000000055aa");
  (0x200, row "4546492050415254000001005c000000");
  (0x210, row "92925122000000000100000000000000");
  (0x220, row "bfcf4300000000002200000000000000");
  (0x230, row "9ecf4300000000002d1ed4baef934ab0");
  (0x240, row "846e2e3a6a2d73bf0200000000000000");
  (0x250, row "8000000080000000578e728d00000000");
  (0x260, row "00000000000000000000000000000000");
  (0x270, row "00000000000000000000000000000000");
  (0x280, row "00000000000000000000000000000000");
  (0x290, row "00000000000000000000000000000000");
  (0x2a0, row "00000000000000000000000000000000");
  (0x2b0, row "00000000000000000000000000000000");
  (0x2c0, row "00000000000000000000000000000000");
  (0x2d0, row "00000000000000000000000000000000");
  (0x2e0, row "00000000000000000000000000000000");
  (0x2f0, row "00000000000000000000000000000000");
  (0x300, row "00000000000000000000000000000000");
  (0x310, row "00000000000000000000000000000000");
  (0x320, row "00000000000000000000000000000000");
  (0x330, row "00000000000000000000000000000000");
  (0x340, row "00000000000000000000000000000000");
  (0x350, row "00000000000000000000000000000000");
  (0x360, row "00000000000000000000000000000000");
  (0x370, row "00000000000000000000000000000000");
  (0x380, row "00000000000000000000000000000000");
  (0x390, row "00000000000000000000000000000000");
  (0x3a0, row "00000000000000000000000000000000");
  (0x3b0, row "00000000000000000000000000000000");
  (0x3c0, row "00000000000000000000000000000000");
  (0x3d0, row "00000000000000000000000000000000");
  (0x3e0, row "00000000000000000000000000000000");
  (0x3f0, row "00000000000000000000000000000000");
  (0x400, row "a2a0d0ebe5b9334487c068b6b72699c7");
  (0x410, row "936b59aaa8eb42e0bb1c500b2846db57");
  (0x420, row "00e0420000000000ff4f430000000000");
  (0x430, row "00000000000000005300540041005400");
  (0x440, row "45000000000000000000000000000000");
  (0x450, row "00000000000000000000000000000000");
  (0x460, row "00000000000000000000000000000000");
  (0x470, row "00000000000000000000000000000000");
  (0x480, row "5d2a3afe324fa741b725accc3285a309");
  (0x490, row "4895a318f96342d2a3cbb890bc137b0a");
  (0x4a0, row "0050000000000000ffcf000000000000");
  (0x4b0, row "000000000000ff014b00450052004e00");
  (0x4c0, row "2d004100000000000000000000000000");
  (0x4d0, row "00000000000000000000000000000000");
  (0x4e0, row "00000000000000000000000000000000");
  (0x4f0, row "00000000000000000000000000000000");
  (0x500, row "02e2b83c7e3bdd478a3c7ff2a13cfcec");
  (0x510, row "bec58b8ba66f4147b73041a4c5c7f60e");
  (0x520, row "0060040000000000ffdf420000000000");
  (0x530, row "000000000000000052004f004f005400");
  (0x540, row "2d004100000000000000000000000000");
  (0x550, row "00000000000000000000000000000000");
  (0x560, row "00000000000000000000000000000000");
  (0x570, row "00000000000000000000000000000000");
  (0x580, row "5d2a3afe324fa741b725accc3285a309");
  (0x590, row "b3c43d6a77364bde85d9d67420ca70c3");
  (0x5a0, row "00d0000000000000ff4f010000000000");
  (0x5b0, row "00000000000000004b00450052004e00");
  (0x5c0, row "2d004200000000000000000000000000");
  (0x5d0, row "00000000000000000000000000000000");
  (0x5e0, row "00000000000000000000000000000000");
  (0x5f0, row "00000000000000000000000000000000");
  (0x600, row "02e2b83c7e3bdd478a3c7ff2a13cfcec")].

(** The other entries of the primary table. *)
Definition block_parts : list (Z * bytes) := [
  (0x610, row "6627cf6ef8bc4147936b1e24c6a12697");
  (0x620, row "0050040000000000ff5f040000000000");
  (0x630, row "000000000000000052004f004f005400");
  (0x640, row "2d004200000000000000000000000000");
  (0x650, row "00000000000000000000000000000000");
  (0x660, row "00000000000000000000000000000000");
  (0x670, row "00000000000000000000000000000000");
  (0x680, row "5d2a3afe324fa741b725accc3285a309");
  (0x690, row "fc725f08d1e947d88c215118e4a51c36");
  (0x6a0, row "40400000000000004040000000000000");
  (0x6b0, row "00000000000000004b00450052004e00");
  (0x6c0, row "2d004300000000000000000000000000");
  (0x6d0, row "00000000000000000000000000000000");
  (0x6e0, row "00000000000000000000000000000000");
  (0x6f0, row "00000000000000000000000000000000");
  (0x700, row "02e2b83c7e3bdd478a3c7ff2a13cfcec");
  (0x710, row "9cf5a0ceea6a4f00bd17e337f8ddacf0");
  (0x720, row "41400000000000004140000000000000");
  (0x730, row "000000000000000052004f004f005400");
  (0x740, row "2d004300000000000000000000000000");
  (0x750, row "00000000000000000000000000000000");
  (0x760, row "00000000000000000000000000000000");
  (0x770, row "00000000000000000000000000000000");
  (0x780, row "a2a0d0ebe5b9334487c068b6b72699c7");
  (0x790, row "cad77c50953245d3bc96261eef63ef07");
  (0x7a0, row "0050010000000000ffcf010000000000");
  (0x7b0, row "00000000000000004f0045004d000000");
  (0x7c0, row "00000000000000000000000000000000");
  (0x7d0, row "00000000000000000000000000000000");
  (0x7e0, row "00000000000000000000000000000000");
  (0x7f0, row "00000000000000000000000000000000");
  (0x800, row "3d750a2e489eb0438337b15192cb1b5e");
  (0x810, row "ed983a513ec44a148398a47a7e6ae42c");
  (0x820, row "42400000000000004240000000000000");
  (0x830, row "00000000000000007200650073006500");
  (0x840, row "72007600650064000000000000000000");
  (0x850, row "00000000000000000000000000000000");
  (0x860, row "00000000000000000000000000000000");
  (0x870, row "00000000000000000000000000000000");
  (0x880, row "3d750a2e489eb0438337b15192cb1b5e");
  (0x890, row "4e1b877f7a174a85acc4104f45df345a");
  (0x8a0, row "43400000000000004340000000000000");
  (0x8b0, row "00000000000000007200650073006500");
  (0x8c0, row "72007600650064000000000000000000");
  (0x8d0, row "00000000000000000000000000000000");
  (0x8e0, row "00000000000000000000000000000000");
  (0x8f0, row "00000000000000000000000000000000");
  (0x900, row "8ee8b6caf3ab0241a07ad4bb9be3c1d3");
  (0x910, row "6389fd96807c479e8f8512dccbf775e0");
  (0x920, row "40000000000000003f40000000000000");
  (0x930, row "00000000000000005200570046005700");
  (0x940, row "00000000000000000000000000000000");
  (0x950, row "00000000000000000000000000000000");
  (0x960, row "00000000000000000000000000000000");
  (0x970, row "00000000000000000000000000000000");
  (0x980, row "28732ac11ff8d211ba4b00a0c93ec93b");
  (0x990, row "4bf36386276849eea8b0ea1128f31707");
  (0x9a0, row "00d0030000000000ff4f040000000000");
  (0x9b0, row "00000000000000004500460049002d00");
  (0x9c0, row "530059005300540045004d0000000000");
  (0x9d0, row "00000000000000000000000000000000");
  (0x9e0, row "00000000000000000000000000000000");
  (0x9f0, row "00000000000000000000000000000000");
  (0xa00, row "00000000000000000000000000000000")].

(** The backup table. *)
Definition block_backup : list (Z * bytes) := [
  (0x879f7e00, row "4546492050415254000001005c000000");
  (0x879f7e10, row "b7089be700000000bfcf430000000000");
  (0x879f7e20, row "01000000000000002200000000000000");
  (0x879f7e30, row "9ecf4300000000002d1ed4baef934ab0");
  (0x879f7e40, row "846e2e3a6a2d73bf9fcf430000000000");
  (0x879f7e50, row "8000000080000000578e728d00000000");
  (0x879f7e60, row "00000000000000000000000000000000");
  (0x879f3e00, row "a2a0d0ebe5b9334487c068b6b72699c7");
  (0x879f3e10, row "936b59aaa8eb42e0bb1c500b2846db57");
  (0x879f3e20, row "00e0420000000000ff4f430000000000");
  (0x879f3e30, row "00000000000000005300540041005400");
  (0x879f3e40, row "45000000000000000000000000000000");
  (0x879f3e50, row "00000000000000000000000000000000");
  (0x879f3e80, row "5d2a3afe324fa741b725accc3285a309");
  (0x879f3e90, row "4895a318f96342d2a3cbb890bc137b0a");
  (0x879f3ea0, row "0050000000000000ffcf000000000000");
  (0x879f3eb0, row "000000000000ff014b00450052004e00");
  (0x879f3ec0, row "2d004100000000000000000000000000");
  (0x879f3ed0, row "00000000000000000000000000000000");
  (0x879f3f00, row "02e2b83c7e3bdd478a3c7ff2a13cfcec");
  (0x879f3f10, row "bec58b8ba66f4147b73041a4c5c7f60e");
  (0x879f3f20, row "0060040000000000ffdf420000000000");
  (0x879f3f30, row "000000000000000052004f004f005400");
  (0x879f3f40, row "2d004100000000000000000000000000");
  (0x879f3f50, row "00000000000000000000000000000000");
  (0x879f3f80, row "5d2a3afe324fa741b725accc3285a309");
  (0x879f3f90, row "b3c43d6a77364bde85d9d67420ca70c3");
  (0x879f3fa0, row "00d0000000000000ff4f010000000000");
  (0x879f3fb0, row "00000000000000004b00450052004e00");
  (0x879f3fc0, row "2d004200000000000000000000000000");
  (0x879f3fd0, row "00000000000000000000000000000000");
  (0x879f4000, row "02e2b83c7e3bdd478a3c7ff2a13cfcec");
  (0x879f4010, row "6627cf6ef8bc4147936b1e24c6a12697");
  (0x879f4020, row "0050040000000000ff5f040000000000");
  (0x879f4030, row "000000000000000052004f004f005400");
  (0x879f4040, row "2d004200000000000000000000000000");
  (0x879f4050, row "00000000000000000000000000000000");
  (0x879f4080, row "5d2a3afe324fa741b725accc3285a309");
  (0x879f4090, row "fc725f08d1e947d88c215118e4a51c36");
  (0x879f40a0, row "40400000000000004040000000000000");
  (0x879f40b0, row "00000000000000004b00450052004e00");
  (0x879f40c0, row "2d004300000000000000000000000000");
  (0x879f40d0, row "00000000000000000000000000000000");
  (0x879f4100, row "02e2b83c7e3bdd478a3c7ff2a13cfcec");
  (0x879f4110, row "9cf5a0ceea6a4f00bd17e337f8ddacf0");
  (0x879f4120, row "41400000000000004140000000000000");
  (0x879f4130, row "000000000000000052004f004f005400");
  (0x879f4140, row "2d004300000000000000000000000000");
  (0x879f4150, row "00000000000000000000000000000000");
  (0x879f4180, row "a2a0d0ebe5b9334487c068b6b72699c7");
  (0x879f4190, row "cad77c50953245d3bc96261eef63ef07");
  (0x879f41a0, row "0050010000000000ffcf010000000000");
  (0x879f41b0, row "00000000000000004f0045004d000000");
  (0x879f41c0, row "00000000000000000000000000000000");
  (0x879f4200, row "3d750a2e489eb0438337b15192cb1b5e");
  (0x879f4210, row "ed983a513ec44a148398a47a7e6ae42c");
  (0x879f4220, row "42400000000000004240000000000000");
  (0x879f4230, row "00000000000000007200650073006500");
  (0x879f4240, row "72007600650064000000000000000000");
  (0x879f4250, row "00000000000000000000000000000000");
  (0x879f4280, row "3d750a2e489eb0438337b15192cb1b5e");
  (0x879f4290, row "4e1b877f7a174a85acc4104f45df345a");
  (0x879f42a0, row "43400000000000004340000000000000");
  (0x879f42b0, row "00000000000000007200650073006500");
  (0x879f42c0, row "72007600650064000000000000000000");
  (0x879f42d0, row "00000000000000000000000000000000");
  (0x879f4300, row "8ee8b6caf3ab0241a07ad4bb9be3c1d3");
  (0x879f4310, row "6389fd96807c479e8f8512dccbf775e0");
  (0x879f4320, row "40000000000000003f40000000000000");
  (0x879f4330, row "00000000000000005200570046005700");
  (0x879f4340, row "00000000000000000000000000000000");
  (0x879f4380, row "28732ac11ff8d211ba4b00a0c93ec93b");
  (0x879f4390, row "4bf36386276849eea8b0ea1128f31707");
  (0x879f43a0, row "00d0030000000000ff4f040000000000");
  (0x879f43b0, row "00000000000000004500460049002d00");
  (0x879f43c0, row "530059005300540045004d0000000000");
  (0x879f43d0, row "00000000000000000000000000000000")].

Definition block : list (Z * bytes) := block_boot ++ block_parts ++ block_backup.

(** [n] bytes of the disk from [base] on; what is not in a row is zero. *)
Definition region (base n : Z) : bytes :=
  foldl (fun d '(o, r) => if (base <=? o) && (o + 16 <=? base + n) then splice d (Z.to_nat (o - base)) r else d)
    (replicate (Z.to_nat n) x00) block.

(** ** The disk *)

(** [InstallGPT] of the tests: the rows copied to a disk. *)
Definition install (d : disk) : disk := foldl (fun d '(o, r) => splice d (Z.to_nat o) r) d block.

(** A row is either in the region or outside of it. *)
Definition separated (base n : Z) (e : Z * bytes) : bool :=
  let '(o, r) := e in
  (0 <=? o) && (length r =? 16)%nat && ((base <=? o) && (o + 16 <=? base + n) || (o + 16 <=? base) || (base + n <=? o)).

Lemma field_splice_inside l o b base n :
  (base <= o)%nat -> (o + length b <= base + n)%nat -> (base + n <= length l)%nat ->
  field (splice l o b) base n = splice (field l base n) (o - base) b.
Proof.
  intros H1 H2 H3. unfold field, splice.
  rewrite drop_app_le by (rewrite length_take; lia). rewrite skipn_firstn_comm.
  rewrite take_app_ge by (rewrite length_take, length_drop; lia). rewrite length_take, length_drop.
  rewrite take_take. rewrite !Nat.min_l by lia. f_equal.
  rewrite take_app_ge by lia. f_equal. rewrite skipn_firstn_comm, drop_drop. f_equal; [lia|]. f_equal. lia.
Qed.

(** What is in a region of the disk does not depend on the rest of it. *)
Lemma field_installed rows (d : disk) (acc : bytes) base n :
  0 <= base -> 0 <= n -> (Z.to_nat base + Z.to_nat n <= length d)%nat ->
  Forall (fun e => (Z.to_nat e.1 + 16 <= length d)%nat) rows -> forallb (separated base n) rows = true ->
  field d (Z.to_nat base) (Z.to_nat n) = acc ->
  field (foldl (fun d '(o, r) => splice d (Z.to_nat o) r) d rows) (Z.to_nat base) (Z.to_nat n) =
  foldl (fun d '(o, r) => if (base <=? o) && (o + 16 <=? base + n) then splice d (Z.to_nat (o - base)) r else d) acc rows.
Proof.
  intros Hb Hn0. revert d acc. induction rows as [|[o r] rows IH]; intros d acc Hl Hr Hs E; [done|].
  apply Forall_cons in Hr as [Ho Hr]. cbn [forallb fst] in *. apply andb_prop in Hs as [Hs1 Hs].
  unfold separated in Hs1. apply andb_prop in Hs1 as [Hs1 Hin]. apply andb_prop in Hs1 as [H0 H16].
  apply Z.leb_le in H0. apply Nat.eqb_eq in H16. cbn [foldl].
  assert (length (splice d (Z.to_nat o) r) = length d) as El by (apply length_splice; lia).
  apply IH; [lia|by rewrite El|done|]. destruct ((base <=? o) && (o + 16 <=? base + n)) eqn:Ein.
  - apply andb_prop in Ein as [E1%Z.leb_le E2%Z.leb_le]. rewrite field_splice_inside by lia. rewrite E. f_equal. lia.
  - cbn [orb] in Hin. rewrite <- E. apply field_splice_other; [lia|].
    apply orb_prop in Hin as [E1%Z.leb_le|E1%Z.leb_le]; [right|left]; lia.
Qed.

#[local] Instance part_ok_dec p : Decision (part_ok p).
Proof. unfold part_ok, uints. apply _. Defined.
#[local] Instance header_ok_dec h : Decision (header_ok h).
Proof. unfold header_ok, uints. apply _. Defined.

(** The tables as they lie on the disk: a header at a block, entries of 128 bytes from a block on. *)
Definition table_of (header entries : bytes) : GPT :=
  MkGPT (header_Read header) (part_Read <$> chunks part_bytes entries).

Definition backup_at : Z := 0x879f3e00.

(** The blocks of both tables, computed from the rows. *)
Definition primary_blocks : bytes := Eval vm_compute in region 0 0x4400.
Definition backup_blocks : bytes := Eval vm_compute in region backup_at 0x4200.

Lemma primary_blocks_region : region 0 0x4400 = primary_blocks.
Proof. vm_compute. reflexivity. Qed.

Lemma backup_blocks_region : region backup_at 0x4200 = backup_blocks.
Proof. vm_compute. reflexivity. Qed.

Definition primary : GPT := Eval vm_compute in table_of (field primary_blocks 0x200 92) (field primary_blocks (Z.to_nat 0x400) (Z.to_nat 0x4000)).
Definition backup : GPT := Eval vm_compute in table_of (field backup_blocks (Z.to_nat 0x4000) 92) (field backup_blocks 0 (Z.to_nat 0x4000)).

(** The size of the disk of the tests, 4 GiB. *)
Definition disk_size : Z := 0x100000000.
Definition test_disk : disk := install (replicate (Z.to_nat disk_size) x00).

(** The header of [gpt_test.go]. *)
Definition test_header : Header :=
  MkHeader Signature Revision HeaderSize 0x22519292 0 1 0x43cfbf 0x22 0x43cf9e
    (row "2d1ed4baef934ab0846e2e3a6a2d73bf") 2 MaxNPart 0x80 0x8d728e57.

Definition checked (g : GPT) : bool :=
  bool_decide (header_ok (Header_ g)) && bool_decide (Forall part_ok (Parts g)) &&
  bool_decide (h_Signature (Header_ g) = Signature) && bool_decide (h_Revision (Header_ g) = Revision) &&
  bool_decide (h_HeaderSize (Header_ g) = HeaderSize) &&
  bool_decide (zlen (Parts g) = h_NPart (Header_ g)) && (h_NPart (Header_ g) <=? MaxNPart) &&
  (Z.of_nat part_bytes <=? h_PartSize (Header_ g)) && (array_size g <? 2 ^ 32) &&
  bool_decide (h_PartCRC (Header_ g) = ChecksumIEEE (array g)) &&
  bool_decide (h_CRC (Header_ g) = ChecksumIEEE (header_Write (set_CRC 0 (Header_ g)))).

Lemma checked_ok g : checked g = true -> gpt_ok g /\ sealed g.
Proof.
  unfold checked. rewrite !andb_true_iff, !bool_decide_eq_true, !Z.leb_le, Z.ltb_lt. intros H. destruct_and! H.
  split; [by constructor|by split].
Qed.

Lemma primary_checked : checked primary = true.
Proof. vm_compute. reflexivity. Qed.

Lemma backup_checked : checked backup = true.
Proof. vm_compute. reflexivity. Qed.

(** ** The regions of the test disk *)

Lemma length_installed rows d :
  Forall (fun e => (Z.to_nat e.1 + 16 <= length d)%nat /\ length e.2 = 16%nat) rows ->
  length (foldl (fun d '(o, r) => splice d (Z.to_nat o) r) d rows) = length d.
Proof.
  revert d. induction rows as [|[o r] rows IH]; intros d Hr; [done|]. apply Forall_cons in Hr as [[H1 H2] Hr]. cbn [fst snd] in *.
  cbn [foldl]. assert (length (splice d (Z.to_nat o) r) = length d) as El by (apply length_splice; lia).
  rewrite IH; [done|by rewrite El].
Qed.

Lemma block_fits : Forall (fun e => (Z.to_nat e.1 + 16 <= Z.to_nat disk_size)%nat /\ length e.2 = 16%nat) block.
Proof.
  assert (forallb (fun e => (0 <=? e.1) && (e.1 + 16 <=? disk_size) && (length e.2 =? 16)%nat) block = true) as H by (vm_compute; reflexivity).
  rewrite forallb_forall in H. apply Forall_forall. intros e He%list_elem_of_In. apply H in He.
  rewrite !andb_true_iff, !Z.leb_le, Nat.eqb_eq in He. unfold disk_size in *. lia.
Qed.

Lemma length_test_disk : zlen test_disk = disk_size.
Proof.
  unfold test_disk, install, zlen. rewrite length_installed by (rewrite length_replicate; apply block_fits).
  rewrite length_replicate. unfold disk_size. lia.
Qed.

Lemma test_disk_region base n :
  0 <= base -> 0 <= n -> base + n <= disk_size -> forallb (separated base n) block = true ->
  field test_disk (Z.to_nat base) (Z.to_nat n) = region base n.
Proof.
  intros Hb H0 Hn Hs. unfold test_disk, install, region. unfold disk_size in Hn. apply field_installed; [done|done| | |done|].
  - rewrite length_replicate. unfold disk_size. lia.
  - rewrite length_replicate. eapply Forall_impl; [apply block_fits|]. by intros e [? _].
  - unfold field. rewrite drop_replicate, take_replicate. f_equal. unfold disk_size. lia.
Qed.

(** A table whose header and entries lie in a region of the disk. *)
Definition lies_in (base n : Z) (r : bytes) (g : GPT) : bool :=
  (base <=? header_at g) && (header_at g + HeaderSize <=? base + n) &&
  (base <=? parts_at g) && (parts_at g + array_size g <=? base + n) &&
  bool_decide (field r (Z.to_nat (header_at g - base)) (Z.to_nat HeaderSize) = header_Write (Header_ g)) &&
  bool_decide (field r (Z.to_nat (parts_at g - base)) (Z.to_nat (array_size g)) = array g).

Lemma lies_in_stored d base n r g :
  0 <= base -> 0 <= array_size g -> field d (Z.to_nat base) (Z.to_nat n) = r -> lies_in base n r g = true -> stored d g.
Proof.
  intros Hb Ha <-. unfold lies_in. rewrite !andb_true_iff, !bool_decide_eq_true, !Z.leb_le.
  intros (((((H1 & H2) & H3) & H4) & E1) & E2). unfold stored, disk_field. rewrite <- E1, <- E2. unfold HeaderSize in *.
  split; rewrite field_field by lia; f_equal; lia.
Qed.

Lemma primary_stored : stored test_disk primary.
Proof.
  apply (lies_in_stored _ 0 0x4400 primary_blocks); [lia|apply Z.leb_le; vm_compute; reflexivity| |vm_compute; reflexivity].
  rewrite <- primary_blocks_region. apply test_disk_region; [lia|lia|unfold disk_size; lia|vm_compute; reflexivity].
Qed.

Lemma backup_stored : stored test_disk backup.
Proof.
  apply (lies_in_stored _ backup_at 0x4200 backup_blocks); [unfold backup_at; lia|apply Z.leb_le; vm_compute; reflexivity| |vm_compute; reflexivity].
  rewrite <- backup_blocks_region.
  apply test_disk_region; [unfold backup_at; lia|lia|unfold disk_size, backup_at; lia|vm_compute; reflexivity].
Qed.

Definition within (size : Z) (g : GPT) : bool :=
  (header_at g + HeaderSize <=? size) && (parts_at g + array_size g <=? size) &&
  ((header_at g + HeaderSize <=? parts_at g) || (parts_at g + array_size g <=? header_at g)).

Lemma within_fits d size g : zlen d = size -> size < 2 ^ 63 -> within size g = true -> fits d g.
Proof.
  intros El Hs. unfold within. rewrite !andb_true_iff, orb_true_iff, !Z.leb_le. intros [[H1 H2] H3]. constructor; rewrite ?El; assumption.
Qed.

Lemma test_fits : fits test_disk primary /\ fits test_disk backup.
Proof.
  split; apply (within_fits _ _ _ length_test_disk); [reflexivity|vm_compute; reflexivity|reflexivity|vm_compute; reflexivity].
Qed.

(** On the disk of the Chromebook, 4 GiB with the rows of [data.go], [New] finds the primary table,
    with the header that the tests expect, and the backup, without an error; both have the same
    entries, twelve of them in use. *)
Theorem chromebook_New :
  New test_disk = Ret (Some primary, Some backup, None) /\ Header_ primary = test_header /\
  Parts primary = Parts backup /\ length (filter (fun p => p_FirstLBA p <> 0) (Parts primary)) = 12%nat.
Proof.
  destruct (checked_ok _ primary_checked) as [Hg Sg]. destruct (checked_ok _ backup_checked) as [Hb Sb]. destruct test_fits as [Fg Fb].
  split.
  - apply (New_stored _ _ _ Hg Hb Fg Fb Sg Sb primary_stored backup_stored); [vm_compute; reflexivity..|].
    apply Z.eqb_neq. vm_compute. reflexivity.
  - split_and!; vm_compute; reflexivity.
Qed.

(** ** The cases of [TestGPTTable]: one byte of the header is set to 0xff *)

Definition mangled (k : nat) : disk := splice primary_blocks (0x200 + k) [xff].

Definition table_error (d : disk) : option error := match Table d HeaderOff with Ret (_, e) => e | _ => None end.

Example mangled_revision : table_error (mangled 0x8) = Some (Errorf "%s GPT revision (%x) is not supported value (%x)").
Proof. vm_compute. reflexivity. Qed.
Example mangled_signature : table_error (mangled 0x0) = Some (Errorf "%s GPT signature invalid (%x), needs to be %x").
Proof. vm_compute. reflexivity. Qed.
Example mangled_size : table_error (mangled 0xf) = Some (Errorf "%s GPT HeaderSize (%x) is not supported value (%x)").
Proof. vm_compute. reflexivity. Qed.
Example mangled_count : table_error (mangled 0x51) = Some (Errorf "%s GPT MaxNPart (%x) is above maximum of %x").
Proof. vm_compute. reflexivity. Qed.
Example mangled_parts_crc :
  table_error (mangled 0x59) = Some (Errorf "%s Partition CRC: Header %v, computed checksum is %08x, header has %08x").
Proof. vm_compute. reflexivity. Qed.
Example mangled_crc : table_error (mangled 0x10) = Some (Errorf "%s Header CRC: computed checksum is %08x, header has %08x").
Proof. vm_compute. reflexivity. Qed.
