(* ===== verification/Ed.v ===== *)
(** * The line editor ([cmds/ed])

    The interface [Editor] ([types.go]), its text implementation ([text.go], module [Text])
    and its binary one ([bin.go], module [Bin]), and the command interpreter over the interface
    ([command.go], [ed.go]).  Output goes to any [io.Writer].  [regexp] is a parameter: what
    [Compile] accepts and where the matches of a compiled expression are. *)

From Stdlib Require Import Strings.String.
From S2P Require Export GoUtf8 GoIO.

Definition newline : byte := x0a.

(** ** The interface *)

(** A method that may write to the output sees the editor and the sink. *)
Class Editor (E W : Type) : Type := {
  Dot : E -> Z;
  Move : Z -> E -> E;
  Range : E -> Z * Z;
  Replace : bytes -> Z -> Z -> M E Z;
  Read : outcome error bytes -> Z -> Z -> M E Z;
  Write : Z -> Z -> M (E * W) Z;
  Sub : bytes -> bytes -> bytes -> Z -> Z -> M (E * W) unit;
  Print : Z -> Z -> M (E * W) Z;
  IsDirty : E -> bool;
  Dirty : bool -> E -> E
}.

(** Run a method of the editor alone. *)
Definition on_editor {E W A} (m : M E A) : M (E * W) A := fun '(f, w) =>
  let '(f, r) := m f in ((f, w), r).

Definition with_editor {E W A} (g : E -> A) : M (E * W) A := fun s => (s, Ret (g (fst s))).

Definition update_editor {E W} (g : E -> E) : M (E * W) unit := fun '(f, w) => ((g f, w), Ret tt).

(** [w.Write(b)]. *)
Definition out_Write {E W} `{Writer W} (b : bytes) : M (E * W) Z := fun '(f, w) =>
  match io_Write w b with
  | (w, (n, None)) => ((f, w), Ret n)
  | (w, (_, Some e)) => ((f, w), Fail e)
  end.

(** [fmt.Printf], whose error nobody looks at. *)
Definition printf {E W} `{Writer W} (b : bytes) : M (E * W) unit := fun '(f, w) =>
  let '(w, _) := io_Write w b in ((f, w), Ret tt).

(** [Bytes()] of a [bytes.Buffer]: nil as long as no byte has been written to it. *)
Definition buffer_Bytes (b : bytes) : option bytes := match b with [] => None | _ => Some b end.

(** ** Regular expressions

    A compiled expression: the bounds of its successive matches in a text
    ([FindAllIndex]). *)
Definition matcher := bytes -> list (nat * nat).

(** [ReplaceAllFunc]: the text with each match replaced by what [f] returns for it; [f] may
    keep a state between its calls. *)
Fixpoint replace_matches {S} (f : S -> bytes -> S * bytes) (s : S) (src : bytes) (last : nat)
    (ms : list (nat * nat)) : S * bytes :=
  match ms with
  | [] => (s, drop last src)
  | (a, b) :: ms =>
      let '(s, r) := f s (take (b - a) (drop a src)) in
      let '(s, rest) := replace_matches f s src b ms in
      (s, take (a - last) (drop last src) ++ r ++ rest)
  end.

Definition ReplaceAllFunc {S} (m : matcher) (src : bytes) (f : S -> bytes -> S * bytes) (s : S) : S * bytes :=
  replace_matches f s src 0 (m src).

(** ** Lines *)

(** [makeLines]: the loop, with the bytes since [pos] in [cur]. *)
Fixpoint makeLines_loop (sawnl : bool) (cur n : bytes) : list bytes :=
  match n with
  | [] => [cur]
  | c :: n =>
      if sawnl then cur :: makeLines_loop (byte_eqb c newline) [c] n
      else makeLines_loop (byte_eqb c newline) (cur ++ [c]) n
  end.

Definition makeLines (n : bytes) : list bytes :=
  match n with [] => [] | _ => makeLines_loop false [] n end.

Module Text.

(** [data] is nil in a new editor and after [Replace] has removed everything. *)
Record file := MkFile { dot : Z; dirty : bool; lines : list Z; data : option bytes }.

Definition file0 : file := MkFile 0 false [] None.

Definition text (f : file) : bytes := default [] (data f).

(** The loop of [fixLines]: the offsets at which a line starts, after the first. *)
Fixpoint starts (sawnl : bool) (i : Z) (d : bytes) : list Z :=
  match d with
  | [] => []
  | v :: d => (if sawnl then [i] else []) ++ starts (byte_eqb v newline) (i + 1) d
  end.

Definition line_starts (d : bytes) : list Z :=
  match d with [] => [] | _ => 0 :: starts false 0 d end.

Definition fixLines (f : file) : file :=
  match text f with
  | [] => MkFile (dot f) (dirty f) [] (data f)
  | d =>
      let ls := line_starts d in
      let n := zlen ls in
      let dt := if dot f <? 1 then 1 else dot f in
      let dt := if n <? dt then n else dt in
      MkFile dt (dirty f) ls (data f)
  end.

Definition SliceX (f : file) (startLine endLine : Z) : outcome error (Z * Z) :=
  if zlen (lines f) <? startLine then Ret (zlen (text f), zlen (text f))
  else
    start ← (if 0 <? startLine then or_panic (zindex (lines f) (startLine - 1)) else Ret 0);
    let endLine := if endLine <? startLine then startLine else endLine in
    if bool_decide (endLine <> startLine) then
      if zlen (lines f) <=? endLine then Ret (start, zlen (text f))
      else e ← or_panic (zindex (lines f) (endLine - 1)); Ret (start, e)
    else Ret (start, start).

Definition Slice (f : file) (startLine endLine : Z) : outcome error (bytes * Z * Z) :=
  '(s, e) ← SliceX f startLine endLine;
  b ← or_panic (slice (text f) s e);
  Ret (b, s, e).

Definition put_data (d : option bytes) (f : file) : file := MkFile (dot f) (dirty f) (lines f) d.
Definition set_data (d : bytes) (f : file) : file := put_data (Some d) f.

Definition f_Replace (n : bytes) (startLine endLine : Z) : M file Z := fun f =>
  match data f with
  | Some d =>
      match '(start, e) ← SliceX f startLine endLine;
            pre ← or_panic (slice d 0 start);
            post ← or_panic (slice d e (zlen d)); Ret (pre ++ n ++ post) with
      | Ret d => (fixLines (put_data (buffer_Bytes d) f), Ret (zlen n))
      | Fail e => (f, Fail e)
      | Panic => (f, Panic)
      end
  | None => (fixLines (set_data n f), Ret (zlen n))
  end.

Definition f_Read (r : outcome error bytes) (startLine endLine : Z) : M file Z :=
  d ← lift r;
  f_Replace d (i64 (startLine + 1)) endLine.

Definition f_Range (f : file) : Z * Z :=
  match lines f with [] => (0, 0) | _ => (1, zlen (lines f)) end.

Definition f_Move (d : Z) (f : file) : file := MkFile d (dirty f) (lines f) (data f).
Definition f_Dirty (b : bool) (f : file) : file := MkFile (dot f) b (lines f) (data f).

Section Output.
Context {W : Type} `{Writer W} (Compile : bytes -> matcher + error).

Definition f_Write (startLine endLine : Z) : M (file * W) Z :=
  f ← with_editor id;
  if (endLine <? startLine) || (startLine <? 1) || (zlen (lines f) + 1 <? endLine) then
    raise (Errorf "file is %d lines and [start, end] is [%d, %d]")
  else
    '(start, e) ← lift (SliceX f startLine endLine);
    b ← lift (or_panic (slice (text f) start e));
    out_Write b.

Definition f_Print (start e : Z) : M (file * W) Z := fun s =>
  match f_Write start e s with
  | ((f, w), Fail err) => ((if start <? e then f_Move (i64 (e + 1)) f else f, w), Fail err)
  | other => other
  end.

(** The replacement function of [Sub]: the state is whether this line has had one. *)
Definition sub_one (g : bool) (n : bytes) (replaced : bool) (o : bytes) : bool * bytes :=
  if g || negb replaced then (true, n) else (replaced, o).

(** All lines, with whether anything was replaced. *)
Fixpoint sub_lines (m : matcher) (g : bool) (n : bytes) (b : list bytes) : bool * list bytes :=
  match b with
  | [] => (false, [])
  | l :: b =>
      let '(r, l) := ReplaceAllFunc m l (sub_one g n) false in
      let '(r', b) := sub_lines m g n b in (r || r', l :: b)
  end.

Definition f_Sub (re n opt : bytes) (startLine endLine : Z) : M (file * W) unit :=
  if bytes_eqb re [] then raise (Errorf "Empty RE")
  else
    r ← match Compile re with inl r => mret r | inr e => raise e end;
    f ← with_editor id;
    '(o, start, e) ← lift (Slice f startLine endLine);
    match makeLines o with
    | [] => mret tt
    | b =>
        let '(replaced, b) := sub_lines r (in_set opt x67) n b in
        pre ← lift (or_panic (slice (text f) 0 start));
        post ← lift (or_panic (slice (text f) e (zlen (text f))));
        _ ← update_editor (fun f => fixLines (set_data (pre ++ concat b ++ post)
                                                       (f_Dirty (dirty f || replaced) f)));
        if in_set opt x70 then _ ← f_Write startLine endLine; mret tt else mret tt
    end.

#[export] Instance text_Editor : Editor file W := {|
  Dot := dot; Move := f_Move; Range := f_Range; Replace := f_Replace; Read := f_Read;
  Write := f_Write; Sub := f_Sub; Print := f_Print; IsDirty := dirty; Dirty := f_Dirty |}.
End Output.
End Text.

Module Bin.

Record bin := MkBin { dot : Z; dirty : bool; data : option bytes }.

Definition bin0 : bin := MkBin 0 false None.

Definition text (f : bin) : bytes := default [] (data f).

Definition put_data (d : option bytes) (f : bin) : bin := MkBin (dot f) (dirty f) d.
Definition set_data (d : bytes) (f : bin) : bin := put_data (Some d) f.
Definition b_Move (d : Z) (f : bin) : bin := MkBin d (dirty f) (data f).
Definition b_Dirty (b : bool) (f : bin) : bin := MkBin (dot f) b (data f).
Definition b_Range (f : bin) : Z * Z := (0, zlen (text f)).

(** The slice expressions with an upper bound reach into the spare capacity of the data
    slice, the bytes [spare] past its length. *)
Definition b_Replace (spare n : bytes) (start e : Z) : M bin Z := fun f =>
  match data f with
  | Some d =>
      match pre ← or_panic (slice (d ++ spare) 0 start);
            post ← or_panic (slice d e (zlen d)); Ret (pre ++ n ++ post) with
      | Ret d => (put_data (buffer_Bytes d) f, Ret (zlen n))
      | Fail e => (f, Fail e)
      | Panic => (f, Panic)
      end
  | None => (set_data n f, Ret (zlen n))
  end.

Definition b_Read (spare : bytes) (r : outcome error bytes) (start e : Z) : M bin Z :=
  d ← lift r;
  b_Replace spare d start e.

(** The verbs [%08x] and [%02x]. *)
Definition hex_pad (width : nat) (z : Z) : bytes :=
  let h := hex_encode (be_bytes 8 z) in
  let digits := TrimLeft h [x30] in
  replicate (width - length digits) x30 ++ digits.

Definition printable (c : byte) : byte := if (b2z c <? 32) || (126 <? b2z c) then x2e else c.

Section Output.
Context {W : Type} `{Writer W} (spare : bytes).

(** One [Fprintf] per item. *)
Fixpoint printf_all (bs : list bytes) : M (bin * W) unit :=
  match bs with [] => mret tt | b :: bs => _ ← printf b; printf_all bs end.

Definition b_Write (start e : Z) : M (bin * W) Z :=
  f ← with_editor id;
  if (e <? start) || (start <? 0) || (zlen (text f) <? e) then
    raise (Errorf "file is %d lines and [start, end] is [%d, %d]")
  else
    b ← lift (or_panic (slice (text f) start e));
    out_Write b.

(** The loop of [Print]: one row for each of the next [n] sixteens. *)
Fixpoint print_rows (d : bytes) (l e : Z) (n : nat) : M (bin * W) unit :=
  match n with
  | O => mret tt
  | S n =>
      if l <? e then
        _ ← printf (hex_pad 8 l ++ [x20]);
        row ← lift (or_panic (slice d l (Z.min e (l + 16))));
        _ ← printf_all ((fun c => hex_pad 2 (b2z c) ++ [x20]) <$> row);
        _ ← printf_all ((fun c => [printable c]) <$> row);
        _ ← printf [newline];
        print_rows d (l + 16) e n
      else mret tt
  end.

Definition b_Print (start e : Z) : M (bin * W) Z :=
  f ← with_editor id;
  let e := if zlen (text f) <? e then zlen (text f) else e in
  _ ← print_rows (text f) start e (Z.to_nat (e - start));
  _ ← update_editor (b_Move e);
  mret (e - start).

(** The two hexadecimal strings as bytes, pair by pair. *)
Fixpoint hex_pairs (l : nat) (x y : bytes) : outcome error (bytes * bytes) :=
  match l with
  | O => Ret ([], [])
  | S l =>
      let '(c, err) := ParseUint (take 2 x) 16 8 in
      match err with
      | Some _ => Fail (Errorf "%s is not a hex number")
      | None =>
          let '(c', err) := ParseUint (take 2 y) 16 8 in
          match err with
          | Some _ => Fail (Errorf "%s is not a hex number")
          | None =>
              '(xb, yb) ← hex_pairs l (drop 2 x) (drop 2 y);
              Ret (z2b c :: xb, z2b c' :: yb)
          end
      end
  end.

(** The substitution loop on [data], from [i], for [n] more positions. *)
Fixpoint sub_bytes (xb yb : bytes) (d : bytes) (i : Z) (n : nat) : outcome error bytes :=
  match n with
  | O => Ret d
  | S n =>
      o ← or_panic (slice (d ++ spare) i (i + zlen xb));
      if bytes_eqb o xb then
        rest ← or_panic (slice d i (zlen d));
        sub_bytes xb yb (take (Z.to_nat i) d ++ take (length rest) yb ++ drop (length yb) rest) (i + 1) n
      else sub_bytes xb yb d (i + 1) n
  end.

Definition b_Sub (x y opt : bytes) (start e : Z) : M (bin * W) unit :=
  f ← with_editor id;
  _ ← lift (or_panic (slice (text f ++ spare) start e));
  if bool_decide (zlen x <> zlen y) then raise (Errorf "For now, old and new must be same len")
  else
    '(xb, yb) ← lift (hex_pairs (length x / 2) x y);
    d ← lift (sub_bytes xb yb (text f) start (Z.to_nat (e - start)));
    update_editor (fun f => match data f with None => f | Some _ => set_data d f end).

#[export] Instance bin_Editor : Editor bin W := {|
  Dot := dot; Move := b_Move; Range := b_Range; Replace := b_Replace spare; Read := b_Read spare;
  Write := b_Write; Sub := b_Sub; Print := b_Print; IsDirty := dirty; Dirty := b_Dirty |}.
End Output.
End Bin.

(** ** Commands *)

(** [^[0-9][0-9]*]. *)
Fixpoint num (l : bytes) : bytes :=
  match l with
  | c :: l => if is_digit c then c :: num l else []
  | [] => []
  end.

(** [^/[^/]/]: a slash, one rune other than a slash, a slash. *)
Definition startsearch (l : bytes) : bytes :=
  match l with
  | c :: rest =>
      let '(r, w) := DecodeRune rest in
      if byte_eqb c x2f && (0 <? w)%nat && negb (r =? 47) && HasPrefix (drop w rest) [x2f]
      then take (2 + w) l else []
  | [] => []
  end.

(** How a command leaves the program. *)
Inductive status := Running | Exited (code : Z).

Section Commands.
Context {E W : Type} `{Editor E W} `{Writer W}.
(** Opening and reading a file, and the text of an error. *)
Context (open : bytes -> bytes + error) (Error : error -> bytes).

(** The error becomes a value, as in [_, err = f.Print(...)]. *)
Definition try {A} (m : M (E * W) A) : M (E * W) (option error) := fun s =>
  match m s with
  | (s, Ret _) => (s, Ret None)
  | (s, Fail e) => (s, Ret (Some e))
  | (s, Panic) => (s, Panic)
  end.

Definition return_err (err : option error) : M (E * W) status :=
  match err with None => mret Running | Some e => raise e end.

Definition blanks : bytes := [x20; x09].

Definition cmd_read (a : bytes) (startLine endLine : Z) : M (E * W) status :=
  match open (TrimLeft a blanks) with
  | inl d => _ ← on_editor (Read (Ret d) startLine endLine); mret Running
  | inr e => raise e
  end.

Definition Command (c : bytes) (startLine endLine : Z) : M (E * W) status :=
  match c with
  | [] =>
      d ← with_editor Dot;
      err ← try (Write d d);
      _ ← update_editor (Move (i64 (endLine + 1)));
      return_err err
  | c0 :: a =>
      b ← with_editor IsDirty;
      if (byte_eqb c0 x71 || byte_eqb c0 x65) && b then
        _ ← update_editor (Dirty false);
        raise (Errorf "f was dirty, no longer is, try again")
      else if byte_eqb c0 x64 then
        _ ← try (on_editor (Replace [] startLine endLine)); mret Running
      else if byte_eqb c0 x71 then mret (Exited 1)
      else if byte_eqb c0 x65 then
        '(_, endLine) ← with_editor Range;
        cmd_read a 0 endLine
      else if byte_eqb c0 x72 then cmd_read a startLine endLine
      else if byte_eqb c0 x73 then
        match a with
        | [] => lift Panic
        | sep :: rest =>
            match SplitN sep 3 rest with
            | [o0; o1; o2] => _ ← Sub o0 o1 o2 startLine endLine; mret Running
            | _ => lift Panic
            end
        end
      else if byte_eqb c0 x77 then _ ← Write startLine endLine; mret Running
      else if byte_eqb c0 x70 then
        _ ← printf (str "what the shit");
        err ← try (Print startLine endLine);
        _ ← printf (str "shiw " ++ match err with None => str "<nil>" | Some e => Error e end);
        return_err err
      else raise (Errorf "%c: unknown command")
  end.

(** The number at the start of a line. *)
Definition line_number (n : bytes) : outcome error Z :=
  match Atoi n with
  | (v, None) => Ret v
  | (_, Some _) => Fail (Errorf "strconv.Atoi: parsing %q: value out of range")
  end.

(** The start address: the start line and the rest of the command. *)
Definition start_address (l : bytes) : M (E * W) (Z * bytes) :=
  d ← with_editor Dot;
  match l with
  | [] => mret (d, l)
  | l0 :: l1 =>
      if byte_eqb l0 x2e then mret (d, l1)
      else if byte_eqb l0 x24 then
        '(_, e) ← with_editor Range;
        _ ← update_editor (Move e);
        d ← with_editor Dot;
        mret (d, l1)
      else match startsearch l with
      | (_ :: _) as pat => mret (d, drop (length pat) l)
      | [] =>
          match num l with
          | [] => mret (d, l)
          | n => v ← lift (line_number n);
                 _ ← update_editor (Move v); mret (v, drop (length n) l)
          end
      end
  end.

(** The end address after a comma. *)
Definition end_address (l : bytes) : M (E * W) (Z * bytes) :=
  d ← with_editor Dot;
  match l with
  | c :: l =>
      if byte_eqb c x2c then
        match l with
        | [] => raise (Errorf "line ended at a ,?")
        | l0 :: l1 =>
            if byte_eqb l0 x2e then mret (d, l1)
            else if byte_eqb l0 x24 then '(_, e) ← with_editor Range; mret (e, l1)
            else match startsearch l with
            | _ :: _ => mret (d, l)
            | [] =>
                match num l with
                | [] => mret (d, l)
                | n => v ← lift (line_number n); mret (v, drop (length n) l)
                end
            end
        end
      else mret (d, c :: l)
  | [] => mret (d, l)
  end.

Definition DoCommand (l : bytes) : M (E * W) status :=
  match l with
  | [] =>
      d ← with_editor Dot;
      err ← try (Write d d);
      d ← with_editor Dot;
      _ ← update_editor (Move (i64 (d + 1)));
      return_err err
  | _ =>
      '(startLine, l) ← start_address l;
      '(endLine, l) ← end_address l;
      Command l startLine (i64 (endLine + 1))
  end.

(** The loop of [main]: an error is logged and the next line read. *)
Fixpoint ed_loop (ls : list bytes) : M (E * W) status :=
  match ls with
  | [] => mret Running
  | l :: ls => fun s =>
      match DoCommand l s with
      | (s, Ret Running) | (s, Fail _) => ed_loop ls s
      | other => other
      end
  end.
End Commands.

(** [NewTextEditor(readFile(n))] and [NewBinEditor(readFile(n))]. *)
Definition NewTextEditor (arg : option (outcome error bytes)) : outcome error Text.file :=
  match arg with
  | None => Ret (Text.f_Move 1 Text.file0)
  | Some r =>
      match Text.f_Read r 0 0 Text.file0 with
      | (f, Ret _) => Ret (Text.f_Move 1 f)
      | (_, Fail e) => Fail e
      | (_, Panic) => Panic
      end
  end.

Definition NewBinEditor (arg : option (outcome error bytes)) : outcome error Bin.bin :=
  match arg with
  | None => Ret (Bin.b_Move 0 Bin.bin0)
  | Some r =>
      match Bin.b_Read [] r 0 0 Bin.bin0 with
      | (f, Ret _) => Ret (Bin.b_Move 0 f)
      | (_, Fail e) => Fail e
      | (_, Panic) => Panic
      end
  end.

(** ** Lines of a text *)

Lemma elem_of_drop_weak {A} n (l : list A) x : x ∈ drop n l -> x ∈ l.
Proof. intros Hx. rewrite <- (take_drop n l). apply elem_of_app. by right. Qed.

(** A line: its line feed is its last byte. *)
Definition is_line (l : bytes) : Prop := exists b, l = b ++ [newline] /\ newline ∉ b.

Lemma makeLines_loop_concat sawnl cur n : concat (makeLines_loop sawnl cur n) = cur ++ n.
Proof.
  revert sawnl cur. induction n as [|c n IH]; intros sawnl cur; simpl; [done|].
  destruct sawnl; simpl; rewrite IH; [done|by rewrite <- app_assoc].
Qed.

Lemma makeLines_concat n : concat (makeLines n) = n.
Proof. destruct n; [done|]. apply makeLines_loop_concat. Qed.

Lemma makeLines_loop_lines cur n (sawnl : bool) :
  (if sawnl then is_line cur else newline ∉ cur) -> cur <> [] \/ n <> [] ->
  exists front l, makeLines_loop sawnl cur n = front ++ [l] /\ Forall is_line front /\
    l <> [] /\ (newline ∉ l \/ is_line l).
Proof.
  revert sawnl cur. induction n as [|c n IH]; intros sawnl cur Hcur Hne; simpl.
  - exists [], cur. split_and!; [done|constructor|by destruct Hne|]. destruct sawnl; auto.
  - assert (forall cur', newline ∉ cur' ->
      (if byte_eqb c newline then is_line (cur' ++ [c]) else newline ∉ cur' ++ [c])) as Hnext.
    { intros cur' Hc'. destruct (byte_eqb c newline) eqn:E.
      - apply byte_eqb_eq in E as ->. by exists cur'.
      - apply byte_eqb_neq in E. rewrite elem_of_app. set_solver. }
    destruct sawnl.
    + destruct (IH (byte_eqb c newline) [c]) as (front & l & -> & Hf & Hl).
      * apply (Hnext []). set_solver.
      * by left.
      * exists (cur :: front), l. split; [done|]. split; [by constructor|done].
    + destruct (IH (byte_eqb c newline) (cur ++ [c])) as (front & l & -> & Hf & Hl).
      * by apply Hnext.
      * left. by intros [_ ?]%app_eq_nil.
      * exists front, l. done.
Qed.

(** The offsets at which lines start. *)
Fixpoint offsets (p : Z) (ls : list bytes) : list Z :=
  match ls with [] => [] | l :: ls => p :: offsets (p + zlen l) ls end.

Lemma offsets_starts sawnl p cur n :
  offsets p (makeLines_loop sawnl cur n) = p :: Text.starts sawnl (p + zlen cur) n.
Proof.
  revert sawnl p cur. induction n as [|c n IH]; intros sawnl p cur; simpl; [done|].
  destruct sawnl; simpl; rewrite IH; do 2 f_equal; zl.
Qed.

Lemma line_starts_offsets d : Text.line_starts d = offsets 0 (makeLines d).
Proof. destruct d; [done|]. unfold makeLines. by rewrite offsets_starts. Qed.

Lemma length_offsets p ls : length (offsets p ls) = length ls.
Proof. revert p. induction ls as [|l ls IH]; intros p; simpl; [done|]. by rewrite IH. Qed.

Lemma lookup_offsets p ls i :
  (i < length ls)%nat -> offsets p ls !! i = Some (p + zlen (concat (take i ls))).
Proof.
  revert p i. induction ls as [|l ls IH]; intros p i Hi; simpl in *; [lia|].
  destruct i as [|i]; simpl; [by rewrite zlen_nil, Z.add_0_r|].
  rewrite IH by lia. f_equal. zl.
Qed.

(** Where line [i] (from 0) starts. *)
Definition line_off (d : bytes) (i : Z) : Z := zlen (concat (take (Z.to_nat i) (makeLines d))).

Lemma line_off_range d i : 0 <= line_off d i <= zlen d.
Proof.
  unfold line_off. split; [apply zlen_nonneg|].
  rewrite <- (makeLines_concat d) at 2. rewrite <- (take_drop (Z.to_nat i) (makeLines d)) at 2.
  rewrite concat_app, zlen_app. pose proof (zlen_nonneg (concat (drop (Z.to_nat i) (makeLines d)))). lia.
Qed.

Lemma line_off_mono d i j : i <= j -> line_off d i <= line_off d j.
Proof.
  intros Hij. unfold line_off.
  replace (take (Z.to_nat i) (makeLines d)) with (take (Z.to_nat i) (take (Z.to_nat j) (makeLines d)))
    by (rewrite take_take; f_equal; lia).
  generalize (take (Z.to_nat j) (makeLines d)) as ls. intros ls.
  rewrite <- (take_drop (Z.to_nat i) ls) at 2. rewrite concat_app, zlen_app.
  pose proof (zlen_nonneg (concat (drop (Z.to_nat i) ls))). lia.
Qed.

(** Cutting a text at a line. *)
Lemma take_line_off d i : take (Z.to_nat (line_off d i)) d = concat (take (Z.to_nat i) (makeLines d)).
Proof.
  unfold line_off, zlen. rewrite Nat2Z.id. rewrite <- (makeLines_concat d) at 2.
  rewrite <- (take_drop (Z.to_nat i) (makeLines d)) at 2. by rewrite concat_app, take_app_length.
Qed.

Lemma drop_line_off d i : drop (Z.to_nat (line_off d i)) d = concat (drop (Z.to_nat i) (makeLines d)).
Proof.
  unfold line_off, zlen. rewrite Nat2Z.id. rewrite <- (makeLines_concat d) at 2.
  rewrite <- (take_drop (Z.to_nat i) (makeLines d)) at 2. by rewrite concat_app, drop_app_length.
Qed.

Module TextFacts.
Import Text.

(** The line table belongs to the data. *)
Definition wf (f : file) : Prop := lines f = line_starts (text f).

Lemma wf_fixLines f : wf (fixLines f).
Proof. unfold wf, fixLines. destruct (text f) eqn:E; cbn; unfold text in *; cbn; by rewrite E. Qed.

Lemma text_fixLines f : text (fixLines f) = text f.
Proof. unfold fixLines. destruct (text f) eqn:E; unfold text in *; cbn; by rewrite E. Qed.

Lemma zlen_lines f : wf f -> zlen (lines f) = zlen (makeLines (text f)).
Proof. intros ->. rewrite line_starts_offsets. unfold zlen. by rewrite length_offsets. Qed.

Lemma lines_lookup f i :
  wf f -> 0 <= i < zlen (lines f) -> zindex (lines f) i = Some (line_off (text f) i).
Proof.
  intros Hw Hi. rewrite zlen_lines in Hi by done. unfold zindex. rewrite bool_decide_eq_true_2 by lia.
  rewrite Hw, line_starts_offsets, lookup_offsets by (unfold zlen in Hi; lia). by rewrite Z.add_0_l.
Qed.

(** Line numbers [SliceX] can take; what the interpreter passes satisfies it. *)
Definition lines_ok (s e : Z) : Prop := 0 <= s \/ 1 <= e \/ e <= s.

(** The bounds of a range of lines. *)
Lemma SliceX_ok f s e :
  wf f -> lines_ok s e ->
  exists a b, SliceX f s e = Ret (a, b) /\ 0 <= a <= b /\ b <= zlen (text f).
Proof.
  intros Hw Hs. unfold SliceX. pose proof (zlen_nonneg (text f)).
  destruct (Z.ltb_spec (zlen (lines f)) s); [do 2 eexists; split; [done|lia]|].
  assert (exists a, (if 0 <? s then or_panic (E := error) (zindex (lines f) (s - 1)) else Ret 0) = Ret a /\
    0 <= a <= zlen (text f) /\ a <= line_off (text f) (s - 1)) as (a & -> & Ha & Hao).
  { destruct (Z.ltb_spec 0 s).
    - rewrite (lines_lookup f (s - 1)) by (done || lia). exists (line_off (text f) (s - 1)).
      split; [done|]. pose proof (line_off_range (text f) (s - 1)). lia.
    - exists 0. split; [done|]. pose proof (line_off_range (text f) (s - 1)). lia. }
  unfold mbind, outcome_bind. set (e' := if e <? s then s else e).
  assert (s <= e') by (unfold e'; destruct (Z.ltb_spec e s); lia).
  case_bool_decide; [|do 2 eexists; split; [done|lia]].
  destruct (Z.leb_spec (zlen (lines f)) e'); [do 2 eexists; split; [done|lia]|].
  assert (0 <= e' - 1) by (unfold lines_ok, e' in *; destruct (Z.ltb_spec e s); lia).
  rewrite lines_lookup by (done || lia). do 2 eexists. split; [done|].
  pose proof (line_off_range (text f) (e' - 1)). pose proof (line_off_mono (text f) (s - 1) (e' - 1) ltac:(lia)). lia.
Qed.

Lemma SliceX_not_Fail f s e err : SliceX f s e <> Fail err.
Proof.
  unfold SliceX, mbind, outcome_bind. destruct (zlen (lines f) <? s); [done|].
  destruct (0 <? s); [destruct (zindex (lines f) (s - 1)); [|done]|]; cbn;
    (case_bool_decide; [|done]); (destruct (zlen (lines f) <=? _); [done|]);
    by destruct (zindex (lines f) _).
Qed.

(** The bounds of lines [s] to [e - 1] (from 1), as [SliceX] computes them: from line [e]
    on it takes the end of the data when [e] is the last line. *)
Lemma SliceX_lines f s e :
  wf f -> 1 <= s -> s < e -> s <= zlen (lines f) ->
  SliceX f s e = Ret (line_off (text f) (s - 1),
                      if zlen (lines f) <=? e then zlen (text f) else line_off (text f) (e - 1)).
Proof.
  intros Hw Hs He Hl. unfold SliceX. destruct (Z.ltb_spec (zlen (lines f)) s); [lia|].
  destruct (Z.ltb_spec 0 s); [|lia]. rewrite (lines_lookup f (s - 1)) by (done || lia).
  unfold mbind, outcome_bind. cbn [or_panic]. destruct (Z.ltb_spec e s); [lia|].
  rewrite bool_decide_eq_true_2 by lia. destruct (Z.leb_spec (zlen (lines f)) e); [done|].
  by rewrite lines_lookup by (done || lia).
Qed.

Lemma Replace_wf n s e f f' r : f_Replace n s e f = (f', r) -> wf f -> wf f'.
Proof.
  unfold f_Replace. destruct (data f); [|by intros [= <- _] _; apply wf_fixLines].
  repeat case_match; intros [= <- _] Hw; try done; apply wf_fixLines.
Qed.

Lemma Replace_no_panic n s e f : wf f -> lines_ok s e -> exists f', f_Replace n s e f = (f', Ret (zlen n)).
Proof.
  intros Hw Hs. unfold f_Replace. destruct (SliceX_ok f s e Hw Hs) as (a & b & E & Hab & Hb).
  destruct (data f) as [d|] eqn:Ed; [|eauto]. unfold text in Hb. rewrite Ed in Hb. cbn in Hb.
  rewrite E. cbn [mbind outcome_bind]. unfold mbind, outcome_bind. rewrite slice_prefix, slice_suffix by lia. eauto.
Qed.
End TextFacts.

(** ** Sessions on a text

    Triples for methods on a text editor: [P] before, [Q] after a return, the line table
    right after an error; a panic only where [allowed]. *)
Section Sessions.
Import Text TextFacts.
Context {W : Type} `{Writer W} (Compile : bytes -> matcher + error)
        (open : bytes -> bytes + error) (Error : error -> bytes) (allowed : Prop).
#[local] Instance ed_here : Editor file W := text_Editor Compile.

Definition triple {A} (P : file -> Prop) (m : M (file * W) A) (Q : A -> file -> Prop) : Prop :=
  forall f w, P f ->
    match m (f, w) with
    | ((f', _), Ret a) => Q a f'
    | ((f', _), Fail _) => wf f'
    | (_, Panic) => allowed
    end.

Lemma triple_bind {A B} P Q R (m : M (file * W) A) (k : A -> M (file * W) B) :
  triple P m Q -> (forall a, triple (Q a) (k a) R) -> triple P (m ≫= k) R.
Proof.
  intros Hm Hk f w Hf. specialize (Hm f w Hf). unfold mbind, M_bind.
  destruct (m (f, w)) as [[f' w'] [a|e|]]; [by apply Hk|done|done].
Qed.

Lemma triple_pre {A} (P P' : file -> Prop) (m : M (file * W) A) Q :
  (forall f, P f -> P' f) -> triple P' m Q -> triple P m Q.
Proof. intros Hp Hm f w Hf. by apply Hm, Hp. Qed.

Lemma triple_ret {A} (a : A) (Q : A -> file -> Prop) : triple (Q a) (mret a) Q.
Proof. by intros f w Hf. Qed.

Lemma triple_raise {A} e (Q : A -> file -> Prop) : triple wf (raise e) Q.
Proof. by intros f w Hf. Qed.

Lemma triple_get {A} (g : file -> A) (P : file -> Prop) : triple P (with_editor g) (fun a f => P f /\ a = g f).
Proof. by intros f w Hf. Qed.

Lemma triple_update (g : file -> file) :
  (forall f, wf f -> wf (g f)) -> triple wf (update_editor g) (fun _ => wf).
Proof. intros Hg f w Hf. by apply Hg. Qed.

Lemma triple_try {A} (P : file -> Prop) (m : M (file * W) A) :
  triple P m (fun _ => wf) -> triple P (try m) (fun _ => wf).
Proof. intros Hm f w Hf. specialize (Hm f w Hf). unfold try. by destruct (m (f, w)) as [[f' w'] [a|e|]]. Qed.

Lemma triple_return_err err : triple wf (return_err err) (fun _ => wf).
Proof. by destruct err; intros f w Hf. Qed.

Lemma triple_printf b : triple wf (printf b) (fun _ => wf).
Proof. intros f w Hf. unfold printf. by destruct (io_Write w b). Qed.

Lemma triple_out b : triple wf (out_Write b) (fun _ => wf).
Proof. intros f w Hf. unfold out_Write. by destruct (io_Write w b) as [w' [n [e|]]]. Qed.

(** A method that only panics may fail the triple. *)
Lemma triple_panic {A} (P : file -> Prop) (Q : A -> file -> Prop) : allowed -> triple P (lift Panic) Q.
Proof. by intros Ha f w Hf. Qed.

Lemma triple_Write s e : triple wf (f_Write s e) (fun _ => wf).
Proof.
  unfold f_Write. eapply triple_bind; [apply triple_get|]. intros f0 f w [Hw ->]. unfold id.
  destruct ((e <? s) || (s <? 1) || (zlen (lines f) + 1 <? e)) eqn:Ec; [exact Hw|].
  destruct (SliceX_ok f s e Hw) as (a & b & Es & Hab & Hb); [unfold lines_ok; lia|].
  rewrite (M_bind_Ret (lift _) _ _ _ _ (f_equal (pair _) Es)).
  rewrite (M_bind_Ret (lift _) _ _ _ _ (f_equal (fun o => pair _ (or_panic o)) (slice_Some (text f) a b ltac:(lia) ltac:(lia) ltac:(lia)))).
  by apply triple_out.
Qed.

Lemma triple_Print s e : triple wf (f_Print s e) (fun _ => wf).
Proof.
  intros f w Hw. pose proof (triple_Write s e f w Hw) as Hx. unfold f_Print.
  destruct (f_Write s e (f, w)) as [[f' w'] [n|err|]]; [done| |done]. destruct (s <? e); exact Hx.
Qed.

Lemma triple_Replace n s e : allowed \/ lines_ok s e -> triple wf (on_editor (f_Replace n s e)) (fun _ => wf).
Proof.
  intros Hs f w Hw. unfold on_editor. destruct (f_Replace n s e f) as [f' r] eqn:E.
  pose proof (Replace_wf _ _ _ _ _ _ E Hw) as Hw'. destruct r as [z|err|]; [exact Hw'|exact Hw'|].
  destruct Hs as [?|Hs]; [done|]. destruct (Replace_no_panic n s e f Hw Hs) as [f'' E']. congruence.
Qed.

Lemma triple_Read d s e :
  allowed \/ lines_ok (i64 (s + 1)) e -> triple wf (on_editor (f_Read (Ret d) s e)) (fun _ => wf).
Proof. intros Hs f w Hw. apply (triple_Replace d (i64 (s + 1)) e Hs f w Hw). Qed.

Lemma triple_Sub re n opt s e :
  allowed \/ lines_ok s e -> triple wf (f_Sub Compile re n opt s e) (fun _ => wf).
Proof.
  intros Hs. unfold f_Sub. destruct (bytes_eqb re []); [apply triple_raise|].
  eapply triple_bind with (Q := fun _ => wf); [by destruct (Compile re); intros f w Hw|].
  intros r. eapply triple_bind; [apply triple_get|]. intros f0 f w [Hw ->]. unfold id.
  assert ((exists a b o, Slice f s e = Ret (o, a, b) /\ 0 <= a <= b /\ b <= zlen (text f)) \/
          (allowed /\ Slice f s e = Panic)) as [(a & b & o & Es & Hab & Hb)|[Ha Es]].
  { unfold Slice. destruct Hs as [Ha|Hs].
    - destruct (SliceX f s e) as [[a b]|err|] eqn:Ex; [| |by right].
      + cbn. destruct (slice (text f) a b) as [o|] eqn:Eo; [|by right]. left. exists a, b, o.
        split; [done|]. unfold slice in Eo. case_bool_decide; [unfold zlen; lia|done].
      + by apply SliceX_not_Fail in Ex.
    - destruct (SliceX_ok f s e Hw Hs) as (a & b & -> & Hab & Hb). left.
      exists a, b. eexists. cbn. by rewrite slice_Some by lia. }
  2:{ unfold lift, mbind, M_bind. rewrite Es. exact Ha. }
  rewrite (M_bind_Ret (lift _) _ _ _ _ (f_equal (pair _) Es)).
  destruct (makeLines o) as [|l ls]; [exact Hw|]. destruct (sub_lines r _ n (l :: ls)) as [rep b'].
  unfold lift, mbind, M_bind. rewrite slice_prefix, slice_suffix by lia. cbn [or_panic].
  unfold update_editor. destruct (in_set opt x70); [|apply wf_fixLines].
  match goal with |- context [f_Write s e (?f1, w)] =>
    pose proof (triple_Write s e f1 w (wf_fixLines _)) as Hx; destruct (f_Write s e (f1, w)) as [[f2 w2] [z|err|]] end;
  exact Hx.
Qed.

(** Interpreting a command: [c] does not start with [s], or a panic is allowed. *)
Definition no_s (c : bytes) : Prop := x73 ∉ c.

Lemma triple_cmd_read a s e :
  allowed \/ lines_ok (i64 (s + 1)) e -> triple wf (cmd_read open a s e) (fun _ => wf).
Proof.
  intros Hs. unfold cmd_read. destruct (open _); [|apply triple_raise].
  eapply triple_bind; [by apply triple_Read|]. intros z. by intros f w Hw.
Qed.

Lemma triple_Command c s e :
  allowed \/ (no_s c /\ lines_ok s e /\ lines_ok (i64 (s + 1)) e) ->
  triple wf (Command open Error c s e) (fun _ => wf).
Proof.
  intros Hc. unfold Command. destruct c as [|c0 a].
  { eapply triple_bind; [apply triple_get|]. intros d. eapply triple_bind with (Q := fun _ => wf).
    { eapply triple_pre; [by intros f [? _]|]. apply triple_try, triple_Write. }
    intros err. eapply triple_bind; [apply triple_update; intros f Hw; exact Hw|]. intros []. apply triple_return_err. }
  eapply triple_bind; [apply triple_get|]. intros b.
  eapply triple_pre; [by intros f [Hw _]; exact Hw|].
  destruct ((byte_eqb c0 x71 || byte_eqb c0 x65) && b).
  { eapply triple_bind; [apply triple_update; intros f Hw; exact Hw|]. intros []. apply triple_raise. }
  destruct (byte_eqb c0 x64).
  { eapply triple_bind; [apply triple_try, triple_Replace; tauto|]. intros z. by intros f w Hw. }
  destruct (byte_eqb c0 x71); [by intros f w Hw|].
  destruct (byte_eqb c0 x65).
  { eapply triple_bind; [apply triple_get|]. intros [r0 r1]. eapply triple_pre; [by intros f [Hw _]; exact Hw|].
    apply triple_cmd_read. right. left. done. }
  destruct (byte_eqb c0 x72); [apply triple_cmd_read; tauto|].
  destruct (byte_eqb c0 x73) eqn:E73.
  { apply byte_eqb_eq in E73 as ->. destruct Hc as [Ha|[Hn _]]; [|exfalso; apply Hn; by left].
    destruct a as [|sp rest]; [by apply triple_panic|].
    destruct (SplitN sp 3 rest) as [|o0 [|o1 [|o2 [|]]]]; try (by apply triple_panic).
    eapply triple_bind; [apply triple_Sub; by left|]. intros z. by intros f w Hw. }
  destruct (byte_eqb c0 x77).
  { eapply triple_bind; [apply triple_Write|]. intros z. by intros f w Hw. }
  destruct (byte_eqb c0 x70); [|apply triple_raise].
  eapply triple_bind; [apply triple_printf|]. intros z. eapply triple_bind; [apply triple_try, triple_Print|].
  intros err. eapply triple_bind; [apply triple_printf|]. intros y. apply triple_return_err.
Qed.

(** A line number an address can give. *)
Definition addr_ok (n : Z) : Prop := allowed \/ 0 <= n < 2 ^ 63.

(** Before a command: the line table is right, the dot a line number, and, as in any Go
    slice, the number of lines an [int]. *)
Definition session_ok (f : file) : Prop := wf f /\ addr_ok (dot f) /\ addr_ok (zlen (lines f)).

Lemma line_number_ok n : match line_number n with Ret v => forall c l, n = c :: l -> is_digit c = true -> 0 <= v < 2 ^ 63 | Fail _ => True | Panic => False end.
Proof.
  unfold line_number. destruct (Atoi n) as [v [err|]] eqn:E; [done|].
  intros c l -> Hc. unfold Atoi in E.
  assert (byte_eqb c x2b = false) as Hp by (apply byte_eqb_neq; intros ->; vm_compute in Hc; discriminate).
  assert (byte_eqb c x2d = false) as Hm by (apply byte_eqb_neq; intros ->; vm_compute in Hc; discriminate).
  rewrite Hp, Hm in E. unfold ParseUint in E.
  destruct (parse_digits 10 (2 ^ 64 - 1) 0 (c :: l)) as [un er] eqn:Ep.
  apply parse_digits_nonneg in Ep; [|lia..].
  destruct er as [[]|]; [done| |]; simpl negb in E; cbn [andb] in E;
    destruct (Z.leb_spec (2 ^ 63) un); simplify_eq; lia.
Qed.

Lemma num_head l c n : num l = c :: n -> is_digit c = true.
Proof. destruct l as [|d l]; simpl; [done|]. destruct (is_digit d) eqn:E; [|done]. by intros [= -> _]. Qed.

Lemma Range_ok f : addr_ok (zlen (lines f)) -> addr_ok (snd (f_Range f)).
Proof. intros Hl. unfold f_Range. destruct (lines f); cbn [snd]; [right; lia|done]. Qed.

(** The rest of a list is part of it. *)
Ltac sub_list := intros ? ?; repeat (first [assumption | apply elem_of_cons; right]).

Lemma triple_start_address l :
  triple session_ok (start_address l)
    (fun '(s, l') f => session_ok f /\ addr_ok s /\ (forall c, c ∈ l' -> c ∈ l)).
Proof.
  unfold start_address. eapply triple_bind; [apply triple_get|]. intros d.
  destruct l as [|l0 l1]; [by intros f w [Hs ->]; split_and!; [done|apply Hs|]|].
  assert (forall n, session_ok n -> addr_ok (dot n)) as Hdot by (by intros n (_ & ? & _)).
  destruct (byte_eqb l0 x2e).
  { intros f w [Hs ->]. split_and!; [done|by apply Hdot|sub_list]. }
  destruct (byte_eqb l0 x24).
  { intros f w [(Hw & Hd & Hl) ->]. unfold mbind, M_bind, with_editor. cbn.
    destruct (f_Range f) as [r0 r1] eqn:Er. cbn.
    pose proof (Range_ok f Hl) as Hr. rewrite Er in Hr. split_and!; [by split_and!|done|sub_list]. }
  destruct (startsearch (l0 :: l1)) as [|p pat].
  2:{ intros f w [Hs ->]. split_and!; [done|by apply Hdot|]. intros c Hc.
      eapply elem_of_drop_weak. exact Hc. }
  destruct (num (l0 :: l1)) as [|n0 n] eqn:En.
  { intros f w [Hs ->]. split_and!; [done|by apply Hdot|done]. }
  intros f w [(Hw & Hd & Hl) ->]. pose proof (line_number_ok (n0 :: n)) as Hn.
  unfold lift, mbind, M_bind. destruct (line_number (n0 :: n)) as [v|err|]; [|exact Hw|done].
  specialize (Hn n0 n eq_refl (num_head _ _ _ En)). cbn.
  split_and!; [split_and!; [exact Hw|by right|done]|by right|].
  intros c Hc. right. eapply elem_of_drop_weak. exact Hc.
Qed.

Lemma triple_end_address l :
  triple session_ok (end_address l)
    (fun '(e, l') f => wf f /\ addr_ok e /\ (forall c, c ∈ l' -> c ∈ l)).
Proof.
  unfold end_address. eapply triple_bind; [apply triple_get|]. intros d.
  destruct l as [|c l]; [by intros f w [(Hw & Hd & Hl) ->]|].
  destruct (byte_eqb c x2c); [|by intros f w [(Hw & Hd & Hl) ->]].
  destruct l as [|l0 l1]; [by intros f w [(Hw & Hd & Hl) ->]; exact Hw|].
  destruct (byte_eqb l0 x2e).
  { intros f w [(Hw & Hd & Hl) ->]. split_and!; [done|done|sub_list]. }
  destruct (byte_eqb l0 x24).
  { intros f w [(Hw & Hd & Hl) ->]. unfold mbind, M_bind, with_editor. cbn.
    destruct (f_Range f) as [r0 r1] eqn:Er. cbn.
    pose proof (Range_ok f Hl) as Hr. rewrite Er in Hr. split_and!; [done|done|sub_list]. }
  destruct (startsearch (l0 :: l1)) as [|p pat].
  2:{ intros f w [(Hw & Hd & Hl) ->]. split_and!; [done|done|sub_list]. }
  destruct (num (l0 :: l1)) as [|n0 n] eqn:En.
  { intros f w [(Hw & Hd & Hl) ->]. split_and!; [done|done|sub_list]. }
  intros f w [(Hw & Hd & Hl) ->]. pose proof (line_number_ok (n0 :: n)) as Hn.
  unfold lift, mbind, M_bind. destruct (line_number (n0 :: n)) as [v|err|]; [|exact Hw|done].
  specialize (Hn n0 n eq_refl (num_head _ _ _ En)). split_and!; [exact Hw|by right|].
  intros x Hx. right. eapply elem_of_drop_weak. exact Hx.
Qed.

Lemma triple_DoCommand l :
  allowed \/ no_s l -> triple session_ok (DoCommand open Error l) (fun _ => wf).
Proof.
  intros Hs. unfold DoCommand. destruct l as [|l0 l1].
  - eapply triple_bind; [apply triple_get|]. intros d. eapply triple_bind with (Q := fun _ => wf).
    { eapply triple_pre; [by intros f [(Hw & _) _]; exact Hw|]. apply triple_try, triple_Write. }
    intros err. eapply triple_bind; [apply triple_get|]. intros d'.
    eapply triple_pre; [by intros f [Hw _]; exact Hw|].
    eapply triple_bind; [apply triple_update; intros f Hw; exact Hw|]. intros []. apply triple_return_err.
  - eapply triple_bind; [apply triple_start_address|]. intros [s l].
    intros f w (Hf & Hsa & Hl). revert f w Hf. fold (triple (A := status) session_ok).
    eapply triple_bind; [apply triple_end_address|]. intros [e l'].
    intros f w (Hf & Hea & Hl'). revert f w Hf. fold (triple (A := status) wf).
    apply triple_Command. destruct Hs as [?|Hs]; [by left|].
    destruct Hsa as [?|Hsa]; [by left|]. destruct Hea as [?|Hea]; [by left|]. right.
    split; [by intros Hc%Hl'%Hl|]. unfold lines_ok. split; [by left; lia|].
    destruct (decide (s = 2 ^ 63 - 1)) as [->|Hne]; [|left; rewrite i64_small; lia].
    right. destruct (decide (e = 2 ^ 63 - 1)) as [->|Hne']; [by right|left; rewrite i64_small; lia].
Qed.
End Sessions.

(** A session goes from command to command with the line table right. *)
Lemma ed_loop_wf {W} `{Writer W} Compile open Error ls (f : Text.file) (w : W) :
  TextFacts.wf f ->
  match ed_loop (H := Text.text_Editor Compile) open Error ls (f, w) with
  | ((f', _), Ret _) => TextFacts.wf f'
  | (_, Fail _) => False
  | (_, Panic) => True
  end.
Proof.
  revert f w. induction ls as [|l ls IH]; intros f w Hw; [exact Hw|]. cbn [ed_loop].
  pose proof (triple_DoCommand Compile open Error True l (or_introl I) f w) as Hd.
  unfold ed_here in Hd. specialize (Hd ltac:(split_and!; [done|by left|by left])).
  destruct (DoCommand open Error l (f, w)) as [[f' w'] [[|code]|e|]]; [by apply IH|done|by apply IH|done].
Qed.

(** ** Addresses *)

Lemma num_app ds x r : forallb is_digit ds = true -> is_digit x = false -> num (ds ++ x :: r) = ds.
Proof.
  induction ds as [|c ds IH]; simpl; [by intros _ ->|]. intros Hd Hx.
  apply andb_prop in Hd as [Hc Hd]. rewrite Hc. by rewrite IH.
Qed.

Lemma digit_not c x : is_digit c = true -> is_digit x = false -> byte_eqb c x = false.
Proof. intros Hc Hx. apply byte_eqb_neq. by intros ->; rewrite Hx in Hc. Qed.

(** An address that starts with a digit is a number. *)
Lemma address_num z x r :
  0 <= z < 2 ^ 63 -> is_digit x = false ->
  exists c ds, Itoa z = c :: ds /\ byte_eqb c x2e = false /\ byte_eqb c x24 = false /\
    startsearch (Itoa z ++ x :: r) = [] /\ num (Itoa z ++ x :: r) = Itoa z /\
    line_number (Itoa z) = Ret z /\ drop (length (Itoa z)) (Itoa z ++ x :: r) = x :: r.
Proof.
  intros Hz Hx. destruct (Itoa_spec z ltac:(lia)) as (c & ds & E & Hd & _).
  assert (is_digit c = true) as Hc by (simpl in Hd; by apply andb_prop in Hd as [? _]).
  exists c, ds. split_and!; [done|by apply digit_not|by apply digit_not| | | |].
  - rewrite E. unfold startsearch. cbn [app]. destruct (DecodeRune (ds ++ x :: r)).
    by rewrite (digit_not c x2f).
  - rewrite E. by apply num_app.
  - unfold line_number. by rewrite Atoi_Itoa.
  - by rewrite drop_app_length.
Qed.

Section Addressed.
Import Text TextFacts.
Context {W : Type} `{Writer W} (Compile : bytes -> matcher + error)
        (open : bytes -> bytes + error) (Error : error -> bytes).
#[local] Instance ed_addr : Editor file W := text_Editor Compile.

(** [a,bX] runs the command [X] on the lines [a] to [b]. *)
Lemma DoCommand_addressed f w a b x :
  0 <= a < 2 ^ 63 -> 0 <= b < 2 ^ 63 - 1 -> is_digit x = false ->
  DoCommand open Error (Itoa a ++ x2c :: Itoa b ++ [x]) (f, w) =
    Command open Error [x] a (b + 1) (f_Move a f, w).
Proof.
  intros Ha Hb Hx.
  destruct (address_num a x2c (Itoa b ++ [x]) Ha eq_refl) as (c & ds & E & H1 & H2 & H3 & H4 & H5 & H6).
  destruct (address_num b x [] ltac:(lia) Hx) as (c' & ds' & E' & H1' & H2' & H3' & H4' & H5' & H6').
  unfold DoCommand. rewrite E. cbn [app].
  assert (start_address (c :: ds ++ x2c :: Itoa b ++ [x]) (f, w) = ((f_Move a f, w), Ret (a, x2c :: Itoa b ++ [x]))) as Es.
  { unfold start_address. rewrite H1, H2. rewrite E in H3, H4, H6, H5. cbn [app] in H3, H4.
    rewrite H3, H4. unfold mbind, M_bind, lift, with_editor. rewrite H5. cbn.
    cbn in H6. by rewrite H6. }
  rewrite (M_bind_Ret _ _ _ _ _ Es).
  assert (end_address (x2c :: Itoa b ++ [x]) (f_Move a f, w) = ((f_Move a f, w), Ret (b, [x]))) as Ee.
  { unfold end_address. change (byte_eqb x2c x2c) with true. rewrite E' in *. cbn [app] in *.
    rewrite H1', H2', H3', H4'. unfold mbind, M_bind, lift, with_editor. rewrite H5'. cbn in *. by rewrite H6'. }
  rewrite (M_bind_Ret _ _ _ _ _ Ee). by rewrite i64_small by lia.
Qed.

Lemma text_put_buffer b f : text (put_data (buffer_Bytes b) f) = b.
Proof. by destruct b. Qed.

(** Deleting lines: the command [d]. *)
Lemma Command_d f w d a e s t :
  data f = Some d -> SliceX f a e = Ret (s, t) -> 0 <= s -> s <= zlen d -> 0 <= t -> t <= zlen d ->
  Command open Error [x64] a e (f, w) =
    ((fixLines (put_data (buffer_Bytes (take (Z.to_nat s) d ++ drop (Z.to_nat t) d)) f), w), Ret Running).
Proof.
  intros Hd Hs H1 H2 H3 H4. cbn. unfold mbind, M_bind, try, on_editor, with_editor. cbn.
  unfold f_Replace. rewrite Hd, Hs. unfold mbind, outcome_bind. by rewrite slice_prefix, slice_suffix by done.
Qed.

(** [a,bd]: what is kept before line [a] and after the end [SliceX] finds. *)
Lemma delete_run f w d a b :
  wf f -> data f = Some d -> 1 <= a -> a <= b -> b < zlen (makeLines d) -> zlen (makeLines d) < 2 ^ 63 ->
  exists f', DoCommand open Error (Itoa a ++ x2c :: Itoa b ++ [x64]) (f, w) = ((f', w), Ret Running) /\ wf f' /\
    text f' = take (Z.to_nat (line_off d (a - 1))) d ++
              drop (Z.to_nat (if zlen (makeLines d) <=? b + 1 then zlen d else line_off d b)) d.
Proof.
  intros Hw Hd Ha Hab Hb Hl. pose proof (zlen_lines f Hw) as Hz.
  assert (text f = d) as Et by (unfold text; by rewrite Hd). rewrite Et in Hz.
  rewrite DoCommand_addressed by (done || lia).
  pose proof (SliceX_lines (f_Move a f) a (b + 1) Hw Ha ltac:(lia)
                ltac:(change (lines (f_Move a f)) with (lines f); lia)) as Hs.
  change (text (f_Move a f)) with (text f) in Hs. change (lines (f_Move a f)) with (lines f) in Hs.
  rewrite Et, Hz in Hs. replace (b + 1 - 1) with b in Hs by lia.
  pose proof (line_off_range d (a - 1)). pose proof (line_off_range d b). pose proof (zlen_nonneg d).
  eexists. split; [apply (Command_d (f_Move a f) w d a (b + 1) _ _ Hd Hs);
                     destruct (zlen (makeLines d) <=? b + 1); lia|].
  split; [apply wf_fixLines|]. by rewrite text_fixLines, text_put_buffer.
Qed.
End Addressed.

(** No number of more than eighteen digits occurs in the line. *)
Fixpoint short_numbers (l : bytes) : bool :=
  (length (num l) <=? 18)%nat && match l with [] => true | _ :: l => short_numbers l end.

Lemma short_num l : short_numbers l = true -> (length (num l) <= 18)%nat.
Proof. intros Hs. destruct l; cbn [short_numbers] in Hs; apply andb_prop in Hs as [Hs _]; by apply Nat.leb_le. Qed.

Lemma short_suffix l p q : short_numbers l = true -> l = p ++ q -> short_numbers q = true.
Proof.
  intros Hs ->. induction p as [|c p IH]; [done|]. apply IH. cbn [app short_numbers] in Hs. by apply andb_prop in Hs as [_ ?].
Qed.

(** At most eighteen digits are a number below [10 ^ 18]. *)
Lemma parse_digits_small maxval ds n k :
  forallb is_digit ds = true -> 0 <= n < 10 ^ Z.of_nat k -> 10 ^ Z.of_nat (k + length ds) <= maxval ->
  exists v, parse_digits 10 maxval n ds = (v, None) /\ 0 <= v < 10 ^ Z.of_nat (k + length ds).
Proof.
  revert n k. induction ds as [|c ds IH]; intros n k Hd Hn Hm; [exists n; by rewrite Nat.add_0_r|].
  cbn [forallb] in Hd. apply andb_prop in Hd as [Hc Hd]. unfold is_digit in Hc. pose proof Hc as Hv.
  apply andb_prop in Hv as [Hv1%Z.leb_le Hv2%Z.leb_le]. cbn [parse_digits length] in *. unfold digit_value. rewrite Hc.
  rewrite Nat.add_succ_r in *. assert (10 ^ Z.of_nat (S k) <= maxval) as Hk.
  { etransitivity; [|exact Hm]. apply Z.pow_le_mono_r; lia. }
  rewrite Nat2Z.inj_succ, Z.pow_succ_r in Hk by lia. destruct (Z.leb_spec 10 (b2z c - 48)); [lia|].
  destruct (Z.ltb_spec maxval (n * 10 + (b2z c - 48))); [lia|].
  apply (IH _ (S k) Hd); [rewrite Nat2Z.inj_succ, Z.pow_succ_r; lia|done].
Qed.

Lemma Atoi_digits n :
  forallb is_digit n = true -> n <> [] -> (length n <= 18)%nat -> exists v, Atoi n = (v, None) /\ 0 <= v < 10 ^ 18.
Proof.
  intros Hd Hne Hl. assert (10 ^ Z.of_nat (0 + length n) <= 10 ^ 18) as Hp by (apply Z.pow_le_mono_r; lia).
  destruct (parse_digits_small (2 ^ 64 - 1) n 0 0 Hd ltac:(cbn; lia) ltac:(lia)) as (v & E & Hv).
  exists v. split; [|lia]. destruct n as [|c n]; [done|]. cbn [forallb] in Hd. apply andb_prop in Hd as [Hc _].
  unfold Atoi. rewrite !(digit_not c) by done. unfold ParseUint. rewrite E. cbn [negb andb].
  destruct (Z.leb_spec (2 ^ 63) v); [lia|done].
Qed.

(** ** Sessions without overflow

    A command raises the dot by at most two over the largest address in use, so that in a session
    whose numbers, files and length are bounded it never wraps around. *)
Section Bounds.
Import Text TextFacts.
Context {W : Type} `{Writer W} (Compile : bytes -> matcher + error)
        (open : bytes -> bytes + error) (Error : error -> bytes) (D T K : Z).
#[local] Instance ed_bounds : Editor file W := text_Editor Compile.
Hypothesis K_files : forall n d, open n = inl d -> zlen d <= K.
Hypothesis K_nonneg : 0 <= K.
Hypothesis D_numbers : 10 ^ 18 <= D.
Hypothesis D_text : T <= D.
Hypothesis D_int : D + 2 < 2 ^ 63.

Definition within (f : file) : Prop := wf f /\ 0 <= dot f <= D /\ zlen (text f) <= T.
Definition beyond (f : file) : Prop := wf f /\ 0 <= dot f <= D + 2 /\ zlen (text f) <= T + K.

(** The action does not panic, and leaves [Q] of the file. *)
Definition leaves {A} (r : (file * W) * outcome error A) (Q : file -> Prop) : Prop :=
  Q (fst (fst r)) /\ snd r <> Panic.

Lemma within_beyond f : within f -> beyond f.
Proof. intros (? & ? & ?). split_and!; [done|lia..]. Qed.

Lemma length_starts b i d : (length (starts b i d) <= length d)%nat.
Proof.
  revert b i. induction d as [|v d IH]; intros b i; [done|]. cbn [starts length]. rewrite length_app.
  specialize (IH (byte_eqb v newline) (i + 1)). destruct b; cbn [length]; lia.
Qed.

Lemma lines_le_text f : wf f -> zlen (lines f) <= zlen (text f).
Proof.
  intros ->. unfold line_starts. destruct (text f) as [|v d]; [done|]. cbn [starts app]. unfold zlen. cbn [length].
  pose proof (length_starts (byte_eqb v newline) (0 + 1) d). lia.
Qed.

Lemma dot_fixLines f : 0 <= dot f <= D -> 0 <= dot (fixLines f) <= D.
Proof.
  intros Hd. unfold fixLines. destruct (text f) as [|v d] eqn:E; [done|]. cbn [dot].
  assert (1 <= zlen (line_starts (v :: d))) by (unfold zlen, line_starts; cbn [length]; lia).
  destruct (Z.ltb_spec (dot f) 1), (Z.ltb_spec (zlen (line_starts (v :: d))) (dot f));
    try destruct (Z.ltb_spec (zlen (line_starts (v :: d))) 1); lia.
Qed.

Lemma Replace_leaves n s e f : within f -> zlen n <= K -> lines_ok s e ->
  exists f', f_Replace n s e f = (f', Ret (zlen n)) /\ beyond f'.
Proof.
  intros (Hw & Hd & Ht) Hn Hs. destruct (Replace_no_panic n s e f Hw Hs) as [f' E]. exists f'. split; [done|].
  pose proof (Replace_wf _ _ _ _ _ _ E Hw) as Hw'. unfold f_Replace in E.
  destruct (data f) as [d|] eqn:Ed.
  - destruct (SliceX_ok f s e Hw Hs) as (a & b & Es & Hab & Hb). rewrite Es in E. unfold text in Hb, Ht. rewrite Ed in Hb, Ht. cbn in Hb, Ht.
    unfold mbind, outcome_bind in E. rewrite slice_prefix, slice_suffix in E by lia. cbn in E. injection E as <-.
    split; [done|]. split; [pose proof (dot_fixLines (put_data (buffer_Bytes (take (Z.to_nat a) d ++ n ++ drop (Z.to_nat b) d)) f) Hd); lia|].
    rewrite text_fixLines, text_put_buffer, !zlen_app. unfold zlen in *. rewrite length_take, length_drop. lia.
  - injection E as <-. split; [done|]. split; [pose proof (dot_fixLines (set_data n f) Hd); lia|].
    rewrite text_fixLines. unfold text in *. rewrite Ed in Ht. change (0 <= T) in Ht. change (default [] (data (set_data n f))) with n. lia.
Qed.

Lemma Write_same s e f w : wf f -> exists w' r, f_Write s e (f, w) = ((f, w'), r) /\ r <> Panic.
Proof.
  intros Hw. pose proof (triple_Write False s e f w Hw) as Ht.
  assert (fst (fst (f_Write s e (f, w))) = f) as Hf.
  { unfold f_Write, mbind at 1, M_bind at 1, with_editor. destruct (_ || _); [done|]. unfold mbind, M_bind, lift.
    destruct (SliceX _ s e) as [[a b]|err|]; [|done..]. cbn [fst id]. destruct (slice _ a b) as [o|]; [|done]. cbn [or_panic].
    unfold out_Write. by destruct (io_Write w o) as [w' [n [err|]]]. }
  destruct (f_Write s e (f, w)) as [[f' w'] r]. cbn [fst] in Hf. subst f'. exists w', r. split; [done|]. by intros ->.
Qed.

Lemma moved_beyond f v : within f -> 0 <= v <= D + 2 -> beyond (f_Move v f).
Proof. intros (Hw & Hd & Ht) Hv. split; [exact Hw|]. split; [exact Hv|]. change (zlen (text f) <= T + K). lia. Qed.

Lemma Print_leaves s e f w : within f -> 0 <= e <= D + 1 -> exists f' w' r, f_Print s e (f, w) = ((f', w'), r) /\ beyond f' /\ r <> Panic.
Proof.
  intros Hf He. pose proof Hf as (Hw & Hd & Ht). unfold f_Print. destruct (Write_same s e f w Hw) as (w' & r & E & Hr). rewrite E.
  destruct r as [z|err|]; [| |done]; eexists _, _, _; (split; [done|]); (split; [|done]); [by apply within_beyond|].
  destruct (s <? e); [|by apply within_beyond]. apply moved_beyond; [done|]. rewrite i64_small; lia.
Qed.

(** [e] and [r]. *)
Lemma cmd_read_leaves a s e f w : within f -> 0 <= s <= D -> leaves (cmd_read open a s e (f, w)) beyond.
Proof.
  intros Hf Hs. unfold cmd_read. destruct (open _) as [d|err] eqn:Eo; [|split; [by apply within_beyond|done]].
  destruct (Replace_leaves d (i64 (s + 1)) e f Hf (K_files _ _ Eo)) as (f' & E & Hf'); [left; rewrite i64_small; lia|].
  unfold mbind, M_bind, on_editor. cbn [Read ed_bounds text_Editor]. unfold f_Read, mbind, M_bind, lift. rewrite E. by split.
Qed.

Lemma Command_leaves c s e f w :
  x73 ∉ c -> within f -> 0 <= s <= D -> 0 <= e <= D + 1 -> leaves (Command open Error c s e (f, w)) beyond.
Proof.
  intros Hc Hf Hs He. pose proof Hf as (Hw & Hd & Ht). unfold Command. destruct c as [|c0 a].
  { unfold mbind, M_bind, with_editor, try, update_editor. cbn [Write Dot Move ed_bounds text_Editor fst].
    destruct (Write_same (dot f) (dot f) f w Hw) as (w' & r & E & Hr). rewrite E.
    destruct r as [z|err|]; [| |done]; (split; [cbn; apply moved_beyond; [done|rewrite i64_small; lia]|done]). }
  unfold mbind at 1, M_bind at 1, with_editor at 1. cbn [IsDirty ed_bounds text_Editor fst].
  destruct ((byte_eqb c0 x71 || byte_eqb c0 x65) && dirty f); [split; [by apply within_beyond|done]|].
  destruct (byte_eqb c0 x64).
  { destruct (Replace_leaves [] s e f Hf K_nonneg ltac:(left; lia)) as (f' & E & Hf').
    unfold mbind, M_bind, try, on_editor. cbn [Replace ed_bounds text_Editor]. rewrite E. by split. }
  destruct (byte_eqb c0 x71); [split; [by apply within_beyond|done]|].
  destruct (byte_eqb c0 x65).
  { unfold mbind at 1, M_bind at 1, with_editor. cbn [Range ed_bounds text_Editor fst].
    destruct (f_Range f) as [r0 r1]. apply cmd_read_leaves; [done|lia]. }
  destruct (byte_eqb c0 x72); [by apply cmd_read_leaves|].
  destruct (byte_eqb c0 x73) eqn:E73; [apply byte_eqb_eq in E73 as ->; exfalso; apply Hc; by left|].
  destruct (byte_eqb c0 x77).
  { unfold mbind, M_bind. cbn [Write ed_bounds text_Editor]. destruct (Write_same s e f w Hw) as (w' & r & E & Hr). rewrite E.
    destruct r as [z|err|]; [| |done]; (split; [by apply within_beyond|done]). }
  destruct (byte_eqb c0 x70); [|split; [by apply within_beyond|done]].
  unfold mbind, M_bind, printf, try. cbn [Print ed_bounds text_Editor]. destruct (io_Write w _) as [w1 [z1 e1]].
  destruct (Print_leaves s e f w1 Hf He) as (f' & w' & r & E & Hf' & Hr). rewrite E.
  destruct r as [z|err|]; [| |done]; destruct (io_Write w' _) as [w2 ?]; by split.
Qed.

Lemma num_prefix l : exists q, l = num l ++ q /\ forallb is_digit (num l) = true.
Proof.
  induction l as [|c l (q & E & Hd)]; [by exists []|]. cbn [num]. destruct (is_digit c) eqn:Ec; [|by exists (c :: l)].
  exists q. split; [by rewrite E at 1|]. cbn. by rewrite Ec, Hd.
Qed.

Lemma line_number_small n : forallb is_digit n = true -> n <> [] -> (length n <= 18)%nat -> exists v, line_number n = Ret v /\ 0 <= v <= D.
Proof.
  intros Hd Hne Hl. destruct (Atoi_digits n Hd Hne Hl) as (v & E & Hv). exists v. unfold line_number. rewrite E. split; [done|lia].
Qed.

Lemma Range_within f : within f -> 0 <= snd (f_Range f) <= D.
Proof.
  intros (Hw & _ & Ht). pose proof (lines_le_text f Hw). pose proof (zlen_nonneg (lines f)). unfold f_Range. destruct (lines f); cbn [snd]; lia.
Qed.

Lemma moved_within f v : within f -> 0 <= v <= D -> within (f_Move v f).
Proof. intros (Hw & Hd & Ht) Hv. split; [exact Hw|]. split; [exact Hv|exact Ht]. Qed.

(** The addresses. *)
Lemma start_address_leaves l f w : short_numbers l = true -> within f ->
  exists f' s p l', start_address l (f, w) = ((f', w), Ret (s, l')) /\ within f' /\ 0 <= s <= D /\ l = p ++ l'.
Proof.
  intros Hs Hf. pose proof Hf as (Hw & Hd & Ht). unfold start_address, mbind at 1, M_bind at 1, with_editor at 1. cbn [Dot ed_bounds text_Editor fst].
  destruct l as [|l0 l1]; [by exists f, (dot f), [], []|].
  destruct (byte_eqb l0 x2e); [by exists f, (dot f), [l0], l1|].
  destruct (byte_eqb l0 x24).
  { unfold mbind, M_bind, with_editor, update_editor. cbn [Range Move Dot ed_bounds text_Editor fst].
    pose proof (Range_within f Hf) as Hr. destruct (f_Range f) as [r0 r1]. cbn [snd] in Hr.
    exists (f_Move r1 f), r1, [l0], l1. split; [done|split; [by apply moved_within|split; [lia|done]]]. }
  destruct (startsearch (l0 :: l1)) as [|c pat] eqn:Ep.
  2:{ exists f, (dot f), (take (length (c :: pat)) (l0 :: l1)), (drop (length (c :: pat)) (l0 :: l1)).
      split; [reflexivity|split; [exact Hf|split; [lia|by rewrite take_drop]]]. }
  destruct (num_prefix (l0 :: l1)) as (q & Eq & Hdg). destruct (num (l0 :: l1)) as [|n0 n] eqn:En; [by exists f, (dot f), [], (l0 :: l1)|].
  destruct (line_number_small (n0 :: n) Hdg ltac:(done)) as (v & Ev & Hv); [rewrite <- En; by apply short_num|].
  unfold mbind, M_bind, lift, update_editor. rewrite Ev. cbn [Move ed_bounds text_Editor].
  exists (f_Move v f), v, (n0 :: n), q. split; [|split; [by apply moved_within|split; [lia|done]]].
  by rewrite Eq, drop_app_length.
Qed.

Lemma end_address_leaves l f w : short_numbers l = true -> within f ->
  (exists err, end_address l (f, w) = ((f, w), Fail err)) \/
  exists e p l', end_address l (f, w) = ((f, w), Ret (e, l')) /\ 0 <= e <= D /\ l = p ++ l'.
Proof.
  intros Hs Hf. pose proof Hf as (Hw & Hd & Ht). unfold end_address, mbind at 1, M_bind at 1, with_editor at 1. cbn [Dot ed_bounds text_Editor fst].
  destruct l as [|c l]; [right; by exists (dot f), [], []|].
  destruct (byte_eqb c x2c); [|right; by exists (dot f), [], (c :: l)].
  destruct l as [|l0 l1]; [left; by eexists|].
  destruct (byte_eqb l0 x2e); [right; by exists (dot f), [c; l0], l1|].
  destruct (byte_eqb l0 x24).
  { unfold mbind, M_bind, with_editor. cbn [Range ed_bounds text_Editor fst].
    pose proof (Range_within f Hf) as Hr. destruct (f_Range f) as [r0 r1]. right. exists r1, [c; l0], l1. by split. }
  destruct (startsearch (l0 :: l1)); [|right; exists (dot f), [c], (l0 :: l1); by split].
  destruct (num_prefix (l0 :: l1)) as (q & Eq & Hdg). destruct (num (l0 :: l1)) as [|n0 n] eqn:En;
    [right; exists (dot f), [c], (l0 :: l1); by split|].
  destruct (line_number_small (n0 :: n) Hdg ltac:(done)) as (v & Ev & Hv); [rewrite <- En; apply short_num, (short_suffix _ [c] _ Hs eq_refl)|].
  unfold mbind, M_bind, lift. rewrite Ev. right. exists v, (c :: n0 :: n), q. split; [|split; [lia|by rewrite Eq]].
  by rewrite Eq, drop_app_length.
Qed.

Lemma DoCommand_leaves l f w :
  x73 ∉ l -> short_numbers l = true -> within f -> leaves (DoCommand open Error l (f, w)) beyond.
Proof.
  intros Hc Hs Hf. pose proof Hf as (Hw & Hd & Ht). unfold DoCommand. destruct l as [|l0 l1].
  { unfold mbind, M_bind, with_editor, try, update_editor. cbn [Write Dot Move ed_bounds text_Editor fst].
    destruct (Write_same (dot f) (dot f) f w Hw) as (w' & r & E & Hr). rewrite E.
    destruct r as [z|err|]; [| |done]; (split; [cbn; apply moved_beyond; [done|rewrite i64_small; lia]|done]). }
  destruct (start_address_leaves _ f w Hs Hf) as (f1 & s & p & l' & E1 & Hf1 & Hs1 & El). rewrite (M_bind_Ret _ _ _ _ _ E1).
  destruct (end_address_leaves l' f1 w (short_suffix _ _ _ Hs El) Hf1) as [[err E2]|(e & p' & l2 & E2 & He & El2)].
  - unfold mbind, M_bind. rewrite E2. split; [by apply within_beyond|done].
  - rewrite (M_bind_Ret _ _ _ _ _ E2). apply Command_leaves; [|done|done|rewrite i64_small; lia].
    intros Hin. apply Hc. rewrite El, El2. set_solver.
Qed.
End Bounds.

(** A session of [n] commands needs room for [2 * n] lines beyond the addresses. *)
Lemma ed_loop_no_panic {W} `{Writer W} Compile open Error K cmds (f : Text.file) (w : W) D T :
  (forall n d, open n = inl d -> zlen d <= K) -> 0 <= K -> 10 ^ 18 <= D -> T + zlen cmds * K <= D -> D + 2 * zlen cmds < 2 ^ 63 ->
  Forall (fun l => x73 ∉ l /\ short_numbers l = true) cmds -> within D T f ->
  snd (ed_loop (H := Text.text_Editor Compile) open Error cmds (f, w)) <> Panic.
Proof.
  intros HK HK0. revert f w D T. induction cmds as [|l cmds IH]; intros f w D T HD HT Hi Hc Hf; [done|].
  apply Forall_cons in Hc as [[Hl Hn] Hc]. rewrite zlen_cons in *. pose proof (zlen_nonneg cmds) as Hz. cbn [ed_loop].
  destruct (DoCommand_leaves Compile open Error D T K HK HK0 HD ltac:(nia) ltac:(lia) l f w Hl Hn Hf) as [Hb Hp].
  destruct (DoCommand open Error l (f, w)) as [[f' w'] [[|code]|e|]]; cbn [fst snd] in *; [|done| |done];
    (apply (IH f' w' (D + 2) (T + K)); [lia|lia|lia|done|exact Hb]).
Qed.


Lemma NewTextEditor_within file :
  exists f, NewTextEditor (Ret <$> file) = Ret f /\ TextFacts.wf f /\ Text.dot f = 1 /\ zlen (Text.text f) <= zlen (default [] file).
Proof.
  destruct file as [d|]; [|by exists (Text.f_Move 1 Text.file0)].
  exists (Text.f_Move 1 (Text.fixLines (Text.set_data d Text.file0))).
  split_and!; [done|apply (TextFacts.wf_fixLines (Text.set_data d Text.file0))|done|].
  change (zlen (Text.text (Text.fixLines (Text.set_data d Text.file0))) <= zlen d). by rewrite TextFacts.text_fixLines.
Qed.

(** ** Properties *)

(** C16: after every text-editing session that no crash ends, the line table describes the data: it has one
    entry per line, entry [i] being the offset at which line [i] starts, and the lines are
    the data cut after each line feed. *)
Theorem ed_session_lines {W} `{Writer W} Compile open Error (cmds : list bytes) (file : bytes) (w : W) :
  match NewTextEditor (Some (Ret file)) with
  | Ret f =>
      match ed_loop (H := Text.text_Editor Compile) open Error cmds (f, w) with
      | ((f', _), Ret _) =>
          let ls := makeLines (Text.text f') in
          concat ls = Text.text f' /\
          (ls = [] \/ exists front l, ls = front ++ [l] /\ Forall is_line front /\
             l <> [] /\ (newline ∉ l \/ is_line l)) /\
          length (Text.lines f') = length ls /\
          (forall i, (i < length ls)%nat -> Text.lines f' !! i = Some (zlen (concat (take i ls))))
      | (_, Fail _) => False
      | (_, Panic) => True
      end
  | _ => False
  end.
Proof.
  set (f := Text.f_Move 1 (Text.fixLines (Text.set_data file Text.file0))).
  change (NewTextEditor (Some (Ret file))) with (Ret (E := error) f).
  assert (TextFacts.wf f) as Hw by (apply (TextFacts.wf_fixLines (Text.set_data file Text.file0))).
  pose proof (ed_loop_wf Compile open Error cmds f w Hw) as Hl.
  cbv iota beta. revert Hl.
  destruct (ed_loop open Error cmds (f, w)) as [[f' w'] [st|e|]]; intros Hl; [|done..].
  cbn zeta. split_and!.
  - apply makeLines_concat.
  - destruct (Text.text f') as [|c d]; [by left|]. right.
    apply makeLines_loop_lines; [set_solver|by right].
  - rewrite Hl, line_starts_offsets. apply length_offsets.
  - intros i Hi. by rewrite Hl, line_starts_offsets, lookup_offsets.
Qed.

(** C17: a session of the text editor, begun with a file or without one, never crashes and comes to its end, when no line has
    the letter [s] or a number of more than eighteen digits, the session has fewer than [2 ^ 60] lines and the text, with all
    files read into it, stays below [2 ^ 62] bytes. *)
Theorem ed_no_panic {W} `{Writer W} Compile open Error K (file : option bytes) (cmds : list bytes) (w : W) :
  (forall n d, open n = inl d -> zlen d <= K) -> 0 <= K ->
  zlen (default [] file) + zlen cmds * K < 2 ^ 62 -> zlen cmds < 2 ^ 60 ->
  Forall (fun l => x73 ∉ l /\ short_numbers l = true) cmds ->
  match NewTextEditor (Ret <$> file) with
  | Ret f => exists f' w' st, ed_loop (H := Text.text_Editor Compile) open Error cmds (f, w) = ((f', w'), Ret st)
  | _ => False
  end.
Proof.
  intros HK HK0 Ht Hn Hc. destruct (NewTextEditor_within file) as (f & E & Hw & Hf). rewrite E.
  pose proof (ed_loop_wf Compile open Error cmds f w Hw) as Hl.
  pose proof (ed_loop_no_panic Compile open Error K cmds f w (2 ^ 62) (zlen (default [] file)) HK HK0) as Hp.
  specialize (Hp ltac:(lia) ltac:(lia) ltac:(lia) Hc ltac:(destruct Hf; split_and!; [done|lia..])).
  destruct (ed_loop open Error cmds (f, w)) as [[f' w'] [st|e|]]; [by eexists _, _, _|done|done].
Qed.

Definition no_regexp : bytes -> matcher + error := fun _ => inr (Errorf "error parsing regexp").
Definition no_file : bytes -> bytes + error := fun _ => inr (Errno 2).

Definition three_lines : bytes := str "a" ++ [newline] ++ str "b" ++ [newline] ++ str "c" ++ [newline].

Definition ex_file : Text.file :=
  match NewTextEditor (Some (Ret three_lines)) with Ret f => f | _ => Text.file0 end.

Definition read_b : bytes -> bytes + error := fun n => if bytes_eqb n (str "b") then inl (str "x") else inr (Errno 2).

Lemma ed_no_panic_witness :
  match NewTextEditor (Ret <$> Some three_lines) with
  | Ret f => exists f' w' st, ed_loop (H := Text.text_Editor no_regexp) read_b (fun _ => [])
      (str <$> ["999999999999999999"; ""; "d"; "2r b"; "1,$p"; "r c"; "1,2d"; "q"]%string) (f, {| buf := [] |}) = ((f', w'), Ret st)
  | _ => False
  end.
Proof.
  apply (ed_no_panic no_regexp read_b (fun _ => []) 1); [|vm_compute; congruence|vm_compute; reflexivity..|].
  - intros n d. unfold read_b. destruct (bytes_eqb n (str "b")); [|congruence]. intros [= <-]. vm_compute. congruence.
  - repeat (apply Forall_cons; split; [split; [|vm_compute; reflexivity]; vm_compute; intros Hx;
      repeat (apply elem_of_cons in Hx as [Hx|Hx]; [discriminate|]); by apply elem_of_nil in Hx|]). constructor.
Defined.

(** The bound on the numbers is needed: the command after the largest number makes the dot negative, and the next
    one crashes. *)
Example ed_dot_overflow_panics :
  snd (ed_loop (H := Text.text_Editor no_regexp) no_file (fun _ => []) [str "9223372036854775807"; str "d"]
         (ex_file, {| buf := [] |})) = Panic.
Proof. vm_compute. reflexivity. Qed.

(** [a,bd] deletes exactly the lines [a] to [b] when at least two lines follow [b], and
    prints nothing. *)
Theorem ed_delete_lines {W} `{Writer W} Compile open Error (f : Text.file) (w : W) (d : bytes) (a b : Z) :
  TextFacts.wf f -> Text.data f = Some d -> 1 <= a -> a <= b -> b + 1 < zlen (makeLines d) ->
  zlen (makeLines d) < 2 ^ 63 ->
  exists f', DoCommand (H := Text.text_Editor Compile) open Error (Itoa a ++ x2c :: Itoa b ++ str "d") (f, w)
      = ((f', w), Ret Running) /\
    TextFacts.wf f' /\
    Text.text f' = concat (take (Z.to_nat (a - 1)) (makeLines d) ++ drop (Z.to_nat b) (makeLines d)).
Proof.
  intros Hw Hd Ha Hab Hb Hl. destruct (delete_run Compile open Error f w d a b Hw Hd Ha Hab) as (f' & E & Hw' & Et);
    [lia..|]. exists f'. split; [exact E|]. split; [exact Hw'|].
  rewrite Et. destruct (Z.leb_spec (zlen (makeLines d)) (b + 1)); [lia|].
  by rewrite concat_app, take_line_off, drop_line_off.
Qed.

Definition four_lines : bytes := three_lines ++ str "d" ++ [newline].

Lemma ed_delete_lines_witness :
  let f := match NewTextEditor (Some (Ret four_lines)) with Ret f => f | _ => Text.file0 end in
  exists f', DoCommand (H := Text.text_Editor no_regexp) no_file (fun _ => []) (str "1,2d") (f, {| buf := [] |})
      = ((f', {| buf := [] |}), Ret Running) /\
    TextFacts.wf f' /\ Text.text f' = str "c" ++ [newline] ++ str "d" ++ [newline].
Proof.
  intros f.
  apply (ed_delete_lines no_regexp no_file (fun _ => []) f {| buf := [] |} four_lines 1 2);
    vm_compute; (reflexivity || congruence).
Defined.

(** [a,bd] with exactly one line after [b] deletes that last line as well: the
    bound [endLine >= len(f.lines)] of [SliceX] takes the last line for the end. *)
Theorem ed_delete_takes_last_line {W} `{Writer W} Compile open Error (f : Text.file) (w : W) (d : bytes) (a b : Z) :
  TextFacts.wf f -> Text.data f = Some d -> 1 <= a -> a <= b -> b + 1 = zlen (makeLines d) ->
  zlen (makeLines d) < 2 ^ 63 ->
  exists f', DoCommand (H := Text.text_Editor Compile) open Error (Itoa a ++ x2c :: Itoa b ++ str "d") (f, w)
      = ((f', w), Ret Running) /\
    Text.text f' = concat (take (Z.to_nat (a - 1)) (makeLines d)).
Proof.
  intros Hw Hd Ha Hab Hb Hl. destruct (delete_run Compile open Error f w d a b Hw Hd Ha Hab) as (f' & E & _ & Et);
    [lia..|]. exists f'. split; [exact E|].
  rewrite Et. destruct (Z.leb_spec (zlen (makeLines d)) (b + 1)); [|lia].
  by rewrite take_line_off, drop_ge, app_nil_r by (unfold zlen; lia).
Qed.

Lemma ed_delete_takes_last_line_witness :
  exists f', DoCommand (H := Text.text_Editor no_regexp) no_file (fun _ => []) (str "1,2d") (ex_file, {| buf := [] |})
      = ((f', {| buf := [] |}), Ret Running) /\ Text.text f' = [].
Proof.
  apply (ed_delete_takes_last_line no_regexp no_file (fun _ => []) ex_file {| buf := [] |} three_lines 1 2);
    vm_compute; (reflexivity || congruence).
Defined.

(** The substitute command crashes the editor when its argument has fewer than three
    fields. *)
Example ed_short_s_panics :
  snd (DoCommand (H := Text.text_Editor no_regexp) no_file (fun _ => []) (str "1s/a/b") (ex_file, {| buf := [] |})) = Panic /\
  snd (DoCommand (H := Text.text_Editor no_regexp) no_file (fun _ => []) (str "s") (ex_file, {| buf := [] |})) = Panic.
Proof. split; vm_compute; reflexivity. Qed.

(** [e] on a buffer of one line inserts the new file instead of replacing the line. *)
Example ed_e_keeps_single_line :
  let f := match NewTextEditor (Some (Ret (str "old"))) with Ret f => f | _ => Text.file0 end in
  Text.text (fst (fst (DoCommand (H := Text.text_Editor no_regexp) (fun _ => inl (str "new")) (fun _ => [])
    (str "e file") (f, {| buf := [] |})))) = str "newold".
Proof. vm_compute. reflexivity. Qed.
