(* ===== verification/RushParse.v ===== *)
(** * The shell's parser ([cmds/rush/parse.go])

    The tokenizer over a [bufio.Reader] with one byte of pushback, the command parser and the
    rules a command line must obey.  The loops of the parser do not all end, so they take
    fuel: [None] is a run that needs more. *)

From Stdlib Require Import Strings.String.
From S2P Require Export GoUtf8 GoPath.

(** ** [bufio.Reader]

    What is left to read and the last byte read, which [UnreadByte] puts back once. *)
Record reader := MkReader { rest : bytes; lastByte : option byte }.

Definition NewReader (s : bytes) : reader := MkReader s None.

(** Computations on the reader: no result yet, or a result; [panic(err)] is [Fail], which
    [getCommand] recovers. *)
Definition P (A : Type) : Type := reader -> option (reader * outcome error A).

#[export] Instance P_ret : MRet P := fun A a b => Some (b, Ret a).
#[export] Instance P_bind : MBind P := fun A B f m b =>
  match m b with
  | None => None
  | Some (b, Ret a) => f a b
  | Some (b, Fail e) => Some (b, Fail e)
  | Some (b, Panic) => Some (b, Panic)
  end.

Definition diverge {A} : P A := fun _ => None.
Definition throw {A} (e : error) : P A := fun b => Some (b, Fail e).

(** [UnreadByte] fails when no byte was read since the last one. *)
Definition pushback : P unit := fun b =>
  match lastByte b with
  | Some c => Some (MkReader (c :: rest b) None, Ret tt)
  | None => Some (b, Fail (Errorf "unreading bufio: %v"))
  end.

(** [one]: 0 at the end of the input, where the last byte is kept. *)
Definition one : P byte := fun b =>
  match rest b with
  | c :: r => Some (MkReader r (Some c), Ret c)
  | [] => Some (b, Ret x00)
  end.

Definition next : P byte :=
  c ← one;
  if byte_eqb c x5c then one else mret c.

(** ** Tokens *)

Inductive tokType := White | EOF | FD | ENV | ARG | EOL | LINK | BG.

#[export] Instance tokType_eq_dec : EqDecision tokType.
Proof. solve_decision. Defined.

(** The characters that end a word: < > | & $ space tab newline. *)
Definition punct : bytes := [x3c; x3e; x7c; x26; x24; x20; x09; x0a].

(** [strings.Index(punct, string(c)) > -1]. *)
Definition is_punct (c : byte) : bool := in_set punct c.

(** [string(c)]: the UTF-8 encoding of the code point [c]. *)
Definition to_string (c : byte) : bytes := EncodeRune (b2z c).

(** The loops of [tok]: a word, which ends at the end of the input or before a
    punctuation character, *)
Fixpoint word (fuel : nat) (arg : bytes) (c : byte) : P bytes :=
  match fuel with
  | O => diverge
  | S fuel =>
      if byte_eqb c x00 then mret arg
      else if is_punct c then _ ← pushback; mret arg
      else c' ← next; word fuel (arg ++ to_string c) c'
  end.

(** And a quoted argument, which ends at the next quote. *)
Fixpoint quoted (fuel : nat) (arg : bytes) : P bytes :=
  match fuel with
  | O => diverge
  | S fuel =>
      nc ← next;
      if byte_eqb nc x27 then mret arg else quoted fuel (arg ++ to_string nc)
  end.

Definition tok (fuel : nat) : P (tokType * bytes) :=
  c ← next;
  if byte_eqb c x00 then mret (EOF, [])
  else if byte_eqb c x3e then mret (FD, str "1")
  else if byte_eqb c x3c then mret (FD, str "0")
  else if byte_eqb c x24 then c ← next; arg ← word fuel [] c; mret (ENV, arg)
  else if byte_eqb c x27 then arg ← quoted fuel []; mret (ARG, arg)
  else if byte_eqb c x20 || byte_eqb c x09 then mret (White, to_string c)
  else if byte_eqb c x0a then mret (EOL, [])
  else if byte_eqb c x7c || byte_eqb c x26 then
    nc ← one;
    if byte_eqb nc c then mret (LINK, to_string c ++ to_string c)
    else
      _ ← pushback;
      if byte_eqb c x26 then mret (BG, if byte_eqb nc x00 then str "EOL" else str "BG")
      else mret (LINK, to_string c)
  else arg ← word fuel [] c; mret (ARG, arg).

(** ** Commands *)

(** The fields the parser fills in. *)
Record Command := MkCommand {
  args : list (bytes * tokType); fdmap : gmap Z bytes; link : bytes; bg : bool
}.

Definition newCommand : Command := MkCommand [] ∅ [] false.

Definition add_arg (s : bytes) (t : tokType) (c : Command) : Command :=
  MkCommand (args c ++ [(s, t)]) (fdmap c) (link c) (bg c).
Definition add_fd (x : Z) (s : bytes) (c : Command) : Command :=
  MkCommand (args c) (<[x := s]> (fdmap c)) (link c) (bg c).
Definition set_link (s : bytes) (c : Command) : Command := MkCommand (args c) (fdmap c) s (bg c).
Definition set_bg (c : Command) : Command := MkCommand (args c) (fdmap c) (link c) true.

(** [getArg]: the next token that is not white must be an argument. *)
Fixpoint getArg (fuel : nat) : P bytes :=
  match fuel with
  | O => diverge
  | S fuel =>
      '(nt, s) ← tok fuel;
      match nt with
      | EOF | EOL => throw (Errorf "%v requires an argument")
      | White => getArg fuel
      | ARG => mret s
      | _ => throw (Errorf "%v requires an argument, not %v")
      end
  end.

Section Parse.
(** The environment files, [ioutil.ReadFile] of a name. *)
Context (ReadFile : bytes -> option bytes).

Definition envDir : bytes := str "/env".

(** The loop of [parsestring] on the token [t], [s] at hand; the command is the mutable
    object the loop fills in.  A variable is a file parsed into the same command. *)
Fixpoint parse_loop (fuel : nat) (t : tokType) (s : bytes) (c : Command) : P (Command * tokType) :=
  match fuel with
  | O => diverge
  | S fuel =>
      let continue c := '(t, s) ← tok fuel; parse_loop fuel t s c in
      match t with
      | ENV =>
          let s := if IsAbs s then s else PathJoin [envDir; s] in
          match ReadFile s with
          | None => throw (Errorf "%s: %v")
          | Some file => fun b =>
              match ('(t, s) ← tok fuel;
                     if bool_decide (s = [x0a] \/ t = EOF \/ t = EOL) then mret (c, t)
                     else parse_loop fuel t s c) (NewReader file) with
              | None => None
              | Some (_, Ret (c, _)) => continue c b
              | Some (_, Fail e) => Some (b, Fail e)
              | Some (_, Panic) => Some (b, Panic)
              end
          end
      | ARG => continue (add_arg s t c)
      | White => continue c
      | FD =>
          (** [Sscanf] of "0" or "1" *)
          let x := if bytes_eqb s (str "1") then 1 else 0 in
          a ← getArg fuel; continue (add_fd x a c)
      | LINK => mret (set_link s c, t)
      | BG => mret (set_bg c, t)
      | EOF | EOL => mret (c, t)
      end
  end.

Definition parsestring (fuel : nat) (c : Command) : P (option Command * tokType) :=
  '(t, s) ← tok fuel;
  if bool_decide (s = [x0a] \/ t = EOF \/ t = EOL) then mret (None, t)
  else '(c, t) ← parse_loop fuel t s c; mret (Some c, t).

Definition parse (fuel : nat) : P (option Command * tokType) := parsestring fuel newCommand.

Fixpoint parsecommands (fuel : nat) (cmds : list Command) : P (list Command * tokType) :=
  match fuel with
  | O => diverge
  | S fuel =>
      '(c, t) ← parse fuel;
      match c with
      | None => mret (cmds, t)
      | Some c =>
          let cmds := cmds ++ [c] in
          if bool_decide (t = EOF \/ t = EOL) then mret (cmds, t) else parsecommands fuel cmds
      end
  end.

(** ** The rules *)

Definition pipe : bytes := str "|".

(** [c.fdmap[fd]] of a map of strings: the empty string when there is none. *)
Definition fd_name (c : Command) (fd : Z) : bytes := default [] (fdmap c !! fd).

(** The checks on the commands, in order; the rest of the list follows [c]. *)
Fixpoint check_rules (cs : list Command) : option error :=
  match cs with
  | [] => None
  | c :: cs =>
      if bool_decide (args c = []) then Some (Errorf "empty commands not allowed (yet)")
      else if bytes_eqb (link c) pipe && negb (bytes_eqb (fd_name c 1) []) then
        Some (Errorf "Can't have a pipe and > on one command")
      else
        match cs with
        | [] => if bytes_eqb (link c) pipe then Some (Errorf "Can't have a pipe to nowhere") else None
        | c' :: _ =>
            if bytes_eqb (link c) pipe && negb (bytes_eqb (fd_name c' 0) []) then
              Some (Errorf "Can't have a pipe to command with redirect on stdin")
            else check_rules cs
        end
  end.

(** [getCommand]: the commands and the closing token, with the error if there is one. *)
Definition getCommand (fuel : nat) (b : reader) : option (reader * (list Command * option tokType * option error)) :=
  match parsecommands fuel [] b with
  | None => None
  | Some (b, Ret (cs, t)) =>
      match check_rules cs with
      | Some e => Some (b, ([], None, Some e))
      | None => Some (b, (cs, Some t, None))
      end
  | Some (b, Fail e) => Some (b, ([], None, Some e))
  | Some (b, Panic) => Some (b, ([], None, Some (Errorf "runtime error")))
  end.
End Parse.

(** ** Words *)

(** A byte that stands for itself in a word. *)
Definition safe (c : byte) : Prop :=
  is_punct c = false /\ c <> x00 /\ c <> x5c /\ c <> x27 /\ b2z c < 0x80.

Definition safe_word (w : bytes) : Prop := w <> [] /\ Forall safe w.

Lemma P_bind_Some {A B} (m : P A) (f : A -> P B) b b' a :
  m b = Some (b', Ret a) -> (m ≫= f) b = f a b'.
Proof. intros H. unfold mbind, P_bind. by rewrite H. Qed.

Lemma next_safe c r lb : c <> x5c -> next (MkReader (c :: r) lb) = Some (MkReader r (Some c), Ret c).
Proof.
  intros Hc. unfold next, one, mbind, P_bind. cbn.
  assert (byte_eqb c x5c = false) as -> by (by apply byte_eqb_neq). done.
Qed.

Lemma safe_string c : safe c -> to_string c = [c].
Proof. intros (_ & _ & _ & _ & Hc). by apply EncodeRune_ascii. Qed.

Lemma safe_step fuel arg c b :
  safe c -> word (S fuel) arg c b = (c' ← next; word fuel (arg ++ [c]) c') b.
Proof.
  intros Hs. cbn [word]. rewrite safe_string by done. destruct Hs as (Hp & H0 & _).
  assert (byte_eqb c x00 = false) as -> by (by apply byte_eqb_neq). by rewrite Hp.
Qed.

(** Reading a word up to the punctuation byte after it: nothing yet without enough fuel. *)
Lemma word_safe fuel arg c w p r lb :
  Forall safe (c :: w) -> is_punct p = true -> p <> x5c ->
  word fuel arg c (MkReader (w ++ p :: r) lb) =
    if (S (length w) <? fuel)%nat then Some (MkReader (p :: r) None, Ret (arg ++ c :: w)) else None.
Proof.
  intros Hs Hp Hp'. revert arg c w lb Hs. induction fuel as [|fuel IH]; intros arg c w lb Hs; [done|].
  apply Forall_cons in Hs as [Hc Hw]. rewrite safe_step by done. destruct w as [|d w].
  - cbn [app]. rewrite (P_bind_Some _ _ _ _ _ (next_safe p r lb Hp')).
    destruct fuel as [|fuel]; [done|]. cbn [word length]. rewrite Hp.
    destruct (byte_eqb p x00) eqn:E; [by apply byte_eqb_eq in E as ->|]. done.
  - assert (safe d) as Hd by (by apply Forall_cons in Hw as [? _]).
    assert (d <> x5c) as Hd' by (by destruct Hd as (_ & _ & ? & _)).
    cbn [app]. rewrite (P_bind_Some _ _ _ _ _ (next_safe d (w ++ p :: r) lb Hd')).
    rewrite IH by done. cbn [length]. rewrite <- app_assoc. cbn [app].
    destruct (Nat.ltb_spec (S (length w)) fuel), (Nat.ltb_spec (S (S (length w))) (S fuel)); done || lia.
Qed.

(** The bytes [tok] treats specially are not safe. *)
Lemma safe_not_special c :
  safe c -> Forall (fun x => byte_eqb c x = false) [x00; x3e; x3c; x24; x27; x20; x09; x0a; x7c; x26].
Proof.
  intros (Hp & H0 & _ & Hq & _). unfold is_punct, in_set in Hp.
  repeat (apply orb_false_elim in Hp as [? Hp]).
  repeat (apply Forall_cons_2; [first [assumption|by apply byte_eqb_neq]|]). apply Forall_nil_2.
Qed.

Lemma tok_word fuel c w p r lb :
  Forall safe (c :: w) -> is_punct p = true -> p <> x5c -> (S (length w) < fuel)%nat ->
  tok fuel (MkReader (c :: w ++ p :: r) lb) = Some (MkReader (p :: r) None, Ret (ARG, c :: w)).
Proof.
  intros Hs Hp Hp' Hf. assert (safe c) as Hc by (by apply Forall_cons in Hs as [? _]).
  assert (c <> x5c) as Hc' by (by destruct Hc as (_ & _ & ? & _)).
  unfold tok. rewrite (P_bind_Some _ _ _ _ _ (next_safe c (w ++ p :: r) lb Hc')).
  pose proof (safe_not_special c Hc) as Hn. repeat (apply Forall_cons in Hn as [-> Hn]). cbn [orb].
  unfold mbind, P_bind. rewrite word_safe by done.
  destruct (Nat.ltb_spec (S (length w)) fuel); [done|lia].
Qed.

Lemma tok_space fuel r lb : tok fuel (MkReader (x20 :: r) lb) = Some (MkReader r (Some x20), Ret (White, [x20])).
Proof. done. Qed.

Lemma tok_newline fuel r lb : tok fuel (MkReader (x0a :: r) lb) = Some (MkReader r (Some x0a), Ret (EOL, [])).
Proof. done. Qed.

Lemma tok_pipe fuel r lb :
  tok fuel (MkReader (x7c :: x20 :: r) lb) = Some (MkReader (x20 :: r) None, Ret (LINK, pipe)).
Proof. done. Qed.

(** ** Parsing words *)

Section Words.
Context (ReadFile : bytes -> option bytes).

(** The words after the first, each behind a space. *)
Definition tail_words (ws : list bytes) : bytes := concat ((fun w => x20 :: w) <$> ws).

Definition with_words (ws : list bytes) (c : Command) : Command :=
  MkCommand (args c ++ ((fun w => (w, ARG)) <$> ws)) (fdmap c) (link c) (bg c).

Lemma step_word fuel c w w2 p r lb :
  safe_word w2 -> is_punct p = true -> p <> x5c -> (length w2 < fuel)%nat ->
  parse_loop ReadFile (S (S fuel)) ARG w c (MkReader (x20 :: w2 ++ p :: r) lb) =
  parse_loop ReadFile fuel ARG w2 (add_arg w ARG c) (MkReader (p :: r) None).
Proof.
  intros [Hne Hs] Hp Hp' Hf. destruct w2 as [|d w2]; [done|]. cbn [length] in Hf.
  cbn [parse_loop]. rewrite (P_bind_Some _ _ _ _ _ (tok_space (S fuel) _ _)).
  cbn [parse_loop app]. by rewrite (P_bind_Some _ _ _ _ _ (tok_word fuel d w2 p r _ Hs Hp Hp' Hf)).
Qed.

(** All words of a command, up to the byte [p] that ends the last one. *)
Lemma words_loop ws fuel c w p r :
  Forall safe_word ws -> is_punct p = true -> p <> x5c ->
  Forall (fun w => (length w < fuel)%nat) ws ->
  exists w', parse_loop ReadFile (2 * length ws + fuel) ARG w c (MkReader (tail_words ws ++ p :: r) None) =
    parse_loop ReadFile fuel ARG w' (with_words (removelast (w :: ws)) c) (MkReader (p :: r) None) /\
    last (w :: ws) = Some w'.
Proof.
  intros Hws Hp Hp'. revert c w. induction Hws as [|v ws Hv Hws IH]; intros c w Hf.
  - exists w. split; [|done]. cbn. unfold with_words. rewrite app_nil_r. by destruct c.
  - apply Forall_cons in Hf as [Hvf Hf]. unfold tail_words. rewrite fmap_cons, concat_cons.
    fold (tail_words ws). rewrite <- app_assoc. cbn [app].
    replace (2 * length (v :: ws) + fuel)%nat with (S (S (2 * length ws + fuel))) by (simpl; lia).
    assert (exists p' r', tail_words ws ++ p :: r = p' :: r' /\ is_punct p' = true /\ p' <> x5c) as (p' & r' & E & H1 & H2).
    { destruct ws; [by exists p, r|]. by eexists x20, _. }
    rewrite E, step_word by (done || lia). rewrite <- E.
    destruct (IH (add_arg w ARG c) v Hf) as (w' & -> & Hl). exists w'. split; [|done].
    f_equal. unfold with_words, add_arg. cbn [args fdmap link bg].
    change (removelast (w :: v :: ws)) with (w :: removelast (v :: ws)).
    rewrite fmap_cons, <- app_assoc. done.
Qed.

Lemma with_words_snoc w w' ws c :
  last (w :: ws) = Some w' -> add_arg w' ARG (with_words (removelast (w :: ws)) c) = with_words (w :: ws) c.
Proof.
  intros Hl. unfold add_arg, with_words. cbn [args fdmap link bg]. f_equal.
  rewrite <- app_assoc. f_equal. apply last_Some in Hl as [l El]. rewrite El.
  rewrite removelast_last, fmap_app. done.
Qed.

(** A command that ends its line, and one that is piped into the next. *)
Lemma words_eol ws fuel w r :
  Forall safe_word ws -> Forall (fun w => (length w < S (S fuel))%nat) ws ->
  parse_loop ReadFile (2 * length ws + S (S fuel)) ARG w newCommand (MkReader (tail_words ws ++ x0a :: r) None) =
    Some (MkReader r (Some x0a), Ret (with_words (w :: ws) newCommand, EOL)).
Proof.
  intros Hws Hf. destruct (words_loop ws (S (S fuel)) newCommand w x0a r Hws eq_refl ltac:(done) Hf) as (w' & -> & Hl).
  cbn [parse_loop]. rewrite (P_bind_Some _ _ _ _ _ (tok_newline (S fuel) _ _)). cbn [parse_loop].
  by rewrite with_words_snoc.
Qed.

Lemma words_pipe ws fuel w r :
  Forall safe_word ws -> Forall (fun w => (length w < S (S (S fuel)))%nat) ws ->
  parse_loop ReadFile (2 * length ws + S (S (S fuel))) ARG w newCommand
    (MkReader (tail_words ws ++ x20 :: x7c :: x20 :: r) None) =
    Some (MkReader (x20 :: r) None, Ret (set_link pipe (with_words (w :: ws) newCommand), LINK)).
Proof.
  intros Hws Hf. destruct (words_loop ws (S (S (S fuel))) newCommand w x20 (x7c :: x20 :: r) Hws eq_refl ltac:(done) Hf)
    as (w' & -> & Hl).
  cbn [parse_loop]. rewrite (P_bind_Some _ _ _ _ _ (tok_space (S (S fuel)) _ _)). cbn [parse_loop].
  rewrite (P_bind_Some _ _ _ _ _ (tok_pipe (S fuel) _ _)). cbn [parse_loop].
  by rewrite with_words_snoc.
Qed.
End Words.

(** ** Command lines *)

Definition cmd_text (ws : list bytes) : bytes :=
  match ws with [] => [] | w :: ws => w ++ tail_words ws end.

(** Commands joined by pipes, on a line. *)
Fixpoint line_text (css : list (list bytes)) : bytes :=
  match css with
  | [] => [x0a]
  | [ws] => cmd_text ws ++ [x0a]
  | ws :: css => cmd_text ws ++ x20 :: x7c :: x20 :: line_text css
  end.

(** What such a line means. *)
Fixpoint line_commands (css : list (list bytes)) : list Command :=
  match css with
  | [] => []
  | [ws] => [with_words ws newCommand]
  | ws :: css => set_link pipe (with_words ws newCommand) :: line_commands css
  end.

Definition good_cmd (ws : list bytes) : Prop := ws <> [] /\ Forall safe_word ws.

Section Lines.
Context (ReadFile : bytes -> option bytes).

Lemma tail_words_length ws : Forall safe_word ws -> (2 * length ws <= length (tail_words ws))%nat.
Proof.
  induction 1 as [|w ws [Hw _] Hws IH]; [done|]. unfold tail_words in *. rewrite fmap_cons, concat_cons, length_app.
  destruct w; [done|]. simpl in *. lia.
Qed.

Lemma tail_words_bound ws v : Forall safe_word ws -> v ∈ ws -> (length v + 2 * length ws <= S (length (tail_words ws)))%nat.
Proof.
  induction 1 as [|w ws [Hw Hs] Hws IH]; [by intros ?%elem_of_nil|]. intros Hv.
  unfold tail_words in *. rewrite fmap_cons, concat_cons, length_app. simpl length in *.
  destruct w as [|c w]; [done|]. simpl in *. apply elem_of_cons in Hv as [->|Hv].
  - pose proof (tail_words_length ws Hws) as Ht. unfold tail_words in Ht. simpl. lia.
  - specialize (IH Hv). lia.
Qed.

(** What [parse] needs of its fuel. *)
Lemma words_fuel w ws fuel :
  Forall safe_word (w :: ws) -> (length (cmd_text (w :: ws)) + 4 <= fuel)%nat ->
  (length w < fuel)%nat /\ exists k, fuel = (2 * length ws + S (S (S k)))%nat /\
    Forall (fun v => (length v < S (S k))%nat) ws.
Proof.
  intros Hs Hf. apply Forall_cons in Hs as [[Hw _] Hs]. cbn [cmd_text] in Hf. rewrite length_app in Hf.
  pose proof (tail_words_length ws Hs). split; [lia|].
  assert (1 <= length w)%nat by (destruct w; simpl; [done|lia]).
  exists (fuel - 2 * length ws - 3)%nat. split; [lia|]. apply Forall_forall. intros v Hv.
  pose proof (tail_words_bound ws v Hs Hv). lia.
Qed.

(** The start of a command, with or without a space before it. *)
Lemma parse_start (lead : bool) fuel w ws p r lb :
  Forall safe_word (w :: ws) -> is_punct p = true -> p <> x5c ->
  (length (cmd_text (w :: ws)) + 4 <= fuel)%nat ->
  exists k, (length (cmd_text (w :: ws)) + 4 <= k)%nat /\
  parse ReadFile (S fuel) (MkReader ((if lead then [x20] else []) ++ cmd_text (w :: ws) ++ p :: r) lb) =
    match parse_loop ReadFile k ARG w newCommand (MkReader (tail_words ws ++ p :: r) None) with
    | None => None
    | Some (b, Ret (c, t)) => Some (b, Ret (Some c, t))
    | Some (b, Fail e) => Some (b, Fail e)
    | Some (b, Panic) => Some (b, Panic)
    end.
Proof.
  intros Hs Hp Hp' Hf. assert (Hs' := Hs). apply Forall_cons in Hs' as [[Hne Hw] Hws].
  destruct w as [|c w]; [done|].
  assert (exists p' r', tail_words ws ++ p :: r = p' :: r' /\ is_punct p' = true /\ p' <> x5c) as (p' & r' & E & H1 & H2).
  { destruct ws; [by exists p, r|]. by eexists x20, _. }
  assert (length (cmd_text ((c :: w) :: ws)) = (S (length w) + length (tail_words ws))%nat) as El
    by (cbn [cmd_text]; by rewrite length_app).
  cbn [cmd_text]. rewrite <- app_assoc, E. unfold parse, parsestring. destruct lead; cbn [app].
  - exists fuel. split; [done|]. rewrite (P_bind_Some _ _ _ _ _ (tok_space (S fuel) _ _)).
    rewrite bool_decide_eq_false_2 by naive_solver. cbn [parse_loop].
    unfold mbind, P_bind. rewrite tok_word by (done || lia).
    by destruct (parse_loop ReadFile fuel ARG (c :: w) newCommand _) as [[b [[c' t]|e|]]|].
  - exists (S fuel). split; [eapply Nat.le_trans; [exact Hf|lia]|].
    rewrite (P_bind_Some _ _ _ _ _ (tok_word (S fuel) c w p' r' lb Hw H1 H2 ltac:(lia))).
    rewrite bool_decide_eq_false_2.
    2:{ intros [Hx|[Hx|Hx]]; [|done..]. injection Hx as -> _.
        apply Forall_cons in Hw as [(Hx & _) _]. done. }
    unfold mbind, P_bind.
    by destruct (parse_loop ReadFile (S fuel) ARG (c :: w) newCommand _) as [[b [[c' t]|e|]]|].
Qed.

Lemma parse_eol (lead : bool) fuel ws r lb :
  good_cmd ws -> (length (cmd_text ws) + 4 <= fuel)%nat ->
  parse ReadFile (S fuel) (MkReader ((if lead then [x20] else []) ++ cmd_text ws ++ x0a :: r) lb) =
    Some (MkReader r (Some x0a), Ret (Some (with_words ws newCommand), EOL)).
Proof.
  intros [Hne Hs] Hf. destruct ws as [|w ws]; [done|].
  destruct (parse_start lead fuel w ws x0a r lb Hs eq_refl ltac:(done) Hf) as (k & Hk & ->).
  destruct (words_fuel w ws k Hs Hk) as (_ & j & -> & Hj). apply Forall_cons in Hs as [_ Hs].
  rewrite words_eol; [done|done|]. eapply Forall_impl; [exact Hj|]. cbn. lia.
Qed.

Lemma parse_piped (lead : bool) fuel ws r lb :
  good_cmd ws -> (length (cmd_text ws) + 4 <= fuel)%nat ->
  parse ReadFile (S fuel) (MkReader ((if lead then [x20] else []) ++ cmd_text ws ++ x20 :: x7c :: x20 :: r) lb) =
    Some (MkReader (x20 :: r) None, Ret (Some (set_link pipe (with_words ws newCommand)), LINK)).
Proof.
  intros [Hne Hs] Hf. destruct ws as [|w ws]; [done|].
  destruct (parse_start lead fuel w ws x20 (x7c :: x20 :: r) lb Hs eq_refl ltac:(done) Hf) as (k & Hk & ->).
  destruct (words_fuel w ws k Hs Hk) as (_ & j & -> & Hj). apply Forall_cons in Hs as [_ Hs].
  rewrite words_pipe; [done|done|]. eapply Forall_impl; [exact Hj|]. cbn. lia.
Qed.

Lemma parsecommands_line css (lead : bool) fuel acc r lb :
  css <> [] -> Forall good_cmd css -> (length (line_text css) + 5 <= fuel)%nat ->
  parsecommands ReadFile fuel acc (MkReader ((if lead then [x20] else []) ++ line_text css ++ r) lb) =
    Some (MkReader r (Some x0a), Ret (acc ++ line_commands css, EOL)).
Proof.
  intros Hne Hcs. revert lead fuel acc lb Hne. induction Hcs as [|ws css Hws Hcs IH]; intros lead fuel acc lb Hne Hf; [done|].
  destruct fuel as [|fuel]; [lia|]. cbn [parsecommands]. destruct css as [|ws' css].
  - cbn [line_text line_commands] in *. rewrite length_app in Hf. cbn [length] in Hf.
    rewrite <- app_assoc. cbn [app]. destruct fuel as [|fuel]; [lia|].
    rewrite (P_bind_Some _ _ _ _ _ (parse_eol lead fuel ws r lb Hws ltac:(lia))).
    by rewrite bool_decide_eq_true_2 by naive_solver.
  - cbn [line_text line_commands] in *. set (rest_text := line_text (ws' :: css)) in *.
    rewrite length_app in Hf. cbn [length] in Hf. fold rest_text in Hf.
    rewrite <- app_assoc. cbn [app]. destruct fuel as [|fuel]; [lia|]. fold rest_text.
    rewrite (P_bind_Some _ _ _ _ _ (parse_piped lead fuel ws (rest_text ++ r) lb Hws ltac:(lia))).
    rewrite bool_decide_eq_false_2 by naive_solver.
    change (x20 :: rest_text ++ r) with ((if true then [x20] else []) ++ rest_text ++ r).
    rewrite IH by (done || lia). by rewrite <- app_assoc.
Qed.

(** The commands of a line of words obey the rules. *)
Lemma line_rules css : Forall good_cmd css -> check_rules (line_commands css) = None.
Proof.
  induction 1 as [|ws css Hws Hcs IH]; [done|].
  destruct Hws as [Hne _]. destruct ws as [|w ws]; [done|]. clear Hne. destruct css as [|ws' css].
  - cbn [line_commands check_rules]. by rewrite bool_decide_eq_false_2.
  - change (line_commands ((w :: ws) :: ws' :: css))
      with (set_link pipe (with_words (w :: ws) newCommand) :: line_commands (ws' :: css)).
    destruct (line_commands (ws' :: css)) as [|c' cs'] eqn:E; [by destruct css|].
    cbn [check_rules]. rewrite bool_decide_eq_false_2 by done.
    assert (fd_name c' 0 = []) as Hf by (destruct css; cbn in E; by injection E as <- _).
    rewrite Hf. exact IH.
Qed.
End Lines.

Lemma check_rules_tail c cs : check_rules (c :: cs) = None -> check_rules cs = None.
Proof. cbn. by repeat case_match. Qed.

(** ** What does not end *)

Lemma one_rest x b b' c : one b = Some (b', Ret c) -> x ∉ rest b -> (x ∉ rest b') /\ (c = x -> x = x00).
Proof.
  unfold one. destruct b as [[|d r] lb]; cbn; intros [= <- <-] Hx; [by split; [|intros <-]|]. cbn.
  apply not_elem_of_cons in Hx as [Hx1 Hx2]. split; [done|]. intros ->. done.
Qed.

(** Without a closing quote in the rest of the input a quoted argument never ends. *)
Lemma quoted_diverges fuel arg b : x27 ∉ rest b -> quoted fuel arg b = None.
Proof.
  revert arg b. induction fuel as [|fuel IH]; intros arg b Hb; [done|]. cbn [quoted].
  unfold mbind, P_bind. destruct (next b) as [[b' [c|e|]]|] eqn:E; [| | |done].
  - assert ((x27 ∉ rest b') /\ c <> x27) as [Hb' Hc].
    { unfold next, mbind, P_bind in E. destruct (one b) as [[b1 [c1|e|]]|] eqn:E1; [|done..].
      apply (one_rest x27) in E1 as [H1 H2]; [|done].
      destruct (byte_eqb c1 x5c).
      - apply (one_rest x27) in E as [H3 H4]; [|done]. split; [done|]. intros ->. by specialize (H4 eq_refl).
      - unfold mret, P_ret in E. injection E as <- <-. split; [done|]. intros ->. by specialize (H2 eq_refl). }
    assert (byte_eqb c x27 = false) as -> by (by apply byte_eqb_neq). by apply IH.
  - unfold next, one, mbind, P_bind, mret, P_ret in E. repeat case_match; simplify_eq.
  - unfold next, one, mbind, P_bind, mret, P_ret in E. repeat case_match; simplify_eq.
Qed.

(** A [|] or [&] at the very end of the input is read again and again. *)
Lemma tok_link_at_end fuel c lb :
  c = x7c \/ c = x26 ->
  exists t s, tok fuel (MkReader [c] lb) = Some (MkReader [c] None, Ret (t, s)) /\ (t = LINK \/ t = BG) /\ s <> [x0a].
Proof. intros [-> | ->]; cbn; do 2 eexists; (split; [done|]); (split; [auto|done]). Qed.

Lemma parsecommands_link_at_end RF fuel cmds c lb :
  c = x7c \/ c = x26 -> parsecommands RF fuel cmds (MkReader [c] lb) = None.
Proof.
  intros Hc. revert cmds lb. induction fuel as [|fuel IH]; intros cmds lb; [done|]. cbn [parsecommands].
  destruct (tok_link_at_end fuel c lb Hc) as (t & s & E & Ht & Hs).
  unfold parse, parsestring. unfold mbind at 1, P_bind at 1. unfold mbind at 1, P_bind at 1. rewrite E.
  rewrite bool_decide_eq_false_2 by naive_solver.
  destruct fuel as [|fuel]; [done|]. unfold mbind, P_bind.
  assert (exists c', parse_loop RF (S fuel) t s newCommand (MkReader [c] None) = Some (MkReader [c] None, Ret (c', t))) as [c' ->]
    by (destruct Ht as [-> | ->]; eexists; reflexivity).
  cbn. rewrite bool_decide_eq_false_2 by naive_solver. apply IH.
Qed.

(** ** Properties *)

(** C21: a line of commands joined by pipes, each a sequence of plain words, is parsed into
    exactly these commands: the words as arguments, in order, a pipe from each command to
    the next, no redirection, nothing in the background; the reader stands after the line
    and one step of fuel per byte is enough. *)
Theorem getCommand_pipeline RF (css : list (list bytes)) (r : bytes) (fuel : nat) :
  css <> [] -> Forall good_cmd css -> (length (line_text css) + 5 <= fuel)%nat ->
  getCommand RF fuel (NewReader (line_text css ++ r)) =
    Some (MkReader r (Some x0a), (line_commands css, Some EOL, None)).
Proof.
  intros Hne Hcs Hf. unfold getCommand.
  pose proof (parsecommands_line RF css false fuel [] r None Hne Hcs Hf) as E. cbn [app] in E.
  unfold NewReader. rewrite E, line_rules by done. done.
Qed.

(** Plain words, decided. *)
Definition safeb (c : byte) : bool :=
  negb (is_punct c) && negb (byte_eqb c x00) && negb (byte_eqb c x5c) && negb (byte_eqb c x27) && (b2z c <? 0x80).

Lemma good_cmd_dec ws :
  ws <> [] -> forallb (fun w => negb (bytes_eqb w []) && forallb safeb w) ws = true -> good_cmd ws.
Proof.
  intros Hne Hb. split; [done|]. apply Forall_forall. intros w Hw. rewrite forallb_forall in Hb.
  apply list_elem_of_In in Hw. specialize (Hb w Hw). apply andb_prop in Hb as [Hn Hb].
  split; [intros ->; done|]. apply Forall_forall. intros c Hc. rewrite forallb_forall in Hb.
  apply list_elem_of_In in Hc. specialize (Hb c Hc). unfold safeb in Hb.
  rewrite !andb_true_iff, !negb_true_iff in Hb. destruct Hb as ((((H1 & H2) & H3) & H4) & H5).
  apply byte_eqb_neq in H2, H3, H4. apply Z.ltb_lt in H5. done.
Qed.

Lemma getCommand_pipeline_witness :
  getCommand (fun _ => None) 40 (NewReader (str "cat -n file | wc" ++ [x0a])) =
    Some (MkReader [] (Some x0a),
          (line_commands [[str "cat"; str "-n"; str "file"]; [str "wc"]], Some EOL, None)).
Proof.
  apply (getCommand_pipeline (fun _ => None) [[str "cat"; str "-n"; str "file"]; [str "wc"]] [] 40).
  - discriminate.
  - repeat (apply Forall_cons_2; [apply good_cmd_dec; [discriminate|vm_compute; reflexivity]|]). apply Forall_nil_2.
  - vm_compute. lia.
Defined.

(** The commands [getCommand] hands to the shell obey its rules: none is empty, and a
    command piped into the next has a next one, does not redirect its output, and the next
    one does not redirect its input. *)
Theorem getCommand_rules RF (fuel : nat) (b b' : reader) (cs : list Command) (t : option tokType) :
  getCommand RF fuel b = Some (b', (cs, t, None)) ->
  Forall (fun c => args c <> []) cs /\
  forall i c, cs !! i = Some c -> link c = pipe ->
    fd_name c 1 = [] /\ exists c', cs !! S i = Some c' /\ fd_name c' 0 = [].
Proof.
  unfold getCommand. destruct (parsecommands RF fuel [] b) as [[b1 [[cs1 t1]|e|]]|]; [|done..].
  destruct (check_rules cs1) eqn:Er; [done|]. intros [= _ <- _]. clear -Er.
  induction cs1 as [|c cs IH]; [split; [constructor|by intros]|].
  cbn [check_rules] in Er. case_bool_decide as Ha; [done|]. unfold bytes_eqb in Er.
  destruct (bool_decide (link c = pipe) && negb (bool_decide (fd_name c 1 = []))) eqn:E1; [done|].
  destruct cs as [|c' cs].
  - split; [by constructor|]. intros i c0 Hi Hl. destruct i as [|i]; [|done]. injection Hi as <-.
    rewrite bool_decide_eq_true_2 in Er by done. done.
  - destruct (bool_decide (link c = pipe) && negb (bool_decide (fd_name c' 0 = []))) eqn:E2; [done|].
    destruct (IH Er) as [IH1 IH2]. split; [by constructor|].
    intros i c0 Hi Hl. destruct i as [|i]; [|by apply IH2 in Hi]. injection Hi as <-.
    rewrite bool_decide_eq_true_2 in E1, E2 by done. cbn in E1, E2.
    apply negb_false_iff, bool_decide_eq_true in E1, E2. eauto.
Qed.

Lemma getCommand_rules_witness :
  exists b' cs, getCommand (fun _ => None) 40 (NewReader (str "cat <in | sort >out" ++ [x0a])) = Some (b', (cs, Some EOL, None)) /\
    Forall (fun c => args c <> []) cs /\ length cs = 2%nat.
Proof.
  destruct (getCommand (fun _ => None) 40 (NewReader (str "cat <in | sort >out" ++ [x0a])))
    as [[b' [[cs t] e]]|] eqn:E; [|vm_compute in E; discriminate].
  assert (e = None /\ t = Some EOL /\ length cs = 2%nat) as (-> & -> & Hl)
    by (vm_compute in E; injection E as <- <- <- <-; by split_and!).
  exists b', cs. split; [done|]. split; [|done].
  exact (proj1 (getCommand_rules _ _ _ _ _ _ E)).
Defined.

(** An opening quote with no closing one in the rest of the input, and a [&] or [|] that
    is the last byte of the input, make the parser run for ever: no amount of fuel gives a
    result. *)
Theorem getCommand_diverges RF (fuel : nat) (s : bytes) (lb : option byte) :
  x27 ∉ s ->
  getCommand RF fuel (MkReader (x27 :: s) lb) = None /\
  getCommand RF fuel (MkReader [x26] lb) = None /\
  getCommand RF fuel (MkReader [x7c] lb) = None.
Proof.
  intros Hs. unfold getCommand. rewrite !parsecommands_link_at_end by auto. split; [|done].
  destruct fuel as [|fuel]; [done|]. cbn [parsecommands]. unfold parse, parsestring.
  unfold mbind at 1, P_bind at 1. unfold mbind at 1, P_bind at 1.
  unfold tok. rewrite (P_bind_Some _ _ _ _ _ (next_safe x27 s lb ltac:(done))). cbn [byte_eqb].
  change (byte_eqb x27 x27) with true. cbn. unfold mbind, P_bind. by rewrite quoted_diverges.
Qed.

Lemma getCommand_diverges_witness :
  getCommand (fun _ => None) 400 (NewReader (x27 :: str "oops" ++ [x0a])) = None.
Proof.
  refine (proj1 (getCommand_diverges (fun _ => None) 400 (str "oops" ++ [x0a]) None _)).
  vm_compute. intros Hx. repeat (apply elem_of_cons in Hx as [Hx|Hx]; [discriminate|]). by apply elem_of_nil in Hx.
Defined.

(** After an error the rest of the line is still there, and is the next command: the error of
    [echo >| rm x] leaves [rm x] to be run. *)
Example getCommand_error_leaves_rest :
  match getCommand (fun _ => None) 40 (NewReader (str "echo >| rm x" ++ [x0a])) with
  | Some (b, ([], None, Some e)) =>
      e = Errorf "%v requires an argument, not %v" /\
      getCommand (fun _ => None) 40 b =
        Some (MkReader [] (Some x0a), (line_commands [[str "rm"; str "x"]], Some EOL, None))
  | _ => False
  end.
Proof. vm_compute. by split. Qed.

(** A byte from 0x80 on becomes two bytes of the argument. *)
Example tok_mangles_utf8 :
  option_map snd (tok 9 (NewReader ([xc3; xa9] ++ [x20]))) = Some (Ret (ARG, [xc3; x83; xc2; xa9])).
Proof. vm_compute. reflexivity. Qed.
