(* ===== verification/RushExec.v ===== *)
(** * Running command lines in the shell ([cmds/rush/rush.go], [cd.go], [exit.go], [time.go])

    Argument expansion, the wiring of standard streams and pipes, the builtins, and the loop
    that runs the commands of a line by their links and lines until the input ends.  Files,
    globbing and processes belong to the operating system and are parameters. *)

From Stdlib Require Import Strings.String.
From S2P Require Export RushParse.

(** Where a standard stream of a command leads: a stream of the shell, a file, or the pipe
    from command [from] to the next. *)
Inductive stream := Std (fd : Z) | File (name : bytes) | Pipe (from : nat).

#[export] Instance stream_eq_dec : EqDecision stream.
Proof. solve_decision. Defined.

(** The fields of [Command] the shell fills in; [opened] are its open files. *)
Record Cmd := MkCmd {
  parsed : Command; cmd : bytes; argv : list bytes;
  Stdin : option stream; Stdout : option stream; Stderr : option stream; opened : list Z
}.

Definition fresh (c : Command) : Cmd := MkCmd c [] [] None None None [].

Definition set_argv (n : bytes) (a : list bytes) (c : Cmd) : Cmd :=
  MkCmd (parsed c) n a (Stdin c) (Stdout c) (Stderr c) (opened c).
Definition set_Stdin (s : stream) (c : Cmd) : Cmd :=
  MkCmd (parsed c) (cmd c) (argv c) (Some s) (Stdout c) (Stderr c) (opened c).
Definition set_Stdout (s : stream) (c : Cmd) : Cmd :=
  MkCmd (parsed c) (cmd c) (argv c) (Stdin c) (Some s) (Stderr c) (opened c).
Definition set_Stderr (s : stream) (c : Cmd) : Cmd :=
  MkCmd (parsed c) (cmd c) (argv c) (Stdin c) (Stdout c) (Some s) (opened c).
Definition add_opened (fd : Z) (c : Cmd) : Cmd :=
  MkCmd (parsed c) (cmd c) (argv c) (Stdin c) (Stdout c) (Stderr c) (opened c ++ [fd]).

(** ** Arguments *)

Section Args.
(** [ioutil.ReadFile] and [filepath.Glob]; a pattern error has no matches. *)
Context (ReadFile : bytes -> option bytes) (Glob : bytes -> list bytes).

Definition expand_arg (v : bytes * tokType) : outcome error (list bytes) :=
  if bool_decide (snd v = ENV) then
    let e := if IsAbs (fst v) then fst v else PathJoin [envDir; fst v] in
    match ReadFile e with
    | None => Fail (Errno 2)
    | Some b => Ret [b]
    end
  else match Glob (fst v) with
       | [] => Ret [fst v]
       | globs => Ret globs
       end.

Fixpoint expand_args (vs : list (bytes * tokType)) : outcome error (list bytes) :=
  match vs with
  | [] => Ret []
  | v :: vs => a ← expand_arg v; b ← expand_args vs; Ret (a ++ b)
  end.

Fixpoint doArgs (cs : list Cmd) : outcome error (list Cmd) :=
  match cs with
  | [] => Ret []
  | c :: cs =>
      globargv ← expand_args (args (parsed c));
      match globargv with
      | [] => Panic
      | n :: a => cs ← doArgs cs; Ret (set_argv n a c :: cs)
      end
  end.
End Args.

(** [commands]: [exec.Command] leaves [SysProcAttr] nil, which the special case for a
    command called [builtin] dereferences. *)
Fixpoint commands (cs : list Cmd) : outcome error (list Cmd) :=
  match cs with
  | [] => Ret []
  | c :: cs =>
      if bytes_eqb (cmd c) (str "builtin") then Panic
      else cs ← commands cs; Ret (c :: cs)
  end.

(** ** Streams *)

Section Wire.
(** [os.Open] and [os.Create]. *)
Context (os_Open os_Create : bytes -> option error).

Definition openRead (c : Cmd) (r : stream) (fd : Z) : Cmd * (stream * option error) :=
  let name := fd_name (parsed c) fd in
  if bytes_eqb name [] then (c, (r, None)) else (add_opened fd c, (File name, os_Open name)).

Definition openWrite (c : Cmd) (w : stream) (fd : Z) : Cmd * (stream * option error) :=
  let name := fd_name (parsed c) fd in
  if bytes_eqb name [] then (c, (w, None)) else (add_opened fd c, (File name, os_Create name)).

Definition is_pipe (c : Cmd) : bool := bytes_eqb (link (parsed c)) pipe.

(** The standard streams of one command, as far as they are not pipes. *)
Definition wire_std (c : Cmd) : Cmd * option error :=
  let '(c, err) :=
    match Stdin c with
    | Some _ => (c, None)
    | None => let '(c, (s, err)) := openRead c (Std 0) 0 in (set_Stdin s c, err)
    end in
  match err with
  | Some _ => (c, err)
  | None =>
      let '(c, err) :=
        if is_pipe c then (c, None)
        else let '(c, (s, err)) := openWrite c (Std 1) 1 in (set_Stdout s c, err) in
      match err with
      | Some _ => (c, err)
      | None => let '(c, (s, err)) := openWrite c (Std 2) 2 in (set_Stderr s c, err)
      end
  end.

(** The loop of [wire] at command [i], with [n] commands to go. *)
Fixpoint wire_loop (n i : nat) (cs : list Cmd) : list Cmd * outcome error unit :=
  match n with
  | O => (cs, Ret tt)
  | S n =>
      match cs !! i with
      | None => (cs, Panic)
      | Some c =>
          let '(c, err) := wire_std c in
          let cs := <[i := c]> cs in
          match err with
          | Some e => (cs, Fail e)
          | None =>
              if is_pipe c then
                match cs !! S i with
                | None => (cs, Panic)
                | Some d =>
                    match Stdin d with
                    | Some _ => (cs, Fail (Errorf "exec: Stdin already set"))
                    | None =>
                        let cs := <[S i := set_Stdin (Pipe i) d]> cs in
                        match Stdout c with
                        | Some _ => (cs, Fail (Errorf "exec: Stdout already set"))
                        | None => wire_loop n (S i) (<[i := set_Stdout (Pipe i) c]> cs)
                        end
                    end
                end
              else wire_loop n (S i) cs
          end
      end
  end.

Definition wire (cs : list Cmd) : list Cmd * outcome error unit := wire_loop (length cs) 0 cs.
End Wire.

(** ** Running *)

(** How a command ends: its error, or the end of the shell. *)
Inductive ended := Done (err : option error) | Exit (code : Z) | Crash.

Section Run.
(** The world the commands act on: starting a process and waiting for it, starting one in the
    background, and changing directory. *)
Context {World : Type} (start_wait : Cmd -> World -> World * option error)
        (background : Cmd -> World -> World) (chdir : bytes -> World -> World * option error).

Definition cd (c : Cmd) (w : World) : World * ended :=
  match argv c with
  | [d] => let '(w, err) := chdir d w in (w, Done err)
  | _ => (w, Done (Some (Errorf "usage: cd one-path")))
  end.

Definition exitBuiltin (c : Cmd) (w : World) : World * ended :=
  match argv c with
  | [] => (w, Exit 0)
  | [a] =>
      match Atoi a with
      | (ret, None) => (w, Exit ret)
      | _ => (w, Done (Some (Errorf "Non numeric argument")))
      end
  | _ => (w, Done (Some (Errorf "Too many arguments")))
  end.

(** [runit]; the builtin [time] runs the rest of its arguments as a command.  The files of the
    command are closed at the end, after which nothing of the shell uses the command again; the
    times that [time] prints are left out. *)
Fixpoint runit_argv (c : Cmd) (n : bytes) (a : list bytes) (avs : list (bytes * tokType)) (w : World) : World * ended :=
  let c' := MkCmd (MkCommand avs (fdmap (parsed c)) (link (parsed c)) (bg (parsed c)))
              n a (Stdin c) (Stdout c) (Stderr c) (opened c) in
  if bytes_eqb n (str "cd") then cd c' w
  else if bytes_eqb n (str "exit") then exitBuiltin c' w
  else if bytes_eqb n (str "time") then
    match a with
    | [] => (w, Done None)
    | n' :: a' =>
        match avs with
        | [] => (w, Crash)
        | _ :: avs => runit_argv c n' a' avs w
        end
    end
  else let '(w, err) := start_wait c' w in (w, Done err).

Definition runit (c : Cmd) (w : World) : World * ended := runit_argv c (cmd c) (argv c) (args (parsed c)) w.

(** [command]; what a goroutine does with a command in the background is up to [background],
    except that it does not end the shell. *)
Definition command (c : Cmd) (w : World) : World * ended :=
  if bg (parsed c) then (background c w, Done None) else runit c w.

(** The commands of one line. *)
Fixpoint run_list (cs : list Cmd) (w : World) : World * ended :=
  match cs with
  | [] => (w, Done None)
  | c :: cs =>
      match command c w with
      | (w, Done (Some e)) =>
          if bytes_eqb (link (parsed c)) (str "||") then run_list cs w else (w, Done None)
      | (w, Done None) =>
          if bytes_eqb (link (parsed c)) (str "||") then (w, Done None) else run_list cs w
      | other => other
      end
  end.

(** One round of the loop of [main]: an error before the commands run is printed and the
    line given up ([false]), which skips the test for the end of the input. *)
Definition run_line (ReadFile : bytes -> option bytes) (Glob : bytes -> list bytes)
    (os_Open os_Create : bytes -> option error) (cs : list Command) (w : World) : World * ended * bool :=
  match doArgs ReadFile Glob (fresh <$> cs) with
  | Panic => (w, Crash, true)
  | Fail _ => (w, Done None, false)
  | Ret cs =>
      match commands cs with
      | Panic => (w, Crash, true)
      | Fail _ => (w, Done None, false)
      | Ret cs =>
          match wire os_Open os_Create cs with
          | (_, Panic) => (w, Crash, true)
          | (_, Fail _) => (w, Done None, false)
          | (cs, Ret _) => (run_list cs w, true)
          end
      end
  end.

(** The loop of [main]: [None] when [fuel] is not enough, for the parser or for the loop. *)
Fixpoint rush_main (ReadFile : bytes -> option bytes) (Glob : bytes -> list bytes)
    (os_Open os_Create : bytes -> option error) (fuel : nat) (b : reader) (w : World) : option (World * ended) :=
  match fuel with
  | O => None
  | S fuel =>
      match getCommand ReadFile fuel b with
      | None => None
      | Some (b, (cs, t, _)) =>
          match run_line ReadFile Glob os_Open os_Create cs w with
          | (w, Done _, completed) =>
              if completed && bool_decide (t = Some EOF) then Some (w, Done None)
              else rush_main ReadFile Glob os_Open os_Create fuel b w
          | (w, other, _) => Some (w, other)
          end
      end
  end.
End Run.

(** ** Wiring *)

(** The stream a redirection or the shell gives. *)
Definition redirected (c : Cmd) (fd : Z) : stream :=
  let name := fd_name (parsed c) fd in if bytes_eqb name [] then Std fd else File name.

(** Where the streams of command [i] lead when the line is wired: [prev] says whether the
    command before is piped into it. *)
Definition wired (prev : bool) (i : nat) (c d : Cmd) : Prop :=
  parsed d = parsed c /\ cmd d = cmd c /\ argv d = argv c /\
  Stdin d = Some (if prev then Pipe (i - 1) else redirected c 0) /\
  Stdout d = Some (if is_pipe c then Pipe i else redirected c 1) /\
  Stderr d = Some (redirected c 2).

(** The rules of the parser on a list of commands. *)
Fixpoint pipes_ok (cs : list Cmd) : Prop :=
  match cs with
  | [] => True
  | c :: cs => (is_pipe c = true -> exists d ds, cs = d :: ds) /\ pipes_ok cs
  end.

Section WireFacts.
Context (os_Open os_Create : bytes -> option error)
        (Hopen : forall n, os_Open n = None) (Hcreate : forall n, os_Create n = None).

Definition unwired (c : Cmd) : Prop := Stdout c = None.

Lemma wire_std_ok c (prev : option stream) :
  Stdin c = prev -> unwired c ->
  exists d, wire_std os_Open os_Create c = (d, None) /\
    parsed d = parsed c /\ cmd d = cmd c /\ argv d = argv c /\
    Stdin d = Some (default (redirected c 0) prev) /\
    Stdout d = (if is_pipe c then None else Some (redirected c 1)) /\
    Stderr d = Some (redirected c 2).
Proof.
  intros Hin Hout. unfold unwired in Hout.
  unfold wire_std, openRead, openWrite, redirected.
  destruct c as [p n a si so se op]. cbn in Hin, Hout. subst si so.
  destruct prev as [s|], (bytes_eqb (fd_name p 0) []) eqn:E0, (is_pipe (MkCmd p n a None None None [])) eqn:Ep;
    unfold is_pipe in *; cbn in *; rewrite ?Hopen, ?E0; cbn; rewrite ?Ep; cbn;
    destruct (bytes_eqb (fd_name p 1) []) eqn:E1, (bytes_eqb (fd_name p 2) []) eqn:E2; cbn;
    rewrite ?Hcreate; cbn; rewrite ?E2; cbn; rewrite ?Hcreate; by eexists.
Qed.

Lemma insert_mid {A} (pre l : list A) x y : <[length pre := y]> (pre ++ x :: l) = pre ++ y :: l.
Proof. by rewrite insert_app_r_alt, Nat.sub_diag by lia. Qed.

(** One command that is followed by another. *)
Lemma wire_step n pre (prev : bool) c e es :
  unwired c -> Stdin c = (if prev then Some (Pipe (length pre - 1)) else None) -> Stdin e = None ->
  exists d, wired prev (length pre) c d /\
    wire_loop os_Open os_Create (S n) (length pre) (pre ++ c :: e :: es) =
    wire_loop os_Open os_Create n (length (pre ++ [d]))
      ((pre ++ [d]) ++ (if is_pipe c then set_Stdin (Pipe (length pre)) e else e) :: es).
Proof.
  intros Hu Hin He. destruct (wire_std_ok c _ Hin Hu) as (d & E & D1 & D2 & D3 & D4 & D5 & D6).
  assert (is_pipe d = is_pipe c) as Hpd by (unfold is_pipe; by rewrite D1).
  exists (if is_pipe c then set_Stdout (Pipe (length pre)) d else d). split.
  { unfold wired. destruct (is_pipe c) eqn:Ec; cbn; (split_and!; try done); rewrite D4; by destruct prev. }
  cbn [wire_loop]. rewrite list_lookup_middle by done. rewrite E, insert_mid, Hpd, length_app, Nat.add_1_r.
  rewrite <- app_assoc. cbn [app]. destruct (is_pipe c); [|done].
  assert ((pre ++ d :: e :: es) !! S (length pre) = Some e) as ->.
  { rewrite lookup_app_r by lia. replace (S (length pre) - length pre)%nat with 1%nat by lia. done. }
  rewrite He, D5. f_equal.
  replace (pre ++ d :: e :: es) with ((pre ++ [d]) ++ e :: es) by (by rewrite <- app_assoc).
  replace (S (length pre)) with (length (pre ++ [d])) by (rewrite length_app; simpl; lia).
  rewrite insert_mid, <- app_assoc. cbn [app]. by rewrite insert_mid.
Qed.

Lemma wire_last n pre (prev : bool) c :
  unwired c -> Stdin c = (if prev then Some (Pipe (length pre - 1)) else None) -> is_pipe c = false ->
  exists d, wired prev (length pre) c d /\
    wire_loop os_Open os_Create (S n) (length pre) (pre ++ [c]) =
    wire_loop os_Open os_Create n (S (length pre)) (pre ++ [d]).
Proof.
  intros Hu Hin Hp. destruct (wire_std_ok c _ Hin Hu) as (d & E & D1 & D2 & D3 & D4 & D5 & D6).
  assert (is_pipe d = is_pipe c) as Hpd by (unfold is_pipe; by rewrite D1).
  exists d. split; [unfold wired; rewrite Hp in *; (split_and!; try done); rewrite D4; by destruct prev|].
  cbn [wire_loop]. rewrite list_lookup_middle by done. by rewrite E, insert_mid, Hpd, Hp.
Qed.

(** Whether command [i] is piped into. *)
Definition piped_into (prev : bool) (cs : list Cmd) (i : nat) : bool :=
  match i with
  | O => prev
  | S j => match cs !! j with Some p => is_pipe p | None => false end
  end.

(** The loop at command [c], with [rest] to follow. *)
Lemma wire_loop_ok rest pre (prev : bool) c :
  Forall unwired (c :: rest) -> pipes_ok (c :: rest) ->
  Stdin c = (if prev then Some (Pipe (length pre - 1)) else None) -> Forall (fun c => Stdin c = None) rest ->
  exists ds, wire_loop os_Open os_Create (S (length rest)) (length pre) (pre ++ c :: rest) = (pre ++ ds, Ret tt) /\
    forall i c', (c :: rest) !! i = Some c' ->
      exists d, ds !! i = Some d /\ wired (piped_into prev (c :: rest) i) (length pre + i) c' d.
Proof.
  revert pre prev c. induction rest as [|e es IH]; intros pre prev c Hu [Hpc Hps] Hin Hrest;
    apply Forall_cons in Hu as [Hu Hus].
  - assert (is_pipe c = false) as Ec.
    { destruct (is_pipe c) eqn:Ec; [|done]. by destruct (Hpc eq_refl) as (? & ? & ?). }
    cbn [length]. destruct (wire_last 0 pre prev c Hu Hin Ec) as (d & Hd & ->). exists [d]. split; [done|].
    intros [|i] c'; [|done]. intros [= <-]. exists d. by rewrite Nat.add_0_r.
  - apply Forall_cons in Hrest as [He Hes].
    destruct (wire_step (S (length es)) pre prev c e es Hu Hin He) as (d & Hd & Hstep).
    cbn [length]. rewrite Hstep. set (e' := if is_pipe c then _ else e).
    destruct (IH (pre ++ [d]) (is_pipe c) e') as (ds & Hds & Hw); [| | |done|].
    + apply Forall_cons in Hus as [Hue Hus]. apply Forall_cons_2; [|done]. unfold e'. by destruct (is_pipe c).
    + unfold e'. by destruct (is_pipe c).
    + rewrite length_app, Nat.add_sub. unfold e'. by destruct (is_pipe c).
    + exists (d :: ds). rewrite Hds, <- app_assoc. split; [done|].
      intros [|i] c' Hc'; [injection Hc' as <-; exists d; by rewrite Nat.add_0_r|]. cbn [lookup list_lookup] in Hc'.
      destruct i as [|i].
      * injection Hc' as <-. destruct (Hw 0%nat e' eq_refl) as (dd & Hdd & Hwd). exists dd. split; [done|].
        rewrite length_app in Hwd. replace (length pre + length [d] + 0)%nat with (length pre + 1)%nat in Hwd by (simpl; lia).
        unfold e' in Hwd. cbn [piped_into lookup list_lookup] in Hwd |- *. by destruct (is_pipe c).
      * destruct (Hw (S i) c' Hc') as (dd & Hdd & Hwd). exists dd. split; [done|].
        rewrite length_app in Hwd. replace (length pre + length [d] + S i)%nat with (length pre + S (S i))%nat in Hwd by (simpl; lia).
        replace (piped_into prev (c :: e :: es) (S (S i))) with (piped_into (is_pipe c) (e' :: es) (S i)); [done|].
        destruct i; [|done]. cbn. unfold e'. by destruct (is_pipe c).
Qed.
End WireFacts.

(** Expansion keeps what was parsed and opens nothing. *)
Lemma doArgs_kept RF Glob cs ds :
  doArgs RF Glob cs = Ret ds ->
  Forall2 (fun c d => exists n a, d = set_argv n a c) cs ds.
Proof.
  revert ds. induction cs as [|c cs IH]; intros ds; cbn; [by intros [= <-]|].
  unfold mbind, outcome_bind. destruct (expand_args RF Glob (args (parsed c))) as [[|n a]|e|]; [done| |done..].
  destruct (doArgs RF Glob cs) as [ds'|e|]; [|done..]. intros [= <-].
  constructor; [by eexists _, _|by apply IH].
Qed.

(** ** Properties *)

(** C22: when the files of a parsed command line can be opened, [wire] succeeds and connects the
    commands as the line says: the input of a command is the pipe from the command before
    it if that one has the link [|], else its redirection, else the shell's input; its
    output is the pipe to the next command if it has the link [|], else its redirection
    or the shell's; its error output is redirected or the shell's. *)
Theorem wire_connects RF Glob (os_Open os_Create : bytes -> option error) (fuel : nat) (b b' : reader)
    (cs : list Command) (t : option tokType) (ds : list Cmd) :
  (forall n, os_Open n = None) -> (forall n, os_Create n = None) ->
  getCommand RF fuel b = Some (b', (cs, t, None)) -> doArgs RF Glob (fresh <$> cs) = Ret ds ->
  exists es, wire os_Open os_Create ds = (es, Ret tt) /\
    forall i d, ds !! i = Some d ->
      exists e, es !! i = Some e /\ wired (piped_into false ds i) i d e.
Proof.
  intros Ho Hc Hg Hd. apply doArgs_kept in Hd.
  assert (check_rules cs = None) as Hr.
  { unfold getCommand in Hg. destruct (parsecommands RF fuel [] b) as [[b1 [[cs1 t1]|e|]]|]; [|done..].
    destruct (check_rules cs1) eqn:Er; [done|]. by injection Hg as _ <- _. }
  assert (Forall unwired ds /\ Forall (fun c => Stdin c = None) ds /\ pipes_ok ds) as (H1 & H2 & H3).
  { clear -Hd Hr. revert ds Hd. induction cs as [|c cs IH]; intros ds Hd.
    - apply Forall2_nil_inv_l in Hd as ->. split_and!; done || constructor.
    - apply Forall2_cons_inv_l in Hd as (d & ds' & (n & a & ->) & Hd & ->).
      destruct (IH ltac:(by apply check_rules_tail in Hr) ds' Hd) as (I1 & I2 & I3).
      split_and!; [by constructor|by constructor|]. split; [|done]. intros Hp.
      destruct cs as [|c' cs]; [|apply Forall2_cons_inv_l in Hd as (d' & ds'' & _ & _ & ->); eauto].
      unfold is_pipe in Hp. cbn in Hp, Hr. case_bool_decide; [done|].
      rewrite Hp in Hr. cbn in Hr. by destruct (negb (bytes_eqb (fd_name c 1) [])). }
  unfold wire. destruct ds as [|d ds]; [exists []; split; [done|]; by intros i d Hi; rewrite lookup_nil in Hi|].
  apply Forall_cons in H2 as [H2d H2]. apply (wire_loop_ok os_Open os_Create Ho Hc ds [] false d H1 H3 H2d H2).
Qed.

Lemma wire_connects_witness :
  let ok : bytes -> option error := fun _ => None in
  exists b' cs ds es,
    getCommand (fun _ => None) 40 (NewReader (str "cat <in | sort >out" ++ [x0a])) = Some (b', (cs, Some EOL, None)) /\
    doArgs (fun _ => None) (fun _ => []) (fresh <$> cs) = Ret ds /\
    wire ok ok ds = (es, Ret tt) /\ length es = 2%nat /\
    forall i d, ds !! i = Some d -> exists e, es !! i = Some e /\ wired (piped_into false ds i) i d e.
Proof.
  intros ok.
  destruct (getCommand (fun _ => None) 40 (NewReader (str "cat <in | sort >out" ++ [x0a])))
    as [[b' [[cs t] e]]|] eqn:E; [|vm_compute in E; discriminate].
  assert (e = None /\ t = Some EOL) as (-> & ->)
    by (vm_compute in E; injection E as <- <- <- <-; done).
  destruct (doArgs (fun _ => None) (fun _ => []) (fresh <$> cs)) as [ds|e|] eqn:Ed;
    [|vm_compute in E; injection E as <- <-; vm_compute in Ed; discriminate..].
  destruct (wire_connects (fun _ => None) (fun _ => []) ok ok 40 _ b' cs (Some EOL) ds
              (fun _ => eq_refl) (fun _ => eq_refl) E Ed) as (es & Hes & Hw).
  exists b', cs, ds, es. split; [done|]. split; [done|]. split; [done|]. split; [|done].
  vm_compute in E. injection E as <- <-. vm_compute in Ed. injection Ed as <-. vm_compute in Hes.
  by injection Hes as <-.
Defined.

(** A command called [builtin] crashes the shell. *)
Example builtin_crashes_shell :
  rush_main (World := unit) (fun _ w => (w, None)) (fun _ w => w) (fun _ w => (w, None))
    (fun _ => None) (fun _ => []) (fun _ => None) (fun _ => None) 40
    (NewReader (str "builtin x" ++ [x0a])) tt = Some (tt, Crash).
Proof. vm_compute. reflexivity. Qed.

(** In [false && a || b] the failure of the first command ends the line: [b] is not run. *)
Example failed_and_skips_or :
  rush_main (World := list bytes)
    (fun c w => (w ++ [cmd c], if bytes_eqb (cmd c) (str "false") then Some (Errno 1) else None))
    (fun _ w => w) (fun _ w => (w, None))
    (fun _ => None) (fun _ => []) (fun _ => None) (fun _ => None) 60
    (NewReader (str "false && a || b" ++ [x0a])) [] = Some ([str "false"], Done None).
Proof. vm_compute. reflexivity. Qed.
