(* ===== verification/Dd.v ===== *)
(** * Copying and converting files ([cmds/dd/dd.go])

    The chunked buffers, the section reader on a stream, the opening of input and output, and
    the parallel copy: a goroutine that reads chunks into a channel and a loop that writes
    them out, as a step relation over the channel, the buffer pool and the two threads. *)

From Stdlib Require Import Strings.String.
From S2P Require Export GoIO GoStrings.

(** ** Chunked buffers *)

(** [data] has the input chunk size; [ident] stands for the buffer's address. *)
Record chunkedBuffer := MkBuf { outChunk : Z; buf_length : Z; buf_data : bytes; ident : nat }.

Definition newChunkedBuffer (id : nat) (inChunkSize outChunkSize : Z) : chunkedBuffer :=
  MkBuf outChunkSize 0 (replicate (Z.to_nat inChunkSize) x00) id.

Definition ReadFrom {R} `{Reader R} (cb : chunkedBuffer) (r : R) : R * chunkedBuffer * (Z * option error) :=
  let '(r, (got, err)) := io_Read r (length (buf_data cb)) in
  let cb := MkBuf (outChunk cb) (zlen got) (got ++ drop (length got) (buf_data cb)) (ident cb) in
  if bool_decide (zlen got = 0 /\ err = None) then (r, cb, (0, Some EOF)) else (r, cb, (zlen got, err)).

Section WriteTo.
Context {W : Type} `{Writer W} (transform : bytes -> bytes).

(** The loop of [WriteTo]; [None] when [fuel] writes were not enough. *)
Fixpoint WriteTo_loop (fuel : nat) (cb : chunkedBuffer) (i : Z) (w : W) : option (W * outcome error (Z * option error)) :=
  if buf_length cb <=? i then Some (w, Ret (i, None))
  else match fuel with
  | O => None
  | S fuel =>
      let chunk := if buf_length cb <? i + outChunk cb then buf_length cb - i else outChunk cb in
      match slice (buf_data cb) i (i + chunk) with
      | None => Some (w, Panic)
      | Some b =>
          match io_Write w (transform b) with
          | (w, (got, err)) =>
              let i := i + got in
              match err with
              | Some e => Some (w, Ret (i, Some e))
              | None =>
                  if bool_decide (got <> chunk) then Some (w, Ret (0, Some ErrShortWrite))
                  else WriteTo_loop fuel cb i w
              end
          end
      end
  end.

Definition WriteTo (cb : chunkedBuffer) (w : W) : option (W * outcome error (Z * option error)) :=
  WriteTo_loop (Z.to_nat (buf_length cb)) cb 0 w.
End WriteTo.

(** ** The buffer pool: a channel of capacity [size] *)

Record bufferPool := MkPool { pool_size : Z; pool_c : list chunkedBuffer }.

Definition newBufferPool (size : Z) : bufferPool := MkPool size [].

Definition Put (b : chunkedBuffer) (bp : bufferPool) : bufferPool :=
  if zlen (pool_c bp) <? pool_size bp then MkPool (pool_size bp) (pool_c bp ++ [b]) else bp.

(** [f] makes a new buffer. *)
Definition Get (f : chunkedBuffer) (bp : bufferPool) : chunkedBuffer * bufferPool :=
  match pool_c bp with
  | b :: c => (b, MkPool (pool_size bp) c)
  | [] => (f, bp)
  end.

(** ** The section reader *)

Definition MaxInt64 : Z := 2 ^ 63 - 1.

Record sectionReader (R : Type) := MkSection { s_base : Z; s_offset : Z; s_limit : Z; s_Reader : R }.
Arguments MkSection {R}. Arguments s_base {R}. Arguments s_offset {R}.
Arguments s_limit {R}. Arguments s_Reader {R}.

Definition newStreamSectionReader {R} (r : R) (offset n : Z) : sectionReader R :=
  let limit := i64 (offset + n) in
  let limit := if limit <? 0 then MaxInt64 else limit in
  MkSection offset 0 limit r.

(** [io.CopyN(ioutil.Discard, r, n)]: reads of at most 8 KiB until [n] bytes are gone; the
    bytes skipped and the error, [EOF] when the input ended before. *)
Fixpoint Discard {R} `{Reader R} (fuel : nat) (n done : Z) (r : R) : option (R * (Z * option error)) :=
  if n <=? done then Some (r, (done, None))
  else match fuel with
  | O => None
  | S fuel =>
      let '(r, (got, err)) := io_Read r (Z.to_nat (Z.min 8192 (n - done))) in
      let done := done + zlen got in
      if n <=? done then Some (r, (done, None))
      else match err with
           | Some e => Some (r, (done, Some e))
           | None => Discard fuel n done r
           end
  end.

Definition section_Read {R} `{Reader R} (fuel : nat) (s : sectionReader R) (n : nat)
  : option (sectionReader R * (bytes * option error)) :=
  let body s :=
    if s_limit s <=? s_offset s then Some (s, ([], Some EOF))
    else
      let max := s_limit s - s_offset s in
      let n := if max <? Z.of_nat n then Z.to_nat max else n in
      let '(r, (got, err)) := io_Read (s_Reader s) n in
      let s := MkSection (s_base s) (s_offset s + zlen got) (s_limit s) r in
      if bool_decide (zlen got = 0 /\ err = None) then Some (s, ([], Some EOF)) else Some (s, (got, err)) in
  if bool_decide (s_offset s = 0 /\ s_base s <> 0) then
    match Discard fuel (s_base s) 0 (s_Reader s) with
    | None => None
    | Some (r, (m, Some e)) => Some (MkSection (s_base s) (s_offset s) (s_limit s) r, ([], Some e))
    | Some (r, (m, None)) =>
        if bool_decide (m <> s_base s) then
          Some (MkSection (s_base s) (s_offset s) (s_limit s) r,
                ([], Some (Errorf "error skipping input bytes, short write")))
        else body (MkSection (s_base s) (s_base s) (s_limit s) r)
    end
  else body s.

(** ** Opening the files *)

(** What [inFile] reads: [n] bytes at most, from [offset] on, of the standard input or of a
    file. *)
Inductive input := FromStdin (s : sectionReader Stream) | FromFile (contents : bytes) (offset n : Z).

Definition inFile (os_Open : bytes -> bytes + error) (stdin : Stream) (name : bytes) (inputBytes skip count : Z)
  : outcome error input :=
  let maxRead := if bool_decide (count <> MaxInt64) then i64 (count * inputBytes) else MaxInt64 in
  if bytes_eqb name [] then Ret (FromStdin (newStreamSectionReader stdin (i64 (inputBytes * skip)) maxRead))
  else match os_Open name with
       | inr _ => Fail (Errorf "error opening input file %q: %v")
       | inl d => Ret (FromFile d (i64 (inputBytes * skip)) maxRead)
       end.

(** Where [outFile] writes: the standard output or a truncated file, and the offset it seeks
    to from the current position. *)
Record output := MkOutput { to_stdout : bool; seek_by : Z }.

Definition outFile (os_OpenFile : bytes -> option error) (Seek : bool -> Z -> option error)
    (name : bytes) (outputBytes seek : Z) : outcome error output :=
  let stdout := bytes_eqb name [] in
  let opened := if stdout then None else os_OpenFile name in
  match opened with
  | Some _ => Fail (Errorf "error opening output file %q: %v")
  | None =>
      let by_ := i64 (seek * outputBytes) in
      if bool_decide (by_ <> 0) then
        match Seek stdout by_ with
        | Some _ => Fail (Errorf "error seeking output file: %v")
        | None => Ret (MkOutput stdout by_)
        end
      else Ret (MkOutput stdout 0)
  end.

(** ** Arguments: [x=y] becomes [-x y] *)

Fixpoint convertArgs (osArgs : list bytes) : list bytes :=
  match osArgs with
  | [] => []
  | v :: osArgs =>
      match SplitN x3d 2 v with
      | [x; y] => (x2d :: x) :: y :: convertArgs osArgs
      | l => l ++ convertArgs osArgs
      end
  end.

(** ** The start of [main], after [flag.Parse] *)

Record flags := MkFlags {
  f_ibs : Z; f_obs : Z; f_bs : Z; f_skip : Z; f_seek : Z; f_conv : bytes; f_count : Z;
  f_if : bytes; f_of : bytes; f_status : bytes; f_args : list bytes
}.

Definition default_flags : flags :=
  MkFlags 512 512 0 0 0 (str "none") MaxInt64 [] [] (str "xfer") [].

(** [bytes.ToUpper] and [bytes.ToLower] follow the Unicode tables: parameters. *)
Definition convs (bytes_ToUpper bytes_ToLower : bytes -> bytes) (name : bytes) : option (bytes -> bytes) :=
  if bytes_eqb name (str "none") then Some (fun b => b)
  else if bytes_eqb name (str "ucase") then Some bytes_ToUpper
  else if bytes_eqb name (str "lcase") then Some bytes_ToLower
  else None.

Definition usage {A} : outcome error A := Fail (Errorf "Usage: dd [if=file] [of=file] [conv=lcase|ucase]").

(** What [main] hands to [parallelChunkedCopy]; every failure is a [log.Fatal]. *)
Definition dd_main (bytes_ToUpper bytes_ToLower : bytes -> bytes) (os_Open : bytes -> bytes + error) (stdin : Stream)
    (os_OpenFile : bytes -> option error) (Seek : bool -> Z -> option error) (f : flags)
  : outcome error (input * output * Z * Z * (bytes -> bytes)) :=
  if bool_decide (f_args f <> []) then usage
  else match convs bytes_ToUpper bytes_ToLower (f_conv f) with
  | None => usage
  | Some convert =>
      if negb (bytes_eqb (f_status f) (str "none")) && negb (bytes_eqb (f_status f) (str "xfer"))
         && negb (bytes_eqb (f_status f) (str "progress"))
      then usage
      else
        let '(ibs, obs) := if 0 <? f_bs f then (f_bs f, f_bs f) else (f_ibs f, f_obs f) in
        match inFile os_Open stdin (f_if f) ibs (f_skip f) (f_count f) with
        | Ret i =>
            match outFile os_OpenFile Seek (f_of f) obs (f_seek f) with
            | Ret o => Ret (i, o, ibs, obs, convert)
            | Fail e => Fail e
            | Panic => Panic
            end
        | Fail e => Fail e
        | Panic => Panic
        end
  end.

(** ** The parallel copy *)

(** The program points of the reading goroutine: before the [select]; with a buffer to fill;
    sending a filled one; after a read of [n] bytes; returning; returned (the wait group is
    done, the channel still open); gone (the channel closed). *)
Inductive rpc :=
| RTop
| RFill (b : chunkedBuffer)
| RSend (b : chunkedBuffer) (n : Z) (err : option error)
| RAfter (n : Z) (err : option error)
| RReturn
| RClose
| RGone.

(** The program points of the writing loop: receiving; with a buffer to write; returning a
    buffer to the pool; after the loop; waiting for the goroutine; returned. *)
Inductive wpc :=
| WRange
| WWrite (b : chunkedBuffer)
| WPut (b : chunkedBuffer)
| WQuit
| WWait
| WReturned (err : option error).

Record state (R W : Type) := MkState {
  st_r : R; st_w : W; st_rpc : rpc; st_wpc : wpc;
  ready : list chunkedBuffer; ready_closed : bool; pool : bufferPool;
  quit : bool; errs : option error; writeErr : option error; wg_done : bool;
  bytesWritten : Z; next_id : nat
}.
Arguments MkState {R W}. Arguments st_r {R W}. Arguments st_w {R W}. Arguments st_rpc {R W}.
Arguments st_wpc {R W}. Arguments ready {R W}. Arguments ready_closed {R W}. Arguments pool {R W}.
Arguments quit {R W}. Arguments errs {R W}. Arguments writeErr {R W}. Arguments wg_done {R W}.
Arguments bytesWritten {R W}. Arguments next_id {R W}.

Section Copy.
Context {R W : Type} `{Reader R} `{Writer W} (inBufSize outBufSize : Z) (transform : bytes -> bytes).

Definition depth : Z :=
  let d := (1024 * 1024 * 1024) `quot` inBufSize in if 8192 <? d then 8192 else d.

Definition init (r : R) (w : W) : state R W :=
  MkState r w RTop WRange [] false (newBufferPool depth) false None None false 0 0.

(** One step of one of the two threads. *)
Inductive step : state R W -> state R W -> Prop :=
| r_quit r w wp q cl p er we bw id :
    step (MkState r w RTop wp q cl p true er we false bw id)
         (MkState r w RReturn wp q cl p true er we false bw id)
| r_get r w wp q cl p er we bw id b p' :
    Get (newChunkedBuffer id inBufSize outBufSize) p = (b, p') ->
    step (MkState r w RTop wp q cl p false er we false bw id)
         (MkState r w (RFill b) wp q cl p' false er we false bw (S id))
| r_fill r w b wp q cl p qu er we bw id r' b' n err :
    ReadFrom b r = (r', b', (n, err)) ->
    step (MkState r w (RFill b) wp q cl p qu er we false bw id)
         (MkState r' w (if 0 <? n then RSend b' n err else RAfter n err) wp q cl p qu er we false bw id)
| r_send r w b n err wp q cl p qu er we bw id :
    zlen q < depth ->
    step (MkState r w (RSend b n err) wp q cl p qu er we false bw id)
         (MkState r w (RAfter n err) wp (q ++ [b]) cl p qu er we false bw id)
| r_hand_over r w b n err cl p qu er we bw id :
    depth = 0 ->
    step (MkState r w (RSend b n err) WRange [] cl p qu er we false bw id)
         (MkState r w (RAfter n err) (WWrite b) [] cl p qu er we false bw id)
| r_eof r w n wp q cl p qu er we bw id :
    step (MkState r w (RAfter n (Some EOF)) wp q cl p qu er we false bw id)
         (MkState r w RReturn wp q cl p qu er we false bw id)
| r_error r w n err wp q cl p qu we bw id :
    err <> Some EOF -> n = 0 \/ err <> None ->
    step (MkState r w (RAfter n err) wp q cl p qu None we false bw id)
         (MkState r w RReturn wp q cl p qu (Some (Errorf "input error: %v")) we false bw id)
| r_again r w n wp q cl p qu er we bw id :
    n <> 0 ->
    step (MkState r w (RAfter n None) wp q cl p qu er we false bw id)
         (MkState r w RTop wp q cl p qu er we false bw id)
| r_done r w wp q cl p qu er we bw id :
    step (MkState r w RReturn wp q cl p qu er we false bw id)
         (MkState r w RClose wp q cl p qu er we true bw id)
| r_close r w wp q p qu er we bw id :
    step (MkState r w RClose wp q false p qu er we true bw id)
         (MkState r w RGone wp q true p qu er we true bw id)
| w_recv r w rp b q cl p qu er we wg bw id :
    step (MkState r w rp WRange (b :: q) cl p qu er we wg bw id)
         (MkState r w rp (WWrite b) q cl p qu er we wg bw id)
| w_end r w rp p qu er we wg bw id :
    step (MkState r w rp WRange [] true p qu er we wg bw id)
         (MkState r w rp WQuit [] true p qu er we wg bw id)
| w_write r w rp b q cl p qu er we wg bw id w' n :
    WriteTo transform b w = Some (w', Ret (n, None)) ->
    step (MkState r w rp (WWrite b) q cl p qu er we wg bw id)
         (MkState r w' rp (WPut b) q cl p qu er we wg (i64 (bw + n)) id)
| w_fail r w rp b q cl p qu er wg bw id w' n e :
    WriteTo transform b w = Some (w', Ret (n, Some e)) ->
    step (MkState r w rp (WWrite b) q cl p qu er None wg bw id)
         (MkState r w' rp WQuit q cl p qu er (Some (Errorf "output error: %v")) wg bw id)
| w_put r w rp b q cl p qu er we wg bw id :
    step (MkState r w rp (WPut b) q cl p qu er we wg bw id)
         (MkState r w rp WRange q cl (Put b p) qu er we wg bw id)
| w_quit r w rp q cl p er we wg bw id :
    step (MkState r w rp WQuit q cl p false er we wg bw id)
         (MkState r w rp WWait q cl p true er we wg bw id)
| w_return r w rp q cl p qu er we bw id :
    step (MkState r w rp WWait q cl p qu er we true bw id)
         (MkState r w rp (WReturned (match er with Some e => Some e | None => we end)) q cl p qu er we true bw id).

Definition returned (s : state R W) : Prop := exists e, st_wpc s = WReturned e.
End Copy.

(** ** Buffers *)

(** A filled buffer: its contents are the first [buf_length] bytes of its data. *)
Definition content (b : chunkedBuffer) : bytes := take (Z.to_nat (buf_length b)) (buf_data b).

Definition filled (b : chunkedBuffer) : Prop := 0 <= buf_length b <= zlen (buf_data b).

Section Facts.
Context {W : Type} `{WriterOk W} (transform : bytes -> bytes) (obs : Z).
Context (Htr : forall b, length (transform b) = length b) (Hobs : 1 <= obs).

(** Some write to the sink fails. *)
Definition fails : Prop := exists (w : W) b, snd (snd (io_Write w b)) <> None.

(** What a chunk becomes on the output: cut in output blocks, each transformed. *)
Definition converted (c : bytes) : bytes := concat (transform <$> chunks (Z.to_nat obs) c).

Lemma zlen_converted c : zlen (converted c) = zlen c.
Proof.
  unfold converted, zlen. f_equal. rewrite <- (concat_chunks (Z.to_nat obs) c) at 2.
  induction (chunks (Z.to_nat obs) c) as [|x l IH]; [done|]. cbn. rewrite !length_app, Htr, IH. done.
Qed.

Lemma converted_step c :
  c <> [] -> converted c = transform (take (Z.to_nat obs) c) ++ converted (drop (Z.to_nat obs) c).
Proof. intros Hc. unfold converted. rewrite chunks_cons by (done || lia). done. Qed.

(** [WriteTo] ends: all of the buffer is written, or the sink failed after a part of it. *)
Lemma WriteTo_loop_ok fuel cb i w :
  filled cb -> outChunk cb = obs -> 0 <= i -> buf_length cb - i <= Z.of_nat fuel ->
  exists w' r, WriteTo_loop transform fuel cb i w = Some (w', Ret r) /\
    match snd r with
    | None => out w' = out w ++ converted (drop (Z.to_nat i) (content cb)) /\ (i <= buf_length cb -> fst r = buf_length cb)
    | Some _ => (exists k, out w' = out w ++ take k (converted (drop (Z.to_nat i) (content cb)))) /\ fails
    end.
Proof.
  intros Hf Ho. revert i w. induction fuel as [|fuel IH]; intros i w Hi Hl; cbn [WriteTo_loop];
    destruct (Z.leb_spec (buf_length cb) i).
  1,3: do 2 eexists; (split; [done|]); cbn; (split; [|lia]);
       rewrite drop_ge by (unfold content; rewrite length_take; lia); by rewrite app_nil_r.
  1: lia.
  set (chunk := if buf_length cb <? i + outChunk cb then buf_length cb - i else outChunk cb).
  unfold filled in Hf. assert (1 <= chunk /\ i + chunk <= buf_length cb /\ (chunk = obs \/ i + chunk = buf_length cb) /\ chunk <= obs) as (Hc1 & Hc2 & Hc3 & Hc4).
  { unfold chunk. rewrite Ho. destruct (Z.ltb_spec (buf_length cb) (i + obs)); lia. }
  rewrite slice_Some by lia. set (piece := take _ _).
  assert (length piece = Z.to_nat chunk) as Hpl.
  { unfold piece. rewrite length_take, length_drop. unfold zlen in Hf. lia. }
  set (rest := drop (Z.to_nat i) (content cb)).
  assert (rest <> [] /\ take (Z.to_nat obs) rest = piece /\ drop (Z.to_nat obs) rest = drop (Z.to_nat (i + chunk)) (content cb)) as (Hr1 & Hr2 & Hr3).
  { unfold rest, piece, content. split_and!.
    - intros E. apply (f_equal length) in E. rewrite length_drop, length_take in E. unfold zlen in Hf. simpl in E. lia.
    - rewrite skipn_firstn_comm, take_take. destruct Hc3 as [->|Hc3].
      + f_equal. lia.
      + replace (Z.to_nat (i + chunk - i)) with (Z.to_nat chunk) by lia. f_equal. lia.
    - rewrite drop_drop. destruct Hc3 as [Hc3|Hc3].
      + f_equal. lia.
      + rewrite !drop_ge; [done| |]; rewrite length_take; unfold zlen in Hf; lia. }
  rewrite converted_step, Hr2, Hr3 by done.
  destruct (io_Write w (transform piece)) as [w1 [got err]] eqn:Ew.
  destruct (Write_out _ _ _ _ _ Ew) as [Hg Hout]. destruct err as [e|].
  - do 2 eexists. split; [done|]. cbn. split; [|by exists w, (transform piece); rewrite Ew].
    exists (Z.to_nat got). rewrite Hout. f_equal.
    rewrite take_app_le; [done|]. unfold zlen in Hg. lia.
  - apply Write_full in Ew. assert (got = chunk) as ->.
    { rewrite Ew. unfold zlen. rewrite Htr, Hpl. lia. }
    rewrite bool_decide_eq_false_2 by naive_solver.
    rewrite take_ge in Hout by (unfold zlen in Ew; lia).
    destruct (IH (i + chunk) w1 ltac:(lia) ltac:(lia)) as (w2 & r & E & Hr). exists w2, r. split; [exact E|].
    destruct (snd r).
    + destruct Hr as [[k Hk] Hfl]. split; [|done]. exists (length (transform piece) + k)%nat.
      rewrite take_app_add, Hk, Hout. by rewrite <- app_assoc.
    + destruct Hr as [Hr1' Hr2']. split; [rewrite Hr1', Hout; by rewrite <- app_assoc|]. intros _. apply Hr2'. lia.
Qed.

Lemma WriteTo_ok cb w :
  filled cb -> outChunk cb = obs ->
  exists w' r, WriteTo transform cb w = Some (w', Ret r) /\
    match snd r with
    | None => out w' = out w ++ converted (content cb) /\ fst r = buf_length cb
    | Some _ => (exists k, out w' = out w ++ take k (converted (content cb))) /\ fails
    end.
Proof.
  intros Hf Ho. unfold WriteTo. assert (Hf' := Hf). unfold filled in Hf'.
  destruct (WriteTo_loop_ok (Z.to_nat (buf_length cb)) cb 0 w Hf Ho ltac:(lia) ltac:(lia)) as (w' & r & E & Hr).
  exists w', r. split; [exact E|]. rewrite drop_0 in Hr. destruct (snd r); [done|]. naive_solver lia.
Qed.
End Facts.

(** ** What the reading goroutine reads

    [reads n r cs fin]: reading [r] with buffers of [n] bytes until it stops gives the chunks
    [cs]; [fin] is [None] at the end of the input, the error otherwise. *)
Inductive reads {R} `{Reader R} (n : nat) : R -> list bytes -> option error -> Prop :=
| reads_more r r' got cs fin :
    io_Read r n = (r', (got, None)) -> got <> [] -> reads n r' cs fin -> reads n r (got :: cs) fin
| reads_eof r r' got :
    io_Read r n = (r', (got, Some EOF)) -> reads n r (if bool_decide (got = []) then [] else [got]) None
| reads_empty r r' :
    io_Read r n = (r', ([], None)) -> reads n r [] None
| reads_error r r' got e :
    io_Read r n = (r', (got, Some e)) -> e <> EOF ->
    reads n r (if bool_decide (got = []) then [] else [got]) (Some e).

(** ** Buffers have one owner *)

(** Distinct identities, all below the next one. *)
Definition separate (ids : list nat) (next : nat) : Prop := NoDup ids /\ Forall (fun i => (i < next)%nat) ids.

Lemma separate_perm ids ids' n : ids ≡ₚ ids' -> separate ids n -> separate ids' n.
Proof. intros E [Ha Hb]. split; by rewrite <- E. Qed.

Lemma separate_sub ids ids' n : ids ⊆+ ids' -> separate ids' n -> separate ids n.
Proof.
  intros [k E]%submseteq_Permutation [Ha Hb]. rewrite E in Ha, Hb.
  apply NoDup_app in Ha. apply Forall_app in Hb. split; naive_solver.
Qed.

Lemma separate_new ids n : separate ids n -> separate (n :: ids) (S n).
Proof.
  intros [Ha Hb]. split; constructor; [|done|lia|].
  - intros Hin. rewrite Forall_forall in Hb. apply Hb in Hin. lia.
  - eapply Forall_impl; [done|]. cbn. lia.
Qed.
(** Compares two lists of buffers' identities. *)
Ltac ids := repeat (progress (csimpl; rewrite ?fmap_app, ?app_nil_r)); (solve_Permutation || solve_submseteq).

Section Run.
Context {R W : Type} `{ReaderOk R} `{WriterOk W} (ibs obs : Z) (transform : bytes -> bytes).
Context (Htr : forall b, length (transform b) = length b) (Hobs : 1 <= obs) (Hibs : 1 <= ibs).

#[local] Abbreviation step := (step (R := R) (W := W) ibs obs transform).
#[local] Abbreviation conv := (converted transform obs).

Definition N : nat := Z.to_nat ibs.

(** A buffer of the copy; a filled one. *)
Definition good (b : chunkedBuffer) : Prop := length (buf_data b) = N /\ outChunk b = obs.
Definition full (b : chunkedBuffer) : Prop := good b /\ filled b.

Definition reader_bufs (p : rpc) : list chunkedBuffer :=
  match p with RFill b | RSend b _ _ => [b] | _ => [] end.
Definition writer_bufs (p : wpc) : list chunkedBuffer :=
  match p with WWrite b | WPut b => [b] | _ => [] end.

(** What is on its way: in the writer's hands, in the channel, in the reader's hands. *)
Definition in_writer (p : wpc) : list bytes := match p with WWrite b => [content b] | _ => [] end.
Definition in_reader (p : rpc) : list bytes := match p with RSend b _ _ => [content b] | _ => [] end.

Definition input_error (fin : option error) : option error :=
  match fin with None => None | Some _ => Some (Errorf "input error: %v") end.

(** After a read: it goes on, or the input has ended with [fin]. *)
Definition after_ok (n : Z) (err : option error) (r : R) (fut : list bytes) (fin : option error) : Prop :=
  (n <> 0 /\ err = None /\ reads N r fut fin) \/
  (fut = [] /\ ((err = Some EOF /\ fin = None) \/ (exists e, err = Some e /\ e <> EOF /\ fin = Some e))).

(** The reader's side: [fut] are the chunks still to be read. *)
Definition reader_inv (s : state R W) (fut : list bytes) (fin : option error) : Prop :=
  match st_rpc s with
  | RTop => reads N (st_r s) fut fin /\ errs s = None /\ wg_done s = false /\ ready_closed s = false
  | RFill b => good b /\ reads N (st_r s) fut fin /\ errs s = None /\ wg_done s = false /\ ready_closed s = false
  | RSend b n err => full b /\ 0 < n /\ after_ok n err (st_r s) fut fin /\ errs s = None /\ wg_done s = false /\ ready_closed s = false
  | RAfter n err => after_ok n err (st_r s) fut fin /\ errs s = None /\ wg_done s = false /\ ready_closed s = false
  | RReturn => (writeErr s <> None \/ (fut = [] /\ errs s = input_error fin)) /\ wg_done s = false /\ ready_closed s = false
  | RClose => (writeErr s <> None \/ (fut = [] /\ errs s = input_error fin)) /\ wg_done s = true /\ ready_closed s = false
  | RGone => (writeErr s <> None \/ (fut = [] /\ errs s = input_error fin)) /\ wg_done s = true /\ ready_closed s = true
  end.

(** The writer's side: [quit] is closed after the loop; without a write error the loop ends
    only when the channel is closed and empty. *)
Definition writer_inv (s : state R W) : Prop :=
  match st_wpc s with
  | WRange => writeErr s = None /\ quit s = false
  | WWrite b => full b /\ writeErr s = None /\ quit s = false
  | WPut b => good b /\ writeErr s = None /\ quit s = false
  | WQuit => quit s = false /\ (writeErr s = None -> ready s = [] /\ ready_closed s = true)
  | WWait => quit s = true /\ (writeErr s = None -> ready s = [] /\ ready_closed s = true)
  | WReturned e =>
      quit s = true /\ (writeErr s = None -> ready s = [] /\ ready_closed s = true) /\ wg_done s = true /\
      e = match errs s with Some x => Some x | None => writeErr s end
  end.

(** The output so far: the chunks [sent], all of them in order as long as nothing failed. *)
Definition data_inv (w0 : W) (cs : list bytes) (s : state R W) (fut : list bytes) : Prop :=
  match writeErr s with
  | None => exists sent, out (st_w s) = out w0 ++ concat (conv <$> sent) /\
      bytesWritten s = i64 (zlen (concat sent)) /\
      cs = sent ++ in_writer (st_wpc s) ++ (content <$> ready s) ++ in_reader (st_rpc s) ++ fut
  | Some e => exists k, out (st_w s) = out w0 ++ take k (concat (conv <$> cs))
  end.

(** Every buffer is in one place only. *)
Definition owned (s : state R W) : list chunkedBuffer :=
  pool_c (pool s) ++ ready s ++ reader_bufs (st_rpc s) ++ writer_bufs (st_wpc s).

Record inv (w0 : W) (cs : list bytes) (fin : option error) (s : state R W) (fut : list bytes) : Prop := {
  i_reader : reader_inv s fut fin;
  i_writer : writer_inv s;
  i_ready : Forall full (ready s);
  i_pool : Forall good (pool_c (pool s));
  i_data : data_inv w0 cs s fut;
  i_bufs : separate (ident <$> owned s) (next_id s)
}.

Lemma inv_init r w cs fin : reads N r cs fin -> inv w cs fin (init ibs r w) cs.
Proof.
  intros Hr. split; cbn; try done.
  - exists []. cbn. by rewrite app_nil_r.
  - split; constructor.
Qed.

(** ** Filling a buffer *)

Lemma ReadFrom_spec b r r' b' n err fut fin :
  good b -> reads N r fut fin -> ReadFrom b r = (r', b', (n, err)) ->
  good b' /\ filled b' /\ ident b' = ident b /\ n = buf_length b' /\
  exists fut', after_ok n err r' fut' fin /\ fut = (if 0 <? n then [content b'] else []) ++ fut'.
Proof.
  intros [Hl Ho] Hr. unfold ReadFrom. rewrite Hl.
  destruct (io_Read r N) as [r1 [got e]] eqn:E. pose proof (Read_bound _ _ _ _ _ E) as Hb.
  assert (content (MkBuf (outChunk b) (zlen got) (got ++ drop (length got) (buf_data b)) (ident b)) = got) as Hc.
  { unfold content, zlen. cbn. by rewrite Nat2Z.id, take_app_length. }
  assert (good (MkBuf (outChunk b) (zlen got) (got ++ drop (length got) (buf_data b)) (ident b))) as Hg.
  { split; [|done]. cbn. rewrite length_app, length_drop, Hl. lia. }
  assert (filled (MkBuf (outChunk b) (zlen got) (got ++ drop (length got) (buf_data b)) (ident b))) as Hf.
  { unfold filled. cbn. rewrite zlen_app. pose proof (zlen_nonneg got).
    pose proof (zlen_nonneg (drop (length got) (buf_data b))). lia. }
  assert (got = [] \/ 0 < zlen got) as Hgot by (destruct got; [by left|right; rewrite zlen_cons; pose proof (zlen_nonneg got); lia]).
  case_bool_decide as Hz; intros [= <- <- <- <-].
  - destruct Hz as [Hz ->]. assert (got = []) as -> by (destruct Hgot; [done|lia]).
    split_and!; try done. exists []. cbn.
    inversion Hr as [? r2 g cs f E2 Hne Hr2|? r2 g E2|? r2 E2|? r2 g x E2 Hx]; subst; rewrite E in E2; simplify_eq; try done.
    split; [|done]. right. auto.
  - split_and!; try done.
    inversion Hr as [? r2 g cs f E2 Hne Hr2|? r2 g E2|? r2 E2|? r2 g x E2 Hx]; rewrite E in E2;
      (injection E2 as <- <- -> || (injection E2 as <- -> ->; exfalso; naive_solver)).
    + exists cs. destruct Hgot as [->|Hgot]; [done|]. destruct (Z.ltb_spec 0 (zlen got)); [|lia].
      split; [|by rewrite Hc]. left. split_and!; [lia|done|done].
    + exists []. split; [right; auto|]. rewrite app_nil_r.
      destruct Hgot as [->|Hgot]; [done|]. destruct (Z.ltb_spec 0 (zlen got)); [|lia].
      rewrite bool_decide_eq_false_2 by (intros ->; done). by rewrite Hc.
    + exists []. split; [right; split; [done|]; right; eauto|]. rewrite app_nil_r.
      destruct Hgot as [->|Hgot]; [done|]. destruct (Z.ltb_spec 0 (zlen got)); [|lia].
      rewrite bool_decide_eq_false_2 by (intros ->; done). by rewrite Hc.
Qed.
(** ** The invariant is preserved *)

Lemma good_new id : good (newChunkedBuffer id ibs obs).
Proof. split; [|done]. cbn. by rewrite length_replicate. Qed.

Lemma Get_ok p id b p' :
  Forall good (pool_c p) -> Get (newChunkedBuffer id ibs obs) p = (b, p') ->
  good b /\ Forall good (pool_c p') /\
  (pool_c p = b :: pool_c p' \/ (pool_c p' = pool_c p /\ b = newChunkedBuffer id ibs obs)).
Proof.
  intros Hp. unfold Get. destruct p as [n [|x l]]; cbn in *; intros [= <- <-].
  - split_and!; [apply good_new|done|by right].
  - inversion Hp; subst. split_and!; [done|done|by left].
Qed.

(** The writer's invariant when the reader moves: it only looks at the channel once the
    channel is closed, and at [errs] once the reader is done. *)
Lemma writer_inv_open (s s' : state R W) :
  writer_inv s -> ready_closed s = false -> wg_done s = false -> st_wpc s' = st_wpc s ->
  writeErr s' = writeErr s -> quit s' = quit s -> writer_inv s'.
Proof.
  unfold writer_inv. intros Hw Hc Hg -> -> ->. destruct (st_wpc s); try done; try naive_solver congruence.
Qed.

Lemma inv_get w0 cs fin r w wp q p we bw id b p' fut :
  Get (newChunkedBuffer id ibs obs) p = (b, p') ->
  inv w0 cs fin (MkState r w RTop wp q false p false None we false bw id) fut ->
  inv w0 cs fin (MkState r w (RFill b) wp q false p' false None we false bw (S id)) fut.
Proof.
  intros Hg [Hr Hw Hq Hp Hd Hb]. destruct (Get_ok _ _ _ _ Hp Hg) as (Hgood & Hp' & Hor).
  cbn in Hr. split; try done; try (cbn; naive_solver). unfold owned in *. cbn in *. destruct Hor as [E|[E ->]].
  - eapply (separate_sub _ (id :: (ident <$> pool_c p ++ q ++ writer_bufs wp))); [|by apply separate_new].
    rewrite E. ids.
  - rewrite E. eapply separate_perm; [|apply separate_new, Hb]. ids.
Qed.

Lemma inv_fill w0 cs fin r w b wp q p qu we bw id r' b' n err fut :
  ReadFrom b r = (r', b', (n, err)) ->
  inv w0 cs fin (MkState r w (RFill b) wp q false p qu None we false bw id) fut ->
  exists fut', inv w0 cs fin
    (MkState r' w (if 0 <? n then RSend b' n err else RAfter n err) wp q false p qu None we false bw id) fut' /\
    length fut = ((if (0 <? n)%Z then 1 else 0) + length fut')%nat /\ (n <= 0 -> err <> None).
Proof.
  intros Hf [Hr Hw Hq Hp Hd Hb]. cbn in Hr. destruct Hr as (Hg & Hr & _).
  destruct (ReadFrom_spec _ _ _ _ _ _ _ _ Hg Hr Hf) as (Hg' & Hf' & Hi & Hn & fut' & Ha & Hfut).
  exists fut'. split; [|split; [rewrite Hfut, length_app; by destruct (0 <? n)|];
    destruct Ha as [Ha|Ha]; [unfold filled in Hf'; lia|naive_solver]].
  destruct (Z.ltb_spec 0 n); split; try done; unfold data_inv, owned in *; cbn in *.
  all: try (subst fut; destruct we; [done|]; cbn in *; naive_solver).
  - by rewrite !fmap_app in *; cbn in *; rewrite Hi.
  - eapply separate_sub; [|exact Hb]. ids.
Qed.

Lemma inv_send w0 cs fin r w b n err wp q p qu we bw id fut :
  inv w0 cs fin (MkState r w (RSend b n err) wp q false p qu None we false bw id) fut ->
  inv w0 cs fin (MkState r w (RAfter n err) wp (q ++ [b]) false p qu None we false bw id) fut.
Proof.
  intros [Hr Hw Hq Hp Hd Hb]. cbn in Hr. split; try (cbn; naive_solver).
  - by eapply writer_inv_open.
  - cbn. apply Forall_app. cbn in Hq. naive_solver.
  - unfold data_inv in *. cbn in *. destruct we; [done|]. rewrite fmap_app, <- app_assoc. done.
  - unfold owned in *. cbn in *. by rewrite <- app_assoc.
Qed.

Lemma inv_recv w0 cs fin r w rp b q cl p qu er we wg bw id fut :
  inv w0 cs fin (MkState r w rp WRange (b :: q) cl p qu er we wg bw id) fut ->
  inv w0 cs fin (MkState r w rp (WWrite b) q cl p qu er we wg bw id) fut.
Proof.
  intros [Hr Hw Hq Hp Hd Hb]. cbn in *. inversion Hq; subst. split; try done.
  unfold owned in *. cbn in *. eapply separate_perm; [|exact Hb]. ids.
Qed.

Lemma inv_wrote w0 cs fin r w rp b q cl p qu er we wg bw id w' n fut :
  WriteTo transform b w = Some (w', Ret (n, None)) ->
  inv w0 cs fin (MkState r w rp (WWrite b) q cl p qu er we wg bw id) fut ->
  inv w0 cs fin (MkState r w' rp (WPut b) q cl p qu er we wg (i64 (bw + n)) id) fut.
Proof.
  intros Hwr [Hr Hw Hq Hp Hd Hb]. cbn in Hw. destruct Hw as ([[Hg Ho] Hf] & -> & ->).
  destruct (WriteTo_ok transform obs Htr Hobs b w Hf Ho) as (w1 & [n1 e1] & E & Hout). simplify_eq/=.
  destruct Hout as [Hout ->]. split; try done.
  unfold data_inv in *. cbn in *. destruct Hd as (sent & Hs1 & -> & Hs3). exists (sent ++ [content b]). split_and!.
  - rewrite Hout, Hs1, fmap_app, concat_app. cbn. by rewrite app_nil_r, app_assoc.
  - rewrite i64_add_l, concat_app, zlen_app. cbn. rewrite app_nil_r. do 2 f_equal.
    unfold content, zlen in *. rewrite length_take. unfold filled, zlen in Hf. lia.
  - by rewrite <- app_assoc.
Qed.

Lemma inv_fail w0 cs fin r w rp b q cl p qu er wg bw id w' n e fut :
  WriteTo transform b w = Some (w', Ret (n, Some e)) ->
  inv w0 cs fin (MkState r w rp (WWrite b) q cl p qu er None wg bw id) fut ->
  inv w0 cs fin (MkState r w' rp WQuit q cl p qu er (Some (Errorf "output error: %v")) wg bw id) fut.
Proof.
  intros Hwr [Hr Hw Hq Hp Hd Hb]. cbn in Hw. destruct Hw as ([[Hg Ho] Hf] & _ & ->).
  destruct (WriteTo_ok transform obs Htr Hobs b w Hf Ho) as (w1 & [n1 e1] & E & Hout). simplify_eq/=.
  destruct Hout as [[k Hout] _]. split; try done.
  - unfold reader_inv in *. cbn in *. destruct rp; naive_solver.
  - unfold data_inv in *. cbn in *. destruct Hd as (sent & Hs1 & -> & ->). cbn.
    exists (length (concat (conv <$> sent)) + k `min` length (conv (content b)))%nat.
    rewrite Hout, Hs1, fmap_app, concat_app, take_app_add, <- app_assoc. cbn. by rewrite take_app_min.
  - unfold owned in *. cbn in *. eapply separate_sub; [|exact Hb]. ids.
Qed.

Lemma inv_put w0 cs fin r w rp b q cl p qu er we wg bw id fut :
  inv w0 cs fin (MkState r w rp (WPut b) q cl p qu er we wg bw id) fut ->
  inv w0 cs fin (MkState r w rp WRange q cl (Put b p) qu er we wg bw id) fut.
Proof.
  intros [Hr Hw Hq Hp Hd Hb]. cbn in Hw. split; try done; try (cbn; naive_solver).
  - unfold Put. cbn. destruct (_ <? _); [|done]. cbn. apply Forall_app. naive_solver.
  - unfold owned in *. cbn in *. unfold Put. destruct (_ <? _); eapply separate_sub; try exact Hb; cbn; ids.
Qed.

Lemma inv_hand_over w0 cs fin r w b n err p qu we bw id fut :
  inv w0 cs fin (MkState r w (RSend b n err) WRange [] false p qu None we false bw id) fut ->
  inv w0 cs fin (MkState r w (RAfter n err) (WWrite b) [] false p qu None we false bw id) fut.
Proof.
  intros [Hr Hw Hq Hp Hd Hb]. cbn in *. split; try done; cbn; naive_solver.
Qed.

(** The steps that only move a program point of the reader. *)
Lemma inv_reader w0 cs fin r r' w rp rp' wp q cl cl' p qu er er' we wg wg' bw id fut :
  inv w0 cs fin (MkState r w rp wp q cl p qu er we wg bw id) fut ->
  reader_inv (MkState r' w rp' wp q cl' p qu er' we wg' bw id) fut fin ->
  writer_inv (MkState r' w rp' wp q cl' p qu er' we wg' bw id) ->
  reader_bufs rp' = reader_bufs rp -> in_reader rp' = in_reader rp ->
  inv w0 cs fin (MkState r' w rp' wp q cl' p qu er' we wg' bw id) fut.
Proof.
  intros [Hr Hw Hq Hp Hd Hb] Hr' Hw' E1 E2. split; try done.
  - unfold data_inv in *. cbn in *. by rewrite E2.
  - unfold owned in *. cbn in *. by rewrite E1.
Qed.

(** What is left to do: [F] chunks to read, the channel's contents and the two threads. *)
Definition reader_work (p : rpc) (F : nat) : nat :=
  match p with
  | RTop => 20 * F + 12
  | RFill _ => 20 * F + 11
  | RSend _ _ _ => 20 * F + 28
  | RAfter _ None => 20 * F + 13
  | RAfter _ (Some _) => 4
  | RReturn => 3
  | RClose => 2
  | RGone => 0
  end.
Definition writer_work (p : wpc) : nat :=
  match p with WRange => 10 | WWrite _ => 14 | WPut _ => 13 | WQuit => 3 | WWait => 2 | WReturned _ => 0 end.
Definition work (s : state R W) (fut : list bytes) : nat :=
  reader_work (st_rpc s) (length fut) + 5 * length (ready s) + writer_work (st_wpc s).

Lemma inv_step w0 cs fin s s' fut :
  step s s' -> inv w0 cs fin s fut -> exists fut', inv w0 cs fin s' fut' /\ (work s' fut' < work s fut)%nat.
Proof.
  intros Hs Hi. assert (Hr := i_reader _ _ _ _ _ Hi). assert (Hw := i_writer _ _ _ _ _ Hi).
  destruct Hs; unfold reader_inv in Hr; cbn in Hr, Hw; try (destruct_and! Hr; subst).
  all: try (edestruct inv_fill as (fut' & Hi' & Hl & Hn); [done|done|]; exists fut'; split; [done|];
    unfold work; cbn; rewrite Hl; destruct (Z.ltb_spec 0 n); cbn; [lia|]; destruct err; [lia|naive_solver]).
  all: exists fut; (split; [|unfold work; cbn; rewrite ?length_app; cbn; try (destruct err); lia]).
  all: eauto using inv_get, inv_send, inv_hand_over, inv_recv, inv_wrote, inv_fail, inv_put.
  all: try (eapply inv_reader; [exact Hi| | |done|done]; cbn;
    try (unfold after_ok in *; naive_solver); try (eapply writer_inv_open; [exact Hw|done..]); fail).
  1: { eapply inv_reader; [exact Hi| | |done|done]; [|by eapply writer_inv_open].
    cbn. split_and!; [left|done|done]. unfold writer_inv in Hw. cbn in Hw. destruct wp; naive_solver. }
  1: { eapply inv_reader; [exact Hi|by cbn; naive_solver| |done|done].
    unfold writer_inv in *. cbn in *. destruct wp; naive_solver. }
  all: destruct Hi; split; try done; cbn in *; naive_solver.
Qed.

Lemma inv_reach w0 cs fin s s' fut :
  rtc step s s' -> inv w0 cs fin s fut -> exists fut', inv w0 cs fin s' fut'.
Proof. intros Hs. revert fut. induction Hs; intros fut Hi; [eauto|]. edestruct inv_step as (fut' & Hi' & _); eauto. Qed.

(** ** Termination and progress *)

Lemma run_finite w0 cs fin s fut : inv w0 cs fin s fut -> Acc (fun a b => step b a) s.
Proof.
  remember (work s fut) as n eqn:E. revert s fut E.
  induction n as [n IH] using lt_wf_ind. intros s fut -> Hi. constructor. intros s' Hs.
  destruct (inv_step _ _ _ _ _ _ Hs Hi) as (fut' & Hi' & Hlt). by eapply IH.
Qed.

Lemma no_write_error s s' :
  ~ fails (W := W) -> step s s' -> (forall b, st_wpc s = WWrite b -> full b) -> writeErr s = None -> writeErr s' = None.
Proof.
  intros Hnf Hs Hb. destruct Hs as [| | | | | | | | | | | | |r w rp b q cl p qu er wg bw id w' n e E| | |]; cbn; try done.
  intros _. destruct (Hb b eq_refl) as [[? Ho] Hf].
  destruct (WriteTo_ok transform obs Htr Hobs b w Hf Ho) as (w1 & [n1 e1] & E' & Hout).
  exfalso. simplify_eq/=. naive_solver.
Qed.

Lemma no_write_error_reach w0 cs fin s s' fut :
  ~ fails (W := W) -> rtc step s s' -> inv w0 cs fin s fut -> writeErr s = None -> writeErr s' = None.
Proof.
  intros Hnf Hs. revert fut. induction Hs as [|x y z Hxy _ IH]; intros fut Hi He; [done|].
  destruct (inv_step _ _ _ _ _ _ Hxy Hi) as (fut' & Hi' & _). apply (IH fut' Hi').
  eapply no_write_error; [done|done| |done]. intros b Hb. pose proof (i_writer _ _ _ _ _ Hi) as Hw.
  unfold writer_inv in Hw. rewrite Hb in Hw. naive_solver.
Qed.

(** The writing thread can always take a step before it waits, unless the channel is empty. *)
Lemma writer_step w0 cs fin s fut :
  inv w0 cs fin s fut ->
  (exists s', step s s') \/ (st_wpc s = WRange /\ ready s = [] /\ ready_closed s = false) \/
  st_wpc s = WWait \/ returned s.
Proof.
  intros Hi. pose proof (i_writer _ _ _ _ _ Hi) as Hw. unfold writer_inv in Hw.
  destruct s as [r w rp wp q cl p qu er we wg bw id]. cbn in *. destruct wp as [|b|b| | |e].
  - destruct q as [|b q]; [destruct cl|]; eauto using w_recv, w_end.
  - destruct Hw as ([[Hg Ho] Hf] & -> & ->). left.
    destruct (WriteTo_ok transform obs Htr Hobs b w Hf Ho) as (w1 & [n1 [e1|]] & E & Hout).
    + eexists. by eapply w_fail.
    + eexists. by eapply w_write.
  - eauto using w_put.
  - destruct Hw as [-> _]. eauto using w_quit.
  - auto.
  - right. right. right. by exists e.
Qed.

(** The reading thread can always take a step, unless it is gone or the channel is full. *)
Lemma reader_step w0 cs fin s fut :
  inv w0 cs fin s fut ->
  (exists s', step s s') \/ st_rpc s = RGone \/
  (exists b n err, st_rpc s = RSend b n err /\ depth ibs <= zlen (ready s)).
Proof.
  intros Hi. pose proof (i_reader _ _ _ _ _ Hi) as Hr. unfold reader_inv in Hr.
  destruct s as [r w rp wp q cl p qu er we wg bw id]. cbn in *. destruct rp as [|b|b n err|n err| | |].
  - destruct Hr as (_ & -> & -> & ->). left. destruct qu; [eauto using r_quit|].
    destruct (Get (newChunkedBuffer id ibs obs) p) as [b p'] eqn:E. eexists. by eapply r_get.
  - destruct Hr as (_ & _ & -> & -> & ->). left. destruct (ReadFrom b r) as [[r' b'] [n err]] eqn:E.
    eexists. by eapply r_fill.
  - destruct Hr as (_ & _ & _ & -> & -> & ->). destruct (Z.lt_ge_cases (zlen q) (depth ibs)); [|right; right; eauto].
    left. eexists. by eapply r_send.
  - destruct Hr as ([(Hn & -> & _)|[_ [[-> _]|(e & -> & He & _)]]] & -> & -> & ->); left.
    + eexists. by apply r_again.
    + eexists. by apply r_eof.
    + eexists. apply r_error; [naive_solver|by right].
  - destruct Hr as (_ & -> & ->). eauto using r_done.
  - destruct Hr as (_ & -> & ->). eauto using r_close.
  - auto.
Qed.

Lemma depth_nonneg : 0 <= depth ibs.
Proof.
  unfold depth. set (d := _ `quot` ibs). assert (0 <= d) by (apply Z.quot_pos; lia).
  destruct (Z.ltb_spec 8192 d); lia.
Qed.

Lemma no_deadlock w0 cs fin s fut :
  inv w0 cs fin s fut -> writeErr s = None -> (exists s', step s s') \/ returned s.
Proof.
  intros Hi He. destruct (writer_step _ _ _ _ _ Hi) as [?|[(E1 & E2 & E3)|[E1|?]]]; [by left| | |by right].
  - destruct (reader_step _ _ _ _ _ Hi) as [?|[E4|(b & n & err & E4 & Hd)]]; [by left| |].
    + pose proof (i_reader _ _ _ _ _ Hi) as Hr. unfold reader_inv in Hr. rewrite E4, E3 in Hr. naive_solver.
    + pose proof (i_reader _ _ _ _ _ Hi) as Hr. unfold reader_inv in Hr. rewrite E4 in Hr.
      destruct s. cbn in *. subst. destruct Hr as (_ & _ & _ & -> & -> & _). left. eexists. apply r_hand_over.
      change (zlen []) with 0 in Hd. pose proof depth_nonneg. lia.
  - pose proof (i_writer _ _ _ _ _ Hi) as Hw. pose proof (i_reader _ _ _ _ _ Hi) as Hr.
    unfold writer_inv, reader_inv in *. rewrite E1 in Hw. destruct Hw as [_ Hw]. destruct (Hw He) as [_ Hc].
    rewrite Hc in Hr. destruct s. cbn in *. subst. assert (wg_done0 = true) as -> by (destruct st_rpc0; naive_solver).
    left. eexists. apply w_return.
Qed.

Lemma returned_ok w0 cs fin s fut e :
  inv w0 cs fin s fut -> st_wpc s = WReturned e -> writeErr s = None ->
  e = input_error fin /\ out (st_w s) = out w0 ++ concat (conv <$> cs) /\ bytesWritten s = i64 (zlen (concat cs)).
Proof.
  intros [Hr Hw _ _ Hd _] E He. unfold reader_inv, writer_inv, data_inv in *. rewrite E in *. rewrite He in *.
  destruct Hw as (_ & Hw & _ & ->). destruct (Hw eq_refl) as [Hq Hc]. rewrite Hq, Hc in *.
  destruct (st_rpc s); try naive_solver. destruct Hr as ([?|[-> ->]] & _); [done|].
  destruct Hd as (sent & Hd1 & Hd2 & ->). cbn. rewrite app_nil_r. split; [by destruct (input_error fin)|done].
Qed.

Lemma output_prefix w0 cs fin s fut :
  inv w0 cs fin s fut -> exists k, out (st_w s) = out w0 ++ take k (concat (conv <$> cs)).
Proof.
  intros Hi. pose proof (i_data _ _ _ _ _ Hi) as Hd. unfold data_inv in Hd. destruct (writeErr s); [done|].
  destruct Hd as (sent & -> & _ & ->). exists (length (concat (conv <$> sent))).
  by rewrite fmap_app, concat_app, take_app_length.
Qed.
End Run.

(** C8: with block sizes of at least one byte and a conversion that keeps the length of a block: in every
    state the parallel copy can reach, whatever the interleaving of its two threads, the output is a prefix of the converted input, in order, and no buffer is in two
    places (with the reader, in the channel, with the writer, in the pool) at once; when the
    copy has returned without a write error, the whole input is on the output, the bytes are
    counted, and the error returned is the reader's: none exactly when the input ended with
    [io.EOF]. *)
Theorem copy_safe {R W} `{ReaderOk R} `{WriterOk W} (ibs obs : Z) (transform : bytes -> bytes) r w cs fin s :
  (forall b, length (transform b) = length b) -> 1 <= ibs -> 1 <= obs ->
  reads (Z.to_nat ibs) r cs fin ->
  rtc (step (R := R) (W := W) ibs obs transform) (init ibs r w) s ->
  (exists k, out (st_w s) = out w ++ take k (concat (converted transform obs <$> cs))) /\
  NoDup (ident <$> pool_c (pool s) ++ ready s ++ reader_bufs (st_rpc s) ++ writer_bufs (st_wpc s)) /\
  forall e, st_wpc s = WReturned e ->
    (e = None -> writeErr s = None /\ fin = None) /\
    (writeErr s = None ->
     e = input_error fin /\ out (st_w s) = out w ++ concat (converted transform obs <$> cs) /\
     bytesWritten s = i64 (zlen (concat cs))).
Proof.
  intros Htr Hi Ho Hr Hs.
  destruct (inv_reach ibs obs transform Htr Ho w cs fin _ _ _ Hs (inv_init ibs obs transform r w cs fin Hr)) as [fut Hinv].
  split_and!; [by eapply output_prefix|apply (i_bufs _ _ _ _ _ _ _ _ Hinv)|].
  intros e He. assert (Hok := returned_ok ibs obs transform _ _ _ _ _ _ Hinv He).
  split; [|done]. intros ->. pose proof (i_writer _ _ _ _ _ _ _ _ Hinv) as Hw. unfold writer_inv in Hw. rewrite He in Hw.
  destruct Hw as (_ & _ & _ & Hw). destruct (errs s); [done|]. rewrite <- Hw in *. split; [done|].
  destruct (Hok eq_refl) as [Hf _]. by destruct fin.
Qed.

(** C9: with block sizes of at least one byte and a conversion that keeps the length of a block, the copy
    terminates: no run of the two threads is infinite, whatever the sink does; and it does not deadlock as long as the sink accepts the data: a state that can be reached
    either has a next step or the copy has returned, with the reader's error if any. *)
Theorem copy_terminates {R W} `{ReaderOk R} `{WriterOk W} (ibs obs : Z) (transform : bytes -> bytes) r w cs fin s :
  (forall b, length (transform b) = length b) -> 1 <= ibs -> 1 <= obs ->
  reads (Z.to_nat ibs) r cs fin ->
  rtc (step (R := R) (W := W) ibs obs transform) (init ibs r w) s ->
  Acc (fun a b => step ibs obs transform b a) s /\
  (~ fails (W := W) -> (exists s', step ibs obs transform s s') \/ st_wpc s = WReturned (input_error fin)).
Proof.
  intros Htr Hi Ho Hr Hs. pose proof (inv_init ibs obs transform r w cs fin Hr) as Hinit.
  destruct (inv_reach ibs obs transform Htr Ho w cs fin _ _ _ Hs Hinit) as [fut Hinv].
  split; [by eapply run_finite|]. intros Hnf.
  assert (writeErr s = None) as He by (by eapply no_write_error_reach).
  destruct (no_deadlock ibs obs transform Htr Ho Hi _ _ _ _ _ Hinv He) as [?|[e Hret]]; [by left|right].
  destruct (returned_ok ibs obs transform _ _ _ _ _ _ Hinv Hret He) as [-> _]. done.
Qed.

(** ** The section reader on a stream *)

(** [section_Read] as an [io.Reader]; the skipping loop reads at least a byte each time, so
    [s_base] rounds are enough. *)
#[export] Instance section_Reader : Reader (sectionReader Stream) := fun s n =>
  default (s, ([], None)) (section_Read (Z.to_nat (s_base s)) s n).

Lemma Discard_stream fuel n m d :
  0 <= m <= n -> n - m <= Z.of_nat fuel ->
  Discard fuel n m (MkStream d) =
  Some (if n - m <=? zlen d then (MkStream (drop (Z.to_nat (n - m)) d), (n, None))
        else (MkStream [], (m + zlen d, Some EOF))).
Proof.
  revert m d. induction fuel as [|fuel IH]; intros m d Hm Hf; cbn [Discard].
  all: destruct (Z.leb_spec n m); [replace m with n in * by lia; rewrite Z.sub_diag;
         pose proof (zlen_nonneg d); destruct (Z.leb_spec 0 (zlen d)); [done|lia]|].
  1: lia.
  unfold io_Read, Stream_Reader. cbn [unread_bytes]. destruct d as [|x d'].
  - destruct (Nat.eqb_spec (Z.to_nat (Z.min 8192 (n - m))) 0); [lia|].
    change (zlen []) with 0. rewrite Z.add_0_r. destruct (Z.leb_spec n m); [lia|].
    destruct (Z.leb_spec (n - m) 0); [lia|done].
  - set (d := x :: d'). set (k := Z.to_nat (Z.min 8192 (n - m))).
    assert (0 < zlen d) by (unfold d; rewrite zlen_cons; pose proof (zlen_nonneg d'); lia).
    assert (zlen (take k d) = Z.min (Z.of_nat k) (zlen d)) as -> by (unfold zlen; rewrite length_take; lia).
    destruct (Z.leb_spec n (m + Z.min (Z.of_nat k) (zlen d))).
    + destruct (Z.leb_spec (n - m) (zlen d)); [|lia]. replace (m + _) with n by lia.
      do 4 f_equal. lia.
    + rewrite IH by lia. destruct (Z.le_ge_cases (zlen d) (Z.of_nat k)) as [Hk|Hk].
      * rewrite (drop_ge d) by (unfold zlen in Hk; lia). change (zlen []) with 0.
        destruct (Z.leb_spec (n - (m + Z.min (Z.of_nat k) (zlen d))) 0); [lia|].
        destruct (Z.leb_spec (n - m) (zlen d)); [lia|]. do 3 f_equal. lia.
      * assert (zlen (drop k d) = zlen d - Z.of_nat k) as -> by (unfold zlen in *; rewrite length_drop; lia).
        rewrite drop_drop. destruct (Z.leb_spec (n - (m + Z.min (Z.of_nat k) (zlen d))) (zlen d - Z.of_nat k));
          destruct (Z.leb_spec (n - m) (zlen d)); try lia; [do 4 f_equal; lia|do 3 f_equal; lia].
Qed.

Lemma io_Read_section base off lim d n :
  (off <> 0 \/ base = 0) -> (1 <= n)%nat ->
  io_Read (MkSection base off lim (MkStream d)) n =
  if bool_decide (lim <= off \/ d = []) then (MkSection base off lim (MkStream d), ([], Some EOF))
  else let k := Z.to_nat (Z.min (Z.of_nat n) (lim - off)) in
       (MkSection base (off + zlen (take k d)) lim (MkStream (drop k d)), (take k d, None)).
Proof.
  intros Hb Hn. unfold io_Read at 1, section_Reader, section_Read. cbn [s_offset s_base s_limit s_Reader].
  rewrite bool_decide_eq_false_2 by (intros [? ?]; naive_solver).
  destruct (Z.leb_spec lim off); [by rewrite bool_decide_eq_true_2 by auto|].
  set (k := if lim - off <? Z.of_nat n then Z.to_nat (lim - off) else n).
  assert (k = Z.to_nat (Z.min (Z.of_nat n) (lim - off))) as Hk by (unfold k; destruct (Z.ltb_spec (lim - off) (Z.of_nat n)); lia).
  unfold io_Read, Stream_Reader. cbn [unread_bytes]. rewrite Hk. clearbody k. destruct d as [|x d'].
  - rewrite bool_decide_eq_true_2 by auto. destruct (Nat.eqb_spec (Z.to_nat (Z.min (Z.of_nat n) (lim - off))) 0); [lia|].
    cbn. by rewrite Z.add_0_r.
  - rewrite (bool_decide_eq_false_2 (lim <= off \/ _)) by (intros [?|?]; [lia|done]). rewrite bool_decide_eq_false_2; [done|].
    intros [E _]. destruct (Z.to_nat (Z.min (Z.of_nat n) (lim - off))) eqn:E'; [lia|]. cbn in E.
    rewrite zlen_cons in E. pose proof (zlen_nonneg (take n0 d')). lia.
Qed.

Lemma reads_section_tail base off lim d n :
  (off <> 0 \/ base = 0) -> 0 <= off -> (1 <= n)%nat ->
  reads n (MkSection base off lim (MkStream d)) (chunks n (take (Z.to_nat (lim - off)) d)) None.
Proof.
  remember (length d) as m eqn:E. revert off d E. induction m as [m IH] using lt_wf_ind. intros off d -> Hb Ho Hn.
  pose proof (io_Read_section base off lim d n Hb Hn) as Hread. case_bool_decide as Hend.
  - replace (take _ d) with (@nil byte) by (destruct Hend as [?| ->]; [by replace (Z.to_nat (lim - off)) with 0%nat by lia|by rewrite take_nil]).
    apply (reads_eof n _ _ _ Hread).
  - cbn zeta in Hread. set (k := Z.to_nat (Z.min (Z.of_nat n) (lim - off))) in *.
    assert (d <> [] /\ off < lim) as [Hd Hlt] by (split; [naive_solver|lia]).
    assert (0 < length d)%nat by (destruct d; [done|simpl; lia]).
    assert (length (take (Z.to_nat (lim - off)) d) <> 0%nat) by (rewrite length_take; lia).
    rewrite chunks_cons by (lia || (intros E; rewrite E in *; done)).
    rewrite take_take, skipn_firstn_comm. replace (n `min` Z.to_nat (lim - off))%nat with k by lia.
    eapply reads_more; [exact Hread| |].
    + intros E. apply (f_equal length) in E. rewrite length_take in E. simpl in E. lia.
    + assert (zlen (take k d) = Z.of_nat k \/ drop k d = []) as Hz.
      { destruct (decide (k <= length d)%nat); [left|right]; [unfold zlen; rewrite length_take; lia|apply drop_ge; lia]. }
      assert (0 < zlen (take k d)) by (unfold zlen; rewrite length_take; lia).
      replace (take (Z.to_nat (lim - off) - n) (drop n d)) with
        (take (Z.to_nat (lim - (off + zlen (take k d)))) (drop k d)).
      * eapply IH; [|done|left; lia|lia|done]. rewrite length_drop. lia.
      * destruct (decide (Z.of_nat n <= lim - off)) as [?|?].
        -- replace k with n in * by lia. destruct Hz as [-> | ->]; [f_equal; lia|by rewrite !take_nil].
        -- replace (Z.to_nat (lim - off) - n)%nat with 0%nat by lia.
           destruct Hz as [-> | ->]; [|by rewrite take_nil].
           by replace (Z.to_nat (lim - (off + Z.of_nat k))) with 0%nat by lia.
Qed.

(** The end of a section: [offset + n], or the largest offset when that overflows. *)
Lemma newStreamSectionReader_limit d off cnt :
  0 <= off < 2 ^ 63 -> 0 <= cnt < 2 ^ 63 ->
  newStreamSectionReader (MkStream d) off cnt = MkSection off 0 (Z.min (off + cnt) MaxInt64) (MkStream d).
Proof.
  intros Ho Hc. unfold newStreamSectionReader, MaxInt64. destruct (Z.lt_ge_cases (off + cnt) (2 ^ 63)).
  - rewrite i64_small by lia. destruct (Z.ltb_spec (off + cnt) 0); [lia|]. f_equal. lia.
  - assert (i64 (off + cnt) < 0) as Hneg.
    { unfold i64. assert ((off + cnt + 2 ^ 63) `mod` 2 ^ 64 = off + cnt + 2 ^ 63 - 2 ^ 64) as ->; [|lia].
      rewrite <- (Z.mod_small (off + cnt + 2 ^ 63 - 2 ^ 64) (2 ^ 64)) by lia.
      rewrite Zminus_mod, Z_mod_same_full, Z.sub_0_r, Zmod_mod. done. }
    destruct (Z.ltb_spec (i64 (off + cnt)) 0); [|lia]. f_equal. lia.
Qed.

(** Reading the section of [cnt] bytes at [off] of a stream that cannot seek (what [dd]
    does with [skip] and [count] on the standard input) gives, in buffers of [n] bytes, these
    bytes of the stream and then the end of the input, also where [off + cnt] overflows or
    goes beyond the end of the stream. *)
Theorem section_reads data off cnt n :
  0 <= off < 2 ^ 63 -> 0 <= cnt < 2 ^ 63 -> zlen data < 2 ^ 63 -> (1 <= n)%nat ->
  reads n (newStreamSectionReader (MkStream data) off cnt)
    (chunks n (take (Z.to_nat cnt) (drop (Z.to_nat off) data))) None.
Proof.
  intros Ho Hc Hd Hn. rewrite newStreamSectionReader_limit by done. set (lim := Z.min (off + cnt) MaxInt64).
  assert (take (Z.to_nat (lim - off)) (drop (Z.to_nat off) data) = take (Z.to_nat cnt) (drop (Z.to_nat off) data)) as Hsec.
  { unfold lim, MaxInt64. destruct (Z.le_ge_cases (off + cnt) (2 ^ 63 - 1)); [f_equal; lia|].
    unfold zlen in Hd. rewrite !take_ge; [done| |]; rewrite length_drop; lia. }
  rewrite <- Hsec. destruct (decide (off = 0)) as [->|Hoff].
  { rewrite drop_0. apply reads_section_tail; auto. lia. }
  assert (forall k, io_Read (MkSection off 0 lim (MkStream data)) k =
    if off <=? zlen data then io_Read (MkSection off off lim (MkStream (drop (Z.to_nat off) data))) k
    else (MkSection off 0 lim (MkStream []), ([], Some EOF))) as Hread.
  { intros k. unfold io_Read, section_Reader, section_Read. cbn [s_offset s_base s_limit s_Reader].
    rewrite bool_decide_eq_true_2 by done. rewrite Discard_stream, Z.sub_0_r by lia.
    destruct (Z.leb_spec off (zlen data)); [|done].
    rewrite (bool_decide_eq_false_2 (off <> off)), (bool_decide_eq_false_2 (off = 0 /\ _)) by naive_solver.
    destruct (lim <=? off); [done|]. destruct (io_Read (MkStream _) _) as [r1 [g1 e1]]. by case_bool_decide. }
  destruct (Z.leb_spec off (zlen data)).
  - pose proof (reads_section_tail off off lim (drop (Z.to_nat off) data) n ltac:(auto) ltac:(lia) Hn) as Hr.
    inversion Hr; subst; rewrite <- Hread in *; econstructor; eauto.
  - rewrite (drop_ge data), take_nil by (unfold zlen in *; lia). by eapply (reads_eof n _ _ []), Hread.
Qed.

Lemma section_reads_witness :
  reads 2 (newStreamSectionReader (MkStream (str "hello world")) 6 3) (chunks 2 (str "wor")) None.
Proof. apply (section_reads (str "hello world") 6 3 2); vm_compute; try done; lia. Defined.

(** ** The copy of a stream, and a run of it *)

Lemma reads_stream n d : (1 <= n)%nat -> reads n (MkStream d) (chunks n d) None.
Proof.
  intros Hn. remember (length d) as m eqn:E. revert d E. induction m as [m IH] using lt_wf_ind. intros d ->.
  destruct d as [|x d'].
  - apply (reads_eof n (MkStream []) (MkStream []) []). cbv [io_Read Stream_Reader unread_bytes].
    by destruct (Nat.eqb_spec n 0); [lia|].
  - rewrite chunks_cons by (lia || done). destruct n as [|n]; [lia|]. eapply reads_more; [done|done|].
    eapply IH; [|done]. rewrite length_drop. cbn. lia.
Qed.

(** The reader runs to the end, then the writer. *)
Lemma short_run :
  exists s, rtc (step (R := Stream) (W := Buffer) 2 1 id) (init 2 (MkStream (str "ab")) {| buf := [] |}) s /\
    st_wpc s = WReturned None.
Proof.
  eexists. split.
  - unfold init. eapply rtc_l; [by eapply r_get|]. eapply rtc_l; [by eapply r_fill|]. cbn.
    eapply rtc_l; [by eapply r_send|]. eapply rtc_l; [by eapply r_again|].
    eapply rtc_l; [by eapply r_get|]. eapply rtc_l; [by eapply r_fill|]. cbn.
    eapply rtc_l; [by eapply r_eof|]. eapply rtc_l; [by eapply r_done|]. eapply rtc_l; [by eapply r_close|].
    eapply rtc_l; [by eapply w_recv|]. eapply rtc_l; [by eapply w_write|]. eapply rtc_l; [by eapply w_put|].
    eapply rtc_l; [by eapply w_end|]. eapply rtc_l; [by eapply w_quit|]. eapply rtc_l; [by eapply w_return|].
    apply rtc_refl.
  - done.
Qed.

Lemma copy_safe_witness :
  exists s, rtc (step (R := Stream) (W := Buffer) 2 1 id) (init 2 (MkStream (str "ab")) {| buf := [] |}) s /\
    out (st_w s) = str "ab" /\ bytesWritten s = 2.
Proof.
  destruct short_run as (s & Hs & He). exists s. split; [exact Hs|].
  destruct (copy_safe 2 1 id (MkStream (str "ab")) {| buf := [] |} (chunks 2 (str "ab")) None s
    (fun b => eq_refl) ltac:(lia) ltac:(lia) (reads_stream 2 (str "ab") ltac:(lia)) Hs) as (_ & _ & H).
  destruct (H None He) as [H1 H2]. destruct (H2 (proj1 (H1 eq_refl))) as (_ & Hout & Hb). split; [exact Hout|exact Hb].
Defined.

Lemma copy_terminates_witness :
  Acc (fun a b => step 2 1 id b a) (init 2 (MkStream (str "ab")) {| buf := [] |}) /\
  exists s', step 2 1 id (init 2 (MkStream (str "ab")) {| buf := [] |}) s'.
Proof.
  destruct (copy_terminates 2 1 id (MkStream (str "ab")) {| buf := [] |} (chunks 2 (str "ab")) None
    (init 2 (MkStream (str "ab")) {| buf := [] |}) (fun b => eq_refl) ltac:(lia) ltac:(lia)
    (reads_stream 2 (str "ab") ltac:(lia)) (rtc_refl _ _)) as [Ha Hp].
  split; [exact Ha|]. destruct Hp as [Hp|Hp]; [|exact Hp|discriminate]. intros (w & b & Hf). apply Hf. reflexivity.
Defined.

(** ** A full channel and a write error *)

Section Full.
Context {R W : Type} `{ReaderOk R} `{WriterOk W} (ibs obs : Z) (transform : bytes -> bytes).
Context (Hobs : 1 <= obs) (Hibs : 1 <= ibs).

(** With no buffer coming back to the pool, the reader fills the channel. *)
Lemma fill_channel k r w wp q n bw id cs fin :
  reads (Z.to_nat ibs) r cs fin -> (k < length cs)%nat -> Z.of_nat (length q + k) <= depth ibs ->
  exists r' q' id' cs',
    rtc (step ibs obs transform)
      (MkState r w RTop wp q false (MkPool n []) false None None false bw id)
      (MkState r' w RTop wp (q ++ q') false (MkPool n []) false None None false bw id') /\
    length q' = k /\ Forall (fun b => outChunk b = obs /\ content b <> [] /\ filled b) q' /\
    reads (Z.to_nat ibs) r' cs' fin /\ length cs = (k + length cs')%nat.
Proof.
  revert r q id cs. induction k as [|k IH]; intros r q id cs Hr Hk Hq.
  { exists r, [], id, cs. rewrite app_nil_r. split_and!; [apply rtc_refl|done|constructor|done|done]. }
  set (b := newChunkedBuffer id ibs obs). destruct (ReadFrom b r) as [[r1 b1] [m err]] eqn:E.
  destruct (ReadFrom_spec ibs obs b r r1 b1 m err cs fin (good_new ibs obs id) Hr E) as ([_ Hg] & Hf & _ & Hm & fut & Ha & Hcs).
  destruct Ha as [(Hne & -> & Hr1)|[-> _]].
  2: { rewrite Hcs in Hk. destruct (0 <? m); cbn in Hk; lia. }
  unfold filled in Hf. destruct (Z.ltb_spec 0 m) as [Hpos|]; [|lia].
  destruct (IH r1 (q ++ [b1]) (S id) fut Hr1) as (r' & q' & id' & cs' & Hrun & Hl & Hall & Hr' & Hlen).
  { rewrite Hcs in Hk. cbn in Hk. lia. }
  { rewrite length_app. cbn. lia. }
  exists r', (b1 :: q'), id', cs'. split_and!; [|cbn; lia| |done|rewrite Hcs; cbn; lia].
  - rewrite <- app_assoc in Hrun. eapply rtc_l; [by apply r_get|]. eapply rtc_l; [by eapply r_fill|].
    destruct (Z.ltb_spec 0 m); [|lia]. eapply rtc_l; [apply r_send; unfold zlen; lia|].
    eapply rtc_l; [by apply r_again|]. done.
  - constructor; [|done]. split_and!; [done| |done]. unfold content. intros E1.
    apply (f_equal length) in E1. rewrite length_take in E1. unfold zlen in Hf. cbn in E1. lia.
Qed.

(** The sink [w] refuses data (a full device). *)
Definition refuses (w : W) : Prop := forall b, b <> [] -> exists w' n e, io_Write w b = (w', (n, Some e)).

Lemma WriteTo_refused w b :
  (forall x, length (transform x) = length x) ->
  refuses w -> outChunk b = obs -> content b <> [] -> filled b ->
  exists w' n e, WriteTo transform b w = Some (w', Ret (n, Some e)).
Proof.
  intros Htr Hw Ho Hc Hf. unfold WriteTo. assert (0 < buf_length b) as Hpos.
  { destruct (Z.lt_ge_cases 0 (buf_length b)); [done|]. destruct Hc. unfold content.
    by replace (Z.to_nat (buf_length b)) with 0%nat by lia. }
  destruct (Z.to_nat (buf_length b)) as [|f] eqn:E; [lia|]. cbn [WriteTo_loop].
  destruct (Z.leb_spec (buf_length b) 0); [lia|]. unfold filled in Hf. rewrite Ho.
  set (chunk := if buf_length b <? 0 + obs then buf_length b - 0 else obs).
  assert (1 <= chunk <= buf_length b) by (unfold chunk; destruct (Z.ltb_spec (buf_length b) (0 + obs)); lia).
  rewrite slice_Some by lia. edestruct Hw as (w' & n & e & ->); [|eauto].
  intros Hn. apply (f_equal length) in Hn. rewrite Htr, length_take, length_drop in Hn. unfold zlen in Hf. cbn in Hn. lia.
Qed.

(** The two threads stuck: the reader sends on the full channel that nobody receives from
    any more, the writer waits for the reader. *)
Lemma stuck_full s b n err :
  st_rpc s = RSend b n err -> st_wpc s = WWait -> wg_done s = false -> depth ibs <= zlen (ready s) ->
  forall s', ~ step ibs obs transform s s'.
Proof.
  intros E1 E2 E3 Hd s' Hs. destruct Hs; cbn in *; simplify_eq; lia.
Qed.
End Full.

(** A write error does not always end the copy: with an input of at least [depth + 2]
    chunks and a sink that refuses data, the reader can fill the channel before the first
    write fails; it is then blocked sending, out of reach of [quit], while the writer waits
    for it, and the copy never returns. *)
Theorem copy_deadlock {R W} `{ReaderOk R} `{WriterOk W} (ibs obs : Z) (transform : bytes -> bytes) r (w : W) cs fin :
  (forall b, length (transform b) = length b) -> 1 <= ibs <= 1024 * 1024 * 1024 -> 1 <= obs ->
  reads (Z.to_nat ibs) r cs fin -> depth ibs + 2 <= zlen cs -> refuses w ->
  exists s, rtc (step (R := R) (W := W) ibs obs transform) (init ibs r w) s /\ st_wpc s = WWait /\
    forall s', ~ step ibs obs transform s s'.
Proof.
  intros Htr Hi Ho Hr Hl Hw. assert (1 <= depth ibs) as Hd.
  { unfold depth. set (d := _ `quot` ibs). assert (1 <= d) by (apply Z.quot_le_lower_bound; lia).
    destruct (Z.ltb_spec 8192 d); lia. }
  unfold zlen in Hl. unfold init, newBufferPool.
  destruct (fill_channel ibs obs transform 1 r w WRange [] (depth ibs) 0 0 cs fin Hr) as (r1 & q1 & id1 & cs1 & Hs1 & Hq1 & Hall & Hr1 & Hl1);
    [lia|cbn; lia|].
  destruct q1 as [|b1 [|]]; [done| |done]. apply Forall_cons in Hall as [(Hb1 & Hb2 & Hb3) _]. cbn in Hs1.
  destruct (WriteTo_refused obs transform Ho w b1 Htr Hw Hb1 Hb2 Hb3) as (w' & n & e & Hfail).
  destruct (fill_channel ibs obs transform (Z.to_nat (depth ibs)) r1 w (WWrite b1) [] (depth ibs) 0 id1 cs1 fin Hr1)
    as (r2 & q2 & id2 & cs2 & Hs2 & Hq2 & _ & Hr2 & Hl2); [lia|cbn; lia|]. cbn in Hs2.
  destruct (ReadFrom (newChunkedBuffer id2 ibs obs) r2) as [[r3 b3] [m err]] eqn:E.
  destruct (ReadFrom_spec ibs obs _ r2 r3 b3 m err cs2 fin (good_new ibs obs id2) Hr2 E) as (_ & Hf & _ & Hm & fut & Ha & Hcs).
  assert (0 < m) as Hpos.
  { unfold filled in Hf. destruct (Z.ltb_spec 0 m); [done|]. destruct Ha as [[? _]|[-> _]]; [lia|].
    rewrite Hcs in Hl2. cbn in Hl2. lia. }
  exists (MkState r3 w' (RSend b3 m err) WWait q2 false (MkPool (depth ibs) []) true None
            (Some (Errorf "output error: %v")) false 0 (S id2)).
  split_and!; [|done|eapply stuck_full; try done; unfold zlen; cbn; lia].
  etransitivity; [exact Hs1|]. eapply rtc_l; [apply w_recv|]. etransitivity; [exact Hs2|].
    eapply rtc_l; [by apply r_get|]. eapply rtc_l; [by eapply r_fill|]. destruct (Z.ltb_spec 0 m); [|lia].
    eapply rtc_l; [by eapply w_fail|]. eapply rtc_l; [apply w_quit|]. apply rtc_refl.
Qed.

(** [dd of=/dev/full bs=1] of 9000 bytes. *)
Lemma copy_deadlock_witness :
  exists s, rtc (step (R := Stream) (W := Device) 1 1 id)
      (init 1 (MkStream (replicate (Z.to_nat 9000) x00)) {| dev_data := []; dev_room := 0 |}) s /\ st_wpc s = WWait /\
    forall s', ~ step 1 1 id s s'.
Proof.
  apply (copy_deadlock 1 1 id (MkStream (replicate (Z.to_nat 9000) x00)) {| dev_data := []; dev_room := 0 |}
    (chunks 1 (replicate (Z.to_nat 9000) x00)) None).
  - reflexivity.
  - lia.
  - lia.
  - apply (reads_stream 1 (replicate (Z.to_nat 9000) x00)). lia.
  - vm_compute. discriminate.
  - intros b Hb. destruct b; [contradiction|]. do 3 eexists. reflexivity.
Defined.

(** A conversion that changes the number of bytes (the upper case of the two-byte letter
    U+0131 is the one-byte [I]) makes the copy fail with a short write after the data was
    written. *)
Example WriteTo_short_conversion :
  WriteTo (fun b => if bytes_eqb b [xc4; xb1] then [x49] else b)
    (MkBuf 512 2 [xc4; xb1] 0) {| buf := [] |} = Some ({| buf := [x49] |}, Ret (0, Some ErrShortWrite)).
Proof. reflexivity. Qed.

(** With [obs=0] the loop of [WriteTo] writes nothing and never ends. *)
Lemma WriteTo_zero_diverges fuel b data (w : Buffer) :
  WriteTo_loop id fuel (MkBuf 0 (zlen (b :: data)) (b :: data) 0) 0 w = None.
Proof.
  assert ((zlen (b :: data) <=? 0) = false) as E.
  { rewrite zlen_cons. pose proof (zlen_nonneg data). apply Z.leb_gt. lia. }
  revert w. induction fuel as [|fuel IH]; intros w; cbn [WriteTo_loop buf_length outChunk buf_data]; rewrite E; [done|].
  replace (zlen (b :: data) <? 0 + 0) with false by (symmetry; apply Z.ltb_ge; apply zlen_nonneg).
  apply IH.
Qed.
