(* ===== verification/DdProgress.v ===== *)
(** * The progress report of [dd] ([cmds/dd/dd.go])

    [progressBegin], the goroutine that prints once a second, [end] with its two sends on a channel
    of one place, and the rest of [main] around the parallel copy: a step relation of the threads of
    the copy, the ticking goroutine and [main].  An entry of the standard error stands for one write
    to it; the times and rates that a report shows next to the number of bytes are left out. *)

From Stdlib Require Import Strings.String.
From S2P Require Export Dd.

Inductive event := Erase | Report (n : Z) | Newline | Fatal.

(** The goroutine: not started; in its [select]; in [print] after the load, and after the escape
    sequence; returned. *)
Inductive tpc := TNone | TSelect | TLoaded (n : Z) | TErased (n : Z) | TReturned.

(** [main]: in the copy; before the two sends of [end]; in its last [print]; before the line feed;
    returned; in [log.Fatal] before the exit; ended by it. *)
Inductive mpc := MCopy | MSend1 | MSend2 | MLoad | MErase (n : Z) | MReport (n : Z) | MNewline | MDone | MFatal | MExit.

(** [quit] is a channel of one place. *)
Record progressData (R W : Type) := MkP {
  copy : state R W; main_at : mpc; ticker_at : tpc; quit_full : bool; stderr : list event
}.
Arguments MkP {R W}. Arguments copy {R W}. Arguments main_at {R W}. Arguments ticker_at {R W}.
Arguments quit_full {R W}. Arguments stderr {R W}.

Section Progress.
Context {R W : Type} `{Reader R} `{Writer W} (ibs obs : Z) (transform : bytes -> bytes) (mode : bytes).

Definition is_progress : bool := bytes_eqb mode (str "progress").
Definition is_xfer : bool := bytes_eqb mode (str "xfer").

(** What one [print] writes. *)
Definition printed (n : Z) : list event := if is_progress then [Erase; Report n] else [Report n].

(** After [progressBegin], with the copy about to start. *)
Definition progressBegin (r : R) (w : W) : progressData R W :=
  MkP (init ibs r w) MCopy (if is_progress then TSelect else TNone) false (if is_progress then printed 0 else []).

(** Where [end] begins. *)
Definition end_begins : mpc := if is_progress then MSend1 else if is_xfer then MLoad else MDone.

Definition alive (m : mpc) : Prop := m <> MDone /\ m <> MExit.

Inductive pstep : progressData R W -> progressData R W -> Prop :=
| p_copy c c' t q err :
    step ibs obs transform c c' -> pstep (MkP c MCopy t q err) (MkP c' MCopy t q err)
| p_fatal c t q err e :
    st_wpc c = WReturned (Some e) -> pstep (MkP c MCopy t q err) (MkP c MFatal t q (err ++ [Fatal]))
| p_exit c t q err :
    pstep (MkP c MFatal t q err) (MkP c MExit t q err)
| p_end c t q err :
    st_wpc c = WReturned None -> pstep (MkP c MCopy t q err) (MkP c end_begins t q err)
| p_send1 c t err :
    pstep (MkP c MSend1 t false err) (MkP c MSend2 t true err)
| p_send2 c t err :
    pstep (MkP c MSend2 t false err) (MkP c MLoad t true err)
| p_load c t q err :
    pstep (MkP c MLoad t q err)
      (MkP c (if is_progress then MErase (bytesWritten c) else MReport (bytesWritten c)) t q err)
| p_erase c t q err n :
    pstep (MkP c (MErase n) t q err) (MkP c (MReport n) t q (err ++ [Erase]))
| p_report c t q err n :
    pstep (MkP c (MReport n) t q err) (MkP c MNewline t q (err ++ [Report n]))
| p_newline c t q err :
    pstep (MkP c MNewline t q err) (MkP c MDone t q (err ++ [Newline]))
| t_tick c m q err :
    alive m -> pstep (MkP c m TSelect q err) (MkP c m (TLoaded (bytesWritten c)) q err)
| t_erase c m q err n :
    alive m -> pstep (MkP c m (TLoaded n) q err) (MkP c m (TErased n) q (err ++ [Erase]))
| t_report c m q err n :
    alive m -> pstep (MkP c m (TErased n) q err) (MkP c m TSelect q (err ++ [Report n]))
| t_quit c m err :
    alive m -> pstep (MkP c m TSelect true err) (MkP c m TReturned false err).

(** ** Invariant *)

(** The goroutine is running. *)
Definition ticking (t : tpc) : Prop := t <> TNone /\ t <> TReturned.

(** [log.Fatal] has been called. *)
Definition fatal (m : mpc) : bool := match m with MFatal | MExit => true | _ => false end.

(** The part of a print that the goroutine has written. *)
Definition partial (t : tpc) : list event := match t with TErased _ => [Erase] | _ => [] end.

(** The part of the last print that [main] has written. *)
Definition last_part (m : mpc) (bw : Z) : list event :=
  match m with
  | MReport _ => if is_progress then [Erase] else []
  | MNewline => printed bw
  | MDone => if is_progress || is_xfer then printed bw ++ [Newline] else []
  | _ => []
  end.

(** The numbers that [main] carries; the last print is only done when it was asked for. *)
Definition loaded_ok (m : mpc) (bw : Z) : Prop :=
  match m with
  | MLoad | MNewline => is_progress || is_xfer = true
  | MErase n => is_progress = true /\ n = bw
  | MReport n => is_progress || is_xfer = true /\ n = bw
  | _ => True
  end.

(** The state of the channel and of the goroutine at each point of [main]. *)
Definition threads_ok (m : mpc) (t : tpc) (q : bool) : Prop :=
  match m with
  | MCopy | MFatal | MExit => q = false /\ if is_progress then ticking t else t = TNone
  | MSend1 => is_progress = true /\ q = false /\ ticking t
  | MSend2 => is_progress = true /\ if q then ticking t else t = TReturned
  | _ => if is_progress then t = TReturned else t = TNone
  end.

Record pinv (s : progressData R W) : Prop := {
  p_threads : threads_ok (main_at s) (ticker_at s) (quit_full s);
  p_loaded : loaded_ok (main_at s) (bytesWritten (copy s));
  p_returned : main_at s <> MCopy -> fatal (main_at s) = false -> st_wpc (copy s) = WReturned None;
  p_stderr : fatal (main_at s) = false -> exists ns,
    stderr s = (ns ≫= printed) ++ partial (ticker_at s) ++ last_part (main_at s) (bytesWritten (copy s)) /\
    (is_progress = false -> ns = [])
}.

Lemma pinv_begin r w : pinv (progressBegin r w).
Proof.
  unfold progressBegin. constructor; cbn [main_at ticker_at quit_full copy stderr].
  - split; [done|]. by destruct is_progress.
  - done.
  - done.
  - intros _. exists (if is_progress then [0] else []). destruct is_progress; cbn; rewrite ?app_nil_r; by split.
Qed.

(** While the goroutine runs, [main] has not written anything of the last print. *)
Lemma ticking_main m t q bw : threads_ok m t q -> ticking t -> is_progress = true /\ last_part m bw = [].
Proof.
  intros Ht [Hn Hr]. unfold threads_ok in Ht. destruct m; destruct is_progress eqn:Ep; cbn; naive_solver.
Qed.

(** A step of the goroutine that stays in its loop. *)
Lemma pinv_ticker c m t t' q err err' :
  pinv (MkP c m t q err) -> ticking t -> ticking t' ->
  (is_progress = true -> forall ns, err = (ns ≫= printed) ++ partial t -> exists ns', err' = (ns' ≫= printed) ++ partial t') ->
  pinv (MkP c m t' q err').
Proof.
  intros [Ht Hl Hr Hs] Hk Hk' He. cbn [main_at ticker_at quit_full copy stderr] in *.
  destruct (ticking_main m t q (bytesWritten c) Ht Hk) as [Hp Hm].
  constructor; cbn [main_at ticker_at quit_full copy stderr]; [|done|done|].
  - unfold threads_ok in *. unfold ticking in *. destruct m; rewrite ?Hp in *; try destruct q; naive_solver.
  - intros Hf. destruct (Hs Hf) as (ns & -> & _). rewrite Hm, app_nil_r in *.
    destruct (He Hp ns eq_refl) as (ns' & ->). exists ns'. split; [done|congruence].
Qed.

Lemma pinv_quit c m err : pinv (MkP c m TSelect true err) -> pinv (MkP c m TReturned false err).
Proof.
  intros [Ht Hl Hr Hs]. constructor; cbn [main_at ticker_at quit_full copy stderr] in *; [|done..].
  unfold threads_ok in *. destruct m; destruct is_progress; naive_solver.
Qed.

Lemma pinv_step s s' : pinv s -> pstep s s' -> pinv s'.
Proof.
  intros Hinv Hst. destruct Hst as [c c' t q err Hc|c t q err e Hc|c t q err|c t q err Hc|c t err|c t err|c t q err|c t q err n|c t q err n|c t q err|c m q err Ha|c m q err n Ha|c m q err n Ha|c m err Ha].
  11: { eapply pinv_ticker; [exact Hinv|done|done|]. intros _ ns ->. by exists ns. }
  11: { eapply pinv_ticker; [exact Hinv|done|done|]. intros _ ns ->. exists ns. by rewrite app_nil_r. }
  11: { eapply pinv_ticker; [exact Hinv|done|done|]. intros Hp ns ->. exists (ns ++ [n]).
        rewrite bind_app. cbn. unfold printed at 3. rewrite Hp. by rewrite !app_nil_r, <- app_assoc. }
  11: { by eapply pinv_quit. }
  all: destruct Hinv as [Ht Hl Hr Hs]; cbn [main_at ticker_at quit_full copy stderr fatal] in *.
  all: constructor; cbn [main_at ticker_at quit_full copy stderr fatal]; unfold end_begins in *.
  all: try (intros Hf; specialize (Hs eq_refl) as (ns & -> & Hns); exists ns; split; [|exact Hns]).
  all: unfold threads_ok, loaded_ok, last_part, printed in *.
  all: try (destruct is_progress, is_xfer; cbn in *; rewrite <- ?app_assoc; (done || by (destruct Hl; subst))).
  all: destruct is_progress, is_xfer; cbn in *; naive_solver.
Qed.
Lemma pinv_reach r w s : rtc pstep (progressBegin r w) s -> pinv s.
Proof.
  intros Hs. refine (rtc_ind_r pinv (progressBegin r w) _ _ s Hs); [apply pinv_begin|].
  intros y z _ Hz Hy. by apply (pinv_step y).
Qed.

(** What the threads of the copy do is a run of the copy. *)
Lemma copy_reach r w s : rtc pstep (progressBegin r w) s -> rtc (step ibs obs transform) (init ibs r w) (copy s).
Proof.
  intros Hs. refine (rtc_ind_r (fun s => rtc (step ibs obs transform) (init ibs r w) (copy s)) (progressBegin r w) _ _ s Hs); [apply rtc_refl|].
  intros y z _ Hz IH. destruct Hz; try exact IH. by eapply rtc_r.
Qed.

(** ** The end can be reached *)

Definition over (s : progressData R W) : Prop := main_at s = MDone \/ main_at s = MExit.
Definition can_end (s : progressData R W) : Prop := exists s', rtc pstep s s' /\ over s'.

Lemma can_end_over s : over s -> can_end s.
Proof. intros. exists s. by split. Qed.

Lemma can_end_step s s' : pstep s s' -> can_end s' -> can_end s.
Proof. intros H1 (s2 & H2 & Ho). exists s2. split; [by eapply rtc_l|done]. Qed.

Lemma can_end_done c t q err : can_end (MkP c MDone t q err).
Proof. apply can_end_over. by left. Qed.

Lemma can_end_report c n t q err : can_end (MkP c (MReport n) t q err).
Proof. eapply can_end_step; [constructor|]. eapply can_end_step; [constructor|]. apply can_end_done. Qed.

Lemma can_end_load c t q err : can_end (MkP c MLoad t q err).
Proof.
  eapply can_end_step; [constructor|]. destruct is_progress; [|apply can_end_report].
  eapply can_end_step; [constructor|]. apply can_end_report.
Qed.

(** The goroutine takes what is in the channel. *)
Lemma can_end_quit c t err : ticking t -> can_end (MkP c MSend2 t true err).
Proof.
  assert (alive MSend2) as Ha by done.
  assert (forall err, can_end (MkP c MSend2 TSelect true err)) as H1.
  { intros. eapply can_end_step; [by apply t_quit|]. eapply can_end_step; [constructor|]. apply can_end_load. }
  assert (forall n err, can_end (MkP c MSend2 (TErased n) true err)) as H2.
  { intros. eapply can_end_step; [by apply t_report|]. apply H1. }
  intros [Hn Hr]. destruct t as [| |n|n|]; [done|apply H1| |apply H2|done].
  eapply can_end_step; [by apply t_erase|]. apply H2.
Qed.

Lemma can_end_send1 c t q err : threads_ok MSend1 t q -> can_end (MkP c MSend1 t q err).
Proof. intros (_ & -> & Ht). eapply can_end_step; [constructor|]. by apply can_end_quit. Qed.

(** Once the copy has returned. *)
Lemma can_end_returned s e : pinv s -> st_wpc (copy s) = WReturned e -> can_end s.
Proof.
  intros [Ht _ _ _] He. destruct s as [c m t q err]. cbn [main_at ticker_at quit_full copy] in *.
  destruct m as [| | | |n|n| | | |].
  - destruct e as [e|].
    + eapply can_end_step; [by eapply p_fatal|]. eapply can_end_step; [constructor|]. apply can_end_over. by right.
    + eapply can_end_step; [by eapply p_end|]. unfold end_begins in *. cbn in Ht.
      destruct is_progress eqn:Ep; [apply can_end_send1; cbn; by rewrite Ep|].
      destruct is_xfer; [apply can_end_load|apply can_end_done].
  - by apply can_end_send1.
  - destruct Ht as [_ Ht]. destruct q; [by apply can_end_quit|]. eapply can_end_step; [constructor|]. apply can_end_load.
  - apply can_end_load.
  - eapply can_end_step; [constructor|]. apply can_end_report.
  - apply can_end_report.
  - eapply can_end_step; [constructor|]. apply can_end_done.
  - apply can_end_done.
  - eapply can_end_step; [constructor|]. apply can_end_over. by right.
  - apply can_end_over. by right.
Qed.
End Progress.

(** ** With the copy *)

Section Whole.
Context {R W : Type} `{ReaderOk R} `{WriterOk W} (ibs obs : Z) (transform : bytes -> bytes) (mode : bytes).
Context (Htr : forall b, length (transform b) = length b) (Hi : 1 <= ibs) (Ho : 1 <= obs).

(** C10: whatever the interleaving of the copy, the goroutine and [main], when [dd] has ended without a
    failure nothing of a report of the goroutine is mixed with another or comes after the last one:
    the standard error has complete reports, then the one with the number of all bytes of the
    input, then the line feed; without progress only the last report, and with [status=none]
    nothing. *)
Theorem progress_reports r w cs fin s :
  reads (Z.to_nat ibs) r cs fin ->
  rtc (pstep ibs obs transform mode) (progressBegin ibs mode r w) s -> main_at s = MDone ->
  out (st_w (copy s)) = out w ++ concat (converted transform obs <$> cs) /\
  exists ns, stderr s = (ns ≫= printed mode) ++
      (if is_progress mode || is_xfer mode then printed mode (i64 (zlen (concat cs))) ++ [Newline] else []) /\
    (is_progress mode = false -> ns = []).
Proof.
  intros Hr Hs Hd. pose proof (pinv_reach _ _ _ _ _ _ _ Hs) as [Ht _ Hret Herr]. rewrite Hd in *.
  specialize (Hret ltac:(done) eq_refl). destruct (Herr eq_refl) as (ns & -> & Hns). apply copy_reach in Hs.
  destruct (inv_reach ibs obs transform Htr Ho w cs fin _ _ _ Hs (inv_init ibs obs transform r w cs fin Hr)) as [fut Hinv].
  pose proof (i_writer _ _ _ _ _ _ _ _ Hinv) as Hw. unfold writer_inv in Hw. rewrite Hret in Hw.
  destruct Hw as (_ & _ & _ & Hw). destruct (errs (copy s)) as [e|]; [done|].
  destruct (returned_ok ibs obs transform _ _ _ _ _ _ Hinv Hret (eq_sym Hw)) as (_ & Hout & Hb).
  split; [done|]. exists ns. split; [|done]. rewrite Hb. f_equal.
  replace (partial (ticker_at s)) with ([] : list event); [done|].
  unfold threads_ok in Ht. by destruct (is_progress mode); rewrite Ht.
Qed.

(** [dd] does not hang in [end]: from every state that can be reached, the program can end, as long
    as the sink accepts the data. *)
Theorem progress_can_end r w cs fin s :
  reads (Z.to_nat ibs) r cs fin -> ~ fails (W := W) ->
  rtc (pstep ibs obs transform mode) (progressBegin ibs mode r w) s -> can_end ibs obs transform mode s.
Proof.
  intros Hr Hnf Hs. pose proof (inv_init ibs obs transform r w cs fin Hr) as Hinit.
  destruct (inv_reach ibs obs transform Htr Ho w cs fin _ _ _ (copy_reach _ _ _ _ _ _ _ Hs) Hinit) as [fut Hinv].
  pose proof (run_finite ibs obs transform Htr Ho _ _ _ _ _ Hinv) as Hacc.
  remember (copy s) as c eqn:Ec. revert s fut Hs Ec Hinv. induction Hacc as [c _ IH]. intros s fut Hs -> Hinv.
  pose proof (pinv_reach _ _ _ _ _ _ _ Hs) as Hp. pose proof (p_returned _ _ Hp) as Hret.
  destruct s as [c m t q err]. cbn [copy main_at] in *. destruct m.
  2-8: by eapply can_end_returned; [exact Hp|apply Hret].
  2: { eapply can_end_step; [apply p_exit|]. apply can_end_over. by right. }
  2: { apply can_end_over. by right. }
  assert (writeErr c = None) as He.
  { eapply (no_write_error_reach ibs obs transform Htr Ho); [exact Hnf|exact (copy_reach _ _ _ _ _ _ _ Hs)|exact Hinit|done]. }
  destruct (no_deadlock ibs obs transform Htr Ho Hi _ _ _ _ _ Hinv He) as [[c' Hc']|[e Hw]];
    [|by eapply can_end_returned].
  eapply can_end_step; [by apply p_copy|].
  destruct (inv_step ibs obs transform Htr Ho _ _ _ _ _ _ Hc' Hinv) as (fut' & Hinv' & _).
  eapply (IH c' Hc' _ fut'); [|done|exact Hinv']. eapply rtc_r; [exact Hs|]. by apply p_copy.
Qed.
End Whole.

(** ** A short copy *)

Lemma copy_lifted {R W} `{Reader R} `{Writer W} ibs obs transform mode (c c' : state R W) t q err :
  rtc (step ibs obs transform) c c' -> rtc (pstep ibs obs transform mode) (MkP c MCopy t q err) (MkP c' MCopy t q err).
Proof. induction 1 as [|c c1 c2 Hc _ IH]; [done|]. eapply rtc_l; [by apply p_copy|done]. Qed.

(** With progress, the goroutine prints once between the end of the copy and the sends. *)
Lemma progress_run :
  exists s, rtc (pstep (R := Stream) (W := Buffer) 2 1 id (str "progress"))
      (progressBegin 2 (str "progress") (MkStream (str "ab")) {| buf := [] |}) s /\ main_at s = MDone.
Proof.
  destruct short_run as (c & Hc & He). eexists. split.
  - unfold progressBegin. cbn [is_progress]. change (is_progress (str "progress")) with true. cbv iota.
    etrans; [by apply copy_lifted|]. eapply rtc_l; [by apply p_end|]. unfold end_begins. cbn.
    eapply rtc_l; [by apply t_tick|]. eapply rtc_l; [by apply p_send1|]. eapply rtc_l; [by apply t_erase|].
    eapply rtc_l; [by apply t_report|]. eapply rtc_l; [by apply t_quit|]. eapply rtc_l; [by apply p_send2|].
    eapply rtc_l; [by apply p_load|]. cbn. eapply rtc_l; [by apply p_erase|]. eapply rtc_l; [by apply p_report|].
    eapply rtc_l; [by apply p_newline|]. apply rtc_refl.
  - done.
Qed.

Lemma progress_reports_witness :
  exists s ns, rtc (pstep (R := Stream) (W := Buffer) 2 1 id (str "progress"))
      (progressBegin 2 (str "progress") (MkStream (str "ab")) {| buf := [] |}) s /\
    stderr s = (ns ≫= printed (str "progress")) ++ [Erase; Report 2; Newline].
Proof.
  destruct progress_run as (s & Hs & Hd).
  destruct (progress_reports 2 1 id (str "progress") (fun b => eq_refl) ltac:(lia) (MkStream (str "ab")) {| buf := [] |}
    (chunks 2 (str "ab")) None s (reads_stream 2 (str "ab") ltac:(lia)) Hs Hd) as (_ & ns & E & _).
  exists s, ns. split; [exact Hs|exact E].
Defined.

Lemma progress_can_end_witness :
  can_end 2 1 id (str "xfer") (progressBegin (W := Buffer) 2 (str "xfer") (MkStream (str "ab")) {| buf := [] |}).
Proof.
  refine (progress_can_end 2 1 id (str "xfer") (fun b => eq_refl) ltac:(lia) ltac:(lia) (MkStream (str "ab")) {| buf := [] |}
    (chunks 2 (str "ab")) None _ (reads_stream 2 (str "ab") ltac:(lia)) _ (rtc_refl _ _)).
  intros (w & b & Hf). apply Hf. reflexivity.
Defined.
