(* ===== verification/Field.v ===== *)
(** * Selecting the fields of lines ([cmds/field/field.go])

    The lexer and parser of the field list, the splitting of a line and the selection, on top
    of the [utf8], [strconv] and [bufio] models.  The digit and space tables of [unicode]
    beyond Latin-1 and [regexp] are parameters. *)

From Stdlib Require Import Strings.String.
From S2P Require Export GoIO GoUtf8.

Record frange := MkRange { begin : Z; end_ : Z }.

Definition lastField : Z := 0x7FFFFFFF.

Inductive toktype := tokError | tokEOF | tokComma | tokPipe | tokDash | tokNum | tokSpace | tokNF.

#[export] Instance toktype_eq_dec : EqDecision toktype.
Proof. solve_decision. Defined.

Definition eof : Z := -1.

Record lexer := MkLexer {
  lex_input : bytes; lex_tok : bytes; lex_typ : toktype; lex_start : Z; lex_pos : Z; lex_width : Z
}.

(** [fatal] ends the program. *)
Definition fatal {A} (format : string) : M lexer A := raise (Errorf format).

Definition isdelim (typ : toktype) : bool :=
  bool_decide (typ = tokComma) || bool_decide (typ = tokPipe) || bool_decide (typ = tokSpace).

Section Lexer.
(** The digits and spaces beyond Latin-1. *)
Context (digit_table space_table : Z -> bool).

Definition IsDigit (r : Z) : bool :=
  if (0 <=? r) && (r <=? 0xff) then (0x30 <=? r) && (r <=? 0x39) else (0xff <? r) && digit_table r.

Definition IsSpace (r : Z) : bool :=
  if (0 <=? r) && (r <=? 0xff) then
    ((0x09 <=? r) && (r <=? 0x0d)) || (r =? 0x20) || (r =? 0x85) || (r =? 0xa0)
  else (0xff <? r) && space_table r.

Definition nextrune : M lexer Z := fun lex =>
  if zlen (lex_input lex) <=? lex_pos lex then
    (MkLexer (lex_input lex) (lex_tok lex) (lex_typ lex) (lex_start lex) (lex_pos lex) 0, Ret eof)
  else
    let '(r, w) := DecodeRune (drop (Z.to_nat (lex_pos lex)) (lex_input lex)) in
    (MkLexer (lex_input lex) (lex_tok lex) (lex_typ lex) (lex_start lex) (lex_pos lex) (Z.of_nat w), Ret r).

Definition consume : M lexer unit :=
  modify (fun lex => MkLexer (lex_input lex) (lex_tok lex) (lex_typ lex) (lex_start lex) (lex_pos lex + lex_width lex) 0).

Definition ignore : M lexer unit :=
  modify (fun lex => MkLexer (lex_input lex) (lex_tok lex) (lex_typ lex) (lex_start lex) (lex_pos lex) 0).

Definition token : M lexer bytes :=
  consume ;;
  lex ← get;
  tok ← lift (or_panic (slice (lex_input lex) (lex_start lex) (lex_pos lex)));
  modify (fun lex => MkLexer (lex_input lex) (lex_tok lex) (lex_typ lex) (lex_pos lex) (lex_pos lex) (lex_width lex)) ;;
  mret tok.

(** [for r := lex.nextrune(); p(r); r = lex.nextrune() { lex.consume() }]; every round
    consumes a byte, so the length of the input is enough fuel. *)
Fixpoint consume_while (p : Z -> bool) (fuel : nat) : M lexer unit :=
  r ← nextrune;
  if p r then
    match fuel with
    | O => mret tt
    | S fuel => consume ;; consume_while p fuel
    end
  else mret tt.

Definition scan : M lexer (bytes * toktype) :=
  lex ← get;
  let n := length (lex_input lex) in
  r ← nextrune;
  if r =? eof then mret ([], tokEOF)
  else if r =? b2z x2c then tok ← token; mret (tok, tokComma)
  else if r =? b2z x7c then tok ← token; mret (tok, tokPipe)
  else if r =? b2z x2d then tok ← token; mret (tok, tokDash)
  else if r =? b2z x4e then
    consume ;;
    r ← nextrune;
    (if r =? b2z x46 then consume else mret tt) ;;
    ignore ;;
    tok ← token; mret (tok, tokNF)
  else if IsDigit r then
    consume_while IsDigit n ;;
    ignore ;;
    tok ← token; mret (tok, tokNum)
  else if IsSpace r then
    consume_while IsSpace n ;;
    ignore ;;
    tok ← token; mret (tok, tokSpace)
  else fatal "Lexical error at character '%v'".

Definition peek (lex : lexer) : bytes * toktype := (lex_tok lex, lex_typ lex).
Definition peektype : M lexer toktype := lex ← get; mret (lex_typ lex).
Definition peektok : M lexer bytes := lex ← get; mret (lex_tok lex).

Definition next : M lexer (bytes * toktype) :=
  lex ← get;
  let '(tok, typ) := peek lex in
  '(tok', typ') ← scan;
  modify (fun lex => MkLexer (lex_input lex) tok' typ' (lex_start lex) (lex_pos lex) (lex_width lex)) ;;
  mret (tok, typ).

(** ** The parser *)

Definition parsenum : M lexer Z :=
  '(tok, typ) ← next;
  if bool_decide (typ = tokEOF) then fatal "EOF in number parser"
  else if bool_decide (typ = tokNum) then mret (fst (Atoi tok))
  else if negb (bool_decide (typ = tokDash)) then fatal "number parser error: unexpected token '%v'"
  else
    '(tok, typ) ← next;
    if bool_decide (typ = tokEOF) then fatal "negative number parse error: unexpected EOF"
    else if negb (bool_decide (typ = tokNum)) then fatal "number parser error: bad lexical token '%v'"
    else mret (i64 (- fst (Atoi tok))).

Definition parsefield : M lexer (Z * toktype) :=
  typ ← peektype;
  if bool_decide (typ = tokNF) then next ;; mret (lastField, tokNF)
  else num ← parsenum; mret (num, tokNum).

Definition parserange : M lexer frange :=
  typ ← peektype;
  if bool_decide (typ = tokEOF) then fatal "EOF at start of range"
  else
    '(fnum, typ) ← parsefield;
    if bool_decide (typ = tokNF) then mret (MkRange fnum fnum)
    else
      typ ← peektype;
      if negb (bool_decide (typ = tokDash)) then mret (MkRange fnum fnum)
      else
        next ;;
        typ ← peektype;
        if negb (bool_decide (typ = tokEOF)) && negb (isdelim typ) then
          '(e, _) ← parsefield; mret (MkRange fnum e)
        else mret (MkRange fnum lastField).

(** The loop of [parseranges]; [None] when the fuel has run out. *)
Fixpoint parse_list (fuel : nat) (rs : list frange) (lex : lexer) : option (lexer * outcome error (list frange)) :=
  match fuel with
  | O => None
  | S fuel =>
      let '(lex, o) :=
        (typ ← peektype;
         (if bool_decide (typ = tokSpace) then next ;; mret tt else mret tt) ;;
         r ← parserange;
         typ ← peektype;
         if bool_decide (typ = tokEOF) then mret (r, true)
         else if negb (isdelim typ) then fatal "Syntax error in field list, tok = %s"
         else next ;; mret (r, false)) lex in
      match o with
      | Ret (r, true) => Some (lex, Ret (rs ++ [r]))
      | Ret (r, false) => parse_list fuel (rs ++ [r]) lex
      | Fail e => Some (lex, Fail e)
      | Panic => Some (lex, Panic)
      end
  end.

(** Each round takes a token, so one more than the bytes of the input is enough. *)
Definition parseranges (input : bytes) : option (outcome error (list frange)) :=
  let lex := MkLexer input [] tokError 0 0 0 in
  if bytes_eqb input [] then Some (Fail (Errorf "Empty field range"))
  else match next lex with
       | (lex, Ret _) => option_map snd (parse_list (S (length input)) [] lex)
       | (_, Fail e) => Some (Fail e)
       | (_, Panic) => Some Panic
       end.
End Lexer.

(** ** Splitting and selecting *)

Record fflags := MkFFlags {
  nuloutsep : bool; preserveEmpty : bool; discardEmpty : bool; insep : bytes; outsep : bytes
}.

Definition shouldcollapse (flags : fflags) (s : bytes) : bool :=
  if preserveEmpty flags then false
  else if discardEmpty flags then true
  else
    let l := zlen (runes s) in
    let r := fst (DecodeRune s) in
    (1 <? l) && (negb (l =? 2) || negb (r =? b2z x5c)).

(** [regexp_Split]: the compiled separator's [Split(s, -1)]. *)
Definition split (regexp_Split : bytes -> list bytes) (s : bytes) (collapse : bool) : list bytes :=
  let sv := regexp_Split s in
  if negb collapse then sv else filter (fun s => s <> []) sv.

(** [pprefix]: what it prints. *)
Definition pprefix (flags : fflags) (prefix : bytes) : bytes :=
  if bytes_eqb prefix [] then [] else if nuloutsep flags then [x00] else prefix.

(** The loop over the fields of a range: output, separator for what follows and [printed]. *)
Fixpoint print_fields (flags : fflags) (sep : bytes) (fs : list bytes) (st : bytes * bytes * bool)
  : bytes * bytes * bool :=
  match fs with
  | [] => st
  | f :: fs =>
      let '(o, prefix, _) := st in
      print_fields flags sep fs (o ++ pprefix flags prefix ++ f, sep, true)
  end.

(** One range of a line. *)
Definition process_range (flags : fflags) (outsep line : bytes) (fields : list bytes)
    (st : bytes * bytes * bool) (r : frange) : bytes * bytes * bool :=
  let '(o, prefix, printed) := st in
  let n := zlen fields in
  let '(begin, st) :=
    if begin r =? 0 then (begin r, (o ++ pprefix flags prefix ++ line, outsep, true))
    else if begin r =? lastField then (n - 1, st)
    else if begin r <? 0 then (begin r + n, st)
    else (begin r - 1, st) in
  let e := if end_ r <? 0 then end_ r + (n + 1) else end_ r in
  if (begin <? 0) || (e <? 0) || (e <? begin) || (n <? begin) then st
  else print_fields flags outsep (take (Z.to_nat (Z.min e n - begin)) (drop (Z.to_nat begin) fields)) st.

Definition process_line (flags : fflags) (regexp_Split : bytes -> list bytes) (rv : list frange)
    (outsep : bytes) (collapse : bool) (line : bytes) : bytes :=
  let fields := split regexp_Split line collapse in
  let '(o, _, printed) := fold_left (process_range flags outsep line fields) rv ([], [], false) in
  if printed || negb collapse then o ++ [x0a] else o.

(** What [process] prints on the standard output and on the standard error. *)
Definition process (flags : fflags) (regexp_Split : bytes -> list bytes) (file : bytes) (rv : list frange)
    (outsep : bytes) (collapse : bool) : bytes * option error :=
  let '(lines, err) := ScanLines file in
  (concat (process_line flags regexp_Split rv outsep collapse <$> lines), err).

(** ** [main], after [flag.Parse]: [fstate] are the flags that were given, [args] the rest.
    The standard input is read to its end the first time it is named. *)
Definition field_main (digit_table space_table : Z -> bool)
    (regexp_Compile : bytes -> option (bytes -> list bytes)) (os_Open : bytes -> bytes + error) (stdin : bytes)
    (fstate : bytes -> bool) (flags : fflags) (args : list bytes) : option (outcome error (bytes * list error)) :=
  if fstate (str "e") && fstate (str "E") then Some (Fail (Errorf "flag conflict: -e and -E are mutually exclusive"))
  else if fstate (str "0") && fstate (str "O") then Some (Fail (Errorf "flag conflict: -O and -0 are mutually exclusive"))
  else
    let collapse := shouldcollapse flags (insep flags) in
    match regexp_Compile (insep flags) with
    | None => Some (Fail (Errorf "Delimiter regexp failed to parse: %v"))
    | Some delim =>
        match args with
        | [] => Some (Fail (Errorf "Range specifier missing"))
        | spec :: files =>
            match parseranges digit_table space_table spec with
            | None => None
            | Some (Fail e) => Some (Fail e)
            | Some Panic => Some Panic
            | Some (Ret rv) =>
                let run (data : bytes) := process flags delim data rv (outsep flags) collapse in
                let one (st : bytes * (bytes * list error)) (filename : bytes) :=
                  let '(stdin, (o, es)) := st in
                  if bytes_eqb filename (str "-") then
                    let '(o', e) := run stdin in ([], (o ++ o', es ++ option_list e))
                  else match os_Open filename with
                       | inr _ => (stdin, (o, es ++ [Errorf "Cannot open file %q: %v"]))
                       | inl data => let '(o', e) := run data in (stdin, (o ++ o', es ++ option_list e))
                       end in
                match files with
                | [] => let '(o, e) := run stdin in Some (Ret (o, option_list e))
                | _ => Some (Ret (snd (fold_left one files (stdin, ([], [])))))
                end
            end
        end
    end.

(** ** Lexing a printed field list *)

(** The lexer between two tokens: [pre] is read, [suf] is not, the last token was [tok]. *)
Definition between (pre suf tok : bytes) (typ : toktype) : lexer :=
  MkLexer (pre ++ suf) tok typ (zlen pre) (zlen pre) 0.

(** A number ends here. *)
Definition nodigit (suf : bytes) : Prop :=
  match suf with [] => True | c :: _ => is_digit c = false /\ b2z c < 0x80 end.

(** [t] is the next token of [t ++ suf]. *)
Inductive lexes : bytes -> toktype -> bytes -> Prop :=
| lex_comma suf : lexes [x2c] tokComma suf
| lex_dash suf : lexes [x2d] tokDash suf
| lex_nf suf : lexes [x4e; x46] tokNF suf
| lex_num c ds suf : forallb is_digit (c :: ds) = true -> nodigit suf -> lexes (c :: ds) tokNum suf
| lex_eof : lexes [] tokEOF [].

(** The characters [scan] compares with, as numbers. *)
Ltac runes_eval :=
  change (b2z x2c) with 0x2c; change (b2z x7c) with 0x7c; change (b2z x2d) with 0x2d;
  change (b2z x4e) with 0x4e; change (b2z x46) with 0x46; unfold eof; cbn [Z.eqb Pos.eqb].

(** Decides the comparisons of token types. *)
Ltac tok_eval :=
  cbn beta iota;
  repeat (first [rewrite bool_decide_eq_false_2 by done | rewrite bool_decide_eq_true_2 by done]; cbn [negb andb orb]).

Section LexerFacts.
Context (digit_table space_table : Z -> bool).
#[local] Abbreviation IsDigit := (IsDigit digit_table).
#[local] Abbreviation scan := (scan digit_table space_table).
#[local] Abbreviation next := (next digit_table space_table).

Lemma IsDigit_ascii c : b2z c < 0x80 -> IsDigit (b2z c) = is_digit c.
Proof.
  intros Hc. pose proof (b2z_range c). unfold Field.IsDigit, is_digit.
  destruct (Z.leb_spec 0 (b2z c)); [|lia]. destruct (Z.leb_spec (b2z c) 0xff); [done|lia].
Qed.

Lemma is_digit_range c : is_digit c = true -> 0x30 <= b2z c <= 0x39.
Proof. unfold is_digit. lia. Qed.

Lemma nextrune_ascii pre c suf tok typ start w :
  b2z c < 0x80 ->
  nextrune (MkLexer (pre ++ c :: suf) tok typ start (zlen pre) w) =
  (MkLexer (pre ++ c :: suf) tok typ start (zlen pre) 1, Ret (b2z c)).
Proof.
  intros Hc. unfold nextrune. cbn [lex_input lex_pos lex_tok lex_typ lex_start].
  rewrite zlen_app, zlen_cons. pose proof (zlen_nonneg suf).
  destruct (Z.leb_spec (zlen pre + (1 + zlen suf)) (zlen pre)); [lia|].
  unfold zlen at 1. rewrite Nat2Z.id, drop_app_length, DecodeRune_ascii by done. done.
Qed.

Lemma nextrune_end pre tok typ start w :
  nextrune (MkLexer pre tok typ start (zlen pre) w) = (MkLexer pre tok typ start (zlen pre) 0, Ret eof).
Proof.
  unfold nextrune. cbn [lex_input lex_pos lex_tok lex_typ lex_start].
  destruct (Z.leb_spec (zlen pre) (zlen pre)); [done|lia].
Qed.

Lemma consume_digits fuel pre ds suf tok typ start w :
  (length ds <= fuel)%nat -> forallb is_digit ds = true -> nodigit suf ->
  exists w', consume_while IsDigit fuel (MkLexer (pre ++ ds ++ suf) tok typ start (zlen pre) w) =
    (MkLexer (pre ++ ds ++ suf) tok typ start (zlen (pre ++ ds)) w', Ret tt).
Proof.
  revert pre ds w. induction fuel as [|fuel IH]; intros pre ds w Hl Hd Hn;
    (destruct ds as [|c ds]; [|cbn in Hl; apply andb_prop in Hd as [Hc Hd]]).
  1,3: rewrite app_nil_r; cbn [app]; destruct suf as [|c suf];
    [exists 0; cbn [consume_while]; rewrite app_nil_r; rewrite (M_bind_Ret _ _ _ _ _ (nextrune_end _ _ _ _ _)); done|
     destruct Hn as [Hn Hc]; exists 1; cbn [consume_while];
     rewrite (M_bind_Ret _ _ _ _ _ (nextrune_ascii _ _ _ _ _ _ _ Hc)); by rewrite IsDigit_ascii, Hn].
  1: lia.
  pose proof (is_digit_range c Hc). cbn [consume_while app].
  rewrite (M_bind_Ret _ _ _ _ _ (nextrune_ascii pre c (ds ++ suf) _ _ _ _ ltac:(lia))).
  rewrite IsDigit_ascii, Hc by lia.
  destruct (IH (pre ++ [c]) ds 0 ltac:(lia) Hd Hn) as [w' E]. exists w'. rewrite <- !app_assoc in E. cbn [app] in E.
  rewrite zlen_app in E. exact E.
Qed.

Lemma token_ok pre t suf tok typ w :
  token (MkLexer (pre ++ t ++ suf) tok typ (zlen pre) (zlen (pre ++ t) - w) w) =
  (between (pre ++ t) suf tok typ, Ret t).
Proof.
  unfold token, consume. rewrite (M_bind_Ret _ _ _ _ tt) by reflexivity.
  cbn [lex_input lex_tok lex_typ lex_start lex_pos lex_width]. rewrite Z.sub_add.
  unfold get. unfold mbind at 1, M_bind at 1. cbn [lex_input lex_start lex_pos]. unfold lift.
  rewrite slice_Some; [|apply zlen_nonneg| |].
  2: { rewrite zlen_app. pose proof (zlen_nonneg t). lia. }
  2: { rewrite app_assoc, (zlen_app (pre ++ t)). pose proof (zlen_nonneg suf). lia. }
  unfold mbind, M_bind. cbn. unfold between. rewrite <- app_assoc. do 2 f_equal.
  rewrite zlen_app. replace (zlen pre + zlen t - zlen pre) with (zlen t) by lia.
  unfold zlen. by rewrite !Nat2Z.id, drop_app_length, take_app_length.
Qed.

(** A token that ends where the lexer stands, [w] bytes back for the rune just seen. *)
Lemma token_at pre t suf tok typ w input pos :
  input = pre ++ t ++ suf -> pos + w = zlen (pre ++ t) ->
  token (MkLexer input tok typ (zlen pre) pos w) = (between (pre ++ t) suf tok typ, Ret t).
Proof. intros -> Hp. replace pos with (zlen (pre ++ t) - w) by lia. apply token_ok. Qed.

Lemma bind_consume {B} (f : unit -> M lexer B) inp tok typ start pos w :
  (consume ≫= f) (MkLexer inp tok typ start pos w) = f tt (MkLexer inp tok typ start (pos + w) 0).
Proof. done. Qed.

Lemma bind_ignore {B} (f : unit -> M lexer B) inp tok typ start pos w :
  (ignore ≫= f) (MkLexer inp tok typ start pos w) = f tt (MkLexer inp tok typ start pos 0).
Proof. done. Qed.

Lemma scan_ok t typ' pre suf tok typ :
  lexes t typ' suf -> scan (between pre (t ++ suf) tok typ) = (between (pre ++ t) suf tok typ, Ret (t, typ')).
Proof.
  intros Hl. unfold Field.scan. rewrite (M_bind_Ret get _ _ _ _ eq_refl). unfold between at 1 2.
  cbn [lex_input]. destruct Hl as [suf|suf|suf|c ds suf Hd Hn|].
  - rewrite (M_bind_Ret _ _ _ _ _ (nextrune_ascii pre x2c suf tok typ (zlen pre) 0 eq_refl)).
    runes_eval.
    by rewrite (M_bind_Ret _ _ _ _ _ (token_at pre [x2c] suf tok typ 1 _ (zlen pre) eq_refl ltac:(by rewrite zlen_app))).
  - rewrite (M_bind_Ret _ _ _ _ _ (nextrune_ascii pre x2d suf tok typ (zlen pre) 0 eq_refl)).
    runes_eval.
    by rewrite (M_bind_Ret _ _ _ _ _ (token_at pre [x2d] suf tok typ 1 _ (zlen pre) eq_refl ltac:(by rewrite zlen_app))).
  - rewrite (M_bind_Ret _ _ _ _ _ (nextrune_ascii pre x4e (x46 :: suf) tok typ (zlen pre) 0 eq_refl)).
    runes_eval. rewrite bind_consume.
    pose proof (nextrune_ascii (pre ++ [x4e]) x46 suf tok typ (zlen pre) 0 eq_refl) as E.
    rewrite <- app_assoc, zlen_app in E. cbn [app] in E. change (zlen [x4e]) with 1 in E.
    rewrite (M_bind_Ret _ _ _ _ _ E). runes_eval.
    rewrite bind_consume, bind_ignore.
    by rewrite (M_bind_Ret _ _ _ _ _ (token_at pre [x4e; x46] suf tok typ 0 _ (zlen pre + 1 + 1) eq_refl
      ltac:(rewrite zlen_app; change (zlen [x4e; x46]) with 2; lia))).
  - assert (Hc : is_digit c = true) by (cbn in Hd; by apply andb_prop in Hd as [? _]). apply is_digit_range in Hc.
    rewrite (M_bind_Ret _ _ _ _ _ (nextrune_ascii pre c (ds ++ suf) tok typ (zlen pre) 0 ltac:(lia))).
    rewrite IsDigit_ascii by lia. runes_eval.
    repeat match goal with |- context [b2z c =? ?k] => destruct (Z.eqb_spec (b2z c) k); [lia|] end. cbn in Hd. apply andb_prop in Hd as [Hc' Hd]. rewrite Hc'.
    destruct (consume_digits (length (pre ++ (c :: ds) ++ suf)) pre (c :: ds) suf tok typ (zlen pre) 1) as [w' E];
      [rewrite !length_app; lia|by cbn; rewrite Hc'|done|].
    cbn [app] in E |- *. rewrite (M_bind_Ret _ _ _ _ _ E), bind_ignore.
    by rewrite (M_bind_Ret _ _ _ _ _ (token_at pre (c :: ds) suf tok typ 0 _ (zlen (pre ++ c :: ds)) eq_refl ltac:(lia))).
  - cbn [app]. unfold between. rewrite !app_nil_r. rewrite (M_bind_Ret _ _ _ _ _ (nextrune_end pre tok typ (zlen pre) 0)).
    by runes_eval.
Qed.

Lemma next_ok t typ' pre suf tok typ :
  lexes t typ' suf -> next (between pre (t ++ suf) tok typ) = (between (pre ++ t) suf t typ', Ret (tok, typ)).
Proof.
  intros Hl. unfold Field.next. rewrite (M_bind_Ret get _ _ _ _ eq_refl). cbn [peek lex_tok lex_typ between].
  by rewrite (M_bind_Ret _ _ _ _ _ (scan_ok t typ' pre suf tok typ Hl)).
Qed.

(** ** The parser on a list of tokens *)

(** [suf] lexes to the tokens [l]. *)
Inductive tokens : bytes -> list (bytes * toktype) -> Prop :=
| tokens_nil : tokens [] []
| tokens_cons t typ suf l : t <> [] -> lexes t typ suf -> tokens suf l -> tokens (t ++ suf) ((t, typ) :: l).

(** The lexer has the first of the tokens as its look-ahead. *)
Definition at_tokens (lex : lexer) (l : list (bytes * toktype)) : Prop :=
  match l with
  | [] => exists pre, lex = between pre [] [] tokEOF
  | (tok, typ) :: l => exists pre suf, lex = between pre suf tok typ /\ tokens suf l
  end.

Definition head_type (l : list (bytes * toktype)) : toktype :=
  match l with [] => tokEOF | (_, typ) :: _ => typ end.

Lemma next_advance pre suf tok typ l :
  tokens suf l -> exists lex', next (between pre suf tok typ) = (lex', Ret (tok, typ)) /\ at_tokens lex' l.
Proof.
  intros Ht. destruct Ht as [|t typ' suf l _ Hl Ht].
  - eexists. split; [apply (next_ok [] tokEOF pre [] tok typ lex_eof)|]. by exists (pre ++ []).
  - eexists. split; [by apply next_ok|]. by exists (pre ++ t), suf.
Qed.

Lemma next_at lex tok typ l :
  at_tokens lex ((tok, typ) :: l) -> exists lex', next lex = (lex', Ret (tok, typ)) /\ at_tokens lex' l.
Proof. intros (pre & suf & -> & Ht). by apply next_advance. Qed.

Lemma peektype_at lex l : at_tokens lex l -> peektype lex = (lex, Ret (head_type l)).
Proof. destruct l as [|[tok typ] l]; [intros [pre ->]; done|intros (pre & suf & -> & _); done]. Qed.

(** The tokens of a number, of a range and of a list of ranges. *)
Definition num_tokens (n : Z) : list (bytes * toktype) :=
  if n <? 0 then [([x2d], tokDash); (Itoa (- n), tokNum)] else [(Itoa n, tokNum)].

Definition range_tokens (r : frange) : list (bytes * toktype) :=
  if begin r =? lastField then [([x4e; x46], tokNF)]
  else num_tokens (begin r) ++
       if end_ r =? begin r then []
       else ([x2d], tokDash) :: if end_ r =? lastField then [] else num_tokens (end_ r).

(** Ranges that can be written: a range from the last field ends there. *)
Definition range_ok (r : frange) : Prop :=
  - 2 ^ 63 < begin r < 2 ^ 63 /\ - 2 ^ 63 < end_ r < 2 ^ 63 /\ (begin r = lastField -> end_ r = lastField).

Lemma parsenum_at lex n l :
  - 2 ^ 63 < n < 2 ^ 63 -> at_tokens lex (num_tokens n ++ l) ->
  exists lex', parsenum digit_table space_table lex = (lex', Ret n) /\ at_tokens lex' l.
Proof.
  intros Hn Hat. unfold parsenum, num_tokens in *. destruct (Z.ltb_spec n 0).
  - destruct (next_at _ _ _ _ Hat) as (lex1 & E1 & Hat1). rewrite (M_bind_Ret _ _ _ _ _ E1). tok_eval.
    destruct (next_at _ _ _ _ Hat1) as (lex2 & E2 & Hat2). rewrite (M_bind_Ret _ _ _ _ _ E2). tok_eval.
    exists lex2. split; [|done]. rewrite Atoi_Itoa by lia. cbn [fst]. rewrite Z.opp_involutive, i64_small by lia. done.
  - destruct (next_at _ _ _ _ Hat) as (lex1 & E1 & Hat1). rewrite (M_bind_Ret _ _ _ _ _ E1). tok_eval.
    exists lex1. by rewrite Atoi_Itoa by lia.
Qed.

Lemma num_tokens_head n l : head_type (num_tokens n ++ l) = if n <? 0 then tokDash else tokNum.
Proof. unfold num_tokens. by destruct (n <? 0). Qed.

Lemma parsefield_at lex n l :
  - 2 ^ 63 < n < 2 ^ 63 -> at_tokens lex (num_tokens n ++ l) ->
  exists lex', parsefield digit_table space_table lex = (lex', Ret (n, tokNum)) /\ at_tokens lex' l.
Proof.
  intros Hn Hat. unfold parsefield. rewrite (M_bind_Ret _ _ _ _ _ (peektype_at _ _ Hat)).
  rewrite num_tokens_head, bool_decide_eq_false_2 by (by destruct (n <? 0)).
  destruct (parsenum_at _ _ _ Hn Hat) as (lex' & E & Hat'). exists lex'. by rewrite (M_bind_Ret _ _ _ _ _ E).
Qed.

Lemma parsefield_nf lex l :
  at_tokens lex (([x4e; x46], tokNF) :: l) ->
  exists lex', parsefield digit_table space_table lex = (lex', Ret (lastField, tokNF)) /\ at_tokens lex' l.
Proof.
  intros Hat. unfold parsefield. rewrite (M_bind_Ret _ _ _ _ _ (peektype_at _ _ Hat)). cbn [head_type]. tok_eval.
  destruct (next_at _ _ _ _ Hat) as (lex' & E & Hat'). exists lex'. by rewrite (M_bind_Ret _ _ _ _ _ E).
Qed.

Lemma parserange_at lex r l :
  range_ok r -> head_type l = tokEOF \/ head_type l = tokComma -> at_tokens lex (range_tokens r ++ l) ->
  exists lex', parserange digit_table space_table lex = (lex', Ret r) /\ at_tokens lex' l.
Proof.
  intros (Hb & He & Hlast) Hl Hat. destruct r as [b e]. cbn in Hb, He, Hlast. unfold range_tokens in Hat. cbn [begin end_] in Hat.
  unfold parserange. rewrite (M_bind_Ret _ _ _ _ _ (peektype_at _ _ Hat)).
  destruct (Z.eqb_spec b lastField) as [->|Hne].
  { rewrite Hlast by done. cbn [app head_type] in *. tok_eval.
    destruct (parsefield_nf _ _ Hat) as (lex' & E & Hat'). rewrite (M_bind_Ret _ _ _ _ _ E). tok_eval. eauto. }
  rewrite <- app_assoc, num_tokens_head in *. rewrite bool_decide_eq_false_2 by (by destruct (b <? 0)).
  destruct (parsefield_at _ _ _ Hb Hat) as (lex1 & E1 & Hat1). rewrite (M_bind_Ret _ _ _ _ _ E1). tok_eval.
  rewrite (M_bind_Ret _ _ _ _ _ (peektype_at _ _ Hat1)). destruct (Z.eqb_spec e b) as [->|Heb].
  { cbn [app] in *. assert (head_type l <> tokDash) by (by destruct Hl as [-> | ->]). tok_eval. eauto. }
  cbn [app head_type] in *. tok_eval. destruct (next_at _ _ _ _ Hat1) as (lex2 & E2 & Hat2).
  rewrite (M_bind_Ret _ _ _ _ _ E2), (M_bind_Ret _ _ _ _ _ (peektype_at _ _ Hat2)).
  destruct (Z.eqb_spec e lastField) as [->|Hel].
  - cbn [app] in *. exists lex2. split; [|done]. by destruct Hl as [-> | ->].
  - rewrite num_tokens_head. assert (isdelim (if e <? 0 then tokDash else tokNum) = false) as -> by (by destruct (e <? 0)).
    rewrite bool_decide_eq_false_2 by (by destruct (e <? 0)). cbn [negb andb].
    destruct (parsefield_at _ _ _ He Hat2) as (lex3 & E3 & Hat3). rewrite (M_bind_Ret _ _ _ _ _ E3). eauto.
Qed.

Fixpoint list_tokens (rs : list frange) : list (bytes * toktype) :=
  match rs with
  | [] => []
  | [r] => range_tokens r
  | r :: rs => range_tokens r ++ ([x2c], tokComma) :: list_tokens rs
  end.

Lemma range_tokens_head r l :
  head_type (range_tokens r ++ l) = tokNF \/ head_type (range_tokens r ++ l) = tokDash \/ head_type (range_tokens r ++ l) = tokNum.
Proof.
  unfold range_tokens. destruct (begin r =? lastField); [auto|]. rewrite <- app_assoc, num_tokens_head.
  destruct (begin r <? 0); auto.
Qed.

(** One round of the loop of [parseranges]. *)
Lemma parse_list_step fuel acc lex r l :
  range_ok r -> l = [] \/ head_type l = tokComma -> at_tokens lex (range_tokens r ++ l) ->
  exists lex', at_tokens lex' l /\
    parse_list digit_table space_table (S fuel) acc lex =
    match l with
    | [] => Some (lex', Ret (acc ++ [r]))
    | _ :: _ => parse_list digit_table space_table fuel (acc ++ [r]) (fst (next lex'))
    end.
Proof.
  intros Hr Hl Hat. destruct (parserange_at lex r l) as (lex' & E & Hat'); [done|naive_solver|done|].
  exists lex'. split; [done|].
  cbn [parse_list]. rewrite (M_bind_Ret _ _ _ _ _ (peektype_at _ _ Hat)).
  rewrite bool_decide_eq_false_2 by (by destruct (range_tokens_head r l) as [-> | [-> | ->]]).
  rewrite (M_bind_Ret (mret tt) _ _ _ _ eq_refl), (M_bind_Ret _ _ _ _ _ E), (M_bind_Ret _ _ _ _ _ (peektype_at _ _ Hat')).
  destruct l as [|[tok typ] l]; [done|]. destruct Hl as [Hl|Hl]; [done|]. cbn in Hl. subst typ.
  cbn [head_type]. tok_eval. change (isdelim tokComma) with true. cbn [negb].
  destruct (next_at _ _ _ _ Hat') as (lex2 & E2 & _).
  by rewrite (M_bind_Ret _ _ _ _ _ E2), E2.
Qed.

Lemma parse_list_at fuel acc lex rs :
  rs <> [] -> Forall range_ok rs -> (length rs <= fuel)%nat -> at_tokens lex (list_tokens rs) ->
  exists lex', parse_list digit_table space_table fuel acc lex = Some (lex', Ret (acc ++ rs)).
Proof.
  revert acc lex fuel. induction rs as [|r rs IH]; intros acc lex fuel Hne Hok Hf Hat; [done|].
  destruct fuel as [|fuel]; [cbn in Hf; lia|]. inversion Hok as [|? ? Hr Hrs]; subst.
  destruct rs as [|r2 rs].
  - cbn [list_tokens] in Hat. rewrite <- (app_nil_r (range_tokens r)) in Hat.
    destruct (parse_list_step fuel acc lex r [] Hr ltac:(by left) Hat) as (lex' & _ & ->). eauto.
  - change (list_tokens (r :: r2 :: rs)) with (range_tokens r ++ ([x2c], tokComma) :: list_tokens (r2 :: rs)) in Hat.
    destruct (parse_list_step fuel acc lex r (([x2c], tokComma) :: list_tokens (r2 :: rs)) Hr (or_intror eq_refl) Hat) as (lex' & Hat' & ->).
    destruct (next_at _ _ _ _ Hat') as (lex2 & -> & Hat2). cbn [fst].
    destruct (IH (acc ++ [r]) lex2 fuel ltac:(done) Hrs ltac:(cbn in *; lia) Hat2) as (lex3 & ->).
    exists lex3. by rewrite <- app_assoc.
Qed.
End LexerFacts.

(** ** Printing a field list *)

Definition print_range (r : frange) : bytes :=
  if begin r =? lastField then [x4e; x46]
  else Itoa (begin r) ++
       if end_ r =? begin r then []
       else x2d :: if end_ r =? lastField then [] else Itoa (end_ r).

Definition print_ranges (rs : list frange) : bytes := Join [x2c] (print_range <$> rs).

Lemma tokens_length suf l : tokens suf l -> (length l <= length suf)%nat.
Proof.
  induction 1 as [|t typ suf l Ht _ _ IH]; [done|]. rewrite length_app. destruct t; [done|]. cbn. lia.
Qed.

Lemma tokens_num n suf l : tokens suf l -> nodigit suf -> tokens (Itoa n ++ suf) (num_tokens n ++ l).
Proof.
  intros Ht Hd. assert (forall m, 0 <= m -> tokens (Itoa m ++ suf) ((Itoa m, tokNum) :: l)) as Hpos.
  { intros m Hm. destruct (Itoa_spec m Hm) as (c & ds & -> & Hds & _).
    constructor; [done|by constructor|done]. }
  unfold num_tokens. destruct (Z.ltb_spec n 0); [|by apply Hpos].
  assert (Itoa n = [x2d] ++ Itoa (- n)) as ->.
  { unfold Itoa at 1. destruct (Z.ltb_spec n 0); [|lia]. unfold Itoa. destruct (Z.ltb_spec (- n) 0); [lia|done]. }
  rewrite <- app_assoc. constructor; [done|constructor|]. apply Hpos. lia.
Qed.

Lemma tokens_range r suf l :
  tokens suf l -> (suf = [] \/ exists s, suf = x2c :: s) -> tokens (print_range r ++ suf) (range_tokens r ++ l).
Proof.
  intros Ht Hs. assert (nodigit suf) as Hd by (by destruct Hs as [-> | [s ->]]).
  unfold print_range, range_tokens. destruct (begin r =? lastField); [by constructor; [|constructor|]|].
  rewrite <- !app_assoc. destruct (end_ r =? begin r); [by apply tokens_num|]. cbn [app].
  apply tokens_num; [|done]. apply (tokens_cons [x2d]); [done|constructor|].
  destruct (end_ r =? lastField); [done|]. by apply tokens_num.
Qed.

Lemma tokens_ranges rs : tokens (print_ranges rs) (list_tokens rs).
Proof.
  unfold print_ranges. induction rs as [|r rs IH]; [constructor|]. destruct rs as [|r2 rs].
  - cbn. rewrite <- (app_nil_r (print_range r)), <- (app_nil_r (range_tokens r)).
    apply tokens_range; [constructor|by left].
  - change (list_tokens (r :: r2 :: rs)) with (range_tokens r ++ ([x2c], tokComma) :: list_tokens (r2 :: rs)).
    change (Join [x2c] (print_range <$> r :: r2 :: rs)) with
      (print_range r ++ [x2c] ++ Join [x2c] (print_range <$> r2 :: rs)).
    apply tokens_range; [by constructor; [|constructor|]|right; eauto].
Qed.

Lemma list_tokens_length rs : (length rs <= length (list_tokens rs))%nat.
Proof.
  assert (forall r, (1 <= length (range_tokens r))%nat) as Hr.
  { intros r. unfold range_tokens, num_tokens. destruct (begin r =? lastField), (begin r <? 0); cbn; lia. }
  induction rs as [|r [|r2 rs] IH]; [done|apply Hr|].
  change (list_tokens (r :: r2 :: rs)) with (range_tokens r ++ ([x2c], tokComma) :: list_tokens (r2 :: rs)).
  rewrite length_app. cbn [length] in *. specialize (Hr r). lia.
Qed.

(** A field list that is written out (a field number, [NF] for the last field, [a-b],
    [a-] up to the last field, joined with commas) is parsed back to the same ranges. *)
Theorem parseranges_print digit_table space_table rs :
  rs <> [] -> Forall range_ok rs ->
  parseranges digit_table space_table (print_ranges rs) = Some (Ret rs).
Proof.
  intros Hne Hok. pose proof (tokens_ranges rs) as Ht. unfold parseranges, bytes_eqb.
  pose proof (list_tokens_length rs) as Hlen. pose proof (tokens_length _ _ Ht) as Hl2.
  rewrite (bool_decide_eq_false_2 (print_ranges rs = [])).
  2: { intros E. rewrite E in Hl2. destruct rs; [done|]. cbn in *. lia. }
  destruct (next_advance digit_table space_table [] _ [] tokError _ Ht) as (lex & E & Hat).
  unfold between in E. cbn [app] in E. change (zlen []) with 0 in E. rewrite E.
  destruct (parse_list_at digit_table space_table (S (length (print_ranges rs))) [] lex rs Hne Hok ltac:(lia) Hat) as (lex' & ->).
  done.
Qed.

Lemma parseranges_print_witness :
  parseranges (fun _ => false) (fun _ => false) (str "2,-3-,7-9") = Some (Ret [MkRange 2 2; MkRange (-3) lastField; MkRange 7 9]).
Proof.
  apply (parseranges_print (fun _ => false) (fun _ => false) [MkRange 2 2; MkRange (-3) lastField; MkRange 7 9]).
  - discriminate.
  - repeat apply Forall_cons_2; try apply Forall_nil_2; unfold range_ok, lastField; cbn; lia.
Defined.

(** ** What is selected *)

(** The fields [lo] to [hi], counted from [k] on. *)
Fixpoint fields_between (k lo hi : Z) (fs : list bytes) : list bytes :=
  match fs with
  | [] => []
  | f :: fs => (if (lo <=? k) && (k <=? hi) then [f] else []) ++ fields_between (k + 1) lo hi fs
  end.

(** The field number a number stands for in a line of [n] fields: negative numbers count from
    the end. *)
Definition field_number (n z : Z) : Z := if z <? 0 then n + 1 + z else z.

(** What a range selects: [0] is the whole line (and the fields up to the end of the range),
    a range that begins before the first field selects nothing. *)
Definition selected (line : bytes) (fields : list bytes) (r : frange) : list bytes :=
  let n := zlen fields in
  let lo := if begin r =? 0 then 1 else if begin r =? lastField then n else field_number n (begin r) in
  (if begin r =? 0 then [line] else []) ++
  if lo <? 1 then [] else fields_between 1 lo (field_number n (end_ r)) fields.

Definition separator (flags : fflags) (outsep : bytes) : bytes :=
  if bytes_eqb outsep [] then [] else if nuloutsep flags then [x00] else outsep.

Lemma fields_between_spec k lo hi fs :
  k <= lo -> fields_between k lo hi fs = take (Z.to_nat (hi - lo + 1)) (drop (Z.to_nat (lo - k)) fs).
Proof.
  revert k lo. induction fs as [|f fs IH]; intros k lo Hk; [by rewrite drop_nil, take_nil|]. cbn [fields_between].
  destruct (Z.leb_spec lo k) as [Hlo|Hlo].
  - replace k with lo in * by lia. rewrite Z.sub_diag. cbn [drop Z.to_nat].
    assert (fields_between (lo + 1) lo hi fs = fields_between (lo + 1) (lo + 1) hi fs) as ->.
    { clear. assert (forall k, lo < k -> fields_between k lo hi fs = fields_between k (lo + 1) hi fs) as H; [|apply H; lia].
      induction fs as [|g fs IH]; intros k Hk; [done|]. cbn. rewrite IH by lia.
      destruct (Z.leb_spec lo k), (Z.leb_spec (lo + 1) k); (lia || done). }
    rewrite IH by lia. rewrite Z.sub_diag. cbn [drop Z.to_nat].
    destruct (Z.leb_spec lo hi); cbn [andb app].
    + replace (Z.to_nat (hi - lo + 1)) with (S (Z.to_nat (hi - (lo + 1) + 1))) by lia. done.
    + by replace (Z.to_nat (hi - lo + 1)) with 0%nat by lia; replace (Z.to_nat (hi - (lo + 1) + 1)) with 0%nat by lia.
  - cbn [andb app]. rewrite IH by lia. by replace (Z.to_nat (lo - k)) with (S (Z.to_nat (lo - (k + 1)))) by lia.
Qed.

(** The state of the loop after printing the pieces [ps]. *)
Definition after_pieces (flags : fflags) (outsep : bytes) (ps : list bytes) : bytes * bytes * bool :=
  (Join (separator flags outsep) ps, if bool_decide (ps = []) then [] else outsep, negb (bool_decide (ps = []))).

Lemma pprefix_outsep flags sep : pprefix flags sep = separator flags sep.
Proof. done. Qed.

Lemma print_one flags outsep ps p :
  (Join (separator flags outsep) ps ++ pprefix flags (if bool_decide (ps = []) then [] else outsep) ++ p, outsep, true)
  = after_pieces flags outsep (ps ++ [p]).
Proof.
  unfold after_pieces. rewrite (bool_decide_eq_false_2 (ps ++ [p] = [])) by (by destruct ps). cbn [negb].
  destruct (decide (ps = [])) as [->|Hne]; [done|]. rewrite bool_decide_eq_false_2 by done.
  by rewrite Join_snoc.
Qed.

Lemma print_fields_ok flags outsep fs ps :
  print_fields flags outsep fs (after_pieces flags outsep ps) = after_pieces flags outsep (ps ++ fs).
Proof.
  revert ps. induction fs as [|f fs IH]; intros ps; [by rewrite app_nil_r|].
  cbn [print_fields]. unfold after_pieces at 1. rewrite print_one, IH, <- app_assoc. done.
Qed.

Lemma process_range_ok flags outsep line fields ps r :
  process_range flags outsep line fields (after_pieces flags outsep ps) r =
  after_pieces flags outsep (ps ++ selected line fields r).
Proof.
  unfold process_range, selected. unfold after_pieces at 1. cbv beta iota. set (n := zlen fields).
  set (e := if end_ r <? 0 then _ else _).
  assert (field_number n (end_ r) = e) as He by (unfold field_number, e; destruct (end_ r <? 0); lia).
  assert (forall b ps', 
    (if (b <? 0) || (e <? 0) || (e <? b) || (n <? b) then after_pieces flags outsep ps'
     else print_fields flags outsep (take (Z.to_nat (Z.min e n - b)) (drop (Z.to_nat b) fields)) (after_pieces flags outsep ps')) =
    after_pieces flags outsep (ps' ++ if b + 1 <? 1 then [] else fields_between 1 (b + 1) e fields)) as Hsel.
  { intros b ps'. destruct (Z.ltb_spec (b + 1) 1).
    { destruct (Z.ltb_spec b 0); [|lia]. cbn. by rewrite app_nil_r. }
    destruct (Z.ltb_spec b 0); [lia|]. cbn [orb]. rewrite fields_between_spec by lia.
    replace (e - (b + 1) + 1) with (e - b) by lia. replace (b + 1 - 1) with b by lia.
    unfold n, zlen in *. destruct ((e <? 0) || (e <? b) || (Z.of_nat (length fields) <? b)) eqn:Eo.
    - assert (take (Z.to_nat (e - b)) (drop (Z.to_nat b) fields) = []) as ->; [|by rewrite app_nil_r].
      rewrite !orb_true_iff, !Z.ltb_lt in Eo. destruct Eo as [Eo|Eo].
      + by replace (Z.to_nat (e - b)) with 0%nat by lia.
      + rewrite drop_ge by lia. by rewrite take_nil.
    - rewrite print_fields_ok. do 2 f_equal. destruct (Z.le_ge_cases e (Z.of_nat (length fields))).
      + f_equal. lia.
      + rewrite !take_ge; [done| |]; rewrite length_drop; lia. }
  destruct (Z.eqb_spec (begin r) 0) as [E0|].
  - rewrite print_one. rewrite E0, Hsel, <- app_assoc, He. done.
  - fold (after_pieces flags outsep ps). cbn [app]. rewrite He.
    destruct (begin r =? lastField); [|unfold field_number; destruct (begin r <? 0)]; rewrite Hsel.
    + by rewrite Z.sub_add.
    + by replace (begin r + n + 1) with (n + 1 + begin r) by lia.
    + by rewrite Z.sub_add.
Qed.

Lemma process_ranges_ok flags outsep line fields rv ps :
  fold_left (process_range flags outsep line fields) rv (after_pieces flags outsep ps) =
  after_pieces flags outsep (ps ++ concat (selected line fields <$> rv)).
Proof.
  revert ps. induction rv as [|r rv IH]; intros ps; cbn [fold_left]; [by rewrite app_nil_r|].
  rewrite process_range_ok, IH, fmap_cons. cbn [concat]. by rewrite <- app_assoc.
Qed.

(** For every line [process] prints the fields that the ranges select, range after range
    and in the order of the line, with the separator between any two of them and a line feed at
    the end; when empty fields are discarded, a line without selected fields gives no output.
    A field number counts from 1, or from the end when it is negative; the number 0 is the
    whole line. *)
Theorem process_selects flags regexp_Split file rv outsep collapse :
  process flags regexp_Split file rv outsep collapse =
  (concat ((fun line =>
      let pieces := concat (selected line (split regexp_Split line collapse) <$> rv) in
      Join (separator flags outsep) pieces ++
      if bool_decide (pieces = []) && collapse then [] else [x0a]) <$> fst (ScanLines file)),
   snd (ScanLines file)).
Proof.
  unfold process. destruct (ScanLines file) as [lines err]. cbn [fst snd]. do 2 f_equal.
  apply list_fmap_ext. intros i line _. unfold process_line. cbv zeta.
  change ([], [], false) with (after_pieces flags outsep []). rewrite process_ranges_ok. cbn [app].
  unfold after_pieces. destruct (bool_decide _), collapse; cbn; by rewrite ?app_nil_r.
Qed.

(** ** Examples *)

Example field_ex :
  process (MkFFlags false false false [] (str " ")) (Split x20)
    (str "a b c d
e f") [MkRange (-1) (-1); MkRange 2 3; MkRange 0 0] (str ":") true =
  (str "d:b:c:a b c d
f:f:e f
", None).
Proof. vm_compute. reflexivity. Qed.

Example parse_ex : parseranges (fun _ => false) (fun _ => false) (str "1,-3|4-NF 2-,7-9") =
  Some (Ret [MkRange 1 1; MkRange (-3) (-3); MkRange 4 lastField; MkRange 2 lastField; MkRange 7 9]).
Proof. vm_compute. reflexivity. Qed.

(** A delimiter is one token: spaces around a comma are an error on its left side. *)
Example parse_space_comma : parseranges (fun _ => false) (fun _ => false) (str "1 , 2") =
  Some (Fail (Errorf "number parser error: unexpected token '%v'")).
Proof. vm_compute. reflexivity. Qed.
