(* ===== verification/Fmap.v ===== *)
(** * Flash maps ([cmds/fmap/lib/fmap.go], [cmds/fmap/fmap.go])

    The flash map structures and their little-endian layout, [Read], [Write], [ReadArea] and
    [Checksum], and the commands of [fmap] that work on them.  The flash is a byte list; the
    hash functions, JSON and the operating system are parameters. *)

From Stdlib Require Import Strings.String.
From S2P Require Export GoIO GoBinary GoStrings.

Definition signature : bytes := str "__FMAP__".

Definition FmapAreaStatic : Z := 1.
Definition FmapAreaCompressed : Z := 2.
Definition FmapAreaReadOnly : Z := 4.

(** [String]: an array of 32 bytes. *)
Definition StringSize : nat := 32.
Definition String_String (Value : bytes) : bytes := TrimRight Value [x00].

(** [UnmarshalJSON] on an array: [Unquote] is [strconv.Unquote]. *)
Definition UnmarshalJSON (Unquote : bytes -> bytes + error) (Value b : bytes) : outcome error bytes :=
  match Unquote b with
  | inr e => Fail e
  | inl s =>
      if zlen Value <? zlen s then Fail (Errorf "String %#v is longer than 32 bytes")
      else Ret (splice Value 0 s)
  end.

Record Header := MkHeader {
  Signature : bytes; VerMajor : Z; VerMinor : Z; Base : Z; h_Size : Z; h_Name : bytes; NAreas : Z
}.
Record Area := MkArea { a_Offset : Z; a_Size : Z; a_Name : bytes; a_Flags : Z }.
Record FMap := MkFMap { Header_ : Header; Areas : list Area }.
Record Metadata := MkMeta { Start : Z }.

(** ** [FlagNames] *)

Fixpoint hex_digits (fuel : nat) (z : Z) (acc : bytes) : bytes :=
  match fuel with
  | O => acc
  | S fuel =>
      let acc := hex_digit (z `mod` 16) :: acc in
      if z <? 16 then acc else hex_digits fuel (z `div` 16) acc
  end.

(** The verb [%#x] on a 16-bit number. *)
Definition Sprintf_x (z : Z) : bytes := str "0x" ++ hex_digits 4 z [].

Definition flag_table : list (Z * bytes) :=
  [(FmapAreaStatic, str "STATIC"); (FmapAreaCompressed, str "COMPRESSED"); (FmapAreaReadOnly, str "READ_ONLY")].

Fixpoint flag_loop (m : list (Z * bytes)) (flags : Z) (names : list bytes) : Z * list bytes :=
  match m with
  | [] => (flags, names)
  | (val, name) :: m =>
      if bool_decide (Z.land val flags <> 0) then flag_loop m (u16 (flags - val)) (names ++ [name])
      else flag_loop m flags names
  end.

Definition FlagNames (flags : Z) : bytes :=
  let '(flags, names) := flag_loop flag_table flags [] in
  let names := if bool_decide (flags <> 0) || bool_decide (names = []) then names ++ [Sprintf_x flags] else names in
  Join [x7c] names.

(** ** Layout *)

Definition header_bytes (h : Header) : bytes :=
  Signature h ++ le_bytes 1 (VerMajor h) ++ le_bytes 1 (VerMinor h) ++ le_bytes 8 (Base h) ++
  le_bytes 4 (h_Size h) ++ h_Name h ++ le_bytes 2 (NAreas h).

Definition header_size : nat := 56.

Definition header_of (b : bytes) : Header :=
  MkHeader (field b 0 8) (uint b 8 1) (uint b 9 1) (uint b 10 8) (uint b 18 4) (field b 22 32) (uint b 54 2).

Definition area_bytes (a : Area) : bytes :=
  le_bytes 4 (a_Offset a) ++ le_bytes 4 (a_Size a) ++ a_Name a ++ le_bytes 2 (a_Flags a).

Definition area_size : nat := 42.

Definition area_of (b : bytes) : Area :=
  MkArea (uint b 0 4) (uint b 4 4) (field b 8 32) (uint b 40 2).

Fixpoint areas_of (n : nat) (b : bytes) : list Area :=
  match n with
  | O => []
  | S n => area_of (field b 0 area_size) :: areas_of n (drop area_size b)
  end.

(** [readField] of a struct of [n] bytes: its bytes and the rest. *)
Definition readField (n : nat) (r : bytes) : outcome error (bytes * bytes) :=
  if (n <=? length r)%nat then Ret (take n r, drop n r)
  else Fail (Errorf "Unexpected EOF while parsing fmap").

(** ** [Read] and [Write]

    [data] is what [ReadAll] has read of the flash, whose error [Read] returns; [Write] is given a flash that takes
    every write. *)

Definition Read (data : bytes) : outcome error (FMap * Metadata) :=
  if (2 <=? Count data signature)%nat then Fail (Errorf "Found multiple signatures")
  else match Index data signature with
  | None => Fail (Errorf "Cannot find fmap signature")
  | Some start =>
      '(b, r) ← readField header_size (drop start data);
      let h := header_of b in
      '(b, r) ← readField (area_size * Z.to_nat (NAreas h)) r;
      Ret (MkFMap h (areas_of (Z.to_nat (NAreas h)) b), MkMeta (Z.of_nat start))
  end.

(** A write at offset [o] of a file, which grows when the write ends beyond its end. *)
Definition file_write (d : bytes) (o : Z) (b : bytes) : bytes :=
  let o := Z.to_nat o in
  take o d ++ replicate (o - length d) x00 ++ b ++ drop (o + length b) d.

Definition Write (d : bytes) (fmap : FMap) (m : Metadata) : outcome error bytes :=
  let start := i64 (Start m) in
  if start <? 0 then Fail (Errno 22)
  else
    let hb := header_bytes (Header_ fmap) in
    let d := file_write d start hb in
    Ret (file_write d (start + zlen hb) (concat (area_bytes <$> Areas fmap))).

(** ** Areas *)

Definition ReadArea (f : FMap) (r : bytes) (i : Z) : outcome error bytes :=
  if (i <? 0) || (NAreas (Header_ f) <=? i) then Fail (Errorf "Area index out of range")
  else match zindex (Areas f) i with
  | None => Panic
  | Some a => Ret (take (Z.to_nat (a_Size a)) (drop (Z.to_nat (a_Offset a)) r))
  end.

(** The loop of [Checksum]: what is written to the hash. *)
Fixpoint hashed (f : FMap) (r : bytes) (i : Z) (areas : list Area) : outcome error bytes :=
  match areas with
  | [] => Ret []
  | v :: areas =>
      if Z.land (a_Flags v) FmapAreaStatic =? 0 then hashed f r (i + 1) areas
      else b ← ReadArea f r i; rest ← hashed f r (i + 1) areas; Ret (b ++ rest)
  end.

(** [Sum] is the digest of what was written. *)
Definition Checksum (Sum : bytes -> bytes) (f : FMap) (r : bytes) : outcome error bytes :=
  b ← hashed f r 0 (Areas f); Ret (Sum b).

(** ** The commands *)

Definition hashFuncs (md5 sha1 sha256 : bytes -> bytes) (name : bytes) : option (bytes -> bytes) :=
  if bytes_eqb name (str "md5") then Some md5
  else if bytes_eqb name (str "sha1") then Some sha1
  else if bytes_eqb name (str "sha256") then Some sha256
  else None.

(** What the command prints. *)
Definition checksum (md5 sha1 sha256 : bytes -> bytes) (arg : bytes) (f : FMap) (r : bytes) : outcome error bytes :=
  match hashFuncs md5 sha1 sha256 arg with
  | None => Fail (Errorf "Not a valid hash function. Must be one of:")
  | Some h => c ← Checksum h f r; Ret (hex_encode c ++ [x0a])
  end.

Definition extract (arg : bytes) (f : FMap) (r : bytes) : outcome error bytes :=
  match Atoi arg with
  | (i, None) => ReadArea f r i
  | (_, Some _) => Fail (Errorf "strconv.Atoi: parsing %q")
  end.

Definition verify_area (f : FMap) (area : Area) : bool := h_Size (Header_ f) <? u32 (a_Offset area + a_Size area).

(** The areas reported as out of range, and the error. *)
Definition verify (f : FMap) : list nat * option error :=
  let bad := fst <$> filter (fun p => verify_area f (snd p)) (imap pair (Areas f)) in
  (bad, if bool_decide (bad = []) then None else Some (Errorf "Invalid flash map")).

(** [usage]: the rows with their addresses and a sign for every block, whether it warns about
    an incomplete last block, and the numbers of blocks, of full ones and of empty ones.  A row
    is begun before the end of the flash is known, so the last one may be empty. *)
Definition blockSize : nat := Z.to_nat 4096.
Definition rowLength : nat := 32.

Definition block_sign (b : bytes) : byte :=
  if bool_decide (b = replicate blockSize xff) then x2e
  else if bool_decide (b = replicate blockSize x00) then x30
  else x23.

Fixpoint usage_loop (blocks : list bytes) (addr : Z) (row : bytes) (numBlocks numFull numZero : Z)
  : list (Z * bytes) * bool * (Z * Z * Z) :=
  match blocks with
  | [] => ([(addr, row)], false, (numBlocks, numFull, numZero))
  | buffer :: blocks =>
      if bool_decide (length buffer <> blockSize) then ([(addr, row)], true, (numBlocks, numFull, numZero))
      else
        let numBlocks := numBlocks + 1 in
        let c := block_sign buffer in
        let numFull := if byte_eqb c x2e then numFull + 1 else numFull in
        let numZero := if byte_eqb c x30 then numZero + 1 else numZero in
        let row := row ++ [c] in
        if bool_decide (length row = rowLength) then
          let '(rows, warning, counts) :=
            usage_loop blocks (numBlocks * Z.of_nat blockSize) [] numBlocks numFull numZero in
          ((addr, row) :: rows, warning, counts)
        else usage_loop blocks addr row numBlocks numFull numZero
  end.

Definition usage (r : bytes) : list (Z * bytes) * bool * (Z * Z * Z) :=
  usage_loop (chunks blockSize r) 0 [] 0 0 0.

(** [cmds]: number of arguments and whether the flash map is parsed first. *)
Definition cmds (name : bytes) : option (Z * bool) :=
  if bytes_eqb name (str "checksum") || bytes_eqb name (str "extract") || bytes_eqb name (str "jget") then Some (1, true)
  else if bytes_eqb name (str "jput") then Some (1, false)
  else if bytes_eqb name (str "summary") || bytes_eqb name (str "usage") || bytes_eqb name (str "verify") then Some (0, true)
  else None.

(** [jsonPut]: the flash afterwards. The flash file is opened first; [Unmarshal] gives the two
    pointers of the JSON file, nil when the file does not have them. *)
Definition jsonPut (open_err : option error) (ReadFile : bytes -> bytes + error)
    (Unmarshal : bytes -> (option FMap * option Metadata) + error) (arg flash : bytes) : outcome error bytes :=
  match open_err with
  | Some e => Fail e
  | None =>
      match ReadFile arg with
      | inr e => Fail e
      | inl data =>
          match Unmarshal data with
          | inr e => Fail e
          | inl (_, None) => Panic
          | inl (None, Some m) => if i64 (Start m) <? 0 then Fail (Errno 22) else Panic
          | inl (Some f, Some m) => Write flash f m
          end
      end
  end.

(** [main] up to the call of the command: its arguments, and what was read from [file]. *)
Definition fmap_main (os_Open : bytes -> bytes + error) (os_Args : list bytes)
  : outcome error (bytes * list bytes * option (FMap * Metadata * bytes)) :=
  let usage_exit := Fail (Errorf "Usage: %s CMD [ARGS...] FILE") in
  match os_Args with
  | arg0 :: name :: rest =>
      if zlen os_Args <=? 2 then usage_exit
      else match cmds name with
      | None => usage_exit
      | Some (nArgs, parseFMap) =>
          if bool_decide (zlen os_Args <> nArgs + 3) then usage_exit
          else
            let args := take (length rest - 1) rest in
            if parseFMap then
              match os_Open (default [] (last rest)) with
              | inr e => Fail e
              | inl r => '(f, m) ← Read r; Ret (name, args, Some (f, m, r))
              end
            else Ret (name, args, None)
      end
  | _ => usage_exit
  end.

(** The rows of [usage] put together are the signs of the complete blocks, and the numbers are
    those of the signs. *)
Fixpoint complete (blocks : list bytes) : list bytes :=
  match blocks with
  | [] => []
  | b :: blocks => if bool_decide (length b <> blockSize) then [] else b :: complete blocks
  end.

Definition signs_of (c : byte) (signs : bytes) : Z := zlen (filter (fun x => x = c) signs).

Lemma signs_of_cons c x l : signs_of c (x :: l) = (if byte_eqb x c then 1 else 0) + signs_of c l.
Proof.
  unfold signs_of. rewrite filter_cons. destruct (byte_eqb x c) eqn:E.
  - apply byte_eqb_eq in E as ->. rewrite decide_True by done. rewrite zlen_cons. lia.
  - apply byte_eqb_neq in E. by rewrite decide_False.
Qed.

Lemma usage_loop_signs blocks addr row nb nf nz :
  let '(rows, _, (nb', nf', nz')) := usage_loop blocks addr row nb nf nz in
  let signs := block_sign <$> complete blocks in
  concat (snd <$> rows) = row ++ signs /\
  nb' = nb + zlen signs /\ nf' = nf + signs_of x2e signs /\ nz' = nz + signs_of x30 signs.
Proof.
  revert addr row nb nf nz. induction blocks as [|b blocks IH]; intros addr row nb nf nz; cbn [usage_loop complete].
  { cbn. split_and!; [done|unfold signs_of, zlen; cbn; lia..]. }
  case_bool_decide; [cbn; split_and!; [done|unfold signs_of, zlen; cbn; lia..]|].
  rewrite fmap_cons, zlen_cons, !signs_of_cons. case_bool_decide.
  all: match goal with |- context [usage_loop _ ?a ?r ?n ?f ?z] => specialize (IH a r n f z) end.
  all: destruct (usage_loop _ _ _ _ _ _) as [[rows warn] [[nb' nf'] nz']]; cbn in *.
  all: destruct IH as (-> & -> & -> & ->); rewrite <- app_assoc; cbn.
  all: split_and!; [done|lia|destruct (byte_eqb _ x2e); lia|destruct (byte_eqb _ x30); lia].
Qed.

(** ** Encoding and decoding *)

Definition header_ok (h : Header) : Prop :=
  length (Signature h) = 8%nat /\ uints 1 [VerMajor h; VerMinor h] /\ uints 8 [Base h] /\
  uints 4 [h_Size h] /\ length (h_Name h) = StringSize /\ uints 2 [NAreas h].

Definition area_ok (a : Area) : Prop :=
  uints 4 [a_Offset a; a_Size a] /\ length (a_Name a) = StringSize /\ uints 2 [a_Flags a].

(** A map that [Write] stores completely. *)
Definition fmap_ok (f : FMap) : Prop :=
  header_ok (Header_ f) /\ Forall area_ok (Areas f) /\ NAreas (Header_ f) = zlen (Areas f).

(** Splits [uints] hypotheses. *)
Ltac uints_inv :=
  unfold uints in *;
  repeat match goal with H : Forall _ (_ :: _) |- _ => apply Forall_cons in H as [? H] end.

Lemma length_header_bytes h : header_ok h -> length (header_bytes h) = header_size.
Proof.
  intros (H1 & _ & _ & _ & H2 & _). unfold header_bytes. rewrite !length_app, !length_le_bytes, H1, H2. done.
Qed.

Lemma length_area_bytes a : area_ok a -> length (area_bytes a) = area_size.
Proof. intros (_ & H & _). unfold area_bytes. by rewrite !length_app, !length_le_bytes, H. Qed.

Lemma header_of_bytes h : header_ok h -> header_of (header_bytes h) = h.
Proof.
  intros (H1 & H2 & H3 & H4 & H5 & H6). destruct h as [sg maj mn base size name n].
  cbn in H1, H2, H3, H4, H5, H6. uints_inv.
  set (ls := [sg; le_bytes 1 maj; le_bytes 1 mn; le_bytes 8 base; le_bytes 4 size; name; le_bytes 2 n]).
  assert (header_bytes (MkHeader sg maj mn base size name n) = concat ls) as -> by (unfold ls; cbn [concat]; by rewrite app_nil_r).
  assert (forall i x o m, ls !! i = Some x -> o = length (concat (take i ls)) -> m = length x -> field (concat ls) o m = x)
    as Hf by apply field_concat.
  unfold header_of, uint, StringSize in *.
  rewrite (Hf 0%nat sg), (Hf 1%nat (le_bytes 1 maj)), (Hf 2%nat (le_bytes 1 mn)), (Hf 3%nat (le_bytes 8 base)),
    (Hf 4%nat (le_bytes 4 size)), (Hf 5%nat name), (Hf 6%nat (le_bytes 2 n)).
  { rewrite !le_val_le_bytes_small by done. done. }
  all: try done; unfold ls; cbn [take concat]; rewrite ?length_app, ?length_le_bytes, ?app_nil_r, ?H1, ?H5; done.
Qed.

Lemma area_of_bytes a : area_ok a -> area_of (area_bytes a) = a.
Proof.
  intros (H1 & H2 & H3). destruct a as [o s name fl]. cbn in H1, H2, H3. uints_inv.
  set (ls := [le_bytes 4 o; le_bytes 4 s; name; le_bytes 2 fl]).
  assert (area_bytes (MkArea o s name fl) = concat ls) as -> by (unfold ls; cbn [concat]; by rewrite app_nil_r).
  assert (forall i x o m, ls !! i = Some x -> o = length (concat (take i ls)) -> m = length x -> field (concat ls) o m = x)
    as Hf by apply field_concat.
  unfold area_of, uint, StringSize in *.
  rewrite (Hf 0%nat (le_bytes 4 o)), (Hf 1%nat (le_bytes 4 s)), (Hf 2%nat name), (Hf 3%nat (le_bytes 2 fl)).
  { rewrite !le_val_le_bytes_small by done. done. }
  all: try done; unfold ls; cbn [take concat]; rewrite ?length_app, ?length_le_bytes, ?app_nil_r, ?H2; done.
Qed.

Lemma header_bytes_of b : length b = header_size -> header_bytes (header_of b) = b.
Proof.
  intros Hl. unfold header_size in Hl. unfold header_bytes, header_of. cbn [Signature VerMajor VerMinor Base h_Size h_Name NAreas].
  rewrite !le_bytes_uint by lia. rewrite (field_join b 22 32 54 2 eq_refl), (field_join b 18 4 22 _ eq_refl),
    (field_join b 10 8 18 _ eq_refl), (field_join b 9 1 10 _ eq_refl), (field_join b 8 1 9 _ eq_refl),
    (field_join b 0 8 8 _ eq_refl). cbn [Nat.add]. rewrite <- Hl. apply field_all.
Qed.

Lemma area_bytes_of b : length b = area_size -> area_bytes (area_of b) = b.
Proof.
  intros Hl. unfold area_size in Hl. unfold area_bytes, area_of. cbn [a_Offset a_Size a_Name a_Flags].
  rewrite !le_bytes_uint by lia. rewrite (field_join b 8 32 40 2 eq_refl), (field_join b 4 4 8 _ eq_refl),
    (field_join b 0 4 4 _ eq_refl). cbn [Nat.add]. rewrite <- Hl. apply field_all.
Qed.

Lemma areas_bytes_of n b :
  length b = (area_size * n)%nat -> concat (area_bytes <$> areas_of n b) = b.
Proof.
  revert b. induction n as [|n IH]; intros b Hl; cbn [areas_of]; [destruct b; [done|cbn in Hl; lia]|].
  unfold area_size in *. rewrite fmap_cons. cbn [concat]. rewrite IH by (rewrite length_drop; lia).
  rewrite area_bytes_of by (unfold area_size; rewrite length_field; lia). unfold field. by rewrite drop_0, take_drop.
Qed.

Lemma areas_of_bytes l : Forall area_ok l -> areas_of (length l) (concat (area_bytes <$> l)) = l.
Proof.
  induction l as [|a l IH]; intros Hl; [done|]. apply Forall_cons in Hl as [Ha Hl].
  cbn [length areas_of]. rewrite fmap_cons. cbn [concat]. unfold field. rewrite drop_0.
  rewrite take_app_length', drop_app_length' by (by rewrite length_area_bytes).
  by rewrite area_of_bytes, IH.
Qed.

Lemma length_areas_bytes l : Forall area_ok l -> length (concat (area_bytes <$> l)) = (area_size * length l)%nat.
Proof.
  induction l as [|a l IH]; intros Hl; [done|]. apply Forall_cons in Hl as [Ha Hl].
  rewrite fmap_cons. cbn [concat length]. rewrite length_app, length_area_bytes, IH by done. lia.
Qed.

(** ** Reading and writing *)

Lemma file_write_inside d o b :
  (o + length b <= length d)%nat -> file_write d (Z.of_nat o) b = splice d o b.
Proof. intros Hl. unfold file_write, splice. rewrite Nat2Z.id. by replace (o - length d)%nat with 0%nat by lia. Qed.

(** Where the map is in the flash. *)
Lemma Read_inv data f m :
  Read data = Ret (f, m) ->
  exists start, let n := Z.to_nat (NAreas (Header_ f)) in
    (Count data signature < 2)%nat /\ Index data signature = Some start /\ m = MkMeta (Z.of_nat start) /\
    (start + header_size + area_size * n <= length data)%nat /\
    Header_ f = header_of (field data start header_size) /\
    Areas f = areas_of n (field data (start + header_size) (area_size * n)).
Proof.
  unfold Read. destruct (Nat.leb_spec 2 (Count data signature)); [done|].
  destruct (Index data signature) as [start|] eqn:Ei; [|done]. unfold readField.
  destruct (Nat.leb_spec header_size (length (drop start data))) as [Hh|]; [|done]. rewrite length_drop in Hh.
  unfold mbind at 1, outcome_bind at 1. rewrite drop_drop. change (take header_size (drop start data)) with (field data start header_size).
  set (h := header_of _). destruct (Nat.leb_spec (area_size * Z.to_nat (NAreas h)) (length (drop (start + header_size) data))) as [Ha|]; [|done].
  rewrite length_drop in Ha. unfold mbind, outcome_bind. intros [= <- <-]. exists start. cbn [Header_ Areas].
  split_and!; try done. unfold header_size in *. fold h. lia.
Qed.

Lemma Write_inside d f o k :
  zlen d < 2 ^ 63 -> length (header_bytes (Header_ f)) = header_size ->
  length (concat (area_bytes <$> Areas f)) = k -> (o + header_size + k <= length d)%nat ->
  Write d f (MkMeta (Z.of_nat o)) = Ret (splice d o (header_bytes (Header_ f) ++ concat (area_bytes <$> Areas f))).
Proof.
  intros Hd Hh Hk Hl. unfold Write. cbn [Start]. unfold zlen in *. rewrite i64_small by lia.
  destruct (Z.ltb_spec (Z.of_nat o) 0); [lia|]. rewrite file_write_inside by lia.
  rewrite <- Nat2Z.inj_add, file_write_inside by (rewrite length_splice; lia). by rewrite splice_splice by lia.
Qed.

(** The bytes of the map that was read. *)
Lemma Read_bytes data f m :
  Read data = Ret (f, m) -> let n := Z.to_nat (NAreas (Header_ f)) in
  exists start, m = MkMeta (Z.of_nat start) /\ (start + header_size + area_size * n <= length data)%nat /\
    header_bytes (Header_ f) = field data start header_size /\
    concat (area_bytes <$> Areas f) = field data (start + header_size) (area_size * n).
Proof.
  intros (start & Hc & Hi & Hm & Hl & Hh & Ha)%Read_inv. exists start. split_and!; [done|done| |].
  - rewrite Hh. apply header_bytes_of. rewrite length_field; [done|lia].
  - rewrite Ha at 1. apply areas_bytes_of. rewrite length_field; [done|lia].
Qed.

(** Writing back the map that was read does not change the flash. *)
Theorem Write_Read data f m :
  zlen data < 2 ^ 63 -> Read data = Ret (f, m) -> Write data f m = Ret data.
Proof.
  intros Hd (start & -> & Hl & Hh & Ha)%Read_bytes. set (n := Z.to_nat (NAreas (Header_ f))) in *.
  rewrite (Write_inside data f start (area_size * n)); [|done|rewrite Hh, length_field; [done|lia]|rewrite Ha, length_field; [done|lia]|lia].
  rewrite Hh, Ha, field_join by done. by rewrite splice_field by lia.
Qed.

(** The first occurrence of [sep] only depends on the bytes up to its end. *)
Lemma Index_same_prefix d d' sep i :
  take (i + length sep) d' = take (i + length sep) d -> (i + length sep <= length d)%nat ->
  (i + length sep <= length d')%nat -> Index d sep = Some i -> Index d' sep = Some i.
Proof.
  intros E Hl Hl' (H1 & H2 & H3)%Index_spec. apply Index_spec.
  assert (forall j, (j <= i)%nat -> HasPrefix (drop j d') sep = HasPrefix (drop j d) sep) as Hsame.
  { intros j Hj. rewrite !HasPrefix_take. replace (take (length sep) (drop j d')) with (take (length sep) (drop j d)); [done|].
    assert (forall x : bytes, take (length sep) (drop j x) = take (length sep) (drop j (take (i + length sep) x))) as Ht.
    { intros x. rewrite skipn_firstn_comm, take_take. f_equal. lia. }
    by rewrite Ht, (Ht d'), E. }
  split_and!; [lia|by rewrite Hsame|]. intros j Hj. rewrite Hsame by lia. by apply H3.
Qed.

Lemma Read_spliced data start f :
  Index data signature = Some start -> fmap_ok f -> Signature (Header_ f) = signature ->
  (start + header_size + area_size * length (Areas f) <= length data)%nat ->
  let data' := splice data start (header_bytes (Header_ f) ++ concat (area_bytes <$> Areas f)) in
  (Count data' signature < 2)%nat -> Read data' = Ret (f, MkMeta (Z.of_nat start)).
Proof.
  intros Hi (Hh & Ha & Hn) Hs Hl data' Hcnt.
  pose proof (length_header_bytes _ Hh) as Hlh. pose proof (length_areas_bytes _ Ha) as Hla.
  set (hb := header_bytes (Header_ f)) in *. set (ab := concat (area_bytes <$> Areas f)) in *.
  assert (length (hb ++ ab) = (header_size + area_size * length (Areas f))%nat) as Hlb by (rewrite length_app; lia).
  assert (length data' = length data) as Hld by (apply length_splice; lia).
  assert (drop start data' = hb ++ ab ++ drop (start + length (hb ++ ab)) data) as Hdrop.
  { unfold data', splice. rewrite drop_app_length' by (rewrite length_take; lia). by rewrite <- app_assoc. }
  assert (Index data' signature = Some start) as Hidx.
  { apply (Index_same_prefix data); [|unfold header_size in *; cbn; lia|unfold header_size in *; cbn; lia|done].
    apply Index_spec in Hi as (_ & Hp & _). apply HasPrefix_spec in Hp.
    rewrite <- (take_drop start data). rewrite Hp. rewrite <- (take_drop start data'), Hdrop.
    replace (take start data') with (take start data) by (unfold data', splice; rewrite take_app_length'; [done|rewrite length_take; lia]).
    rewrite !take_app_add' by (rewrite length_take; lia). f_equal. unfold hb, header_bytes. rewrite Hs, <- !app_assoc.
    by rewrite !take_app_length. }
  unfold Read. destruct (Nat.leb_spec 2 (Count data' signature)); [lia|]. rewrite Hidx. unfold readField.
  rewrite Hdrop, length_app, Hlh. rewrite (proj2 (Nat.leb_le _ _)) by lia.
  unfold mbind, outcome_bind. rewrite take_app_length', drop_app_length' by done. unfold hb. rewrite header_of_bytes by done.
  rewrite Hn. unfold zlen. rewrite Nat2Z.id, length_app, Hla.
  rewrite (proj2 (Nat.leb_le _ _)) by lia. rewrite take_app_length' by done. unfold ab. rewrite areas_of_bytes by done. by destruct f.
Qed.

(** C35: on a flash whose reads and writes succeed, replacing the map that was read by another one with the same number
    of areas (what [fmap jput] does) changes the flash only in the place of the map, and, when this does not make
    the signature appear twice, reading the flash again gives the new map in the same place. *)
Theorem Read_Write data f m f' :
  zlen data < 2 ^ 63 -> Read data = Ret (f, m) ->
  fmap_ok f' -> Signature (Header_ f') = signature -> NAreas (Header_ f') = NAreas (Header_ f) ->
  exists data', Write data f' m = Ret data' /\ length data' = length data /\
    (forall o n, (o + n <= Z.to_nat (Start m) \/ Z.to_nat (Start m) + header_size + area_size * Z.to_nat (NAreas (Header_ f)) <= o)%nat ->
       field data' o n = field data o n) /\
    ((Count data' signature < 2)%nat -> Read data' = Ret (f', m)).
Proof.
  intros Hd (start & Hc & Hi & -> & Hl & _)%Read_inv (Hh & Ha & Hn) Hs E. cbn [Start]. rewrite Nat2Z.id.
  rewrite <- E in *. unfold zlen in Hn. rewrite Hn, Nat2Z.id in *.
  pose proof (length_header_bytes _ Hh) as Hlh. pose proof (length_areas_bytes _ Ha) as Hla.
  set (hb := header_bytes (Header_ f')) in *. set (ab := concat (area_bytes <$> Areas f')) in *.
  assert (length (hb ++ ab) = (header_size + area_size * length (Areas f'))%nat) as Hlb by (rewrite length_app; lia).
  exists (splice data start (hb ++ ab)). split_and!.
  - apply (Write_inside data f' start _ Hd Hlh Hla Hl).
  - apply length_splice. lia.
  - intros o n Ho. apply field_splice_other; lia.
  - intros Hcnt. by apply (Read_spliced data start f').
Qed.

(** ** A flash *)

Definition ex_flash : bytes :=
  replicate 16 xff ++
  header_bytes (MkHeader signature 1 1 0 0x1000 (str "FLASH" ++ replicate 27 x00) 1) ++
  area_bytes (MkArea 0x10 0x20 (str "RO" ++ replicate 30 x00) 5) ++ replicate 30 xff.

Definition ex_fmap : FMap :=
  MkFMap (MkHeader signature 1 2 0 0x1000 (str "OTHER" ++ replicate 27 x00) 1)
    [MkArea 0x10 0x40 (str "RW" ++ replicate 30 x00) 2].

Lemma Write_Read_witness :
  match Read ex_flash with Ret (f, m) => Write ex_flash f m = Ret ex_flash | _ => False end.
Proof.
  destruct (Read ex_flash) as [[f m]|e|] eqn:E; [|vm_compute in E; discriminate|vm_compute in E; discriminate].
  apply (Write_Read ex_flash f m); [vm_compute; reflexivity|exact E].
Defined.

Lemma Read_Write_witness :
  match Read ex_flash with
  | Ret (f, m) => exists data', Write ex_flash ex_fmap m = Ret data' /\ Read data' = Ret (ex_fmap, m)
  | _ => False
  end.
Proof.
  destruct (Read ex_flash) as [[f m]|e|] eqn:E; [|vm_compute in E; discriminate|vm_compute in E; discriminate].
  assert (m = MkMeta 16 /\ NAreas (Header_ f) = 1) as [-> Hn] by (vm_compute in E; by simplify_eq).
  destruct (Read_Write ex_flash f (MkMeta 16) ex_fmap ltac:(vm_compute; reflexivity) E) as (d & Hw & _ & _ & Hr).
  - split; [|split]; [|repeat constructor; cbn; try lia; done|reflexivity].
    repeat split; cbn; try done; repeat constructor; cbn; lia.
  - reflexivity.
  - by rewrite Hn.
  - exists d. split; [exact Hw|]. apply Hr. vm_compute in Hw. injection Hw as <-. vm_compute. lia.
Defined.

(** ** Wrong answers of [verify] *)

(** An area far outside of a flash of 4 KiB whose end wraps around to 0. *)
Example verify_wraps :
  verify (MkFMap (MkHeader signature 1 1 0 0x1000 [] 1) [MkArea 0xfffff000 0x1000 [] 0]) = ([], None).
Proof. vm_compute. reflexivity. Qed.

(** Unless an end wraps around, [verify] finds exactly the areas outside of the flash. *)
Lemma verify_area_ok f a :
  0 <= a_Offset a -> 0 <= a_Size a -> a_Offset a + a_Size a < 2 ^ 32 ->
  verify_area f a = true <-> h_Size (Header_ f) < a_Offset a + a_Size a.
Proof. intros. unfold verify_area. rewrite u32_small by lia. apply Z.ltb_lt. Qed.

Example FlagNames_ex : FlagNames 0x15 = str "STATIC|READ_ONLY|0x10".
Proof. vm_compute. reflexivity. Qed.
