(* ===== verification/FmapTool.v ===== *)
(** * The [fmap] command on files ([cmds/fmap/fmap.go])

    The texts that [summary] and [usage] print, the JSON form of a flash map with the methods of
    [String] that make it, [jsonGet] and [jsonPut], and [main] with the call of the command it has
    chosen.  The state are the files and what was printed.  The JSON of the standard library, the
    quoting of strings and the formatting of fractions are parameters. *)

From Stdlib Require Import Strings.String.
From S2P Require Import GoUtf8 Fmap.

(** ** Texts *)

(** The verb [%#x]. *)
Definition sharp_x (z : Z) : bytes := str "0x" ++ hex_digits (S (Z.to_nat (Z.log2 z))) z [].

(** The verb [%#08x]: the width is that of the digits, the prefix comes on top of it. *)
Definition sharp_08x (z : Z) : bytes :=
  let d := hex_digits (S (Z.to_nat (Z.log2 z))) z [] in str "0x" ++ replicate (8 - length d) x30 ++ d.

Definition nl : bytes := [x0a].
Definition tab : bytes := [x09].

(** The body of the [range] over the areas in the template of [summary]. *)
Definition area_text (i : nat) (v : Area) : bytes :=
  nl ++ tab ++ str "Areas[" ++ Itoa (Z.of_nat i) ++ str "]:" ++
  nl ++ tab ++ tab ++ str "Offset:  " ++ sharp_x (a_Offset v) ++
  nl ++ tab ++ tab ++ str "Size:    " ++ sharp_x (a_Size v) ++
  nl ++ tab ++ tab ++ str "Name:    " ++ String_String (a_Name v) ++
  nl ++ tab ++ tab ++ str "Flags:   " ++ sharp_x (a_Flags v) ++ str " (" ++ FlagNames (a_Flags v) ++ str ")".

Definition summary (f : FMap) (m : Metadata) : bytes :=
  let h := Header_ f in
  str "Fmap found at " ++ sharp_x (Start m) ++ str ":" ++
  nl ++ tab ++ str "Signature:  " ++ Signature h ++
  nl ++ tab ++ str "VerMajor:   " ++ Itoa (VerMajor h) ++
  nl ++ tab ++ str "VerMinor:   " ++ Itoa (VerMinor h) ++
  nl ++ tab ++ str "Base:       " ++ sharp_x (Base h) ++
  nl ++ tab ++ str "Size:       " ++ sharp_x (h_Size h) ++
  nl ++ tab ++ str "Name:       " ++ String_String (h_Name h) ++
  nl ++ tab ++ str "NAreas:     " ++ Itoa (NAreas h) ++
  concat (imap area_text (Areas f)) ++ nl.

(** ** JSON

    A document as [encoding/json] sees it: the fields of the structures, and for every [String]
    the literal that its methods make or are given; [None] when the field is not there. *)
Record jarea := MkJArea { ja_Offset : Z; ja_Size : Z; ja_Name : option bytes; ja_Flags : Z }.
Record jmap := MkJMap {
  j_Signature : bytes; j_VerMajor : Z; j_VerMinor : Z; j_Base : Z; j_Size : Z; j_Name : option bytes;
  j_NAreas : Z; j_Areas : list jarea
}.
Definition jsonSchema : Type := option jmap * option Metadata.

#[export] Instance jarea_eq_dec : EqDecision jarea.
Proof. solve_decision. Defined.
#[export] Instance jmap_eq_dec : EqDecision jmap.
Proof. solve_decision. Defined.
#[export] Instance Metadata_eq_dec : EqDecision Metadata.
Proof. solve_decision. Defined.

(** A [String] of zeros. *)
Definition String0 : bytes := replicate StringSize x00.

(** Calls that the operating system can refuse. *)
Inductive fop := FOpen (name : bytes) | FOpenW (name : bytes) | FRead (name : bytes) | FWrite (name : bytes).

Record world := MkWorld { files : gmap bytes bytes; stdout : bytes }.

Section Tool.
(** [json.Marshal] of a string, [strconv.Unquote], and [json] on documents. *)
Context (json_string : bytes -> bytes) (Unquote : bytes -> bytes + error).
Context (MarshalIndent : jsonSchema -> bytes + error) (Unmarshal : bytes -> jsonSchema + error).
Context (md5 sha1 sha256 : bytes -> bytes).
(** The verb [%.1f] on a number of blocks as a share of all of them. *)
Context (percent : Z -> Z -> bytes).
Context (os_err : fop -> option error).

(** [MarshalJSON] of a [String]. *)
Definition MarshalJSON (Value : bytes) : bytes := json_string (String_String Value).

Definition area_doc (a : Area) : jarea := MkJArea (a_Offset a) (a_Size a) (Some (MarshalJSON (a_Name a))) (a_Flags a).

Definition fmap_doc (f : FMap) : jmap :=
  let h := Header_ f in
  MkJMap (Signature h) (VerMajor h) (VerMinor h) (Base h) (h_Size h) (Some (MarshalJSON (h_Name h))) (NAreas h)
    (area_doc <$> Areas f).

(** What [json.Unmarshal] stores in a [String] of a new structure. *)
Definition name_of_doc (n : option bytes) : outcome error bytes :=
  match n with None => Ret String0 | Some b => UnmarshalJSON Unquote String0 b end.

Definition area_of_doc (a : jarea) : outcome error Area :=
  n ← name_of_doc (ja_Name a); Ret (MkArea (ja_Offset a) (ja_Size a) n (ja_Flags a)).

Fixpoint areas_of_doc (l : list jarea) : outcome error (list Area) :=
  match l with
  | [] => Ret []
  | a :: l => a ← area_of_doc a; l ← areas_of_doc l; Ret (a :: l)
  end.

Definition fmap_of_doc (j : jmap) : outcome error FMap :=
  n ← name_of_doc (j_Name j);
  l ← areas_of_doc (j_Areas j);
  Ret (MkFMap (MkHeader (j_Signature j) (j_VerMajor j) (j_VerMinor j) (j_Base j) (j_Size j) n (j_NAreas j)) l).

Definition schema_of (data : bytes) : (option FMap * option Metadata) + error :=
  match Unmarshal data with
  | inr e => inr e
  | inl (None, m) => inl (None, m)
  | inl (Some j, m) =>
      match fmap_of_doc j with
      | Ret f => inl (Some f, m)
      | Fail e => inr e
      | Panic => inr (Errorf "unreachable")
      end
  end.

(** ** Files *)

Definition read_by (op : bytes -> fop) (w : world) (name : bytes) : bytes + error :=
  match os_err (op name), files w !! name with
  | Some e, _ => inr e
  | None, None => inr (Errno 2)
  | None, Some b => inl b
  end.

Definition print (b : bytes) : M world unit := fun w => (MkWorld (files w) (stdout w ++ b), Ret tt).

Definition WriteFile (name b : bytes) : M world unit := fun w =>
  match os_err (FWrite name) with
  | Some e => (w, Fail e)
  | None => (MkWorld (<[name := b]> (files w)) (stdout w), Ret tt)
  end.

(** ** Commands *)

Definition jsonGet (arg : bytes) (f : FMap) (m : Metadata) : M world unit :=
  match MarshalIndent (Some (fmap_doc f), Some m) with
  | inr e => raise e
  | inl data => WriteFile arg (data ++ nl)
  end.

(** [jsonPut] opens the last argument of the program for writing. *)
Definition jsonPut_file (arg flash : bytes) : M world unit := fun w =>
  match read_by FOpenW w flash with
  | inr e => (w, Fail e)
  | inl old =>
      match jsonPut None (read_by FRead w) schema_of arg old with
      | Ret new => (MkWorld (<[flash := new]> (files w)) (stdout w), Ret tt)
      | Fail e => (w, Fail e)
      | Panic => (w, Panic)
      end
  end.

(** The rows of [usage]; a warning ends without a line feed. *)
Definition usage_text (r : bytes) : bytes :=
  let '(rows, warning, (numBlocks, numFull, numZero)) := usage r in
  let line name n := str name ++ str " " ++ Itoa n ++ str " (" ++ percent n numBlocks ++ str "%)" ++ nl in
  str "Legend: '.' - full (0xff), '0' - zero (0x00), '#' - mixed" ++ nl ++
  concat ((fun '(addr, row) => sharp_08x addr ++ str ": " ++ row ++ nl) <$> rows) ++
  (if (warning : bool) then str "Warning: flash is not a multiple of 4096" else []) ++
  line "Blocks:      "%string numBlocks ++ line "Full (0xff): "%string numFull ++
  line "Empty (0x00):"%string numZero ++ line "Mixed:       "%string (numBlocks - numFull - numZero).

(** The command of the table, with its arguments and what [main] has parsed; [flash] is the last
    argument of the program. *)
Definition run (name : bytes) (args : list bytes) (parsed : option (FMap * Metadata * bytes)) (flash : bytes) : M world unit :=
  match parsed with
  | None => arg ← lift (or_panic (args !! 0%nat)); jsonPut_file arg flash
  | Some (f, m, r) =>
      if bytes_eqb name (str "checksum") then
        arg ← lift (or_panic (args !! 0%nat)); b ← lift (checksum md5 sha1 sha256 arg f r); print b
      else if bytes_eqb name (str "extract") then
        arg ← lift (or_panic (args !! 0%nat)); b ← lift (extract arg f r); print b
      else if bytes_eqb name (str "jget") then
        arg ← lift (or_panic (args !! 0%nat)); jsonGet arg f m
      else if bytes_eqb name (str "summary") then print (summary f m)
      else if bytes_eqb name (str "usage") then print (usage_text r)
      else match snd (verify f) with None => mret tt | Some e => raise e end
  end.

Definition fmap_run (os_Args : list bytes) : M world unit := fun w =>
  match fmap_main (read_by FOpen w) os_Args with
  | Ret (name, args, parsed) => run name args parsed (default [] (last os_Args)) w
  | Fail e => (w, Fail e)
  | Panic => (w, Panic)
  end.
End Tool.

(** ** Names *)

Lemma TrimLeft_zeros s : exists k, s = replicate k x00 ++ TrimLeft s [x00].
Proof.
  induction s as [|c s (k & IH)]; [by exists 0%nat|]. cbn [TrimLeft]. unfold in_set. cbn [existsb].
  rewrite orb_false_r. destruct (byte_eqb c x00) eqn:E; [|by exists 0%nat].
  apply byte_eqb_eq in E as ->. exists (S k). cbn [replicate app]. by rewrite <- IH.
Qed.

(** A name is its text and zeros. *)
Lemma String_padded n : exists k, n = String_String n ++ replicate k x00.
Proof.
  destruct (TrimLeft_zeros (reverse n)) as (k & H). exists k. apply (f_equal reverse) in H.
  by rewrite reverse_app, reverse_replicate, reverse_involutive in H.
Qed.

(** The names of a map, without the zeros at their ends. *)
Definition texts (f : FMap) : list bytes := String_String <$> h_Name (Header_ f) :: (a_Name <$> Areas f).

Definition names_full (f : FMap) : Prop :=
  Forall (fun n => length n = StringSize) (h_Name (Header_ f) :: (a_Name <$> Areas f)).

Lemma areas_of_names n b :
  length b = (area_size * n)%nat -> Forall (fun n => length n = StringSize) (a_Name <$> areas_of n b).
Proof.
  revert b. induction n as [|n IH]; intros b Hl; [constructor|]. cbn [areas_of]. rewrite fmap_cons. unfold area_size in *.
  constructor; [|apply IH; rewrite length_drop; lia]. cbn [area_of a_Name].
  rewrite !length_field; rewrite ?length_field; unfold StringSize; lia.
Qed.

Lemma Read_names_full d f m : Read d = Ret (f, m) -> names_full f.
Proof.
  intros (start & _ & _ & _ & Hl & Hh & Ha)%Read_inv. unfold names_full. constructor.
  - rewrite Hh. cbn [header_of h_Name]. unfold header_size in *. rewrite length_field; [done|]. rewrite length_field; lia.
  - rewrite Ha. apply areas_of_names. by rewrite length_field by lia.
Qed.

(** Strings that JSON can hold: no bytes that are not UTF-8. *)
Definition utf8 (s : bytes) : Prop := Forall (fun r => r <> RuneError) (runes s).

Section ToolFacts.
Context (json_string : bytes -> bytes) (Unquote : bytes -> bytes + error).
Context (MarshalIndent : jsonSchema -> bytes + error) (Unmarshal : bytes -> jsonSchema + error).
Context (md5 sha1 sha256 : bytes -> bytes) (percent : Z -> Z -> bytes) (os_err : fop -> option error).
(** A string is read back from the literal that was made for it, and a document from its text. *)
Context (Unquote_string : forall s, utf8 s -> Unquote (json_string s) = inl s).
Context (Unmarshal_doc : forall d b, MarshalIndent d = inl b -> Unmarshal (b ++ nl) = inl d).

Abbreviation fmap_run := (fmap_run json_string Unquote MarshalIndent Unmarshal md5 sha1 sha256 percent os_err).

Lemma name_roundtrip n :
  length n = StringSize -> utf8 (String_String n) -> name_of_doc Unquote (Some (MarshalJSON json_string n)) = Ret n.
Proof.
  intros Hl Hu. unfold name_of_doc, UnmarshalJSON, MarshalJSON. rewrite Unquote_string by done.
  destruct (String_padded n) as (k & E). pose proof (f_equal length E) as El. rewrite length_app, length_replicate in El.
  unfold String0, zlen. rewrite length_replicate. destruct (Z.ltb_spec (Z.of_nat StringSize) (Z.of_nat (length (String_String n)))); [lia|].
  f_equal. unfold splice. cbn [take app Nat.add]. rewrite drop_replicate.
  replace (StringSize - length (String_String n))%nat with k by lia. done.
Qed.

Lemma areas_roundtrip l :
  Forall (fun n => length n = StringSize) (a_Name <$> l) -> Forall utf8 (String_String <$> (a_Name <$> l)) ->
  areas_of_doc Unquote (area_doc json_string <$> l) = Ret l.
Proof.
  induction l as [|a l IH]; intros Hl Hu; [done|]. rewrite !fmap_cons in *. apply Forall_cons in Hl as [Ha Hl], Hu as [Ua Hu].
  cbn [areas_of_doc]. rewrite IH by done. unfold area_of_doc, area_doc. cbn [ja_Name ja_Offset ja_Size ja_Flags].
  rewrite name_roundtrip by done. by destruct a.
Qed.

Lemma doc_roundtrip f : names_full f -> Forall utf8 (texts f) -> fmap_of_doc Unquote (fmap_doc json_string f) = Ret f.
Proof.
  unfold names_full, texts. rewrite fmap_cons. intros [Hh Hl]%Forall_cons [Uh Ul]%Forall_cons. unfold fmap_of_doc, fmap_doc.
  cbn [j_Name j_Areas]. rewrite name_roundtrip by done. rewrite areas_roundtrip by done. by destruct f as [[] ?].
Qed.

Lemma schema_roundtrip f m b :
  names_full f -> Forall utf8 (texts f) -> MarshalIndent (Some (fmap_doc json_string f), Some m) = inl b ->
  schema_of Unquote Unmarshal (b ++ nl) = inl (Some f, Some m).
Proof. intros Hn Hu Hb. unfold schema_of. rewrite (Unmarshal_doc _ _ Hb). by rewrite doc_roundtrip. Qed.

(** ** Commands *)

Abbreviation run := (run json_string Unquote MarshalIndent Unmarshal md5 sha1 sha256 percent os_err).

(** What [main] does for a command that has one argument and a map. *)
Lemma run_jget prog J F w d f m :
  os_err (FOpen F) = None -> files w !! F = Some d -> Read d = Ret (f, m) ->
  fmap_run [prog; str "jget"; J; F] w = jsonGet json_string MarshalIndent os_err J f m w.
Proof.
  intros Ho Hd Hr. unfold fmap_run, FmapTool.fmap_run, fmap_main. cbn -[fmap_run Fmap.Read run].
  unfold read_by. rewrite Ho, Hd. rewrite Hr. done.
Qed.

Lemma run_jput prog J F w :
  fmap_run [prog; str "jput"; J; F] w = jsonPut_file Unquote Unmarshal os_err J F w.
Proof. done. Qed.

(** The map that [jsonPut] stores in a file. *)
Lemma jsonPut_file_stores J F w d b f m d' :
  os_err (FOpenW F) = None -> os_err (FRead J) = None -> files w !! F = Some d -> files w !! J = Some b ->
  schema_of Unquote Unmarshal b = inl (Some f, Some m) -> Write d f m = Ret d' ->
  jsonPut_file Unquote Unmarshal os_err J F w = (MkWorld (<[F := d']> (files w)) (stdout w), Ret tt).
Proof.
  intros H1 H2 Hd Hb Hs Hw. unfold jsonPut_file, read_by. rewrite H1, Hd. unfold Fmap.jsonPut. rewrite H2, Hb, Hs.
  by rewrite Hw.
Qed.

(** A map that was written to a JSON file by [fmap jget] is put back by [fmap jput] without a
    change to the flash, when its names are UTF-8: JSON does not keep other bytes. *)
Theorem jget_jput prog J F w w' d f m :
  (forall op, os_err op = None) -> J <> F -> files w !! F = Some d -> zlen d < 2 ^ 63 ->
  Read d = Ret (f, m) -> Forall utf8 (texts f) ->
  fmap_run [prog; str "jget"; J; F] w = (w', Ret tt) ->
  fmap_run [prog; str "jput"; J; F] w' = (w', Ret tt) /\ delete J (files w') = delete J (files w).
Proof.
  intros Ho HJ Hd Hl Hr Hu H. rewrite (run_jget _ _ _ _ d f m) in H by done.
  unfold jsonGet in H. destruct (MarshalIndent _) as [b|e] eqn:Eb; [|done].
  unfold WriteFile in H. rewrite Ho in H. injection H as <-. split; [|cbn [files]; by rewrite delete_insert_eq].
  rewrite run_jput. assert (files w !! F = Some d) as Hd' by done. rewrite <- (lookup_insert_ne _ J F (b ++ nl)) in Hd' by done.
  rewrite (jsonPut_file_stores J F (MkWorld (<[J:=b ++ nl]> (files w)) (stdout w)) d (b ++ nl) f m d (Ho _) (Ho _) Hd'
    (lookup_insert_eq _ _ _) (schema_roundtrip f m b (Read_names_full _ _ _ Hr) Hu Eb) (Write_Read _ _ _ Hl Hr)).
  f_equal. f_equal. by apply insert_id.
Qed.

(** What [main] chooses. *)
Lemma fmap_main_inv open args name a parsed :
  fmap_main open args = Ret (name, a, parsed) ->
  args !! 1%nat = Some name /\ (parsed = None -> name = str "jput").
Proof.
  destruct args as [|arg0 [|n rest]]; [done..|]. unfold fmap_main. destruct (_ <=? 2); [done|].
  unfold cmds. destruct (_ || _ || _).
  { case_bool_decide; [done|]. destruct (open _) as [r|]; [|done]. destruct (Read r) as [[f m]|e|]; [|done..].
    intros [= -> _ <-]. by split. }
  destruct (bytes_eqb n (str "jput")) eqn:E.
  { case_bool_decide; [done|]. intros [= -> _ <-]. split; [done|]. intros _. by apply bytes_eqb_eq in E. }
  destruct (_ || _ || _); [|done]. case_bool_decide; [done|]. destruct (open _) as [r|]; [|done].
  destruct (Read r) as [[f m]|e|]; [|done..]. intros [= -> _ <-]. by split.
Qed.

(** No command but [jget] and [jput] changes a file. *)
Theorem fmap_reads_only args w w' r :
  args !! 1%nat <> Some (str "jget") -> args !! 1%nat <> Some (str "jput") ->
  fmap_run args w = (w', r) -> files w' = files w.
Proof.
  intros Hg Hp H. unfold FmapTool.fmap_run in H.
  destruct (fmap_main _ args) as [[[name a] parsed]|e|] eqn:E; [|by injection H as <- _..].
  apply fmap_main_inv in E as [En Ep]. destruct parsed as [[[f m] d]|]; [|by rewrite Ep in En].
  unfold FmapTool.run in H. destruct (bytes_eqb name (str "jget")) eqn:Ej; [apply bytes_eqb_eq in Ej as ->; done|].
  unfold print, raise, lift, mbind, M_bind in H.
  repeat match type of H with
  | context [if ?b then _ else _] => destruct b
  | context [or_panic ?o] => destruct o; cbn [or_panic] in H
  | context [checksum ?a ?b ?c ?d ?e ?f] => destruct (checksum a b c d e f)
  | context [extract ?a ?b ?c] => destruct (extract a b c)
  | context [snd (verify ?a)] => destruct (snd (verify a))
  end; by injection H as <- _.
Qed.
End ToolFacts.

(** ** Files with a map *)

Definition toy_quote (s : bytes) : bytes := [x22] ++ s ++ [x22].
Definition toy_unquote (s : bytes) : bytes + error := inl (take (length s - 2) (drop 1 s)).
Definition toy_doc : jsonSchema :=
  match Read ex_flash with Ret (f, m) => (Some (fmap_doc toy_quote f), Some m) | _ => (None, None) end.
Definition toy_marshal (d : jsonSchema) : bytes + error :=
  if bool_decide (d = toy_doc) then inl (str "{}") else inr (Errorf "json").
Definition toy_unmarshal (b : bytes) : jsonSchema + error := inl toy_doc.
Definition toy_world : world := MkWorld {[ str "rom" := ex_flash ]} [].

Definition toy_run : list bytes -> M world unit :=
  fmap_run toy_quote toy_unquote toy_marshal toy_unmarshal (fun _ => []) (fun _ => []) (fun _ => []) (fun _ _ => str "0") (fun _ => None).

Example summary_ex :
  match Read ex_flash with
  | Ret (f, m) => take 59 (summary f m) = str "Fmap found at 0x10:" ++ nl ++ tab ++ str "Signature:  __FMAP__" ++ nl ++ tab ++ str "VerMajor:   1" ++ nl ++ tab ++ str "V"
  | _ => False
  end.
Proof. vm_compute. reflexivity. Qed.

Lemma jget_jput_witness :
  let w' := fst (toy_run [str "fmap"; str "jget"; str "map.json"; str "rom"] toy_world) in
  toy_run [str "fmap"; str "jput"; str "map.json"; str "rom"] w' = (w', Ret tt).
Proof.
  destruct (Read ex_flash) as [[f m]|e|] eqn:E; [|vm_compute in E; discriminate|vm_compute in E; discriminate].
  refine (proj1 (jget_jput toy_quote toy_unquote toy_marshal toy_unmarshal _ _ _ _ _ _ _ (str "fmap") (str "map.json") (str "rom")
    toy_world _ ex_flash f m _ _ _ _ E _ _)).
  - intros s _. unfold toy_unquote, toy_quote. f_equal. rewrite !length_app. cbn [length app drop].
    replace (1 + (length s + 1) - 2)%nat with (length s) by lia. apply take_app_length.
  - intros d b. unfold toy_marshal, toy_unmarshal. case_bool_decide; [by intros _; f_equal|done].
  - done.
  - done.
  - reflexivity.
  - vm_compute. reflexivity.
  - assert (f = match Read ex_flash with Ret (f, _) => f | _ => ex_fmap end) as -> by by rewrite E.
    vm_compute. repeat constructor; discriminate.
  - vm_compute. reflexivity.
Defined.
