(* ===== verification/Sort.v ===== *)
(** * Sorting lines ([cmds/sort/sort.go])

    Reading the input files, sorting their lines in either direction and writing the result.
    [sort.Strings] is a merge sort: equal strings cannot be told apart, so any sorting
    algorithm gives the same list. *)

From Stdlib Require Import Strings.String Sorting.Sorted.
From stdpp Require Import sorting.
From S2P Require Export GoIO GoStrings.

(** An open file: what [ioutil.ReadAll] makes of it. *)
Definition handle : Type := bytes + error.

(** [readInput]: all files are opened before any is read; [stdin] is read when no file is named. *)
Fixpoint open_all (os_Open : bytes -> handle + error) (names : list bytes) : outcome error (list handle) :=
  match names with
  | [] => Ret []
  | v :: names =>
      match os_Open v with
      | inl f => fs ← open_all os_Open names; Ret (f :: fs)
      | inr e => Fail e
      end
  end.

Fixpoint read_contents (from : list handle) : outcome error (list bytes) :=
  match from with
  | [] => Ret []
  | f :: from =>
      match f with
      | inl d => ds ← read_contents from; Ret (d :: ds)
      | inr e => Fail e
      end
  end.

Definition join_contents (from : list bytes) : bytes :=
  concat ((fun s => if bool_decide (0 < zlen s) && negb (bool_decide (last s = Some x0a)) then s ++ [x0a] else s) <$> from).

Definition readInput (os_Open : bytes -> handle + error) (stdin : handle) (args : list bytes) : outcome error bytes :=
  from ← (if bool_decide (args = []) then Ret [stdin] else open_all os_Open args);
  contents ← read_contents from;
  Ret (join_contents contents).

Definition sort_Strings (lines : list bytes) : list bytes := merge_sort bytes_le lines.
Definition sort_Reverse (lines : list bytes) : list bytes := merge_sort (flip bytes_le) lines.

Definition sortAlgorithm (reverse : bool) (s : bytes) : bytes :=
  if bool_decide (s = []) then []
  else
    let s := if bool_decide (last s = Some x0a) then take (length s - 1) s else s in
    let lines := Split x0a s in
    let lines := if reverse then sort_Reverse lines else sort_Strings lines in
    Join [x0a] lines ++ [x0a].

(** [writeOutput]: the file written ([None] is the standard output) and its contents. *)
Definition writeOutput (os_Create : bytes -> option error) (outputFile s : bytes) : outcome error (option bytes * bytes) :=
  if bytes_eqb outputFile [] then Ret (None, s)
  else match os_Create outputFile with
       | Some e => Fail e
       | None => Ret (Some outputFile, s)
       end.

Definition sort_main (os_Open : bytes -> handle + error) (os_Create : bytes -> option error) (stdin : handle)
    (reverse : bool) (outputFile : bytes) (args : list bytes) : outcome error (option bytes * bytes) :=
  s ← readInput os_Open stdin args;
  writeOutput os_Create outputFile (sortAlgorithm reverse s).

(** ** What is sorted *)

Lemma last_rest (s t : bytes) : is_line t -> t <> [] -> last (s ++ t) <> Some x0a.
Proof.
  intros Ht Hne. destruct t as [|c t _] using rev_ind; [done|]. rewrite app_assoc, last_snoc. intros [= ->].
  apply Ht. apply elem_of_app. right. by left.
Qed.

(** The lines that are sorted are the lines of the text. *)
Lemma sortAlgorithm_lines r s :
  s <> [] -> sortAlgorithm r s = unlines (if r then sort_Reverse (raw_lines s) else sort_Strings (raw_lines s)).
Proof.
  intros Hs. unfold sortAlgorithm. rewrite bool_decide_eq_false_2 by done.
  assert (Split x0a (if bool_decide (last s = Some x0a) then take (length s - 1) s else s) = raw_lines s /\ raw_lines s <> []) as [-> Hne].
  { destruct (text_view s) as (ls & t & -> & Hls & Ht). rewrite raw_lines_unlines by done.
    destruct (decide (t = [])) as [->|Hne].
    - rewrite app_nil_r in *. destruct (decide (ls = [])) as [->|Hne]; [done|]. rewrite unlines_Join, last_snoc by done.
      rewrite bool_decide_eq_true_2, length_app, Nat.add_sub, take_app_length by done. rewrite Split_Join by done.
      split; [by rewrite app_nil_r|by destruct ls].
    - rewrite raw_lines_last by done. split; [|by destruct ls].
      rewrite bool_decide_eq_false_2 by (by apply last_rest).
      assert (unlines ls ++ t = Join [x0a] (ls ++ [t])) as ->.
      { destruct (decide (ls = [])) as [->|Hls']; [done|]. rewrite Join_snoc, unlines_Join by done. by rewrite <- app_assoc. }
      apply Split_Join; [by destruct ls|]. apply Forall_app. split; [done|by constructor]. }
  rewrite unlines_Join; [done|]. intros E. apply Hne. apply Permutation_nil_r.
  unfold sort_Reverse, sort_Strings in E. destruct r; [|]; rewrite <- E; symmetry; apply merge_sort_Permutation.
Qed.

Lemma raw_lines_join_contents from : raw_lines (join_contents from) = concat (raw_lines <$> from).
Proof.
  unfold join_contents. induction from as [|s from IH]; [done|]. rewrite !fmap_cons. cbn [concat].
  rewrite <- IH. clear IH. set (rest := concat _). clearbody rest.
  destruct (text_view s) as (ls & t & -> & Hls & Ht). rewrite raw_lines_unlines by done.
  destruct (decide (t = [])) as [->|Hne].
  - rewrite !app_nil_r. assert (bool_decide (0 < zlen (unlines ls)) && negb (bool_decide (last (unlines ls) = Some x0a)) = false) as ->.
    { destruct (decide (ls = [])) as [->|Hl]; [done|]. rewrite (bool_decide_eq_true_2 (last _ = _)); [by rewrite andb_false_r|].
      by rewrite unlines_Join, last_snoc. }
    by rewrite raw_lines_unlines.
  - rewrite (bool_decide_eq_false_2 (last _ = _)) by (by apply last_rest). rewrite bool_decide_eq_true_2.
    2: { rewrite zlen_app. pose proof (zlen_nonneg (unlines ls)). destruct t; [done|]. rewrite zlen_cons. pose proof (zlen_nonneg t). lia. }
    cbn [andb negb]. rewrite <- !app_assoc, raw_lines_unlines, (raw_lines_last t) by done.
    cbn [app]. by rewrite raw_lines_cons.
Qed.

Lemma raw_lines_are_lines s : Forall is_line (raw_lines s).
Proof.
  destruct (text_view s) as (ls & t & -> & Hls & Ht). rewrite raw_lines_unlines by done. apply Forall_app. split; [done|].
  destruct (decide (t = [])) as [->|Hne]; [constructor|]. rewrite raw_lines_last by done. by constructor.
Qed.

#[local] Instance flip_bytes_le_total : Total (flip bytes_le).
Proof. intros s t. apply (total bytes_le). Qed.

(** The order of the output. *)
Definition before (reverse : bool) (s t : bytes) : Prop := if reverse then bytes_le t s else bytes_le s t.

Lemma sorted_lines (r : bool) (ls : list bytes) :
  let out := if r then sort_Reverse ls else sort_Strings ls in out ≡ₚ ls /\ Sorted (before r) out.
Proof.
  destruct r; cbn; (split; [apply merge_sort_Permutation|]).
  - apply (Sorted_merge_sort (flip bytes_le)).
  - apply (Sorted_merge_sort bytes_le).
Qed.

(** C36: the output of [sort] consists of the lines of all the input files, each as often as it
    is there, in ascending or descending order, each terminated by a line feed, also when the
    last line of a file is not. *)
Theorem sort_sorts os_Open os_Create stdin reverse outputFile args o out :
  sort_main os_Open os_Create stdin reverse outputFile args = Ret (o, out) ->
  exists fs from ls, (if bool_decide (args = []) then Ret [stdin] else open_all os_Open args) = Ret fs /\
    read_contents fs = Ret from /\
    out = unlines ls /\ ls ≡ₚ concat (raw_lines <$> from) /\ Sorted (before reverse) ls /\ Forall is_line ls.
Proof.
  unfold sort_main, readInput. set (opened := if bool_decide _ then _ else _).
  destruct opened as [fs|e|] eqn:Eo; [|done|done]. unfold mbind, outcome_bind.
  destruct (read_contents fs) as [from|e|] eqn:Er; [|done|done]. intros Hout.
  exists fs, from, (if reverse then sort_Reverse (raw_lines (join_contents from)) else sort_Strings (raw_lines (join_contents from))).
  assert (out = sortAlgorithm reverse (join_contents from)) as ->.
  { unfold writeOutput in Hout. destruct (bytes_eqb outputFile []); [by simplify_eq|]. destruct (os_Create outputFile); by simplify_eq. }
  destruct (sorted_lines reverse (raw_lines (join_contents from))) as [Hp Hs]. split_and!; [done|done| | |done|].
  - destruct (decide (join_contents from = [])) as [E|E]; [|by apply sortAlgorithm_lines]. rewrite E. by destruct reverse.
  - by rewrite Hp, raw_lines_join_contents.
  - rewrite Hp. apply raw_lines_are_lines.
Qed.

Lemma sort_sorts_witness :
  exists ls, sortAlgorithm false (str "b
a
") = unlines ls /\ Sorted (before false) ls.
Proof.
  destruct (sort_sorts (fun _ => inr EOF) (fun _ => None) (inl (str "b
a
")) false [] [] None (str "a
b
") eq_refl) as (fs & from & ls & _ & _ & Hout & _ & Hs & _). exists ls. split; [rewrite <- Hout; reflexivity|exact Hs].
Defined.
