(* ===== verification/Uniq.v ===== *)
(** * Repeated lines ([cmds/uniq/uniq.go])

    The loop of [uniq] over the lines that [ReadBytes] gives, and [main].  The input can be
    read to its end. *)

From Stdlib Require Import Strings.String.
From S2P Require Export GoIO GoStrings.

Record uflags := MkUFlags { uniques : bool; duplicates : bool; count : bool }.

(** What is printed when a line differs from the lines before it. *)
Definition flush (flags : uflags) (cnt : Z) (oline : bytes) : bytes :=
  if count flags then Itoa cnt ++ [x09] ++ oline
  else if (1 <? cnt) && uniques flags then []
  else if (cnt =? 1) && duplicates flags then []
  else oline.

(** What is printed after the loop. *)
Definition finish (flags : uflags) (cnt : Z) (line : bytes) : bytes :=
  if (1 <? cnt) && uniques flags then []
  else if (cnt =? 1) && duplicates flags then []
  else line.

(** The loop; [None] when the fuel has run out. *)
Fixpoint uniq_loop (flags : uflags) (fuel : nat) (br : bytes) (oline : option bytes) (cnt : Z) (isLast : bool)
    (o : bytes) : option bytes :=
  match fuel with
  | O => None
  | S fuel =>
      let '(line, err, br) := ReadBytes x0a br in
      let isLast := isLast || bool_decide (err = Some EOF) in
      match oline with
      | None => uniq_loop flags fuel br (Some line) cnt isLast o
      | Some ol =>
          let '(ol, cnt, o) :=
            if negb (bytes_eqb line ol) then (line, 1, o ++ flush flags cnt ol) else (ol, i64 (cnt + 1), o) in
          if isLast then Some (o ++ finish flags cnt line)
          else uniq_loop flags fuel br (Some ol) cnt isLast o
      end
  end.

(** Every round but the last two takes a byte of the input. *)
Definition uniq (flags : uflags) (f : bytes) : option bytes :=
  uniq_loop flags (length f + 2) f None 1 false [].

(** The output of [main] and whether it stops at a file that cannot be opened. *)
Fixpoint uniq_files (flags : uflags) (os_Open : bytes -> bytes + error) (args : list bytes) (o : bytes)
  : option (bytes * bool) :=
  match args with
  | [] => Some (o, false)
  | fn :: args =>
      match os_Open fn with
      | inr _ => Some (o, true)
      | inl f => match uniq flags f with
                 | None => None
                 | Some o' => uniq_files flags os_Open args (o ++ o')
                 end
      end
  end.

Definition uniq_main (flags : uflags) (os_Open : bytes -> bytes + error) (stdin : bytes) (args : list bytes)
  : option (bytes * bool) :=
  match args with
  | [] => match uniq flags stdin with None => None | Some o => Some (o, false) end
  | _ => uniq_files flags os_Open args []
  end.

(** ** Groups of equal lines *)

Fixpoint groups (ls : list bytes) : list (bytes * Z) :=
  match ls with
  | [] => []
  | l :: ls =>
      match groups ls with
      | (k, n) :: gs => if bool_decide (l = k) then (k, n + 1) :: gs else (l, 1) :: (k, n) :: gs
      | [] => [(l, 1)]
      end
  end.

(** One output line for a group: with its size, or only for the groups that are asked for. *)
Definition print_group (flags : uflags) (g : bytes * Z) : bytes :=
  let '(l, n) := g in
  if count flags then Itoa n ++ [x09] ++ l ++ [x0a]
  else if (uniques flags && (1 <? n)) || (duplicates flags && (n =? 1)) then []
  else l ++ [x0a].

(** Groups with [cnt] more lines equal to [ol] in front. *)
Definition with_group (ol : bytes) (cnt : Z) (gs : list (bytes * Z)) : list (bytes * Z) :=
  match gs with
  | (k, n) :: gs => if bool_decide (ol = k) then (k, n + cnt) :: gs else (ol, cnt) :: (k, n) :: gs
  | [] => [(ol, cnt)]
  end.

Lemma groups_cons l ls : groups (l :: ls) = with_group l 1 (groups ls).
Proof. cbn. by destruct (groups ls) as [|[k n] gs]. Qed.

Lemma groups_head ls k n gs : groups ls = (k, n) :: gs -> 1 <= n.
Proof.
  revert k n gs. induction ls as [|l ls IH]; intros k n gs; [done|]. rewrite groups_cons. unfold with_group.
  destruct (groups ls) as [|[k' n'] gs']; [by intros [= _ <- _]|]. specialize (IH _ _ _ eq_refl).
  case_bool_decide; intros [= _ <- _]; lia.
Qed.

Lemma with_group_more l cnt ls : with_group l (cnt + 1) (groups ls) = with_group l cnt (groups (l :: ls)).
Proof.
  rewrite groups_cons. unfold with_group at 1 3. destruct (groups ls) as [|[k n] gs].
  - cbn. rewrite bool_decide_eq_true_2 by done. do 2 f_equal. lia.
  - case_bool_decide as E; cbn [with_group].
    + subst k. rewrite bool_decide_eq_true_2 by done. do 2 f_equal. lia.
    + rewrite bool_decide_eq_true_2 by done. do 2 f_equal. lia.
Qed.

Lemma with_group_other l k cnt ls : l <> k -> with_group l cnt (groups (k :: ls)) = (l, cnt) :: groups (k :: ls).
Proof.
  intros Hne. rewrite groups_cons. unfold with_group at 2. destruct (groups ls) as [|[k' n] gs]; cbn.
  - by rewrite bool_decide_eq_false_2.
  - case_bool_decide; cbn; by rewrite bool_decide_eq_false_2 by congruence.
Qed.

Lemma flush_group flags cnt l : 1 <= cnt -> flush flags cnt (l ++ [x0a]) = print_group flags (l, cnt).
Proof.
  intros Hc. unfold flush, print_group. destruct (count flags); [done|].
  destruct (uniques flags), (duplicates flags), (Z.ltb_spec 1 cnt), (Z.eqb_spec cnt 1); cbn; (done || lia).
Qed.

Lemma finish_nil flags cnt : finish flags cnt [] = [].
Proof. unfold finish. repeat case_match; done. Qed.

Lemma uniq_loop_ok flags fuel ls ol cnt o :
  (length ls < fuel)%nat -> is_line ol -> Forall is_line ls -> 1 <= cnt -> cnt + Z.of_nat (length ls) < 2 ^ 63 ->
  uniq_loop flags fuel (unlines ls) (Some (ol ++ [x0a])) cnt false o =
  Some (o ++ concat (print_group flags <$> with_group ol cnt (groups ls))).
Proof.
  intros Hf Hol Hls. revert fuel ol cnt o Hf Hol. induction Hls as [|l ls Hl _ IH]; intros fuel ol cnt o Hf Hol Hc Hb;
    (destruct fuel as [|fuel]; [lia|]); cbn [uniq_loop].
  - change (ReadBytes x0a (unlines [])) with (@nil byte, Some EOF, @nil byte). cbn [orb].
    rewrite bool_decide_eq_true_2 by done. unfold bytes_eqb. rewrite bool_decide_eq_false_2 by (by destruct ol). cbn [negb].
    rewrite finish_nil, app_nil_r, flush_group by done. cbn. by rewrite app_nil_r.
  - rewrite unlines_cons, ReadBytes_delim by done. cbn [orb]. rewrite (bool_decide_eq_false_2 (None = Some EOF)) by done.
    cbn [length] in *. unfold bytes_eqb. destruct (decide (l = ol)) as [->|Hne].
    + rewrite bool_decide_eq_true_2 by done. cbn [negb]. rewrite i64_small by lia.
      rewrite IH by (lia || done). by rewrite with_group_more.
    + rewrite bool_decide_eq_false_2 by (intros E; apply app_inj_tail in E; naive_solver). cbn [negb].
      rewrite IH by (lia || done). rewrite with_group_other by done. rewrite flush_group, <- groups_cons by done.
      rewrite fmap_cons. cbn [concat]. by rewrite app_assoc.
Qed.

(** On a text of terminated lines [uniq] prints one line for every group of equal lines
    next to each other: all groups, the groups of one line ([-u]), the groups of several lines
    ([-d]), or all with their sizes ([-c]). *)
Theorem uniq_groups flags ls :
  Forall is_line ls -> zlen ls < 2 ^ 63 ->
  uniq flags (unlines ls) = Some (concat (print_group flags <$> groups ls)).
Proof.
  intros Hls Hn. unfold uniq. destruct ls as [|l ls].
  - by destruct flags as [[] [] []].
  - assert (length (l :: ls) <= length (unlines (l :: ls)))%nat as Hlen.
    { generalize (l :: ls). intros ks. induction ks as [|k ks IH]; [done|]. rewrite unlines_cons, length_app. cbn [length]. lia. }
    apply Forall_cons in Hls as [Hl Hls]. set (fuel := (length (unlines (l :: ls)) + 1)%nat).
    replace (length (unlines (l :: ls)) + 2)%nat with (S fuel) by (unfold fuel; lia). cbn [uniq_loop].
    rewrite unlines_cons, ReadBytes_delim by done. cbn [orb]. rewrite bool_decide_eq_false_2 by done.
    unfold zlen in Hn. cbn [length] in *. rewrite uniq_loop_ok by (done || unfold fuel; lia). by rewrite groups_cons.
Qed.

Lemma uniq_groups_witness :
  uniq (MkUFlags false false true) (unlines [str "a"; str "a"; str "b"]) = Some (unlines [str "2	a"; str "1	b"]).
Proof.
  rewrite (uniq_groups (MkUFlags false false true) [str "a"; str "a"; str "b"]); [reflexivity| |reflexivity].
  repeat apply Forall_cons_2; try apply Forall_nil_2; unfold is_line; vm_compute;
    intros H; repeat (apply elem_of_cons in H as [H|H]; [discriminate|]); by apply elem_of_nil in H.
Defined.

(** ** The last line without line feed *)

(** It gets no count with [-c]; *)
Example uniq_c_last : uniq (MkUFlags false false true) (str "a
b") = Some (str "1	a
b").
Proof. vm_compute. reflexivity. Qed.

(** And it is different from the same line with a line feed. *)
Example uniq_last_differs : uniq (MkUFlags false false false) (str "a
a") = Some (str "a
a").
Proof. vm_compute. reflexivity. Qed.
