(* ===== verification/Comm.v ===== *)
(** * Common lines of two files ([cmds/comm/comm.go])

    The readers, the merging goroutine and the printing of the three columns.  The goroutines
    are connected by channels with one sender and one receiver each, so what is sent on a
    channel does not depend on the schedule: a channel is the list of what is sent. *)

From Stdlib Require Import Strings.String Sorting.Sorted.
From S2P Require Export GoIO GoStrings.

(** [reader]: what it sends for a file; the piece at the end of the file is sent too. *)
Fixpoint reader_loop (fuel : nat) (b : bytes) : option (list bytes) :=
  match fuel with
  | O => None
  | S fuel =>
      let '(s, err, b) := ReadBytes x0a b in
      let l := TrimRight s [x0d; x0a] in
      match err with
      | Some _ => Some [l]
      | None => match reader_loop fuel b with None => None | Some ls => Some (l :: ls) end
      end
  end.

Definition reader (f : bytes) : option (list bytes) := reader_loop (S (length f)) f.

Record out := MkOut { o1 : bytes; o2 : bytes; o3 : bytes }.

(** [outer]: receiving from [c1] and [c2], sending on [c]. *)
Fixpoint outer (c1 : list bytes) : list bytes -> list out :=
  fix go (c2 : list bytes) : list out :=
    match c1, c2 with
    | s1 :: c1', s2 :: c2' =>
        if bytes_ltb s1 s2 then MkOut s1 [] [] :: outer c1' c2
        else if bytes_ltb s2 s1 then MkOut [] s2 [] :: go c2'
        else MkOut [] [] s2 :: outer c1' c2'
    | s1 :: c1', [] => MkOut s1 [] [] :: outer c1' []
    | [], s2 :: c2' => MkOut [] s2 [] :: go c2'
    | [], [] => []
    end.

Record cflags := MkCFlags { s1 : bool; s2 : bool; s3 : bool; help : bool }.

(** The line printed for one [out], if any. *)
Definition print_out (flags : cflags) (x : out) : bytes :=
  let line := (if s1 flags then [] else o1 x) ++ [x09] ++ (if s2 flags then [] else o2 x) ++ [x09] ++
              (if s3 flags then [] else o3 x) in
  if negb (bytes_eqb line [x09; x09]) then TrimRight line [x09] ++ [x0a] else [].

(** [main]: its output; [None] inside [Ret] when the fuel of a reader has run out. *)
Definition comm_main (flags : cflags) (os_Open : bytes -> bytes + error) (args : list bytes)
  : outcome error (option bytes) :=
  match args with
  | [a1; a2] =>
      if help flags then Fail (Errorf "usage")
      else match os_Open a1 with
      | inr _ => Fail (Errorf "Can't open %s: %v")
      | inl f1 =>
          match os_Open a2 with
          | inr _ => Fail (Errorf "Can't open %s: %v")
          | inl f2 =>
              Ret (match reader f1, reader f2 with
                   | Some c1, Some c2 => Some (concat (print_out flags <$> outer c1 c2))
                   | _, _ => None
                   end)
          end
      end
  | _ => Fail (Errorf "usage")
  end.

(** ** What the readers send *)

(** Lines without line feed or carriage return, and not empty. *)
Definition plain_line (l : bytes) : Prop := l <> [] /\ (x0a ∉ l) /\ (x0d ∉ l).

Lemma TrimRight_app s t cut :
  s <> [] -> Forall (fun c => in_set cut c = true) t -> (forall c, c ∈ s -> in_set cut c = false) ->
  TrimRight (s ++ t) cut = s.
Proof.
  intros Hs Ht Hc. unfold TrimRight. rewrite reverse_app.
  assert (Forall (fun c => in_set cut c = true) (reverse t)) as Hr by (by apply Forall_reverse).
  assert (TrimLeft (reverse t ++ reverse s) cut = reverse s) as ->; [|apply reverse_involutive].
  induction Hr as [|c r Hc' _ IH]; cbn [app TrimLeft].
  - destruct (reverse s) as [|c r] eqn:E; [done|]. cbn. rewrite Hc; [done|]. apply elem_of_reverse. rewrite E. by left.
  - by rewrite Hc'.
Qed.

Lemma in_crlf c : in_set [x0d; x0a] c = false <-> c <> x0d /\ c <> x0a.
Proof.
  unfold in_set. cbn. rewrite orb_false_r, orb_false_iff, !byte_eqb_neq. done.
Qed.

Lemma reader_loop_lines fuel ls :
  (length ls < fuel)%nat -> Forall plain_line ls -> reader_loop fuel (unlines ls) = Some (ls ++ [[]]).
Proof.
  intros Hf Hls. revert fuel Hf. induction Hls as [|l ls (Hne & Hlf & Hcr) _ IH]; intros fuel Hf;
    (destruct fuel as [|fuel]; [lia|]); cbn [reader_loop]; [done|].
  rewrite unlines_cons, ReadBytes_delim by done. cbn [length] in Hf. rewrite IH by lia. cbn [app]. do 2 f_equal.
  apply TrimRight_app; [done|by constructor|]. intros c Hc. apply in_crlf. split; intros ->; done.
Qed.

Lemma reader_lines ls : Forall plain_line ls -> reader (unlines ls) = Some (ls ++ [[]]).
Proof.
  intros Hls. apply reader_loop_lines; [|done].
  clear Hls. induction ls as [|l ls IH]; [cbn; lia|]. rewrite unlines_cons, length_app. cbn [length] in *. lia.
Qed.

(** ** The merge *)

(** The line of an output, in whatever column. *)
Definition text (x : out) : bytes := o1 x ++ o2 x ++ o3 x.

Definition occ (s : bytes) (l : list bytes) : nat := length (filter (fun x => x = s) l).

Lemma occ_cons s x l : occ s (x :: l) = ((if decide (x = s) then 1 else 0) + occ s l)%nat.
Proof. unfold occ. rewrite filter_cons. by destruct (decide (x = s)). Qed.

Lemma occ_none s l : (forall x, x ∈ l -> x <> s) -> occ s l = 0%nat.
Proof.
  induction l as [|x l IH]; intros Hl; [done|]. rewrite occ_cons, IH by (intros y Hy; apply Hl; by right).
  rewrite decide_False; [done|]. apply Hl. by left.
Qed.

(** The equations of the merge. *)
Lemma outer_nil_l c2 : outer [] c2 = (fun s => MkOut [] s []) <$> c2.
Proof. induction c2 as [|s c2 IH]; [done|]. rewrite fmap_cons, <- IH. done. Qed.

Lemma outer_nil_r c1 : outer c1 [] = (fun s => MkOut s [] []) <$> c1.
Proof. induction c1 as [|s c1 IH]; [done|]. rewrite fmap_cons, <- IH. done. Qed.

Lemma outer_cons s c1 t c2 :
  outer (s :: c1) (t :: c2) =
  if bytes_ltb s t then MkOut s [] [] :: outer c1 (t :: c2)
  else if bytes_ltb t s then MkOut [] t [] :: outer (s :: c1) c2
  else MkOut [] [] t :: outer c1 c2.
Proof. done. Qed.

(** An induction principle for it. *)
Lemma outer_ind (P : list bytes -> list bytes -> Prop) :
  (forall c2, P [] c2) -> (forall c1, P c1 []) ->
  (forall s c1 t c2, bytes_ltb s t = true -> P c1 (t :: c2) -> P (s :: c1) (t :: c2)) ->
  (forall s c1 t c2, bytes_ltb t s = true -> bytes_ltb s t = false -> P (s :: c1) c2 -> P (s :: c1) (t :: c2)) ->
  (forall s c1 c2, P c1 c2 -> P (s :: c1) (s :: c2)) ->
  forall c1 c2, P c1 c2.
Proof.
  intros H1 H2 H3 H4 H5 c1. induction c1 as [|s c1 IH1]; intros c2; [done|].
  induction c2 as [|t c2 IH2]; [done|]. destruct (bytes_ltb s t) eqn:E1; [by apply H3|].
  destruct (bytes_ltb t s) eqn:E2; [by apply H4|]. assert (s = t) as ->; [|by apply H5].
  unfold bytes_ltb in *. apply negb_false_iff in E1, E2. by apply bytes_leb_antisym.
Qed.

Lemma bytes_ltb_spec s t : bytes_ltb s t = true -> bytes_le s t /\ s <> t.
Proof.
  unfold bytes_ltb, bytes_le. intros E. apply negb_true_iff in E. split; [by apply bytes_leb_total|].
  intros ->. by rewrite bytes_leb_refl in E.
Qed.

Lemma bytes_ltb_irrefl s : bytes_ltb s s = false.
Proof. unfold bytes_ltb. by rewrite bytes_leb_refl. Qed.

(** A line smaller than the first of a sorted list is not in it. *)
Lemma smaller_not_in s t c : bytes_ltb s t = true -> StronglySorted bytes_le (t :: c) -> occ s (t :: c) = 0%nat.
Proof.
  intros [Hle Hne]%bytes_ltb_spec Hs. apply StronglySorted_inv in Hs as [_ Hall]. rewrite Forall_forall in Hall.
  apply occ_none. intros x [->|Hx]%elem_of_cons ->; [done|]. apply Hne. apply (anti_symm bytes_le); [done|by apply Hall].
Qed.

Lemma outer_occ c1 c2 s :
  StronglySorted bytes_le c1 -> StronglySorted bytes_le c2 -> s <> [] ->
  occ s (o3 <$> outer c1 c2) = (occ s c1 `min` occ s c2)%nat /\
  occ s (o1 <$> outer c1 c2) = (occ s c1 - occ s c2)%nat /\
  occ s (o2 <$> outer c1 c2) = (occ s c2 - occ s c1)%nat.
Proof.
  intros H1 H2 Hs. revert H1 H2. pattern c1, c2. apply outer_ind; clear c1 c2; [intros c2|intros c1|..].
  - intros _ _. rewrite outer_nil_l, <- !list_fmap_compose.
    rewrite (occ_none s (compose o3 _ <$> c2)), (occ_none s (compose o1 _ <$> c2)).
    2,3: intros x (y & -> & _)%list_elem_of_fmap; cbn; congruence.
    replace (compose o2 _ <$> c2) with c2 by (symmetry; apply list_fmap_id). cbn. lia.
  - intros _ _. rewrite outer_nil_r, <- !list_fmap_compose.
    rewrite (occ_none s (compose o3 _ <$> c1)), (occ_none s (compose o2 _ <$> c1)).
    2,3: intros x (y & -> & _)%list_elem_of_fmap; cbn; congruence.
    replace (compose o1 _ <$> c1) with c1 by (symmetry; apply list_fmap_id). cbn. lia.
  - intros a c1 b c2 E IH H1 H2. pose proof (smaller_not_in _ _ _ E H2) as Hn. apply StronglySorted_inv in H1 as [H1 _].
    specialize (IH H1 H2). rewrite outer_cons, E, !fmap_cons, !(occ_cons s _ (_ <$> _)), (occ_cons s a c1). cbn [o1 o2 o3].
    rewrite (decide_False (P := [] = s)) by congruence. destruct (decide (a = s)) as [->|]; lia.
  - intros a c1 b c2 E E' IH H1 H2. pose proof (smaller_not_in _ _ _ E H1) as Hn. apply StronglySorted_inv in H2 as [H2 _].
    specialize (IH H1 H2). rewrite outer_cons, E', E, !fmap_cons, !(occ_cons s _ (_ <$> _)), (occ_cons s b c2). cbn [o1 o2 o3].
    rewrite (decide_False (P := [] = s)) by congruence. destruct (decide (b = s)) as [->|]; lia.
  - intros a c1 c2 IH H1 H2. apply StronglySorted_inv in H1 as [H1 _]. apply StronglySorted_inv in H2 as [H2 _].
    specialize (IH H1 H2). rewrite outer_cons, bytes_ltb_irrefl, !fmap_cons, !(occ_cons s _ (_ <$> _)), !(occ_cons s a). cbn [o1 o2 o3].
    rewrite (decide_False (P := [] = s)) by congruence. destruct (decide (a = s)) as [->|]; lia.
Qed.

(** Every line of the output is a line of one of the files. *)
Lemma outer_text c1 c2 x : x ∈ outer c1 c2 -> text x ∈ c1 \/ text x ∈ c2.
Proof.
  revert x. pattern c1, c2. apply outer_ind; clear c1 c2; [intros c2|intros c1|..].
  - intros x. rewrite outer_nil_l. intros (y & -> & Hy)%list_elem_of_fmap. right. unfold text. cbn. by rewrite app_nil_r.
  - intros x. rewrite outer_nil_r. intros (y & -> & Hy)%list_elem_of_fmap. left. unfold text. cbn. by rewrite app_nil_r.
  - intros a c1 b c2 E IH x. rewrite outer_cons, E. intros [->|Hx]%elem_of_cons.
    + left. unfold text. cbn. rewrite app_nil_r. by left.
    + destruct (IH x Hx); [left; by right|by right].
  - intros a c1 b c2 E E' IH x. rewrite outer_cons, E', E. intros [->|Hx]%elem_of_cons.
    + right. unfold text. cbn. rewrite app_nil_r. by left.
    + destruct (IH x Hx); [by left|right; by right].
  - intros a c1 c2 IH x. rewrite outer_cons, bytes_ltb_irrefl. intros [->|Hx]%elem_of_cons.
    + left. by left.
    + destruct (IH x Hx); [left|right]; by right.
Qed.

Lemma outer_sorted c1 c2 :
  StronglySorted bytes_le c1 -> StronglySorted bytes_le c2 -> StronglySorted bytes_le (text <$> outer c1 c2).
Proof.
  pattern c1, c2. apply outer_ind; clear c1 c2; [intros c2|intros c1|..].
  - intros _ H. rewrite outer_nil_l, <- list_fmap_compose.
    replace (compose text _ <$> c2) with c2; [done|]. symmetry. rewrite <- (list_fmap_id c2) at 2.
    apply list_fmap_ext. intros i y _. unfold compose, text. cbn. by rewrite app_nil_r.
  - intros H _. rewrite outer_nil_r, <- list_fmap_compose.
    replace (compose text _ <$> c1) with c1; [done|]. symmetry. rewrite <- (list_fmap_id c1) at 2.
    apply list_fmap_ext. intros i y _. unfold compose, text. cbn. by rewrite app_nil_r.
  - intros a c1 b c2 E IH H1 H2. assert (H1' := H1). apply StronglySorted_inv in H1' as [H1' Ha]. assert (H2' := H2).
    apply StronglySorted_inv in H2' as [_ Hb]. rewrite outer_cons, E, fmap_cons. apply bytes_ltb_spec in E as [Hab _].
    replace (text (MkOut a [] [])) with a by (unfold text; cbn; by rewrite app_nil_r). constructor; [by apply IH|].
    rewrite Forall_forall in Ha, Hb |- *. intros y (x & -> & Hx)%list_elem_of_fmap. apply outer_text in Hx as [Hx|[->|Hx]%elem_of_cons]; [by apply Ha|done|].
    transitivity b; [done|by apply Hb].
  - intros a c1 b c2 E E' IH H1 H2. assert (H1' := H1). apply StronglySorted_inv in H1' as [_ Ha]. assert (H2' := H2).
    apply StronglySorted_inv in H2' as [H2' Hb]. rewrite outer_cons, E', E, fmap_cons. apply bytes_ltb_spec in E as [Hba _].
    replace (text (MkOut [] b [])) with b by (unfold text; cbn; by rewrite app_nil_r). constructor; [by apply IH|].
    rewrite Forall_forall in Ha, Hb |- *. intros y (x & -> & Hx)%list_elem_of_fmap. apply outer_text in Hx as [[->|Hx]%elem_of_cons|Hx]; [done| |by apply Hb].
    transitivity a; [done|by apply Ha].
  - intros a c1 c2 IH H1 H2. apply StronglySorted_inv in H1 as [H1 Ha]. apply StronglySorted_inv in H2 as [H2 Hb].
    rewrite outer_cons, bytes_ltb_irrefl, fmap_cons. constructor; [by apply IH|].
    rewrite Forall_forall in Ha, Hb |- *. intros y (x & -> & Hx)%list_elem_of_fmap. apply outer_text in Hx as [Hx|Hx]; [by apply Ha|by apply Hb].
Qed.

(** ** The empty pieces at the ends of the files *)

Definition blank (x : out) : Prop := x = MkOut [] [] [].

Lemma print_blank flags x : blank x -> print_out flags x = [].
Proof. intros ->. unfold print_out. by destruct (s1 flags), (s2 flags), (s3 flags). Qed.

Lemma ltb_nil_l s : s <> [] -> bytes_ltb [] s = true.
Proof. by destruct s. Qed.

Lemma ltb_nil_r s : bytes_ltb s [] = false.
Proof. done. Qed.

(** What is printed for a list of outputs does not depend on the blank ones. *)
Definition same_print (a b : list out) : Prop :=
  forall flags, concat (print_out flags <$> a) = concat (print_out flags <$> b).

Lemma same_print_cons x a b : same_print a b -> same_print (x :: a) (x :: b).
Proof. intros H flags. rewrite !fmap_cons. cbn [concat]. by rewrite H. Qed.

Lemma same_print_blank a b : same_print a b -> same_print (MkOut [] [] [] :: a) b.
Proof. intros H flags. rewrite fmap_cons. cbn [concat]. by rewrite print_blank, H. Qed.

Lemma same_print_snoc a : same_print (a ++ [MkOut [] [] []]) a.
Proof.
  intros flags. rewrite fmap_app, concat_app. cbn [fmap list_fmap concat]. by rewrite print_blank, !app_nil_r.
Qed.

Lemma outer_trailing c1 c2 :
  Forall (fun s => s <> []) c1 -> Forall (fun s => s <> []) c2 ->
  same_print (outer (c1 ++ [[]]) (c2 ++ [[]])) (outer c1 c2).
Proof.
  pattern c1, c2. apply outer_ind; clear c1 c2; [intros c2|intros c1|..].
  - intros _ H2. destruct c2 as [|t c2]; [by apply same_print_blank|]. apply Forall_cons in H2 as [Ht _].
    cbn [app]. rewrite outer_cons, ltb_nil_l by done. apply same_print_blank.
    change (t :: c2 ++ [[]]) with ((t :: c2) ++ [[]]). rewrite !outer_nil_l, fmap_app. apply same_print_snoc.
  - intros H1 _. destruct c1 as [|s c1]; [by apply same_print_blank|]. apply Forall_cons in H1 as [Hs _].
    cbn [app]. rewrite outer_cons, ltb_nil_r, ltb_nil_l by done. apply same_print_blank.
    change (s :: c1 ++ [[]]) with ((s :: c1) ++ [[]]). rewrite !outer_nil_r, fmap_app. apply same_print_snoc.
  - intros s c1 t c2 E IH H1 H2. apply Forall_cons in H1 as [_ H1]. cbn [app]. rewrite !outer_cons, E. by apply same_print_cons, IH.
  - intros s c1 t c2 E E' IH H1 H2. apply Forall_cons in H2 as [_ H2]. cbn [app]. rewrite !outer_cons, E, E'. by apply same_print_cons, IH.
  - intros s c1 c2 IH H1 H2. apply Forall_cons in H1 as [_ H1]. apply Forall_cons in H2 as [_ H2].
    cbn [app]. rewrite !outer_cons, bytes_ltb_irrefl. by apply same_print_cons, IH.
Qed.

(** For two files of sorted lines [comm] prints a sorted list of lines in three columns:
    a line that is [n] times in the first file and [m] times in the second is [min n m] times
    in the third column, and what is left of it in the column of its file. *)
Theorem comm_columns flags os_Open a1 a2 l1 l2 :
  help flags = false -> os_Open a1 = inl (unlines l1) -> os_Open a2 = inl (unlines l2) ->
  Forall plain_line l1 -> Forall plain_line l2 -> Sorted bytes_le l1 -> Sorted bytes_le l2 ->
  exists outs, comm_main flags os_Open [a1; a2] = Ret (Some (concat (print_out flags <$> outs))) /\
    Sorted bytes_le (text <$> outs) /\
    forall s, s <> [] ->
      occ s (o3 <$> outs) = (occ s l1 `min` occ s l2)%nat /\
      occ s (o1 <$> outs) = (occ s l1 - occ s l2)%nat /\
      occ s (o2 <$> outs) = (occ s l2 - occ s l1)%nat.
Proof.
  intros Hh Ho1 Ho2 Hp1 Hp2 Hs1 Hs2.
  apply (Sorted_StronglySorted (transitivity (R := bytes_le))) in Hs1, Hs2.
  exists (outer l1 l2). split_and!.
  - cbn [comm_main]. rewrite Hh, Ho1, Ho2, !reader_lines by done. do 2 f_equal.
    apply outer_trailing; (eapply Forall_impl; [done|]); by intros s [Hs _].
  - by apply StronglySorted_Sorted, outer_sorted.
  - intros s Hs. by apply outer_occ.
Qed.

Lemma comm_columns_witness :
  exists outs, comm_main (MkCFlags false false false false) (fun a => if bytes_eqb a (str "x") then inl (unlines [str "a"; str "b"]) else inl (unlines [str "b"; str "c"])) [str "x"; str "y"]
      = Ret (Some (concat (print_out (MkCFlags false false false false) <$> outs))) /\ occ (str "b") (o3 <$> outs) = 1%nat.
Proof.
  destruct (comm_columns (MkCFlags false false false false) (fun a => if bytes_eqb a (str "x") then inl (unlines [str "a"; str "b"]) else inl (unlines [str "b"; str "c"]))
    (str "x") (str "y") [str "a"; str "b"] [str "b"; str "c"] eq_refl eq_refl eq_refl) as (outs & E & _ & Hocc).
  1,2: repeat apply Forall_cons_2; try apply Forall_nil_2; (split; [discriminate|]); vm_compute;
    (split; intros H; repeat (apply elem_of_cons in H as [H|H]; [discriminate|]); by apply elem_of_nil in H).
  1,2: repeat constructor.
  exists outs. split; [exact E|]. destruct (Hocc (str "b") ltac:(discriminate)) as [-> _]. reflexivity.
Defined.

(** An empty line is never printed, although it is a line of the first file only. *)
Example comm_empty_line :
  comm_main (MkCFlags false false false false) (fun a => inl (if bytes_eqb a (str "x") then str "
a
" else str "b
")) [str "x"; str "y"] = Ret (Some (str "a
	b
")).
Proof. vm_compute. reflexivity. Qed.
