(* ===== verification/Wc.v ===== *)
(** * Counting lines, words, runes and bytes ([cmds/wc/wc.go])

    The count of an input line by line, the report and [main].  The spaces of [unicode] beyond
    Latin-1 are a parameter; an input can be read to its end. *)

From Stdlib Require Import Strings.String.
From S2P Require Export GoIO GoUtf8.

Record cnt := MkCnt { nline : Z; nword : Z; nrune : Z; nbadr : Z; nchar : Z }.

Definition cnt_add (a b : cnt) : cnt :=
  MkCnt (i64 (nline a + nline b)) (i64 (nword a + nword b)) (i64 (nrune a + nrune b))
        (i64 (nbadr a + nbadr b)) (i64 (nchar a + nchar b)).

(** The loop of [invalidCount]; every round goes on by at least a byte. *)
Fixpoint invalid_loop (fuel : nat) (p : bytes) : Z :=
  match fuel, p with
  | O, _ | _, [] => 0
  | S fuel, b :: p' =>
      if b2z b <? 0x80 then invalid_loop fuel p'
      else
        let size := snd (DecodeRune p) in
        (if (size =? 1)%nat then 1 else 0) + invalid_loop fuel (drop size p)
  end.

Definition invalidCount (p : bytes) : Z := invalid_loop (length p) p.

Section Count.
Context (IsSpace : Z -> bool).

(** [bytes.Fields]: how many maximal runs of runes that are not spaces there are. *)
Fixpoint words_from (inside : bool) (rs : list Z) : Z :=
  match rs with
  | [] => 0
  | r :: rs =>
      if IsSpace r then words_from false rs
      else (if inside then 0 else 1) + words_from true rs
  end.

Definition Fields (s : bytes) : Z := words_from false (runes s).

(** The loop of [count] over the lines; [None] when the fuel has run out. *)
Fixpoint count_loop (fuel : nat) (b : bytes) (c : cnt) : option cnt :=
  match fuel with
  | O => None
  | S fuel =>
      let '(line, err, b) := ReadBytes x0a b in
      let counted := bool_decide (err = Some EOF) in
      let c := MkCnt (if counted then nline c else i64 (nline c + 1)) (i64 (nword c + Fields line))
                     (i64 (nrune c + zlen (runes line))) (i64 (nbadr c + invalidCount line))
                     (i64 (nchar c + zlen line)) in
      if counted then Some c else count_loop fuel b c
  end.

Definition count (inp : bytes) : option cnt := count_loop (S (length inp)) inp (MkCnt 0 0 0 0 0).

Record wflags := MkWFlags { lines : bool; words : bool; runes_ : bool; broken : bool; chars : bool }.

Definition report (flags : wflags) (c : cnt) (fname : bytes) : bytes :=
  let fields :=
    (if lines flags then [Itoa (nline c)] else []) ++ (if words flags then [Itoa (nword c)] else []) ++
    (if runes_ flags then [Itoa (nrune c)] else []) ++ (if broken flags then [Itoa (nbadr c)] else []) ++
    (if chars flags then [Itoa (nchar c)] else []) ++ (if bytes_eqb fname [] then [] else [fname]) in
  Join [x20] fields ++ [x0a].

(** The files of [main]: the output, the totals and whether a file could not be opened. *)
Fixpoint wc_files (flags : wflags) (os_Open : bytes -> bytes + error) (args : list bytes) (o : bytes) (totals : cnt)
  : option (bytes * cnt * bool) :=
  match args with
  | [] => Some (o, totals, false)
  | v :: args =>
      match os_Open v with
      | inr _ => Some (o, totals, true)
      | inl f =>
          match count f with
          | None => None
          | Some c => wc_files flags os_Open args (o ++ report flags c v) (cnt_add totals c)
          end
      end
  end.

Definition wc_main (flags : wflags) (os_Open : bytes -> bytes + error) (stdin : bytes) (args : list bytes)
  : option (bytes * bool) :=
  let flags := if negb (lines flags || words flags || runes_ flags || broken flags || chars flags)
               then MkWFlags true true (runes_ flags) (broken flags) true else flags in
  match args with
  | [] => match count stdin with None => None | Some c => Some (report flags c [], false) end
  | _ =>
      match wc_files flags os_Open args [] (MkCnt 0 0 0 0 0) with
      | None => None
      | Some (o, _, true) => Some (o, true)
      | Some (o, totals, false) => Some (o ++ (if 1 <? zlen args then report flags totals (str "total") else []), false)
      end
  end.
End Count.

(** ** Counting lines one by one *)

Lemma invalid_loop_enough k p : (length p <= k)%nat -> invalid_loop k p = invalidCount p.
Proof.
  unfold invalidCount. remember (length p) as n eqn:E. revert k p E. induction n as [n IH] using lt_wf_ind. intros k p -> Hk.
  destruct p as [|b p]; [by destruct k|]. destruct k as [|k]; [cbn in Hk; lia|]. cbn [length invalid_loop] in *.
  destruct (b2z b <? 0x80).
  - apply (IH (length p)); [lia|done|lia].
  - pose proof (DecodeRune_width (b :: p) ltac:(done)) as Hw. set (w := snd (DecodeRune (b :: p))) in *. f_equal.
    rewrite (IH (length (drop w (b :: p)))), (IH (length (drop w (b :: p))) ltac:(rewrite length_drop; cbn; lia) (length p));
      rewrite ?length_drop; cbn [length]; try done; lia.
Qed.

(** Whether the rune at the head of [p] is broken. *)
Definition bad_head (p : bytes) : Z :=
  match p with
  | [] => 0
  | b :: _ => if b2z b <? 0x80 then 0 else if (snd (DecodeRune p) =? 1)%nat then 1 else 0
  end.

Lemma invalidCount_cons p :
  p <> [] -> invalidCount p = bad_head p + invalidCount (drop (snd (DecodeRune p)) p).
Proof.
  intros Hp. pose proof (DecodeRune_width p Hp) as Hw. unfold invalidCount at 1. destruct p as [|b p]; [done|].
  cbn [length invalid_loop bad_head]. destruct (Z.ltb_spec (b2z b) 0x80).
  - rewrite DecodeRune_ascii by done. done.
  - f_equal. apply invalid_loop_enough. rewrite length_drop. cbn [length] in *. lia.
Qed.

Lemma invalidCount_newline a s : invalidCount (a ++ x0a :: s) = invalidCount a + invalidCount s.
Proof.
  remember (length a) as n eqn:E. revert a E. induction n as [n IH] using lt_wf_ind. intros a ->.
  destruct (decide (a = [])) as [->|Ha].
  - cbn [app]. rewrite invalidCount_cons by done. rewrite DecodeRune_ascii by done. done.
  - pose proof (DecodeRune_width a Ha) as Hw. rewrite invalidCount_cons by (by destruct a).
    assert (bad_head (a ++ x0a :: s) = bad_head a) as ->.
    { pose proof (DecodeRune_newline a s Ha) as Hd. destruct a as [|b a]; [done|]. cbn [app bad_head] in *. by rewrite Hd. }
    rewrite DecodeRune_newline, (invalidCount_cons a), drop_app_le by (done || lia).
    rewrite (IH (length (drop (snd (DecodeRune a)) a))); [lia| |done]. rewrite length_drop. destruct a; [done|]. cbn [length] in *. lia.
Qed.

Section Facts.
Context (IsSpace : Z -> bool) (Hspace : IsSpace 10 = true).

Lemma words_newline b rs ks : words_from IsSpace b (rs ++ 10 :: ks) = words_from IsSpace b rs + words_from IsSpace false ks.
Proof.
  revert b. induction rs as [|r rs IH]; intros b; cbn [app words_from]; [by rewrite Hspace|].
  destruct (IsSpace r); rewrite IH; lia.
Qed.

Lemma Fields_newline a s : Fields IsSpace (a ++ x0a :: s) = Fields IsSpace a + Fields IsSpace s.
Proof. unfold Fields. by rewrite runes_newline, words_newline. Qed.

Lemma line_counts l :
  Fields IsSpace (l ++ [x0a]) = Fields IsSpace l /\ zlen (runes (l ++ [x0a])) = zlen (runes l) + 1 /\
  invalidCount (l ++ [x0a]) = invalidCount l.
Proof.
  rewrite Fields_newline, runes_newline, invalidCount_newline, zlen_app. change (Fields IsSpace []) with 0.
  change (invalidCount []) with 0. change (zlen (10 :: runes [])) with 1. lia.
Qed.

(** The counts of a whole text, as 64-bit numbers, on top of [c]. *)
Definition counts (n w r b k : Z) (ls : list bytes) (t : bytes) : cnt :=
  let s := unlines ls ++ t in
  MkCnt (i64 (n + zlen ls)) (i64 (w + Fields IsSpace s)) (i64 (r + zlen (runes s))) (i64 (b + invalidCount s)) (i64 (k + zlen s)).

Lemma count_loop_ok fuel ls t n w r b k :
  Forall is_line ls -> is_line t -> (length ls < fuel)%nat ->
  count_loop IsSpace fuel (unlines ls ++ t) (MkCnt (i64 n) (i64 w) (i64 r) (i64 b) (i64 k)) = Some (counts n w r b k ls t).
Proof.
  intros Hls Ht. revert fuel n w r b k. induction Hls as [|l ls Hl _ IH]; intros fuel n w r b k Hf;
    (destruct fuel as [|fuel]; [lia|]); cbn [count_loop].
  - change (unlines [] ++ t) with t. rewrite ReadBytes_end by done. rewrite bool_decide_eq_true_2 by done.
    cbn [nline nword nrune nbadr nchar]. rewrite !i64_add_l. unfold counts. change (unlines [] ++ t) with t. by rewrite zlen_nil, Z.add_0_r.
  - rewrite unlines_cons, <- app_assoc. cbn [app]. rewrite ReadBytes_delim by done. rewrite bool_decide_eq_false_2 by done.
    cbn [nline nword nrune nbadr nchar]. rewrite !i64_add_l, IH by (cbn in Hf; lia). unfold counts. f_equal.
    destruct (line_counts l) as (-> & -> & ->). rewrite unlines_cons, <- app_assoc. cbn [app].
    rewrite Fields_newline, runes_newline, invalidCount_newline, !zlen_app, !zlen_cons, !zlen_app, zlen_nil.
    f_equal; f_equal; lia.
Qed.
End Facts.

(** The line feeds of a text. *)
Definition linefeeds (s : bytes) : Z := zlen (filter (fun c => c = x0a) s).

Lemma linefeeds_text ls t : Forall is_line ls -> is_line t -> linefeeds (unlines ls ++ t) = zlen ls.
Proof.
  assert (forall l, is_line l -> filter (fun c => c = x0a) l = []) as Hno.
  { intros l Hl. induction l as [|c l IH]; [done|]. apply not_elem_of_cons in Hl as [Hc Hl].
    rewrite filter_cons_False by congruence. by apply IH. }
  intros Hls Ht. unfold linefeeds. induction Hls as [|l ls Hl _ IH].
  - change (unlines [] ++ t) with t. by rewrite Hno.
  - rewrite unlines_cons, <- app_assoc. cbn [app]. rewrite filter_app, Hno by done. cbn [app].
    rewrite filter_cons_True by done. rewrite !zlen_cons, IH. done.
Qed.

(** Counting line by line gives the counts of the whole input: the line feeds, the words,
    the runes, the broken encodings and the bytes, as 64-bit numbers; no word, rune or broken
    encoding is split or joined at the end of a line. *)
Theorem count_whole IsSpace s :
  IsSpace 10 = true ->
  count IsSpace s = Some (MkCnt (i64 (linefeeds s)) (i64 (Fields IsSpace s)) (i64 (zlen (runes s))) (i64 (invalidCount s)) (i64 (zlen s))).
Proof.
  intros Hs. unfold count. destruct (text_view s) as (ls & t & -> & Hls & Ht).
  rewrite linefeeds_text by done. apply (count_loop_ok IsSpace Hs _ ls t 0 0 0 0 0); [done|done|].
  rewrite length_app. assert (length ls <= length (unlines ls))%nat; [|lia]. clear. induction ls as [|l ls IH]; [done|].
  rewrite unlines_cons, length_app. cbn [length]. lia.
Qed.

Lemma count_whole_witness :
  count (fun r => (r =? 32) || (r =? 10)) (str "two words
and" ++ [xe2; x0a; x62]) = Some (MkCnt 2 4 16 1 16).
Proof.
  rewrite (count_whole (fun r => (r =? 32) || (r =? 10)) (str "two words
and" ++ [xe2; x0a; x62]) eq_refl). vm_compute. reflexivity.
Defined.
