(* ===== verification/Cp.v ===== *)
(** * Copying files ([cmds/cp/cp.go])

    [copyOneFile]: the workers that copy a file block by block, the goroutine that hands out the
    offsets and the collection of the results, as a step relation; and the sequential part
    ([copyFile], [copyDir], [createDir], [cp]) over an operating system that is a parameter; the
    messages of [-v] are left out. *)

From Stdlib Require Import Strings.String.
From S2P Require Export GoIO GoPath GoBinary.

Definition buffSize : Z := 8192.

(** ** The parallel copy of one file *)

(** A worker: receiving an offset; reading at [o] into [bp], which has [bl] bytes, with [l] bytes
    left of its block; writing [nb] at [o]; returned with the value it sent on [fail].  [bp] is
    [buf[n:]] for the count [n] of the last write only, so after two short reads [bl] would no
    longer be [l]. *)
Inductive worker :=
| Wait
| Reading (o l bl : Z)
| Writing (o l : Z) (nb : bytes)
| Done (err : option error).

(** [off]: the next offset of [nextOff]; [stale]: workers of an earlier copy that are still
    receiving from [offchan]; [fail_q]: the channel [fail]; [got]: how many results were
    received; [ret]: what [copyOneFile] returned. *)
Record state := MkState {
  workers : list worker; off : Z; stale : nat; dst : bytes;
  fail_q : list (option error); got : nat; ret : option (option error)
}.

(** [WriteAt(b, o)] on a file: it grows, with zeros in a gap. *)
Definition WriteAt (d : bytes) (o : Z) (b : bytes) : bytes :=
  let o := Z.to_nat o in take o d ++ replicate (o - length d) x00 ++ b ++ drop (o + length b) d.

Section Copy.
(** The source file; where reading it fails; what happens to a write.  An offset is handed to one worker only, so
    that it is read and written at most once, and the error is a function of it. *)
Context (src : bytes) (read_err write_err : Z -> option error) (nwork : nat).

(** [zerochan <- 0] and the start of the workers; the destination is truncated. *)
Definition init (stale : nat) : state := MkState (replicate nwork Wait) 0 stale [] [] 0 None.

Inductive step : state -> state -> Prop :=
| s_recv l1 l2 o st d q g r :
    step (MkState (l1 ++ Wait :: l2) o st d q g r)
         (MkState (l1 ++ Reading o buffSize buffSize :: l2) (o + buffSize) st d q g r)
| s_steal ws o st d q g r :
    step (MkState ws o (S st) d q g r) (MkState ws (o + buffSize) st d q g r)
| s_read_err l1 l2 p l bl e o st d q g r :
    read_err p = Some e ->
    step (MkState (l1 ++ Reading p l bl :: l2) o st d q g r)
         (MkState (l1 ++ Done (Some (Errorf "reading %s at %v: %v")) :: l2) o st d
            (q ++ [Some (Errorf "reading %s at %v: %v")]) g r)
| s_eof l1 l2 p l bl o st d q g r :
    read_err p = None -> fst (ReadAt src p (Z.to_nat bl)) = [] ->
    step (MkState (l1 ++ Reading p l bl :: l2) o st d q g r)
         (MkState (l1 ++ Done None :: l2) o st d (q ++ [None]) g r)
| s_read l1 l2 p l bl nb o st d q g r :
    read_err p = None -> fst (ReadAt src p (Z.to_nat bl)) = nb -> nb <> [] ->
    step (MkState (l1 ++ Reading p l bl :: l2) o st d q g r)
         (MkState (l1 ++ Writing p l nb :: l2) o st d q g r)
| s_write_err l1 l2 p l nb k e o st d q g r :
    write_err p = Some e ->
    step (MkState (l1 ++ Writing p l nb :: l2) o st d q g r)
         (MkState (l1 ++ Done (Some (Errorf "writing %s: %v")) :: l2) o st
            (if bool_decide (take k nb = []) then d else WriteAt d p (take k nb)) (q ++ [Some (Errorf "writing %s: %v")]) g r)
| s_write l1 l2 p l nb o st d q g r :
    write_err p = None ->
    step (MkState (l1 ++ Writing p l nb :: l2) o st d q g r)
         (MkState (l1 ++ (if l - zlen nb =? 0 then Wait else Reading (p + zlen nb) (l - zlen nb) (buffSize - zlen nb)) :: l2) o st
            (WriteAt d p nb) q g r)
| s_collect ws o st d q g :
    (g < nwork)%nat ->
    step (MkState ws o st d (None :: q) g None) (MkState ws o st d q (S g) None)
| s_fail ws o st d e q g :
    (g < nwork)%nat ->
    step (MkState ws o st d (Some e :: q) g None) (MkState ws o st d q g (Some (Some e)))
| s_return ws o st d q :
    step (MkState ws o st d q nwork None) (MkState ws o st d q nwork (Some None)).

Definition returned (s : state) : Prop := ret s <> None.
End Copy.

(** ** The files to copy *)

(** What [Lstat] and [Stat] tell. *)
Record finfo := MkInfo { fi_mode : Z; fi_dir : bool; fi_symlink : bool; fi_dev : Z; fi_ino : Z }.

Definition sameFile (a b : finfo) : bool := (fi_dev a =? fi_dev b) && (fi_ino a =? fi_ino b).

Record cpflags := MkCpFlags { recursive : bool; ask : bool; force : bool; verbose : bool; symlink : bool }.

(** The operating system, with states [OS]; [os_Copy] is the parallel copy of the contents. *)
Record os_ops (OS : Type) := {
  os_Lstat : bytes -> OS -> finfo + error;
  os_Stat : bytes -> OS -> finfo + error;
  os_IsNotExist : error -> bool;
  os_EvalSymlinks : bytes -> OS -> bytes + error;
  os_Symlink : bytes -> bytes -> OS -> OS * option error;
  os_Open : bytes -> OS -> option error;
  os_OpenFile : bytes -> Z -> OS -> OS * option error;
  os_Mkdir : bytes -> Z -> OS -> OS * option error;
  os_ReadDir : bytes -> OS -> list bytes + error;
  os_Copy : bytes -> bytes -> OS -> OS * option error
}.
Arguments os_Lstat {OS}. Arguments os_Stat {OS}. Arguments os_IsNotExist {OS}. Arguments os_EvalSymlinks {OS}.
Arguments os_Symlink {OS}. Arguments os_Open {OS}. Arguments os_OpenFile {OS}. Arguments os_Mkdir {OS}.
Arguments os_ReadDir {OS}. Arguments os_Copy {OS}.

(** The state of the program: the operating system and the standard input. *)
Definition world (OS : Type) : Type := OS * bytes.

Section Files.
Context {OS : Type} (os : os_ops OS) (flags : cpflags).

Definition call (f : OS -> OS * option error) : M (world OS) unit := fun '(st, inp) =>
  let '(st, e) := f st in ((st, inp), match e with None => Ret tt | Some e => Fail e end).

Definition ask_os {A} (f : OS -> A) : M (world OS) A := fun '(st, inp) => ((st, inp), Ret (f st)).

(** The error of a call with another message. *)
Definition wrap {A} (msg : string) (m : M (world OS) A) : M (world OS) A := fun w =>
  match m w with (w, Fail _) => (w, Fail (Errorf msg)) | r => r end.

Definition promptOverwrite : M (world OS) bool := fun '(st, inp) =>
  let '(answer, err, inp) := ReadBytes x0a inp in
  match err with
  | Some e => ((st, inp), Fail e)
  | None =>
      match answer with
      | [] => ((st, inp), Panic)
      | c :: _ => ((st, inp), Ret (byte_eqb c x79 || byte_eqb c x59))
      end
  end.

Definition createDir (src dst : bytes) : M (world OS) unit :=
  dstInfo ← ask_os (os_Stat os dst);
  match dstInfo with
  | inl i => if negb (fi_dir i) then raise (Errorf "can't overwrite non-dir %q with dir %q") else mret tt
  | inr e =>
      if negb (os_IsNotExist os e) then raise e
      else
        srcInfo ← ask_os (os_Stat os src);
        match srcInfo with
        | inr e => raise e
        | inl i => call (os_Mkdir os dst (fi_mode i))
        end
  end.

(** [copyDir], with [copyFile] for what is in the directory; the errors of the files are dropped. *)
Section Dir.
Context (copyFile : bytes -> bytes -> bool -> world OS -> option (world OS * outcome error unit)).

Fixpoint copy_entries (src dst : bytes) (files : list bytes) (w : world OS) : option (world OS * outcome error unit) :=
  match files with
  | [] => Some (w, Ret tt)
  | fname :: files =>
      match copyFile (PathJoin [src; fname]) (PathJoin [dst; fname]) false w with
      | None => None
      | Some (w, Panic) => Some (w, Panic)
      | Some (w, _) => copy_entries src dst files w
      end
  end.

Definition copyDir (src dst : bytes) (w : world OS) : option (world OS * outcome error unit) :=
  match createDir src dst w with
  | (w, Ret _) =>
      match ask_os (os_ReadDir os src) w with
      | (w, Ret (inl files)) => copy_entries src dst files w
      | (w, _) => Some (w, Fail (Errorf "can't list files from %q: %q"))
      end
  | (w, r) => Some (w, r)
  end.
End Dir.

(** [copyFile]; [None] when the fuel, one per level of directories, has run out. *)
Fixpoint copyFile (fuel : nat) (src dst : bytes) (todir : bool) (w : world OS) : option (world OS * outcome error unit) :=
  let dst := if todir then PathJoin [dst; Base src] else dst in
  match ask_os (os_Lstat os src) w with
  | (w, Ret (inr _)) => Some (w, Fail (Errorf "can't stat %v: %v"))
  | (w, Ret (inl srcb)) =>
      if symlink flags && fi_symlink srcb then
        Some ((linkPath ← ask_os (os_EvalSymlinks os src);
               match linkPath with
               | inr _ => raise (Errorf "can't eval symlink %v: %v")
               | inl p => call (os_Symlink os p dst)
               end) w)
      else if fi_dir srcb then
        if recursive flags then
          match fuel with
          | O => None
          | S fuel => copyDir (copyFile fuel) src dst w
          end
        else Some (w, Fail (Errorf "%q is a directory, try use recursive option"))
      else
        Some ((dstb ← ask_os (os_Stat os dst);
               overwrite ← (match dstb with
                 | inr e => if os_IsNotExist os e then mret true else lift Panic
                 | inl dstb =>
                     if sameFile srcb dstb then raise (Errorf "%q and %q are the same file")
                     else if ask flags && negb (force flags) then promptOverwrite else mret true
                 end);
               if negb overwrite then mret tt
               else
                 let mode := Z.land (fi_mode srcb) 0x1ff in
                 s ← ask_os (os_Open os src);
                 match s with
                 | Some _ => raise (Errorf "can't open %q: %v")
                 | None =>
                     wrap "can't create %q: %v" (call (os_OpenFile os dst mode)) ;;
                     call (os_Copy os src dst)
                 end) w)
  | (w, _) => Some (w, Panic)
  end.

(** [cp]: the copies in order, the errors logged, and what it returns. *)
Fixpoint copy_each (fuel : nat) (from : list bytes) (to : bytes) (todir : bool) (w : world OS) (logged : list error)
  : option (world OS * outcome error (list error)) :=
  match from with
  | [] => Some (w, Ret logged)
  | file :: from =>
      match copyFile fuel file to todir w with
      | None => None
      | Some (w, Ret _) => copy_each fuel from to todir w logged
      | Some (w, Fail e) => copy_each fuel from to todir w (logged ++ [e])
      | Some (w, Panic) => Some (w, Panic)
      end
  end.

(** [log.Fatalf] is [Fail]; otherwise the errors logged and the error returned, which is the
    error of the first [Stat], not the one of a copy. *)
Definition cp (fuel : nat) (args : list bytes) (w : world OS) : option (world OS * outcome error (list error * option error)) :=
  match last args with
  | None => Some (w, Panic)
  | Some to =>
      let from := take (length args - 1) args in
      let toStat := os_Stat os to (fst w) in
      let todir := match toStat with inl i => fi_dir i | inr _ => false end in
      if (2 <? zlen args) && negb todir then Some (w, Fail (Errorf "is not a directory: %s"))
      else
        match copy_each fuel from to todir w [] with
        | None => None
        | Some (w, Ret logged) => Some (w, Ret (logged, match toStat with inl _ => None | inr e => Some e end))
        | Some (w, Fail e) => Some (w, Fail e)
        | Some (w, Panic) => Some (w, Panic)
        end
  end.
End Files.

(** [cp a b] for a regular file [a] and a name [b] that is not there: the copy succeeds, nothing
    is logged, and the error that there is no [b] is returned, so the exit status is 1; and a
    copy that fails into an existing file returns no error. *)
Definition toy_os (exists_b copy_fails : bool) : os_ops (list bytes) := {|
  os_Lstat := fun _ _ => inl (MkInfo 0x1a4 false false 1 1);
  os_Stat := fun p _ => if bytes_eqb p (str "a") then inl (MkInfo 0x1a4 false false 1 1)
                        else if exists_b then inl (MkInfo 0x1a4 false false 1 2) else inr (Errno 2);
  os_IsNotExist := fun e => bool_decide (e = Errno 2);
  os_EvalSymlinks := fun p _ => inl p;
  os_Symlink := fun _ _ st => (st, None);
  os_Open := fun _ _ => None;
  os_OpenFile := fun p _ st => (p :: st, None);
  os_Mkdir := fun p _ st => (p :: st, None);
  os_ReadDir := fun _ _ => inl [];
  os_Copy := fun _ _ st => (st, if copy_fails then Some (Errno 5) else None)
|}.

Example cp_returns_stat_error :
  cp (toy_os false false) (MkCpFlags false false false false false) 1 [str "a"; str "b"] ([], []) =
    Some (([str "b"], []), Ret ([], Some (Errno 2))) /\
  cp (toy_os true true) (MkCpFlags false false false false false) 1 [str "a"; str "b"] ([], []) =
    Some (([str "b"], []), Ret ([Errno 5], None)).
Proof. split; vm_compute; reflexivity. Qed.

(** ** Writes *)

Lemma WriteAt_in d o b p :
  (o <= p < o + length b)%nat -> WriteAt d (Z.of_nat o) b !! p = b !! (p - o)%nat.
Proof.
  intros Hp. unfold WriteAt. rewrite Nat2Z.id, app_assoc. rewrite lookup_app_r by (rewrite length_app, length_take, length_replicate; lia).
  rewrite lookup_app_l by (rewrite length_app, length_take, length_replicate; lia).
  f_equal. rewrite length_app, length_take, length_replicate. lia.
Qed.

Lemma WriteAt_out d o b p x :
  (p < o \/ o + length b <= p)%nat -> d !! p = Some x -> WriteAt d (Z.of_nat o) b !! p = Some x.
Proof.
  intros Hp Hx. pose proof (lookup_lt_Some _ _ _ Hx) as Hl. unfold WriteAt. rewrite Nat2Z.id. destruct Hp as [Hp|Hp].
  - rewrite lookup_app_l by (rewrite length_take; lia). by rewrite lookup_take_lt.
  - replace (o - length d)%nat with 0%nat by lia. cbn [replicate app].
    rewrite lookup_app_r by (rewrite length_take; lia). rewrite length_take, Nat.min_l by lia.
    rewrite lookup_app_r by lia. rewrite lookup_drop. rewrite <- Hx. f_equal. lia.
Qed.

Lemma length_WriteAt d o b n :
  (length d <= n)%nat -> (o + length b <= n)%nat -> (length (WriteAt d (Z.of_nat o) b) <= n)%nat.
Proof.
  intros Hd Hb. unfold WriteAt. rewrite Nat2Z.id, !length_app, length_take, length_replicate, length_drop. lia.
Qed.

Section Facts.
Context (src : bytes) (read_err write_err : Z -> option error) (nwork : nat).
#[local] Abbreviation step := (step src read_err write_err nwork).

(** The bytes a worker is responsible for. *)
Definition holds (p : Z) (w : worker) : Prop :=
  match w with Reading o l _ | Writing o l _ => o <= p < o + l | _ => False end.

Definition failed (w : worker) : Prop := match w with Done (Some _) => True | _ => False end.

Definition result (w : worker) : option (option error) := match w with Done e => Some e | _ => None end.

Definition wf_worker (off : Z) (w : worker) : Prop :=
  match w with
  | Wait => True
  | Reading o l bl => 0 <= o /\ 0 < l <= buffSize /\ o + l <= off /\ 0 < bl /\ (bl = l \/ zlen src <= o)
  | Writing o l nb =>
      0 <= o /\ 0 < l <= buffSize /\ o + l <= off /\ nb = take (Z.to_nat l) (drop (Z.to_nat o) src) /\ nb <> []
  | Done None => zlen src <= off
  | Done (Some _) => True
  end.

Record inv (s : state) : Prop := {
  i_stale : stale s = 0%nat;
  i_off : 0 <= off s;
  i_workers : Forall (wf_worker (off s)) (workers s);
  i_number : length (workers s) = nwork;
  i_dst : (length (dst s) <= length src)%nat;
  (** Every byte below [off] is copied, or a worker has it, or a worker failed. *)
  i_copied : forall p, (p < length src)%nat -> Z.of_nat p < off s ->
    dst s !! p = src !! p \/ Exists (holds (Z.of_nat p)) (workers s) \/ Exists failed (workers s);
  i_results : ret s = None -> omap result (workers s) ≡ₚ replicate (got s) None ++ fail_q s;
  i_got : (got s <= nwork)%nat;
  i_return : ret s = Some None -> Forall (fun w => w = Done None) (workers s)
}.

Lemma cp_inv_init : inv (init nwork 0).
Proof.
  split; cbn; try done; try lia.
  - by apply Forall_replicate.
  - by rewrite length_replicate.
  - intros _. clear. induction nwork as [|n IH]; [done|]. exact IH.
Qed.

Lemma wf_worker_mono a b w : a <= b -> wf_worker a w -> wf_worker b w.
Proof. intros Hab. destruct w as [|o l bl|o l nb|[e|]]; cbn; try done; lia || naive_solver lia. Qed.

(** Replacing a worker. *)
Lemma Exists_replace {P : worker -> Prop} l1 w w' l2 :
  (P w -> P w') -> Exists P (l1 ++ w :: l2) -> Exists P (l1 ++ w' :: l2).
Proof. intros H. rewrite !Exists_app, !Exists_cons. naive_solver. Qed.

Lemma Forall_replace {P : worker -> Prop} l1 w w' l2 :
  P w' -> Forall P (l1 ++ w :: l2) -> Forall P (l1 ++ w' :: l2).
Proof. intros H. rewrite !Forall_app, !Forall_cons. naive_solver. Qed.

Lemma results_done l1 w l2 e q g :
  result w = None -> omap result (l1 ++ w :: l2) ≡ₚ replicate g None ++ q ->
  omap result (l1 ++ Done e :: l2) ≡ₚ replicate g None ++ q ++ [e].
Proof.
  intros Hw. rewrite !omap_app. cbn. rewrite Hw. intros E. rewrite app_assoc, <- E. rewrite <- app_assoc.
  rewrite (Permutation_app_comm (omap result l2) [e]). done.
Qed.

Lemma results_same l1 w w' l2 :
  result w = None -> result w' = None -> omap result (l1 ++ w' :: l2) = omap result (l1 ++ w :: l2).
Proof. intros H1 H2. rewrite !omap_app. cbn. by rewrite H1, H2. Qed.

(** A worker that is not done: the copy has not returned without error. *)
Lemma not_returned (s : state) l1 w l2 :
  inv s -> workers s = l1 ++ w :: l2 -> result w = None -> ret s <> Some None.
Proof.
  intros Hi E Hw Hr. pose proof (i_return _ Hi Hr) as Hd. rewrite E, Forall_app, Forall_cons in Hd.
  destruct Hd as (_ & -> & _). done.
Qed.

Lemma inv_move l1 w w' l2 o o' d q g r :
  inv (MkState (l1 ++ w :: l2) o 0 d q g r) -> result w = None -> result w' = None -> o <= o' ->
  wf_worker o' w' -> (forall p, holds p w -> holds p w') -> (forall p, o <= p < o' -> holds p w') ->
  inv (MkState (l1 ++ w' :: l2) o' 0 d q g r).
Proof.
  intros Hi Hw Hw' Ho Hwf Hh Hnew. pose proof (not_returned _ _ _ _ Hi eq_refl Hw) as Hnr.
  destruct Hi as [_ Hoff Hws Hn Hd Hc Hr Hg _]. cbn in *. split; cbn; try done; try lia.
  - apply (Forall_replace l1 w); [done|]. eapply Forall_impl; [done|]. intros x. by apply wf_worker_mono.
  - rewrite length_app in *. done.
  - intros p Hp Hpo. destruct (Z.lt_ge_cases (Z.of_nat p) o) as [Hlt|Hge].
    + destruct (Hc p Hp Hlt) as [?|[He|He]]; [by left|right; left|right; right].
      * eapply Exists_replace; [|done]. apply Hh.
      * eapply Exists_replace; [|done]. by destruct w as [| | |[|]].
    + right. left. rewrite Exists_app, Exists_cons. right. left. by apply Hnew.
  - intros E. rewrite (results_same l1 w w' l2) by done. by apply Hr.
Qed.

Lemma inv_done l1 w l2 o d d' q g r e :
  inv (MkState (l1 ++ w :: l2) o 0 d q g r) -> result w = None -> wf_worker o (Done e) ->
  (length d' <= length src)%nat ->
  (forall p, (p < length src)%nat -> e = None -> d' = d /\ ~ holds (Z.of_nat p) w) ->
  inv (MkState (l1 ++ Done e :: l2) o 0 d' (q ++ [e]) g r).
Proof.
  intros Hi Hw Hwf Hd' Hc'. pose proof (not_returned _ _ _ _ Hi eq_refl Hw) as Hnr.
  destruct Hi as [_ Hoff Hws Hn Hd Hc Hr Hg _]. cbn in *. split; cbn; try done; try lia.
  - by apply (Forall_replace l1 w).
  - rewrite length_app in *. done.
  - intros p Hp Hpo. destruct e as [e|].
    + right. right. rewrite Exists_app, Exists_cons. by right; left.
    + destruct (Hc' p Hp eq_refl) as [-> Hh]. destruct (Hc p Hp Hpo) as [?|[He|He]]; [by left|right; left|right; right].
      * eapply Exists_replace; [|done]. done.
      * eapply Exists_replace; [|done]. by destruct w as [| | |[|]].
  - intros E. apply (results_done l1 w); [done|]. by apply Hr.
Qed.

(** What a read of a block returns. *)
Lemma ReadAt_block p l : fst (ReadAt src p (Z.to_nat l)) = take (Z.to_nat l) (drop (Z.to_nat p) src).
Proof. done. Qed.

Lemma cp_inv_write l1 l2 p l nb o d q g r :
  inv (MkState (l1 ++ Writing p l nb :: l2) o 0 d q g r) ->
  inv (MkState (l1 ++ (if l - zlen nb =? 0 then Wait else Reading (p + zlen nb) (l - zlen nb) (buffSize - zlen nb)) :: l2) o 0 (WriteAt d p nb) q g r).
Proof.
  intros Hi. pose proof (not_returned _ _ _ _ Hi eq_refl eq_refl) as Hnr.
  destruct Hi as [_ Hoff Hws Hn Hd Hc Hr Hg _]. cbn in *. assert (Hws' := Hws). rewrite Forall_app, Forall_cons in Hws'.
  destruct Hws' as (_ & (Hp0 & Hl & Hpl & Hnb & Hne) & _).
  assert (0 < zlen nb) as Hpos by (destruct nb; [done|]; rewrite zlen_cons; pose proof (zlen_nonneg nb); lia).
  assert (zlen nb <= l /\ (Z.to_nat p + length nb <= length src)%nat /\ (zlen nb < l -> zlen src <= p + zlen nb)) as (Hnl & Hin & Hend).
  { subst nb. unfold zlen in *. rewrite length_take, length_drop in *. lia. }
  set (w' := if l - zlen nb =? 0 then Wait else _). assert (result w' = None) as Hw' by (unfold w'; by destruct (_ =? _)).
  replace (WriteAt d p nb) with (WriteAt d (Z.of_nat (Z.to_nat p)) nb) by (by rewrite Z2Nat.id).
  split; cbn; try done; try lia.
  - apply (Forall_replace l1 (Writing p l nb)); [|done]. unfold w'. destruct (Z.eqb_spec (l - zlen nb) 0); cbn; lia.
  - rewrite length_app in *. done.
  - apply length_WriteAt; lia.
  - intros k Hk Hko. destruct (decide (Z.to_nat p <= k < Z.to_nat p + length nb)%nat) as [Hr1|Hr1].
    + left. rewrite WriteAt_in by done. subst nb. rewrite length_take, length_drop in Hr1.
      rewrite lookup_take_lt by lia. rewrite lookup_drop. f_equal. lia.
    + destruct (Hc k Hk Hko) as [E|[He|He]].
      * left. rewrite <- E. destruct (lookup_lt_is_Some_2 src k Hk) as [x Hx]. rewrite Hx in E.
        rewrite E. apply WriteAt_out; [lia|done].
      * right. left. eapply Exists_replace; [|done]. cbn. intros Hh. unfold zlen in *.
        unfold w'. destruct (Z.eqb_spec (l - Z.of_nat (length nb)) 0); cbn; lia.
      * right. right. eapply Exists_replace; [|done]. done.
  - intros E. rewrite (results_same l1 (Writing p l nb) w' l2) by done. by apply Hr.
Qed.

(** What is left to do. *)
Definition work_worker (w : worker) : nat :=
  match w with
  | Wait => 6
  | Reading o _ _ => if o <? zlen src then 9 else 3
  | Writing _ _ _ => 8
  | Done _ => 0
  end.

Definition work (s : state) : nat :=
  10 * Z.to_nat (zlen src - off s) + sum_list (work_worker <$> workers s) + stale s + length (fail_q s) +
  match ret s with Some _ => 0 | None => 1 end.

Lemma work_replace l1 w w' l2 :
  (sum_list (work_worker <$> l1 ++ w' :: l2) + work_worker w = sum_list (work_worker <$> l1 ++ w :: l2) + work_worker w')%nat.
Proof. rewrite !fmap_app, !fmap_cons, !sum_list_with_app. cbn [sum_list_with]. unfold id. lia. Qed.

Lemma omap_result_le ws : (length (omap result ws) <= length ws)%nat.
Proof. induction ws as [|w ws IH]; [done|]. cbn. destruct (result w); cbn; lia. Qed.

Lemma all_done ws :
  (forall e, e ∈ omap result ws -> e = None) -> length (omap result ws) = length ws -> Forall (fun w => w = Done None) ws.
Proof.
  induction ws as [|w ws IH]; intros He Hl; [constructor|]. pose proof (omap_result_le ws). cbn in He, Hl.
  destruct w as [| | |e]; cbn in He, Hl; try lia. constructor.
  - f_equal. apply He. by left.
  - apply IH; [intros e' He'; apply He; by right|lia].
Qed.

(** A read that returns something is before the end of the file. *)
Lemma read_before_end p l : 0 <= p -> take (Z.to_nat l) (drop (Z.to_nat p) src) <> [] -> p < zlen src.
Proof.
  intros Hp Hne. destruct (Z.lt_ge_cases p (zlen src)); [done|]. destruct Hne.
  rewrite drop_ge by (unfold zlen in *; lia). by rewrite take_nil.
Qed.

Lemma inv_collect ws o d q g :
  (g < nwork)%nat -> inv (MkState ws o 0 d (None :: q) g None) -> inv (MkState ws o 0 d q (S g) None).
Proof.
  intros Hg [_ ? ? ? ? ? Hr _ _]. cbn in *. split; cbn; try done.
  intros E. rewrite (Hr E). by rewrite <- Permutation_middle.
Qed.

Lemma inv_return ws o d q : inv (MkState ws o 0 d q nwork None) -> inv (MkState ws o 0 d q nwork (Some None)).
Proof.
  intros [_ ? ? Hn ? ? Hr _ _]. cbn in *. split; cbn; try done. intros _. specialize (Hr eq_refl).
  pose proof (Permutation_length Hr) as Hl. rewrite length_app, length_replicate in Hl. pose proof (omap_result_le ws).
  assert (q = []) as -> by (destruct q; [done|cbn in Hl; lia]). apply all_done; [|cbn in Hl; lia].
  intros e He. rewrite Hr, app_nil_r in He. by apply elem_of_replicate in He as [-> _].
Qed.

Lemma cp_inv_step s s' : step s s' -> inv s -> inv s'.
Proof.
  intros Hs Hi. pose proof (i_stale _ Hi) as Hst. pose proof (i_workers _ Hi) as Hws. pose proof (i_dst _ Hi) as Hd.
  destruct Hs as [l1 l2 o st d q g r|ws o st d q g r|l1 l2 p l bl e o st d q g r Hre|l1 l2 p l bl o st d q g r Hre Hnb
    |l1 l2 p l bl nb o st d q g r Hre Hnb Hne|l1 l2 p l nb k e o st d q g r Hwe|l1 l2 p l nb o st d q g r Hwe
    |ws o st d q g Hg|ws o st d e q g Hg|ws o st d q]; cbn in Hst, Hws, Hd; subst; try done;
    try (rewrite Forall_app, Forall_cons in Hws; destruct Hws as (_ & Hwf & _); cbn in Hwf).
  - pose proof (i_off _ Hi) as Ho. cbn in Ho. eapply inv_move; try done; unfold buffSize in *; cbn; unfold buffSize; lia.
  - by eapply inv_done.
  - rewrite ReadAt_block in Hnb. apply (f_equal length) in Hnb. rewrite length_take, length_drop in Hnb. cbn in Hnb.
    eapply inv_done; try done; cbn; [unfold zlen; lia|]. intros k Hk _. split; [done|]. lia.
  - rewrite ReadAt_block in *. pose proof (read_before_end p bl ltac:(lia) Hne).
    assert (bl = l) as -> by lia. eapply inv_move; try done; cbn; lia || naive_solver.
  - eapply inv_done; try done. case_bool_decide; [done|]. destruct Hwf as (Hp & _ & _ & Hnb & _).
    rewrite <- (Z2Nat.id p) by done. apply length_WriteAt; [done|]. subst nb.
    rewrite take_take, length_take, length_drop. assert (length (take k (take (Z.to_nat l) (drop (Z.to_nat p) src))) <> 0%nat) as Hk.
    { intros E. by apply nil_length_inv in E. }
    rewrite take_take, length_take, length_drop in Hk. lia.
  - by apply cp_inv_write.
  - by apply inv_collect.
  - destruct Hi. split; done.
  - by apply inv_return.
Qed.

Lemma work_step s s' : step s s' -> inv s -> (work s' < work s)%nat.
Proof.
  intros Hs Hi. pose proof (i_workers _ Hi) as Hws.
  destruct Hs as [l1 l2 o st d q g r|ws o st d q g r|l1 l2 p l bl e o st d q g r Hre|l1 l2 p l bl o st d q g r Hre Hnb
    |l1 l2 p l bl nb o st d q g r Hre Hnb Hne|l1 l2 p l nb k e o st d q g r Hwe|l1 l2 p l nb o st d q g r Hwe
    |ws o st d q g Hg|ws o st d e q g Hg|ws o st d q]; unfold work; cbn in Hws |- *;
    try (rewrite Forall_app, Forall_cons in Hws; destruct Hws as (_ & Hwf & _); cbn in Hwf);
    try (match goal with |- context [sum_list (_ <$> l1 ++ ?w' :: l2)] =>
      match goal with |- context [(_ < _ + sum_list (_ <$> l1 ++ ?w :: l2) + _ + _ + _)%nat] =>
        pose proof (work_replace l1 w w' l2) as Hw; cbn in Hw end end).
  all: rewrite ?length_app; cbn; unfold buffSize in *.
  - destruct (Z.ltb_spec o (zlen src)); lia.
  - lia.
  - destruct (p <? zlen src); lia.
  - destruct (p <? zlen src); lia.
  - rewrite ReadAt_block in *. subst nb. pose proof (read_before_end p bl ltac:(lia) Hne).
    destruct (Z.ltb_spec p (zlen src)); lia.
  - lia.
  - destruct Hwf as (Hp & Hl & _ & Hnb & Hne). destruct (Z.eqb_spec (l - zlen nb) 0); cbn in Hw; [lia|].
    destruct (Z.ltb_spec (p + zlen nb) (zlen src)); [|lia].
    subst nb. unfold zlen in *. rewrite length_take, length_drop in *. lia.
  - lia.
  - lia.
  - lia.
Qed.

Lemma progress s : inv s -> ret s = None -> exists s', step s s'.
Proof.
  intros Hi Hret. destruct s as [ws o st d q g r]. cbn in Hret. subst r.
  destruct (decide (Exists (fun w => result w = None) ws)) as [He|He].
  - apply Exists_exists in He as (w & Hw & Hres). apply list_elem_of_split in Hw as (l1 & l2 & ->).
    destruct w as [|p l bl|p l nb|e]; [eauto using s_recv| | |done].
    + destruct (read_err p) as [e|] eqn:Hre; [eauto using s_read_err|].
      destruct (decide (fst (ReadAt src p (Z.to_nat bl)) = [])); eauto using s_eof, s_read.
    + destruct (write_err p) as [e|] eqn:Hwe; [|eauto using s_write]. eexists. by eapply (s_write_err _ _ _ _ _ _ _ _ _ 0).
  - pose proof (i_results _ Hi eq_refl) as Hr. pose proof (i_number _ Hi) as Hn. pose proof (i_got _ Hi) as Hg. cbn in *.
    assert (length (omap result ws) = length ws) as Hl.
    { clear - He. induction ws as [|w ws IH]; [done|]. rewrite Exists_cons in He. cbn.
      destruct (result w) eqn:E; [|tauto]. cbn. rewrite IH; tauto. }
    pose proof (Permutation_length Hr) as Hl2. rewrite length_app, length_replicate in Hl2.
    destruct (decide (g = nwork)) as [->|]; [eauto using s_return|].
    destruct q as [|[e|] q]; [cbn in Hl2; lia| |].
    + eexists. apply s_fail. lia.
    + eexists. apply s_collect. lia.
Qed.

Lemma copied s : inv s -> (1 <= nwork)%nat -> ret s = Some None -> dst s = src.
Proof.
  intros Hi Hn Hr. pose proof (i_return _ Hi Hr) as Hdone. destruct Hi as [_ _ Hws Hnum Hd Hc _ _ _].
  assert (zlen src <= off s) as Hoff.
  { destruct (workers s) as [|w ws]; [cbn in Hnum; lia|]. apply Forall_cons in Hdone as [-> _]. by apply Forall_cons in Hws as [? _]. }
  apply list_eq. intros p. destruct (decide (p < length src)%nat) as [Hp|Hp].
  - unfold zlen in Hoff. destruct (Hc p Hp ltac:(lia)) as [?|[He|He]]; [done| |];
      apply Exists_exists in He as (w & Hw & Hh); rewrite Forall_forall in Hdone; rewrite (Hdone w Hw) in Hh; done.
  - rewrite !lookup_ge_None_2 by lia. done.
Qed.

Lemma cp_inv_reach s s' : rtc step s s' -> inv s -> inv s'.
Proof. induction 1; eauto using cp_inv_step. Qed.

Lemma cp_run_finite s : inv s -> Acc (fun a b => step b a) s.
Proof.
  remember (work s) as n eqn:E. revert s E. induction n as [n IH] using lt_wf_ind. intros s -> Hi. constructor. intros s' Hs.
  eapply IH; [by apply work_step|done|by eapply cp_inv_step].
Qed.
End Facts.

(** No errors, no error result. *)
Lemma no_errors src read_err write_err nwork s s' :
  (forall o, read_err o = None) -> (forall o, write_err o = None) -> step src read_err write_err nwork s s' ->
  Forall (fun e => e = None) (fail_q s) /\ (forall e, ret s <> Some (Some e)) ->
  Forall (fun e => e = None) (fail_q s') /\ (forall e, ret s' <> Some (Some e)).
Proof.
  intros Hr Hw Hs [Hq Hret]. destruct Hs; cbn in *; try done; try congruence;
    rewrite ?Forall_app, ?Forall_cons in *; naive_solver.
Qed.

(** C11: the copy of a file by one worker or more, with no worker of an earlier file still running, in any
    interleaving: every run ends; it ends
    with a return; a return without error means that the destination is the source file; and
    without read or write errors there is no other return. *)
Theorem copyOneFile_copies src read_err write_err nwork s :
  (1 <= nwork)%nat -> rtc (step src read_err write_err nwork) (init nwork 0) s ->
  Acc (fun a b => step src read_err write_err nwork b a) s /\
  (ret s = None -> exists s', step src read_err write_err nwork s s') /\
  (ret s = Some None -> dst s = src) /\
  ((forall o, read_err o = None) -> (forall o, write_err o = None) -> forall e, ret s <> Some (Some e)).
Proof.
  intros Hn Hs. assert (inv src nwork s) as Hi by (eapply cp_inv_reach; [done|apply cp_inv_init]). split_and!.
  - by eapply cp_run_finite.
  - by apply progress.
  - by eapply copied.
  - intros Hr Hw. assert (Forall (fun e => e = None) (fail_q s) /\ (forall e, ret s <> Some (Some e))) as [_ H]; [|done].
    assert (Forall (fun e => e = None) (fail_q (init nwork 0)) /\ (forall e, ret (init nwork 0) <> Some (Some e))) as H0 by done.
    clear Hi. induction Hs; [done|]. eauto using no_errors.
Qed.

(** The two workers of a copy of a short file. *)
Lemma short_copy :
  exists s, rtc (step (str "hi") (fun _ => None) (fun _ => None) 2) (init 2 0) s /\ ret s = Some None.
Proof.
  eexists. split; [|].
  - unfold init. cbn [replicate]. eapply rtc_l; [apply (s_recv _ _ _ _ [] [Wait])|].
    eapply rtc_l; [by apply (s_read _ _ _ _ [])|]. eapply rtc_l; [by apply (s_write _ _ _ _ [])|]. cbn.
    eapply rtc_l; [by apply (s_recv _ _ _ _ [Reading 2 8190 8190] [])|]. eapply rtc_l; [by apply (s_eof _ _ _ _ [])|].
    eapply rtc_l; [by apply (s_eof _ _ _ _ [Done None] [])|].
    eapply rtc_l; [apply s_collect; lia|]. eapply rtc_l; [apply s_collect; lia|]. eapply rtc_l; [apply s_return|]. apply rtc_refl.
  - done.
Qed.

Lemma copyOneFile_copies_witness :
  exists s, rtc (step (str "hi") (fun _ => None) (fun _ => None) 2) (init 2 0) s /\ ret s = Some None /\ dst s = str "hi".
Proof.
  destruct short_copy as (s & Hs & Hr). exists s. split; [exact Hs|]. split; [exact Hr|].
  destruct (copyOneFile_copies (str "hi") (fun _ => None) (fun _ => None) 2 s ltac:(lia) Hs) as (_ & _ & H & _). by apply H.
Defined.

(** ** Workers left over from a failed copy *)

Section Stale.
Context (src : bytes) (read_err write_err : Z -> option error) (nwork : nat) (Hre : forall o, read_err o = None).
#[local] Abbreviation step := (step src read_err write_err nwork).

(** Workers that get offsets beyond the end of the file do nothing. *)
Lemma workers_idle k m o st q :
  zlen src <= o -> exists o',
    rtc step (MkState (replicate k (Done None) ++ replicate m Wait) o st [] q 0 None)
             (MkState (replicate (k + m) (Done None)) o' st [] (q ++ replicate m None) 0 None).
Proof.
  revert k o q. induction m as [|m IH]; intros k o q Ho.
  - exists o. rewrite Nat.add_0_r, !app_nil_r. apply rtc_refl.
  - destruct (IH (S k) (o + buffSize) (q ++ [None]) ltac:(unfold buffSize; lia)) as [o' H]. exists o'.
    rewrite <- app_assoc in H. cbn [replicate app] in *. rewrite Nat.add_succ_comm in H.
    eapply rtc_l; [apply s_recv|]. eapply rtc_l; [apply s_eof; [done|]|].
    { rewrite ReadAt_block, drop_ge by (unfold zlen in *; lia). apply take_nil. }
    replace (replicate k (Done None) ++ Done None :: replicate m Wait) with (Done None :: replicate k (Done None) ++ replicate m Wait); [done|].
    change (Done None :: replicate m Wait) with ([Done None] ++ replicate m Wait). rewrite app_assoc, <- replicate_cons_app. done.
Qed.

Lemma collect_all ws o st g k :
  (g + k = nwork)%nat ->
  rtc step (MkState ws o st [] (replicate k None) g None) (MkState ws o st [] [] nwork (Some None)).
Proof.
  revert g. induction k as [|k IH]; intros g Hg; cbn [replicate].
  - replace g with nwork by lia. apply rtc_once, s_return.
  - eapply rtc_l; [apply s_collect; lia|]. apply IH. lia.
Qed.
End Stale.

(** A failed copy can damage the next one. When a write fails, [copyOneFile] can return while
    another worker still waits for an offset; and a copy that starts while such a worker waits
    can return without error although nothing was copied: the old worker has taken the offset of
    the only block. *)
Theorem stale_worker_loses_block src read_err write_err nwork :
  (forall o, read_err o = None) -> 0 < zlen src <= buffSize ->
  (forall e, (2 <= nwork)%nat -> write_err 0 = Some e ->
     exists s, rtc (step src read_err write_err nwork) (init nwork 0) s /\ (exists e', ret s = Some (Some e')) /\ Wait ∈ workers s) /\
  (forall st, exists s, rtc (step src read_err write_err nwork) (init nwork (S st)) s /\ ret s = Some None /\ dst s = []).
Proof.
  intros Hre Hsrc. split.
  - intros e Hn Hwe. destruct nwork as [|[|n]]; [lia|lia|]. eexists. split_and!; [| |].
    + unfold init. cbn [replicate]. eapply rtc_l; [apply (s_recv _ _ _ _ [])|]. eapply rtc_l; [apply (s_read _ _ _ _ []); [done|done|]|].
      { rewrite ReadAt_block. intros E. apply (f_equal length) in E. rewrite length_take, length_drop in E.
        unfold zlen, buffSize in *. cbn in E. lia. }
      eapply rtc_l; [by eapply (s_write_err _ _ _ _ [] _ _ _ _ 0)|]. eapply rtc_l; [apply s_fail; lia|]. apply rtc_refl.
    + by eexists.
    + cbn. right. by left.
  - intros st. destruct (workers_idle src read_err write_err nwork Hre 0 nwork (0 + buffSize) st [] ltac:(lia)) as [o H].
    eexists. split_and!; [| |].
    + unfold init. eapply rtc_l; [apply s_steal|]. etransitivity; [exact H|]. cbn [app]. by apply collect_all.
    + done.
    + done.
Qed.

Lemma stale_worker_loses_block_witness :
  exists s, rtc (step (str "hi") (fun _ => None) (fun _ => None) 4) (init 4 1) s /\ ret s = Some None /\ dst s = [].
Proof.
  refine (proj2 (stale_worker_loses_block (str "hi") (fun _ => None) (fun _ => None) 4 (fun _ => eq_refl) _) 0%nat).
  vm_compute. split; [reflexivity|discriminate].
Defined.

(** [-w 0]: no worker, nothing copied, no error. *)
Example no_workers : rtc (step (str "hi") (fun _ => None) (fun _ => None) 0) (init 0 0) (MkState [] 0 0 [] [] 0 (Some None)).
Proof. apply rtc_once, s_return. Qed.
