(* ===== verification/Ldd.v ===== *)
(** * Shared library dependencies ([pkg/ldd/ldd_unix.go])

    [follow], which adds a file and the chain of its symbolic links to a map, [runinterp],
    which reads the output of the dynamic linker, [Ldd] and [List].  The file system, ELF files
    and running the interpreter are parameters. *)

From Stdlib Require Import Strings.String.
From stdpp Require Import gmap.
From S2P Require Export GoIO GoPath.

(** What [Lstat] tells of a name, here only whether it is a regular file. *)
Record FileInfo := MkInfo { IsRegular : bool }.

(** A map from names to their information. *)
Abbreviation names := (gmap bytes FileInfo).

(** An error return. *)
Ltac no_answer := eexists; split; [reflexivity|intros; discriminate].

Section Follow.
Context (Lstat : bytes -> FileInfo + error) (Readlink : bytes -> bytes + error).

(** The loop of [follow]; [None] when the fuel has run out. *)
Fixpoint follow (fuel : nat) (l : bytes) (m : names) : option (names * outcome error unit) :=
  match fuel with
  | O => None
  | S fuel =>
      match m !! l with
      | Some _ => Some (m, Ret tt)
      | None =>
          match Lstat l with
          | inr _ => Some (m, Fail (Errorf "%v"))
          | inl i =>
              let m := <[l := i]> m in
              if IsRegular i then Some (m, Ret tt)
              else match Readlink l with
                   | inr e => Some (m, Fail e)
                   | inl next => if IsAbs next then follow fuel next m else follow fuel (PathJoin [Dir l; next]) m
                   end
          end
      end
  end.

(** ** [runinterp]: the names after [=>] in the output of the interpreter *)

Definition list_name (p : bytes) : option bytes :=
  match Split x20 p with
  | _ :: f1 :: f2 :: _ => if negb (bytes_eqb f1 (str "=>")) || bytes_eqb f2 [] then None else Some f2
  | _ => None
  end.

Context (exec_Output : bytes -> bytes -> bytes + error).

Definition runinterp (interp file : bytes) : outcome error (list bytes) :=
  match exec_Output interp file with
  | inr e => Fail e
  | inl o => Ret (omap list_name (Split x0a o))
  end.

(** ** [Ldd] *)

(** What [elf.NewFile] and the [.interp] section give: not an ELF file, or whether it is a
    shared object and the data of its section, if it has one. *)
Inductive elf_file := NotElf | Elf (is_dyn : bool) (interp : option (bytes + error)).

Context (os_Open : bytes -> option error) (elf_NewFile : bytes -> elf_file) (LdSo : bytes + error).

(** The interpreter of a file: [Ret None] when the file is passed over. *)
Definition interp_of (n : bytes) : outcome error (option bytes) :=
  match elf_NewFile n with
  | NotElf => Ret None
  | Elf is_dyn s =>
      let section : outcome error (option bytes) :=
        match s with
        | None => Ret (Some [])
        | Some (inr e) => Fail e
        | Some (inl i) =>
            if (1 <? zlen i) && HasPrefix i (str "#!") then Ret None
            else match slice i 0 (zlen i - 1) with None => Panic | Some interp => Ret (Some interp) end
        end in
      interp ← section;
      match interp with
      | Some [] => if negb is_dyn then Ret None else match LdSo with inr e => Fail e | inl i => Ret (Some i) end
      | _ => Ret interp
      end
  end.

Fixpoint follow_all (fuel : nat) (ns : list bytes) (m : names) : option (names * outcome error unit) :=
  match ns with
  | [] => Some (m, Ret tt)
  | n :: ns =>
      match follow fuel n m with
      | Some (m, Ret _) => follow_all fuel ns m
      | r => r
      end
  end.

(** The loop over the files: the maps [interps] and [list]. *)
Fixpoint ldd_loop (fuel : nat) (ns : list bytes) (interps lst : names) : option (outcome error (names * names)) :=
  match ns with
  | [] => Some (Ret (interps, lst))
  | n :: ns =>
      match os_Open n with
      | Some e => Some (Fail e)
      | None =>
          match interp_of n with
          | Fail e => Some (Fail e)
          | Panic => Some Panic
          | Ret None => ldd_loop fuel ns interps lst
          | Ret (Some interp) =>
              match (match interps !! interp with Some _ => Some (interps, Ret tt) | None => follow fuel interp interps end) with
              | None => None
              | Some (_, Fail e) => Some (Fail e)
              | Some (_, Panic) => Some Panic
              | Some (interps, Ret _) =>
                  match runinterp interp n with
                  | Fail e => Some (Fail e)
                  | Panic => Some Panic
                  | Ret more =>
                      match follow_all fuel more lst with
                      | None => None
                      | Some (lst, Ret _) => ldd_loop fuel ns interps lst
                      | Some (_, Fail _) => Some (Fail (Errorf "ldd: %v"))
                      | Some (_, Panic) => Some Panic
                      end
                  end
              end
          end
      end
  end.

(** The names, in an order that Go leaves open: interpreters first. *)
Definition List (fuel : nat) (ns : list bytes) : option (outcome error (list bytes)) :=
  match ldd_loop fuel ns ∅ ∅ with
  | None => None
  | Some (Ret (interps, lst)) => Some (Ret ((map_to_list interps).*1 ++ (map_to_list lst).*1))
  | Some (Fail e) => Some (Fail e)
  | Some Panic => Some Panic
  end.

(** ** What a map contains *)

(** The target of a symbolic link, as [follow] computes it. *)
Definition target (l : bytes) : option bytes :=
  match Readlink l with
  | inr _ => None
  | inl next => Some (if IsAbs next then next else PathJoin [Dir l; next])
  end.

(** Every name of the map is of a regular file, or a link whose target is in the map too. *)
Definition closed (m : names) : Prop :=
  forall l i, m !! l = Some i -> Lstat l = inl i /\
    (IsRegular i = true \/ exists t, target l = Some t /\ is_Some (m !! t)).

(** The same, but for a link to [l]. *)
Definition closed_but (l : bytes) (m : names) : Prop :=
  forall n i, m !! n = Some i -> Lstat n = inl i /\
    (IsRegular i = true \/ exists t, target n = Some t /\ (is_Some (m !! t) \/ t = l)).

Lemma follow_closed fuel l m m' :
  closed_but l m -> follow fuel l m = Some (m', Ret tt) -> closed m' /\ is_Some (m' !! l) /\ m ⊆ m'.
Proof.
  revert l m. induction fuel as [|fuel IH]; intros l m Hc; cbn [follow]; [done|].
  destruct (m !! l) as [i0|] eqn:El.
  { intros [= <-]. split_and!; [|by eexists|done]. intros n i Hn. destruct (Hc n i Hn) as [H1 [H2|(t & H2 & [H3| ->])]]; eauto 10. }
  destruct (Lstat l) as [i|] eqn:Es; [|done]. destruct (IsRegular i) eqn:Er.
  { intros [= <-]. split_and!; [|rewrite lookup_insert_eq; by eexists|by apply insert_subseteq]. intros n j Hn.
    destruct (decide (n = l)) as [->|Hne].
    - rewrite lookup_insert_eq in Hn. simplify_eq. eauto.
    - rewrite lookup_insert_ne in Hn by done. destruct (Hc n j Hn) as [H1 [H2|(t & H2 & H3)]]; [eauto|]. split; [done|]. right. exists t. split; [done|].
      apply lookup_insert_is_Some'. destruct H3 as [H3| ->]; auto. }
  assert (forall t, target l = Some t -> closed_but t (<[l := i]> m)) as Hnext.
  { intros t Ht n j Hn. destruct (decide (n = l)) as [->|Hne].
    - rewrite lookup_insert_eq in Hn. simplify_eq. eauto 6.
    - rewrite lookup_insert_ne in Hn by done. destruct (Hc n j Hn) as [H1 [H2|(u & H2 & H3)]]; [eauto|]. split; [done|]. right. exists u. split; [done|].
      left. apply lookup_insert_is_Some'. destruct H3 as [H3| ->]; auto. }
  unfold target in Hnext. destruct (Readlink l) as [next|]; [|done]. specialize (Hnext _ eq_refl).
  intros H. assert (follow fuel (if IsAbs next then next else PathJoin [Dir l; next]) (<[l := i]> m) = Some (m', Ret tt)) as H' by (by destruct (IsAbs next)).
  destruct (IH _ _ Hnext H') as (H1 & _ & H3). split_and!; [done| |].
  - eapply (lookup_weaken_is_Some (<[l := i]> m)); [|done]. rewrite lookup_insert_eq. by eexists.
  - transitivity (<[l := i]> m); [by apply insert_subseteq|done].
Qed.

(** ** Termination: the file system has finitely many names *)

Context (files : gset bytes) (Hfiles : forall l i, Lstat l = inl i -> l ∈ files).

Lemma follow_total (fuel : nat) (l : bytes) (m : names) :
  (size (files ∖ dom m) < fuel)%nat -> exists m' r, follow fuel l m = Some (m', r) /\ r <> Panic.
Proof.
  revert l m. induction fuel as [|fuel IH]; intros l m Hf; [lia|]. cbn [follow].
  destruct (m !! l) as [i0|] eqn:El; [by eauto|]. destruct (Lstat l) as [i|] eqn:Es; [|by eauto].
  destruct (IsRegular i); [by eauto|]. destruct (Readlink l) as [next|]; [|by eauto].
  assert (size (files ∖ dom (<[l := i]> m)) < fuel)%nat as Hlt; [|destruct (IsAbs next); by apply IH].
  rewrite dom_insert_L. assert (size (files ∖ ({[l]} ∪ dom m)) < size (files ∖ dom m))%nat; [|lia].
  apply subset_size. split; [set_solver|]. intros H. apply not_elem_of_dom in El.
  assert (l ∈ files ∖ dom m) as Hl by (apply elem_of_difference; eauto). apply H in Hl. set_solver.
Qed.

Lemma size_difference_le (m : names) : (size (files ∖ dom m) < S (size files))%nat.
Proof. apply Nat.lt_succ_r, subseteq_size. set_solver. Qed.

Definition fuel_enough : nat := S (size files).

(** A call of [follow] on a closed map. *)
Lemma follow_ok l m :
  closed m -> exists m' r, follow fuel_enough l m = Some (m', r) /\ r <> Panic /\
    (r = Ret tt -> closed m' /\ is_Some (m' !! l) /\ m ⊆ m').
Proof.
  intros Hc. destruct (follow_total fuel_enough l m (size_difference_le m)) as (m' & r & E & Hp). exists m', r. split_and!; [done|done|].
  intros ->. eapply follow_closed; [|done]. intros n i Hn. destruct (Hc n i Hn) as [? [?|(t & ? & ?)]]; eauto 10.
Qed.

Lemma follow_all_ok ns m :
  closed m -> exists m' r, follow_all fuel_enough ns m = Some (m', r) /\ r <> Panic /\
    (r = Ret tt -> closed m' /\ (forall n, n ∈ ns -> is_Some (m' !! n)) /\ m ⊆ m').
Proof.
  revert m. induction ns as [|n ns IH]; intros m Hc; cbn [follow_all].
  { exists m, (Ret tt). split_and!; [done|done|]. intros _. split_and!; [done|by intros n ?%elem_of_nil|done]. }
  destruct (follow_ok n m Hc) as (m1 & r1 & -> & Hp1 & H1). destruct r1 as [[]|e|]; [|by exists m1, (Fail e)|done].
  destruct (H1 eq_refl) as (Hc1 & Hn & Hs1). destruct (IH m1 Hc1) as (m2 & r2 & E2 & Hp2 & H2). exists m2, r2.
  split_and!; [done|done|]. intros Hr. destruct (H2 Hr) as (Hc2 & Hin & Hs2). split_and!; [done| |by transitivity m1].
  intros k [->|Hk]%elem_of_cons; [by eapply lookup_weaken_is_Some|by apply Hin].
Qed.

(** What the two maps hold for the files seen. *)
Definition covers (ns : list bytes) (interps lst : names) : Prop :=
  forall n interp, n ∈ ns -> interp_of n = Ret (Some interp) ->
    is_Some (interps !! interp) /\ forall libs, runinterp interp n = Ret libs -> forall x, x ∈ libs -> is_Some (lst !! x).

Lemma ldd_loop_ok ns interps lst :
  closed interps -> closed lst ->
  exists r, ldd_loop fuel_enough ns interps lst = Some r /\
    forall interps' lst', r = Ret (interps', lst') ->
      closed interps' /\ closed lst' /\ covers ns interps' lst' /\ interps ⊆ interps' /\ lst ⊆ lst'.
Proof.
  revert interps lst. induction ns as [|n ns IH]; intros interps lst Hi Hl; cbn [ldd_loop].
  { eexists. split; [done|]. intros i' l' [= <- <-]. split_and!; try done. by intros ? ? ?%elem_of_nil. }
  destruct (os_Open n); [no_answer|]. destruct (interp_of n) as [[interp|]|e|] eqn:Ei; [| |no_answer|no_answer].
  2: { destruct (IH interps lst Hi Hl) as (r & E & Hr). exists r. split; [done|]. intros i' l' Er.
       destruct (Hr i' l' Er) as (? & ? & Hc & ? & ?). split_and!; try done. intros k x [->|Hk]%elem_of_cons Hx; [congruence|by eapply Hc]. }
  assert (exists m1 r1, (match interps !! interp with Some _ => Some (interps, Ret tt) | None => follow fuel_enough interp interps end) = Some (m1, r1) /\
    r1 <> Panic /\ (r1 = Ret tt -> closed m1 /\ is_Some (m1 !! interp) /\ interps ⊆ m1)) as (m1 & r1 & -> & Hp1 & H1).
  { destruct (interps !! interp) eqn:E; [|by apply follow_ok]. exists interps, (Ret tt). eauto 10. }
  destruct r1 as [[]|e|]; [|no_answer|done]. destruct (H1 eq_refl) as (Hc1 & Hin1 & Hs1).
  destruct (runinterp interp n) as [more|e|] eqn:Er; [|no_answer|no_answer].
  destruct (follow_all_ok more lst Hl) as (m2 & r2 & -> & Hp2 & H2). destruct r2 as [[]|e|]; [|no_answer|done].
  destruct (H2 eq_refl) as (Hc2 & Hin2 & Hs2). destruct (IH m1 m2 Hc1 Hc2) as (r & E & Hr). exists r. split; [done|].
  intros i' l' E'. destruct (Hr i' l' E') as (? & ? & Hc & Hsi & Hsl). split_and!; [done|done| |by transitivity m1|by transitivity m2].
  intros k x [->|Hk]%elem_of_cons Hx; [|by eapply Hc]. rewrite Ei in Hx. simplify_eq. split; [by eapply lookup_weaken_is_Some|].
  intros libs Hlibs y Hy. rewrite Er in Hlibs. simplify_eq. eapply lookup_weaken_is_Some; [by apply Hin2|done].
Qed.

Lemma elem_of_names (m : names) n : n ∈ (map_to_list m).*1 <-> is_Some (m !! n).
Proof.
  rewrite list_elem_of_fmap. split.
  - intros ([k i] & -> & Hk). apply elem_of_map_to_list in Hk. by eexists.
  - intros [i Hi]. exists (n, i). split; [done|]. by apply elem_of_map_to_list.
Qed.
End Follow.

(** C37: on a file system with finitely many names [List] ends, and its answer is complete: it
    contains the interpreter and the libraries of every ELF file, and with every symbolic link the
    name the link points to, so that nothing is missing when the files are packed. *)
Theorem List_complete (Lstat : bytes -> FileInfo + error) (Readlink : bytes -> bytes + error)
    (exec_Output : bytes -> bytes -> bytes + error) (os_Open : bytes -> option error) (elf_NewFile : bytes -> elf_file)
    (LdSo : bytes + error) (files : gset bytes) (ns : list bytes) :
  (forall l i, Lstat l = inl i -> l ∈ files) ->
  exists r, List Lstat Readlink exec_Output os_Open elf_NewFile LdSo (S (size files)) ns = Some r /\
    forall out, r = Ret out ->
      (forall n, n ∈ out -> exists i, Lstat n = inl i /\
         (IsRegular i = true \/ exists t, target Readlink n = Some t /\ t ∈ out)) /\
      (forall n interp, n ∈ ns -> interp_of elf_NewFile LdSo n = Ret (Some interp) -> interp ∈ out /\
         forall libs, runinterp exec_Output interp n = Ret libs -> forall x, x ∈ libs -> x ∈ out).
Proof.
  intros Hfiles. destruct (ldd_loop_ok Lstat Readlink exec_Output os_Open elf_NewFile LdSo files Hfiles ns ∅ ∅) as (r & E & Hr); [done|done|].
  unfold List. unfold fuel_enough in E. rewrite E. destruct r as [[interps lst]|e|]; [|no_answer|no_answer].
  eexists. split; [done|]. intros out [= <-]. destruct (Hr _ _ eq_refl) as (Hi & Hl & Hc & _ & _). split.
  - intros n [Hn|Hn]%elem_of_app; apply elem_of_names in Hn as [i Hn]; exists i.
    + destruct (Hi n i Hn) as [? [?|(t & ? & ?)]]; split; auto. right. exists t. split; [done|]. apply elem_of_app. left. by apply elem_of_names.
    + destruct (Hl n i Hn) as [? [?|(t & ? & ?)]]; split; auto. right. exists t. split; [done|]. apply elem_of_app. right. by apply elem_of_names.
  - intros n interp Hn Hint. destruct (Hc n interp Hn Hint) as [H1 H2]. split; [apply elem_of_app; left; by apply elem_of_names|].
    intros libs Hlibs x Hx. apply elem_of_app. right. apply elem_of_names. by eapply H2.
Qed.

(** A program with its interpreter behind a link. *)
Definition ex_Lstat (l : bytes) : FileInfo + error :=
  if bytes_eqb l (str "/lib/ld.so") then inl (MkInfo false)
  else if bytes_eqb l (str "/lib/ld-2.so") then inl (MkInfo true) else inr (Errno 2).

Definition ex_List (fuel : nat) : option (outcome error (list bytes)) :=
  List ex_Lstat (fun _ => inl (str "ld-2.so")) (fun _ _ => inl []) (fun _ => None)
    (fun _ => Elf false (Some (inl (str "/lib/ld.so" ++ [x00])))) (inr EOF) fuel [str "/bin/x"].

Definition ex_files : gset bytes := {[ str "/lib/ld.so"; str "/lib/ld-2.so" ]}.

Lemma List_complete_witness :
  exists out, ex_List (S (size ex_files)) = Some (Ret out) /\ str "/lib/ld.so" ∈ out.
Proof.
  destruct (List_complete ex_Lstat (fun _ => inl (str "ld-2.so")) (fun _ _ => inl []) (fun _ => None)
    (fun _ => Elf false (Some (inl (str "/lib/ld.so" ++ [x00])))) (inr EOF) ex_files [str "/bin/x"]) as (r & E & Hr).
  - intros l i. unfold ex_Lstat, ex_files. destruct (bytes_eqb l (str "/lib/ld.so")) eqn:E1; [apply bytes_eqb_eq in E1 as ->; intros _; set_solver|].
    destruct (bytes_eqb l (str "/lib/ld-2.so")) eqn:E2; [apply bytes_eqb_eq in E2 as ->; intros _; set_solver|]. discriminate.
  - assert (match ex_List (S (size ex_files)) with Some (Ret _) => true | _ => false end = true) as Hb by (vm_compute; reflexivity).
    unfold ex_List in *. rewrite E in *. destruct r as [out|e|]; [|discriminate|discriminate]. exists out. split; [reflexivity|].
    refine (proj1 (proj2 (Hr out eq_refl) (str "/bin/x") (str "/lib/ld.so") _ _)); [by left|vm_compute; reflexivity].
Defined.
