(* ===== verification/Cmp.v ===== *)
(** * Comparing two files ([cmds/cmp/cmp.go])

    The bytes that [emit] sends, the comparing loop with its flags and [main].  A channel is the
    list of what is sent on it, and receiving from a closed one gives 0.  The two names are not
    both the standard input. *)

From Stdlib Require Import Strings.String.
From S2P Require Export GoIO GoStrings.

Record cmpflags := MkCmpFlags { long : bool; line : bool; silent : bool }.

(** What is printed on the standard error. *)
Inductive message :=
| Differ (charno : Z)
| DifferLine (charno lineno : Z)
| EofOn (file : Z)
| Bytes (charno b1 b2 : Z).

(** [emit]: what it sends of a file. *)
Definition emit (data : bytes) (offset : Z) : bytes := if 0 <? offset then drop (Z.to_nat offset) data else data.

(** Receiving: the first byte and the rest, 0 when the channel is closed and empty. *)
Definition recv (c : bytes) : Z * bytes := match c with [] => (0, []) | b :: c => (b2z b, c) end.

(** The loop: the exit status and the messages; [None] when the fuel has run out. *)
Fixpoint cmp_loop (flags : cmpflags) (fuel : nat) (c0 c1 : bytes) (charno lineno : Z) (msgs : list message)
  : option (Z * list message) :=
  match fuel with
  | O => None
  | S fuel =>
      let '(b1, c0) := recv c0 in
      let '(b2, c1) := recv c1 in
      let skip msgs :=
        if (b1 =? 0) && (b2 =? 0) then Some (0, msgs)
        else cmp_loop flags fuel c0 c1 (i64 (charno + 1)) (if b1 =? 10 then i64 (lineno + 1) else lineno) msgs in
      if negb (b1 =? b2) then
        if silent flags then Some (1, msgs)
        else if line flags then Some (1, msgs ++ [DifferLine charno lineno])
        else if long flags then
          if b1 =? 0 then Some (1, msgs ++ [EofOn 0])
          else if b2 =? 0 then Some (1, msgs ++ [EofOn 1])
          else skip (msgs ++ [Bytes charno b1 b2])
        else Some (1, msgs ++ [Differ charno])
      else skip msgs
  end.

(** After the end of both channels the loop ends, so this is enough. *)
Definition cmp_files (flags : cmpflags) (c0 c1 : bytes) : option (Z * list message) :=
  cmp_loop flags (S (Nat.max (length c0) (length c1))) c0 c1 1 1 [].

(** [strconv.ParseInt(s, 0, 64)]: hexadecimal, octal or decimal by the prefix. *)
Definition ParseInt0 (s : bytes) : option Z :=
  let '(neg, d) := match s with
                   | c :: s' => if byte_eqb c x2b then (false, s') else if byte_eqb c x2d then (true, s') else (false, s)
                   | [] => (false, s)
                   end in
  let '(un, err) := match d with
                    | [] => (0, Some ErrSyntax)
                    | x30 :: c :: (_ :: _) as r => if byte_eqb c x78 || byte_eqb c x58 then ParseUint (drop 2 d) 16 64 else ParseUint d 8 64
                    | x30 :: _ => ParseUint d 8 64
                    | _ => ParseUint d 10 64
                    end in
  match err with
  | Some _ => None
  | None =>
      if negb neg && (2 ^ 63 <=? un) then None
      else if neg && (2 ^ 63 <? un) then None
      else Some (if neg then - un else un)
  end.

Definition openFile (os_Open : bytes -> bytes + error) (stdin : bytes) (name : bytes) : bytes + error :=
  if bytes_eqb name (str "-") then inl stdin else os_Open name.

(** [main]: the exit status and the messages; a bad offset ends it with status 0. *)
Definition cmp_main (flags : cmpflags) (os_Open : bytes -> bytes + error) (stdin : bytes) (fnames : list bytes)
  : outcome error (option (Z * list message)) :=
  let run f0 f1 o0 o1 :=
    match openFile os_Open stdin f0 with
    | inr _ => Fail (Errorf "Failed to open %s: %v")
    | inl d0 =>
        match openFile os_Open stdin f1 with
        | inr _ => Fail (Errorf "Failed to open %s: %v")
        | inl d1 => Ret (cmp_files flags (emit d0 o0) (emit d1 o1))
        end
    end in
  match fnames with
  | [f0; f1] => run f0 f1 0 0
  | [f0; f1; s0] => match ParseInt0 s0 with Some o0 => run f0 f1 o0 0 | None => Ret (Some (0, [])) end
  | [f0; f1; s0; s1] =>
      match ParseInt0 s0 with
      | None => Ret (Some (0, []))
      | Some o0 => match ParseInt0 s1 with Some o1 => run f0 f1 o0 o1 | None => Ret (Some (0, [])) end
      end
  | _ => Fail (Errorf "expected two filenames (and one to two optional offsets), got %d")
  end.

(** ** Files without zero bytes *)

Definition nonzero (d : bytes) : Prop := x00 ∉ d.

(** The common beginning of two files. *)
Fixpoint common (d e : bytes) : bytes :=
  match d, e with
  | a :: d, b :: e => if byte_eqb a b then a :: common d e else []
  | _, _ => []
  end.

(** The message for the first difference, if it is asked for. *)
Definition first_difference (flags : cmpflags) (charno lineno : Z) : list message :=
  if silent flags then [] else if line flags then [DifferLine charno lineno] else [Differ charno].

Lemma b2z_zero b : b2z b = 0 -> b = x00.
Proof. intros H. apply b2z_inj. rewrite H. done. Qed.

Lemma cmp_loop_ok flags fuel d e charno lineno :
  long flags = false -> nonzero d -> nonzero e -> (Nat.max (length d) (length e) < fuel)%nat ->
  charno + zlen d < 2 ^ 63 -> 1 <= lineno <= charno ->
  cmp_loop flags fuel d e charno lineno [] =
  Some (if bool_decide (d = e) then (0, [])
        else (1, first_difference flags (charno + zlen (common d e))
                   (lineno + zlen (filter (fun c => c = x0a) (common d e))))).
Proof.
  intros Hlong. revert fuel e charno lineno. induction d as [|a d IH]; intros fuel e charno lineno Hd He Hf Hc Hln;
    (destruct fuel as [|fuel]; [lia|]); cbn [cmp_loop recv]; destruct e as [|b e]; cbn [recv].
  - done.
  - assert (b2z b <> 0) as Hb by (intros ->%b2z_zero; apply He; by left).
    destruct (Z.eqb_spec 0 (b2z b)); [lia|]. cbn. rewrite Hlong. unfold first_difference. by destruct (silent flags), (line flags); rewrite ?Z.add_0_r.
  - assert (b2z a <> 0) as Ha by (intros ->%b2z_zero; apply Hd; by left).
    destruct (Z.eqb_spec (b2z a) 0); [lia|]. cbn. rewrite Hlong. unfold first_difference. by destruct (silent flags), (line flags); rewrite ?Z.add_0_r.
  - assert (b2z a <> 0) as Ha by (intros ->%b2z_zero; apply Hd; by left).
    apply not_elem_of_cons in Hd as [_ Hd]. apply not_elem_of_cons in He as [_ He]. cbn [common].
    destruct (byte_eqb a b) eqn:E.
    + apply byte_eqb_eq in E as ->. rewrite Z.eqb_refl. cbn [negb]. destruct (Z.eqb_spec (b2z b) 0); [lia|]. cbn [andb].
      rewrite zlen_cons in Hc. pose proof (zlen_nonneg d). rewrite (i64_small (charno + 1)) by lia.
      rewrite IH; [|done|done|cbn in Hf; lia|lia|destruct (b2z b =? 10); rewrite ?i64_small; lia].
      f_equal. rewrite (bool_decide_ext (b :: d = b :: e) (d = e)) by naive_solver. case_bool_decide; [done|].
      do 2 f_equal; [rewrite zlen_cons; lia|]. destruct (Z.eqb_spec (b2z b) 10) as [Eb|Eb].
      * assert (b = x0a) as -> by (apply b2z_inj; by rewrite Eb). rewrite filter_cons_True, zlen_cons, i64_small by (done || lia). lia.
      * rewrite filter_cons_False by (intros ->; done). lia.
    + apply byte_eqb_neq in E. assert (b2z a <> b2z b) as Hab by (intros H; by apply b2z_inj in H).
      destruct (Z.eqb_spec (b2z a) (b2z b)); [done|]. cbn [negb]. rewrite bool_decide_eq_false_2 by congruence. rewrite Hlong.
      unfold first_difference. cbn. by destruct (silent flags), (line flags); rewrite ?Z.add_0_r.
Qed.

(** Two files without zero bytes are reported equal (status 0, no message) exactly when they
    are equal; otherwise the status is 1 and the message has the number of the first byte that
    differs, counted from 1, and with [-L] the number of its line. *)
Theorem cmp_correct flags d e :
  long flags = false -> nonzero d -> nonzero e -> zlen d < 2 ^ 62 ->
  cmp_files flags d e =
  Some (if bool_decide (d = e) then (0, [])
        else (1, first_difference flags (1 + zlen (common d e)) (1 + zlen (filter (fun c => c = x0a) (common d e))))).
Proof. intros Hl Hd He Hn. apply cmp_loop_ok; try done; lia. Qed.

Lemma cmp_correct_witness :
  cmp_files (MkCmpFlags false true false) (str "a
bc") (str "a
bd") = Some (1, [DifferLine 4 2]).
Proof.
  rewrite (cmp_correct (MkCmpFlags false true false) (str "a
bc") (str "a
bd")); [reflexivity|reflexivity| | |reflexivity];
    unfold nonzero; vm_compute; intros H; repeat (apply elem_of_cons in H as [H|H]; [discriminate|]); by apply elem_of_nil in H.
Defined.

(** ** Files with zero bytes, and [-l] *)

(** The comparison ends at the first zero byte that both have. *)
Example cmp_stops_at_zero : cmp_files (MkCmpFlags false false false) [x61; x00; x62] [x61; x00; x63] = Some (0, []).
Proof. vm_compute. reflexivity. Qed.

(** A file is equal to itself with zero bytes at the end. *)
Example cmp_ignores_final_zeros : cmp_files (MkCmpFlags false false false) [x61] [x61; x00] = Some (0, []).
Proof. vm_compute. reflexivity. Qed.

(** With [-l] the status is 0 although there are differences. *)
Example cmp_l_status : cmp_files (MkCmpFlags true false false) (str "ab") (str "ac") = Some (0, [Bytes 2 98 99]).
Proof. vm_compute. reflexivity. Qed.
