(* ===== verification/GoText.v ===== *)
(** * More of the Go standard library on strings

    [Fields], [TrimSpace], [HasSuffix], [Split] and [Replace] with a separator of several bytes,
    [Contains], [filepath.Ext]; white space is that of ASCII. *)

From Stdlib Require Import Strings.String.
From S2P Require Export GoStrings.

(** [unicode.IsSpace] on ASCII. *)
Definition is_space (c : byte) : bool :=
  let v := b2z c in ((9 <=? v) && (v <=? 13)) || (v =? 32).

(** [strings.Fields]: the maximal runs of bytes that are not spaces; [cur] is the run being read. *)
Fixpoint fields_from (cur : bytes) (s : bytes) : list bytes :=
  match s with
  | [] => match cur with [] => [] | _ => [cur] end
  | c :: s =>
      if is_space c then match cur with [] => fields_from [] s | _ => cur :: fields_from [] s end
      else fields_from (cur ++ [c]) s
  end.

Definition Fields (s : bytes) : list bytes := fields_from [] s.

Definition ascii_spaces : bytes := [x09; x0a; x0b; x0c; x0d; x20].

Definition TrimSpace (s : bytes) : bytes := TrimRight (TrimLeft s ascii_spaces) ascii_spaces.

Definition HasSuffix (s p : bytes) : bool := HasPrefix (reverse s) (reverse p).

Definition TrimPrefix (s p : bytes) : bytes := if HasPrefix s p then drop (length p) s else s.

Definition Contains (s sub : bytes) : bool := match Index s sub with Some _ => true | None => false end.

(** [strings.Split(s, sep)] with a separator that is not empty. *)
Fixpoint split_fuel (fuel : nat) (s sep : bytes) : list bytes :=
  match fuel with
  | O => [s]
  | S fuel =>
      match Index s sep with
      | None => [s]
      | Some i => take i s :: split_fuel fuel (drop (i + length sep) s) sep
      end
  end.

Definition SplitS (s sep : bytes) : list bytes := split_fuel (length s) s sep.

(** [strings.Replace(s, old, new, 1)] for an [old] that is not empty. *)
Definition Replace1 (s old new : bytes) : bytes :=
  match Index s old with
  | None => s
  | Some i => take i s ++ new ++ drop (i + length old) s
  end.

(** [filepath.Ext]: from the last dot of the last element. *)
Fixpoint ext_rev (r : bytes) (acc : bytes) : bytes :=
  match r with
  | [] => []
  | c :: r => if byte_eqb c x2f then [] else if byte_eqb c x2e then c :: acc else ext_rev r (c :: acc)
  end.

Definition Ext (p : bytes) : bytes := ext_rev (reverse p) [].

Example Fields_ex : Fields (str " a  bc d ") = [str "a"; str "bc"; str "d"]. Proof. reflexivity. Qed.
Example Ext_ex1 : Ext (str "x.y/a.tar.gz") = str ".gz". Proof. reflexivity. Qed.
Example Ext_ex2 : Ext (str "x.y/ab") = []. Proof. reflexivity. Qed.
Example SplitS_ex : SplitS (str "a.tczb.tcz") (str ".tcz") = [str "a"; str "b"; []]. Proof. reflexivity. Qed.
Example Replace1_ex : Replace1 (str "a%Yb%Y") (str "%Y") (str "17") = str "a17b%Y". Proof. reflexivity. Qed.
Example TrimSpace_ex : TrimSpace (str " a b ") = str "a b". Proof. reflexivity. Qed.

(** ** Scanning text that was written line by line *)

(** A line that the scanner gives back as it is. *)
Definition scannable (l : bytes) : Prop := is_line l /\ (x0d ∉ l) /\ (length l < MaxScanTokenSize)%nat.

Lemma dropCR_id l : x0d ∉ l -> dropCR l = l.
Proof.
  intros H. unfold dropCR. destruct (last l) as [c|] eqn:E; [|done].
  apply last_Some_elem_of in E. destruct c; try done. 
Qed.

Lemma scan_tokens_id ls : Forall scannable ls -> scan_tokens ls = (ls, None).
Proof.
  induction 1 as [|l ls (_ & Hc & Hl) _ IH]; [done|]. cbn [scan_tokens].
  destruct (Nat.leb_spec MaxScanTokenSize (length l)); [lia|]. by rewrite IH, dropCR_id.
Qed.

Lemma ScanLines_unlines ls : Forall scannable ls -> ScanLines (unlines ls) = (ls, None).
Proof.
  intros H. unfold ScanLines. rewrite <- (app_nil_r (unlines ls)), raw_lines_unlines.
  - rewrite app_nil_r. by apply scan_tokens_id.
  - eapply Forall_impl; [exact H|]. by intros l [? _].
Qed.

(** The digits of a number are no other characters. *)
Lemma Itoa_noin z c : 0 <= z -> is_digit c = false -> c ∉ Itoa z.
Proof.
  intros Hz Hc Hin. destruct (Itoa_spec z Hz) as (d & ds & E & Hd & _). rewrite E in Hin.
  rewrite forallb_forall in Hd. specialize (Hd c (proj1 (list_elem_of_In _ _) Hin)). congruence.
Qed.
