(* ===== verification/Flags.v ===== *)
(** * Command line flags

    What the commands use of package [flag] of the standard library: the declaration of flags, with
    several names for one variable, and [flag.Parse], which reads flags up to the first argument
    that is not one.  The settings are a map from the variables of a command to their values;
    [FlagTables.v] has the declarations of the commands. *)

From Stdlib Require Import Strings.String.
From S2P Require Export GoStrings.

Inductive value := VBool (b : bool) | VInt (z : Z) | VUint (z : Z) | VString (s : bytes).

#[export] Instance value_eq_dec : EqDecision value.
Proof. solve_decision. Defined.

(** [flag.BoolVar(&var, name, default, usage)] and the others. *)
Record decl := MkDecl { d_var : bytes; d_name : bytes; d_default : value }.

Definition FBool (var name : string) (b : bool) : decl := MkDecl (str var) (str name) (VBool b).
Definition FInt (var name : string) (z : Z) : decl := MkDecl (str var) (str name) (VInt z).
Definition FUint (var name : string) (z : Z) : decl := MkDecl (str var) (str name) (VUint z).
Definition FString (var name value : string) : decl := MkDecl (str var) (str name) (VString (str value)).

Abbreviation settings := (gmap bytes value).

(** Declaring flags: each sets its variable; the same name twice is a panic. *)
Fixpoint declare (ds : list decl) (seen : list bytes) (st : settings) : outcome error settings :=
  match ds with
  | [] => Ret st
  | d :: ds =>
      if bool_decide (d_name d ∈ seen) then Panic
      else declare ds (d_name d :: seen) (<[d_var d := d_default d]> st)
  end.

(** ** Values *)

Definition ParseBool (s : bytes) : option bool :=
  if bool_decide (s ∈ [str "1"; str "t"; str "T"; str "true"; str "TRUE"; str "True"]) then Some true
  else if bool_decide (s ∈ [str "0"; str "f"; str "F"; str "false"; str "FALSE"; str "False"]) then Some false
  else None.

(** [strconv.ParseInt(s, 0, 64)]. *)
Definition ParseInt0 (s : bytes) : Z * option num_err :=
  let '(neg, d) := match s with
                   | x2b :: d => (false, d)
                   | x2d :: d => (true, d)
                   | _ => (false, s)
                   end in
  match ParseUint0 d 64 with
  | (_, Some ErrSyntax) => (0, Some ErrSyntax)
  | (un, _) =>
      if negb neg && (2 ^ 63 <=? un) then (2 ^ 63 - 1, Some ErrRange)
      else if neg && (2 ^ 63 <? un) then (- 2 ^ 63, Some ErrRange)
      else (if neg then - un else un, None)
  end.

(** The method [Set] of a value of the kind of [v]. *)
Definition Set_ (v : value) (s : bytes) : option value :=
  match v with
  | VBool _ => b ← ParseBool s; Some (VBool b)
  | VInt _ => match ParseInt0 s with (z, None) => Some (VInt z) | _ => None end
  | VUint _ => match ParseUint0 s 64 with (z, None) => Some (VUint z) | _ => None end
  | VString _ => Some (VString s)
  end.

(** ** Parsing *)

(** What an argument is to [parseOne]: the end of the flags, the terminator, wrong, or a flag with
    perhaps a value after an equals sign. *)
Inductive word := NotFlag | Terminator | BadSyntax | Flag (name : bytes) (value : option bytes).

(** [name[i] == '='] for the first [i] that is not 0. *)
Fixpoint split_equals (name : bytes) : bytes * option bytes :=
  match name with
  | [] => ([], None)
  | c :: name =>
      if byte_eqb c x3d then ([], Some name)
      else let '(n, v) := split_equals name in (c :: n, v)
  end.

Definition flag_name (name : bytes) : word :=
  match name with
  | [] => BadSyntax
  | c :: name =>
      if byte_eqb c x2d || byte_eqb c x3d then BadSyntax
      else let '(n, v) := split_equals name in Flag (c :: n) v
  end.

Definition classify (s : bytes) : word :=
  match s with
  | x2d :: x2d :: [] => Terminator
  | x2d :: x2d :: name => flag_name name
  | x2d :: [] => NotFlag
  | x2d :: name => flag_name name
  | _ => NotFlag
  end.

Definition lookup_flag (ds : list decl) (name : bytes) : option decl := find (fun d => bytes_eqb (d_name d) name) ds.

Definition is_bool (v : value) : bool := match v with VBool _ => true | _ => false end.

Definition ErrHelp : error := Errorf "flag: help requested".

(** [Parse]: the settings and the arguments that are left.  A failure ends the program with
    status 2. *)
Fixpoint parse (ds : list decl) (args : list bytes) (st : settings) : outcome error (settings * list bytes) :=
  match args with
  | [] => Ret (st, [])
  | s :: rest =>
      match classify s with
      | NotFlag => Ret (st, args)
      | Terminator => Ret (st, rest)
      | BadSyntax => Fail (Errorf "bad flag syntax: %s")
      | Flag name v =>
          match lookup_flag ds name with
          | None =>
              if bytes_eqb name (str "help") || bytes_eqb name (str "h") then Fail ErrHelp
              else Fail (Errorf "flag provided but not defined: -%s")
          | Some d =>
              if is_bool (d_default d) then
                match Set_ (d_default d) (default (str "true") v) with
                | Some x => parse ds rest (<[d_var d := x]> st)
                | None => Fail (Errorf "invalid boolean value %q for -%s: %v")
                end
              else
                match v, rest with
                | Some v, _ =>
                    match Set_ (d_default d) v with
                    | Some x => parse ds rest (<[d_var d := x]> st)
                    | None => Fail (Errorf "invalid value %q for flag -%s: %v")
                    end
                | None, v :: rest =>
                    match Set_ (d_default d) v with
                    | Some x => parse ds rest (<[d_var d := x]> st)
                    | None => Fail (Errorf "invalid value %q for flag -%s: %v")
                    end
                | None, [] => Fail (Errorf "flag needs an argument: -%s")
                end
          end
      end
  end.

(** The declarations of a command and then [flag.Parse] of its arguments. *)
Definition Parse (ds : list decl) (args : list bytes) : outcome error (settings * list bytes) :=
  st ← declare ds [] ∅; parse ds args st.

(** A variable of a command. *)
Definition get_bool (st : settings) (var : string) : bool := match st !! str var with Some (VBool b) => b | _ => false end.
Definition get_int (st : settings) (var : string) : Z := match st !! str var with Some (VInt z) | Some (VUint z) => z | _ => 0 end.
Definition get_string (st : settings) (var : string) : bytes := match st !! str var with Some (VString s) => s | _ => [] end.

(** ** Declarations *)

Lemma declare_seen ds seen st :
  NoDup (d_name <$> ds) -> (forall n, n ∈ seen -> n ∉ d_name <$> ds) ->
  declare ds seen st = Ret (foldl (fun st d => <[d_var d := d_default d]> st) st ds).
Proof.
  revert seen st. induction ds as [|d ds IH]; intros seen st Hn Hs; [done|]. cbn [declare foldl].
  rewrite fmap_cons in *. apply NoDup_cons in Hn as [Hd Hn].
  rewrite bool_decide_eq_false_2 by (intros Hi; apply (Hs _ Hi); left). apply IH; [done|].
  intros n [->|Hi]%elem_of_cons; [done|]. intros Hx. apply (Hs _ Hi). by right.
Qed.

(** Flags with distinct names are declared without a panic. *)
Lemma declare_distinct ds :
  NoDup (d_name <$> ds) -> declare ds [] ∅ = Ret (foldl (fun st d => <[d_var d := d_default d]> st) ∅ ds).
Proof. intros Hn. apply declare_seen; [done|]. intros n Hi. by apply elem_of_nil in Hi. Qed.

(** ** Printing and parsing *)

(** The text of a value, which [Set_] reads back. *)
Definition print_value (v : value) : bytes :=
  match v with
  | VBool b => str (if b then "true" else "false")
  | VInt z | VUint z => Itoa z
  | VString s => s
  end.

(** A value of a kind, within its range. *)
Definition fits (k v : value) : Prop :=
  match k, v with
  | VBool _, VBool _ => True
  | VInt _, VInt z => - 2 ^ 63 < z < 2 ^ 63
  | VUint _, VUint z => 0 <= z < 2 ^ 64
  | VString _, VString _ => True
  | _, _ => False
  end.

(** A name that can be given on a command line. *)
Definition name_ok (n : bytes) : Prop :=
  match n with [] => False | c :: m => c <> x2d /\ c <> x3d /\ x3d ∉ m end.

(** Ways to write a flag: with an equals sign, or the value as an argument of its own, which a
    boolean flag does not have. *)
Inductive style := Joined | Apart | Bare.

Definition style_ok (w : style) (v : value) : Prop :=
  match w, v with
  | Joined, _ => True
  | Apart, VBool _ => False
  | Apart, _ => True
  | Bare, VBool true => True
  | Bare, _ => False
  end.

Definition print_flag (w : style) (name : bytes) (v : value) : list bytes :=
  match w with
  | Joined => [x2d :: name ++ x3d :: print_value v]
  | Apart => [x2d :: name; print_value v]
  | Bare => [x2d :: name]
  end.

(** A use of a declared flag. *)
Record use := MkUse { u_style : style; u_decl : decl; u_value : value }.

Definition use_ok (ds : list decl) (u : use) : Prop :=
  u_decl u ∈ ds /\ fits (d_default (u_decl u)) (u_value u) /\ style_ok (u_style u) (u_value u).

Definition print_use (u : use) : list bytes := print_flag (u_style u) (d_name (u_decl u)) (u_value u).
Definition apply_use (st : settings) (u : use) : settings := <[d_var (u_decl u) := u_value u]> st.

Lemma split_equals_plain m v : x3d ∉ m -> split_equals (m ++ x3d :: v) = (m, Some v) /\ split_equals m = (m, None).
Proof.
  induction m as [|c m IH]; intros Hm; [done|]. apply not_elem_of_cons in Hm as [Hc Hm].
  cbn [app split_equals]. destruct (IH Hm) as [-> ->]. assert (byte_eqb c x3d = false) as -> by (by apply byte_eqb_neq).
  done.
Qed.

Lemma classify_name n : name_ok n -> classify (x2d :: n) = Flag n None /\ forall v, classify (x2d :: n ++ x3d :: v) = Flag n (Some v).
Proof.
  destruct n as [|c m]; [done|]. intros (H1 & H2 & H3). destruct (split_equals_plain m [] H3) as [_ Hn].
  assert (forall x, classify (x2d :: c :: x) = flag_name (c :: x)) as Hc by (intros x; destruct c; done).
  cbn [app]. rewrite !Hc. unfold flag_name.
  assert (byte_eqb c x2d || byte_eqb c x3d = false) as Hf.
  { apply orb_false_intro; by apply byte_eqb_neq. }
  rewrite Hf, Hn. split; [done|]. intros v. rewrite Hc. unfold flag_name. rewrite Hf. by rewrite (proj1 (split_equals_plain m v H3)).
Qed.

Lemma Itoa_digit z : 0 <= z -> exists c ds, Itoa z = c :: ds /\ is_digit c = true.
Proof. intros Hz. destruct (Itoa_spec z Hz) as (c & ds & -> & H & _). exists c, ds. by apply andb_prop in H as [? _]. Qed.

Lemma ParseInt0_Itoa z : - 2 ^ 63 < z < 2 ^ 63 -> ParseInt0 (Itoa z) = (z, None).
Proof.
  intros Hz. unfold ParseInt0. destruct (Z.ltb_spec z 0) as [Hn|Hp].
  - assert (Itoa z = x2d :: Itoa (- z)) as ->.
    { unfold Itoa. rewrite (proj2 (Z.ltb_lt z 0)) by done. by rewrite (proj2 (Z.ltb_ge (- z) 0)) by lia. }
    rewrite ParseUint0_Itoa by lia. cbn [negb andb]. rewrite (proj2 (Z.ltb_ge _ _)) by lia. f_equal. lia.
  - destruct (Itoa_digit z Hp) as (c & ds & E & Hc). rewrite <- (ParseUint0_Itoa z 64) by lia.
    assert ((match Itoa z with x2b :: d => (false, d) | x2d :: d => (true, d) | _ => (false, Itoa z) end) = (false, Itoa z)) as ->
      by (rewrite E; destruct c; done).
    rewrite ParseUint0_Itoa by lia. cbn [negb andb]. by rewrite (proj2 (Z.leb_gt _ _)) by lia.
Qed.

Lemma Set_print k v : fits k v -> Set_ k (print_value v) = Some v.
Proof.
  destruct k, v; cbn [fits Set_ print_value]; try done; intros H.
  - by destruct b0.
  - by rewrite ParseInt0_Itoa.
  - by rewrite ParseUint0_Itoa.
Qed.

Lemma lookup_declared ds d : NoDup (d_name <$> ds) -> d ∈ ds -> lookup_flag ds (d_name d) = Some d.
Proof.
  unfold lookup_flag. induction ds as [|e ds IH]; intros Hn Hd; [by apply elem_of_nil in Hd|].
  rewrite fmap_cons in Hn. apply NoDup_cons in Hn as [He Hn]. cbn [find]. unfold bytes_eqb.
  apply elem_of_cons in Hd as [<-|Hd]; [by rewrite bool_decide_eq_true_2|].
  rewrite bool_decide_eq_false_2; [by apply IH|]. intros E. apply He. rewrite E. by apply list_elem_of_fmap_2.
Qed.

(** A table of flags that a command can have. *)
Definition table_ok (ds : list decl) : Prop := NoDup (d_name <$> ds) /\ Forall (fun d => name_ok (d_name d)) ds.

Lemma parse_use ds u st tail :
  table_ok ds -> use_ok ds u -> parse ds (print_use u ++ tail) st = parse ds tail (apply_use st u).
Proof.
  intros [Hn Hk] (Hd & Hf & Hs). destruct u as [w d v]. cbn [u_style u_decl u_value] in *.
  pose proof (lookup_declared _ _ Hn Hd) as Hl. rewrite Forall_forall in Hk. pose proof (Hk _ Hd) as Hname.
  destruct (classify_name _ Hname) as [Hc1 Hc2]. pose proof (Set_print _ _ Hf) as Hset.
  unfold print_use, apply_use. cbn [u_style u_decl u_value].
  destruct w; cbn [print_flag app parse]; rewrite ?Hc1, ?Hc2, Hl; unfold default, from_option, id.
  - destruct (is_bool _); by rewrite Hset.
  - destruct (d_default d), v; try done; cbn [is_bool]; by rewrite Hset.
  - destruct (d_default d), v as [[]| | |]; done.
Qed.

(** Flags that are written out are read in order, whatever the way they are written. *)
Lemma parse_uses ds us st tail :
  table_ok ds -> Forall (use_ok ds) us ->
  parse ds (concat (print_use <$> us) ++ tail) st = parse ds tail (foldl apply_use st us).
Proof.
  intros Ht Hu. revert st. induction Hu as [|u us Hu _ IH]; intros st; [done|].
  rewrite fmap_cons. cbn [concat foldl]. rewrite <- app_assoc, parse_use by done. apply IH.
Qed.

Lemma Parse_uses ds us tail :
  table_ok ds -> Forall (use_ok ds) us ->
  Parse ds (concat (print_use <$> us) ++ tail) =
    parse ds tail (foldl apply_use (foldl (fun st d => <[d_var d := d_default d]> st) ∅ ds) us).
Proof.
  intros Ht Hu. unfold Parse. rewrite declare_distinct by apply Ht. unfold mbind, outcome_bind. by apply parse_uses.
Qed.

(** The arguments that are left are the last ones. *)
Lemma parse_suffix ds args st st' rest : parse ds args st = Ret (st', rest) -> rest `suffix_of` args.
Proof.
  revert st. induction args as [args IH] using (induction_ltof1 _ (@length bytes)); intros st H. unfold ltof in IH.
  destruct args as [|s args]; [by injection H as _ <-|]. cbn [parse] in H.
  assert (forall l st, l `suffix_of` args -> parse ds l st = Ret (st', rest) -> rest `suffix_of` s :: args) as Hrec.
  { intros l st1 Hl H1. trans l; [|by apply suffix_cons_r]. apply (IH l) in H1; [done|].
    apply suffix_length in Hl. cbn. lia. }
  destruct (classify s) as [| | |name v]; [by injection H as _ <-|injection H as _ <-; by apply suffix_cons_r|done|].
  destruct (lookup_flag ds name) as [d|]; [|by destruct (_ || _)].
  destruct (is_bool _); [destruct (Set_ _ _); [by eapply Hrec, H|done]|].
  destruct v as [v|]; [destruct (Set_ _ _); [by eapply Hrec, H|done]|].
  destruct args as [|v args]; [done|]. destruct (Set_ _ _); [|done]. by eapply Hrec, H; apply suffix_cons_r.
Qed.

(** Only declared variables change. *)
Lemma parse_keeps ds args st st' rest x :
  parse ds args st = Ret (st', rest) -> x ∉ d_var <$> ds -> st' !! x = st !! x.
Proof.
  intros H Hx. revert st H. induction args as [args IH] using (induction_ltof1 _ (@length bytes)); intros st H. unfold ltof in IH.
  destruct args as [|s args]; [by injection H as <- _|]. cbn [parse] in H.
  destruct (classify s) as [| | |name v]; [by injection H as <- _..|done|].
  destruct (lookup_flag ds name) as [d|] eqn:Ed; [|by destruct (_ || _)].
  assert (d_var d <> x) as Hne.
  { intros <-. apply Hx, list_elem_of_fmap_2. by apply find_some in Ed as [?%list_elem_of_In _]. }
  assert (forall l v, (length l < length (s :: args))%nat -> parse ds l (<[d_var d := v]> st) = Ret (st', rest) -> st' !! x = st !! x) as Hrec.
  { intros l v' Hl H1. apply (IH l Hl) in H1. rewrite H1. by apply lookup_insert_ne. }
  destruct (is_bool _); [destruct (Set_ _ _); [by apply (Hrec args) in H; [|cbn; lia]|done]|].
  destruct v as [v|]; [destruct (Set_ _ _); [by apply (Hrec args) in H; [|cbn; lia]|done]|].
  destruct args as [|v args]; [done|]. destruct (Set_ _ _); [|done]. by apply (Hrec args) in H; [|cbn; lia].
Qed.

Example Parse_ex :
  match Parse [FBool "long" "l" false; FInt "count" "n" 3; FString "out" "o" ""]
    [str "-l"; str "--n=0x10"; str "-o"; str "-x"; str "file"; str "-l"] with
  | Ret (st, rest) =>
      get_bool st "long" = true /\ get_int st "count" = 16 /\ get_string st "out" = str "-x" /\ rest = [str "file"; str "-l"]
  | _ => False
  end.
Proof. vm_compute. done. Qed.
