(* ===== verification/FlagTables.v ===== *)
(** * The flags of the commands

    The declarations of flags of every command that has some, in the order of the source: for each
    the variable, the name and the default.  The number of processors is a parameter.  All tables
    are well formed: no name is declared twice, which would end a program before [main], and every
    name can be given on a command line. *)

From Stdlib Require Import Strings.String.
From S2P Require Export Flags.

Module Tables.
Definition bb_flags : list decl :=
  [FBool "dumpAST" "D" false].
Definition bb_config_flags : list decl :=
  [FBool "Debug" "d" false].
Definition bb_ramfs_flags : list decl :=
  [FString "extraAdd" "add" ""; FString "extraCpio" "cpio" ""].
Definition archive_flags : list decl :=
  [FBool "d" "d" false].
Definition builtin_flags : list decl :=
  [FBool "debug" "d" false].
Definition cat_flags : list decl :=
  [FBool "_" "u" false].
Definition cmp_flags : list decl :=
  [FBool "long" "l" false; FBool "line" "L" false; FBool "silent" "s" false].
Definition comm_flags : list decl :=
  [FBool "s1" "1" false; FBool "s2" "2" false; FBool "s3" "3" false; FBool "help" "h" false].
Definition console_flags : list decl :=
  [FString "serial" "serial" "0x3f8"; FBool "setupRoot" "setuproot" true].
Definition cp_flags (NumCPU : Z) : list decl :=
  [FInt "nwork" "w" NumCPU; FBool "recursive" "R" false; FBool "recursive" "r" false;
   FBool "ask" "i" false; FBool "force" "f" false; FBool "verbose" "v" false; FBool "symlink" "P" false].
Definition cpio_flags : list decl :=
  [FBool "d" "v" false; FString "format" "H" "newc"].
Definition date_flags : list decl :=
  [FBool "universal" "u" false].
Definition dd_flags : list decl :=
  [FInt "ibs" "ibs" 512; FInt "obs" "obs" 512; FInt "bs" "bs" 0; FInt "skip" "skip" 0;
   FInt "seek" "seek" 0; FString "conv" "conv" "none"; FInt "count" "count" (2 ^ 63 - 1);
   FString "inName" "if" ""; FString "outName" "of" ""; FString "status" "status" "xfer"].
Definition dhclient_flags : list decl :=
  [FInt "leasetimeout" "timeout" 15; FInt "retry" "retry" (-1); FInt "renewals" "renewals" (-1);
   FBool "verbose" "verbose" false; FBool "ipv4" "ipv4" true; FBool "ipv6" "ipv6" true;
   FBool "test" "test" false].
Definition dmesg_flags : list decl :=
  [FBool "clear" "clear" false; FBool "readClear" "read-clear" false; FBool "readClear" "c" false].
Definition echo_flags : list decl :=
  [FBool "nonewline" "n" false].
Definition ectool_flags : list decl :=
  [FBool "lpcdebug" "lpcdebug" true; FString "defaultChip" "chip" "lpc"].
Definition ed_flags : list decl :=
  [FBool "d" "d" false; FString "fileType" "t" "text"].
Definition field_flags : list decl :=
  [FBool "nuloutsep" "0" false; FBool "preserveEmpty" "e" false; FBool "discardEmpty" "E" false;
   MkDecl (str "insep") (str "F") (VString (str "[ " ++ [x09; x0b; x0d] ++ str "]+"));
   FString "outsep" "O" " "].
Definition freq_flags : list decl :=
  [FBool "utf" "r" false; FBool "dec" "d" false; FBool "hex" "x" false; FBool "oct" "o" false;
   FBool "chr" "c" false].
Definition gpgv_flags : list decl :=
  [FBool "verbose" "v" false].
Definition gpt_flags : list decl :=
  [FBool "write" "w" false].
Definition grep_flags : list decl :=
  [FBool "match" "v" true; FBool "recursive" "r" false; FBool "noshowmatch" "l" false;
   FBool "quiet" "q" false].
Definition id_flags : list decl :=
  [FBool "group" "g" false; FBool "groups" "G" false; FBool "name" "n" false; FBool "user" "u" false].
Definition init_flags : list decl :=
  [FBool "verbose" "v" false; FBool "ludicrous" "ludicrous" false; FBool "test" "test" false].
Definition installcommand_flags : list decl :=
  [FBool "lowpri" "lowpri" false; FBool "ludicrous" "ludicrous" false; FBool "onlybuild" "onlybuild" false;
   FBool "noforce" "noforce" false; FBool "verbose" "v" false].
Definition kexec_flags : list decl :=
  [FString "cmdline" "cmdline" ""; FString "cmdline" "command-line" "";
   FBool "reuseCmdline" "reuse-cmdline" false; FString "initramfs" "i" "";
   FString "initramfs" "initrd" ""; FString "initramfs" "ramdisk" ""; FBool "load" "l" false;
   FBool "load" "load" false; FBool "exec" "e" false; FBool "exec" "exec" false].
Definition ln_flags : list decl :=
  [FBool "symlink" "s" false; FBool "verbose" "v" false; FBool "force" "f" false; FBool "nondir" "T" false;
   FBool "prompt" "i" false; FBool "logical" "L" false; FBool "physical" "P" false;
   FBool "relative" "r" false; FString "dirtgt" "t" ""].
Definition losetup_flags : list decl :=
  [FBool "anyLoop" "A" true; FBool "detach" "d" false].
Definition ls_flags : list decl :=
  [FBool "long" "l" false; FBool "quoted" "Q" false; FBool "recurse" "R" false].
Definition mkdir_flags : list decl :=
  [FBool "mkall" "p" false; FInt "mode" "m" 0x1b6; FBool "verbose" "v" false].
Definition mm_flags : list decl :=
  [FString "dest" "d" "/u"].
Definition mount_flags : list decl :=
  [FBool "ro" "r" false; FString "fsType" "t" ""; FString "data" "o" ""].
Definition netcat_flags : list decl :=
  [FString "netType" "net" "tcp"].
Definition pci_flags : list decl :=
  [FBool "numbers" "n" false].
Definition pflask_flags : list decl :=
  [FString "cgpath" "cgpath" "/sys/fs/cgroup"; FString "cgroup" "cgroup" ""; FString "mnt" "mount" "";
   FString "chroot" "chroot" ""; FString "chdir" "chdir" "/";
   FString "console" "console" "/dev/console"; FBool "keepenv" "keepenv" false; FString "env" "env" "";
   FString "user" "user" "root"].
Definition ping_flags : list decl :=
  [FBool "net6" "6" false; FInt "packetSize" "s" 64; FInt "iter" "c" 0; FInt "intv" "i" 1000;
   FBool "version" "V" false; FInt "wtf" "w" 100; FBool "help" "h" false].
Definition ps_flags : list decl :=
  [FBool "all" "A" false; FBool "all" "e" false; FBool "x" "x" false; FBool "nSidTty" "a" false].
Definition pwd_flags : list decl :=
  [FBool "logical" "L" true; FBool "physical" "P" false].
Definition readlink_flags : list decl :=
  [FBool "follow" "f" false; FBool "verbose" "v" false].
Definition rm_flags : list decl :=
  [FBool "i" "i" false; FBool "v" "v" false; FBool "r" "R" false; FBool "r" "r" false].
Definition run_flags : list decl :=
  [FBool "verbose" "v" false].
Definition seq_flags : list decl :=
  [FString "format" "f" "%v"; MkDecl (str "separator") (str "s") (VString [x0a]);
   FBool "widthEqual" "w" false].
Definition shutdown_flags : list decl :=
  [FBool "dryrun" "dryrun" false].
Definition sort_flags : list decl :=
  [FBool "reverse" "r" false; FString "outputFile" "o" ""].
Definition srvfiles_flags : list decl :=
  [FString "host" "h" "127.0.0.1"; FString "port" "p" "8080"; FString "dir" "d" "."].
Definition switch_root_flags : list decl :=
  [FBool "help" "h" false; FBool "version" "V" false].
Definition tcz_flags : list decl :=
  [FString "host" "h" "tinycorelinux.net"; FString "version" "v" "8.x"; FString "arch" "a" "x86_64";
   FString "port" "p" "80"; FBool "install" "i" true; FString "tczRoot" "r" "/tcz";
   FBool "debugPrint" "d" false; FString "skip" "skip" ""].
Definition tee_flags : list decl :=
  [FBool "cat" "a" false; FBool "ignore" "i" false].
Definition truncate_flags : list decl :=
  [FBool "create" "c" false; FString "sizeStr" "s" ""].
Definition umount_flags : list decl :=
  [FBool "force" "f" false; FBool "lazy" "l" false].
Definition uname_flags : list decl :=
  [FBool "all" "a" false; FBool "kernel" "s" false; FBool "node" "n" false; FBool "release" "r" false;
   FBool "version" "v" false; FBool "machine" "m" false; FBool "domain" "d" false].
Definition uniq_flags : list decl :=
  [FBool "uniques" "u" false; FBool "duplicates" "d" false; FBool "count" "c" false].
Definition unshare_flags : list decl :=
  [FBool "ipc" "ipc" false; FBool "mount" "mount" false; FBool "pid" "pid" false; FBool "net" "net" false;
   FBool "uts" "uts" false; FBool "user" "user" false; FBool "maproot" "map-root-user" false].
Definition validate_flags : list decl :=
  [FBool "armored" "a" false; FString "sumfile" "i" ""; FString "alg" "alg" ""; FBool "verbose" "v" false].
Definition vboot_flags : list decl :=
  [FString "publicKey" "pubkey" "/etc/sig.pub"; FUint "pcr" "pcr" 12;
   FString "bootDev" "boot-device" "/dev/sda1"; FString "linuxKernel" "kernel" "/mnt/vboot/kernel";
   FString "linuxKernelSignature" "kernel-sig" "/mnt/vboot/kernel.sig";
   FString "initrd" "initrd" "/mnt/vboot/initrd";
   FString "initrdSignature" "initrd-sig" "/mnt/vboot/initrd.sig"; FBool "debug" "debug" false;
   FBool "noTPM" "no-tpm" false].
Definition wc_flags : list decl :=
  [FBool "lines" "l" false; FBool "words" "w" false; FBool "runes" "r" false; FBool "broken" "b" false;
   FBool "chars" "c" false].
Definition which_flags : list decl :=
  [FBool "allPaths" "a" false].
Definition wifi_flags : list decl :=
  [FString "iface" "i" "wlan0"].
Definition checklicenses_flags : list decl :=
  [FBool "absPath" "a" false].
Definition ramfs_flags : list decl :=
  [FBool "UseExistingInit" "useinit" false; FString "InitialCpio" "cpio" ""; FString "TempDir" "tmpdir" ""].

(** The three files of the program [bb]. *)
Definition bb_program_flags : list decl := bb_flags ++ bb_config_flags ++ bb_ramfs_flags.
End Tables.
Import Tables.

(** Every program with its flags. *)
Definition all_flags (n : Z) : list (string * list decl) :=
  [("bb"%string, bb_program_flags); ("archive"%string, archive_flags); ("builtin"%string, builtin_flags);
   ("cat"%string, cat_flags); ("cmp"%string, cmp_flags); ("comm"%string, comm_flags); ("console"%string,
   console_flags); ("cp"%string, cp_flags n); ("cpio"%string, cpio_flags); ("date"%string, date_flags);
   ("dd"%string, dd_flags); ("dhclient"%string, dhclient_flags); ("dmesg"%string, dmesg_flags);
   ("echo"%string, echo_flags); ("ectool"%string, ectool_flags); ("ed"%string, ed_flags); ("field"%string,
   field_flags); ("freq"%string, freq_flags); ("gpgv"%string, gpgv_flags); ("gpt"%string, gpt_flags);
   ("grep"%string, grep_flags); ("id"%string, id_flags); ("init"%string, init_flags);
   ("installcommand"%string, installcommand_flags); ("kexec"%string, kexec_flags); ("ln"%string, ln_flags);
   ("losetup"%string, losetup_flags); ("ls"%string, ls_flags); ("mkdir"%string, mkdir_flags); ("mm"%string,
   mm_flags); ("mount"%string, mount_flags); ("netcat"%string, netcat_flags); ("pci"%string, pci_flags);
   ("pflask"%string, pflask_flags); ("ping"%string, ping_flags); ("ps"%string, ps_flags); ("pwd"%string,
   pwd_flags); ("readlink"%string, readlink_flags); ("rm"%string, rm_flags); ("run"%string, run_flags);
   ("seq"%string, seq_flags); ("shutdown"%string, shutdown_flags); ("sort"%string, sort_flags);
   ("srvfiles"%string, srvfiles_flags); ("switch_root"%string, switch_root_flags); ("tcz"%string,
   tcz_flags); ("tee"%string, tee_flags); ("truncate"%string, truncate_flags); ("umount"%string,
   umount_flags); ("uname"%string, uname_flags); ("uniq"%string, uniq_flags); ("unshare"%string,
   unshare_flags); ("validate"%string, validate_flags); ("vboot"%string, vboot_flags); ("wc"%string,
   wc_flags); ("which"%string, which_flags); ("wifi"%string, wifi_flags); ("checklicenses"%string,
   checklicenses_flags); ("ramfs"%string, ramfs_flags)].

(** ** Checks *)

Definition name_okb (n : bytes) : bool :=
  match n with [] => false | c :: m => negb (byte_eqb c x2d) && negb (byte_eqb c x3d) && forallb (fun b => negb (byte_eqb b x3d)) m end.

Definition table_okb (ds : list decl) : bool :=
  bool_decide (NoDup (d_name <$> ds)) && forallb (fun d => name_okb (d_name d)) ds.

(** All names of a variable have the same default. *)
Definition aliases_agree (ds : list decl) : bool :=
  forallb (fun d => forallb (fun e => (negb (bytes_eqb (d_var d) (d_var e)) || bytes_eqb (d_name d) (d_name e)) || bool_decide (d_default d = d_default e)) ds) ds.

Lemma name_okb_ok n : name_okb n = true -> name_ok n.
Proof.
  destruct n as [|c m]; [done|]. cbn. rewrite !andb_true_iff, !negb_true_iff, !byte_eqb_neq. intros [[H1 H2] H3].
  split_and!; [done..|]. intros Hin. rewrite forallb_forall in H3. specialize (H3 x3d).
  rewrite <- list_elem_of_In in H3. by specialize (H3 Hin).
Qed.

Lemma table_okb_ok ds : table_okb ds = true -> table_ok ds.
Proof.
  unfold table_okb. rewrite andb_true_iff, bool_decide_eq_true. intros [H1 H2]. split; [done|].
  apply Forall_forall. intros d Hd. apply name_okb_ok. rewrite forallb_forall in H2. by apply H2, list_elem_of_In.
Qed.

Lemma all_flags_checked n : forallb (fun e => table_okb e.2 && aliases_agree e.2) (all_flags n) = true.
Proof. vm_compute. reflexivity. Qed.

Lemma all_flags_ok n name ds : (name, ds) ∈ all_flags n -> table_ok ds /\ aliases_agree ds = true.
Proof.
  intros Hin. pose proof (all_flags_checked n) as H. rewrite forallb_forall in H.
  specialize (H (name, ds) (proj1 (list_elem_of_In _ _) Hin)). apply andb_prop in H as [H1 H2]. split; [by apply table_okb_ok|done].
Qed.

(** Every table of flags is one the package can work with: for each program, flags that are written as [print_use]
    does, in any order, with arguments after the terminator, set their variables over the defaults in the order
    given, and leave the arguments. *)
Theorem flags_roundtrip n name ds us rest :
  (name, ds) ∈ all_flags n -> Forall (use_ok ds) us ->
  Parse ds (concat (print_use <$> us) ++ str "--" :: rest) =
    Ret (foldl apply_use (foldl (fun st d => <[d_var d := d_default d]> st) ∅ ds) us, rest).
Proof.
  intros Hin Hu. destruct (all_flags_ok n name ds Hin) as [Ht _]. by rewrite Parse_uses.
Qed.

Lemma flags_roundtrip_witness :
  match Parse (cp_flags 4) [str "-r"; str "-w=2"; str "-w"; str "3"; str "--"; str "-f"] with
  | Ret (st, rest) => get_bool st "recursive" = true /\ get_int st "nwork" = 3 /\ get_bool st "force" = false /\ rest = [str "-f"]
  | _ => False
  end.
Proof.
  pose proof (flags_roundtrip 4 "cp" (cp_flags 4)
    [MkUse Bare (FBool "recursive" "r" false) (VBool true); MkUse Joined (FInt "nwork" "w" 4) (VInt 2);
     MkUse Apart (FInt "nwork" "w" 4) (VInt 3)] [str "-f"]) as H.
  change (concat (print_use <$> [MkUse Bare (FBool "recursive" "r" false) (VBool true); MkUse Joined (FInt "nwork" "w" 4) (VInt 2);
     MkUse Apart (FInt "nwork" "w" 4) (VInt 3)]) ++ str "--" :: [str "-f"]) with [str "-r"; str "-w=2"; str "-w"; str "3"; str "--"; str "-f"] in H.
  rewrite H; [vm_compute; done| |].
  - vm_compute. repeat (first [left | right]).
  - repeat constructor; vm_compute; try done; repeat (first [left | right]).
Defined.
