(* ===== verification/CpioCmd.v ===== *)
(** * The [cpio] command

    [main] of [cmds/cpio/cpio.go] from its arguments on: the flags, the registry of formats and the
    three modes, whose loops are in [CpioFs].  An archive that mode [o] makes of the files of a list is
    followed through the modes that list and extract it. *)

From Stdlib Require Import Strings.String.
From S2P Require Import CpioFs GoText FlagTables.
Import Tables.

(** What a run leaves behind. *)
Inductive cpio_output := Extracted (tr : list call) | Archived (archive : bytes) | Listed (l : list Info).

Section Main.
Context (sys : list call -> call -> option error) (fs : files) (h : host).

(** The formats that are linked in: [newc] registers itself. *)
Definition formats0 : option (registry bytes) := AddFormat (str "newc") newcMagic (MkRegistry ∅ []).

Definition cpio_main (fuel : nat) (format : bytes) (a : list bytes) (stdin : bytes) : option (option cpio_output * outcome error unit) :=
  match a with
  | [] => Some (None, Fail (Errorf "Usage: cpio"))
  | op :: _ =>
      match (match formats0 with Some g => Format format g | None => Panic end) with
      | Fail _ => Some (None, Fail (Errorf "Format %q not supported: %v"))
      | Panic => Some (None, Panic)
      | Ret magic =>
          if bytes_eqb op (str "i") then '(tr, r) ← cpio_i sys fs fuel (NewReader magic stdin) []; Some (Some (Extracted tr), r)
          else if bytes_eqb op (str "o") then let '(b, r) := cpio_o fs h stdin in Some (Some (Archived b), r)
          else if bytes_eqb op (str "t") then '(l, r) ← cpio_t fs fuel (NewReader magic stdin) []; Some (Some (Listed l), r)
          else Some (None, Fail (Errorf "Usage: cpio"))
      end
  end.

(** With the command line. *)
Definition cpio_line (fuel : nat) (args : list bytes) (stdin : bytes) : option (option cpio_output * outcome error unit) :=
  match Parse cpio_flags args with
  | Ret (st, a) => cpio_main fuel (get_string st "format") a stdin
  | Fail e => Some (None, Fail e)
  | Panic => Some (None, Panic)
  end.

(** ** The modes over the records of an archive *)

(** The records of a list of names, taken one after the other. *)
Fixpoint get_records (names : list bytes) (t : inodes) : outcome error (list Rec) :=
  match names with
  | [] => Ret []
  | n :: names =>
      match GetRecord h n t with
      | (t, Ret r) => rs ← get_records names t; Ret (r :: rs)
      | (_, Fail e) => Fail e
      | (_, Panic) => Panic
      end
  end.

(** Extracting records: one that fails is skipped. *)
Fixpoint extract_all (rs : list Rec) (tr : list call) : list call * outcome error unit :=
  match rs with
  | [] => (tr, Ret tt)
  | r :: rs => match CreateFile sys fs r tr with (tr, Panic) => (tr, Panic) | (tr, _) => extract_all rs tr end
  end.

Lemma cpio_o_names_records names w t rs :
  get_records names t = Ret rs ->
  match CWriter_WriteRecords rs w with
  | (w', Ret _) => exists t', cpio_o_names fs h names w t = (w', t', Ret tt)
  | _ => True
  end.
Proof.
  revert w t rs. induction names as [|n names IH]; intros w t rs; cbn [get_records cpio_o_names].
  - intros [= <-]. cbn. eauto.
  - destruct (GetRecord h n t) as [t1 [r|e|]]; [|done..]. destruct (get_records names t1) as [rs1|e|] eqn:E1; [|done..].
    cbn. intros [= <-]. cbn [CWriter_WriteRecords]. unfold mbind, M_bind. destruct (CWriter_WriteRecord r w) as [w1 [[]|e|]]; [|done..].
    apply IH, E1.
Qed.

Lemma cpio_t_reads fuel d acc d' rs :
  @ReadRecords_loop (newc_format fs) fuel acc d = Some (d', Ret rs) ->
  cpio_t fs fuel d (info <$> acc) = Some (info <$> rs, Ret tt).
Proof.
  revert d acc. induction fuel as [|fuel IH]; intros d acc; [done|]. cbn [ReadRecords_loop cpio_t].
  destruct (Reader_ReadRecord d) as [d1 [r|e|]]; [|by destruct e; try done; intros [= <- <-]|done].
  intros H%IH. by rewrite fmap_app in H.
Qed.

Lemma cpio_i_reads fuel d acc d' rs tr :
  @ReadRecords_loop (newc_format fs) fuel acc d = Some (d', Ret rs) ->
  exists rs', rs = acc ++ rs' /\ cpio_i sys fs fuel d tr = Some (extract_all rs' tr).
Proof.
  revert d acc tr. induction fuel as [|fuel IH]; intros d acc tr; [done|]. cbn [ReadRecords_loop cpio_i].
  destruct (Reader_ReadRecord d) as [d1 [r|e|]].
  - intros H. destruct (CreateFile sys fs r tr) as [tr1 o] eqn:Ec. destruct (IH d1 (acc ++ [r]) tr1 H) as (rs' & -> & E).
    exists (r :: rs'). rewrite <- app_assoc. split; [done|]. cbn [extract_all]. rewrite Ec. by destruct o.
  - destruct e; try done. intros [= <- <-]. exists []. by rewrite app_nil_r.
  - done.
Qed.
End Main.

Lemma bind_then {S A} (m : M S unit) (n : M S A) s s2 a :
  (m ≫= fun _ => n) s = (s2, Ret a) -> exists s1, m s = (s1, Ret tt) /\ n s1 = (s2, Ret a).
Proof. unfold mbind, M_bind. destruct (m s) as [s1 [[]|e|]]; [eauto|done..]. Qed.

Lemma cpio_o_archives fs h files rs :
  Forall scannable files -> get_records h files inodes0 = Ret rs ->
  Forall (newc_writable fs) (survivors ∅ rs) -> Trailer ∉ names (survivors ∅ rs) ->
  exists archive, cpio_o fs h (unlines files) = (archive, Ret tt) /\
    exists d, @ReadRecords (newc_format fs) (S (length (survivors ∅ rs))) (NewReader newcMagic archive) =
      Some (d, Ret (newc_kept fs <$> survivors ∅ rs)).
Proof.
  intros Hl Hg Hw Ht. destruct (archive_written fs rs Hw Ht) as (w & E & Hd). apply bind_then in E as (w1 & E1 & E2).
  pose proof (cpio_o_names_records fs h files (NewArchive fs) inodes0 rs Hg) as Hn. rewrite E1 in Hn. destruct Hn as [t' Hn].
  eexists. split; [|exact Hd]. unfold cpio_o. rewrite ScanLines_unlines, Hn, E2 by done. done.
Qed.

Lemma parse_op op :
  op ∈ [str "i"; str "o"; str "t"] -> exists st, Parse cpio_flags [op] = Ret (st, [op]) /\ get_string st "format" = str "newc".
Proof.
  intros Hop. assert (classify op = NotFlag) as Hc
    by (repeat (apply elem_of_cons in Hop as [->|Hop]; [vm_compute; reflexivity|]); by apply elem_of_nil in Hop).
  pose proof (Parse_uses cpio_flags [] [op]) as H. cbn [fmap list_fmap concat app foldl] in H. rewrite H.
  - cbn [parse]. rewrite Hc. eexists. split; [reflexivity|vm_compute; reflexivity].
  - apply table_okb_ok. vm_compute. reflexivity.
  - constructor.
Qed.

Lemma cpio_line_op sys fs h fuel op stdin :
  op ∈ [str "i"; str "o"; str "t"] -> cpio_line sys fs h fuel [op] stdin = cpio_main sys fs h fuel (str "newc") [op] stdin.
Proof. intros (st & E & Ef)%parse_op. unfold cpio_line. by rewrite E, Ef. Qed.

(** C4: an archive that [cpio o] makes of a list of files is listed by [cpio t] and extracted by [cpio i]:
    when the files can be read and stored, every one is in the archive under its relative name, once,
    with what [newc] keeps of it, in the order of the list; [t] prints exactly these, and [i] runs
    [CreateFile] on exactly these. *)
Theorem cpio_commands_agree sys fs h files rs :
  Forall scannable files -> get_records h files inodes0 = Ret rs ->
  Forall (newc_writable fs) (survivors ∅ rs) -> Trailer ∉ names (survivors ∅ rs) ->
  let kept := newc_kept fs <$> survivors ∅ rs in
  let fuel := S (length (survivors ∅ rs)) in
  exists archive,
    cpio_line sys fs h fuel [str "o"] (unlines files) = Some (Some (Archived archive), Ret tt) /\
    cpio_line sys fs h fuel [str "t"] archive = Some (Some (Listed (info <$> kept)), Ret tt) /\
    cpio_line sys fs h fuel [str "i"] archive =
      (let '(tr, r) := extract_all sys fs kept [] in Some (Some (Extracted tr), r)).
Proof.
  intros Hl Hg Hw Ht. cbv zeta. destruct (cpio_o_archives fs h files rs Hl Hg Hw Ht) as (archive & Ho & d & Hr).
  exists archive. rewrite !cpio_line_op by (repeat constructor). unfold cpio_main, formats0, AddFormat, Format. cbn [formatMap].
  rewrite lookup_empty. cbn [formatMap]. rewrite lookup_insert_eq.
  change (bytes_eqb (str "o") (str "i")) with false. change (bytes_eqb (str "o") (str "o")) with true.
  change (bytes_eqb (str "t") (str "i")) with false. change (bytes_eqb (str "t") (str "o")) with false.
  change (bytes_eqb (str "t") (str "t")) with true. change (bytes_eqb (str "i") (str "i")) with true. cbv iota.
  rewrite Ho. unfold ReadRecords in Hr. pose proof (cpio_t_reads fs _ _ _ _ _ Hr) as E. cbn [fmap list_fmap] in E.
  destruct (cpio_i_reads sys fs _ _ _ _ _ [] Hr) as (rs' & Ers & Ei). cbn [app] in Ers. subst rs'.
  split; [done|]. split; [|by rewrite Ei].
  by rewrite E.
Qed.

(** A directory, a file under two spellings of its name, and a symbolic link. *)
Definition ex_lstat (p : bytes) : outcome error Stat_t :=
  if bytes_eqb p (str "etc") then Ret (MkStat 0x801 2 (Z.lor modeDir 0x1ed) 2 0 0 0 4096 7)
  else if bytes_eqb p (str "bin/sh") then Ret (MkStat 0x801 3 (Z.lor modeSymlink 0x1ff) 1 0 0 0 2 7)
  else Ret (MkStat 0x801 4 (Z.lor modeFile 0x1a4) 1 0 0 0 5 7).
Definition ex_host : host := MkHost ex_lstat (fun _ => Ret (str "bb")) (fun _ => Ret []).
Definition ex_fs : files := fun p => if bytes_eqb p (str "/etc/motd") then plain (str "hello") else inr (Errno 2).
Definition ex_list : list bytes := [str "etc"; str "/etc/motd"; str "etc/motd"; str "bin/sh"].
Definition ex_records : list Rec := match get_records ex_host ex_list inodes0 with Ret rs => rs | _ => [] end.

#[local] Instance scannable_dec l : Decision (scannable l).
Proof. unfold scannable, is_line. apply _. Defined.

Lemma cpio_commands_agree_witness :
  exists archive l,
    cpio_line (fun _ _ => None) ex_fs ex_host 4 [str "o"] (unlines ex_list) = Some (Some (Archived archive), Ret tt) /\
    cpio_line (fun _ _ => None) ex_fs ex_host 4 [str "t"] archive = Some (Some (Listed l), Ret tt) /\
    Name <$> l = [str "etc"; str "etc/motd"; str "bin/sh"].
Proof.
  destruct (cpio_commands_agree (fun _ _ => None) ex_fs ex_host ex_list ex_records) as (archive & Ho & Ht & _).
  - apply (bool_decide_unpack _). vm_compute. exact I.
  - vm_compute. reflexivity.
  - assert (survivors ∅ ex_records = [nth 0 ex_records TrailerRecord;
      map_info (set_Name (str "etc/motd")) (nth 1 ex_records TrailerRecord); nth 3 ex_records TrailerRecord]) as -> by (vm_compute; reflexivity).
    repeat apply Forall_cons_2; try apply Forall_nil_2; (split; [vm_compute; reflexivity|]); intros c Hc; vm_compute in Hc; injection Hc as <-;
      eexists; (split; [split; vm_compute; reflexivity|]); split; vm_compute; reflexivity.
  - assert (names (survivors ∅ ex_records) = [str "etc"; str "etc/motd"; str "bin/sh"]) as -> by (vm_compute; reflexivity).
    apply (bool_decide_unpack _). vm_compute. exact I.
  - exists archive. eexists. split; [exact Ho|]. split; [exact Ht|]. vm_compute. reflexivity.
Defined.
