(* ===== verification/Hexdump.v ===== *)
(** * [hexdump]

    The command on a model of [hex.Dumper]: a writer that keeps the bytes of the line it is in and
    writes every byte as it comes.  What comes out is compared with a dump that formats one line of
    sixteen bytes after the other, and read back. *)

From Stdlib Require Import Strings.String.
From S2P Require Import GoStrings.

(** ** [hex.Dumper] *)

Record dumper := MkDumper { rightChars : bytes; used : nat; total : Z }.

Definition NewDumper : dumper := MkDumper [] 0 0.

Definition toChar (b : byte) : byte := if (b2z b <? 32) || (126 <? b2z b) then x2e else b.

(** The offset at the start of a line: four bytes of the number of bytes written. *)
Definition offset_text (n : Z) : bytes := hex_encode (be_bytes 4 n) ++ str "  ".

(** What follows the byte in column [i]. *)
Definition gap (i : nat) : bytes :=
  if (i =? 7)%nat then str "  " else if (i =? 15)%nat then str "  |" else str " ".

Definition write_byte (st : dumper * bytes) (b : byte) : dumper * bytes :=
  let '(h, out) := st in
  let out := if (used h =? 0)%nat then out ++ offset_text (total h) else out in
  let out := out ++ hex_encode [b] ++ gap (used h) in
  let right := rightChars h ++ [toChar b] in
  let n := u64 (total h + 1) in
  if (S (used h) =? 16)%nat then (MkDumper [] 0 n, out ++ right ++ str "|" ++ [x0a])
  else (MkDumper right (S (used h)) n, out).

Definition dumper_Write (data : bytes) (st : dumper * bytes) : dumper * bytes := foldl write_byte st data.

(** The blanks of the columns from [i] on. *)
Fixpoint blanks (i n : nat) : bytes :=
  match n with O => [] | S n => str "  " ++ gap i ++ blanks (S i) n end.

Definition dumper_Close (st : dumper * bytes) : bytes :=
  let '(h, out) := st in
  if (used h =? 0)%nat then out else out ++ blanks (used h) (16 - used h) ++ rightChars h ++ str "|" ++ [x0a].

(** ** [main] *)

Section Main.
(** A file: the pieces that one [Read] after the other gives, whatever their lengths, and the error
    that ends the reading, if it is not the end of the file. *)
Context (os_Open : bytes -> (list bytes * option error) + error).

Fixpoint open_all (names : list bytes) : outcome error (list (list bytes * option error)) :=
  match names with
  | [] => Ret []
  | n :: names =>
      match os_Open n with
      | inr e => Fail e
      | inl f => fs ← open_all names; Ret (f :: fs)
      end
  end.

(** [io.Copy] from the [MultiReader]: each reader is read to its end, and each piece written as it
    comes. *)
Fixpoint copy_readers (fs : list (list bytes * option error)) (st : dumper * bytes) : (dumper * bytes) * option error :=
  match fs with
  | [] => (st, None)
  | (pieces, err) :: fs =>
      let st := foldl (fun st c => dumper_Write c st) st pieces in
      match err with Some _ => (st, err) | None => copy_readers fs st end
  end.

(** The output and the error that ends the program, in which case the last line is not finished. *)
Definition hexdump_main (stdin : list bytes * option error) (args : list bytes) : bytes * option error :=
  match (match args with [] => Ret [stdin] | _ => open_all args end) with
  | Ret fs =>
      match copy_readers fs (NewDumper, []) with
      | (st, None) => (dumper_Close st, None)
      | ((_, out), Some e) => (out, Some e)
      end
  | Fail e => ([], Some e)
  | Panic => ([], None)
  end.
End Main.

(** ** The dump line by line *)

Fixpoint cells (i : nat) (c : bytes) : bytes :=
  match c with [] => [] | b :: c => hex_encode [b] ++ gap i ++ cells (S i) c end.

Definition row (n : Z) (c : bytes) : bytes :=
  offset_text n ++ cells 0 c ++ blanks (length c) (16 - length c) ++ (toChar <$> c) ++ str "|" ++ [x0a].

Fixpoint rows (n : Z) (cs : list bytes) : bytes :=
  match cs with [] => [] | c :: cs => row n c ++ rows (n + 16) cs end.

Definition dump (data : bytes) : bytes := rows 0 (chunks 16 data).

Lemma be_bytes_u64 z : be_bytes 4 (u64 z) = be_bytes 4 z.
Proof.
  assert (forall z, be_bytes 4 z = be_bytes 4 (z `mod` 2 ^ 32)) as H.
  { intros y. pose proof (be_bytes_be_val (be_bytes 4 y)) as E. rewrite length_be_bytes, be_val_be_bytes in E. by rewrite <- E at 1. }
  rewrite (H (u64 z)), (H z). f_equal. unfold u64.
  apply Z.mod_mod_divide. by exists (2 ^ 32).
Qed.

Lemma offset_u64 z : offset_text (u64 z) = offset_text z.
Proof. unfold offset_text. by rewrite be_bytes_u64. Qed.

Lemma cells_snoc i c b : cells i (c ++ [b]) = cells i c ++ hex_encode [b] ++ gap (i + length c).
Proof.
  revert i. induction c as [|a c IH]; intros i; cbn [app cells length].
  - by rewrite Nat.add_0_r, !app_nil_r.
  - rewrite IH, <- !app_assoc. by replace (S i + length c)%nat with (i + S (length c))%nat by lia.
Qed.

Lemma u64_succ z : u64 (u64 z + 1) = u64 (z + 1).
Proof. unfold u64. by rewrite Zplus_mod_idemp_l. Qed.

(** Less than a line: the dumper has written the offset and the columns so far. *)
Lemma write_part n out c :
  (0 < length c < 16)%nat ->
  dumper_Write c (MkDumper [] 0 (u64 n), out) =
    (MkDumper (toChar <$> c) (length c) (u64 (n + zlen c)), out ++ offset_text n ++ cells 0 c).
Proof.
  induction c as [|b c IH] using rev_ind; [cbn; lia|]. rewrite length_app. cbn [length]. intros Hc.
  unfold dumper_Write in *. rewrite foldl_app. cbn [foldl]. destruct (decide (c = [])) as [->|Hne].
  - cbn [foldl app cells fmap list_fmap length]. unfold write_byte. cbn [used rightChars total Nat.eqb app].
    rewrite offset_u64, u64_succ, <- !app_assoc. done.
  - rewrite IH by (destruct c; [done|cbn [length] in *; lia]). unfold write_byte. cbn [used rightChars total].
    destruct (length c =? 0)%nat eqn:E; [apply Nat.eqb_eq in E; by destruct c|].
    destruct (S (length c) =? 16)%nat eqn:E2; [apply Nat.eqb_eq in E2; lia|].
    rewrite fmap_app, cells_snoc, u64_succ. cbn [fmap list_fmap]. rewrite zlen_app, zlen_cons, zlen_nil, <- !app_assoc.
    replace (n + (zlen c + (1 + 0))) with (n + zlen c + 1) by lia. by replace (S (length c)) with (length c + 1)%nat by lia.
Qed.

(** A whole line, after which the dumper is as it was at its start. *)
Lemma write_row n out c :
  length c = 16%nat -> dumper_Write c (MkDumper [] 0 (u64 n), out) = (MkDumper [] 0 (u64 (n + 16)), out ++ row n c).
Proof.
  intros Hc. destruct c as [|b c _] using rev_ind; [done|]. rewrite length_app in Hc. cbn [length] in Hc.
  unfold dumper_Write. rewrite foldl_app. change (foldl write_byte ?s c) with (dumper_Write c s). rewrite write_part by lia.
  cbn [foldl]. unfold write_byte. cbn [used rightChars total]. replace (length c) with 15%nat by lia.
  cbn [Nat.eqb]. unfold row. rewrite length_app. cbn [length]. replace (16 - (length c + 1))%nat with 0%nat by lia. cbn [blanks app].
  rewrite cells_snoc, fmap_app. replace (0 + length c)%nat with 15%nat by lia. cbn [fmap list_fmap].
  rewrite u64_succ, <- !app_assoc. by replace (n + zlen c + 1) with (n + 16) by (unfold zlen; lia).
Qed.

Lemma dump_rows data n out :
  dumper_Close (dumper_Write data (MkDumper [] 0 (u64 n), out)) = out ++ rows n (chunks 16 data).
Proof.
  remember (length data) as k eqn:Ek. revert data n out Ek. induction (lt_wf k) as [k _ IH]. intros data n out ->.
  destruct (decide (data = [])) as [->|Hne]; [by rewrite app_nil_r|].
  assert (0 < length data)%nat as Hpos by (destruct data; [done|cbn; lia]).
  rewrite chunks_cons by (lia || done). cbn [rows]. destruct (decide (length data < 16)%nat) as [Hs|Hl].
  - rewrite take_ge, drop_ge by lia. cbn [chunks chunks_fuel length rows]. rewrite app_nil_r, write_part by lia. unfold dumper_Close.
    cbn [used rightChars]. destruct (length data =? 0)%nat eqn:E; [apply Nat.eqb_eq in E; lia|]. unfold row. by rewrite <- !app_assoc.
  - rewrite <- (take_drop 16 data) at 1. unfold dumper_Write. rewrite foldl_app. change (foldl write_byte ?s ?c) with (dumper_Write c s).
    change (foldl write_byte ?s (take 16 data)) with (dumper_Write (take 16 data) s). rewrite write_row by (rewrite length_take; lia).
    rewrite (IH (length (drop 16 data))) by (rewrite ?length_drop; lia || done). by rewrite <- app_assoc.
Qed.

Lemma write_pieces cs st : foldl (fun st c => dumper_Write c st) st cs = dumper_Write (concat cs) st.
Proof.
  revert st. induction cs as [|c cs IH]; intros st; [done|]. cbn [foldl concat]. rewrite IH. unfold dumper_Write. by rewrite foldl_app.
Qed.

Lemma copy_readers_ok pieces st :
  copy_readers ((fun p => (p, None)) <$> pieces) st = (dumper_Write (concat (concat pieces)) st, None).
Proof.
  revert st. induction pieces as [|p pieces IH]; intros st; [done|]. rewrite fmap_cons. cbn [copy_readers concat].
  rewrite write_pieces, IH, concat_app. unfold dumper_Write. by rewrite foldl_app.
Qed.

(** ** Reading a dump *)

(** The bytes of a line, after its offset: pairs of digits with spaces between them, up to the bar. *)
Fixpoint read_cells (s : bytes) : bytes :=
  match s with
  | [] => []
  | c :: s =>
      if byte_eqb c x20 then read_cells s
      else if byte_eqb c x7c then []
      else match s with
           | [] => []
           | d :: s => match hex_decode [c; d] with Some b => b ++ read_cells s | None => [] end
           end
  end.

Definition undump (text : bytes) : bytes := concat ((fun l => read_cells (drop 10 l)) <$> Split x0a text).

Lemma hex_digit_plain v :
  0 <= v < 16 ->
  hex_value (hex_digit v) = Some v /\ byte_eqb (hex_digit v) x20 = false /\ byte_eqb (hex_digit v) x7c = false /\ hex_digit v <> x0a.
Proof.
  intros H.
  assert (forallb (fun v => bool_decide (hex_value (hex_digit v) = Some v) && negb (byte_eqb (hex_digit v) x20) &&
    negb (byte_eqb (hex_digit v) x7c) && negb (byte_eqb (hex_digit v) x0a)) (Z.of_nat <$> seq 0 16) = true) as Hall by (vm_compute; reflexivity).
  rewrite forallb_forall in Hall. specialize (Hall v). rewrite !andb_true_iff, !negb_true_iff, bool_decide_eq_true in Hall.
  assert (In v (Z.of_nat <$> seq 0 16)) as Hin by (apply list_elem_of_In, list_elem_of_fmap; exists (Z.to_nat v); rewrite elem_of_seq; lia).
  destruct (Hall Hin) as [[[H1 H2] H3] H4%byte_eqb_neq]. by split_and!.
Qed.

Lemma nibbles b : 0 <= b2z b `div` 16 < 16 /\ 0 <= b2z b `mod` 16 < 16.
Proof. pose proof (b2z_range b). split; [split; [apply Z.div_pos; lia|apply Z.div_lt_upper_bound; lia]|apply Z.mod_pos_bound; lia]. Qed.

Lemma read_cells_byte b s : read_cells (hex_encode [b] ++ s) = b :: read_cells s.
Proof.
  destruct (nibbles b) as [Hh Hl]. destruct (hex_digit_plain _ Hh) as (V1 & S1 & B1 & _), (hex_digit_plain _ Hl) as (V2 & _).
  cbn [hex_encode app read_cells]. rewrite S1, B1. cbn [hex_decode]. rewrite V1, V2. cbn. f_equal.
  rewrite Z.mul_comm, <- Z.div_mod by lia. apply z2b_b2z.
Qed.

Lemma read_cells_blanks i n s : (i < 16)%nat -> (i + n = 16)%nat -> read_cells (blanks i n ++ s) = [].
Proof.
  revert i. induction n as [|n IH]; intros i Hi Hn; [lia|]. cbn [blanks]. rewrite <- !app_assoc.
  change (read_cells (str "  " ++ ?x)) with (read_cells x). unfold gap. destruct (i =? 7)%nat eqn:E7; [cbn; apply IH; apply Nat.eqb_eq in E7; lia|].
  destruct (i =? 15)%nat eqn:E15; [done|]. apply Nat.eqb_neq in E15. cbn. apply IH; lia.
Qed.

Lemma read_cells_row i c s :
  (i < 16)%nat -> (i + length c <= 16)%nat -> read_cells (cells i c ++ blanks (i + length c) (16 - i - length c) ++ s) = c.
Proof.
  revert i. induction c as [|b c IH]; intros i Hi Hc; cbn [cells length app] in *.
  - rewrite Nat.add_0_r, Nat.sub_0_r. apply read_cells_blanks; lia.
  - rewrite <- !app_assoc, read_cells_byte. f_equal. unfold gap. destruct (i =? 15)%nat eqn:E15.
    + apply Nat.eqb_eq in E15 as ->. destruct c; [done|cbn [length] in Hc; lia].
    + apply Nat.eqb_neq in E15. etrans; [|apply (IH (S i)); lia].
      replace (S i + length c)%nat with (i + S (length c))%nat by lia. replace (16 - S i - length c)%nat with (16 - i - S (length c))%nat by lia.
      by destruct (i =? 7)%nat.
Qed.

Lemma hex_encode_line l : x0a ∉ hex_encode l.
Proof.
  induction l as [|b l IH]; [apply not_elem_of_nil|]. cbn [hex_encode]. destruct (nibbles b) as [Hh Hl].
  destruct (hex_digit_plain _ Hh) as (_ & _ & _ & H1), (hex_digit_plain _ Hl) as (_ & _ & _ & H2).
  apply not_elem_of_cons; split; [done|]. by apply not_elem_of_cons.
Qed.

Lemma gap_line i : x0a ∉ gap i.
Proof. unfold gap. destruct (i =? 7)%nat, (i =? 15)%nat; apply (bool_decide_unpack _); vm_compute; exact I. Qed.

Lemma cells_line i c : x0a ∉ cells i c.
Proof.
  revert i. induction c as [|b c IH]; intros i; [apply not_elem_of_nil|]. cbn [cells]. rewrite !not_elem_of_app.
  split; [apply hex_encode_line|]. split; [apply gap_line|apply IH].
Qed.

Lemma blanks_line i n : x0a ∉ blanks i n.
Proof.
  revert i. induction n as [|n IH]; intros i; [apply not_elem_of_nil|]. cbn [blanks]. rewrite !not_elem_of_app.
  split; [apply (bool_decide_unpack _); vm_compute; exact I|]. split; [apply gap_line|apply IH].
Qed.

Lemma toChar_line (c : bytes) : x0a ∉ (toChar <$> c).
Proof.
  intros (b & Hb & _)%list_elem_of_fmap. unfold toChar in Hb. destruct ((b2z b <? 32) || _) eqn:E; [done|]. subst b. done.
Qed.

Lemma offset_length n : length (offset_text n) = 10%nat.
Proof. unfold offset_text. rewrite length_app, length_hex_encode, length_be_bytes. done. Qed.

Lemma undump_row n c s : (length c <= 16)%nat -> undump (row n c ++ s) = c ++ undump s.
Proof.
  intros Hc. unfold undump, row. rewrite <- !app_assoc.
  replace (offset_text n ++ cells 0 c ++ blanks (length c) (16 - length c) ++ (toChar <$> c) ++ str "|" ++ [x0a] ++ s)
    with ((offset_text n ++ cells 0 c ++ blanks (length c) (16 - length c) ++ (toChar <$> c) ++ str "|") ++ x0a :: s) by (by rewrite <- !app_assoc).
  rewrite Split_app.
  - cbn [fmap list_fmap concat]. f_equal. rewrite drop_app_length' by (by rewrite offset_length).
    etrans; [|apply (read_cells_row 0 c ((toChar <$> c) ++ str "|")); lia]. by rewrite Nat.sub_0_r.
  - rewrite !not_elem_of_app. unfold offset_text. rewrite not_elem_of_app. split_and!;
      [apply hex_encode_line|by apply (bool_decide_unpack _)|apply cells_line|apply blanks_line|apply toChar_line|by apply (bool_decide_unpack _)].
Qed.

Lemma undump_rows n cs : Forall (fun c => (length c <= 16)%nat) cs -> undump (rows n cs) = concat cs.
Proof.
  intros H. revert n. induction H as [|c cs Hc _ IH]; intros n; [done|]. cbn [rows concat]. by rewrite undump_row, IH.
Qed.

(** What the command reads to the end without an error: the files named, or the standard input, each
    in the pieces that its reads give. *)
Definition input (os_Open : bytes -> (list bytes * option error) + error) (stdin : list bytes * option error) (names : list bytes) (pieces : list (list bytes)) : Prop :=
  match names with
  | [] => exists p, stdin = (p, None) /\ pieces = [p]
  | _ => Forall2 (fun n p => os_Open n = inl (p, None)) names pieces
  end.

Lemma open_input (os_Open : bytes -> (list bytes * option error) + error) names pieces :
  Forall2 (fun n p => os_Open n = inl (p, None)) names pieces -> open_all os_Open names = Ret ((fun p => (p, None)) <$> pieces).
Proof. induction 1 as [|n p ns ps Hn _ IH]; [done|]. cbn [open_all]. by rewrite Hn, IH. Qed.

(** C33: [hexdump] of files that can be read to their ends, or of the standard input, prints the dump
    of their contents one after the other, line by line, in whatever pieces the reads give them, and
    the bytes can be read back from what it prints. *)
Theorem hexdump_dumps os_Open stdin names pieces :
  input os_Open stdin names pieces ->
  hexdump_main os_Open stdin names = (dump (concat (concat pieces)), None) /\
  undump (dump (concat (concat pieces))) = concat (concat pieces).
Proof.
  intros Hi. split.
  - unfold hexdump_main.
    assert ((match names with [] => Ret [stdin] | _ => open_all os_Open names end) = Ret ((fun p => (p, None)) <$> pieces)) as ->.
    { destruct names; [by destruct Hi as (p & -> & ->)|by apply open_input]. }
    rewrite copy_readers_ok. pose proof (dump_rows (concat (concat pieces)) 0 []) as E.
    change (MkDumper [] 0 (u64 0)) with NewDumper in E.
    destruct (dumper_Write (concat (concat pieces)) (NewDumper, [])) as [h out]. by rewrite E.
  - unfold dump. rewrite undump_rows, concat_chunks; [done|]. eapply Forall_impl; [apply (chunks_bound 16); lia|]. cbn. lia.
Qed.

(** Two files; the first is read in three pieces. *)
Definition ex_files (n : bytes) : (list bytes * option error) + error :=
  if bytes_eqb n (str "a") then inl ([str "0123"; []; str "456789"], None) else inl ([str "|abc" ++ [x0a; xff; x20] ++ str "xyz"], None).

Lemma hexdump_dumps_witness :
  hexdump_main ex_files ([], None) [str "a"; str "b"] =
    (unlines [str "00000000  30 31 32 33 34 35 36 37  38 39 7c 61 62 63 0a ff  |0123456789|abc..|";
              str "00000010  20 78 79 7a                                       | xyz|"], None) /\
  undump (fst (hexdump_main ex_files ([], None) [str "a"; str "b"])) = str "0123456789|abc" ++ [x0a; xff; x20] ++ str "xyz".
Proof.
  destruct (hexdump_dumps ex_files ([], None) [str "a"; str "b"]
    [[str "0123"; []; str "456789"]; [str "|abc" ++ [x0a; xff; x20] ++ str "xyz"]]) as [E1 E2].
  - repeat constructor.
  - rewrite E1. split; [vm_compute; reflexivity|exact E2].
Defined.

(** A directory among the files ends the dump in the middle of a line. *)
Example hexdump_unfinished :
  hexdump_main (fun n => if bytes_eqb n (str "a") then inl ([str "x"], None) else inl ([], Some (Errorf "read d: is a directory"))) ([], None)
    [str "a"; str "d"] = (str "00000000  78 ", Some (Errorf "read d: is a directory")).
Proof. vm_compute. reflexivity. Qed.
