(* ===== verification/Ip.v ===== *)
(** * Network configuration ([cmds/ip/ip.go])

    The recursive descent parser over the words of the command line, with its global cursor and
    the recovery from reading past the last word, and the listing of links and addresses.  The
    netlink package is a class of operations over a kernel state; the words that the parser
    accepts and what each form does are an inductive grammar, which the parser is proved to
    implement. *)

From Stdlib Require Import Strings.String.
From S2P Require Export GoIO GoStrings.

(** ** The netlink package *)

(** What [Link.Attrs] tells; flags, state and hardware address as their [String] methods print
    them. *)
Record LinkAttrs := MkAttrs {
  lk_Index : Z; lk_Name : bytes; lk_Flags : bytes; lk_MTU : Z; lk_OperState : bytes;
  lk_EncapType : bytes; lk_HardwareAddr : bytes
}.

(** An address; [a_IP] is [addr.IPNet.IP], [a_Peer] and [a_Broadcast] are printed forms. *)
Record Addr := MkAddr {
  a_IP : bytes; a_Peer : bytes; a_Broadcast : option bytes; a_Scope : Z; a_Label : bytes;
  a_PreferedLft : Z; a_ValidLft : Z
}.

Class Netlink (N Link : Type) := {
  LinkByName : bytes -> N -> Link + error;
  LinkList : N -> list Link + error;
  AddrList : Link -> N -> list Addr * option error;
  Attrs : Link -> LinkAttrs;
  ParseAddr : bytes -> Addr + error;
  AddrAdd : Link -> Addr -> N -> N * option error;
  AddrDel : Link -> Addr -> N -> N * option error;
  LinkSetUp : Link -> N -> N * option error;
  LinkSetDown : Link -> N -> N * option error;
  (** The index of the link and the gateway of the route. *)
  RouteAdd : Z -> bytes -> N -> N * option error;
  ProcNetRoute : N -> bytes + error;
  (** The verb [%v]. *)
  addr_v : Addr -> bytes;
  link_v : Link -> bytes
}.

(** [strings.Replace(s, "|", ",", -1)]. *)
Definition replace_byte (old new : byte) (s : bytes) : bytes :=
  (fun c => if byte_eqb c old then new else c) <$> s.

(** ** The parser *)

(** [one]: the counter, the index of the last match, and the word at it. *)
Definition one (cmd : bytes) (cmds : list bytes) : bytes :=
  let '(x, n, _) := foldl (fun '(x, n, i) c => if HasPrefix c cmd then (i, S n, S i) else (x, n, S i))
                      (0%nat, 0%nat, 0%nat) cmds in
  if (n =? 1)%nat then default [] (cmds !! x) else [].

Definition addrScopes (s : Z) : bytes :=
  if s =? 0 then str "global" else if s =? 254 then str "host" else if s =? 200 then str "site"
  else if s =? 253 then str "link" else if s =? 255 then str "nowhere" else [].

(** The globals, the output and the kernel; [arg] does not change. *)
Record ipst (N : Type) := MkIp { net : N; stdout : bytes; cursor : Z; whatIWant : list bytes }.
Arguments MkIp {N}. Arguments net {N}. Arguments stdout {N}. Arguments cursor {N}. Arguments whatIWant {N}.

Section Ip.
Context {N Link : Type} `{!Netlink N Link}.
Context (arg : list bytes).

Definition advance : M (ipst N) unit :=
  modify (fun s => MkIp (net s) (stdout s) (cursor s + 1) (whatIWant s)).

Definition want (w : list bytes) : M (ipst N) unit :=
  modify (fun s => MkIp (net s) (stdout s) (cursor s) w).

(** [arg[cursor]]. *)
Definition tok : M (ipst N) bytes := fun s => (s, or_panic (zindex arg (cursor s))).

(** [len(arg[cursor:]) == 0]. *)
Definition at_end : M (ipst N) bool := fun s =>
  (s, match slice arg (cursor s) (zlen arg) with Some l => Ret (zlen l =? 0) | None => Panic end).

Definition Fprintf (b : bytes) : M (ipst N) unit :=
  modify (fun s => MkIp (net s) (stdout s ++ b) (cursor s) (whatIWant s)).

(** [log.Printf] with the prefix of this logger, to the standard output. *)
Definition log_Printf (b : bytes) : M (ipst N) unit :=
  Fprintf (str "ip: " ++ b ++ match last b with Some x0a => [] | _ => [x0a] end).

(** A call of the kernel whose error ends the program with [msg]. *)
Definition nl_call (msg : string) (f : N -> N * option error) : M (ipst N) unit := fun s =>
  let '(n, e) := f (net s) in
  (MkIp n (stdout s) (cursor s) (whatIWant s), match e with None => Ret tt | Some _ => Fail (Errorf msg) end).

(** A question to the kernel. *)
Definition ask {A} (f : N -> A) : M (ipst N) A := fun s => (s, Ret (f (net s))).

Definition usage_msg : string :=
  "This was fine: '%v', and this was left, '%v', and this was not understood, '%v'; only options are '%v'".

(** Evaluating the operands of the message can panic. *)
Definition usage {A} : M (ipst N) A := _ ← tok; raise (Errorf usage_msg).

Definition dev : M (ipst N) Link :=
  _ ← advance;
  _ ← want [str "dev"; str "device name"];
  t ← tok;
  _ ← (if bytes_eqb t (str "dev") then advance else mret tt);
  _ ← want [str "device name"];
  t ← tok;
  i ← ask (LinkByName t);
  match i with
  | inl iface => mret iface
  | inr _ => usage
  end.

Definition lft (v : Z) : bytes := if v =? 2 ^ 32 - 1 then str "forever" else Itoa v ++ str "sec".

Definition showAddress (addr : Addr) : M (ipst N) unit :=
  inet ← (if zlen (a_IP addr) =? 4 then mret (str "inet")
          else if zlen (a_IP addr) =? 16 then mret (str "inet6")
          else raise (Errorf "Can't figure out IP protocol version"));
  _ ← Fprintf (str "    " ++ inet ++ str " " ++ a_Peer addr);
  _ ← (match a_Broadcast addr with Some b => Fprintf (str " brd " ++ b) | None => mret tt end);
  _ ← Fprintf (str " scope " ++ addrScopes (u8 (a_Scope addr)) ++ str " " ++ a_Label addr ++ [x0a]);
  Fprintf (str "       valid_lft " ++ lft (a_ValidLft addr) ++ str " preferred_lft " ++ lft (a_PreferedLft addr) ++ [x0a]).

Fixpoint each {A} (f : A -> M (ipst N) unit) (l : list A) : M (ipst N) unit :=
  match l with
  | [] => mret tt
  | a :: l => _ ← f a; each f l
  end.

Definition showLinkAddresses (link : Link) : M (ipst N) unit :=
  '(addrs, err) ← ask (AddrList link);
  _ ← (match err with Some _ => log_Printf (str "Can't enumerate addresses") | None => mret tt end);
  each showAddress addrs.

Definition showLink (withAddresses : bool) (v : Link) : M (ipst N) unit :=
  let l := Attrs v in
  _ ← Fprintf (Itoa (lk_Index l) ++ str ": " ++ lk_Name l ++ str ": <" ++ replace_byte x7c x2c (ToUpper (lk_Flags l)) ++
               str "> mtu " ++ Itoa (lk_MTU l) ++ str " state " ++ ToUpper (lk_OperState l) ++ [x0a]);
  _ ← Fprintf (str "    link/" ++ lk_EncapType l ++ str " " ++ lk_HardwareAddr l ++ [x0a]);
  if withAddresses then showLinkAddresses v else mret tt.

Definition showLinks (withAddresses : bool) : M (ipst N) unit :=
  l ← ask LinkList;
  match l with
  | inr _ => raise (Errorf "Can't enumerate interfaces? %v")
  | inl ifaces => each (showLink withAddresses) ifaces
  end.

Definition addrip : M (ipst N) unit :=
  if zlen arg =? 1 then showLinks true else
  _ ← advance;
  _ ← want [str "add"; str "del"];
  cmd ← tok;
  let c := one cmd [str "add"; str "del"] in
  addr ← (if bytes_eqb c (str "add") || bytes_eqb c (str "del") then
            _ ← advance;
            _ ← want [str "CIDR format address"];
            t ← tok;
            match ParseAddr t with inl a => mret a | inr _ => usage end
          else usage);
  iface ← dev;
  if bytes_eqb c (str "add") then nl_call "Adding %v to %v failed: %v" (AddrAdd iface addr)
  else if bytes_eqb c (str "del") then nl_call "Deleting %v from %v failed: %v" (AddrDel iface addr)
  else raise (Errorf "devip: arg[0] changed: can't happen").

Definition linkshow : M (ipst N) unit :=
  _ ← advance;
  _ ← want [str "<nothing>"; str "<device name>"];
  e ← at_end;
  if (e : bool) then showLinks false else mret tt.

Definition linkset : M (ipst N) unit :=
  iface ← dev;
  _ ← advance;
  _ ← want [str "up"; str "down"];
  t ← tok;
  let c := one t [str "up"; str "down"] in
  if bytes_eqb c (str "up") then nl_call "%v can't make it up: %v" (LinkSetUp iface)
  else if bytes_eqb c (str "down") then nl_call "%v can't make it down: %v" (LinkSetDown iface)
  else usage.

Definition link : M (ipst N) unit :=
  if zlen arg =? 1 then linkshow else
  _ ← advance;
  _ ← want [str "show"; str "set"];
  cmd ← tok;
  let c := one cmd [str "show"; str "set"] in
  if bytes_eqb c (str "show") then linkshow
  else if bytes_eqb c (str "set") then linkset
  else usage.

Definition routeshow : M (ipst N) unit :=
  r ← ask ProcNetRoute;
  match r with
  | inl b => log_Printf b
  | inr _ => raise (Errorf "Route show failed: %v")
  end.

Definition nodespec : M (ipst N) bytes :=
  _ ← advance;
  _ ← want [str "default"; str "CIDR"];
  tok.

Definition nexthop : M (ipst N) (bytes * Addr) :=
  _ ← advance;
  _ ← want [str "via"];
  t ← tok;
  _ ← (if bytes_eqb t (str "via") then mret tt else usage);
  nh ← tok;
  _ ← advance;
  _ ← want [str "Gateway CIDR"];
  t ← tok;
  match ParseAddr t with
  | inl addr => mret (nh, addr)
  | inr _ => raise (Errorf "Gateway CIDR: %v")
  end.

Definition routeadddefault : M (ipst N) unit :=
  '(nh, nhval) ← nexthop;
  l ← dev;
  if bytes_eqb nh (str "via") then
    _ ← log_Printf (str "Add default route " ++ addr_v nhval ++ str " via " ++ link_v l);
    nl_call "Add default route: %v" (RouteAdd (lk_Index (Attrs l)) (a_IP nhval))
  else usage.

Definition routeadd : M (ipst N) unit :=
  ns ← nodespec;
  if bytes_eqb ns (str "default") then routeadddefault else usage.

Definition route : M (ipst N) unit :=
  _ ← advance;
  e ← at_end;
  if (e : bool) then routeshow else
  _ ← want [str "show"; str "add"];
  t ← tok;
  let c := one t [str "show"; str "add"] in
  if bytes_eqb c (str "show") then routeshow
  else if bytes_eqb c (str "add") then routeadd
  else usage.

(** The switch of [main]. *)
Definition ip_body : M (ipst N) unit :=
  t ← tok;
  let c := one t [str "addr"; str "route"; str "link"] in
  if bytes_eqb c (str "addr") then addrip
  else if bytes_eqb c (str "link") then link
  else if bytes_eqb c (str "route") then route
  else usage.

(** [main] on a kernel and an output: every panic of the parser is an index or a slice out of
    range, which the deferred function turns into a message. *)
Definition ip_main (n : N) (out : bytes) : ipst N * outcome error unit :=
  match ip_body (MkIp n out 0 [str "addr"; str "route"; str "link"]) with
  | (s, Panic) => (s, Fail (Errorf "Args: %v, I got to arg %v, I wanted %v after that"))
  | r => r
  end.
End Ip.

(** ** Abbreviations

    A word stands for the only command that it is a prefix of. *)

Definition abbrev (w c : bytes) (cmds : list bytes) : Prop :=
  c ∈ cmds /\ HasPrefix c w = true /\ forall d, d ∈ cmds -> HasPrefix d w = true -> d = c.

Lemma one_loop cmd l x n i :
  let fs := List.filter (fun c => HasPrefix c cmd) l in
  exists x', foldl (fun '(x, n, i) c => if HasPrefix c cmd then (i, S n, S i) else (x, n, S i)) (x, n, i) l
             = (x', (n + length fs)%nat, (i + length l)%nat) /\
    (fs = [] -> x' = x) /\
    (forall gs c, fs = gs ++ [c] -> (i <= x')%nat /\ l !! (x' - i)%nat = Some c).
Proof.
  revert x n i. induction l as [|d l IH]; intros x n i; cbn [List.filter foldl].
  - exists x. split_and!; [by rewrite !Nat.add_0_r|done|]. by intros [|? ?] c.
  - destruct (HasPrefix d cmd) eqn:E.
    + destruct (IH i (S n) (S i)) as (x' & -> & H0 & H1). exists x'. cbn [length].
      split_and!; [f_equal; [f_equal|]; lia|done|]. intros gs c Hgs.
      destruct gs as [|g gs]; simplify_eq/=.
      * rewrite H0 by done. split; [lia|]. by rewrite Nat.sub_diag.
      * destruct (H1 gs c) as [Hx Hl]; [done|]. split; [lia|].
        by replace (x' - i)%nat with (S (x' - S i))%nat by lia.
    + destruct (IH x n (S i)) as (x' & -> & H0 & H1). exists x'. cbn [length].
      split_and!; [f_equal; lia|done|]. intros gs c Hgs. destruct (H1 gs c) as [Hx Hl]; [done|]. split; [lia|].
      by replace (x' - i)%nat with (S (x' - S i))%nat by lia.
Qed.

Lemma one_filter cmd cmds :
  one cmd cmds = match List.filter (fun c => HasPrefix c cmd) cmds with [c] => c | _ => [] end.
Proof.
  unfold one. destruct (one_loop cmd cmds 0 0 0) as (x & -> & H0 & H1). cbn zeta in *.
  destruct (List.filter _ cmds) as [|c [|d fs]]; [done| |done]. cbn.
  destruct (H1 [] c) as [_ Hx]; [done|]. rewrite Nat.sub_0_r in Hx. by rewrite Hx.
Qed.

(** [one] finds the command that is abbreviated, and is empty without one. *)
Lemma one_spec w c cmds : NoDup cmds -> [] ∉ cmds -> c <> [] -> one w cmds = c <-> abbrev w c cmds.
Proof.
  intros Hnd Hne Hc. rewrite one_filter. unfold abbrev.
  assert (forall d, d ∈ List.filter (fun c => HasPrefix c w) cmds <-> d ∈ cmds /\ HasPrefix d w = true) as Hf.
  { intros d. rewrite !list_elem_of_In. apply (List.filter_In (fun c => HasPrefix c w)). }
  assert (NoDup (List.filter (fun c => HasPrefix c w) cmds)) as Hnd'.
  { apply NoDup_ListNoDup, List.NoDup_filter. by apply NoDup_ListNoDup. }
  destruct (List.filter _ cmds) as [|d [|e fs]].
  - split; [by intros <-|]. intros (H1 & H2 & _). destruct (not_elem_of_nil c). by apply Hf.
  - split.
    + intros ->. destruct (proj1 (Hf c)) as [H1 H2]; [by left|]. split_and!; [done|done|].
      intros d Hd Hw. apply list_elem_of_singleton. by apply Hf.
    + intros (H1 & H2 & _). symmetry. apply list_elem_of_singleton. by apply Hf.
  - split; [by intros <-|]. intros (H1 & H2 & H3). exfalso.
    assert (d = c) as -> by (apply H3; apply Hf; by left).
    assert (e = c) as -> by (apply H3; apply Hf; by right; left).
    apply NoDup_cons in Hnd' as [Hn _]. apply Hn. by left.
Qed.

(** ** The grammar *)

Inductive action (Link : Type) :=
| ShowAddrs
| ShowLinks
| Nothing
| AddAddr (l : Link) (a : Addr)
| DelAddr (l : Link) (a : Addr)
| SetUp (l : Link)
| SetDown (l : Link)
| ShowRoutes
| AddDefault (l : Link) (gw : Addr).
Arguments ShowAddrs {Link}. Arguments ShowLinks {Link}. Arguments Nothing {Link}. Arguments AddAddr {Link}.
Arguments DelAddr {Link}. Arguments SetUp {Link}. Arguments SetDown {Link}. Arguments ShowRoutes {Link}.
Arguments AddDefault {Link}.

Definition objects : list bytes := [str "addr"; str "route"; str "link"].

Create HintDb ip.

Section Grammar.
Context {N Link : Type} `{!Netlink N Link}.

(** [device n ws l rest]: the words [ws] start with the name of [l], the noise word [dev] before
    it or not, and continue with [rest]. *)
Inductive device (n : N) : list bytes -> Link -> list bytes -> Prop :=
| device_name d l rest : d <> str "dev" -> LinkByName d n = inl l -> device n (d :: rest) l rest
| device_dev d l rest : LinkByName d n = inl l -> device n (str "dev" :: d :: rest) l rest.

(** The command lines.  Words after the ones a form needs are not looked at. *)
Inductive command (n : N) : list bytes -> action Link -> Prop :=
| c_addr o : abbrev o (str "addr") objects -> command n [o] ShowAddrs
| c_addr_add o c a ws ad l rest :
    abbrev o (str "addr") objects -> abbrev c (str "add") [str "add"; str "del"] ->
    ParseAddr a = inl ad -> device n ws l rest -> command n (o :: c :: a :: ws) (AddAddr l ad)
| c_addr_del o c a ws ad l rest :
    abbrev o (str "addr") objects -> abbrev c (str "del") [str "add"; str "del"] ->
    ParseAddr a = inl ad -> device n ws l rest -> command n (o :: c :: a :: ws) (DelAddr l ad)
| c_link o : abbrev o (str "link") objects -> command n [o] ShowLinks
| c_link_show o c :
    abbrev o (str "link") objects -> abbrev c (str "show") [str "show"; str "set"] -> command n [o; c] ShowLinks
| c_link_show_word o c w ws :
    abbrev o (str "link") objects -> abbrev c (str "show") [str "show"; str "set"] ->
    command n (o :: c :: w :: ws) Nothing
| c_link_up o c ws l t rest :
    abbrev o (str "link") objects -> abbrev c (str "set") [str "show"; str "set"] ->
    device n ws l (t :: rest) -> abbrev t (str "up") [str "up"; str "down"] -> command n (o :: c :: ws) (SetUp l)
| c_link_down o c ws l t rest :
    abbrev o (str "link") objects -> abbrev c (str "set") [str "show"; str "set"] ->
    device n ws l (t :: rest) -> abbrev t (str "down") [str "up"; str "down"] -> command n (o :: c :: ws) (SetDown l)
| c_route o : abbrev o (str "route") objects -> command n [o] ShowRoutes
| c_route_show o c ws :
    abbrev o (str "route") objects -> abbrev c (str "show") [str "show"; str "add"] -> command n (o :: c :: ws) ShowRoutes
| c_route_add o c a ws ad l rest :
    abbrev o (str "route") objects -> abbrev c (str "add") [str "show"; str "add"] ->
    ParseAddr a = inl ad -> device n ws l rest ->
    command n (o :: c :: str "default" :: str "via" :: a :: ws) (AddDefault l ad).

#[local] Hint Constructors command : ip.

(** What each form does to the kernel and the output. *)
Definition perform (a : action Link) : M (ipst N) unit :=
  match a with
  | ShowAddrs => showLinks true
  | ShowLinks => showLinks false
  | Nothing => mret tt
  | AddAddr l a => nl_call "Adding %v to %v failed: %v" (AddrAdd l a)
  | DelAddr l a => nl_call "Deleting %v from %v failed: %v" (AddrDel l a)
  | SetUp l => nl_call "%v can't make it up: %v" (LinkSetUp l)
  | SetDown l => nl_call "%v can't make it down: %v" (LinkSetDown l)
  | ShowRoutes => routeshow
  | AddDefault l gw =>
      _ ← log_Printf (str "Add default route " ++ addr_v gw ++ str " via " ++ link_v l);
      nl_call "Add default route: %v" (RouteAdd (lk_Index (Attrs l)) (a_IP gw))
  end.

(** The decision procedure of the grammar. *)
Definition parse_device (n : N) (ws : list bytes) : option (Link * list bytes) :=
  match ws with
  | [] => None
  | d :: rest =>
      if bytes_eqb d (str "dev") then
        match rest with
        | [] => None
        | d :: rest => match LinkByName d n with inl l => Some (l, rest) | inr _ => None end
        end
      else match LinkByName d n with inl l => Some (l, rest) | inr _ => None end
  end.

#[local] Arguments parse_device : simpl never.

Definition parse_addr (n : N) (ws : list bytes) : option (action Link) :=
  match ws with
  | [] => Some ShowAddrs
  | c :: ws =>
      let c := one c [str "add"; str "del"] in
      if bytes_eqb c (str "add") || bytes_eqb c (str "del") then
        match ws with
        | [] => None
        | a :: ws =>
            match ParseAddr a, parse_device n ws with
            | inl ad, Some (l, _) => Some (if bytes_eqb c (str "add") then AddAddr l ad else DelAddr l ad)
            | _, _ => None
            end
        end
      else None
  end.

Definition parse_linkset (n : N) (ws : list bytes) : option (action Link) :=
  match parse_device n ws with
  | Some (l, t :: _) =>
      let t := one t [str "up"; str "down"] in
      if bytes_eqb t (str "up") then Some (SetUp l) else if bytes_eqb t (str "down") then Some (SetDown l) else None
  | _ => None
  end.

Definition parse_link (n : N) (ws : list bytes) : option (action Link) :=
  match ws with
  | [] => Some ShowLinks
  | c :: ws =>
      let c := one c [str "show"; str "set"] in
      if bytes_eqb c (str "show") then Some (match ws with [] => ShowLinks | _ => Nothing end)
      else if bytes_eqb c (str "set") then parse_linkset n ws
      else None
  end.

Definition parse_routeadd (n : N) (ws : list bytes) : option (action Link) :=
  match ws with
  | d :: v :: a :: ws =>
      if bytes_eqb d (str "default") && bytes_eqb v (str "via") then
        match ParseAddr a, parse_device n ws with
        | inl ad, Some (l, _) => Some (AddDefault l ad)
        | _, _ => None
        end
      else None
  | _ => None
  end.

Definition parse_route (n : N) (ws : list bytes) : option (action Link) :=
  match ws with
  | [] => Some ShowRoutes
  | c :: ws =>
      let c := one c [str "show"; str "add"] in
      if bytes_eqb c (str "show") then Some ShowRoutes
      else if bytes_eqb c (str "add") then parse_routeadd n ws
      else None
  end.

Definition parse (n : N) (arg : list bytes) : option (action Link) :=
  match arg with
  | [] => None
  | o :: ws =>
      let o := one o objects in
      if bytes_eqb o (str "addr") then parse_addr n ws
      else if bytes_eqb o (str "link") then parse_link n ws
      else if bytes_eqb o (str "route") then parse_route n ws
      else None
  end.

Lemma one_abbrev w c cmds :
  bool_decide (NoDup cmds) && negb (bool_decide ([] ∈ cmds)) && negb (bytes_eqb c []) = true ->
  bytes_eqb (one w cmds) c = true <-> abbrev w c cmds.
Proof.
  intros H. rewrite bytes_eqb_eq. apply one_spec; [by destruct (bool_decide_reflect (NoDup cmds))| |].
  - destruct (bool_decide_reflect ([] ∈ cmds)) as [|]; [|done]. by rewrite andb_false_r in H.
  - intros ->. by rewrite andb_false_r in H.
Qed.

Lemma parse_device_spec n ws l rest : parse_device n ws = Some (l, rest) <-> device n ws l rest.
Proof.
  split.
  - destruct ws as [|d ws]; [done|]. unfold parse_device. destruct (bytes_eqb d _) eqn:Ed.
    + apply bytes_eqb_eq in Ed as ->. destruct ws as [|d ws]; [done|]. intros H. case_hyp H. by constructor.
    + intros H. case_hyp H. constructor; [|done]. intros ->. done.
  - intros [d ? ? Hd Hl|d ? ? Hl]; unfold parse_device.
    + destruct (bytes_eqb d _) eqn:E; [by apply bytes_eqb_eq in E|]. by rewrite Hl.
    + change (bytes_eqb _ _) with true. cbn. by rewrite Hl.
Qed.

Lemma one_of w c cmds :
  bool_decide (NoDup cmds) && negb (bool_decide ([] ∈ cmds)) && negb (bytes_eqb c []) = true ->
  abbrev w c cmds -> one w cmds = c.
Proof. intros H Ha. apply bytes_eqb_eq. by apply one_abbrev. Qed.

(** Read the tests of the decision procedure as abbreviations. *)
Ltac abbrevs :=
  repeat match goal with
  | H : bytes_eqb (one _ _) _ = true |- _ => apply one_abbrev in H; [|reflexivity]
  | H : bytes_eqb (one _ _) _ || bytes_eqb (one _ _) _ = true |- _ => apply orb_prop in H as [H|H]
  | H : parse_device _ _ = Some (_, _) |- _ => apply parse_device_spec in H
  | H : bytes_eqb _ _ = true |- _ => apply bytes_eqb_eq in H as ->
  | H : bytes_eqb _ _ && bytes_eqb _ _ = true |- _ => apply andb_prop in H as [H ?]
  end.

Lemma parse_sound n arg a : parse n arg = Some a -> command n arg a.
Proof.
  destruct arg as [|o ws]; [done|]. cbn [parse]. intros H. cbv zeta in H.
  destruct (bytes_eqb (one o objects) (str "addr")) eqn:E1; [|destruct (bytes_eqb (one o objects) (str "link")) eqn:E2;
    [|destruct (bytes_eqb (one o objects) (str "route")) eqn:E3; [|done]]].
  - destruct ws as [|c [|a' ws]]; cbn [parse_addr] in H; cbv zeta in H.
    + simplify_eq. abbrevs. auto with ip.
    + by case_match.
    + destruct (bytes_eqb (one c _) (str "add")) eqn:E; cbn [orb] in H; case_hyp H; abbrevs; eauto with ip.
  - destruct ws as [|c ws]; cbn [parse_link] in H; cbv zeta in H.
    + simplify_eq. abbrevs. auto with ip.
    + unfold parse_linkset in H. destruct ws; case_hyp H; abbrevs; eauto with ip.
  - destruct ws as [|c ws]; cbn [parse_route] in H; cbv zeta in H.
    + simplify_eq. abbrevs. auto with ip.
    + unfold parse_routeadd in H. case_hyp H; abbrevs; eauto with ip.
Qed.

Lemma parse_complete n arg a : command n arg a -> parse n arg = Some a.
Proof.
  intros H; destruct H; unfold parse, parse_addr, parse_link, parse_route, parse_linkset, parse_routeadd;
    repeat match goal with
    | H : abbrev _ _ _ |- _ => apply one_of in H; [|reflexivity]
    | H : device _ _ _ _ |- _ => apply parse_device_spec in H
    end;
    repeat match goal with H : ?x = _ |- context [?x] => rewrite !H; cbv beta iota zeta end; reflexivity.
Qed.

(** The procedure decides the grammar, which is unambiguous. *)
Lemma parse_command n arg a : parse n arg = Some a <-> command n arg a.
Proof. split; [apply parse_sound|apply parse_complete]. Qed.
End Grammar.

(** ** The parser implements the grammar *)

Section Parser.
Context {N Link : Type} `{!Netlink N Link}.

(** What can be seen of a run. *)
Definition view {A} (r : ipst N * outcome error A) : N * bytes * outcome error A :=
  (net (fst r), stdout (fst r), snd r).

(** A run that stops without a change. *)
Definition quiet {A} (n : N) (o : bytes) (r : ipst N * outcome error A) : Prop :=
  net (fst r) = n /\ stdout (fst r) = o /\ is_Ret (snd r) = false.

(** The globals of the parser play no role for [m], which does not panic. *)
Definition steady {A} (m : M (ipst N) A) : Prop :=
  forall n o c w, let r := m (MkIp n o 0 []) in
    m (MkIp n o c w) = (MkIp (net (fst r)) (stdout (fst r)) c w, snd r) /\ snd r <> Panic.

Lemma steady_bind {A B} (m : M (ipst N) A) (f : A -> M (ipst N) B) :
  steady m -> (forall a, steady (f a)) -> steady (m ≫= f).
Proof.
  intros Hm Hf n o c w. cbv zeta. unfold mbind, M_bind. destruct (Hm n o c w) as [H1 Hp]. destruct (Hm n o 0 []) as [H2 _].
  rewrite H1. destruct (m (MkIp n o 0 [])) as [[n' o' c' w'] r]. cbn in *. simplify_eq.
  destruct r as [a| |]; [|done|done]. apply (Hf a n' o' c w).
Qed.

Lemma steady_Fprintf b : steady (Fprintf b).
Proof. by intros n o c w. Qed.

Lemma steady_ret {A} (a : A) : steady (mret a).
Proof. by intros n o c w. Qed.

Lemma steady_raise {A} e : steady (raise e : M (ipst N) A).
Proof. by intros n o c w. Qed.

Lemma steady_ask {A} (f : N -> A) : steady (ask f).
Proof. by intros n o c w. Qed.

Lemma steady_nl_call msg f : steady (nl_call msg f).
Proof. intros n o c w. cbv zeta. unfold nl_call. cbn. by destruct (f n) as [n' [e|]]. Qed.

Lemma steady_each {A} (f : A -> M (ipst N) unit) l : (forall a, steady (f a)) -> steady (each f l).
Proof.
  intros Hf. induction l as [|a l IH]; cbn [each]; [apply steady_ret|]. apply steady_bind; [apply Hf|]. by intros _.
Qed.

#[local] Hint Resolve steady_bind steady_Fprintf steady_ret steady_raise steady_ask steady_nl_call steady_each : ip.

Lemma steady_showAddress a : steady (showAddress a).
Proof.
  unfold showAddress. apply steady_bind; [repeat case_match; auto with ip|]. intros inet.
  apply steady_bind; [auto with ip|intros _]. apply steady_bind; [case_match; auto with ip|intros _]. auto with ip.
Qed.

Lemma steady_showLinks b : steady (showLinks b).
Proof.
  apply steady_bind; [auto with ip|]. intros [ls|e]; [|auto with ip]. apply steady_each. intros v.
  unfold showLink. apply steady_bind; [auto with ip|intros _]. apply steady_bind; [auto with ip|intros _].
  destruct b; [|auto with ip]. apply steady_bind; [auto with ip|]. intros [addrs e].
  apply steady_bind; [destruct e; unfold log_Printf; auto with ip|intros _]. apply steady_each, steady_showAddress.
Qed.

Lemma steady_perform a : steady (perform a).
Proof.
  destruct a; cbn [perform]; auto using steady_showLinks with ip.
  - apply steady_bind; [auto with ip|]. intros [b|e]; [apply steady_Fprintf|auto with ip].
  - apply steady_bind; [apply steady_Fprintf|auto with ip].
Qed.

Lemma view_perform a n o c w : view (perform a (MkIp n o c w)) = view (perform a (MkIp n o 0 [])).
Proof. unfold view. rewrite (proj1 (steady_perform a n o c w)). done. Qed.

(** The result that the grammar asks for. *)
Definition agrees (n : N) (o : bytes) (p : option (action Link)) (r : ipst N * outcome error unit) : Prop :=
  match p with
  | Some a => view r = view (perform a (MkIp n o 0 []))
  | None => quiet n o r
  end.

Context (arg : list bytes).

Lemma bind_advance {A} (f : unit -> M (ipst N) A) n o c w : (advance ≫= f) (MkIp n o c w) = f tt (MkIp n o (c + 1) w).
Proof. done. Qed.

Lemma bind_want {A} (f : unit -> M (ipst N) A) n o c w w' : (want w' ≫= f) (MkIp n o c w) = f tt (MkIp n o c w').
Proof. done. Qed.

Lemma bind_ret {A B} (a : A) (f : A -> M (ipst N) B) s : (mret a ≫= f) s = f a s.
Proof. done. Qed.

Lemma tok_at pre ws (n : N) o c w :
  arg = pre ++ ws -> c = zlen pre ->
  tok arg (MkIp n o c w) = (MkIp n o c w, match ws with t :: _ => Ret t | [] => Panic end).
Proof.
  intros -> ->. unfold tok, zindex, zlen. cbn [cursor]. rewrite bool_decide_eq_true_2 by lia.
  rewrite Nat2Z.id, lookup_app_r, Nat.sub_diag by lia. by destruct ws.
Qed.

Lemma bind_tok {A} pre ws (f : bytes -> M (ipst N) A) n o c w :
  arg = pre ++ ws -> c = zlen pre ->
  (tok arg ≫= f) (MkIp n o c w) =
  match ws with t :: _ => f t (MkIp n o c w) | [] => (MkIp n o c w, Panic) end.
Proof. intros Ha Hc. unfold mbind at 1, M_bind at 1. rewrite (tok_at pre ws) by done. by destruct ws. Qed.

Lemma usage_quiet {A} n o c w : quiet n o (usage arg (MkIp n o c w) : ipst N * outcome error A).
Proof. unfold usage, mbind, M_bind, tok, quiet. cbn. by destruct (zindex arg c). Qed.

Lemma quiet_bind {A B} (m : M (ipst N) A) (f : A -> M (ipst N) B) n o s : quiet n o (m s) -> quiet n o ((m ≫= f) s).
Proof. unfold quiet, mbind, M_bind. destruct (m s) as [s' [a|e|]]; cbn; naive_solver. Qed.

Lemma quiet_panic {A} n o c w : quiet n o (MkIp n o c w, @Panic error A).
Proof. done. Qed.

#[local] Hint Resolve usage_quiet quiet_bind quiet_panic : ip.

Lemma dev_run pre ws n o c w :
  arg = pre ++ ws -> c + 1 = zlen pre ->
  match parse_device n ws with
  | Some (l, rest) => exists pre' c' w', arg = pre' ++ rest /\ c' + 1 = zlen pre' /\ dev arg (MkIp n o c w) = (MkIp n o c' w', Ret l)
  | None => quiet n o (dev arg (MkIp n o c w))
  end.
Proof.
  intros Ha Hc. unfold dev, parse_device. rewrite bind_advance, bind_want, (bind_tok pre ws) by done.
  destruct ws as [|d ws]; [done|]. destruct (bytes_eqb d (str "dev")).
  - rewrite bind_advance, bind_want, (bind_tok (pre ++ [d]) ws) by (rewrite <- ?app_assoc, ?zlen_app; done || (rewrite Hc; done)).
    destruct ws as [|d' ws]; [done|]. unfold mbind, M_bind, ask. cbn [net]. destruct (LinkByName d' n) as [l|e]; [|apply usage_quiet].
    exists (pre ++ [d; d']), (c + 1 + 1). eexists. split_and!; [by rewrite Ha, <- app_assoc| |done]. rewrite zlen_app, !zlen_cons, zlen_nil. lia.
  - rewrite bind_ret, bind_want, (bind_tok pre (d :: ws)) by done. unfold mbind, M_bind, ask. cbn [net].
    destruct (LinkByName d n) as [l|e]; [|apply usage_quiet].
    exists (pre ++ [d]), (c + 1). eexists. split_and!; [by rewrite Ha, <- app_assoc| |done]. rewrite zlen_app, zlen_cons, zlen_nil. lia.
Qed.

(** The last step of a command: a call of the kernel on the device that was read. *)
Lemma dev_then pre ws n o c w (f : Link -> M (ipst N) unit) (k : Link -> list bytes -> option (action Link)) :
  arg = pre ++ ws -> c + 1 = zlen pre ->
  (forall l rest pre' c' w', arg = pre' ++ rest -> c' + 1 = zlen pre' -> agrees n o (k l rest) (f l (MkIp n o c' w'))) ->
  agrees n o (match parse_device n ws with Some (l, rest) => k l rest | None => None end) ((dev arg ≫= f) (MkIp n o c w)).
Proof.
  intros Ha Hc Hk. pose proof (dev_run pre ws n o c w Ha Hc) as H.
  destruct (parse_device n ws) as [[l rest]|]; [|by apply quiet_bind].
  destruct H as (pre' & c' & w' & Ha' & Hc' & H). rewrite (M_bind_Ret _ _ _ _ _ H). by apply (Hk l rest pre').
Qed.

Lemma agrees_perform a n o c w : agrees n o (Some a) (perform a (MkIp n o c w)).
Proof. apply view_perform. Qed.

Lemma linkset_run pre ws n o c w :
  arg = pre ++ ws -> c + 1 = zlen pre -> agrees n o (parse_linkset n ws) (linkset arg (MkIp n o c w)).
Proof.
  intros Ha Hc. unfold linkset, parse_linkset.
  refine (dev_then pre ws n o c w _ (fun l rest => match rest with t :: _ => _ | [] => None end) Ha Hc _).
  intros l rest pre' c' w' Ha' Hc'. rewrite bind_advance, bind_want, (bind_tok pre' rest) by done.
  destruct rest as [|t rest]; [apply quiet_panic|]. cbv zeta.
  destruct (bytes_eqb _ (str "up")); [apply (agrees_perform (SetUp l))|].
  destruct (bytes_eqb _ (str "down")); [apply (agrees_perform (SetDown l))|apply usage_quiet].
Qed.

Lemma at_end_run {A} pre ws (f : bool -> M (ipst N) A) n o c w :
  arg = pre ++ ws -> c = zlen pre ->
  (at_end arg ≫= f) (MkIp n o c w) = f (match ws with [] => true | _ => false end) (MkIp n o c w).
Proof.
  intros Ha ->. unfold mbind, M_bind, at_end. cbn [cursor]. rewrite Ha at 1 2. pose proof (zlen_nonneg pre).
  rewrite slice_suffix by (rewrite ?zlen_app; pose proof (zlen_nonneg ws); lia).
  unfold zlen. rewrite Nat2Z.id, drop_app_length. by destruct ws.
Qed.

Lemma linkshow_run pre ws n o c w :
  arg = pre ++ ws -> c + 1 = zlen pre ->
  agrees n o (Some (match ws with [] => ShowLinks | _ => Nothing end)) (linkshow arg (MkIp n o c w)).
Proof.
  intros Ha Hc. unfold linkshow. rewrite bind_advance, bind_want, (at_end_run pre ws) by done.
  destruct ws; apply (agrees_perform ShowLinks) || apply (agrees_perform Nothing).
Qed.

Lemma zlen_one {A} (a : A) l : (zlen (a :: l) =? 1) = match l with [] => true | _ => false end.
Proof. destruct l; [done|]. rewrite !zlen_cons. apply Z.eqb_neq. pose proof (zlen_nonneg l). lia. Qed.

Lemma link_run o1 ws n o w : arg = o1 :: ws -> agrees n o (parse_link n ws) (link arg (MkIp n o 0 w)).
Proof.
  intros Ha. unfold link, parse_link. rewrite Ha, zlen_one. rewrite <- Ha.
  destruct ws as [|c ws]; [by apply (linkshow_run [o1] [])|].
  rewrite bind_advance, bind_want, (bind_tok [o1] (c :: ws)) by done. cbv zeta.
  destruct (bytes_eqb _ (str "show")); [by apply (linkshow_run [o1; c] ws)|].
  destruct (bytes_eqb _ (str "set")); [by apply (linkset_run [o1; c] ws)|apply usage_quiet].
Qed.

Lemma addrip_run o1 ws n o w : arg = o1 :: ws -> agrees n o (parse_addr n ws) (addrip arg (MkIp n o 0 w)).
Proof.
  intros Ha. unfold addrip, parse_addr. rewrite Ha, zlen_one. rewrite <- Ha.
  destruct ws as [|c ws]; [apply (agrees_perform ShowAddrs)|].
  rewrite bind_advance, bind_want, (bind_tok [o1] (c :: ws)) by done. cbv zeta. destruct (_ || _) eqn:E.
  2:{ apply quiet_bind, usage_quiet. }
  unfold mbind at 1, M_bind at 1. rewrite bind_advance, bind_want, (bind_tok [o1; c] ws) by done.
  destruct ws as [|a ws]; [done|]. destruct (ParseAddr a) as [ad|e]; [|by apply quiet_bind, usage_quiet].
  cbn [mret M_ret]. refine (dev_then [o1; c; a] ws n o _ _ _ (fun l rest => Some _) Ha _ _); [done|].
  intros l rest pre' c' w' _ _. destruct (bytes_eqb _ (str "add")); [apply (agrees_perform (AddAddr l ad))|].
  cbn [orb] in E. rewrite E. apply (agrees_perform (DelAddr l ad)).
Qed.

Lemma routeadd_run o1 c ws n o w :
  arg = o1 :: c :: ws -> agrees n o (parse_routeadd n ws) (routeadd arg (MkIp n o 1 w)).
Proof.
  intros Ha. unfold routeadd, nodespec, parse_routeadd.
  unfold mbind at 1, M_bind at 1. rewrite bind_advance, bind_want, (tok_at [o1; c] ws) by done.
  destruct ws as [|d ws]; [done|]. destruct (bytes_eqb d (str "default")).
  2:{ destruct ws as [|? [|? ?]]; apply usage_quiet. }
  unfold routeadddefault, nexthop. unfold mbind at 1, M_bind at 1.
  rewrite bind_advance, bind_want, (bind_tok [o1; c; d] ws) by done.
  destruct ws as [|v ws]; [done|]. destruct (bytes_eqb v (str "via")) eqn:Ev.
  2:{ destruct ws as [|? ?]; apply quiet_bind, quiet_bind, usage_quiet. }
  rewrite bind_ret, (bind_tok [o1; c; d] (v :: ws)), bind_advance, bind_want, (bind_tok [o1; c; d; v] ws) by done.
  destruct ws as [|a ws]; [done|]. cbn [andb]. destruct (ParseAddr a) as [ad|e]; [|done].
  cbn [mret M_ret]. rewrite Ev.
  refine (dev_then [o1; c; d; v; a] ws n o _ _ _ (fun l rest => Some _) Ha _ _); [done|].
  intros l rest pre' c' w' _ _. apply (agrees_perform (AddDefault l ad)).
Qed.

Lemma route_run o1 ws n o w : arg = o1 :: ws -> agrees n o (parse_route n ws) (route arg (MkIp n o 0 w)).
Proof.
  intros Ha. unfold route, parse_route. rewrite bind_advance, (at_end_run [o1] ws) by done.
  destruct ws as [|c ws]; [apply (agrees_perform ShowRoutes)|].
  rewrite bind_want, (bind_tok [o1] (c :: ws)) by done. cbv zeta.
  destruct (bytes_eqb _ (str "show")); [apply (agrees_perform ShowRoutes)|].
  destruct (bytes_eqb _ (str "add")); [by apply (routeadd_run o1 c ws)|apply usage_quiet].
Qed.

Lemma ip_body_run n o w : agrees n o (parse n arg) (ip_body arg (MkIp n o 0 w)).
Proof.
  unfold ip_body, parse. rewrite (bind_tok [] arg) by done. destruct arg as [|o1 ws] eqn:Ha; [done|].
  rewrite <- Ha. cbv zeta. change [str "addr"; str "route"; str "link"] with objects.
  destruct (bytes_eqb _ (str "addr")); [by apply (addrip_run o1)|].
  destruct (bytes_eqb _ (str "link")); [by apply (link_run o1)|].
  destruct (bytes_eqb _ (str "route")); [by apply (route_run o1)|apply usage_quiet].
Qed.

(** The recovery from a panic does not change what is seen, and leaves no panic. *)
Lemma ip_main_agrees n o : agrees n o (parse n arg) (ip_main arg n o).
Proof.
  pose proof (ip_body_run n o [str "addr"; str "route"; str "link"]) as H. unfold ip_main.
  destruct (ip_body arg _) as [s [u|e|]]; [done|done|]. destruct (parse n arg) as [a|]; cbn [agrees] in *.
  - destruct (steady_perform a n o 0 []) as [_ Hp]. unfold view in H. by simplify_eq.
  - destruct H as (H1 & H2 & _). done.
Qed.

Lemma ip_main_no_panic n o : snd (ip_main arg n o) <> Panic.
Proof. unfold ip_main. by destruct (ip_body arg _) as [s [u|e|]]. Qed.
End Parser.

(** C18: [ip] implements the grammar.  On a command line of the grammar it performs the action of
    that form, once, on the kernel and the output; on every other command line, also one that ends
    too early, it exits with an error and neither changes the kernel nor prints a listing. *)
Theorem ip_main_grammar {N Link : Type} `{!Netlink N Link} (arg : list bytes) (n : N) (out : bytes) :
  (forall a, command n arg a -> view (ip_main arg n out) = view (perform a (MkIp n out 0 []))) /\
  ((forall a, ~ command n arg a) -> exists e, view (ip_main arg n out) = (n, out, Fail e)).
Proof.
  pose proof (ip_main_agrees arg n out) as H. split.
  - intros a Ha. apply parse_command in Ha. by rewrite Ha in H.
  - intros Hno. destruct (parse n arg) as [a|] eqn:E; [by apply parse_command, Hno in E|].
    destruct H as (H1 & H2 & H3). pose proof (ip_main_no_panic arg n out) as Hp.
    destruct (ip_main arg n out) as [s [u|e|]]; [done| |done]. exists e. unfold view. cbn in *. by subst.
Qed.

(** A kernel with the links [lo] and [eth0]: which of them are up, and the default gateway. *)
Record toy := MkToy { toy_up : list bytes; toy_gw : option (Z * bytes) }.

#[local] Instance toy_netlink : Netlink toy bytes := {|
  LinkByName d n := if bytes_eqb d (str "lo") || bytes_eqb d (str "eth0") then inl d else inr (Errorf "Link not found");
  LinkList n := inl [str "lo"; str "eth0"];
  AddrList l n := ([], None);
  Attrs l := MkAttrs (if bytes_eqb l (str "lo") then 1 else 2) l (str "up|broadcast") 1500 (str "up") (str "ether") [];
  ParseAddr a := match a with [] => inr (Errorf "invalid CIDR address") | _ => inl (MkAddr a a None 0 [] 0 0) end;
  AddrAdd l a n := (n, None);
  AddrDel l a n := (n, None);
  LinkSetUp l n := (MkToy (l :: toy_up n) (toy_gw n), None);
  LinkSetDown l n := (MkToy (List.filter (fun k => negb (bytes_eqb k l)) (toy_up n)) (toy_gw n), None);
  RouteAdd i gw n := (MkToy (toy_up n) (Some (i, gw)), None);
  ProcNetRoute n := inr (Errno 2);
  addr_v a := a_IP a;
  link_v l := l
|}.

Definition words (s : string) : list bytes := Split x20 (str s).

Example ip_ex1 : net (fst (ip_main (words "li se dev eth0 u") (MkToy [] None) [])) = MkToy [str "eth0"] None.
Proof. reflexivity. Qed.
Example ip_ex2 : net (fst (ip_main (words "route add default via 10.0.0.1/8 eth0") (MkToy [] None) [])) =
  MkToy [] (Some (2, str "10.0.0.1/8")).
Proof. reflexivity. Qed.
Example ip_ex3 : snd (ip_main (words "link s") (MkToy [] None) []) = Fail (Errorf usage_msg).
Proof. reflexivity. Qed.
Example ip_ex4 : stdout (fst (ip_main (words "link") (MkToy [] None) [])) = str "1: lo: <UP,BROADCAST> mtu 1500 state UP
    link/ether 
2: eth0: <UP,BROADCAST> mtu 1500 state UP
    link/ether 
".
Proof. reflexivity. Qed.
Example ip_ex5 : snd (ip_main (words "addr add") (MkToy [] None) []) =
  Fail (Errorf "Args: %v, I got to arg %v, I wanted %v after that").
Proof. reflexivity. Qed.

(** The listing of one device, [ip link show eth0], prints nothing. *)
Example ip_link_show_device_silent :
  ip_main (words "link show eth0") (MkToy [] None) [] = (MkIp (MkToy [] None) [] 2 [str "<nothing>"; str "<device name>"], Ret tt).
Proof. reflexivity. Qed.

Lemma ip_main_grammar_witness :
  (forall a, command (MkToy [] None) (words "li se dev eth0 u") a ->
     view (ip_main (words "li se dev eth0 u") (MkToy [] None) []) = view (perform a (MkIp (MkToy [] None) [] 0 []))) /\
  command (MkToy [] None) (words "li se dev eth0 u") (SetUp (str "eth0")).
Proof.
  split; [apply (ip_main_grammar (words "li se dev eth0 u") (MkToy [] None) [])|].
  apply parse_command. reflexivity.
Defined.
