(* ===== verification/Tcz.v ===== *)
(** * Tiny Core packages ([cmds/tcz/tcz.go])

    Downloading a package and everything it depends on ([fetch], [installPackage]), mounting the
    packages and linking their files into the root ([setupPackages], [clonetree]) and [main].  The
    file system is a state with directories, files and symbolic links in which any operation may
    fail; the HTTP server, the loop devices and the contents of a mounted package are parameters.
    Files are only created below the package directory and links only elsewhere, so [Stat] does not
    follow links here. *)

From Stdlib Require Import Strings.String.
From stdpp Require Import gmap.
From S2P Require Export GoPath GoUtf8 GoText.

Abbreviation name_set := (gset bytes).

(** The operations that can fail. *)
Inductive op := OpStat | OpCreate | OpCopy | OpRead | OpWrite | OpMkdirAll | OpLoopCtl | OpOpen | OpSetFd | OpMount | OpSymlink.

#[export] Instance op_eq_dec : EqDecision op.
Proof. solve_decision. Defined.

(** The files below the package directory, the directories and links that were made, and the
    mounted packages (loop device, package file, mount point), oldest first. *)
Record tst := MkT {
  files : gmap bytes bytes; dirs : name_set; links : gmap bytes bytes; mounts : list (bytes * bytes * bytes)
}.

(** The answer of the server: the status line and the body. *)
Record response := MkResp { Status : bytes; Body : bytes }.

Section Tcz.
Context (tczServerDir tczLocalPackageDir host port : bytes) (ignorePackage : name_set).
Context (fault : op -> bytes -> option error) (http_Get : bytes -> response + error).
Context (free_loop : tst -> Z) (walk : bytes -> list (bytes * option bool)).

Definition fullpath (p : bytes) : bytes := PathJoin [tczLocalPackageDir; p].

Definition url (p : bytes) : bytes :=
  str "http://" ++ host ++ str ":" ++ port ++ str "/" ++ PathJoin [tczServerDir; p].

Definition present (st : tst) (f : bytes) : bool :=
  bool_decide (f ∈ dom (files st)) || bool_decide (f ∈ dirs st) || bool_decide (f ∈ dom (links st)).

Definition put_file (f b : bytes) (st : tst) : tst := MkT (<[f := b]> (files st)) (dirs st) (links st) (mounts st).

(** An operation that ends the program when it fails. *)
Definition must (o : op) (f : bytes) (msg : string) : M tst unit := fun st =>
  (st, match fault o f with None => Ret tt | Some _ => Fail (Errorf msg) end).

(** [fetch]: the result is the returned error, [Fail] an exit.  Any error of [Stat] but a missing
    file means that the file is there. *)
Definition fetch (p : bytes) : M tst (option error) := fun st =>
  match fault OpStat (fullpath p) with
  | Some _ => (st, Ret None)
  | None =>
      if present st (fullpath p) then (st, Ret None) else
      match http_Get (url p) with
      | inr _ => (st, Fail (Errorf "Get of %v failed: %v"))
      | inl resp =>
          if negb (bytes_eqb (Status resp) (str "200 OK")) then (st, Ret (Some (Errno 2))) else
          (_ ← must OpCreate (fullpath p) "Create of :%v: failed: %v";
           _ ← modify (put_file (fullpath p) []);
           _ ← must OpCopy (fullpath p) "copy";
           _ ← modify (put_file (fullpath p) (Body resp));
           mret None) st
      end
  end.

(** [ioutil.WriteFile]. *)
Definition WriteFile (f b : bytes) : M tst (option error) := fun st =>
  match fault OpWrite f with
  | Some e => (st, Ret (Some e))
  | None => (put_file f b st, Ret None)
  end.

Definition ReadFile (f : bytes) : M tst bytes := fun st =>
  (st, match fault OpRead f, files st !! f with
       | None, Some b => Ret b
       | _, _ => Fail (Errorf "Fetched dep file %v but can't read it? %v")
       end).

(** The program's state: the file system and the map of the packages that are needed. *)
Definition tworld : Type := tst * name_set.

Definition on_fs {A} (m : M tst A) : M tworld A := fun '(st, deps) => let '(st, r) := m st in ((st, deps), r).

Definition depName (tczName : bytes) : bytes := tczName ++ str ".dep".

(** [M] with fuel: [None] when the fuel has run out. *)
Definition FM (A : Type) : Type := tworld -> option (tworld * outcome error A).

Definition run {A} (m : M tworld A) : FM A := fun w => Some (m w).

Definition fbind {A B} (m : FM A) (f : A -> FM B) : FM B := fun w =>
  match m w with
  | None => None
  | Some (w, Ret a) => f a w
  | Some (w, Fail e) => Some (w, Fail e)
  | Some (w, Panic) => Some (w, Panic)
  end.

(** The loop over the lines of the dependency list: the list without the packages to skip, or the
    error of an installation. *)
Fixpoint dep_loop (install : bytes -> FM (option error)) (vs : list bytes) (realDepList : bytes) :
    FM (bytes * option error) :=
  match vs with
  | [] => run (mret (realDepList, None))
  | v :: vs =>
      if (length v =? 0)%nat then run (mret (realDepList, None))
      else if bool_decide (v ∈ ignorePackage) then dep_loop install vs realDepList
      else
        let realDepList := realDepList ++ v ++ [x0a] in
        fun w => if bool_decide (v ∈ snd w) then dep_loop install vs realDepList w
                 else fbind (install v) (fun err =>
                        match err with
                        | Some e => run (mret (realDepList, Some e))
                        | None => dep_loop install vs realDepList
                        end) w
  end.

Fixpoint installPackage (fuel : nat) (tczName : bytes) : FM (option error) :=
  match fuel with
  | O => fun _ => None
  | S fuel =>
      fbind (run (on_fs (fetch tczName))) (fun err =>
      match err with
      | Some e => run (raise e)
      | None =>
          fbind (run (modify (fun '(st, deps) => (st, {[tczName]} ∪ deps)))) (fun _ =>
          fbind (run (on_fs (fetch (depName tczName)))) (fun err =>
          match err with
          | Some _ =>
              fbind (run (on_fs (WriteFile (fullpath (depName tczName)) []))) (fun _ => run (mret None))
          | None =>
              let depFullPath := fullpath (depName tczName) in
              fbind (run (on_fs (ReadFile depFullPath))) (fun deplist =>
              fbind (dep_loop (installPackage fuel) (GoStrings.Split x0a deplist) []) (fun '(realDepList, err) =>
              match err with
              | Some e => run (mret (Some e))
              | None =>
                  if bytes_eqb deplist realDepList then run (mret None)
                  else run (on_fs (WriteFile depFullPath realDepList))
              end))
          end))
      end)
  end.

(** ** Mounting *)

(** [findloop]: the name of a free loop device. *)
Definition findloop : M tst bytes := fun st =>
  match fault OpLoopCtl (str "/dev/loop-control") with
  | Some _ => (st, Fail (Errorf "/dev/loop-control: %v"))
  | None => (st, Ret (str "/dev/loop" ++ Itoa (free_loop st)))
  end.

(** [os.MkdirAll]: the directory and the ones above it. *)
Fixpoint ancestors (fuel : nat) (p : bytes) : list bytes :=
  match fuel with
  | O => [p]
  | S fuel => p :: if bytes_eqb (Dir p) p then [] else ancestors fuel (Dir p)
  end.

Definition MkdirAll (p : bytes) : M tst (option error) := fun st =>
  match fault OpMkdirAll p with
  | Some e => (st, Ret (Some e))
  | None => (MkT (files st) (list_to_set (ancestors (length p) p) ∪ dirs st) (links st) (mounts st), Ret None)
  end.

Definition Symlink (target f : bytes) : M tst (option error) := fun st =>
  match fault OpSymlink f with
  | Some e => (st, Ret (Some e))
  | None =>
      if present st f then (st, Ret (Some (Errno 17)))
      else (MkT (files st) (dirs st) (<[f := target]> (links st)) (mounts st), Ret None)
  end.

(** The function that [clonetree] passes to [filepath.Walk]; a nil [FileInfo] is a crash. *)
Definition clone_entry (lt : Z) (path : bytes) (fi : option bool) : M tst unit :=
  match fi with
  | None => lift Panic
  | Some isDir =>
      rel ← lift (or_panic (slice path lt (zlen path)));
      if isDir then
        if bytes_eqb rel [] then mret tt else _ ← MkdirAll rel; mret tt
      else fun st =>
        match links st !! rel with
        | Some target =>
            (st, if bytes_eqb target path then Ret tt
                 else Fail (Errorf "symlink: need %q -> %q, but %q -> %q is already there"))
        | None =>
            (err ← Symlink path rel; match err with None => mret tt | Some _ => raise (Errorf "Symlink: %v") end) st
        end
  end.

Fixpoint clone_entries (lt : Z) (es : list (bytes * option bool)) : M tst unit :=
  match es with
  | [] => mret tt
  | (path, fi) :: es => _ ← clone_entry lt path fi; clone_entries lt es
  end.

(** [clonetree]; an error of the walk is an exit. *)
Definition clonetree (tree : bytes) : M tst unit := clone_entries (zlen tree) (walk tree).

(** [strings.Split(v, filepath.Ext(v))[0]]: with no extension the first character. *)
Definition cmdName (v : bytes) : outcome error bytes :=
  match Ext v, v with
  | [], [] => Panic
  | [], _ => Ret (EncodeRune (fst (DecodeRune v)))
  | e, _ => or_panic (head (SplitS v e))
  end.

Definition packagePath (c : bytes) : bytes := PathJoin [str "/tmp/tcloop"; c].

Definition setup_one (v : bytes) : M tst unit :=
  c ← lift (cmdName v);
  let packagePath := packagePath c in
  (fun st : tst =>
    if present st packagePath && bool_decide (fault OpStat packagePath = None) then (st, Ret tt) else
    (err ← MkdirAll packagePath;
     _ ← match err with None => mret tt | Some _ => raise (Errorf "Package directory %s at %s, can not be created: %v") end;
     loopname ← findloop;
     let pkgpath := fullpath v in
     _ ← must OpOpen pkgpath "%v: %v";
     _ ← must OpOpen loopname "%v: %v";
     _ ← must OpSetFd loopname "loop set fd ioctl: pkgpath :%v:, loop :%v:, %v, %v, %v";
     _ ← must OpMount packagePath "Mount :%s: on :%s: %v";
     _ ← modify (fun st => MkT (files st) (dirs st) (links st) (mounts st ++ [(loopname, pkgpath, packagePath)]));
     clonetree packagePath) st) : M tst unit.

(** [setupPackages] with the order in which the map is iterated. *)
Fixpoint setupPackages (deps : list bytes) : M tst unit :=
  match deps with
  | [] => mret tt
  | v :: deps => _ ← setup_one v; setupPackages deps
  end.

(** The loop of [main] over the packages; [order] is the order of the map. *)
Fixpoint main_loop (fuel : nat) (install : bool) (order : name_set -> list bytes) (packages : list bytes) : FM unit :=
  match packages with
  | [] => run (mret tt)
  | p :: packages =>
      fbind (installPackage fuel (p ++ str ".tcz")) (fun err =>
      match err with
      | Some e => run (raise e)
      | None =>
          fbind (if install then fun w => run (on_fs (setupPackages (order (snd w)))) w else run (mret tt)) (fun _ =>
          main_loop fuel install order packages)
      end)
  end.
End Tcz.

Record tflags := MkTFlags { f_host : bytes; f_version : bytes; f_arch : bytes; f_port : bytes; f_install : bool; f_tczRoot : bytes; f_skip : bytes }.

(** [main]; the map of needed packages starts empty. *)
Definition tcz_main (fault : op -> bytes -> option error) (http_Get : bytes -> response + error) (free_loop : tst -> Z)
    (walk : bytes -> list (bytes * option bool)) (order : name_set -> list bytes) (fuel : nat)
    (f : tflags) (packages : list bytes) (st : tst) : option (tworld * outcome error unit) :=
  let ignorePackage : name_set := list_to_set ((fun p => p ++ str ".tcz") <$> Fields (f_skip f)) in
  let tczServerDir := PathJoin [sep; f_version f; f_arch f; str "/tcz"] in
  let tczLocalPackageDir := PathJoin [f_tczRoot f; tczServerDir] in
  if (length packages =? 0)%nat then Some ((st, ∅), Fail (Errorf "usage")) else
  fbind (run (on_fs (MkdirAll fault tczLocalPackageDir))) (fun err =>
  match err with
  | Some e => run (raise e)
  | None =>
      fbind (run (on_fs (MkdirAll fault (str "/tmp/tcloop")))) (fun err =>
      match err with
      | Some e => run (raise e)
      | None =>
          main_loop tczServerDir tczLocalPackageDir (f_host f) (f_port f) ignorePackage fault http_Get free_loop walk
            fuel (f_install f) order packages
      end)
  end) (st, ∅).

(** ** Dependency lists *)

Lemma Split_unlines ls : Forall is_line ls -> GoStrings.Split x0a (unlines ls) = ls ++ [[]].
Proof.
  induction 1 as [|l ls Hl _ IH]; [done|]. rewrite unlines_cons. cbn [app].
  change (l ++ x0a :: unlines ls) with (l ++ x0a :: unlines ls). by rewrite Split_app, IH.
Qed.

Fixpoint take_while {A} (f : A -> bool) (l : list A) : list A :=
  match l with
  | [] => []
  | a :: l => if f a then a :: take_while f l else []
  end.

Lemma take_while_incl {A} (f : A -> bool) l a : a ∈ take_while f l -> a ∈ l /\ f a = true.
Proof.
  induction l as [|b l IH]; cbn; [by intros ?%not_elem_of_nil|]. destruct (f b) eqn:E; [|by intros ?%not_elem_of_nil].
  intros [->|H]%elem_of_cons; [by split; [left|]|]. destruct (IH H). by split; [right|].
Qed.

Lemma take_while_all {A} (f : A -> bool) l k :
  Forall (fun a => f a = true) l -> take_while f (l ++ k) = l ++ take_while f k.
Proof. induction 1 as [|a l Ha _ IH]; cbn; [done|]. by rewrite Ha, IH. Qed.

Section Install.
Context (tczServerDir tczLocalPackageDir host port : bytes) (ignorePackage : name_set).
Context (fault : op -> bytes -> option error) (http_Get : bytes -> response + error).

#[local] Abbreviation fullpath := (fullpath tczLocalPackageDir).
#[local] Abbreviation fetch := (fetch tczServerDir tczLocalPackageDir host port fault http_Get).
#[local] Abbreviation installPackage := (installPackage tczServerDir tczLocalPackageDir host port ignorePackage fault http_Get).
#[local] Abbreviation dep_loop := (dep_loop ignorePackage).
#[local] Abbreviation url := (url tczServerDir host port).

(** The packages that a list of lines asks for: up to the first empty line, without the ones to
    skip. *)
Definition wanted (vs : list bytes) : list bytes :=
  List.filter (fun v => negb (bool_decide (v ∈ ignorePackage))) (take_while (fun v => negb (length v =? 0)%nat) vs).

(** The dependencies that a dependency list names. *)
Definition needs (c : bytes) : list bytes := wanted (GoStrings.Split x0a c).

Lemma wanted_incl vs v : v ∈ wanted vs -> v ∈ vs /\ v <> [] /\ v ∉ ignorePackage.
Proof.
  unfold wanted. rewrite list_elem_of_In, List.filter_In, <- list_elem_of_In. intros [H1 H2].
  apply take_while_incl in H1 as [H1 H3]. split_and!; [done|by intros ->|].
  by destruct (bool_decide_reflect (v ∈ ignorePackage)).
Qed.

Lemma wanted_id ls :
  Forall (fun v => v <> [] /\ v ∉ ignorePackage) ls -> wanted (ls ++ [[]]) = ls.
Proof.
  intros H. unfold wanted. rewrite take_while_all.
  - cbn. rewrite app_nil_r. induction H as [|v ls [_ Hv] _ IH]; [done|]. cbn [List.filter].
    rewrite bool_decide_eq_false_2 by done. cbn. by rewrite IH.
  - eapply Forall_impl; [exact H|]. intros v [Hv _]. by destruct v.
Qed.

(** The list that is written back asks for the same packages. *)
Lemma needs_rewritten c : needs (unlines (needs c)) = needs c.
Proof.
  unfold needs at 1. rewrite Split_unlines.
  - apply wanted_id. apply Forall_forall. intros v Hv. apply wanted_incl in Hv. naive_solver.
  - apply Forall_forall. intros v Hv. apply wanted_incl in Hv as [Hv _].
    pose proof (Split_pieces x0a c) as Hp. rewrite Forall_forall in Hp. by apply Hp.
Qed.

(** Files stay, with the same contents or the rewritten list. *)
Definition keeps (st st' : tst) : Prop :=
  forall f c, files st !! f = Some c ->
    exists c', files st' !! f = Some c' /\ (c' = c \/ c' = unlines (needs c)) /\ needs c' = needs c.

Lemma keeps_refl st : keeps st st.
Proof. intros f c Hc. exists c. auto. Qed.

Lemma keeps_trans a b c : keeps a b -> keeps b c -> keeps a c.
Proof.
  intros H1 H2 f x Hx. destruct (H1 f x Hx) as (y & Hy & Hy1 & Hy2). destruct (H2 f y Hy) as (z & Hz & Hz1 & Hz2).
  exists z. split_and!; [done| |by rewrite Hz2]. rewrite Hy2 in Hz1. destruct Hy1 as [->| ->]; naive_solver.
Qed.

Lemma keeps_new st f c : files st !! f = None -> keeps st (put_file f c st).
Proof.
  intros Hf g d Hg. exists d. split_and!; [|by left|done]. cbn. rewrite lookup_insert_ne; [done|]. by intros ->; rewrite Hf in Hg.
Qed.

Lemma keeps_rewrite st f c : files st !! f = Some c -> keeps st (put_file f (unlines (needs c)) st).
Proof.
  intros Hf g d Hg. cbn. destruct (decide (f = g)) as [->|Hne].
  - rewrite lookup_insert_eq. simplify_eq. eexists. split_and!; [done|by right|apply needs_rewritten].
  - rewrite lookup_insert_ne by done. eauto.
Qed.

(** [present] is false of names that are no file. *)
Lemma present_file st f : present st f = false -> files st !! f = None.
Proof.
  unfold present. intros H. apply orb_false_elim in H as [H _]. apply orb_false_elim in H as [H _].
  apply bool_decide_eq_false in H. by apply not_elem_of_dom.
Qed.

(** What [fetch] does when it returns. *)
Lemma fetch_Ret p st st' e :
  fetch p st = (st', Ret e) ->
  (st' = st /\ (e <> None -> files st !! fullpath p = None)) \/
  (e = None /\ files st !! fullpath p = None /\
   exists resp, http_Get (url p) = inl resp /\ files st' = <[fullpath p := Body resp]> (files st)).
Proof.
  unfold Tcz.fetch. destruct (fault OpStat _); [intros [= <- <-]; by left|].
  destruct (present st (fullpath p)) eqn:Ep; [intros [= <- <-]; by left|]. apply present_file in Ep.
  destruct (http_Get (url p)) as [resp|] eqn:Eg; [|done]. destruct (negb _); [intros [= <- <-]; by left|].
  intros H. right. M_inv H. M_inv H. M_inv H. M_inv H. unfold must, modify in *. simplify_eq/=.
  unfold mret, M_ret in H. simplify_eq. split_and!; [done|done|]. exists resp. split; [done|]. cbn. by rewrite insert_insert_eq.
Qed.

Lemma fetch_keeps p st st' e : fetch p st = (st', Ret e) -> keeps st st'.
Proof.
  intros [[-> _]|(_ & Hf & resp & _ & Hr)]%fetch_Ret; [apply keeps_refl|].
  intros f c Hc. destruct (keeps_new st (fullpath p) (Body resp) Hf f c Hc) as (c' & H1 & H2). exists c'.
  split; [|done]. by rewrite Hr.
Qed.

Lemma fbind_inv {A B} (m : FM A) (f : A -> FM B) w w' b :
  fbind m f w = Some (w', Ret b) -> exists w1 a, m w = Some (w1, Ret a) /\ f a w1 = Some (w', Ret b).
Proof. unfold fbind. intros H. destruct (m w) as [[w1 [a|e|]]|]; simplify_eq. eauto. Qed.

Lemma on_fs_inv {A} (m : M tst A) st deps w a :
  run (on_fs m) (st, deps) = Some (w, Ret a) -> exists st', w = (st', deps) /\ m st = (st', Ret a).
Proof. unfold run, on_fs. destruct (m st) as [st' r]. intros [= <- ->]. eauto. Qed.

(** A package is settled: its dependency list is there, it is a list of lines without packages to
    skip, and everything it asks for is in [deps]. *)
Definition settled (st : tst) (deps : name_set) (p : bytes) : Prop :=
  exists c, files st !! fullpath (depName p) = Some c /\ c = unlines (needs c) /\ forall v, v ∈ needs c -> v ∈ deps.

Lemma settled_mono (st st' : tst) (deps deps' : name_set) (p : bytes) :
  keeps st st' -> deps ⊆ deps' -> settled st deps p -> settled st' deps' p.
Proof.
  intros Hk Hd (c & Hc & Hu & Hn). destruct (Hk _ _ Hc) as (c' & Hc' & Hcc & Hn').
  exists c'. split_and!; [done| |rewrite Hn'; intros v Hv; apply Hd, Hn, Hv]. rewrite Hn'. destruct Hcc as [->| ->]; done.
Qed.

(** What an installation promises when it returns nil. *)
Definition installs (inst : bytes -> FM (option error)) : Prop :=
  forall (v : bytes) (st : tst) (deps : name_set) (st' : tst) (deps' : name_set), inst v (st, deps) = Some ((st', deps'), Ret None) ->
    keeps st st' /\ deps ⊆ deps' /\ v ∈ deps' /\
    forall p, p = v \/ (p ∈ deps' /\ p ∉ deps) -> settled st' deps' p.

Lemma dep_loop_installs (inst : bytes -> FM (option error)) (vs : list bytes) (acc : bytes) (st : tst) (deps : name_set) (st' : tst) (deps' : name_set) (r : bytes) :
  installs inst -> dep_loop inst vs acc (st, deps) = Some ((st', deps'), Ret (r, None)) ->
  keeps st st' /\ deps ⊆ deps' /\ r = acc ++ unlines (wanted vs) /\ (forall v, v ∈ wanted vs -> v ∈ deps') /\
  forall p, p ∈ deps' -> p ∉ deps -> settled st' deps' p.
Proof.
  intros Hi. revert acc st deps. induction vs as [|v vs IH]; intros acc st deps; cbn [Tcz.dep_loop].
  { intros [= <- <- <-]. rewrite app_nil_r. split_and!; [apply keeps_refl|done|done|by intros v ?%not_elem_of_nil|by intros p ? ?]. }
  unfold wanted. cbn [take_while]. destruct (length v =? 0)%nat eqn:El; cbn [negb List.filter].
  { intros [= <- <- <-]. rewrite app_nil_r. split_and!; [apply keeps_refl|done|done|by intros u ?%not_elem_of_nil|by intros p ? ?]. }
  destruct (bool_decide (v ∈ ignorePackage)); cbn [negb]; [apply IH|]. cbn [snd].
  destruct (bool_decide_reflect (v ∈ deps)) as [Hv|Hv].
  - intros H. apply IH in H as (H1 & H2 & H3 & H4 & H5). split_and!; [done|done|by rewrite H3, unlines_cons, <- !app_assoc| |done].
    intros u [->|Hu]%elem_of_cons; [set_solver|by apply H4].
  - intros ([st1 deps1] & err & Hinst & H)%fbind_inv. destruct err as [e|]; [by unfold run in H; simplify_eq|].
    apply Hi in Hinst as (K1 & K2 & K3 & K4). apply IH in H as (H1 & H2 & H3 & H4 & H5).
    split_and!; [by eapply keeps_trans|set_solver|by rewrite H3, unlines_cons, <- !app_assoc| |].
    + intros u [->|Hu]%elem_of_cons; [set_solver|by apply H4].
    + intros p Hp Hn. destruct (decide (p ∈ deps1)) as [Hp1|Hp1]; [|by apply H5].
      apply (settled_mono st1 st' deps1); [done|done|]. apply K4. by right.
Qed.

Context (Hwrite : forall f, fault OpWrite f = None).

(** The end of [installPackage]: the list is rewritten unless it is already what is wanted. *)
Lemma dep_list_done (inst : bytes -> FM (option error)) (v b r : bytes) (st st2 st4 st' : tst) (deps deps4 deps' : name_set) :
  installs inst -> keeps st st2 -> files st2 !! fullpath (depName v) = Some b ->
  dep_loop inst (GoStrings.Split x0a b) [] (st2, {[v]} ∪ deps) = Some ((st4, deps4), Ret (r, None)) ->
  (if bytes_eqb b r then run (mret None) else run (on_fs (WriteFile fault (fullpath (depName v)) r))) (st4, deps4)
    = Some ((st', deps'), Ret None) ->
  keeps st st' /\ deps ⊆ deps' /\ v ∈ deps' /\ forall p, p = v \/ (p ∈ deps' /\ p ∉ deps) -> settled st' deps' p.
Proof.
  intros Hi K Hb Hl H. apply dep_loop_installs in Hl as (K2 & Hd & -> & Hw & Hs); [|done]. cbn [app] in *.
  fold (needs b) in *. destruct (K2 _ _ Hb) as (b4 & Hb4 & Hc4 & Hn4).
  assert (keeps st4 st' /\ deps' = deps4 /\ settled st' deps' v) as (K3 & -> & Hv).
  { destruct (bytes_eqb b _) eqn:Eq.
    - unfold run, mret, M_ret in H. simplify_eq. apply bytes_eqb_eq in Eq. split_and!; [apply keeps_refl|done|].
      exists b4. split_and!; [done| |by rewrite Hn4]. rewrite Hn4. destruct Hc4 as [->| ->]; done.
    - apply on_fs_inv in H as (st5 & ? & H). unfold WriteFile in H. rewrite Hwrite in H. simplify_eq.
      split_and!; [rewrite <- Hn4; by apply keeps_rewrite|done|]. exists (unlines (needs b)). cbn. rewrite lookup_insert_eq, needs_rewritten.
      split_and!; [done|done|done]. }
  split_and!; [by do 2 (eapply keeps_trans; [done|])|set_solver|set_solver|].
  intros p [->|[Hp Hn]]; [done|]. destruct (decide (p = v)) as [->|Hpv]; [done|].
  apply (settled_mono st4 st' deps4); [done|done|]. apply Hs; set_solver.
Qed.

Lemma installPackage_installs fuel : installs (installPackage fuel).
Proof.
  induction fuel as [|fuel IH]; intros v st deps st' deps'; cbn [Tcz.installPackage]; [done|].
  intros (w & err & H1 & H)%fbind_inv. apply on_fs_inv in H1 as (st1 & -> & H1).
  destruct err as [e|]; [done|]. apply fbind_inv in H as (w & [] & Hm & H). unfold run, modify in Hm. simplify_eq.
  apply fbind_inv in H as (w & err & H2 & H). apply on_fs_inv in H2 as (st2 & -> & H2).
  pose proof (keeps_trans _ _ _ (fetch_keeps _ _ _ _ H1) (fetch_keeps _ _ _ _ H2)) as K.
  destruct err as [e|].
  - apply fbind_inv in H as (w & r & H3 & H). apply on_fs_inv in H3 as (st3 & -> & H3).
    unfold run, mret, M_ret in H. simplify_eq. unfold WriteFile in H3. rewrite Hwrite in H3. simplify_eq.
    apply fetch_Ret in H2 as [[-> Hf]|(? & _)]; [|done]. specialize (Hf ltac:(done)).
    apply fetch_keeps in H1. split_and!; [by eapply keeps_trans, keeps_new|set_solver|set_solver|].
    intros p Hp. assert (p = v) as -> by set_solver. exists []. cbn. rewrite lookup_insert_eq.
    split_and!; [done|done|by intros u ?%not_elem_of_nil].
  - apply fbind_inv in H as (w & c & H3 & H). apply on_fs_inv in H3 as (st3 & -> & H3).
    unfold ReadFile in H3. destruct (fault OpRead _); [done|].
    destruct (files st2 !! fullpath (depName v)) as [b|] eqn:Eb; [|done]. simplify_eq.
    apply fbind_inv in H as ([st4 deps4] & [r err] & Hl & H). destruct err as [e|]; [by unfold run in H; simplify_eq|].
    by eapply dep_list_done.
Qed.
End Install.

(** ** Termination

    [U] holds every line of every file that the server has or that was there before. *)

Section Terminates.
Context (tczServerDir tczLocalPackageDir host port : bytes) (ignorePackage : name_set).
Context (fault : op -> bytes -> option error) (http_Get : bytes -> response + error).
Context (U : name_set).

#[local] Abbreviation fetch := (fetch tczServerDir tczLocalPackageDir host port fault http_Get).
#[local] Abbreviation installPackage := (installPackage tczServerDir tczLocalPackageDir host port ignorePackage fault http_Get).
#[local] Abbreviation dep_loop := (dep_loop ignorePackage).

Definition lines_in (b : bytes) : Prop := forall v, v ∈ GoStrings.Split x0a b -> v <> [] -> v ∈ U.

Definition stored (st : tst) : Prop := forall f b, files st !! f = Some b -> lines_in b.

Context (Hserved : forall u resp, http_Get u = inl resp -> lines_in (Body resp)).

Lemma stored_put (st : tst) f b : stored st -> lines_in b -> stored (put_file f b st).
Proof.
  intros Hs Hb g c. cbn. destruct (decide (f = g)) as [->|Hne].
  - rewrite lookup_insert_eq. by intros [= <-].
  - rewrite lookup_insert_ne by done. apply Hs.
Qed.

Lemma lines_in_nil : lines_in [].
Proof. intros v Hv. cbn in Hv. by apply list_elem_of_singleton in Hv as ->. Qed.

Lemma fetch_stored p st : stored st -> stored (fst (fetch p st)).
Proof.
  intros Hs. unfold Tcz.fetch. destruct (fault OpStat _); [done|]. destruct (present st _); [done|].
  destruct (http_Get _) as [resp|] eqn:Eg; [|done]. destruct (negb _); [done|].
  unfold mbind, M_bind, must, modify, mret, M_ret. destruct (fault OpCreate _); [done|]. cbn.
  destruct (fault OpCopy _); cbn; repeat apply stored_put; eauto using lines_in_nil.
Qed.

(** A run that returns and keeps the condition on the files. *)
Definition ends {A : Type} (deps : name_set) (o : option (tworld * outcome error A)) : Prop :=
  exists st' (deps' : name_set) r, o = Some ((st', deps'), r) /\ stored st' /\ deps ⊆ deps'.

Lemma ends_fbind {A B : Type} (m : FM A) (f : A -> FM B) (deps : name_set) (w : tworld) :
  ends deps (m w) ->
  (forall st' (deps' : name_set) a, m w = Some ((st', deps'), Ret a) -> stored st' -> deps ⊆ deps' -> ends deps (f a (st', deps'))) ->
  ends deps (fbind m f w).
Proof.
  intros (st' & deps' & r & E & Hs & Hd) Hf. unfold fbind. rewrite E.
  destruct r as [a|e|]; [by apply Hf|by exists st', deps', (Fail e)|by exists st', deps', Panic].
Qed.

Lemma ends_run {A : Type} (m : M tst A) (st : tst) (deps0 deps : name_set) :
  stored (fst (m st)) -> deps0 ⊆ deps -> ends deps0 (run (on_fs m) (st, deps)).
Proof. unfold run, on_fs. destruct (m st) as [st' r]. cbn. intros H1 H2. by exists st', deps, r. Qed.

Lemma ends_ret {A : Type} (a : outcome error A) (deps0 deps : name_set) (st : tst) :
  stored st -> deps0 ⊆ deps -> ends deps0 (Some ((st, deps), a)).
Proof. by exists st, deps, a. Qed.

Lemma ends_weaken {A : Type} (deps0 deps : name_set) (o : option (tworld * outcome error A)) :
  deps0 ⊆ deps -> ends deps o -> ends deps0 o.
Proof. intros H (st' & deps' & r & -> & Hs & Hd). exists st', deps', r. split_and!; [done|done|set_solver]. Qed.

(** What [dep_loop] collects is made of lines it was given. *)
Lemma dep_loop_collects (inst : bytes -> FM (option error)) (vs : list bytes) (acc : bytes) w w' r e :
  dep_loop inst vs acc w = Some (w', Ret (r, e)) ->
  exists ls, r = acc ++ unlines ls /\ forall v, v ∈ ls -> v ∈ vs.
Proof.
  revert acc w. induction vs as [|v vs IH]; intros acc w; cbn [Tcz.dep_loop].
  { intros [= _ <- _]. exists []. cbn. by rewrite app_nil_r. }
  destruct (length v =? 0)%nat.
  { intros [= _ <- _]. exists []. cbn. rewrite app_nil_r. split; [done|]. by intros u ?%not_elem_of_nil. }
  assert (forall acc' w1, dep_loop inst vs acc' w1 = Some (w', Ret (r, e)) ->
    acc' = acc \/ acc' = acc ++ v ++ [x0a] -> exists ls, r = acc ++ unlines ls /\ forall u, u ∈ ls -> u ∈ v :: vs) as Hgo.
  { intros acc' w1 H Hacc. apply IH in H as (ls & -> & Hls). destruct Hacc as [->| ->].
    - exists ls. split; [done|]. intros u Hu. right. by apply Hls.
    - exists (v :: ls). split; [by rewrite unlines_cons, <- !app_assoc|]. intros u [->|Hu]%elem_of_cons; [left|right; by apply Hls]. }
  destruct (bool_decide (v ∈ ignorePackage)); [intros H; by eapply Hgo, or_introl|].
  destruct (bool_decide (v ∈ snd w)); [intros H; by eapply Hgo, or_intror|].
  unfold fbind. destruct (inst v w) as [[w1 [[e1|]|e1|]]|]; intros H; simplify_eq.
  - unfold run, mret, M_ret in H. simplify_eq. exists [v]. split; [cbn; by rewrite app_nil_r|].
    intros u ->%list_elem_of_singleton. left.
  - by eapply Hgo, or_intror.
Qed.

Lemma dep_loop_ends (inst : bytes -> FM (option error)) (n : nat) (vs : list bytes) (acc : bytes) (st : tst) (deps : name_set) :
  (forall v st (deps : name_set), stored st -> (size (U ∖ ({[v]} ∪ deps)) < n)%nat -> ends deps (inst v (st, deps))) ->
  (forall v, v ∈ vs -> v <> [] -> v ∈ U) -> stored st -> (size (U ∖ deps) <= n)%nat ->
  ends deps (dep_loop inst vs acc (st, deps)).
Proof.
  intros Hi. revert acc st deps. induction vs as [|v vs IH]; intros acc st deps Hv Hs Hn; cbn [Tcz.dep_loop].
  { by apply ends_ret. }
  destruct (length v =? 0)%nat eqn:El; [by apply ends_ret|].
  assert (forall u, u ∈ vs -> u <> [] -> u ∈ U) as Hvs by (intros u Hu; apply Hv; by right).
  destruct (bool_decide (v ∈ ignorePackage)); [by apply IH|]. cbn [snd].
  destruct (bool_decide_reflect (v ∈ deps)) as [Hd|Hd]; [by apply IH|].
  apply ends_fbind.
  - apply Hi; [done|]. eapply Nat.lt_le_trans; [|exact Hn]. apply subset_size.
    assert (v ∈ U) by (apply Hv; [left|by intros ->]). set_solver.
  - intros st1 deps1 [e|] _ Hs1 Hd1; [by apply ends_ret|]. apply (ends_weaken _ deps1); [done|]. apply IH; [done|done|].
    etrans; [|exact Hn]. apply subseteq_size. set_solver.
Qed.

Lemma installPackage_ends (fuel : nat) (v : bytes) (st : tst) (deps : name_set) :
  stored st -> (size (U ∖ ({[v]} ∪ deps)) < fuel)%nat -> ends deps (installPackage fuel v (st, deps)).
Proof.
  revert v st deps. induction fuel as [|fuel IH]; intros v st deps Hs Hn; [lia|]. cbn [Tcz.installPackage].
  apply ends_fbind; [by apply ends_run; [apply fetch_stored|]|]. intros st1 deps1 [e|] E1 Hs1 Hd1; [by apply ends_ret|].
  assert (deps1 = deps) as ->.
  { unfold run, on_fs in E1. destruct (fetch v st). by simplify_eq. }
  apply ends_fbind; [by apply ends_ret; [|set_solver]|]. intros st2 deps2 [] E2 Hs2 Hd2.
  unfold run, modify in E2. simplify_eq. apply ends_fbind; [by apply ends_run; [apply fetch_stored|]|].
  intros st3 deps3 err E3 Hs3 Hd3. assert (deps3 = {[v]} ∪ deps) as ->.
  { unfold run, on_fs in E3. destruct (fetch _ st2). by simplify_eq. }
  assert (forall f b (deps' : name_set) st, stored st -> lines_in b -> deps ⊆ deps' -> ends deps (run (on_fs (WriteFile fault f b)) (st, deps'))) as Hw.
  { intros f b deps' st' Hst Hb Hd'. apply ends_run; [|done]. unfold WriteFile. destruct (fault OpWrite f); [done|]. by apply stored_put. }
  destruct err as [e|].
  { apply ends_fbind; [by apply Hw; [|apply lines_in_nil|]|]. intros. by apply ends_ret. }
  apply ends_fbind; [by apply ends_run|]. intros st4 deps4 c E4 Hs4 Hd4. unfold run, on_fs, ReadFile in E4.
  destruct (fault OpRead _); [done|]. destruct (files st3 !! _) as [b|] eqn:Eb; [|done]. simplify_eq.
  pose proof (Hs4 _ _ Eb) as Hc. apply ends_fbind.
  - apply (ends_weaken _ ({[v]} ∪ deps)); [done|]. apply (dep_loop_ends _ fuel); [done|done|done|lia].
  - intros st5 deps5 [r [e|]] E5 Hs5 Hd5; [by apply ends_ret|]. destruct (bytes_eqb c r); [by apply ends_ret|].
    apply Hw; [done| |done]. apply dep_loop_collects in E5 as (ls & -> & Hls). intros u Hu Hne. cbn [app] in Hu.
    rewrite Split_unlines in Hu.
    + apply elem_of_app in Hu as [Hu|Hu]; [by apply Hc; [apply Hls|]|]. by apply list_elem_of_singleton in Hu.
    + apply Forall_forall. intros l Hl. pose proof (Split_pieces x0a c) as Hp. rewrite Forall_forall in Hp. by apply Hp, Hls.
Qed.
End Terminates.

(** C19: [installPackage] on a server with finitely many packages, with a disk that takes what is written to a
    file that could be opened, ends, also when packages depend
    on each other in a cycle; when it returns nil, the package and everything that a package of the
    map asks for, packages to skip left out, are in the map, and the dependency list of every
    package of the map is stored without the packages to skip. *)
Theorem installPackage_closed (tczServerDir tczLocalPackageDir host port : bytes) (ignorePackage : name_set)
    (fault : op -> bytes -> option error) (http_Get : bytes -> response + error) (U : name_set)
    (v : bytes) (st : tst) (deps : name_set) :
  (forall f, fault OpWrite f = None) ->
  (forall u resp, http_Get u = inl resp -> lines_in U (Body resp)) -> stored U st ->
  (forall p, p ∈ deps -> settled tczLocalPackageDir ignorePackage st deps p) ->
  exists st' (deps' : name_set) r,
    installPackage tczServerDir tczLocalPackageDir host port ignorePackage fault http_Get (S (size U)) v (st, deps)
      = Some ((st', deps'), r) /\ deps ⊆ deps' /\
    (r = Ret None -> v ∈ deps' /\ forall p, p ∈ deps' -> settled tczLocalPackageDir ignorePackage st' deps' p).
Proof.
  intros Hw Hserved Hst Hdeps.
  destruct (installPackage_ends tczServerDir tczLocalPackageDir host port ignorePackage fault http_Get U Hserved
              (S (size U)) v st deps Hst) as (st' & deps' & r & E & _ & Hd).
  { apply Nat.lt_succ_r, subseteq_size. set_solver. }
  exists st', deps', r. split_and!; [done|done|]. intros ->.
  apply installPackage_installs in E as (K & _ & Hv & Hs); [|done]. split; [done|]. intros p Hp.
  destruct (decide (p ∈ deps)) as [Hin|Hn]; [|apply Hs; by right].
  apply (settled_mono _ _ st st' deps); [done|done|by apply Hdeps].
Qed.

(** Two packages that depend on each other; the list of the first has a package to skip. *)
Definition toy_server (u : bytes) : response + error :=
  let file (s : string) := bytes_eqb u (str "http://h:80//8.x/x86_64/tcz/" ++ str s) in
  inl (if file "a.tcz"%string || file "b.tcz"%string then MkResp (str "200 OK") []
       else if file "a.tcz.dep"%string then MkResp (str "200 OK") (unlines [str "b.tcz"; str "c.tcz"])
       else if file "b.tcz.dep"%string then MkResp (str "200 OK") (unlines [str "a.tcz"])
       else MkResp (str "404 Not Found") []).

Definition toy_names : name_set := list_to_set [str "a.tcz"; str "b.tcz"; str "c.tcz"].

Definition no_faults (o : op) (f : bytes) : option error := None.

Definition empty_tst : tst := MkT ∅ ∅ ∅ [].

Lemma lines_in_dec (U : name_set) b :
  forallb (fun v => (length v =? 0)%nat || bool_decide (v ∈ U)) (GoStrings.Split x0a b) = true -> lines_in U b.
Proof.
  intros H v Hv Hne. rewrite forallb_forall in H. specialize (H v (proj1 (list_elem_of_In _ _) Hv)).
  destruct v as [|c v]; [done|]. by apply bool_decide_eq_true in H.
Qed.

(** What the server sends has only lines of [toy_names]. *)
Lemma toy_server_lines u resp : toy_server u = inl resp -> lines_in toy_names (Body resp).
Proof. unfold toy_server. intros [= <-]. repeat case_match; apply lines_in_dec; reflexivity. Qed.

Lemma installPackage_closed_witness :
  exists st' (deps' : name_set) r,
    installPackage (str "/8.x/x86_64/tcz") (str "/tcz/8.x/x86_64/tcz") (str "h") (str "80") {[str "c.tcz"]} no_faults
      toy_server (S (size toy_names)) (str "a.tcz") (empty_tst, ∅) = Some ((st', deps'), r) /\ ∅ ⊆ deps' /\
    (r = Ret None -> str "a.tcz" ∈ deps' /\
      forall p, p ∈ deps' -> settled (str "/tcz/8.x/x86_64/tcz") {[str "c.tcz"]} st' deps' p).
Proof.
  apply (installPackage_closed _ _ _ _ _ no_faults toy_server toy_names).
  - done.
  - exact toy_server_lines.
  - intros f b H. cbn in H. by rewrite lookup_empty in H.
  - intros p Hp. by apply not_elem_of_empty in Hp.
Defined.

Example installPackage_cycle :
  match installPackage (str "/8.x/x86_64/tcz") (str "/tcz/8.x/x86_64/tcz") (str "h") (str "80") {[str "c.tcz"]} no_faults
      toy_server 4 (str "a.tcz") (empty_tst, ∅) with
  | Some ((st, deps), Ret None) =>
      bool_decide (deps = {[str "a.tcz"; str "b.tcz"]}) &&
      bool_decide (files st !! str "/tcz/8.x/x86_64/tcz/a.tcz.dep" = Some (str "b.tcz" ++ [x0a]))
  | _ => false
  end = true.
Proof. vm_compute. reflexivity. Qed.

(** ** Links and mounts *)

Section Setup.
Context (tczLocalPackageDir : bytes) (fault : op -> bytes -> option error).
Context (free_loop : tst -> Z) (walk : bytes -> list (bytes * option bool)).

Lemma MkdirAll_links p st : links (fst (MkdirAll fault p st)) = links st /\ mounts (fst (MkdirAll fault p st)) = mounts st /\
  dirs st ⊆ dirs (fst (MkdirAll fault p st)).
Proof. unfold MkdirAll. destruct (fault OpMkdirAll p); cbn; [done|]. split_and!; [done|done|set_solver]. Qed.

(** One entry of a package: links that exist stay, a file has its link afterwards. *)
Lemma clone_entry_Ret lt path fi st st' :
  clone_entry fault lt path fi st = (st', Ret tt) ->
  links st ⊆ links st' /\ mounts st' = mounts st /\ dirs st ⊆ dirs st' /\
  (fi = Some false -> exists rel, slice path lt (zlen path) = Some rel /\ links st' !! rel = Some path).
Proof.
  unfold clone_entry. destruct fi as [isDir|]; [|done]. unfold mbind at 1, M_bind at 1, lift at 1.
  destruct (slice path lt (zlen path)) as [rel|]; [|done]. cbn [or_panic]. destruct isDir.
  - destruct (bytes_eqb rel []); [by intros [= <-]|]. unfold mbind, M_bind. pose proof (MkdirAll_links rel st) as (H1 & H2 & H3).
    destruct (MkdirAll fault rel st) as [s [e| |]]; [|done|done]. cbn in *. intros [= <-]. rewrite H1, H2. done.
  - destruct (links st !! rel) as [t|] eqn:El.
    + destruct (bytes_eqb t path) eqn:Et; [|done]. apply bytes_eqb_eq in Et as ->. intros [= <-]. split_and!; [done|done|done|eauto].
    + unfold mbind, M_bind, Symlink. destruct (fault OpSymlink rel); [done|]. destruct (present st rel); [done|].
      cbn. intros [= <-]. cbn. split_and!; [by apply insert_subseteq|done|done|]. intros _. exists rel. by rewrite lookup_insert_eq.
Qed.

(** After [clonetree] every file of the package is linked from its place in the root, and no link
    that was there has changed. *)
Lemma clonetree_Ret tree st st' :
  clonetree fault walk tree st = (st', Ret tt) ->
  links st ⊆ links st' /\ mounts st' = mounts st /\ dirs st ⊆ dirs st' /\
  forall path, (path, Some false) ∈ walk tree ->
    exists rel, slice path (zlen tree) (zlen path) = Some rel /\ links st' !! rel = Some path.
Proof.
  unfold clonetree. generalize (walk tree) as es. intros es. revert st.
  induction es as [|[path fi] es IH]; intros st H; cbn [clone_entries] in H.
  - unfold mret, M_ret in H. simplify_eq. split_and!; [done|done|done|by intros p ?%not_elem_of_nil].
  - M_inv H. destruct a. apply clone_entry_Ret in Hm as (H1 & H2 & H3 & H4). apply IH in H as (K1 & K2 & K3 & K4).
    split_and!; [by etrans|by rewrite K2|set_solver|]. intros p [Hp|Hp]%elem_of_cons; [|by apply K4]. simplify_eq.
    destruct (H4 eq_refl) as (rel & Hr & Hl). exists rel. split; [done|]. by eapply lookup_weaken.
Qed.

(** Mount points are directories that were made for them, each used once. *)
Definition mounts_ok (st : tst) : Prop :=
  NoDup (snd <$> mounts st) /\ forall m, m ∈ mounts st -> m.2 ∈ dirs st.

Lemma setup_one_mounts v st st' :
  (forall p, fault OpStat p = None) -> mounts_ok st ->
  setup_one tczLocalPackageDir fault free_loop walk v st = (st', Ret tt) -> mounts_ok st'.
Proof.
  intros Hf Hok H. unfold setup_one in H. M_inv H. destruct (cmdName v); unfold lift in Hm; simplify_eq. cbv beta zeta in H.
  rewrite (bool_decide_eq_true_2 _ (Hf _)), andb_true_r in H. set (pp := packagePath _) in *. clearbody pp.
  destruct (present s pp) eqn:Ep; [by simplify_eq|].
  M_inv H. unfold MkdirAll in Hm. destruct (fault OpMkdirAll pp); [simplify_eq; by M_inv H|].
  injection Hm as <- <-.
  M_inv H. unfold mret, M_ret in Hm. simplify_eq. M_inv H. unfold findloop in Hm. destruct (fault OpLoopCtl _); simplify_eq.
  do 5 (M_inv H). unfold must, modify in *. simplify_eq.
  apply clonetree_Ret in H as (_ & Hm' & Hd' & _). cbn in Hm', Hd'. destruct Hok as [Hn Hd].
  assert (pp ∉ dirs s) as Hpp.
  { unfold present in Ep. apply orb_false_elim in Ep as [Ep _]. apply orb_false_elim in Ep as [_ Ep]. by apply bool_decide_eq_false in Ep. }
  assert (pp ∈ (list_to_set (ancestors (length pp) pp) : name_set)) as Hin.
  { apply elem_of_list_to_set. destruct (length pp); cbn; left. }
  split.
  - rewrite Hm', fmap_app. apply NoDup_app. split_and!; [done| |apply NoDup_singleton].
    intros x Hx Hx2. apply list_elem_of_singleton in Hx2. cbn in Hx2. subst x. apply list_elem_of_fmap in Hx as (m & -> & Hx). by apply Hpp, Hd.
  - intros m. rewrite Hm'. intros [Hx|Hx]%elem_of_app; [apply Hd'; set_solver|].
    apply list_elem_of_singleton in Hx as ->. cbn. set_solver.
Qed.

(** [setupPackages] never mounts two packages on one directory. *)
Lemma setupPackages_mounts deps st st' :
  (forall p, fault OpStat p = None) -> mounts_ok st ->
  setupPackages tczLocalPackageDir fault free_loop walk deps st = (st', Ret tt) -> mounts_ok st'.
Proof.
  intros Hf. revert st. induction deps as [|v deps IH]; intros st Hok H; cbn [setupPackages] in H.
  - unfold mret, M_ret in H. by simplify_eq.
  - M_inv H. destruct a. eapply IH; [|done]. by eapply setup_one_mounts.
Qed.
End Setup.

(** A package name without extension is cut to its first character, so the second of two such
    packages is taken for mounted. *)
Example cmdName_no_ext : cmdName (str "bash") = Ret (str "b") /\ cmdName (str "busybox") = Ret (str "b").
Proof. done. Qed.

Example setupPackages_collision :
  match setupPackages (str "/tcz") no_faults (fun _ => 0) (fun _ => []) [str "bash"; str "busybox"] empty_tst with
  | (st, Ret tt) => bool_decide (mounts st = [(str "/dev/loop0", str "/tcz/bash", str "/tmp/tcloop/b")])
  | _ => false
  end = true.
Proof. vm_compute. reflexivity. Qed.

(** Everything after an empty line of a dependency list is dropped. *)
Example needs_stops_at_empty_line : needs ∅ (unlines [str "a.tcz"; []; str "b.tcz"]) = [str "a.tcz"].
Proof. reflexivity. Qed.
