(* ===== verification/Fs.v ===== *)
(** * The file system as the file commands see it

    The calls of the [os] package that [ln], [mv], [rm], [readlink], [mkdir], [chmod] and [which]
    make, as a class of operations over a kernel state; a file system in memory that implements
    them; [filepath.Rel] with the law it is documented to have. *)

From Stdlib Require Import Strings.String.
From stdpp Require Import gmap.
From S2P Require Export GoPath GoText.

(** What [Stat] and [Lstat] tell: the mode with its type bits. *)
Record FileInfo := MkFI { fi_Mode : Z; fi_IsDir : bool; fi_IsLink : bool }.

Class FS (W : Type) := {
  os_Stat : bytes -> W -> FileInfo + error;
  os_Lstat : bytes -> W -> FileInfo + error;
  os_Getwd : W -> bytes + error;
  os_Chdir : bytes -> W -> W * option error;
  os_Link : bytes -> bytes -> W -> W * option error;
  os_Symlink : bytes -> bytes -> W -> W * option error;
  os_Remove : bytes -> W -> W * option error;
  os_RemoveAll : bytes -> W -> W * option error;
  os_Rename : bytes -> bytes -> W -> W * option error;
  os_Mkdir : bytes -> Z -> W -> W * option error;
  os_MkdirAll : bytes -> Z -> W -> W * option error;
  os_Chmod : bytes -> Z -> W -> W * option error;
  os_Readlink : bytes -> W -> bytes + error;
  os_EvalSymlinks : bytes -> W -> bytes + error
}.

(** [os.IsNotExist]: ENOENT. *)
Definition IsNotExist (e : error) : bool := bool_decide (e = Errno 2).

(** ** A file system in memory

    Absolute clean names and what they name; symbolic links are followed at the end of a name. *)

Inductive node := NDir (mode : Z) | NFile (ino mode : Z) | NLink (target : bytes).

#[export] Instance node_eq_dec : EqDecision node.
Proof. solve_decision. Defined.

Record mem := MkMem { nodes : gmap bytes node; cwd : bytes }.

Definition abs (m : mem) (p : bytes) : bytes := if IsAbs p then Clean p else PathJoin [cwd m; p].

Fixpoint follow_links (fuel : nat) (m : mem) (p : bytes) : bytes + error :=
  match nodes m !! p with
  | None => inr (Errno 2)
  | Some (NLink t) =>
      match fuel with
      | O => inr (Errno 40)
      | S fuel => follow_links fuel m (if IsAbs t then Clean t else PathJoin [Dir p; t])
      end
  | Some _ => inl p
  end.

Definition node_info (n : node) : FileInfo :=
  match n with
  | NDir m => MkFI (Z.lor (2 ^ 31) m) true false
  | NFile _ m => MkFI m false false
  | NLink _ => MkFI (Z.lor (2 ^ 27) 0x1ff) false true
  end.

Definition mem_Lstat (p : bytes) (m : mem) : FileInfo + error :=
  match nodes m !! abs m p with Some n => inl (node_info n) | None => inr (Errno 2) end.

Definition mem_Stat (p : bytes) (m : mem) : FileInfo + error :=
  match follow_links 40 m (abs m p) with
  | inl q => match nodes m !! q with Some n => inl (node_info n) | None => inr (Errno 2) end
  | inr e => inr e
  end.

(** A new name in a directory that is there. *)
Definition mem_add (p : bytes) (n : node) (m : mem) : mem * option error :=
  let p := abs m p in
  match nodes m !! p, nodes m !! Dir p with
  | Some _, _ => (m, Some (Errno 17))
  | None, Some (NDir _) => (MkMem (<[p := n]> (nodes m)) (cwd m), None)
  | None, _ => (m, Some (Errno 2))
  end.

(** The names below a directory. *)
Definition below (p q : bytes) : bool := HasPrefix q (p ++ sep).

Definition mem_Remove (p : bytes) (m : mem) : mem * option error :=
  let p := abs m p in
  match nodes m !! p with
  | None => (m, Some (Errno 2))
  | Some (NDir _) =>
      if existsb (fun kv => below p (fst kv)) (map_to_list (nodes m)) then (m, Some (Errno 39))
      else (MkMem (delete p (nodes m)) (cwd m), None)
  | Some _ => (MkMem (delete p (nodes m)) (cwd m), None)
  end.

Definition mem_RemoveAll (p : bytes) (m : mem) : mem * option error :=
  let p := abs m p in
  (MkMem (list_to_map (List.filter (fun kv => negb (bytes_eqb (fst kv) p || below p (fst kv))) (map_to_list (nodes m)))) (cwd m), None).

(** Renaming a file or a link; a directory is moved with what is below it. *)
Definition mem_Rename (old new : bytes) (m : mem) : mem * option error :=
  let o := abs m old in let n := abs m new in
  match nodes m !! o, nodes m !! n with
  | None, _ => (m, Some (Errno 2))
  | Some _, Some (NDir _) => (m, Some (Errno 17))
  | Some nd, _ =>
      if bytes_eqb o n then (m, None)
      else
        let moved := (fun kv : bytes * node => if below o (fst kv) then (n ++ drop (length o) (fst kv), snd kv) else kv)
                       <$> map_to_list (delete o (nodes m)) in
        (MkMem (<[n := nd]> (list_to_map moved)) (cwd m), None)
  end.

Definition mem_Link (old new : bytes) (m : mem) : mem * option error :=
  match nodes m !! abs m old with
  | Some (NDir _) => (m, Some (Errno 1))
  | Some n => mem_add new n m
  | None => (m, Some (Errno 2))
  end.

Fixpoint mem_MkdirAll (fuel : nat) (p : bytes) (mode : Z) (m : mem) : mem * option error :=
  match nodes m !! p with
  | Some (NDir _) => (m, None)
  | Some _ => (m, Some (Errno 20))
  | None =>
      match fuel with
      | O => (m, Some (Errno 2))
      | S fuel =>
          match mem_MkdirAll fuel (Dir p) mode m with
          | (m, None) => mem_add p (NDir mode) m
          | r => r
          end
      end
  end.

#[export] Instance mem_FS : FS mem := {|
  os_Stat := mem_Stat;
  os_Lstat := mem_Lstat;
  os_Getwd m := inl (cwd m);
  os_Chdir p m := match mem_Stat p m with
                  | inl i => if fi_IsDir i then (MkMem (nodes m) (abs m p), None) else (m, Some (Errno 20))
                  | inr e => (m, Some e)
                  end;
  os_Link := mem_Link;
  os_Symlink t p := mem_add p (NLink t);
  os_Remove := mem_Remove;
  os_RemoveAll := mem_RemoveAll;
  os_Rename := mem_Rename;
  os_Mkdir p mode := mem_add p (NDir mode);
  os_MkdirAll p mode m := mem_MkdirAll (length (abs m p)) (abs m p) mode m;
  os_Chmod p mode m := match follow_links 40 m (abs m p) with
                       | inr e => (m, Some e)
                       | inl q => (MkMem (alter (fun n => match n with NDir _ => NDir mode | NFile i _ => NFile i mode | n => n end) q (nodes m)) (cwd m), None)
                       end;
  os_Readlink p m := match nodes m !! abs m p with Some (NLink t) => inl t | Some _ => inr (Errno 22) | None => inr (Errno 2) end;
  os_EvalSymlinks p m := follow_links 40 m (abs m p)
|}.

(** ** [filepath.Rel] *)

(** The elements of a clean path; the root has the empty one. *)
Definition elems (p : bytes) : list bytes :=
  if bytes_eqb p dot then [] else if bytes_eqb p sep then [[]] else GoStrings.Split Separator p.

Fixpoint drop_common (bs ts : list bytes) : list bytes * list bytes :=
  match bs, ts with
  | b :: bs', t :: ts' => if bytes_eqb b t then drop_common bs' ts' else (bs, ts)
  | _, _ => (bs, ts)
  end.

(** [filepath.Rel(basepath, targpath)]; [None] is its error. *)
Definition Rel (basepath targpath : bytes) : option bytes :=
  let base := Clean basepath in
  let targ := Clean targpath in
  if bytes_eqb targ base then Some dot
  else if negb (Bool.eqb (IsAbs base) (IsAbs targ)) then None
  else
    let '(bs, ts) := drop_common (elems base) (if bytes_eqb targ dot then [dot] else elems targ) in
    match bs with
    | b :: _ => if bytes_eqb b dotdot then None else Some (Join sep (replicate (length bs) dotdot ++ ts))
    | [] => Some (Join sep ts)
    end.

Example Rel_ex1 : Rel (str "/a") (str "/a/b/c") = Some (str "b/c"). Proof. reflexivity. Qed.
Example Rel_ex2 : Rel (str "/a") (str "/b/c") = Some (str "../b/c"). Proof. reflexivity. Qed.
Example Rel_ex3 : Rel (str "/") (str "/b/c") = Some (str "b/c"). Proof. reflexivity. Qed.
Example Rel_ex4 : Rel (str "/b/c") (str "/") = Some (str "../.."). Proof. reflexivity. Qed.
Example Rel_ex5 : Rel (str "a/b") (str "a/c") = Some (str "../c"). Proof. reflexivity. Qed.
Example Rel_ex6 : Rel (str "..") (str "a") = None. Proof. reflexivity. Qed.
Example Rel_ex7 : Rel (str ".") (str "/a") = None. Proof. reflexivity. Qed.
Example Rel_ex8 : Rel (str "a/b") (str ".") = Some (str "../../."). Proof. reflexivity. Qed.

Lemma drop_common_spec bs ts b' t' :
  drop_common bs ts = (b', t') -> exists p, bs = p ++ b' /\ ts = p ++ t'.
Proof.
  revert ts. induction bs as [|b bs IH]; intros ts; cbn [drop_common].
  - intros [= <- <-]. by exists [].
  - destruct ts as [|t ts]; [intros [= <- <-]; by exists []|]. destruct (bytes_eqb b t) eqn:E.
    + apply bytes_eqb_eq in E as ->. intros (p & -> & ->)%IH. by exists (t :: p).
    + intros [= <- <-]. by exists [].
Qed.

Lemma elems_abs p : IsAbs p = true -> elems (Clean p) = [] :: reverse (stack p).
Proof.
  intros Ha. rewrite Clean_abs by done. unfold elems.
  rewrite (bytes_eqb_neq _ dot) by done. pose proof (stack_plain p) as Hp. apply Forall_reverse in Hp.
  destruct (reverse (stack p)) as [|c st] eqn:E; [done|].
  rewrite bytes_eqb_neq.
  - rewrite Split_abs, Split_Join; [done|done|]. eapply Forall_impl; [exact Hp|]. by intros x [(_ & _ & ?) _].
  - intros H. assert (Join sep (c :: st) = []) as Hj by exact (f_equal (@tl byte) H). by apply Join_nil_inv in Hj.
Qed.

(** [n] times dot-dot removes [n] elements. *)
Lemma push_dotdots rooted rb acc :
  Forall plain_elem rb -> foldl (clean_push rooted) (rb ++ acc) (replicate (length rb) dotdot) = acc.
Proof.
  induction 1 as [|c rb [_ Hc] Hrb IH]; [done|]. cbn [length replicate foldl app].
  unfold clean_push at 2. rewrite !(bytes_eqb_neq dotdot) by done. rewrite bytes_eqb_refl, (bytes_eqb_neq c) by done. exact IH.
Qed.

Lemma Split_app_sep q s :
  GoStrings.Split Separator (q ++ Separator :: s) = GoStrings.Split Separator q ++ GoStrings.Split Separator s.
Proof.
  induction q as [|a q IH]; [apply Split_abs|]. cbn [app GoStrings.Split]. rewrite IH.
  destruct (byte_eqb a Separator); [done|]. pose proof (Split_nonempty Separator q). by destruct (GoStrings.Split Separator q).
Qed.

(** A relative path appended to a directory. *)
Lemma stack_app base r : stack (base ++ Separator :: r) = foldl (clean_push true) (stack base) (GoStrings.Split Separator r).
Proof. unfold stack, clean_stack. by rewrite Split_app_sep, foldl_app. Qed.

(** [Rel] of absolute paths succeeds, and leads from the base to the target. *)
Lemma Rel_abs base targ :
  IsAbs base = true -> IsAbs targ = true ->
  exists r, Rel base targ = Some r /\ stack (base ++ Separator :: r) = stack targ.
Proof.
  intros Hb Ht. unfold Rel. destruct (bytes_eqb (Clean targ) (Clean base)) eqn:E.
  - exists dot. split; [done|]. rewrite stack_app. cbn. apply bytes_eqb_eq in E.
    by rewrite <- (stack_Clean targ), E, stack_Clean.
  - assert (IsAbs (Clean base) = true /\ IsAbs (Clean targ) = true) as [-> ->] by (by rewrite !Clean_abs).
    cbn [Bool.eqb negb]. rewrite (bytes_eqb_neq (Clean targ) dot) by (by rewrite Clean_abs). rewrite !elems_abs by done.
    cbn [drop_common]. change (bytes_eqb [] []) with true. cbv iota.
    destruct (drop_common _ _) as [b' t'] eqn:Ed. apply drop_common_spec in Ed as (p & Eb & Et).
    pose proof (stack_plain base) as Pb. pose proof (stack_plain targ) as Pt. apply Forall_reverse in Pb, Pt.
    rewrite Eb in Pb. rewrite Et in Pt. apply Forall_app in Pb as [Pp Pb]. apply Forall_app in Pt as [_ Pt].
    assert (Sb : stack base = reverse b' ++ reverse p) by (by rewrite <- reverse_app, <- Eb, reverse_involutive).
    assert (St : stack targ = reverse t' ++ reverse p) by (by rewrite <- reverse_app, <- Et, reverse_involutive).
    exists (Join sep (replicate (length b') dotdot ++ t')). split.
    { destruct b' as [|b b']; [done|]. apply Forall_cons in Pb as [[_ Hd] _]. by rewrite bytes_eqb_neq. }
    rewrite stack_app. change sep with [Separator]. rewrite Split_Join.
    + rewrite foldl_app, Sb, St. rewrite <- (length_reverse b'), push_dotdots by (by apply Forall_reverse).
      by rewrite clean_fold_plain.
    + destruct b'; [|done]. destruct t'; [|done]. cbn in Sb, St. exfalso.
      rewrite !Clean_abs, Sb, St, bytes_eqb_refl in E by done. done.
    + apply Forall_app. split; [|eapply Forall_impl; [exact Pt|]; by intros x [(_ & _ & ?) _]].
      apply Forall_replicate. vm_compute. intros H. by repeat (apply elem_of_cons in H as [H|H]; [discriminate|]); apply not_elem_of_nil in H.
Qed.
