(* ===== verification/FileCmds.v ===== *)
(** * File commands ([cmds/ln], [mv], [rm], [readlink], [mkdir], [chmod], [which])

    Each command over the class [FS]; the standard input is the list of what successive reads
    return, the standard output the bytes written to it.  The messages of [-v] with quoted names
    and the errors that are only printed are left out. *)

From Stdlib Require Import Strings.String.
From S2P Require Export GoIO Fs.

(** The kernel, the reads from the standard input that are to come, and the output. *)
Record cst (W : Type) := MkC { fs : W; stdin : list bytes; stdout : bytes }.
Arguments MkC {W}. Arguments fs {W}. Arguments stdin {W}. Arguments stdout {W}.

Section Commands.
Context {W : Type} `{!FS W}.
(** The [Error] method. *)
Context (err_v : error -> bytes).

Definition sys (f : W -> W * option error) : M (cst W) unit := fun s =>
  let '(w, e) := f (fs s) in
  (MkC w (stdin s) (stdout s), match e with None => Ret tt | Some e => Fail e end).

Definition ask {A} (f : W -> A) : M (cst W) A := fun s => (s, Ret (f (fs s))).

Definition Printf (b : bytes) : M (cst W) unit := modify (fun s => MkC (fs s) (stdin s) (stdout s ++ b)).

Definition ToLower1 (c : byte) : byte := if (65 <=? b2z c) && (b2z c <=? 90) then z2b (b2z c + 32) else c.

(** [ReadString] of a buffered reader that holds [buf]: the line, what stays in the buffer and
    what is still to be read; without a line feed before the end of the input there is no line. *)
Fixpoint read_line (buf : bytes) (reads : list bytes) : option bytes * bytes * list bytes :=
  match ReadBytes x0a buf with
  | (l, None, rest) => (Some l, rest, reads)
  | _ =>
      match reads with
      | [] => (None, [], [])
      | r :: reads => read_line (buf ++ r) reads
      end
  end.

(** [err == nil && strings.ToLower(answer)[0] == 'y']. *)
Definition is_yes (answer : option bytes) : outcome error bool :=
  match answer with
  | None => Ret false
  | Some [] => Panic
  | Some (c :: _) => Ret (byte_eqb (ToLower1 c) x79)
  end.

(** ** ln *)

Record config := MkConfig {
  symlink : bool; force : bool; nondir : bool; prompt : bool; logical : bool; physical : bool;
  relative : bool; dirtgt : bytes
}.

(** The reader is made for this one answer: what it has read beyond the line is lost. *)
Definition promptOverwrite (fname : bytes) : M (cst W) bool :=
  _ ← Printf (str "ln: overwrite '" ++ fname ++ str "'? ");
  (fun s : cst W => let '(answer, _, reads) := read_line [] (stdin s) in
    (MkC (fs s) reads (stdout s), is_yes answer)) : M (cst W) bool.

Definition exists_ (fname : bytes) (w : W) : bool :=
  match os_Lstat fname w with inl _ => true | inr e => negb (IsNotExist e) end.

Definition evalArgs (conf : config) (args : list bytes) (w : W) : config * list bytes * bytes :=
  if negb (bytes_eqb (dirtgt conf) []) || (length args <=? 1)%nat then (conf, args, []) else
  let targets := take (length args - 1) args in
  let lastArg := default [] (last args) in
  match os_Stat lastArg w with
  | inl lf =>
      if negb (nondir conf) && fi_IsDir lf then
        (MkConfig (symlink conf) (force conf) (nondir conf) (prompt conf) (logical conf) (physical conf) (relative conf) lastArg,
         targets, [])
      else (conf, targets, lastArg)
  | inr _ => (conf, targets, lastArg)
  end.

(** [filepath.Abs]. *)
Definition Abs (p : bytes) (w : W) : option bytes :=
  if IsAbs p then Some (Clean p)
  else match os_Getwd w with inl d => Some (PathJoin [d; p]) | inr _ => None end.

Definition relLink (target linkName : bytes) (w : W) : outcome error bytes :=
  match Rel (Dir linkName) target with
  | Some newTarget => Ret newTarget
  | None =>
      match Abs linkName w with
      | Some absLink =>
          match Rel absLink target with
          | Some t => Ret t
          | None => Fail (Errorf "Rel: can't make %s relative to %s")
          end
      | None => Ret []
      end
  end.

Definition inferLinkName (target linkName : bytes) : bytes :=
  if bytes_eqb linkName [] then Base target else linkName.

(** Which of [os.Link] and [os.Symlink] the loop calls. *)
Inductive linkFn := FLink | FSymlink.

Definition do_link (f : linkFn) (target linkName : bytes) : M (cst W) unit :=
  match f with FLink => sys (os_Link target linkName) | FSymlink => sys (os_Symlink target linkName) end.

Definition dereferTarget (conf : config) (target : bytes) (linkFunc : linkFn) : M (cst W) (bytes * linkFn) :=
  if logical conf || physical conf then
    r ← ask (os_EvalSymlinks target);
    match r with
    | inr e => raise e
    | inl newTarget =>
        if negb (bytes_eqb newTarget target)
        then mret (newTarget, if physical conf then FSymlink else linkFunc)
        else mret (target, linkFunc)
    end
  else mret (target, linkFunc).

(** The link whose name is taken: [None] to go on with the next target, else the flag [remove]. *)
Definition ln_existing (conf : config) (linkName : bytes) (remove : bool) : M (cst W) (option bool) :=
  e ← ask (exists_ linkName);
  if negb (e : bool) then mret (Some remove) else
  r ← (if prompt conf && negb (force conf) then
         a ← promptOverwrite linkName; mret (if (a : bool) then Some true else None)
       else mret (Some remove));
  match r with
  | None => mret None
  | Some remove =>
      _ ← (if force conf || remove then sys (os_Remove linkName) else mret tt);
      mret (Some remove)
  end.

(** One turn of the loop; the result is the flag [remove] for the next one. *)
Definition ln_one (conf : config) (originalPath : bytes) (linkName0 target0 : bytes) (remove : bool) : M (cst W) bool :=
  '(target, linkFunc) ← dereferTarget conf target0 (if symlink conf then FSymlink else FLink);
  let linkName := inferLinkName target linkName0 in
  let linkName := if negb (bytes_eqb (dirtgt conf) []) then PathJoin [dirtgt conf; linkName] else linkName in
  r ← ln_existing conf linkName remove;
  match r with
  | None => mret false
  | Some remove =>
      if relative conf && negb (symlink conf) then raise (Errorf "cannot do -r without -s")
      else if relative conf then
        o ← ask (relLink target linkName);
        relTarget ← lift o;
        let dir := Dir linkName in
        let base := if negb (bytes_eqb dir []) then Base linkName else linkName in
        _ ← (if negb (bytes_eqb dir []) then sys (os_Chdir dir) else mret tt);
        _ ← do_link linkFunc relTarget base;
        _ ← sys (os_Chdir originalPath);
        mret remove
      else _ ← do_link linkFunc target linkName; mret remove
  end.

Fixpoint ln_loop (conf : config) (originalPath linkName : bytes) (targets : list bytes) (remove : bool) : M (cst W) unit :=
  match targets with
  | [] => mret tt
  | t :: targets => remove ← ln_one conf originalPath linkName t remove; ln_loop conf originalPath linkName targets remove
  end.

Definition ln (conf : config) (args : list bytes) : M (cst W) unit :=
  d ← ask os_Getwd;
  match d with
  | inr e => raise e
  | inl originalPath =>
      '(conf, targets, linkName) ← ask (evalArgs conf args);
      ln_loop conf originalPath linkName targets false
  end.

(** ** mv *)

Fixpoint mv_into (lf : bytes) (files : list bytes) : M (cst W) unit :=
  match files with
  | [] => mret tt
  | f :: files => _ ← sys (os_Rename f (PathJoin [lf; Base f])); mv_into lf files
  end.

(** [files[len(files)-1]] of an empty list is a crash. *)
Definition mv (files : list bytes) (todir : bool) : M (cst W) unit :=
  match files, todir with
  | [a; b], false => sys (os_Rename a b)
  | _, _ =>
      lf ← lift (or_panic (last files));
      mv_into lf (take (length files - 1) files)
  end.

Definition mv_main (files : list bytes) : M (cst W) unit :=
  if (length files <? 2)%nat then raise (Errorf "usage: %s source target") else
  let lf := default [] (last files) in
  i ← ask (os_Lstat lf);
  let todir := match i with inl i => fi_IsDir i | inr _ => false end in
  if (2 <? length files)%nat && negb todir then raise (Errorf "not a directory: %s")
  else mv files todir.

(** ** rm *)

Record rmflags := MkRm { rm_r : bool; rm_v : bool; rm_i : bool }.

(** The question for one file; the result is the answer and what the reader holds afterwards. *)
Definition rm_ask (flags : rmflags) (file buf : bytes) : M (cst W) (bool * bytes) :=
  if rm_i flags then
    _ ← Printf (str "rm: remove '" ++ file ++ str "'? ");
    (fun s : cst W => let '(answer, buf, reads) := read_line buf (stdin s) in
       (MkC (fs s) reads (stdout s), yes ← is_yes answer; mret (yes : bool, buf))) : M (cst W) (bool * bytes)
  else mret (true, buf).

(** One reader serves all the questions; [buf] is what it holds. *)
Fixpoint rm_loop (flags : rmflags) (workingPath : bytes) (files : list bytes) (buf : bytes) : M (cst W) unit :=
  match files with
  | [] => mret tt
  | file :: files =>
      '(go, buf) ← rm_ask flags file buf;
      if negb go then rm_loop flags workingPath files buf else
      _ ← sys (if rm_r flags then os_RemoveAll file else os_Remove file);
      _ ← (if rm_v flags then
             let toRemove := if negb (IsAbs file) then PathJoin [workingPath; file] else file in
             Printf (str "removed '" ++ toRemove ++ str "'" ++ [x0a])
           else mret tt);
      rm_loop flags workingPath files buf
  end.

Definition rm (flags : rmflags) (files : list bytes) : M (cst W) unit :=
  d ← ask os_Getwd;
  match d with
  | inr e => raise e
  | inl workingPath => rm_loop flags workingPath files []
  end.

(** ** readlink *)

(** The error is returned after the printing; the result says whether there was one. *)
Definition readLink (follow : bool) (file : bytes) : M (cst W) bool :=
  r ← ask (os_Readlink file);
  match r with
  | inr _ => mret false
  | inl path =>
      r ← (if follow then ask (os_EvalSymlinks file) else mret (inl path));
      match r with
      | inl path => _ ← Printf (path ++ [x0a]); mret true
      | inr _ => _ ← Printf [x0a]; mret false
      end
  end.

(** The exit status of [main]. *)
Fixpoint readlink_main (follow : bool) (files : list bytes) (exitStatus : Z) : M (cst W) Z :=
  match files with
  | [] => mret exitStatus
  | f :: files => ok ← readLink follow f; readlink_main follow files (if (ok : bool) then exitStatus else 1)
  end.

(** ** mkdir *)

Fixpoint mkdir_loop (mkall verbose : bool) (mode : Z) (names : list bytes) : M (cst W) unit :=
  match names with
  | [] => mret tt
  | name :: names =>
      (fun s => match sys ((if mkall then os_MkdirAll else os_Mkdir) name (u32 mode)) s with
                | (s, Ret _) => (if verbose then Printf (name ++ [x0a]) else mret tt) s
                | (s, Fail e) => Printf (name ++ str ": " ++ err_v e ++ [x0a]) s
                | (s, Panic) => (s, Panic)
                end) ≫= fun _ => mkdir_loop mkall verbose mode names
  end.

Definition mkdir_main (mkall verbose : bool) (mode : Z) (names : list bytes) : M (cst W) unit :=
  if (length names <? 1)%nat then raise (Errorf "Usage: mkdir [-m mode] [-v] [-p] <directory> [more directories]")
  else mkdir_loop mkall verbose mode names.

(** ** chmod *)

Fixpoint chmod_loop (octval : Z) (names : list bytes) (exitError : bool) : M (cst W) bool :=
  match names with
  | [] => mret exitError
  | name :: names =>
      (fun s => match sys (os_Chmod name octval) s with
                | (s, Ret _) => chmod_loop octval names exitError s
                | (s, _) => chmod_loop octval names true s
                end)
  end.

(** [main]: the exit status, or the message it ends with. *)
Definition chmod_main (args : list bytes) : M (cst W) Z :=
  match args with
  | mode :: names =>
      if (length names <? 1)%nat then raise (Errorf "usage: chmod mode filepath") else
      match ParseUint mode 8 32 with
      | (_, Some _) => raise (Errorf "Unable to decode mode %q. Please use an octal value: %v")
      | (octval, None) =>
          if 0x1ff <? octval then raise (Errorf "Invalid octal value %0o. Value should be less than or equal to 0777.")
          else bad ← chmod_loop octval names false; mret (if (bad : bool) then 1 else 0)
      end
  | [] => raise (Errorf "usage: chmod mode filepath")
  end.

(** ** which *)

(** [m&0111 != 0 && !(m&os.ModeType == os.ModeSymlink)]; [ModeType] has the bits of directories,
    links, pipes, sockets and devices. *)
Definition ModeType : Z := 0x8f000000.
Definition ModeSymlink : Z := 0x8000000.

Definition which_ok (f : bytes) (w : W) : bool :=
  match os_Stat f w with
  | inl info =>
      let m := fi_Mode info in
      negb (Z.land m 0x49 =? 0) && negb (Z.land m ModeType =? ModeSymlink)
  | inr _ => false
  end.

(** The inner loop, over the directories. *)
Fixpoint which_name (allPaths : bool) (w : W) (name : bytes) (pathArray : list bytes) (exitValue : Z) (out : bytes) : Z * bytes :=
  match pathArray with
  | [] => (exitValue, out)
  | d :: ds =>
      let f := PathJoin [d; name] in
      if which_ok f w then
        let out := out ++ f ++ [x0a] in
        if negb allPaths then (0, out) else which_name allPaths w name ds 0 out
      else which_name allPaths w name ds exitValue out
  end.

Fixpoint which_loop (allPaths : bool) (w : W) (pathArray cmds : list bytes) (exitValue : Z) (out : bytes) : Z * bytes :=
  match cmds with
  | [] => (exitValue, out)
  | name :: cmds => let '(e, out) := which_name allPaths w name pathArray exitValue out in which_loop allPaths w pathArray cmds e out
  end.

(** [which]: the exit status and the output. *)
Definition which (allPaths : bool) (w : W) (p : bytes) (cmds : list bytes) : Z * bytes :=
  which_loop allPaths w (GoStrings.Split x3a p) cmds 1 [].

Definition which_main (allPaths : bool) (w : W) (path : bytes) (cmds : list bytes) : Z * bytes :=
  which allPaths w (if (length path =? 0)%nat then str "/ubin" else path) cmds.
End Commands.

(** ** [which] against its definition *)

Section Which.
Context {W : Type} `{!FS W}.

(** The executables of a name along the path, in order. *)
Definition found (w : W) (p name : bytes) : list bytes :=
  List.filter (fun f => which_ok f w) ((fun d => PathJoin [d; name]) <$> GoStrings.Split x3a p).

(** What is reported of one name. *)
Definition reported (allPaths : bool) (w : W) (p name : bytes) : list bytes :=
  if allPaths then found w p name else take 1 (found w p name).

Lemma which_name_spec allPaths w name ds e out :
  let fs := List.filter (fun f => which_ok f w) ((fun d => PathJoin [d; name]) <$> ds) in
  which_name allPaths w name ds e out =
    (match fs with [] => e | _ => 0 end, out ++ unlines (if allPaths then fs else take 1 fs)).
Proof.
  cbv zeta. revert e out. induction ds as [|d ds IH]; intros e out; cbn [which_name fmap list_fmap List.filter].
  - destruct allPaths; cbn; by rewrite app_nil_r.
  - destruct (which_ok _ w) eqn:E; [|apply IH]. destruct allPaths; cbn [negb take].
    + rewrite IH, unlines_cons, <- !app_assoc. f_equal. by destruct (List.filter _ _).
    + rewrite take_0, unlines_cons. done.
Qed.

Lemma which_loop_spec allPaths w p cmds e out :
  which_loop allPaths w (GoStrings.Split x3a p) cmds e out =
    (if forallb (fun n => match found w p n with [] => true | _ => false end) cmds then e else 0,
     out ++ unlines (concat (reported allPaths w p <$> cmds))).
Proof.
  revert e out. induction cmds as [|n cmds IH]; intros e out; cbn [which_loop].
  - cbn. by rewrite app_nil_r.
  - rewrite which_name_spec. fold (found w p n). rewrite IH, fmap_cons. cbn [concat forallb].
    rewrite unlines_app, app_assoc. unfold reported at 2. destruct (found w p n); cbn; [done|]. by destruct (forallb _ cmds).
Qed.
End Which.

(** [which] writes for each command, in the order of the arguments, the names of executables
    with that name in the directories of the path: all of them with [-a], else the first; it exits
    with 0 exactly when some command was found. *)
Theorem which_spec {W : Type} `{!FS W} (allPaths : bool) (w : W) (p : bytes) (cmds : list bytes) :
  which allPaths w p cmds =
    (if bool_decide (Exists (fun n => found w p n <> []) cmds) then 0 else 1,
     unlines (concat (reported allPaths w p <$> cmds))).
Proof.
  unfold which. rewrite which_loop_spec. f_equal. destruct (forallb _ cmds) eqn:E.
  - rewrite bool_decide_eq_false_2; [done|]. intros (n & Hn & Hf)%Exists_exists. rewrite forallb_forall in E.
    specialize (E n (proj1 (list_elem_of_In _ _) Hn)). by destruct (found w p n).
  - rewrite bool_decide_eq_true_2; [done|]. apply not_true_iff_false in E.
    destruct (decide (Exists (fun n => found w p n <> []) cmds)) as [H|H]; [done|].
    exfalso. apply E, forallb_forall. intros n Hn. apply list_elem_of_In in Hn.
    destruct (found w p n) eqn:Ef; [done|]. exfalso. apply H, Exists_exists. exists n. by rewrite Ef.
Qed.

(** ** Questions of [rm] *)

Lemma ReadBytes_split delim (s : bytes) :
  match ReadBytes delim s with
  | (l, None, rest) => s = l ++ rest /\ (exists l', l = l' ++ [delim] /\ delim ∉ l')
  | (l, Some _, rest) => l = s /\ rest = [] /\ delim ∉ s
  end.
Proof.
  induction s as [|c s IH]; cbn [ReadBytes]; [split_and!; [done|done|apply not_elem_of_nil]|].
  destruct (byte_eqb c delim) eqn:E.
  - apply byte_eqb_eq in E as ->. split; [done|]. exists []. split; [done|apply not_elem_of_nil].
  - apply byte_eqb_neq in E. destruct (ReadBytes delim s) as [[l [e|]] rest].
    + destruct IH as (-> & -> & Hn). split_and!; [done|done|by apply not_elem_of_cons].
    + destruct IH as (-> & l' & -> & Hn). split; [done|]. exists (c :: l'). split; [done|by apply not_elem_of_cons].
Qed.

(** The answer depends on the text only, not on how it is cut into reads. *)
Lemma read_line_text buf reads :
  match read_line buf reads with
  | (Some l, buf', reads') =>
      ReadBytes x0a (buf ++ concat reads) = (l, None, buf' ++ concat reads') /\ l <> []
  | (None, buf', reads') => (x0a ∉ (buf ++ concat reads)) /\ buf' = [] /\ reads' = []
  end.
Proof.
  revert buf. induction reads as [|r reads IH]; intros buf; cbn [read_line]; pose proof (ReadBytes_split x0a buf) as Hs;
    destruct (ReadBytes x0a buf) as [[l [e|]] rest].
  - destruct Hs as (-> & -> & Hn). cbn [concat]. by rewrite app_nil_r.
  - destruct Hs as (-> & l' & -> & Hn). split; [|by destruct l']. cbn [concat].
    rewrite !app_nil_r, <- app_assoc. by apply ReadBytes_delim.
  - specialize (IH (buf ++ r)). cbn [concat]. by rewrite app_assoc.
  - destruct Hs as (-> & l' & -> & Hn). split; [|by destruct l'].
    rewrite <- !app_assoc. by apply ReadBytes_delim.
Qed.

(** The files of a list that an input answers with yes. *)
Fixpoint selected (files : list bytes) (text : bytes) : list bytes :=
  match files with
  | [] => []
  | f :: files =>
      match ReadBytes x0a text with
      | (c :: _, None, rest) => if byte_eqb (ToLower1 c) x79 then f :: selected files rest else selected files rest
      | _ => []
      end
  end.

Lemma selected_none files text : x0a ∉ text -> selected files text = [].
Proof. destruct files; [done|]. intros H. cbn. rewrite ReadBytes_end by done. by destruct text. Qed.

Section Rm.
Context {W : Type} `{!FS W}.

(** The same kernel and the same result. *)
Definition same_effect {A B} (x : cst W * outcome error A) (y : cst W * outcome error B) : Prop :=
  fs (fst x) = fs (fst y) /\
  match snd x, snd y with Ret _, Ret _ => True | Fail e, Fail e' => e = e' | Panic, Panic => True | _, _ => False end.

(** One question: the effect is that of the files selected so far. *)
Lemma rm_loop_interactive (r v : bool) wd files buf (s t : cst W) :
  fs s = fs t ->
  same_effect (rm_loop (MkRm r v true) wd files buf s)
              (rm_loop (MkRm r false false) wd (selected files (buf ++ concat (stdin s))) [] t).
Proof.
  revert s t buf. induction files as [|f files IH]; intros s t buf Hst; [done|].
  cbn [rm_loop]. unfold rm_ask at 1. cbn [rm_i rm_r rm_v]. unfold mbind at 1, M_bind at 1.
  unfold mbind at 1, M_bind at 1, Printf, modify. cbn [stdin fs stdout]. pose proof (read_line_text buf (stdin s)) as Ht.
  destruct (read_line buf (stdin s)) as [[[l|] buf'] reads'].
  - destruct Ht as [Ht Hl]. destruct l as [|c l]; [done|]. cbn [selected is_yes]. rewrite Ht. cbn [mbind outcome_bind mret outcome_ret].
    destruct (byte_eqb (ToLower1 c) x79); cbn [negb].
    + cbn [rm_loop]. unfold rm_ask. cbn [rm_i rm_r rm_v]. unfold mbind, M_bind, mret, M_ret, sys. cbn [negb fs stdin stdout].
      rewrite Hst. destruct ((if r then _ else _) (fs t)) as [w [e|]]; [done|].
      destruct v; unfold Printf, modify; cbn [fs stdin stdout].
      * by apply (IH (MkC w reads' _)).
      * by apply (IH (MkC w reads' _)).
    + by apply (IH (MkC (fs s) reads' _)).
  - destruct Ht as (Hn & -> & ->). rewrite selected_none by done. cbn [is_yes mbind outcome_bind mret outcome_ret negb].
    pose proof (IH (MkC (fs s) [] (stdout s ++ (str "rm: remove '" ++ f ++ str "'? "))) t [] Hst) as Hx.
    cbn [stdin concat app] in Hx. by rewrite selected_none in Hx by apply not_elem_of_nil.
Qed.
End Rm.

(** C38: [rm -i] is [rm] of the files whose question was answered with a line that starts with y
    or Y: the same files are removed, in the same order, up to the same error.  Without an answer,
    at the end of the input, nothing more is removed. *)
Theorem rm_interactive {W : Type} `{!FS W} (r v : bool) (files : list bytes) (s t : cst W) :
  fs s = fs t ->
  same_effect (rm (MkRm r v true) files s)
              (rm (MkRm r false false) (selected files (concat (stdin s))) t).
Proof.
  intros Hst. unfold rm, mbind, M_bind, ask. rewrite Hst.
  destruct (os_Getwd (fs t)) as [d|e]; [|done]. by apply (rm_loop_interactive r v d files []).
Qed.

(** A directory with three files. *)
Definition toy_mem : mem :=
  MkMem (<[str "/d/a" := NFile 1 0x1a4]> (<[str "/d/b" := NFile 2 0x1a4]> (<[str "/d/c" := NFile 3 0x1ed]>
    (<[str "/d" := NDir 0x1ed]> (<[sep := NDir 0x1ed]> ∅))))) (str "/d").

Definition names_in (m : mem) : list bytes := (map_to_list (nodes m)).*1.

Lemma rm_interactive_witness :
  same_effect (rm (MkRm false true true) [str "a"; str "b"; str "c"] (MkC toy_mem [str "yes
n"; str "o
Y
"] []))
    (rm (MkRm false false false) [str "a"; str "c"] (MkC toy_mem [] [])).
Proof.
  exact (rm_interactive false true [str "a"; str "b"; str "c"]
           (MkC toy_mem [str "yes
n"; str "o
Y
"] []) (MkC toy_mem [] []) eq_refl).
Defined.

Example rm_ex : bool_decide (str "/d/b" ∈ names_in (fs (fst (rm (MkRm false true true) [str "a"; str "b"; str "c"]
    (MkC toy_mem [str "yes
n"; str "o
Y
"] []))))) = true /\
  bool_decide (str "/d/a" ∈ names_in (fs (fst (rm (MkRm false true true) [str "a"; str "b"; str "c"]
    (MkC toy_mem [str "yes
n"; str "o
Y
"] []))))) = false.
Proof. split; reflexivity. Qed.

Example which_ex : which false toy_mem (str "/x:/d:") [str "c"; str "a"] = (0, str "/d/c
").
Proof. reflexivity. Qed.

(** ** Links *)

(** For an absolute target and an absolute link name, [relLink] gives a path that leads from
    the directory of the link to the target. *)
Theorem relLink_leads_to_target {W : Type} `{!FS W} (target linkName : bytes) (w : W) :
  IsAbs target = true -> IsAbs linkName = true ->
  exists r, relLink target linkName w = Ret r /\ Clean (Dir linkName ++ sep ++ r) = Clean target.
Proof.
  intros Ht Hl. destruct (abs_split linkName Hl) as (q & f & Hq & Hd & _).
  destruct (Dir_abs linkName q f Hl Hq Hd) as (Ha & _). destruct (Rel_abs (Dir linkName) target Ha Ht) as (r & Hr & Hs).
  exists r. unfold relLink. rewrite Hr. split; [done|]. change (sep ++ r) with (Separator :: r).
  rewrite !Clean_abs, Hs; [done|done|]. rewrite IsAbs_app; [done|]. by intros E; rewrite E in Ha.
Qed.

Lemma relLink_leads_to_target_witness :
  exists r, relLink (str "/usr/bin/cp") (str "/usr/local/bin/c") toy_mem = Ret r /\
    Clean (Dir (str "/usr/local/bin/c") ++ sep ++ r) = Clean (str "/usr/bin/cp").
Proof. apply (relLink_leads_to_target (str "/usr/bin/cp") (str "/usr/local/bin/c") toy_mem); reflexivity. Defined.

(** A relative link name with an absolute target: the path is made relative to the link itself and
    has one dot-dot too many. *)
Example relLink_one_too_many :
  relLink (str "/d/sub/x") (str "link") toy_mem = Ret (str "../sub/x") /\
  Clean (str "/d" ++ sep ++ str "../sub/x") = str "/sub/x".
Proof. split; reflexivity. Qed.

Definition conf0 : config := MkConfig true false false false false false false [].

Example ln_ex1 :
  bool_decide (nodes (fs (fst (ln conf0 [str "a"; str "link"] (MkC toy_mem [] [])))) !! str "/d/link" = Some (NLink (str "a"))) = true.
Proof. vm_compute. reflexivity. Qed.

(** Each question of [ln -i] has its own buffered reader: the answers that came with the first one
    are lost, and the second target is skipped. *)
Example ln_prompt_loses_input :
  match ln (MkConfig true false false true false false false []) [str "/x/b"; str "/x/c"; str "."] (MkC toy_mem [str "y
y
"] []) with
  | (s, Ret tt) =>
      bool_decide (nodes (fs s) !! str "/d/b" = Some (NLink (str "/x/b"))) &&
      bool_decide (nodes (fs s) !! str "/d/c" = Some (NFile 3 0x1ed))
  | _ => false
  end = true.
Proof. vm_compute. reflexivity. Qed.

(** [ln -f -r] without [-s] removes the file that is there before it reports the wrong flags. *)
Example ln_force_relative_removes :
  match ln (MkConfig false true false false false false true []) [str "b"; str "a"] (MkC toy_mem [] []) with
  | (s, Fail e) =>
      bool_decide (nodes (fs s) !! str "/d/a" = None) && bool_decide (e = Errorf "cannot do -r without -s")
  | _ => false
  end = true.
Proof. vm_compute. reflexivity. Qed.

(** [-P], for hard links to symbolic links, makes a symbolic link to what the link leads to. *)
Example ln_physical_symlink :
  let m := MkMem (<[str "/d/s" := NLink (str "a")]> (nodes toy_mem)) (cwd toy_mem) in
  match ln (MkConfig false false false false false true false []) [str "s"; str "h"] (MkC m [] []) with
  | (s, Ret tt) => bool_decide (nodes (fs s) !! str "/d/h" = Some (NLink (str "/d/a")))
  | _ => false
  end = true.
Proof. vm_compute. reflexivity. Qed.

(** ** Moves *)

(** [mv] into a directory renames every file to its base name in that directory, in order, and
    stops at the first error. *)
Lemma mv_into_app {W : Type} `{!FS W} (lf : bytes) (fs1 fs2 : list bytes) (s : cst W) :
  mv_into lf (fs1 ++ fs2) s = (_ ← mv_into lf fs1; mv_into lf fs2) s.
Proof.
  revert s. induction fs1 as [|f fs1 IH]; intros s; [done|]. cbn [app mv_into].
  unfold mbind, M_bind in *. destruct (sys _ s) as [s' [u|e|]]; [|done|done]. by rewrite IH.
Qed.

Example mv_ex :
  let m := MkMem (<[str "/d/e" := NDir 0x1ed]> (nodes toy_mem)) (cwd toy_mem) in
  match mv_main [str "a"; str "/d/b"; str "e"] (MkC m [] []) with
  | (s, Ret tt) =>
      bool_decide (nodes (fs s) !! str "/d/e/a" = Some (NFile 1 0x1a4)) &&
      bool_decide (nodes (fs s) !! str "/d/e/b" = Some (NFile 2 0x1a4)) &&
      bool_decide (nodes (fs s) !! str "/d/a" = None)
  | _ => false
  end = true.
Proof. vm_compute. reflexivity. Qed.

(** ** Modes *)

(** [chmod] changes nothing unless the mode is an octal number of at most 0777. *)
Lemma chmod_bad_mode {W : Type} `{!FS W} (mode : bytes) (names : list bytes) (s : cst W) :
  (snd (ParseUint mode 8 32) <> None \/ 0x1ff < fst (ParseUint mode 8 32)) ->
  fst (chmod_main (mode :: names) s) = s /\ is_Ret (snd (chmod_main (mode :: names) s)) = false.
Proof.
  intros H. unfold chmod_main. destruct (length names <? 1)%nat; [done|].
  destruct (ParseUint mode 8 32) as [v [e|]]; [done|]. cbn in H. destruct (Z.ltb_spec 0x1ff v); [done|].
  destruct H as [H|H]; [done|lia].
Qed.

Example chmod_ex1 : snd (chmod_main [str "755"; str "a"] (MkC toy_mem [] [])) = Ret 0. Proof. reflexivity. Qed.
Example chmod_ex2 : snd (chmod_main [str "1777"; str "a"] (MkC toy_mem [] [])) =
  Fail (Errorf "Invalid octal value %0o. Value should be less than or equal to 0777."). Proof. reflexivity. Qed.
Example readlink_ex : snd (readlink_main true [str "a"] 0 (MkC toy_mem [] [])) = Ret 1. Proof. reflexivity. Qed.
Example mkdir_ex : bool_decide (str "/d/x/y" ∈ names_in (fs (fst (mkdir_main (fun _ => []) true false 0x1b6 [str "x/y"] (MkC toy_mem [] []))))) = true.
Proof. reflexivity. Qed.
