(* ===== verification/Id.v ===== *)
(** * User and group identity ([cmds/id/id.go])

    Reading the group and the password file, the user of the process and the printed report.  The
    numbers of the process are parameters; the order in which a Go map is iterated is a parameter
    too. *)

From Stdlib Require Import Strings.String.
From stdpp Require Import gmap.
From S2P Require Export GoStrings GoText.

Abbreviation group_map := (gmap Z bytes).

Record idflags := MkIdFlags { group : bool; groups_f : bool; name_f : bool; user : bool }.

Definition correctFlags (flags : list bool) : bool :=
  let n := foldl (fun n (v : bool) => if v then n + 1 else n) 0 flags in negb (1 <? n).

(** The checks of [initFlags]. *)
Definition initFlags (f : idflags) : outcome error unit :=
  if negb (correctFlags [groups_f f; group f; user f]) then Fail (Errorf "cannot print only of more than one choice")
  else if name_f f && negb (groups_f f || group f || user f) then Fail (Errorf "cannot print only names in default format")
  else Ret tt.

Record User := MkUser { u_name : bytes; u_uid : Z; u_euid : Z; u_gid : Z; u_groups : group_map }.

(** [strconv.Atoi(info[2])] with the crash of a line of fewer fields. *)
Definition third_number (info : list bytes) : outcome error Z :=
  match info !! 2%nat with
  | None => Panic
  | Some f => match Atoi f with (_, Some _) => Fail (Errorf "strconv.Atoi: parsing %q: %v") | (v, None) => Ret v end
  end.

Fixpoint readGroups_loop (lines : list bytes) (groupsMap : group_map) : outcome error group_map :=
  match lines with
  | [] => Ret groupsMap
  | l :: lines =>
      let groupInfo := Split x3a l in
      groupNum ← third_number groupInfo;
      groupName ← or_panic (groupInfo !! 0%nat);
      readGroups_loop lines (<[groupNum := groupName]> groupsMap)
  end.

(** [readGroups] on the contents of the file; an error of the scanner is not looked at. *)
Definition readGroups (file : bytes + error) : outcome error group_map :=
  match file with
  | inr e => Fail e
  | inl s => readGroups_loop (fst (ScanLines s)) ∅
  end.

Definition GIDName (u : User) : bytes := default [] (u_groups u !! u_uid u).

(** The numbers of the process. *)
Record creds := MkCreds { Getuid : Z; Geteuid : Z; Getgid : Z; Getgroups : list Z + error }.

Fixpoint pick_groups (groupsMap : group_map) (nums : list Z) (acc : group_map) : outcome error group_map :=
  match nums with
  | [] => Ret acc
  | n :: nums =>
      match groupsMap !! n with
      | Some g => pick_groups groupsMap nums (<[n := g]> acc)
      | None => Fail (Errorf "Inconsistent %s file")
      end
  end.

Fixpoint find_name (uid : Z) (lines : list bytes) : outcome error bytes :=
  match lines with
  | [] => Ret []
  | l :: lines =>
      let passwdInfo := Split x3a l in
      val ← third_number passwdInfo;
      if val =? uid then or_panic (passwdInfo !! 0%nat) else find_name uid lines
  end.

Definition NewUser (c : creds) (groupFile passwdFile : bytes + error) : outcome error User :=
  match Getgroups c with
  | inr e => Fail e
  | inl groupsNumbers =>
      groupsMap ← readGroups groupFile;
      gs ← pick_groups groupsMap groupsNumbers ∅;
      match passwdFile with
      | inr e => Fail e
      | inl s =>
          name ← find_name (Getuid c) (fst (ScanLines s));
          if bytes_eqb name [] then Fail (Errorf "User is not in %s")
          else Ret (MkUser name (Getuid c) (Geteuid c) (Getgid c) gs)
      end
  end.

Definition group_item (f : idflags) (gn : Z * bytes) : bytes :=
  let '(gid, name) := gn in
  if negb (groups_f f) then Itoa gid ++ str "(" ++ name ++ str ")"
  else if name_f f then name ++ str " " else Itoa gid ++ str " ".

(** [IDCommand]; [order] lists the map in the order of the iteration. *)
Definition IDCommand (order : group_map -> list (Z * bytes)) (f : idflags) (u : User) : bytes :=
  let rest :=
    (if negb (groups_f f) then str "groups=" else []) ++
    Join (if groups_f f then [] else str ",") (group_item f <$> order (u_groups u)) ++ [x0a] in
  if negb (groups_f f) then
    if user f then (if name_f f then u_name u else Itoa (u_uid u)) ++ [x0a]
    else if group f then (if name_f f then GIDName u else Itoa (u_gid u)) ++ [x0a]
    else str "uid=" ++ Itoa (u_uid u) ++ str "(" ++ u_name u ++ str ") " ++
         str "gid=" ++ Itoa (u_gid u) ++ str "(" ++ GIDName u ++ str ") " ++ rest
  else rest.

Definition id_main (order : group_map -> list (Z * bytes)) (f : idflags) (c : creds) (groupFile passwdFile : bytes + error) :
    outcome error bytes :=
  _ ← initFlags f;
  u ← NewUser c groupFile passwdFile;
  Ret (IDCommand order f u).

(** ** Group files *)

(** An entry: name, password, number and members. *)
Record gentry := MkG { g_name : bytes; g_passwd : bytes; g_num : Z; g_list : bytes }.

Definition group_line (g : gentry) : bytes := Join [x3a] [g_name g; g_passwd g; Itoa (g_num g); g_list g].

Definition gentry_ok (g : gentry) : Prop :=
  (x3a ∉ g_name g) /\ (x3a ∉ g_passwd g) /\ (x3a ∉ g_list g) /\ 0 <= g_num g < 2 ^ 63 /\ scannable (group_line g).

Lemma group_line_fields g : gentry_ok g -> Split x3a (group_line g) = [g_name g; g_passwd g; Itoa (g_num g); g_list g].
Proof.
  intros (H1 & H2 & H3 & H4 & _). apply Split_Join; [done|]. repeat constructor; try done.
  apply Itoa_noin; [lia|done].
Qed.

Lemma readGroups_loop_lines gs m :
  Forall gentry_ok gs ->
  readGroups_loop (group_line <$> gs) m = Ret (foldl (fun m g => <[g_num g := g_name g]> m) m gs).
Proof.
  intros H. revert m. induction H as [|g gs Hg _ IH]; intros m; [done|]. rewrite fmap_cons. cbn [readGroups_loop foldl].
  cbv zeta. rewrite group_line_fields by done. unfold third_number. cbn [lookup list_lookup].
  destruct Hg as (_ & _ & _ & Hn & _). rewrite Atoi_Itoa by done. cbn. apply IH.
Qed.

(** Reading a file of well-formed entries gives every number the name of its last entry. *)
Lemma readGroups_lines gs :
  Forall gentry_ok gs ->
  readGroups (inl (unlines (group_line <$> gs))) = Ret (foldl (fun m g => <[g_num g := g_name g]> m) ∅ gs).
Proof.
  intros H. unfold readGroups. rewrite ScanLines_unlines; [by apply readGroups_loop_lines|].
  apply Forall_fmap. eapply Forall_impl; [exact H|]. by intros g (_ & _ & _ & _ & ?).
Qed.

(** The user's groups are the numbers of the process with their names in the file. *)
Lemma pick_groups_spec (m : group_map) nums (acc gs : group_map) :
  pick_groups m nums acc = Ret gs ->
  forall n, gs !! n = if bool_decide (n ∈ nums) then m !! n else acc !! n.
Proof.
  revert acc. induction nums as [|k nums IH]; intros acc H n; cbn [pick_groups] in H; [by simplify_eq|].
  destruct (m !! k) as [g|] eqn:Ek; [|done]. rewrite (IH _ H n). destruct (decide (n = k)) as [->|Hne].
  - rewrite (bool_decide_eq_true_2 (k ∈ k :: nums)) by left. case_bool_decide; [done|]. by rewrite lookup_insert_eq.
  - rewrite lookup_insert_ne by done. rewrite (bool_decide_ext (n ∈ nums) (n ∈ k :: nums)); [done|]. rewrite elem_of_cons. naive_solver.
Qed.

Lemma NewUser_groups c gf pf u nums :
  NewUser c gf pf = Ret u -> Getgroups c = inl nums ->
  exists m, readGroups gf = Ret m /\ forall n, u_groups u !! n = if bool_decide (n ∈ nums) then m !! n else None.
Proof.
  unfold NewUser. intros H Hn. rewrite Hn in H. destruct (readGroups gf) as [m| |]; [|done|done]. exists m. split; [done|].
  cbn in H. destruct (pick_groups m nums ∅) as [gs| |] eqn:Ep; [|done|done]. intros n.
  assert (u_groups u = gs) as ->.
  { cbn in H. destruct pf as [s|e]; [|done]. destruct (find_name _ _); [|done|done]. cbn in H. by destruct (bytes_eqb _ _); simplify_eq. }
  rewrite (pick_groups_spec _ _ _ _ Ep). by rewrite lookup_empty.
Qed.

Definition toy_group : bytes := unlines [str "root:x:0:"; str "bob:x:1000:bob"; str "users:x:100:bob"].
Definition toy_passwd : bytes := unlines [str "root:x:0:0::/root:/bin/sh"; str "bob:x:1000:100::/home/bob:/bin/sh"].

Example id_ex :
  id_main map_to_list (MkIdFlags false false false true) (MkCreds 1000 0 100 (inl [100])) (inl toy_group) (inl toy_passwd)
    = Ret (str "1000
").
Proof. reflexivity. Qed.

(** The name that is printed for the group is looked up with the user's number. *)
Example id_group_name_by_uid :
  id_main map_to_list (MkIdFlags true false true false) (MkCreds 1000 1000 100 (inl [100; 1000])) (inl toy_group) (inl toy_passwd)
    = Ret (str "bob
").
Proof. reflexivity. Qed.

Lemma GIDName_ignores_gid u gid : GIDName (MkUser (u_name u) (u_uid u) (u_euid u) gid (u_groups u)) = GIDName u.
Proof. done. Qed.

(** A line without three fields is a crash. *)
Example readGroups_short_line : readGroups (inl (unlines [str "root:x:0:"; []])) = Panic.
Proof. reflexivity. Qed.
