(* ===== verification/Date.v ===== *)
(** * The date ([cmds/date/date.go])

    The [+format] argument ([formatParser], [dateMap]) and setting the clock ([getTime]).  What the
    code uses of the [time] package is modelled on a broken-down time: weekdays, ISO weeks and the
    layouts of its format table.  All readings of the clock in one run give the same time. *)

From Stdlib Require Import Strings.String.
From S2P Require Export GoText.

(** ** Times *)

Record tm := MkTm {
  t_year : Z; t_month : Z; t_day : Z; t_hour : Z; t_min : Z; t_sec : Z;
  t_zone : bytes; t_offset : Z (** minutes east of UTC *)
}.

Definition isLeap (y : Z) : bool := (y `mod` 4 =? 0) && (negb (y `mod` 100 =? 0) || (y `mod` 400 =? 0)).

Definition daysBefore (m : Z) : Z :=
  default 0 (zindex [0; 31; 59; 90; 120; 151; 181; 212; 243; 273; 304; 334] (m - 1)).

(** The day of the year, from 0. *)
Definition yday (y m d : Z) : Z := daysBefore m + (if isLeap y && (2 <? m) then 1 else 0) + d - 1.

(** Sunday is 0; the first of January of the year 1 was a Monday. *)
Definition weekday (y m d : Z) : Z :=
  (365 * (y - 1) + (y - 1) `div` 4 - (y - 1) `div` 100 + (y - 1) `div` 400 + yday y m d + 1) `mod` 7.

Definition Weekday (t : tm) : Z := weekday (t_year t) (t_month t) (t_day t).

(** [Time.ISOWeek], by the algorithm of the library: Mondays up to the day. *)
Definition ISOWeek (t : tm) : Z * Z :=
  let yd := yday (t_year t) (t_month t) (t_day t) in
  let wday := (Weekday t + 6) `mod` 7 in
  let week := (yd - wday + 7) `div` 7 in
  let jan1wday := (wday - yd + 7 * 53) `mod` 7 in
  let week := if (1 <=? jan1wday) && (jan1wday <=? 3) then week + 1 else week in
  let '(year, week) :=
    if week =? 0 then
      let year := t_year t - 1 in
      (year, if (jan1wday =? 4) || ((jan1wday =? 5) && isLeap year) then 53 else 52)
    else (t_year t, week) in
  if (t_month t =? 12) && (29 <=? t_day t) && (wday <? 3) then
    let dec31wday := (wday + 31 - t_day t) `mod` 7 in
    if dec31wday <=? 2 then (year + 1, 1) else (year, week)
  else (year, week).

Definition day_names : list string :=
  ["Sunday"; "Monday"; "Tuesday"; "Wednesday"; "Thursday"; "Friday"; "Saturday"]%string.
Definition month_names : list string :=
  ["January"; "February"; "March"; "April"; "May"; "June"; "July"; "August"; "September"; "October"; "November"; "December"]%string.

Definition day_name (t : tm) : bytes := str (default ""%string (zindex day_names (Weekday t))).
Definition month_name (t : tm) : bytes := str (default ""%string (zindex month_names (t_month t - 1))).

(** [appendInt] with a width. *)
Definition pad (w : nat) (c : byte) (z : Z) : bytes := let s := Itoa z in replicate (w - length s) c ++ s.

(** The elements of the layouts in [fmtMap]. *)
Inductive layout := LMon | LMonday | LJan | LJanuary | LUnixDate | L02 | L_2 | L15 | L03 | L1 | L04 | LPM | L05 | L06 | L2006 | L_0700 | LMST.

Definition offset_text (o : Z) : bytes :=
  (if o <? 0 then str "-" else str "+") ++ pad 2 x30 (Z.abs o `div` 60) ++ pad 2 x30 (Z.abs o `mod` 60).

(** [Time.Format] for a layout of one element. *)
Definition format1 (t : tm) (l : layout) : bytes :=
  match l with
  | LMon => take 3 (day_name t)
  | LMonday => day_name t
  | LJan => take 3 (month_name t)
  | LJanuary => month_name t
  | L02 => pad 2 x30 (t_day t)
  | L_2 => pad 2 x20 (t_day t)
  | L15 => pad 2 x30 (t_hour t)
  | L03 => pad 2 x30 (let h := t_hour t `mod` 12 in if h =? 0 then 12 else h)
  | L1 => Itoa (t_month t)
  | L04 => pad 2 x30 (t_min t)
  | LPM => if 12 <=? t_hour t then str "PM" else str "AM"
  | L05 => pad 2 x30 (t_sec t)
  | L06 => pad 2 x30 (t_year t `mod` 100)
  | L2006 => pad 4 x30 (t_year t)
  | L_0700 => offset_text (t_offset t)
  | LMST => t_zone t
  | LUnixDate => []
  end.

Definition Format (t : tm) (l : layout) : bytes :=
  match l with
  | LUnixDate =>
      Join [x20] [format1 t LMon; format1 t LJan; format1 t L_2;
                  format1 t L15 ++ str ":" ++ format1 t L04 ++ str ":" ++ format1 t L05; format1 t LMST; format1 t L2006]
  | l => format1 t l
  end.

(** ** The format argument *)

Definition fmtMap : list (bytes * layout) :=
  [(str "%a", LMon); (str "%A", LMonday); (str "%b", LJan); (str "%h", LJan); (str "%B", LJanuary);
   (str "%c", LUnixDate); (str "%d", L02); (str "%e", L_2); (str "%H", L15); (str "%I", L03); (str "%m", L1);
   (str "%M", L04); (str "%p", LPM); (str "%S", L05); (str "%y", L06); (str "%Y", L2006); (str "%z", L_0700);
   (str "%Z", LMST)].

Fixpoint alookup {A} (m : list (bytes * A)) (k : bytes) : option A :=
  match m with
  | [] => None
  | (k', v) :: m => if bytes_eqb k' k then Some v else alookup m k
  end.

Definition is_letter (c : byte) : bool :=
  ((65 <=? b2z c) && (b2z c <=? 90)) || ((97 <=? b2z c) && (b2z c <=? 122)).

(** The matches of [%[a-zA-Z]], left to right. *)
Fixpoint formatParser (args : bytes) : list bytes :=
  match args with
  | a :: (b :: rest) as args' =>
      if byte_eqb a x25 && is_letter b then [a; b] :: formatParser rest else formatParser args'
  | _ => []
  end.

(** The text for a match that is not in [fmtMap]: [inl] a fixed text, [inr] a nested format. *)
Definition special (d : tm) (m : bytes) : option (bytes + bytes) :=
  if bytes_eqb m (str "%C") then Some (inl (Itoa (t_year d `quot` 100)))
  else if bytes_eqb m (str "%D") then Some (inr (str "%m/%d/%y"))
  else if bytes_eqb m (str "%j") then
    let '(year, weekYear) := ISOWeek d in
    let firstWeekDay := weekday year 1 1 in
    let weekDay := Weekday d in
    Some (inl (Itoa (weekYear * 7 - (firstWeekDay - 1) + weekDay)))
  else if bytes_eqb m (str "%n") then Some (inl [x0a])
  else if bytes_eqb m (str "%r") then Some (inr (str "%I:%M:%S %p"))
  else if bytes_eqb m (str "%t") then Some (inl [x09])
  else if bytes_eqb m (str "%T") then Some (inr (str "%H:%M:%S"))
  else if bytes_eqb m (str "%W") then
    let isNotSunday := if Weekday d =? 0 then 0 else 1 in
    Some (inl (Itoa (snd (ISOWeek d) - isNotSunday)))
  else if bytes_eqb m (str "%w") then Some (inl (Itoa (Weekday d)))
  else if bytes_eqb m (str "%V") then Some (inl (Itoa (snd (ISOWeek d))))
  else if bytes_eqb m (str "%x") then Some (inr (str "%m/%d/%y"))
  else if bytes_eqb m (str "%F") then Some (inr (str "%Y-%m-%d"))
  else if bytes_eqb m (str "%X") then Some (inr (str "%I:%M:%S %p"))
  else None.

(** The text that replaces a match, [None] for [continue]. *)
Definition replacement (d : tm) (dateMap : bytes -> bytes) (m : bytes) : option bytes :=
  match alookup fmtMap m with
  | Some l => Some (Format d l)
  | None =>
      match special d m with
      | Some (inl t) => Some t
      | Some (inr f) => Some (dateMap f)
      | None => None
      end
  end.

(** The loop of [dateMap]; [strings.Replace] of the first occurrence. *)
Definition replace_step (d : tm) (dateMap : bytes -> bytes) (format m : bytes) : bytes :=
  match replacement d dateMap m with
  | Some t => Replace1 format m t
  | None => format
  end.

(** [dateMap] with a bound on the nesting; the nested formats use [fmtMap] only. *)
Fixpoint dateMap_fuel (fuel : nat) (d : tm) (format : bytes) : bytes :=
  match fuel with
  | O => []
  | S fuel => foldl (replace_step d (dateMap_fuel fuel d)) format (formatParser format)
  end.

Definition dateMap (d : tm) (format : bytes) : bytes := dateMap_fuel 2 d format.

(** ** Setting the clock *)

(** [ints]: [k] numbers of two digits from the front; a short string is a crash. *)
Fixpoint ints (s : bytes) (k : nat) : outcome error (list Z) :=
  match k with
  | O => Ret []
  | S k =>
      h ← or_panic (slice s 0 2);
      match Atoi h with
      | (_, Some _) => Fail (Errorf "strconv.Atoi: parsing %q: %v")
      | (v, None) =>
          rest ← or_panic (slice s 2 (zlen s));
          vs ← ints rest k; Ret (v :: vs)
      end
  end.

(** The arguments of [time.Date]: year, month, day, hour, minute and second. *)
Definition getTime (now : tm) (s : bytes) : outcome error (Z * Z * Z * Z * Z * Z) :=
  let YY := Z.rem (t_year now) 100 in
  let CC := t_year now `quot` 100 in
  let SS := t_sec now in
  v ← ints s 4;
  match v with
  | [MM; DD; hh; mm] =>
      s ← or_panic (slice s 8 (zlen s));
      let n := zlen s in
      let done (CC YY SS : Z) := Ret (YY + CC * 100, MM, DD, hh, mm, SS) in
      if n =? 0 then done CC YY SS
      else if n =? 2 then v ← ints s 1; match v with [YY] => done CC YY SS | _ => Panic end
      else if n =? 3 then r ← or_panic (slice s 1 n); v ← ints r 1; match v with [SS] => done CC YY SS | _ => Panic end
      else if n =? 4 then v ← ints s 2; match v with [CC; YY] => done CC YY SS | _ => Panic end
      else if n =? 5 then
        a ← or_panic (slice s 0 2); b ← or_panic (slice s 3 n);
        v ← ints (a ++ b) 2; match v with [YY; SS] => done CC YY SS | _ => Panic end
      else if n =? 7 then
        a ← or_panic (slice s 0 4); b ← or_panic (slice s 5 n);
        v ← ints (a ++ b) 3; match v with [CC; YY; SS] => done CC YY SS | _ => Panic end
      else Fail (Errorf "Optional string is %v instead of [[CC]YY][.ss]")
  | _ => Panic
  end.

(** What [main] does: the printed text, or the time it sets. *)
Inductive date_result := Printed (b : bytes) | Set_ (t : Z * Z * Z * Z * Z * Z) | Usage.

Definition date_main (now : tm) (args : list bytes) : outcome error date_result :=
  match args with
  | [] => Ret (Printed (Format now LUnixDate ++ [x0a]))
  | [argv0] =>
      c ← or_panic (head argv0);
      if byte_eqb c x2b then Ret (Printed (dateMap now (drop 1 argv0) ++ [x0a]))
      else t ← getTime now argv0; Ret (Set_ t)
  | _ => Ret Usage
  end.

Definition toy_now : tm := MkTm 2018 1 1 13 4 5 (str "UTC") 0.

Example date_ex1 : date_main toy_now [] = Ret (Printed (str "Mon Jan  1 13:04:05 UTC 2018
")). Proof. reflexivity. Qed.
Example date_ex2 : dateMap toy_now (str "%D %r %V") = str "1/01/18 01:04:05 PM 1". Proof. reflexivity. Qed.
Example date_ex3 : getTime toy_now (str "123123592017.58") = Ret (2017, 12, 31, 23, 59, 58). Proof. reflexivity. Qed.
Example date_ex4 : getTime toy_now (str "12312359.58") = Ret (2018, 12, 31, 23, 59, 58). Proof. reflexivity. Qed.
Example date_ex5 : getTime toy_now (str "1231") = Panic. Proof. reflexivity. Qed.
Example ISOWeek_ex1 : ISOWeek (MkTm 2016 1 3 0 0 0 [] 0) = (2015, 53). Proof. reflexivity. Qed.
Example ISOWeek_ex2 : ISOWeek (MkTm 2014 12 29 0 0 0 [] 0) = (2015, 1). Proof. reflexivity. Qed.

(** ** The format in one pass *)

Section OnePass.
Context (repl : bytes -> option bytes).

(** Every pattern replaced by its text, patterns without a text kept. *)
Fixpoint subst_format (f : bytes) : bytes :=
  match f with
  | a :: (b :: rest) as f' =>
      if byte_eqb a x25 && is_letter b then default [a; b] (repl [a; b]) ++ subst_format rest
      else a :: subst_format f'
  | _ => f
  end.

Definition step (format m : bytes) : bytes :=
  match repl m with Some t => Replace1 format m t | None => format end.

(** No percent sign follows another one. *)
Fixpoint no_pp (f : bytes) : bool :=
  match f with
  | a :: (b :: _) as f' => negb (byte_eqb a x25 && byte_eqb b x25) && no_pp f'
  | _ => true
  end.

Context (Hrepl : forall m t, repl m = Some t -> x25 ∉ t).

(** The part that is done has no pattern left that is replaced, and none can start at its end. *)
Definition inside (done : bytes) : Prop :=
  forall j l, done !! j = Some x25 -> done !! S j = Some l -> is_letter l = true -> repl [x25; l] = None.

Definition boundary (done f : bytes) : Prop :=
  last done = Some x25 -> match f with c :: _ => c <> x25 /\ is_letter c = false | [] => True end.

Lemma inside_snoc done c :
  inside done -> (last done = Some x25 -> is_letter c = true -> repl [x25; c] = None) -> inside (done ++ [c]).
Proof.
  intros Hi Hl j l H1 H2 H3. destruct (decide (S j < length done)%nat) as [Hj|Hj].
  - rewrite lookup_app_l in H1, H2 by lia. by eapply Hi.
  - assert (S j = length done) as E.
    { apply lookup_lt_Some in H2. rewrite length_app in H2. cbn in H2. lia. }
    rewrite lookup_app_l in H1 by lia. rewrite lookup_app_r, E, Nat.sub_diag in H2 by lia. cbn in H2. simplify_eq.
    apply Hl; [|done]. rewrite last_lookup, <- E. done.
Qed.

Lemma inside_app done t : inside done -> last done <> Some x25 -> x25 ∉ t -> inside (done ++ t) /\ last (done ++ t) <> Some x25.
Proof.
  revert done. induction t as [|c t IH]; intros done Hi Hl Ht; [by rewrite app_nil_r|].
  apply not_elem_of_cons in Ht as [Hc Ht]. replace (done ++ c :: t) with ((done ++ [c]) ++ t) by (by rewrite <- app_assoc).
  apply IH; [|rewrite last_snoc; by intros [= ->]|done]. by apply inside_snoc.
Qed.

Lemma Replace1_done done b rest t :
  inside done -> boundary done (x25 :: b :: rest) -> is_letter b = true -> repl [x25; b] = Some t ->
  Replace1 (done ++ x25 :: b :: rest) [x25; b] t = done ++ t ++ rest.
Proof.
  intros Hi Hb Hl Ht. unfold Replace1. rewrite (proj2 (Index_spec _ _ (length done))).
  - rewrite take_app_length. change (length [x25; b]) with 2%nat. rewrite drop_app_add. done.
  - split_and!; [rewrite length_app; lia|rewrite drop_app_length; cbn; by rewrite !byte_eqb_refl|].
    intros j Hj. destruct (HasPrefix _ _) eqn:E; [|done]. exfalso. rewrite HasPrefix_take in E. apply bool_decide_eq_true in E.
    cbn [length] in E. destruct (drop j _) as [|x [|y s]] eqn:Ed; [done|done|]. cbn in E. simplify_eq.
    assert ((done ++ x25 :: b :: rest) !! j = Some x25) as H1 by (rewrite <- (Nat.add_0_r j), <- lookup_drop, Ed; done).
    assert ((done ++ x25 :: b :: rest) !! S j = Some b) as H2 by (rewrite <- (Nat.add_1_r j), <- lookup_drop, Ed; done).
    rewrite lookup_app_l in H1 by lia. destruct (decide (S j < length done)%nat).
    + rewrite lookup_app_l in H2 by lia. specialize (Hi j b H1 H2 Hl). congruence.
    + assert (S j = length done) as E2 by lia. destruct Hb as [Hb _]; [|done].
      by rewrite last_lookup, <- E2.
Qed.

Lemma replace_all f done :
  no_pp f = true -> inside done -> boundary done f ->
  foldl step (done ++ f) (formatParser f) = done ++ subst_format f.
Proof.
  remember (length f) as n eqn:En. assert (length f <= n)%nat as Hn by lia. clear En.
  revert f done Hn. induction n as [|n IH]; intros f done Hn Hpp Hi Hb; [by destruct f; [|cbn in Hn; lia]|].
  destruct f as [|a [|b rest]]; [done|done|]. cbn [length] in Hn. cbn [no_pp] in Hpp. apply andb_prop in Hpp as [Hab Hpp].
  cbn [formatParser subst_format]. destruct (byte_eqb a x25 && is_letter b) eqn:Em.
  - apply andb_prop in Em as [Ea Hl]. apply byte_eqb_eq in Ea as ->. cbn [foldl]. unfold step at 2.
    assert (last done <> Some x25) as Hd by (intros Hd; by destruct (Hb Hd)).
    assert (no_pp rest = true) as Hpr by (destruct rest; [done|]; apply andb_prop in Hpp as [_ ?]; done).
    destruct (repl [x25; b]) as [t|] eqn:Et.
    + rewrite Replace1_done by done. cbn [default]. rewrite !app_assoc. destruct (inside_app done t) as [Hi' Hl']; [done|done|by eapply Hrepl|].
      apply IH; [lia|done|done|]. by intros ?.
    + cbn [default]. replace (done ++ x25 :: b :: rest) with ((done ++ [x25; b]) ++ rest) by (by rewrite <- app_assoc).
      rewrite app_assoc. apply IH; [lia|done| |].
      * change [x25; b] with ([x25] ++ [b]). rewrite app_assoc. apply inside_snoc; [by apply inside_snoc|done].
      * intros Hx. change [x25; b] with ([x25] ++ [b]) in Hx. rewrite app_assoc, last_snoc in Hx. by simplify_eq.
  - replace (done ++ a :: b :: rest) with ((done ++ [a]) ++ b :: rest) by (by rewrite <- app_assoc).
    rewrite IH; [by rewrite <- app_assoc|cbn; lia|done| |].
    + apply inside_snoc; [done|]. intros Hd. destruct (Hb Hd) as [_ Hx]. congruence.
    + intros Hx. rewrite last_snoc in Hx. simplify_eq. rewrite byte_eqb_refl in *. cbn in Em, Hab. split; [|done].
      intros ->. by rewrite byte_eqb_refl in Hab.
Qed.
End OnePass.

(** Deeper nesting than two does not occur. *)
Lemma dateMap_fuel_enough n d f : dateMap_fuel (S (S n)) d f = dateMap d f.
Proof.
  unfold dateMap. cbn [dateMap_fuel]. generalize (formatParser f) as ms. intros ms. revert f.
  induction ms as [|m ms IH]; intros f; [done|]. cbn [foldl]. rewrite IH. f_equal.
  unfold replace_step, replacement. destruct (alookup fmtMap m); [done|].
  unfold special. repeat case_match; simplify_eq; reflexivity.
Qed.

(** ** Texts without percent signs *)

Definition np (s : bytes) : bool := forallb (fun c => negb (byte_eqb c x25)) s.

Lemma np_spec s : np s = true <-> x25 ∉ s.
Proof.
  unfold np. rewrite forallb_forall. split.
  - intros H Hin. specialize (H x25 (proj1 (list_elem_of_In _ _) Hin)). done.
  - intros H c Hc. apply list_elem_of_In in Hc. destruct (byte_eqb c x25) eqn:E; [|done]. by apply byte_eqb_eq in E as ->.
Qed.

Lemma np_app s t : np (s ++ t) = np s && np t.
Proof. apply forallb_app. Qed.

Lemma np_cons c s : np (c :: s) = negb (byte_eqb c x25) && np s.
Proof. done. Qed.

Lemma np_Itoa z : np (Itoa z) = true.
Proof.
  apply np_spec. destruct (Z.leb_spec 0 z) as [Hz|Hz]; [by apply Itoa_noin|].
  unfold Itoa. destruct (Z.ltb_spec z 0); [|lia]. intros [Hx|Hx]%elem_of_cons; [done|].
  pose proof (Itoa_noin (- z) x25 ltac:(lia) eq_refl) as Hn. unfold Itoa in Hn. by destruct (Z.ltb_spec (- z) 0); [lia|].
Qed.

Lemma np_pad w c z : byte_eqb c x25 = false -> np (pad w c z) = true.
Proof.
  intros Hc. unfold pad. rewrite np_app, np_Itoa, andb_true_r. generalize (w - length (Itoa z))%nat. intros n.
  induction n as [|n IH]; [done|]. unfold np in *. cbn [replicate forallb]. by rewrite Hc, IH.
Qed.

Lemma np_zindex (l : list string) i : forallb (fun s => np (str s)) l = true -> np (str (default ""%string (zindex l i))) = true.
Proof.
  intros H. unfold zindex. destruct (bool_decide _); [|done]. destruct (l !! _) as [s|] eqn:E; [|done].
  rewrite forallb_forall in H. apply H, list_elem_of_In. by eapply list_elem_of_lookup_2.
Qed.

Lemma np_take n s : np s = true -> np (take n s) = true.
Proof. rewrite !np_spec. intros H Hin. apply H. by apply subseteq_take in Hin. Qed.

Create HintDb np.
#[local] Hint Resolve np_Itoa np_pad np_zindex np_take : np.

Lemma np_format1 d l : np (t_zone d) = true -> np (format1 d l) = true.
Proof.
  intros Hz. destruct l; cbn [format1]; unfold day_name, month_name, offset_text; auto with np.
  - by case_match.
  - rewrite !np_app. by rewrite !np_pad; [case_match| |].
Qed.

Lemma np_Format d l : np (t_zone d) = true -> np (Format d l) = true.
Proof.
  intros Hz. destruct l; try (by apply (np_format1 d)). cbn [Format Join]. rewrite !np_app, !np_format1 by done. done.
Qed.

Definition nested : list bytes := [str "%m/%d/%y"; str "%I:%M:%S %p"; str "%H:%M:%S"; str "%Y-%m-%d"].

Lemma special_cases d m : match special d m with Some (inl t) => np t = true | Some (inr f) => f ∈ nested | None => True end.
Proof.
  unfold special. destruct (ISOWeek d) as [y w].
  repeat case_match; simplify_eq; first [done | apply np_Itoa | apply (bool_decide_unpack _); vm_compute; exact I].
Qed.

Lemma np_replacement d dm m t :
  np (t_zone d) = true -> (forall f, f ∈ nested -> np (dm f) = true) -> replacement d dm m = Some t -> np t = true.
Proof.
  intros Hz Hdm. unfold replacement. destruct (alookup fmtMap m) as [l|]; [intros [= <-]; by apply np_Format|].
  pose proof (special_cases d m) as Hs. destruct (special d m) as [[u|f]|]; [intros [= <-]; done|intros [= <-]; by apply Hdm|done].
Qed.

Lemma replacement_fmt d dm m l : alookup fmtMap m = Some l -> replacement d dm m = Some (Format d l).
Proof. intros H. unfold replacement. by rewrite H. Qed.

Lemma dateMap1_nested d f :
  np (t_zone d) = true -> f ∈ nested -> np (dateMap_fuel 1 d f) = true.
Proof.
  intros Hz Hf. cbn [dateMap_fuel].
  change (replace_step d (dateMap_fuel 0 d)) with (step (replacement d (dateMap_fuel 0 d))).
  pose proof (replace_all (replacement d (dateMap_fuel 0 d))) as Hr. 
  assert (forall m t, replacement d (dateMap_fuel 0 d) m = Some t -> x25 ∉ t) as Hnp.
  { intros m t Ht. apply np_spec. by eapply (np_replacement d (dateMap_fuel 0 d)). }
  change f with ([] ++ f) at 1. rewrite (Hr Hnp).
  - unfold nested in Hf. rewrite !elem_of_cons in Hf. repeat destruct Hf as [->|Hf]; [..|by apply not_elem_of_nil in Hf];
      cbn -[Format np]; repeat (erewrite replacement_fmt by reflexivity); cbn -[Format np];
      repeat (rewrite np_app || rewrite np_cons || rewrite np_Format by done); reflexivity.
  - unfold nested in Hf. rewrite !elem_of_cons in Hf. by repeat destruct Hf as [->|Hf]; [..|by apply not_elem_of_nil in Hf].
  - intros j l H. done.
  - intros H. done.
Qed.

(** [dateMap] replaces the patterns of a format as if all at once: the replaced texts are not
    looked at again, patterns that are not known stay.  The format must not have two percent signs
    in a row. *)
Theorem dateMap_one_pass (d : tm) (f : bytes) :
  no_pp f = true -> x25 ∉ t_zone d ->
  dateMap d f = subst_format (replacement d (dateMap_fuel 1 d)) f.
Proof.
  intros Hpp Hz%np_spec. unfold dateMap. cbn [dateMap_fuel].
  change (replace_step d (dateMap_fuel 1 d)) with (step (replacement d (dateMap_fuel 1 d))).
  apply (replace_all (replacement d (dateMap_fuel 1 d))) with (done := []); [|done|by intros j l H|by intros H].
  intros m t Ht. apply np_spec. eapply np_replacement; [done| |done]. intros g Hg. by apply dateMap1_nested.
Qed.

Lemma dateMap_one_pass_witness :
  dateMap toy_now (str "%A %Q %T") = subst_format (replacement toy_now (dateMap_fuel 1 toy_now)) (str "%A %Q %T").
Proof. apply (dateMap_one_pass toy_now (str "%A %Q %T")); [reflexivity|]. apply np_spec. reflexivity. Defined.

(** With two percent signs in a row a replaced text is taken for a pattern. *)
Example dateMap_percent_percent : dateMap toy_now (str "%%A %M") = str "04onday %M".
Proof. reflexivity. Qed.

(** [%D] is documented as mm/dd/yy; the month has no leading zero. *)
Example dateMap_D_month : dateMap toy_now (str "%D") = str "1/01/18". Proof. reflexivity. Qed.

(** ** The argument that sets the clock *)

(** Two decimal digits. *)
Definition p2 (v : Z) : bytes := pad 2 x30 v.

Lemma p2_shape v : 0 <= v < 100 -> exists a b, p2 v = [a; b] /\ Atoi [a; b] = (v, None).
Proof.
  intros Hv.
  assert (forallb (fun v => match p2 v with [a; b] => bool_decide (Atoi [a; b] = (v, None)) | _ => false end) (seqZ 0 100) = true)
    as H by (vm_compute; reflexivity).
  rewrite forallb_forall in H. specialize (H v). rewrite <- list_elem_of_In, elem_of_seqZ in H. specialize (H ltac:(lia)).
  destruct (p2 v) as [|a [|b [|? ?]]]; try done. exists a, b. split; [done|]. by apply bool_decide_eq_true in H.
Qed.

Lemma ints_cons a b rest k v :
  Atoi [a; b] = (v, None) -> ints (a :: b :: rest) (S k) = (vs ← ints rest k; Ret (v :: vs)).
Proof.
  intros H. cbn [ints]. rewrite slice_prefix by (rewrite ?zlen_cons; pose proof (zlen_nonneg rest); lia).
  change (take (Z.to_nat (2)) (a :: b :: rest)) with [a; b]. cbn [or_panic mbind outcome_bind]. rewrite H.
  rewrite slice_suffix by (rewrite ?zlen_cons; pose proof (zlen_nonneg rest); lia).
  by change (drop (Z.to_nat 2) (a :: b :: rest)) with rest.
Qed.

(** The argument: month, day, hour and minute, a year with or without its hundreds, seconds. *)
Definition date_arg (MM DD hh mm : Z) (year : option (option Z * Z)) (ss : option Z) : bytes :=
  p2 MM ++ p2 DD ++ p2 hh ++ p2 mm ++
  match year with Some (Some CC, YY) => p2 CC ++ p2 YY | Some (None, YY) => p2 YY | None => [] end ++
  match ss with Some SS => str "." ++ p2 SS | None => [] end.

Definition two_digits (v : Z) : Prop := 0 <= v < 100.

(** Evaluate the slices and lengths of byte lists of known length. *)
Ltac eval_slices :=
  repeat match goal with
  | |- context [slice ?l ?a ?b] => let v := eval vm_compute in (slice l a b) in change (slice l a b) with v; cbn [or_panic mbind outcome_bind]
  | |- context [zlen ?l =? ?n] => let v := eval vm_compute in (zlen l =? n) in change (zlen l =? n) with v; cbv iota
  | |- context [ints ?l 0] => change (ints l 0) with (@Ret error (list Z) []); cbn [mbind outcome_bind]
  | _ => progress cbn [mbind outcome_bind app]
  | _ => progress cbv zeta
  end.

(** Setting the clock reads back every form of the documented argument; what is left out is
    taken from the current time. *)
Theorem getTime_date_arg (now : tm) (MM DD hh mm : Z) (year : option (option Z * Z)) (ss : option Z) :
  Forall two_digits [MM; DD; hh; mm] ->
  match year with Some (Some CC, YY) => two_digits CC /\ two_digits YY | Some (None, YY) => two_digits YY | None => True end ->
  match ss with Some SS => two_digits SS | None => True end ->
  getTime now (date_arg MM DD hh mm year ss) =
    Ret (match year with
         | Some (Some CC, YY) => YY + CC * 100
         | Some (None, YY) => YY + (t_year now `quot` 100) * 100
         | None => Z.rem (t_year now) 100 + (t_year now `quot` 100) * 100
         end, MM, DD, hh, mm, default (t_sec now) ss).
Proof.
  intros Hf Hy Hs. rewrite !Forall_cons in Hf. destruct Hf as (H1 & H2 & H3 & H4 & _). unfold date_arg.
  destruct (p2_shape MM H1) as (a1 & b1 & -> & E1), (p2_shape DD H2) as (a2 & b2 & -> & E2),
    (p2_shape hh H3) as (a3 & b3 & -> & E3), (p2_shape mm H4) as (a4 & b4 & -> & E4).
  destruct year as [[[CC|] YY]|]; [destruct Hy as [Hc Hy]; destruct (p2_shape CC Hc) as (a5 & b5 & -> & E5);
    destruct (p2_shape YY Hy) as (a6 & b6 & -> & E6)|destruct (p2_shape YY Hy) as (a6 & b6 & -> & E6)|];
    (destruct ss as [SS|]; [destruct (p2_shape SS Hs) as (a7 & b7 & -> & E7)|]).
  all: unfold getTime; cbn [app]; repeat (eval_slices; rewrite (ints_cons _ _ _ _ _ E1) || rewrite (ints_cons _ _ _ _ _ E2) ||
    rewrite (ints_cons _ _ _ _ _ E3) || rewrite (ints_cons _ _ _ _ _ E4) || rewrite (ints_cons _ _ _ _ _ E5) ||
    rewrite (ints_cons _ _ _ _ _ E6) || rewrite (ints_cons _ _ _ _ _ E7)); reflexivity.
Qed.

Lemma getTime_date_arg_witness :
  getTime toy_now (date_arg 12 31 23 59 (Some (None, 17)) (Some 58)) = Ret (2017, 12, 31, 23, 59, 58).
Proof.
  apply (getTime_date_arg toy_now 12 31 23 59 (Some (None, 17)) (Some 58)); [|unfold two_digits; lia|unfold two_digits; lia].
  repeat constructor; unfold two_digits; lia.
Defined.

(** [%j] is documented as the day of the year: in 2018 it is that only on Sundays. *)
Definition days_of (y : Z) : list tm :=
  m ← seqZ 1 12;
  d ← seqZ 1 (if m =? 12 then 31 else daysBefore (m + 1) - daysBefore m + (if isLeap y && (m =? 2) then 1 else 0));
  [MkTm y m d 0 0 0 [] 0].

Example dateMap_j_2018 :
  length (days_of 2018) = 365%nat /\
  forallb (fun t => Bool.eqb (bytes_eqb (dateMap t (str "%j")) (Itoa (yday (t_year t) (t_month t) (t_day t) + 1))) (Weekday t =? 0))
    (days_of 2018) = true.
Proof. split; vm_compute; reflexivity. Qed.
