(* ===== verification/Ps.v ===== *)
(** * The process table ([cmds/ps/ps.go], [cmds/ps/ps_linux.go])

    Reading [/proc/PID/stat] into the fields of a process by reflection, the owner from
    [/proc/PID/status], the table with its column widths and the selection of the rows.  Files and
    links of [/proc] are parameters. *)

From Stdlib Require Import Strings.String.
From stdpp Require Import sorting.
From S2P Require Export GoPath GoUtf8 GoText.

(** ** Processes *)

(** The fields of [type process], in order. *)
Definition process_fields : list bytes :=
  str <$> ["Pid"; "Cmd"; "State"; "Ppid"; "Pgrp"; "Sid"; "TTYNr"; "TTYPgrp"; "Flags"; "MinFlt"; "CminFlt"; "MajFlt"; "CmajFlt";
   "Utime"; "Stime"; "Cutime"; "Cstime"; "Priority"; "Nice"; "NumThreads"; "ItRealValue"; "StartTime"; "Vsize"; "Rss"; "Rsslim";
   "StartCode"; "EndCode"; "StartStack"; "Esp"; "Eip"; "Pending"; "Blocked"; "Sigign"; "Sigcatch"; "Wchan"; "Zero1"; "Zero2";
   "ExitSignal"; "TaskCpu"; "RtPriority"; "Policy"; "BlkioTicks"; "Gtime"; "Cgtime"; "StartData"; "EndData"; "StartBrk";
   "ArgStart"; "ArgEnd"; "EnvStart"; "EnvEnd"; "ExitCode"; "Ctty"; "Time"]%string.

(** A process: the strings of its fields. *)
Abbreviation process := (list bytes).

Definition new_process : process := replicate 54 [].

Definition field_index (f : bytes) : nat :=
  match list_find (fun g => g = f) process_fields with Some (i, _) => i | None => 54 end.

(** [getField] and [Search] for the name of a field. *)
Definition getField (p : process) (f : bytes) : bytes := default [] (p !! field_index f).

Definition setField (p : process) (f v : bytes) : process := <[field_index f := v]> p.

(** [fields[i]] into [v.Field(i)]: more fields than the struct has are a crash. *)
Fixpoint set_fields (p : process) (i : nat) (fields : list bytes) : outcome error process :=
  match fields with
  | [] => Ret p
  | v :: fields => if (i <? 54)%nat then set_fields (<[i := v]> p) (S i) fields else Panic
  end.

Definition pad2 (z : Z) : bytes :=
  if z <? 0 then str "-" ++ replicate (2 - length (Itoa z)) x30 ++ Itoa (- z)
  else replicate (2 - length (Itoa z)) x30 ++ Itoa z.

Definition USER_HZ : Z := 100.

(** [getTime]: quotients and remainders of Go. *)
Definition ps_getTime (p : process) : bytes :=
  let utime := fst (Atoi (getField p (str "Utime"))) in
  let stime := fst (Atoi (getField p (str "Stime"))) in
  let jiffies := i64 (utime + stime) in
  let tsecs := jiffies `quot` USER_HZ in
  let secs := Z.rem tsecs 60 in
  let mins := Z.rem (tsecs `quot` 60) 60 in
  let hrs := tsecs `quot` 3600 in
  pad2 hrs ++ str ":" ++ pad2 mins ++ str ":" ++ pad2 secs.

Section Proc.
(** Reading files and links. *)
Context (ReadFile Readlink : bytes -> bytes + error).

Definition procfile (pid f : bytes) : bytes := PathJoin [str "/proc"; pid; f].

Definition getCtty (p : process) : bytes :=
  match Readlink (procfile (getField p (str "Pid")) (str "fd/0")) with
  | inr _ => str "?"
  | inl tty =>
      if negb (bytes_eqb (getField p (str "TTYPgrp")) (str "-1")) then
        if (5 <? zlen tty) && bytes_eqb (take 5 tty) (str "/dev/") then drop 5 tty else tty
      else str "?"
  end.

Definition readStat (pid : Z) : outcome error process :=
  match ReadFile (procfile (Itoa pid) (str "stat")) with
  | inr e => Fail e
  | inl b =>
      p ← set_fields new_process 0 (Split x20 b);
      let p := setField p (str "Time") (ps_getTime p) in
      let p := setField p (str "Ctty") (getCtty p) in
      let cmd := getField p (str "Cmd") in
      c ← or_panic (slice cmd 1 (zlen cmd - 1));
      Ret (setField p (str "Cmd") c)
  end.

(** The first line with [Uid] in it; the error of a file that cannot be read stays unless there is
    such a line. *)
Fixpoint uid_line (lines : list bytes) (err : option error) : outcome error (Z * option error) :=
  match lines with
  | [] => Ret (0, err)
  | l :: lines =>
      if Contains l (str "Uid") then
        f ← or_panic (Split x09 l !! 1%nat);
        Ret (match Atoi f with (v, None) => (v, None) | (v, Some _) => (v, Some (Errorf "strconv.Atoi: parsing %q: %v")) end)
      else uid_line lines err
  end.

Definition getUid (p : process) : outcome error (Z * option error) :=
  match ReadFile (procfile (getField p (str "Pid")) (str "status")) with
  | inl b => uid_line (Split x0a b) None
  | inr e => uid_line (Split x0a []) (Some e)
  end.

(** [LoadTable] on the names in [/proc]; ENOENT is a process that has ended. *)
Fixpoint LoadTable (matches : list bytes) : outcome error (list process) :=
  match matches with
  | [] => Ret []
  | m :: matches =>
      match Atoi (Base m) with
      | (_, Some _) => LoadTable matches
      | (pid, None) =>
          match readStat pid with
          | Ret p => ps ← LoadTable matches; Ret (p :: ps)
          | Fail e => if bool_decide (e = Errno 2) then LoadTable matches else Fail e
          | Panic => Panic
          end
      end
  end.

(** ** The table *)

Definition pid_of (p : process) : Z := fst (Atoi (getField p (str "Pid"))).

Definition pid_le (p q : process) : Prop := pid_of p <= pid_of q.
#[export] Instance pid_le_dec : RelDecision pid_le := fun p q => decide (pid_of p <= pid_of q).

#[export] Instance pid_le_total : Total pid_le.
Proof. intros p q. unfold pid_le. lia. Qed.

Definition GetProcess (table : list process) (pid : Z) : option process :=
  List.find (fun p => bytes_eqb (getField p (str "Pid")) (Itoa pid)) table.

Definition max (l : list Z) : option Z :=
  match l with [] => None | x :: _ => Some (foldl (fun m v => if m <? v then v else m) x l) end.

Definition MaxLenght (table : list process) (field : bytes) : outcome error Z :=
  or_panic (max ((fun p => zlen (getField p field)) <$> table)).

(** A format [%Nv] or [%-Nv] with the text after it. *)
Record fmtcol := MkCol { left : bool; width : Z; after : bytes }.

Definition Sprintf (c : fmtcol) (v : bytes) : bytes :=
  let fill := replicate (Z.to_nat (width c) - length (runes v)) x20 in
  (if left c then v ++ fill else fill ++ v) ++ after c.

(** The formats of [PrepareString]: a header without a case of its own takes the previous one, an
    empty format before the first. *)
Fixpoint columns (PID TTY STAT TIME CMD : Z) (formated : option fmtcol) (headers : list bytes) : list (option fmtcol) :=
  match headers with
  | [] => []
  | f :: headers =>
      let formated :=
        if bytes_eqb f (str "PID") then Some (MkCol false PID (str " "))
        else if bytes_eqb f (str "TTY") then Some (MkCol true TTY (str "    "))
        else if bytes_eqb f (str "STAT") then Some (MkCol true STAT (str "    "))
        else if bytes_eqb f (str "TIME") then Some (MkCol false TIME (str " "))
        else if bytes_eqb f (str "CMD") then Some (MkCol true CMD (str " "))
        else formated in
      formated :: columns PID TTY STAT TIME CMD formated headers
  end.

Definition PrepareString (table : list process) (headers : list bytes) : outcome error (list (option fmtcol)) :=
  PID ← MaxLenght table (str "Pid");
  TTY ← MaxLenght table (str "Ctty");
  STAT ← MaxLenght table (str "State");
  TIME ← MaxLenght table (str "Time");
  CMD ← MaxLenght table (str "Cmd");
  Ret (columns PID TTY (Z.lor 4 STAT) TIME CMD None headers).

(** An empty format with an operand prints the operand as an error of [fmt]. *)
Definition Sprintf_opt (c : option fmtcol) (v : bytes) : bytes :=
  match c with Some c => Sprintf c v | None => str "%!(EXTRA string=" ++ v ++ str ")" end.

(** [PrintHeader] and [PrintProcess]. *)
Definition print_row (fstring : list (option fmtcol)) (vs : list bytes) : bytes :=
  concat (zip_with Sprintf_opt fstring vs) ++ [x0a].

Record psflags := MkPs { all : bool; nSidTty : bool; ps_x : bool; aux : bool }.

(** The pieces of [strings.Split(s, "")]. *)
Fixpoint explode_fuel (fuel : nat) (s : bytes) : list bytes :=
  match fuel, s with
  | S fuel, _ :: _ => let '(r, w) := DecodeRune s in EncodeRune r :: explode_fuel fuel (drop w s)
  | _, _ => []
  end.
Definition explode (s : bytes) : list bytes := explode_fuel (length s) s.

(** The indices of [for i := range check]. *)
Fixpoint range_fuel (fuel : nat) (i : nat) (s : bytes) : list nat :=
  match fuel, s with
  | S fuel, _ :: _ => let w := snd (DecodeRune s) in i :: range_fuel fuel (i + w) (drop w s)
  | _, _ => []
  end.

Fixpoint same_at (idx : list nat) (a b : list bytes) : outcome error bool :=
  match idx with
  | [] => Ret true
  | i :: idx =>
      x ← or_panic (a !! i);
      y ← or_panic (b !! i);
      if bytes_eqb x y then same_at idx a b else Ret false
  end.

Definition isPermutation (check ref : bytes) : outcome error bool :=
  if negb (zlen check =? zlen ref) then Ret false
  else same_at (range_fuel (length check) 0 check) (merge_sort bytes_le (explode check)) (merge_sort bytes_le (explode ref)).

Definition headers_of (f : psflags) : list bytes * list bytes :=
  if aux f then (str <$> ["PID"; "PGRP"; "SID"; "TTY"; "STAT"; "TIME"; "COMMAND"]%string,
                 str <$> ["Pid"; "Pgrp"; "Sid"; "Ctty"; "State"; "Time"; "Cmd"]%string)
  else if ps_x f then (str <$> ["PID"; "TTY"; "STAT"; "TIME"; "COMMAND"]%string, str <$> ["Pid"; "Ctty"; "State"; "Time"; "Cmd"]%string)
  else (str <$> ["PID"; "TTY"; "TIME"; "CMD"]%string, str <$> ["Pid"; "Ctty"; "Time"; "Cmd"]%string).

(** Whether the row of [p], owned by [uid], is printed; without flags the process of [ps] itself
    must have been found. *)
Definition shown (f : psflags) (eUID : Z) (mProc : option process) (uid : Z) (p : process) : outcome error bool :=
  let sid := getField p (str "Sid") in
  if nSidTty f then Ret (negb (bytes_eqb sid (getField p (str "Pid")) || bytes_eqb (getField p (str "Ctty")) (str "?")))
  else if ps_x f then Ret (eUID =? uid)
  else if all f then Ret true
  else match mProc with
       | None => Panic
       | Some m => Ret (negb (negb (bytes_eqb sid (getField m (str "Sid"))) || negb (eUID =? uid)))
       end.

Fixpoint print_rows (f : psflags) (eUID : Z) (mProc : option process) (fstring : list (option fmtcol)) (fields : list bytes)
    (table : list process) (out : bytes) : bytes * outcome error unit :=
  match table with
  | [] => (out, Ret tt)
  | p :: table =>
      match getUid p with
      | Panic => (out, Panic)
      | Fail e => (out, Fail e)
      | Ret (_, Some e) =>
          if bool_decide (e = Errno 2) then print_rows f eUID mProc fstring fields table out else (out, Fail e)
      | Ret (uid, None) =>
          match shown f eUID mProc uid p with
          | Ret true => print_rows f eUID mProc fstring fields table (out ++ print_row fstring (getField p <$> fields))
          | Ret false => print_rows f eUID mProc fstring fields table out
          | Fail e => (out, Fail e)
          | Panic => (out, Panic)
          end
      end
  end.

(** [ps]: the output and how it ends; pids are distinct, so the order of the sort is determined. *)
Definition ps (f : psflags) (eUID mainPID : Z) (table : list process) : bytes * outcome error unit :=
  let table := merge_sort pid_le table in
  let '(headers, fields) := headers_of f in
  let mProc := GetProcess table mainPID in
  match PrepareString table headers with
  | Ret fstring => print_rows f eUID mProc fstring fields table (print_row fstring headers)
  | Fail e => ([], Fail e)
  | Panic => ([], Panic)
  end.

(** [main] with the flags of [init]; [args] are the command line arguments. *)
Definition ps_main (f : psflags) (args : list bytes) (eUID mainPID : Z) (matches : list bytes) : bytes * outcome error unit :=
  match match args with a :: _ => isPermutation a (str "aux") | [] => Ret false end with
  | Panic => ([], Panic)
  | Fail e => ([], Fail e)
  | Ret isaux =>
      let f := if isaux : bool then MkPs true (nSidTty f) (ps_x f) true else f in
      match LoadTable matches with
      | Ret t => ps f eUID mainPID t
      | Fail e => ([], Fail e)
      | Panic => ([], Panic)
      end
  end.
End Proc.

(** ** The argument [aux] *)

Definition ascii (s : bytes) : Prop := Forall (fun c => b2z c < 0x80) s.

Lemma explode_ascii s : ascii s -> explode s = (fun c => [c]) <$> s.
Proof.
  unfold explode. induction 1 as [|c s Hc Hs IH]; [done|]. cbn [length explode_fuel].
  rewrite DecodeRune_ascii by done. cbn [drop]. rewrite drop_0, IH, EncodeRune_ascii by done. done.
Qed.

Lemma range_ascii s i : ascii s -> range_fuel (length s) i s = seq i (length s).
Proof.
  intros H. revert i. induction H as [|c s Hc Hs IH]; intros i; [done|]. cbn [length range_fuel seq].
  rewrite DecodeRune_ascii by done. cbn [snd drop]. by rewrite drop_0, Nat.add_1_r, IH.
Qed.

Lemma same_at_seq n i a b :
  length a = (i + n)%nat -> length b = (i + n)%nat ->
  same_at (seq i n) a b = Ret (bool_decide (drop i a = drop i b)).
Proof.
  revert i. induction n as [|n IH]; intros i Ha Hb; cbn [seq same_at].
  - rewrite !drop_ge by lia. done.
  - destruct (lookup_lt_is_Some_2 a i ltac:(lia)) as [x Hx], (lookup_lt_is_Some_2 b i ltac:(lia)) as [y Hy].
    rewrite Hx, Hy. cbn [or_panic mbind outcome_bind]. rewrite (drop_S a x i Hx), (drop_S b y i Hy).
    destruct (bytes_eqb x y) eqn:E.
    + apply bytes_eqb_eq in E as ->. rewrite IH by lia. f_equal. apply bool_decide_ext. split; [by intros ->|by intros [= ->]].
    + rewrite bool_decide_eq_false_2; [done|]. intros [= -> _]. by rewrite bytes_eqb_refl in E.
Qed.

(** [isPermutation] decides whether ASCII strings are permutations of each other. *)
Lemma isPermutation_spec check ref :
  ascii check -> ascii ref ->
  exists b, isPermutation check ref = Ret b /\ (b = true <-> check ≡ₚ ref).
Proof.
  intros Hc Hr. unfold isPermutation. destruct (Z.eqb_spec (zlen check) (zlen ref)) as [Hl|Hl]; cbn [negb].
  - rewrite range_ascii, !explode_ascii by done. unfold zlen in Hl.
    rewrite same_at_seq by (rewrite merge_sort_Permutation, length_fmap; lia). rewrite !drop_0.
    eexists. split; [done|]. rewrite bool_decide_eq_true. split.
    + intros E. assert ((fun c : byte => [c]) <$> check ≡ₚ (fun c => [c]) <$> ref) as Hp.
      { rewrite <- (merge_sort_Permutation bytes_le ((fun c => [c]) <$> check)), E. apply merge_sort_Permutation. }
      apply (fmap_Permutation (fun l : bytes => default x00 (head l))) in Hp. rewrite <- !list_fmap_compose in Hp.
      rewrite !list_fmap_id in Hp. done.
    + intros Hp. apply (Sorted_unique bytes_le); [apply Sorted_merge_sort; apply _|apply Sorted_merge_sort; apply _|].
      rewrite !merge_sort_Permutation. by rewrite Hp.
  - eexists. split; [done|]. split; [done|]. intros Hp. apply Permutation_length in Hp. unfold zlen in Hl. lia.
Qed.

(** A character of two bytes makes it crash. *)
Example isPermutation_multibyte : isPermutation [xc3; xa9; x61] (str "aux") = Panic. Proof. reflexivity. Qed.

(** ** Reading a stat file *)

Lemma set_fields_spec p i fields :
  length p = 54%nat ->
  set_fields p i fields = if (i + length fields <=? 54)%nat || (length fields =? 0)%nat
                          then Ret (take i p ++ fields ++ drop (i + length fields) p) else Panic.
Proof.
  revert p i. induction fields as [|v fields IH]; intros p i Hp; cbn [set_fields length].
  - rewrite orb_true_r, Nat.add_0_r. cbn. by rewrite take_drop.
  - rewrite orb_false_r. destruct (Nat.ltb_spec i 54).
    + rewrite IH by (by rewrite length_insert). rewrite Nat.add_succ_comm.
      destruct (Nat.leb_spec (i + S (length fields)) 54); cbn [orb].
      * rewrite (take_S_r _ _ v) by (apply list_lookup_insert_eq; lia). rewrite take_insert_ge, drop_insert_lt by lia.
        by rewrite <- app_assoc.
      * destruct (Nat.eqb_spec (length fields) 0); [lia|done].
    + destruct (Nat.leb_spec (i + S (length fields)) 54); [lia|done].
Qed.

Section Stat.
Context (ReadFile Readlink : bytes -> bytes + error).

(** A stat line of 52 words is read field by field; the command loses its parentheses. *)
Lemma readStat_fields pid fields c :
  length fields = 52%nat -> Forall (fun f => x20 ∉ f) fields -> fields !! 1%nat = Some (str "(" ++ c ++ str ")") ->
  ReadFile (procfile (Itoa pid) (str "stat")) = inl (Join [x20] fields) ->
  exists p, readStat ReadFile Readlink pid = Ret p /\ getField p (str "Cmd") = c /\
    forall i, (i < 52)%nat -> i <> 1%nat -> p !! i = fields !! i.
Proof.
  intros Hl Hf Hc Hr. unfold readStat. rewrite Hr, Split_Join by (done || by destruct fields).
  rewrite set_fields_spec, Hl by done. cbn [Nat.add Nat.leb orb take app mbind outcome_bind]. rewrite take_0. cbn [app].
  set (p := fields ++ _). unfold setField, getField. change (field_index (str "Time")) with 53%nat.
  change (field_index (str "Ctty")) with 52%nat. change (field_index (str "Cmd")) with 1%nat.
  assert (length p = 54%nat) as Hp by (unfold p; rewrite length_app, length_drop; cbn; lia).
  assert (p !! 1%nat = Some (str "(" ++ c ++ str ")")) as Hp1 by (unfold p; by rewrite lookup_app_l by lia).
  rewrite !list_lookup_insert_ne by lia. rewrite Hp1. cbn [default from_option id].
  assert (zlen (str "(" ++ c ++ str ")") = zlen c + 2) as Hz by (rewrite !zlen_app; change (zlen (str "(")) with 1; change (zlen (str ")")) with 1; lia).
  pose proof (zlen_nonneg c). rewrite slice_Some by lia. cbn [or_panic mbind outcome_bind]. eexists. split_and!; [done| |].
  - rewrite list_lookup_insert_eq by (rewrite !length_insert; lia). cbn [default from_option id]. change (Z.to_nat 1) with 1%nat.
    change (drop 1 (str "(" ++ c ++ str ")")) with (drop 0 (c ++ str ")")). rewrite drop_0.
    rewrite Hz. replace (Z.to_nat _) with (length c) by (unfold zlen; lia). by rewrite take_app_length.
  - intros i Hi Hi1. rewrite !list_lookup_insert_ne by lia. unfold p. by rewrite lookup_app_l by lia.
Qed.

(** More words than the struct has fields, as for a command with three spaces in its name, make
    [ps] crash. *)
Lemma readStat_too_many pid b :
  ReadFile (procfile (Itoa pid) (str "stat")) = inl b -> (54 < length (Split x20 b))%nat ->
  readStat ReadFile Readlink pid = Panic.
Proof.
  intros Hr Hl. unfold readStat. rewrite Hr, set_fields_spec by done. cbn [Nat.add].
  destruct (Nat.leb_spec (length (Split x20 b)) 54); [lia|]. by destruct (Nat.eqb_spec (length (Split x20 b)) 0); [lia|].
Qed.

(** ** The rows *)

Definition visible (f : psflags) (eUID : Z) (mProc : option process) (own : process -> Z) (p : process) : bool :=
  match shown f eUID mProc (own p) p with Ret b => b | _ => false end.

Lemma print_rows_spec f eUID mProc fstring fields (own : process -> Z) table out :
  (forall p, p ∈ table -> getUid ReadFile p = Ret (own p, None)) ->
  (nSidTty f || ps_x f || all f = true \/ mProc <> None) ->
  print_rows ReadFile f eUID mProc fstring fields table out =
    (out ++ concat ((fun p => print_row fstring (getField p <$> fields)) <$> List.filter (visible f eUID mProc own) table), Ret tt).
Proof.
  intros Ho Hm. revert out. induction table as [|p table IH]; intros out; cbn [print_rows].
  - cbn. by rewrite app_nil_r.
  - rewrite (Ho p) by left. assert (shown f eUID mProc (own p) p = Ret (visible f eUID mProc own p)) as Hs.
    { unfold visible, shown. destruct (nSidTty f), (ps_x f), (all f), mProc; try done. by destruct Hm. }
    rewrite Hs. cbn [List.filter]. assert (forall q, q ∈ table -> getUid ReadFile q = Ret (own q, None)) as Ho'
      by (intros q Hq; apply Ho; by right).
    destruct (visible f eUID mProc own p); rewrite IH by done; [|done]. cbn [fmap list_fmap concat]. by rewrite <- app_assoc.
Qed.
End Stat.

Lemma filter_perm {A} (g : A -> bool) l k : l ≡ₚ k -> List.filter g l ≡ₚ List.filter g k.
Proof.
  induction 1 as [|x l k _ IH|x y l|l k m _ IH1 _ IH2]; cbn [List.filter]; [done| | |by etrans].
  - destruct (g x); [by constructor|done].
  - destruct (g x), (g y); try done. constructor.
Qed.

Lemma PrepareString_Ret table headers : table <> [] -> exists fs, PrepareString table headers = Ret fs.
Proof. intros H. unfold PrepareString, MaxLenght. destruct table as [|p t]; [done|]. cbn. eauto. Qed.

(** When the owner of every process can be read, [ps] prints the header and one row for each
    process that the flags select, in the order of their numbers. *)
Theorem ps_output (ReadFile : bytes -> bytes + error) (f : psflags) (eUID mainPID : Z) (table : list process) (own : process -> Z) :
  table <> [] ->
  (forall p, p ∈ table -> getUid ReadFile p = Ret (own p, None)) ->
  (nSidTty f || ps_x f || all f = true \/ GetProcess (merge_sort pid_le table) mainPID <> None) ->
  exists fstring rows,
    rows ≡ₚ List.filter (visible f eUID (GetProcess (merge_sort pid_le table) mainPID) own) table /\ Sorted pid_le rows /\
    ps ReadFile f eUID mainPID table =
      (print_row fstring (headers_of f).1 ++ concat ((fun p => print_row fstring (getField p <$> (headers_of f).2)) <$> rows), Ret tt).
Proof.
  intros Hne Ho Hm. unfold ps. destruct (headers_of f) as [headers fields]. cbn [fst snd].
  set (t := merge_sort pid_le table) in *. assert (t ≡ₚ table) as Ht by apply merge_sort_Permutation.
  destruct (PrepareString_Ret t headers) as [fstring ->]; [intros E; rewrite E in Ht; by apply Permutation_nil_l in Ht|].
  exists fstring, (List.filter (visible f eUID (GetProcess t mainPID) own) t). split_and!.
  - by apply filter_perm.
  - assert (Sorted pid_le t) as Hs by (apply Sorted_merge_sort; apply _).
    apply Sorted_StronglySorted in Hs; [|intros p q r; unfold pid_le; lia]. apply StronglySorted_Sorted.
    generalize (visible f eUID (GetProcess t mainPID) own) as g. intros g. clear -Hs.
    induction Hs as [|p t Hs IH Hp]; cbn [List.filter]; [constructor|]. destruct (g p); [|done].
    constructor; [done|]. rewrite Forall_forall in Hp |- *. intros q Hq. apply Hp. rewrite list_elem_of_In in *.
    by apply List.filter_In in Hq as [? _].
  - apply (print_rows_spec _ _ _ _ _ _ own); [|done]. intros p Hp. apply Ho. by rewrite <- Ht.
Qed.

(** Two processes of the user and one of another. *)
Definition toy_proc (pid sid tty : string) : process :=
  setField (setField (setField (setField (setField new_process (str "Pid") (str pid)) (str "Sid") (str sid)) (str "Ctty") (str tty))
    (str "Cmd") (str "sh")) (str "Time") (str "00:00:01").

Definition toy_ReadFile (f : bytes) : bytes + error :=
  if bytes_eqb f (str "/proc/1/status") then inl (str "Name:	init
Uid:	0	0	0	0
")
  else inl (str "Uid:	1000	1000	1000	1000
").

Definition toy_table : list process := [toy_proc "12" "9" "tty1"; toy_proc "1" "1" "?"; toy_proc "9" "9" "tty1"].

Example ps_ex : ps toy_ReadFile (MkPs false false false false) 1000 12 toy_table = (str "PID TTY         TIME CMD 
 9 tty1    00:00:01 sh 
12 tty1    00:00:01 sh 
", Ret tt).
Proof. vm_compute. reflexivity. Qed.

Lemma ps_output_witness :
  exists fstring rows,
    rows ≡ₚ List.filter (visible (MkPs false false false false) 1000 (GetProcess (merge_sort pid_le toy_table) 12)
      (fun p => if bytes_eqb (getField p (str "Pid")) (str "1") then 0 else 1000)) toy_table /\ Sorted pid_le rows /\
    ps toy_ReadFile (MkPs false false false false) 1000 12 toy_table =
      (print_row fstring (headers_of (MkPs false false false false)).1 ++
       concat ((fun p => print_row fstring (getField p <$> (headers_of (MkPs false false false false)).2)) <$> rows), Ret tt).
Proof.
  apply (ps_output toy_ReadFile (MkPs false false false false) 1000 12 toy_table
    (fun p => if bytes_eqb (getField p (str "Pid")) (str "1") then 0 else 1000)).
  - done.
  - intros p Hp. unfold toy_table in Hp. rewrite !elem_of_cons in Hp.
    repeat destruct Hp as [->|Hp]; [reflexivity|reflexivity|reflexivity|by apply not_elem_of_nil in Hp].
  - right. vm_compute. done.
Defined.

(** The last column of [ps aux] has the format of the one before: [COMMAND] is aligned right in the
    width of the times. *)
Example ps_command_column : (columns 1 1 5 8 2 None (headers_of (MkPs true false false true)).1) !! 6%nat = Some (Some (MkCol false 8 (str " "))).
Proof. reflexivity. Qed.

(** A command with a space in its name shifts the fields: the state of the process is the rest of
    its name. *)
Example readStat_space :
  match readStat (fun _ => inl (str "7 (tmux: server) S 1 7 7 0 -1 0")) (fun _ => inr (Errno 2)) 7 with
  | Ret p => (getField p (str "Cmd"), getField p (str "State"))
  | _ => ([], [])
  end = (str "tmux", str "server)").
Proof. reflexivity. Qed.
