(* ===== verification/Pci.v ===== *)
(** * PCI devices ([pkg/pci], [cmds/pci])

    The search of the identifier table ([lookup], a state machine over its lines), reading a device
    from sysfs and the listing.  The table, the files and the names in sysfs are parameters. *)

From Stdlib Require Import Strings.String.
From S2P Require Export GoPath GoText.

Definition isHex (b : byte) : bool :=
  let v := b2z b in ((97 <=? v) && (v <=? 102)) || ((65 <=? v) && (v <=? 70)) || ((48 <=? v) && (v <=? 57)).

Inductive lstate := FindingVendor | FindingDevice.

(** [s[:4]]: a shorter string is a crash. *)
Definition first4 (s : bytes) : outcome error bytes := or_panic (slice s 0 4).

(** The loop over the lines. *)
Fixpoint lookup_loop (vendor device : bytes) (lines : list bytes) (state : lstate) (vendorName : bytes) : outcome error (bytes * bytes) :=
  match lines with
  | [] => Ret (vendorName, device)
  | line :: lines =>
      let next := lookup_loop vendor device lines in
      match line with
      | c0 :: c1 :: _ =>
          if (zlen line <? 7) || byte_eqb c0 x23 then next state vendorName
          else match state with
          | FindingVendor =>
              if isHex c0 && isHex c1 then
                v ← first4 vendor;
                if bytes_eqb v (take 4 line) then next FindingDevice (drop 6 line) else next state vendorName
              else next state vendorName
          | FindingDevice =>
              if bytes_eqb (take 2 line) [x09; x09] then next state vendorName
              else if negb (byte_eqb c0 x09) || negb (isHex c1) then Ret (vendorName, device)
              else
                d ← first4 device;
                if bytes_eqb d (take 4 (drop 1 line)) then Ret (vendorName, drop 7 line) else next state vendorName
          end
      | _ => next state vendorName
      end
  end.

Section Bus.
(** The table of identifiers, the files of sysfs and the flag [-n]. *)
Context (pciids : bytes) (ReadFile : bytes -> bytes + error) (numbers : bool).

Definition lookup (vendor device : bytes) : outcome error (bytes * bytes) :=
  lookup_loop vendor device (fst (ScanLines pciids)) FindingVendor vendor.

Record PCI := MkPCI { Addr : bytes; Vendor : bytes; Device : bytes; VendorName : bytes; DeviceName : bytes }.

Definition String (p : PCI) : bytes :=
  if numbers then Addr p ++ str ": " ++ Vendor p ++ str ":" ++ Device p
  else Addr p ++ str ": " ++ VendorName p ++ str " " ++ DeviceName p.

(** One tagged field: the file without [0x] and the line feed. *)
Definition read_field (dir n : bytes) : outcome error bytes :=
  match ReadFile (PathJoin [dir; n]) with
  | inr e => Fail e
  | inl s => or_panic (slice s 2 (zlen s - 1))
  end.

Definition onePCI (dir : bytes) : outcome error PCI :=
  v ← read_field dir (str "vendor");
  d ← read_field dir (str "device");
  if negb numbers then
    '(vn, dn) ← lookup v d; Ret (MkPCI [] v d vn dn)
  else Ret (MkPCI [] v d [] []).

Fixpoint Read (Devices : list bytes) : outcome error (list PCI) :=
  match Devices with
  | [] => Ret []
  | d :: ds =>
      p ← onePCI d;
      ps ← Read ds;
      Ret (MkPCI (Base d) (Vendor p) (Device p) (VendorName p) (DeviceName p) :: ps)
  end.

(** [NewBusReader] and [main]: the printed listing. *)
Definition pci_main (globs : list bytes + error) : outcome error bytes :=
  match globs with
  | inr e => Fail e
  | inl ds => devs ← Read ds; Ret (unlines (String <$> devs))
  end.
End Bus.

(** ** Tables *)

(** The lines of an identifier file; noise is what the search discards. *)
Inductive item :=
| IVendor (id name : bytes)
| IDevice (id name : bytes)
| ISub (text : bytes)
| INoise (l : bytes).

Definition item_line (i : item) : bytes :=
  match i with
  | IVendor id name => id ++ str "  " ++ name
  | IDevice id name => x09 :: id ++ str "  " ++ name
  | ISub t => x09 :: x09 :: t
  | INoise l => l
  end.

Definition hex4 (id : bytes) : Prop := length id = 4%nat /\ forallb isHex id = true.

Definition item_ok (i : item) : Prop :=
  scannable (item_line i) /\
  match i with
  | IVendor id name => hex4 id /\ name <> []
  | IDevice id name => hex4 id
  | ISub t => (5 <= length t)%nat
  | INoise l => (length l < 7)%nat \/ head l = Some x23
  end.

(** The first vendor with an identifier, and what follows it. *)
Fixpoint find_vendor (v : bytes) (t : list item) : option (bytes * list item) :=
  match t with
  | [] => None
  | IVendor id name :: t => if bytes_eqb v id then Some (name, t) else find_vendor v t
  | _ :: t => find_vendor v t
  end.

(** The first device with an identifier before the next vendor. *)
Fixpoint find_device (d : bytes) (t : list item) : option bytes :=
  match t with
  | [] => None
  | IVendor _ _ :: _ => None
  | IDevice id name :: t => if bytes_eqb d id then Some name else find_device d t
  | _ :: t => find_device d t
  end.

Lemma hex4_chars id : hex4 id -> exists a b c d, id = [a; b; c; d] /\ isHex a = true /\ isHex b = true.
Proof.
  intros [Hl Hh]. destruct id as [|a [|b [|c [|d [|? ?]]]]]; try done. cbn in Hh.
  apply andb_prop in Hh as [Ha Hh]. apply andb_prop in Hh as [Hb _]. by exists a, b, c, d.
Qed.

Lemma first4_hex id : hex4 id -> first4 id = Ret id.
Proof. intros (a & b & c & d & -> & _)%hex4_chars. done. Qed.

Lemma isHex_not_hash c : isHex c = true -> byte_eqb c x23 = false.
Proof. intros H. apply byte_eqb_neq. by intros ->. Qed.

Lemma noise_skipped v d l ls st vn :
  (length l < 7)%nat \/ head l = Some x23 -> lookup_loop v d (l :: ls) st vn = lookup_loop v d ls st vn.
Proof.
  intros H. destruct l as [|c0 [|c1 l]]; [done|done|]. cbn [lookup_loop]. destruct (Z.ltb_spec (zlen (c0 :: c1 :: l)) 7) as [Hl|Hl]; [done|].
  destruct H as [H|[= ->]]; [unfold zlen in Hl; lia|]. by rewrite byte_eqb_refl.
Qed.

Lemma zlen_ge7 (l : bytes) : (7 <= length l)%nat -> (zlen l <? 7) = false.
Proof. intros H. apply Z.ltb_ge. unfold zlen. lia. Qed.

(** One line in each state. *)
Lemma lookup_item_vendor v d i ls st vn :
  hex4 v -> hex4 d -> item_ok i ->
  lookup_loop v d (item_line i :: ls) FindingVendor st =
    match i with
    | IVendor id name => if bytes_eqb v id then lookup_loop v d ls FindingDevice name else lookup_loop v d ls FindingVendor st
    | _ => lookup_loop v d ls FindingVendor st
    end /\
  lookup_loop v d (item_line i :: ls) FindingDevice vn =
    match i with
    | IVendor _ _ => Ret (vn, d)
    | IDevice id name => if bytes_eqb d id then Ret (vn, name) else lookup_loop v d ls FindingDevice vn
    | _ => lookup_loop v d ls FindingDevice vn
    end.
Proof.
  intros Hv Hd [_ Hi]. destruct i as [id name|id name|t|l]; [..|by rewrite !noise_skipped].
  - destruct Hi as [Hi Hn]. destruct (hex4_chars id Hi) as (a & b & c & e & -> & Ha & Hb). cbn [item_line app lookup_loop].
    rewrite zlen_ge7 by (destruct name; [done|cbn; lia]). rewrite (isHex_not_hash a), Ha, Hb, first4_hex by done.
    assert (byte_eqb a x09 = false) as Ht by (apply byte_eqb_neq; by intros ->). cbn [orb andb mbind outcome_bind]. split.
    + change (take 4 (a :: b :: c :: e :: str "  " ++ name)) with [a; b; c; e].
      by change (drop 6 (a :: b :: c :: e :: str "  " ++ name)) with (drop 0 name).
    + rewrite Ht. change (take 2 (a :: b :: c :: e :: str "  " ++ name)) with [a; b].
      rewrite bytes_eqb_neq; [done|]. intros [= -> _]. done.
  - destruct (hex4_chars id Hi) as (a & b & c & e & -> & Ha & Hb). cbn [item_line app lookup_loop].
    rewrite zlen_ge7 by (cbn; lia). change (byte_eqb x09 x23) with false. change (byte_eqb x09 x09) with true.
    change (isHex x09) with false. cbn [orb andb negb]. split; [done|].
    change (take 2 (x09 :: a :: b :: c :: e :: str "  " ++ name)) with [x09; a].
    rewrite bytes_eqb_neq by (intros [= ->]; done). rewrite Ha, first4_hex by done. cbn [negb mbind outcome_bind].
    change (take 4 (drop 1 (x09 :: a :: b :: c :: e :: str "  " ++ name))) with [a; b; c; e].
    by change (drop 7 (x09 :: a :: b :: c :: e :: str "  " ++ name)) with (drop 0 name).
  - cbn [item_line lookup_loop]. rewrite zlen_ge7 by (cbn; lia). done.
Qed.

Lemma lookup_devices v d t vn :
  hex4 v -> hex4 d -> Forall item_ok t ->
  lookup_loop v d (item_line <$> t) FindingDevice vn = Ret (vn, default d (find_device d t)).
Proof.
  intros Hv Hd. induction 1 as [|i t Hi _ IH]; [done|]. rewrite fmap_cons.
  destruct (lookup_item_vendor v d i (item_line <$> t) [] vn Hv Hd Hi) as [_ ->].
  destruct i as [id name|id name|?|?]; cbn [find_device]; [done| |done|done]. by destruct (bytes_eqb d id).
Qed.

(** [lookup] finds the name of the first vendor with the identifier, and among the devices
    listed below it the name of the first one with the identifier; a number that is not in the
    table stands for itself. *)
Theorem lookup_table (t : list item) (v d : bytes) :
  hex4 v -> hex4 d -> Forall item_ok t ->
  lookup (unlines (item_line <$> t)) v d =
    Ret (match find_vendor v t with
         | Some (name, rest) => (name, default d (find_device d rest))
         | None => (v, d)
         end).
Proof.
  intros Hv Hd Ht. unfold lookup. rewrite ScanLines_unlines.
  2:{ apply Forall_fmap. eapply Forall_impl; [exact Ht|]. by intros i [? _]. }
  cbn [fst]. generalize v at 2 4 as vn. intros vn. revert vn.
  induction Ht as [|i t Hi Ht IH]; intros vn; [done|]. rewrite fmap_cons.
  destruct (lookup_item_vendor v d i (item_line <$> t) vn [] Hv Hd Hi) as [-> _].
  destruct i as [id name|id name|?|?]; cbn [find_vendor]; [|apply IH|apply IH|apply IH].
  destruct (bytes_eqb v id); [by rewrite lookup_devices|apply IH].
Qed.

Definition toy_ids : list item :=
  [INoise (str "# Vendors"); INoise []; IVendor (str "0010") (str "Allied Telesis, Inc (Wrong ID)");
   INoise (str "# This is a relabelled RTL-8139"); IDevice (str "8139") (str "AT-2500TX V3 Ethernet");
   IVendor (str "8086") (str "Intel Corporation"); IDevice (str "0007") (str "82379AB");
   ISub (str "8086 1234  Sub"); IDevice (str "100e") (str "82540EM Gigabit Ethernet Controller")].

Definition item_okb (i : item) : bool :=
  let l := item_line i in
  negb (bool_decide (x0a ∈ l)) && negb (bool_decide (x0d ∈ l)) && (length l <? 100)%nat &&
  match i with
  | IVendor id name => (length id =? 4)%nat && forallb isHex id && negb (length name =? 0)%nat
  | IDevice id name => (length id =? 4)%nat && forallb isHex id
  | ISub t => (5 <=? length t)%nat
  | INoise l => (length l <? 7)%nat || bool_decide (head l = Some x23)
  end.

Lemma item_okb_ok i : item_okb i = true -> item_ok i.
Proof.
  unfold item_okb. intros H. apply andb_prop in H as [H H4]. apply andb_prop in H as [H H3]. apply andb_prop in H as [H1 H2]. split.
  - split_and!; [|by destruct (bool_decide_reflect (x0d ∈ item_line i))|].
    + unfold is_line. by destruct (bool_decide_reflect (x0a ∈ item_line i)).
    + apply Nat.ltb_lt in H3. unfold MaxScanTokenSize. lia.
  - destruct i.
    + apply andb_prop in H4 as [H4 H5]. apply andb_prop in H4 as [H4 H6]. apply Nat.eqb_eq in H4. split; [done|]. by destruct name.
    + apply andb_prop in H4 as [H4 H6]. by apply Nat.eqb_eq in H4.
    + by apply Nat.leb_le in H4.
    + apply orb_prop in H4 as [H4|H4]; [left; by apply Nat.ltb_lt in H4|right; by apply bool_decide_eq_true in H4].
Qed.

Lemma lookup_table_witness :
  lookup (unlines (item_line <$> toy_ids)) (str "8086") (str "100e") =
    Ret (str "Intel Corporation", str "82540EM Gigabit Ethernet Controller").
Proof.
  apply (lookup_table toy_ids (str "8086") (str "100e")); [done|done|].
  repeat (constructor; [apply item_okb_ok; reflexivity|]). constructor.
Defined.

Example pci_ex :
  pci_main (unlines (item_line <$> toy_ids))
    (fun f => if bytes_eqb f (str "/sys/d/00:1f/vendor") then inl (str "0x8086
") else inl (str "0x0007
")) false (inl [str "/sys/d/00:1f"]) = Ret (str "00:1f: Intel Corporation 82379AB
").
Proof. reflexivity. Qed.

(** An empty sysfs file is a crash. *)
Example onePCI_empty : onePCI [] (fun _ => inl []) true (str "/sys/d") = Panic. Proof. reflexivity. Qed.
