(* ===== verification/Kill.v ===== *)
(** * Signals to processes ([cmds/kill])

    The tables of signals, the command line in its three forms and the calls of [kill]; the kernel
    answers each call. *)

From Stdlib Require Import Strings.String.
From S2P Require Export GoPath GoText.

Definition signames : list bytes := str <$> [
  "SIGHUP"; "SIGINT"; "SIGQUIT"; "SIGILL"; "SIGTRAP"; "SIGABRT"; "SIGBUS"; "SIGFPE"; "SIGKILL"; "SIGUSR1"; "SIGSEGV";
   "SIGUSR2"; "SIGPIPE"; "SIGALRM"; "SIGTERM"; "SIGSTKFLT"; "SIGCHLD"; "SIGCONT"; "SIGSTOP"; "SIGTSTP"; "SIGTTIN";
   "SIGTTOU"; "SIGURG"; "SIGXCPU"; "SIGXFSZ"; "SIGVTALRM"; "SIGPROF"; "SIGWINCH"; "SIGIO"; "SIGPWR"; "SIGSYS";
   "SIGRTMIN"; "SIGRTMIN+1"; "SIGRTMIN+2"; "SIGRTMIN+3"; "SIGRTMIN+4"; "SIGRTMIN+5"; "SIGRTMIN+6"; "SIGRTMIN+7";
   "SIGRTMIN+8"; "SIGRTMIN+9"; "SIGRTMIN+10"; "SIGRTMIN+11"; "SIGRTMIN+12"; "SIGRTMIN+13"; "SIGRTMIN+14";
   "SIGRTMIN+15"; "SIGRTMAX-14"; "SIGRTMAX-13"; "SIGRTMAX-12"; "SIGRTMAX-11"; "SIGRTMAX-10"; "SIGRTMAX-9";
   "SIGRTMAX-8"; "SIGRTMAX-7"; "SIGRTMAX-6"; "SIGRTMAX-5"; "SIGRTMAX-4"; "SIGRTMAX-3"; "SIGRTMAX-2"; "SIGRTMAX-1";
   "SIGRTMAX"
  ]%string.

Definition signums : list (bytes * Z) := (fun '(n, s) => (str n, s)) <$> [
  ("SIGHUP"%string, 1); ("SIGINT"%string, 2); ("SIGQUIT"%string, 3); ("SIGILL"%string, 4); ("SIGTRAP"%string, 5);
   ("SIGABRT"%string, 6); ("SIGBUS"%string, 7); ("SIGFPE"%string, 8); ("SIGKILL"%string, 9); ("SIGUSR1"%string, 10);
   ("SIGSEGV"%string, 11); ("SIGUSR2"%string, 12); ("SIGPIPE"%string, 13); ("SIGALRM"%string, 14);
   ("SIGTERM"%string, 15); ("SIGSTKFLT"%string, 16); ("SIGCHLD"%string, 17); ("SIGCONT"%string, 18);
   ("SIGSTOP"%string, 19); ("SIGTSTP"%string, 20); ("SIGTTIN"%string, 21); ("SIGTTOU"%string, 22);
   ("SIGURG"%string, 23); ("SIGXCPU"%string, 24); ("SIGXFSZ"%string, 25); ("SIGVTALRM"%string, 26);
   ("SIGPROF"%string, 27); ("SIGWINCH"%string, 28); ("SIGIO"%string, 29); ("SIGPWR"%string, 30);
   ("SIGSYS"%string, 31); ("SIGRTMIN"%string, 34); ("SIGRTMIN+1"%string, 35); ("SIGRTMIN+2"%string, 36);
   ("SIGRTMIN+3"%string, 37); ("SIGRTMIN+4"%string, 38); ("SIGRTMIN+5"%string, 39); ("SIGRTMIN+6"%string, 40);
   ("SIGRTMIN+7"%string, 41); ("SIGRTMIN+8"%string, 42); ("SIGRTMIN+9"%string, 43); ("SIGRTMIN+10"%string, 44);
   ("SIGRTMIN+11"%string, 45); ("SIGRTMIN+12"%string, 46); ("SIGRTMIN+13"%string, 47); ("SIGRTMIN+14"%string, 48);
   ("SIGRTMIN+15"%string, 49); ("SIGRTMAX-14"%string, 50); ("SIGRTMAX-13"%string, 51); ("SIGRTMAX-12"%string, 52);
   ("SIGRTMAX-11"%string, 53); ("SIGRTMAX-10"%string, 54); ("SIGRTMAX-9"%string, 55); ("SIGRTMAX-8"%string, 56);
   ("SIGRTMAX-7"%string, 57); ("SIGRTMAX-6"%string, 58); ("SIGRTMAX-5"%string, 59); ("SIGRTMAX-4"%string, 60);
   ("SIGRTMAX-3"%string, 61); ("SIGRTMAX-2"%string, 62); ("SIGRTMAX-1"%string, 63); ("SIGRTMAX"%string, 64);
   ("1"%string, 1); ("2"%string, 2); ("3"%string, 3); ("4"%string, 4); ("5"%string, 5); ("6"%string, 6);
   ("7"%string, 7); ("8"%string, 8); ("9"%string, 9); ("10"%string, 10); ("11"%string, 11); ("12"%string, 12);
   ("13"%string, 13); ("14"%string, 14); ("15"%string, 15); ("16"%string, 16); ("17"%string, 17); ("18"%string, 18);
   ("19"%string, 19); ("20"%string, 20); ("21"%string, 21); ("22"%string, 22); ("23"%string, 23); ("24"%string, 24);
   ("25"%string, 25); ("26"%string, 26); ("27"%string, 27); ("28"%string, 28); ("29"%string, 29); ("30"%string, 30);
   ("31"%string, 31); ("34"%string, 34); ("35"%string, 35); ("36"%string, 36); ("37"%string, 37); ("38"%string, 38);
   ("39"%string, 39); ("40"%string, 40); ("41"%string, 41); ("42"%string, 42); ("43"%string, 43); ("44"%string, 44);
   ("45"%string, 45); ("46"%string, 46); ("47"%string, 47); ("48"%string, 48); ("49"%string, 49); ("50"%string, 50);
   ("51"%string, 51); ("52"%string, 52); ("53"%string, 53); ("54"%string, 54); ("55"%string, 55); ("56"%string, 56);
   ("57"%string, 57); ("58"%string, 58); ("59"%string, 59); ("60"%string, 60); ("61"%string, 61); ("62"%string, 62);
   ("63"%string, 63); ("64"%string, 64)
  ].

Fixpoint signum (m : list (bytes * Z)) (op : bytes) : option Z :=
  match m with
  | [] => None
  | (n, s) :: m => if bytes_eqb n op then Some s else signum m op
  end.

Definition defaultSignal : bytes := str "-SIGTERM".

(** [siglist]: the index in front of each name. *)
Fixpoint siglist_from (i : Z) (names : list bytes) : bytes :=
  match names with
  | [] => []
  | n :: names => Itoa i ++ str ": " ++ n ++ [x0a] ++ siglist_from (i + 1) names
  end.

Definition siglist : bytes := siglist_from 0 signames.

Section Kill.
(** The kernel's answer to a call, given the calls before it. *)
Context (sys : list (Z * Z) -> Z * Z -> option error).

(** [kill]: the errors, and the calls made so far. *)
Fixpoint kill (s : Z) (pids : list bytes) (calls : list (Z * Z)) : list (Z * Z) * list error :=
  match pids with
  | [] => (calls, [])
  | p :: pids =>
      match Atoi p with
      | (_, Some _) =>
          let '(calls, errs) := kill s pids calls in
          (calls, Errorf "%v: arguments must be process or job IDS" :: errs)
      | (pid, None) =>
          let e := sys calls (pid, s) in
          let '(calls, errs) := kill s pids (calls ++ [(pid, s)]) in
          (calls, match e with None => errs | Some e => e :: errs end)
      end
  end.

(** How [main] ends: it returns, or exits with status 1 after printing the list or a message. *)
Inductive kill_result := Returned | Listed (b : bytes) | Died (msg : string).

Definition eUsage : string := "Usage: kill -l | kill [<-s | --signal | -> <signame|signum>] pid [pid...]".

(** [main] on [os.Args[1:]]. *)
Definition kill_main (args : list bytes) : list (Z * Z) * outcome error kill_result :=
  match args with
  | [] => ([], Panic)
  | a1 :: rest =>
      match a1 with
      | [] => ([], Panic)
      | c :: _ =>
          let '(op, pids) := if negb (byte_eqb c x2d) then (defaultSignal, args) else (a1, rest) in
          match slice op 0 2 with
          | None => ([], Panic)
          | Some h =>
              if bytes_eqb h (str "-l") then
                ([], Ret (if (1 <? length args)%nat then Died eUsage else Listed siglist))
              else
                let go op pids :=
                  match signum signums op with
                  | None => ([], Ret (Died "%v is not a valid signal"))
                  | Some s =>
                      if (length pids <? 1)%nat then ([], Ret (Died eUsage))
                      else let '(calls, errs) := kill s pids [] in
                        (calls, Ret (match errs with [] => Returned | _ => Died "Some processes could not be killed: %v" end))
                  end in
                if bytes_eqb op (str "-s") || bytes_eqb op (str "--signal") then
                  match rest with
                  | [] => ([], Ret (Died eUsage))
                  | op :: pids => go op pids
                  end
                else go (drop 1 op) pids
          end
      end
  end.

(** ** What is sent *)

(** The processes that are named by numbers. *)
Definition numbers (pids : list bytes) : list Z :=
  omap (fun p => match Atoi p with (v, None) => Some v | _ => None end) pids.

Lemma kill_calls s pids calls : fst (kill s pids calls) = calls ++ ((fun p => (p, s)) <$> numbers pids).
Proof.
  revert calls. induction pids as [|p pids IH]; intros calls; cbn [kill numbers omap list_omap].
  - cbn. by rewrite app_nil_r.
  - fold (numbers pids). destruct (Atoi p) as [v [e|]].
    + specialize (IH calls). destruct (kill s pids calls) as [cs errs]. done.
    + specialize (IH (calls ++ [(v, s)])). destruct (kill s pids (calls ++ [(v, s)])) as [cs errs]. cbn in *.
      rewrite IH, <- app_assoc. done.
Qed.

(** No error means that every argument was a number and every call succeeded. *)
Lemma kill_no_errors s pids calls :
  snd (kill s pids calls) = [] <->
  Forall (fun p => snd (Atoi p) = None) pids /\
  forall i v, numbers pids !! i = Some v -> sys (calls ++ ((fun p => (p, s)) <$> take i (numbers pids))) (v, s) = None.
Proof.
  revert calls. induction pids as [|p pids IH]; intros calls; cbn [kill numbers omap list_omap].
  - cbn. split; [|done]. intros _. split; [constructor|]. by intros i v.
  - fold (numbers pids). destruct (Atoi p) as [v [e|]] eqn:Ep.
    + destruct (kill s pids calls) as [cs errs]. split; [done|]. intros [H _]. apply Forall_cons in H as [H _]. by rewrite Ep in H.
    + specialize (IH (calls ++ [(v, s)])). destruct (kill s pids (calls ++ [(v, s)])) as [cs errs]. cbn [snd] in *.
      rewrite Forall_cons, Ep. destruct (sys calls (v, s)) as [e|] eqn:Es.
      * split; [done|]. intros [_ H]. specialize (H 0%nat v eq_refl). cbn in H. rewrite app_nil_r in H. congruence.
      * rewrite IH. split; intros [H1 H2]; (split; [naive_solver|]).
        -- intros [|i] w Hw; cbn in Hw |- *; [simplify_eq; by rewrite app_nil_r|]. specialize (H2 i w Hw). by rewrite <- app_assoc in H2.
        -- intros i w Hw. specialize (H2 (S i) w Hw). cbn in H2. by rewrite <- app_assoc.
Qed.
End Kill.

(** The command lines that send a signal. *)
Inductive kill_form : list bytes -> bytes -> list bytes -> Prop :=
| form_default pid pids : head pid <> Some x2d -> pid <> [] -> kill_form (pid :: pids) (str "SIGTERM") (pid :: pids)
| form_dash sig pids : head sig <> Some x6c -> sig <> [] -> sig <> str "s" -> sig <> str "-signal" -> kill_form ((x2d :: sig) :: pids) sig pids
| form_s sig pids : kill_form (str "-s" :: sig :: pids) sig pids
| form_signal sig pids : kill_form (str "--signal" :: sig :: pids) sig pids.

(** On each of the documented command lines with a known signal and at least one argument
    after it, [kill] sends the signal once to every process named by a number, in order, and nothing
    else; it returns without an error exactly when every argument is a number and every call
    succeeds. *)
Theorem kill_main_sends (sys : list (Z * Z) -> Z * Z -> option error) (args : list bytes) (sig : bytes) (pids : list bytes) (s : Z) :
  kill_form args sig pids -> signum signums sig = Some s -> pids <> [] ->
  let sent := (fun p => (p, s)) <$> numbers pids in
  exists r, kill_main sys args = (sent, Ret r) /\
    (r = Returned <-> Forall (fun p => snd (Atoi p) = None) pids /\
       forall i v, numbers pids !! i = Some v -> sys (take i sent) (v, s) = None).
Proof.
  intros Hf Hs Hp sent.
  assert (forall k : list (Z * Z) * outcome error kill_result,
    k = (let '(calls, errs) := kill sys s pids [] in
         (calls, Ret (match errs with [] => Returned | _ => Died "Some processes could not be killed: %v" end))) ->
    exists r, k = (sent, Ret r) /\ (r = Returned <-> Forall (fun p => snd (Atoi p) = None) pids /\
       forall i v, numbers pids !! i = Some v -> sys (take i sent) (v, s) = None)) as Hk.
  { intros k ->. pose proof (kill_calls sys s pids []) as Hc. pose proof (kill_no_errors sys s pids []) as He.
    destruct (kill sys s pids []) as [calls errs]. cbn [fst snd app] in *. subst calls. eexists. split; [done|].
    unfold sent. setoid_rewrite <- fmap_take. rewrite <- He. by destruct errs. }
  assert ((length pids <? 1)%nat = false) as Hl by (by destruct pids). unfold kill_main.
  destruct Hf as [pid pids Hh Hne|sig pids Hh Hne H1 H2|sig pids|sig pids]; apply Hk.
  - destruct pid as [|c pid]; [done|]. assert (byte_eqb c x2d = false) as -> by (apply byte_eqb_neq; by intros ->).
    cbn [negb]. change (slice defaultSignal 0 2) with (Some (str "-S")). change (bytes_eqb (str "-S") (str "-l")) with false.
    cbv iota zeta. change (bytes_eqb defaultSignal _ || bytes_eqb defaultSignal _) with false. cbv iota.
    change (drop 1 defaultSignal) with (str "SIGTERM"). by rewrite Hs, Hl.
  - destruct sig as [|c sig]; [done|]. change (negb (byte_eqb x2d x2d)) with false. cbv iota zeta.
    rewrite slice_prefix by (rewrite ?zlen_cons; pose proof (zlen_nonneg sig); lia).
    change (take (Z.to_nat 2) (x2d :: c :: sig)) with [x2d; c].
    rewrite (bytes_eqb_neq [x2d; c]) by (intros [= ->]; done).
    rewrite (bytes_eqb_neq (x2d :: c :: sig) (str "-s")) by (intros [= -> ->]; done).
    rewrite (bytes_eqb_neq (x2d :: c :: sig) (str "--signal")) by (intros [= -> ->]; done).
    cbn [orb]. change (drop 1 (x2d :: c :: sig)) with (c :: sig). by rewrite Hs, Hl.
  - cbv beta iota zeta. lazy -[signum signums kill length Nat.ltb siglist]. rewrite Hs. by rewrite Hl.
  - cbv beta iota zeta. lazy -[signum signums kill length Nat.ltb siglist]. rewrite Hs. by rewrite Hl.
Qed.

Lemma kill_main_sends_witness :
  exists r, kill_main (fun _ c => if c.1 =? 77 then Some (Errno 3) else None) [str "-9"; str "12"; str "x"; str "77"] = ([(12, 9); (77, 9)], Ret r) /\
    (r = Returned <-> Forall (fun p => snd (Atoi p) = None) [str "12"; str "x"; str "77"] /\
       forall i v, numbers [str "12"; str "x"; str "77"] !! i = Some v ->
         (if fst (v, 9) =? 77 then Some (Errno 3) else None) = None).
Proof.
  apply (kill_main_sends (fun _ c => if c.1 =? 77 then Some (Errno 3) else None) [str "-9"; str "12"; str "x"; str "77"]
    (str "9") [str "12"; str "x"; str "77"] 9); [by constructor|reflexivity|done].
Defined.

(** Every name of the list is a known signal; the number that [-l] prints is not its number. *)
Lemma signames_known : forallb (fun n => match signum signums n with Some _ => true | None => false end) signames = true.
Proof. vm_compute. reflexivity. Qed.

Example siglist_off_by_one :
  take 10 siglist = str "0: SIGHUP
" /\ signum signums (str "SIGHUP") = Some 1.
Proof. split; reflexivity. Qed.

(** No argument, an empty one and a lone dash are crashes. *)
Example kill_crashes : snd (kill_main (fun _ _ => None) []) = Panic /\ snd (kill_main (fun _ _ => None) [[]]) = Panic /\
  snd (kill_main (fun _ _ => None) [str "-"]) = Panic.
Proof. split_and!; reflexivity. Qed.
