(* ===== verification/Archive.v ===== *)
(** * The archive format ([cmds/archive])

    An archive is the length of its table of contents in hexadecimal, the table as JSON, and the
    contents of the regular files in the order of the table.  Building the table from a walk,
    writing and loading it, and extraction as a trace of system calls against a kernel that may
    refuse any of them.  JSON, the walk and the files are parameters. *)

From Stdlib Require Import Strings.String.
From S2P Require Export GoIO GoPath GoText.

(** ** Modes *)

(** The bits of [os.FileMode] with their letters, in the order of [FileMode.String]. *)
Definition mode_letters : list (Z * byte) :=
  [(31, x64); (30, x61); (29, x6c); (28, x54); (27, x4c); (26, x44); (25, x70); (24, x53); (23, x75); (22, x67); (21, x63); (20, x74)].

(** [Mode.String()[0]]: the letter of the first bit that is set, a dash without one. *)
Fixpoint first_letter (m : Z) (ls : list (Z * byte)) : byte :=
  match ls with
  | [] => x2d
  | (b, c) :: ls => if Z.testbit m b then c else first_letter m ls
  end.

Definition mode_char (m : Z) : byte := first_letter m mode_letters.

(** [Mode.IsRegular]: none of the type bits (directory, symlink, pipe, socket, device). *)
Definition IsRegular (m : Z) : bool :=
  negb (Z.testbit m 31 || Z.testbit m 27 || Z.testbit m 25 || Z.testbit m 24 || Z.testbit m 26).

Definition Perm (m : Z) : Z := Z.land m 0x1ff.

(** ** The table of contents *)

Record file := MkFile {
  Name : bytes; Size : Z; Mode : Z; ModTime : Z; IsDir : bool; Link : bytes; Uid : Z; Gid : Z; Dev : Z
}.

(** What the walk and [Lstat] tell of a name. *)
Record winfo := MkW { w_mode : Z; w_mtime : Z; w_isdir : bool; w_size : Z; w_uid : Z; w_gid : Z; w_rdev : Z }.

Section Archive.
Context (Walk : bytes -> list (bytes * (winfo + error))) (Lstat_err : bytes -> option error) (Readlink : bytes -> bytes + error).
Context (json_enc : list file -> bytes + error).
(** Decoding a stream: the table, and how many bytes the decoder has read of it. *)
Context (json_dec : bytes -> (list file + error) * nat).
(** The contents of a file to be archived. *)
Context (Open : bytes -> bytes + error).

(** The function of the walk, for one name. *)
Definition visit (name : bytes) (fi : winfo + error) : file * option error + error :=
  match fi with
  | inr e => inr e
  | inl fi =>
      match Lstat_err name with
      | Some _ => inr (Errorf "%s: %v")
      | None =>
          let f := MkFile name 0 (w_mode fi) (w_mtime fi) (w_isdir fi) [] (w_uid fi) (w_gid fi) 0 in
          let c := mode_char (w_mode fi) in
          inl (if byte_eqb c x2d then (MkFile name (w_size fi) (w_mode fi) (w_mtime fi) (w_isdir fi) [] (w_uid fi) (w_gid fi) 0, None)
               else if byte_eqb c x4c then
                 match Readlink name with
                 | inl t => (MkFile name 0 (w_mode fi) (w_mtime fi) (w_isdir fi) t (w_uid fi) (w_gid fi) 0, None)
                 | inr e => (f, Some e)
                 end
               else if byte_eqb c x44 then (MkFile name 0 (w_mode fi) (w_mtime fi) (w_isdir fi) [] (w_uid fi) (w_gid fi) (w_rdev fi), None)
               else (f, None))
      end
  end.

Fixpoint visit_all (es : list (bytes * (winfo + error))) : list file + error :=
  match es with
  | [] => inl []
  | (name, fi) :: es =>
      match visit name fi with
      | inl (f, None) => match visit_all es with inl fs => inl (f :: fs) | inr e => inr e end
      | inl (_, Some e) | inr e => inr e
      end
  end.

Fixpoint buildVTOC (dirs : list bytes) : list file + error :=
  match dirs with
  | [] => inl []
  | d :: dirs =>
      match visit_all (Walk d) with
      | inr e => inr e
      | inl fs => match buildVTOC dirs with inl gs => inl (fs ++ gs) | inr e => inr e end
      end
  end.

(** [%07x]. *)
Fixpoint hex_digits (fuel : nat) (z : Z) (acc : bytes) : bytes :=
  match fuel with
  | O => acc
  | S fuel => let acc := hex_digit (z `mod` 16) :: acc in if z <? 16 then acc else hex_digits fuel (z `div` 16) acc
  end.

Definition hex_of (z : Z) : bytes := hex_digits (S (Z.to_nat (Z.log2 z))) z [].

Definition hex07 (z : Z) : bytes := let s := hex_of z in replicate (7 - length s) x30 ++ s.

(** The cleanup of [writeVTOC]: one leading slash is dropped; an empty name is a crash. *)
Definition strip (f : file) : outcome error file :=
  match Name f with
  | [] => Panic
  | c :: n => Ret (if byte_eqb c x2f then MkFile n (Size f) (Mode f) (ModTime f) (IsDir f) (Link f) (Uid f) (Gid f) (Dev f) else f)
  end.

Fixpoint strip_all (vtoc : list file) : outcome error (list file) :=
  match vtoc with
  | [] => Ret []
  | f :: vtoc => g ← strip f; gs ← strip_all vtoc; Ret (g :: gs)
  end.

Context {W : Type} `{!Writer W}.

(** One [Write] to the output. *)
Definition wr (b : bytes) : M W Z := fun w =>
  let '(w, (n, e)) := io_Write w b in (w, match e with None => Ret n | Some e => Fail e end).

Definition writeVTOC (vtoc : list file) : M W Z :=
  outvtoc ← lift (strip_all vtoc);
  match json_enc outvtoc with
  | inr _ => raise (Errorf "Encoding files: %v")
  | inl v =>
      _ ← wr (hex07 (zlen v) ++ [x0a]);
      wr v
  end.

Definition encodeOne (f : file) : M W unit :=
  if (Size f =? 0) || negb (IsRegular (Mode f)) then mret tt else
  match Open (Name f) with
  | inr e => raise e
  | inl b => _ ← io_Copy wr b; mret tt
  end.

Fixpoint encode_loop (vtoc : list file) : M W unit :=
  match vtoc with
  | [] => mret tt
  | v :: vtoc => _ ← encodeOne v; encode_loop vtoc
  end.

(** [encode]: the error of [writeVTOC] is returned only when there is nothing to encode. *)
Definition encode (dirs : list bytes) : M W unit :=
  match buildVTOC (match dirs with [] => [str "."] | _ => dirs end) with
  | inr e => raise e
  | inl vtoc => fun w =>
      match writeVTOC vtoc w with
      | (w, Panic) => (w, Panic)
      | (w, Ret _) => encode_loop vtoc w
      | (w, Fail e) => match vtoc with [] => (w, Fail e) | _ => encode_loop vtoc w end
      end
  end.

(** ** Loading and extraction *)

(** [fmt.Fscanf] with [%x] on the first eight bytes: blanks, a sign, digits and one character of
    lookahead.  The value and the number of bytes read. *)
Fixpoint scan_digits (s : bytes) (v : Z) (n : nat) : Z * nat * nat :=
  match s with
  | [] => (v, n, n)
  | c :: s => match hex_value c with Some d => scan_digits s (v * 16 + d) (S n) | None => (v, n, S n) end
  end.

Definition is_blank (c : byte) : bool := byte_eqb c x20 || byte_eqb c x09.

Fixpoint skip_blanks (s : bytes) : bytes * nat :=
  match s with
  | c :: s' => if is_blank c then let '(r, k) := skip_blanks s' in (r, S k) else (s, 0%nat)
  | [] => ([], 0%nat)
  end.

Definition scan_hex (s : bytes) : option (Z * nat) :=
  let '(s, k) := skip_blanks s in
  let '(neg, s, k) := match s with
                      | c :: s' => if byte_eqb c x2d then (true, s', S k) else if byte_eqb c x2b then (false, s', S k) else (false, s, k)
                      | [] => (false, s, k)
                      end in
  let '(v, n, used) := scan_digits s 0 0 in
  if (n =? 0)%nat then None else Some (if neg : bool then - v else v, (k + used)%nat).

(** [loadVTOC] on the archive: the table and the position of the file. *)
Definition loadVTOC (a : bytes) : (list file * nat) + error :=
  match scan_hex (take 8 a) with
  | None => inr (Errorf "%s: can't scan vtoc length: %v")
  | Some (l, k) =>
      match json_dec (take (Z.to_nat l) (drop k a)) with
      | (inr _, _) => inr (Errorf "%s: can't decode: %v")
      | (inl vtoc, used) => inl (vtoc, (k + used)%nat)
      end
  end.

Inductive acall :=
| AMkdirAll (name : bytes) (mode : Z)
| AOpen (name : bytes) (mode : Z)
| AWrite (name : bytes) (b : bytes)
| ASymlink (target name : bytes)
| AMknod (name : bytes) (mode dev : Z)
| ALchown (name : bytes) (uid gid : Z).

Context (sys : list acall -> acall -> option error).

(** The state of extraction: the calls so far, and what is left to read of the archive. *)
Definition dst : Type := list acall * bytes.

Definition call (c : acall) : M dst unit := fun '(tr, rest) =>
  ((tr ++ [c], rest), match sys tr c with None => Ret tt | Some e => Fail e end).

Definition S_IFBLK : Z := 0x6000.
Definition S_IFCHR : Z := 0x2000.

(** [io.Copy] of a limited reader: chunks of what is there, each written at once. *)
Definition copy_out (name : bytes) (size : Z) : M dst unit :=
  (fun '(tr, rest) =>
    let b := take (Z.to_nat size) rest in
    (_ ← io_Copy (fun c => _ ← call (AWrite name c); mret (zlen c)) b; mret tt) (tr, drop (length b) rest)) : M dst unit.

Definition doOneFile (v : file) : M dst unit :=
  let c := mode_char (Mode v) in
  if byte_eqb c x64 then _ ← call (AMkdirAll (Name v) (Mode v)); call (ALchown (Name v) (Uid v) (Gid v))
  else if byte_eqb c x2d then
    _ ← call (AOpen (Name v) (Mode v));
    _ ← copy_out (Name v) (Size v);
    call (ALchown (Name v) (Uid v) (Gid v))
  else if byte_eqb c x4c then _ ← call (ASymlink (Link v) (Name v)); call (ALchown (Name v) (Uid v) (Gid v))
  else if byte_eqb c x44 then
    let m := Perm (Mode v) in
    let t := Z.land (Mode v) (2 ^ 26 + 2 ^ 21) in
    let m := Z.lor m (if t =? 2 ^ 26 then S_IFBLK else S_IFCHR) in
    _ ← call (AMknod (Name v) m (i64 (Dev v))); call (ALchown (Name v) (Uid v) (Gid v))
  else mret tt.

Fixpoint extract (vtoc : list file) : M dst unit :=
  match vtoc with
  | [] => mret tt
  | v :: vtoc => _ ← doOneFile v; extract vtoc
  end.

(** [decode] of one archive file; an archive that cannot be loaded is only reported. *)
Definition decode_one (a : bytes + error) : M (list acall) unit := fun tr =>
  match a with
  | inr _ => (tr, Ret tt)
  | inl a =>
      match loadVTOC a with
      | inr _ => (tr, Ret tt)
      | inl (vtoc, pos) => let '((tr, _), r) := extract vtoc (tr, drop pos a) in (tr, r)
      end
  end.

Fixpoint decode (files : list (bytes + error)) : M (list acall) unit :=
  match files with
  | [] => mret tt
  | f :: files => _ ← decode_one f; decode files
  end.

(** [toc]: the printed tables. *)
Context (file_v : file -> bytes) (err_v : error -> bytes).

Fixpoint toc (files : list (bytes + error)) : bytes :=
  match files with
  | [] => []
  | a :: files =>
      match (match a with inr e => inr e | inl a => loadVTOC a end) with
      | inr e => err_v e
      | inl (vtoc, _) => unlines (file_v <$> vtoc)
      end ++ toc files
  end.
End Archive.

(** ** The header *)

Lemma hex_value_digit v : 0 <= v < 16 -> hex_value (hex_digit v) = Some v.
Proof.
  intros H. assert (forallb (fun v => bool_decide (hex_value (hex_digit v) = Some v)) (seqZ 0 16) = true) as Hf by reflexivity.
  rewrite forallb_forall in Hf. specialize (Hf v). rewrite <- list_elem_of_In, elem_of_seqZ in Hf.
  specialize (Hf ltac:(lia)). by apply bool_decide_eq_true in Hf.
Qed.

(** The digits of [z]: no more than needed, and reading them gives [z] back. *)
Lemma hex_digits_spec fuel z acc n :
  0 <= z < 16 ^ Z.of_nat n -> (0 < n <= fuel)%nat ->
  exists ds, hex_digits fuel z acc = ds ++ acc /\ (0 < length ds <= n)%nat /\
    forall s v k, scan_digits (ds ++ s) v k = scan_digits s (v * 16 ^ zlen ds + z) (k + length ds).
Proof.
  revert z acc n. induction fuel as [|fuel IH]; intros z acc n Hz Hn; [lia|]. cbn [hex_digits].
  pose proof (Z.mod_pos_bound z 16 eq_refl) as Hm. pose proof (Z.div_mod z 16 ltac:(lia)) as Hdm.
  destruct (Z.ltb_spec z 16) as [Hlt|Hge].
  - exists [hex_digit (z `mod` 16)]. split_and!; [done|cbn; lia|cbn; lia|]. intros s v k. cbn [app scan_digits length].
    rewrite hex_value_digit by done. rewrite Z.mod_small by lia. change (zlen [_]) with 1. f_equal; lia.
  - destruct n as [|n]; [lia|]. rewrite Nat2Z.inj_succ, Z.pow_succ_r in Hz by lia.
    destruct (IH (z `div` 16) (hex_digit (z `mod` 16) :: acc) n) as (ds & -> & Hl & Hs).
    + split; [apply Z.div_pos; lia|]. apply Z.div_lt_upper_bound; lia.
    + destruct n; [cbn in Hz; lia|lia].
    + exists (ds ++ [hex_digit (z `mod` 16)]). rewrite <- app_assoc. split_and!; [done|rewrite length_app; cbn; lia|rewrite length_app; cbn; lia|].
      intros s v k. rewrite <- app_assoc. cbn [app]. rewrite Hs. cbn [scan_digits]. rewrite hex_value_digit by done.
      rewrite zlen_app, length_app. change (zlen [_]) with 1. rewrite Z.pow_add_r by (pose proof (zlen_nonneg ds); lia).
      cbn [length]. f_equal; lia.
Qed.

Lemma log2_fuel z n : 0 <= z < 16 ^ Z.of_nat n -> (0 < n)%nat -> exists m, (0 < m <= n)%nat /\ 0 <= z < 16 ^ Z.of_nat m /\ (m <= S (Z.to_nat (Z.log2 z)))%nat.
Proof.
  intros Hz Hn. destruct (decide (z = 0)) as [->|Hz0]; [exists 1%nat; split_and!; cbn; lia|].
  pose proof (Z.log2_spec z ltac:(lia)) as [_ H2]. pose proof (Z.log2_nonneg z).
  destruct (decide (n <= S (Z.to_nat (Z.log2 z)))%nat) as [Hle|Hgt]; [exists n; split_and!; lia|].
  exists (S (Z.to_nat (Z.log2 z))). split_and!; [lia|lia|lia| |lia].
  rewrite Nat2Z.inj_succ, Z2Nat.id by done. eapply Z.lt_le_trans; [exact H2|]. apply Z.pow_le_mono_l. lia.
Qed.

Lemma scan_zeros k s v n : v = 0 -> scan_digits (replicate k x30 ++ s) v n = scan_digits s 0 (n + k).
Proof.
  intros ->. revert n. induction k as [|k IH]; intros n; cbn [replicate app scan_digits]; [by rewrite Nat.add_0_r|].
  change (hex_value x30) with (Some 0). cbv iota. change (0 * 16 + 0) with 0. rewrite IH. f_equal. lia.
Qed.

(** The header of eight bytes is read back. *)
Lemma scan_hex_header z s :
  0 <= z < 2 ^ 28 -> length (hex07 z) = 7%nat /\ scan_hex (take 8 (hex07 z ++ x0a :: s)) = Some (z, 8%nat).
Proof.
  intros Hz. destruct (log2_fuel z 7) as (m & Hm & Hzm & Hfm); [lia|lia|].
  destruct (hex_digits_spec (S (Z.to_nat (Z.log2 z))) z [] m Hzm ltac:(lia)) as (ds & E & Hl & Hs). rewrite app_nil_r in E.
  assert (hex07 z = replicate (7 - length ds) x30 ++ ds) as Hh by (unfold hex07, hex_of; by rewrite E).
  assert (length (hex07 z) = 7%nat) as H7 by (rewrite Hh, length_app, length_replicate; lia). split; [done|].
  replace (take 8 (hex07 z ++ x0a :: s)) with (hex07 z ++ [x0a]) by (rewrite take_app, H7, take_ge by lia; done).
  unfold scan_hex.
  assert (exists c r, hex07 z = c :: r /\ hex_value c <> None) as (c & r & Hc & Hv).
  { destruct (hex07 z) as [|c r] eqn:Eh; [done|]. exists c, r. split; [done|]. intros Hc.
    pose proof (scan_zeros (7 - length ds) (ds ++ [x0a]) 0 0 eq_refl) as Hz0. rewrite Hs in Hz0. cbn [scan_digits] in Hz0.
    change (hex_value x0a) with (@None Z) in Hz0. cbv iota in Hz0.
    rewrite app_assoc, <- Hh in Hz0. cbn [app scan_digits] in Hz0. rewrite Hc in Hz0. injection Hz0. lia. }
  assert (skip_blanks (hex07 z ++ [x0a]) = (hex07 z ++ [x0a], 0%nat)) as ->.
  { rewrite Hc. cbn [app skip_blanks]. unfold is_blank. by rewrite !(proj2 (byte_eqb_neq c _)) by (intros ->; done). }
  rewrite Hc at 1. cbn [app]. rewrite !(proj2 (byte_eqb_neq c _)) by (intros ->; done).
  rewrite Hh, <- app_assoc, scan_zeros, Hs by done. cbn [scan_digits]. change (hex_value x0a) with (@None Z). cbv iota.
  replace (0 + (7 - length ds) + length ds)%nat with 7%nat by lia. cbn. do 2 f_equal. 
Qed.

(** ** Writing to a buffer *)

Lemma copy_chunks_buffer cs n x :
  copy_chunks wr n cs {| buf := x |} = ({| buf := x ++ concat cs |}, Ret (n + zlen (concat cs))).
Proof.
  revert n x. induction cs as [|c cs IH]; intros n x; cbn [copy_chunks].
  - cbn. by rewrite app_nil_r, Z.add_0_r.
  - unfold mbind, M_bind, wr, io_Write, Buffer_Writer. cbn [buf]. rewrite bool_decide_eq_true_2 by done. rewrite IH.
    cbn [concat]. by rewrite <- app_assoc, zlen_app, Z.add_assoc.
Qed.

Lemma io_Copy_buffer b x : io_Copy wr b {| buf := x |} = ({| buf := x ++ b |}, Ret (zlen b)).
Proof. unfold io_Copy. by rewrite copy_chunks_buffer, concat_chunks, Z.add_0_l. Qed.

Section Roundtrip.
Context (Walk : bytes -> list (bytes * (winfo + error))) (Lstat_err : bytes -> option error) (Readlink : bytes -> bytes + error).
Context (json_enc : list file -> bytes + error) (json_dec : bytes -> (list file + error) * nat) (Open : bytes -> bytes + error).
Context (sys : list acall -> acall -> option error).

(** What is stored of a file. *)
Definition data (f : file) : bytes :=
  if (Size f =? 0) || negb (IsRegular (Mode f)) then [] else match Open (Name f) with inl b => b | inr _ => [] end.

(** The file can be read and has the size that the walk has seen. *)
Definition readable (f : file) : Prop := mode_char (Mode f) = x2d -> Size f <> 0 -> exists b, Open (Name f) = inl b /\ zlen b = Size f.

Lemma mode_char_dash m : mode_char m = x2d -> IsRegular m = true.
Proof.
  unfold mode_char, IsRegular, mode_letters. cbn [first_letter].
  repeat (case_match; [done|]). by repeat match goal with H : Z.testbit m _ = false |- _ => rewrite H; clear H end.
Qed.

(** In a table that was built only files with a dash have a size. *)
Definition sized (f : file) : Prop := mode_char (Mode f) <> x2d -> Size f = 0.

Lemma visit_sized name fi f e : visit Lstat_err Readlink name fi = inl (f, e) -> sized f.
Proof.
  unfold visit. destruct fi as [fi|]; [|done]. destruct (Lstat_err name); [done|]. intros H Hc.
  destruct (byte_eqb (mode_char (w_mode fi)) x2d) eqn:E.
  - simplify_eq/=. by apply byte_eqb_eq in E.
  - case_hyp H; done.
Qed.

Lemma buildVTOC_sized dirs vtoc : buildVTOC Walk Lstat_err Readlink dirs = inl vtoc -> Forall sized vtoc.
Proof.
  assert (forall es fs, visit_all Lstat_err Readlink es = inl fs -> Forall sized fs) as Hv.
  { induction es as [|[name fi] es IH]; intros fs H; cbn [visit_all] in H; [simplify_eq; constructor|].
    destruct (visit Lstat_err Readlink name fi) as [[f [e|]]|] eqn:Ev; [done| |done].
    destruct (visit_all _ _ es) as [gs|] eqn:Eg; [|done]. simplify_eq. constructor; [by eapply visit_sized|by apply IH]. }
  revert vtoc. induction dirs as [|d dirs IH]; intros vtoc H; cbn [buildVTOC] in H; [simplify_eq; constructor|].
  destruct (visit_all _ _ (Walk d)) as [fs|] eqn:Ef; [|done]. destruct (buildVTOC _ _ _ dirs) as [gs|] eqn:Eg; [|done].
  simplify_eq. apply Forall_app. split; [by eapply Hv|by apply IH].
Qed.

Lemma encode_loop_buffer vtoc x :
  Forall sized vtoc -> Forall readable vtoc ->
  encode_loop Open vtoc {| buf := x |} = ({| buf := x ++ concat (data <$> vtoc) |}, Ret tt).
Proof.
  intros Hs Hr. revert x. induction vtoc as [|f vtoc IH]; intros x; cbn [encode_loop].
  - cbn. by rewrite app_nil_r.
  - apply Forall_cons in Hs as [Hs Hss]. apply Forall_cons in Hr as [Hr Hrs].
    assert (encodeOne Open f {| buf := x |} = ({| buf := x ++ data f |}, Ret tt)) as He.
    { unfold encodeOne, data. destruct ((Size f =? 0) || negb (IsRegular (Mode f))) eqn:E; [by rewrite app_nil_r|].
      apply orb_false_elim in E as [E _]. apply Z.eqb_neq in E.
      destruct (decide (mode_char (Mode f) = x2d)) as [Hc|Hc]; [|by specialize (Hs Hc)].
      destruct (Hr Hc E) as (b & -> & _). unfold mbind, M_bind. by rewrite io_Copy_buffer. }
    rewrite (M_bind_Ret _ _ _ _ _ He). rewrite IH by done. cbn [fmap list_fmap concat]. by rewrite <- app_assoc.
Qed.

(** ** Extraction *)

(** The calls for one entry with the contents [b]. *)
Definition plan (v : file) (b : bytes) : list acall :=
  let c := mode_char (Mode v) in
  let own := [ALchown (Name v) (Uid v) (Gid v)] in
  if byte_eqb c x64 then AMkdirAll (Name v) (Mode v) :: own
  else if byte_eqb c x2d then AOpen (Name v) (Mode v) :: (AWrite (Name v) <$> chunks copy_buf_size b) ++ own
  else if byte_eqb c x4c then ASymlink (Link v) (Name v) :: own
  else if byte_eqb c x44 then
    AMknod (Name v) (Z.lor (Perm (Mode v)) (if Z.land (Mode v) (2 ^ 26 + 2 ^ 21) =? 2 ^ 26 then S_IFBLK else S_IFCHR)) (i64 (Dev v)) :: own
  else [].

Context (Hsys : forall tr c, sys tr c = None).

Lemma call_ok c tr rest : call sys c (tr, rest) = ((tr ++ [c], rest), Ret tt).
Proof. unfold call. by rewrite Hsys. Qed.

Lemma copy_out_ok name b tr rest :
  copy_out sys name (zlen b) (tr, b ++ rest) = ((tr ++ (AWrite name <$> chunks copy_buf_size b), rest), Ret tt).
Proof.
  unfold copy_out. replace (Z.to_nat (zlen b)) with (length b) by (unfold zlen; lia). rewrite take_app_length, drop_app_length.
  assert (forall cs n tr rest, copy_chunks (fun c => _ ← call sys (AWrite name c); mret (zlen c)) n cs (tr, rest)
    = ((tr ++ (AWrite name <$> cs), rest), Ret (n + zlen (concat cs)))) as Hcs.
  { induction cs as [|c cs IH]; intros n tr' rest'; cbn [copy_chunks]; [cbn; by rewrite app_nil_r, Z.add_0_r|].
    unfold mbind at 1, M_bind at 1. rewrite (M_bind_Ret _ _ _ _ _ (call_ok _ _ _)). cbn [mret M_ret].
    rewrite bool_decide_eq_true_2 by done. rewrite IH. cbn [fmap list_fmap concat]. by rewrite <- app_assoc, zlen_app, Z.add_assoc. }
  unfold io_Copy, mbind, M_bind. by rewrite Hcs.
Qed.

Lemma doOneFile_ok v b tr rest :
  (mode_char (Mode v) = x2d -> zlen b = Size v) -> (mode_char (Mode v) <> x2d -> b = []) ->
  doOneFile sys v (tr, b ++ rest) = ((tr ++ plan v b, rest), Ret tt).
Proof.
  intros Hb Hn. unfold doOneFile, plan.
  destruct (byte_eqb (mode_char (Mode v)) x2d) eqn:Ed.
  - apply byte_eqb_eq in Ed. rewrite Ed, <- (Hb Ed). change (byte_eqb x2d x64) with false. change (byte_eqb x2d x2d) with true. cbv iota.
    rewrite (M_bind_Ret _ _ _ _ _ (call_ok _ _ _)), (M_bind_Ret _ _ _ _ _ (copy_out_ok _ _ _ _)), call_ok.
    by rewrite <- !app_assoc.
  - apply byte_eqb_neq in Ed. rewrite (Hn Ed). cbn [app].
    destruct (byte_eqb _ x64); [by rewrite (M_bind_Ret _ _ _ _ _ (call_ok _ _ _)), call_ok, <- app_assoc|].
    destruct (byte_eqb _ x4c); [by rewrite (M_bind_Ret _ _ _ _ _ (call_ok _ _ _)), call_ok, <- app_assoc|].
    destruct (byte_eqb _ x44); [by rewrite (M_bind_Ret _ _ _ _ _ (call_ok _ _ _)), call_ok, <- app_assoc|].
    by rewrite app_nil_r.
Qed.

Lemma strip_same f g : strip f = Ret g -> Mode g = Mode f /\ Size g = Size f.
Proof. unfold strip. destruct (Name f) as [|c n]; [done|]. destruct (byte_eqb c x2f); intros [= <-]; done. Qed.

Lemma extract_ok vtoc out tr rest :
  strip_all vtoc = Ret out -> Forall sized vtoc -> Forall readable vtoc ->
  extract sys out (tr, concat (data <$> vtoc) ++ rest) = ((tr ++ concat (zip_with plan out (data <$> vtoc)), rest), Ret tt).
Proof.
  revert out tr. induction vtoc as [|f vtoc IH]; intros out tr Ho Hs Hr; cbn [strip_all] in Ho.
  - simplify_eq. cbn. by rewrite app_nil_r.
  - apply Forall_cons in Hs as [Hs Hss]. apply Forall_cons in Hr as [Hr Hrs].
    destruct (strip f) as [g| |] eqn:Eg; [|done|done]. cbn in Ho. destruct (strip_all vtoc) as [gs| |] eqn:Egs; [|done|done]. cbn in Ho.
    simplify_eq. apply strip_same in Eg as [Em Es]. cbn [fmap list_fmap concat zip_with extract]. rewrite <- app_assoc.
    assert (doOneFile sys g (tr, data f ++ (concat (data <$> vtoc) ++ rest)) = ((tr ++ plan g (data f), concat (data <$> vtoc) ++ rest), Ret tt)) as Hd.
    { apply doOneFile_ok; rewrite Em; intros Hc.
      - rewrite Es. unfold data. rewrite (mode_char_dash _ Hc), orb_false_r. destruct (Z.eqb_spec (Size f) 0) as [E|E]; [done|].
        by destruct (Hr Hc E) as (b & -> & ?).
      - unfold data. by rewrite (Hs Hc). }
    rewrite (M_bind_Ret _ _ _ _ _ Hd). rewrite (IH gs) by done. by rewrite <- app_assoc.
Qed.
End Roundtrip.

(** Extracting what was archived.  When JSON gives the table back and the decoder reads all of
    it, and the files can be read and keep their sizes, [encode] writes an archive, and [decode] of
    that archive makes the calls of the plan for every entry in order: directories, links, devices,
    and regular files with exactly their contents. *)
Theorem vtoc_roundtrip (Walk : bytes -> list (bytes * (winfo + error))) (Lstat_err : bytes -> option error)
    (Readlink : bytes -> bytes + error) (json_enc : list file -> bytes + error) (json_dec : bytes -> (list file + error) * nat)
    (Open : bytes -> bytes + error) (sys : list acall -> acall -> option error) (dirs : list bytes) (vtoc out : list file) (j : bytes) :
  dirs <> [] -> buildVTOC Walk Lstat_err Readlink dirs = inl vtoc -> Forall (readable Open) vtoc ->
  strip_all vtoc = Ret out -> json_enc out = inl j -> zlen j < 2 ^ 28 -> json_dec j = (inl out, length j) ->
  (forall tr c, sys tr c = None) ->
  exists a, encode Walk Lstat_err Readlink json_enc Open dirs {| buf := [] |} = ({| buf := a |}, Ret tt) /\
    decode json_dec sys [inl a] [] = (concat (zip_with plan out (data Open <$> vtoc)), Ret tt).
Proof.
  intros Hd Hb Hr Ho Hj Hl Hdec Hsys. pose proof (buildVTOC_sized _ _ _ _ _ Hb) as Hs.
  exists (hex07 (zlen j) ++ x0a :: j ++ concat (data Open <$> vtoc)). split.
  - unfold encode. destruct dirs as [|d dirs]; [done|]. rewrite Hb. unfold writeVTOC, lift. unfold mbind at 1, M_bind at 1.
    rewrite Ho, Hj. unfold mbind, M_bind, wr, io_Write, Buffer_Writer. cbn [buf]. rewrite encode_loop_buffer by done.
    cbn [app]. by rewrite <- !app_assoc.
  - unfold decode, decode_one, loadVTOC. pose proof (zlen_nonneg j).
    destruct (scan_hex_header (zlen j) (j ++ concat (data Open <$> vtoc))) as [H7 H8]; [lia|]. rewrite H8.
    replace (hex07 (zlen j) ++ x0a :: j ++ concat (data Open <$> vtoc)) with ((hex07 (zlen j) ++ [x0a]) ++ j ++ concat (data Open <$> vtoc))
      by (by rewrite <- app_assoc).
    assert (length (hex07 (zlen j) ++ [x0a]) = 8%nat) as E8 by (rewrite length_app, H7; done).
    rewrite (drop_app_length' _ _ 8) by done. unfold zlen at 1. rewrite Nat2Z.id, take_app_length, Hdec.
    assert (drop (8 + length j) ((hex07 (zlen j) ++ [x0a]) ++ j ++ concat (data Open <$> vtoc)) = concat (data Open <$> vtoc)) as ->.
    { rewrite <- E8. by rewrite drop_app_add, drop_app_length. }
    rewrite <- (app_nil_r (concat _)). unfold mbind, M_bind. by rewrite (extract_ok _ _ Hsys _ _ _ _ Ho).
Qed.

#[export] Instance file_eq_dec : EqDecision file.
Proof. solve_decision. Defined.

(** A directory with a file of five bytes. *)
Definition toy_walk (d : bytes) : list (bytes * (winfo + error)) :=
  [(str "/d", inl (MkW (2 ^ 31 + 0x1ed) 0 true 4096 0 0 0)); (str "/d/a", inl (MkW 0x1a4 0 false 5 1000 100 0))].

Definition toy_vtoc : list file :=
  [MkFile (str "d") 0 (2 ^ 31 + 0x1ed) 0 true [] 0 0 0; MkFile (str "d/a") 5 0x1a4 0 false [] 1000 100 0].

(** A stand-in for JSON on this table, with a decoder that reads [k] bytes. *)
Definition toy_json : bytes := str "[table]
".
Definition toy_enc (v : list file) : bytes + error := if bool_decide (v = toy_vtoc) then inl toy_json else inr (Errorf "json").
Definition toy_dec (k : nat) (b : bytes) : (list file + error) * nat :=
  if bytes_eqb b toy_json then (inl toy_vtoc, k) else (inr (Errorf "json"), 0%nat).

Definition toy_open (n : bytes) : bytes + error := if bytes_eqb n (str "/d/a") then inl (str "hello") else inr (Errno 2).

Lemma vtoc_roundtrip_witness :
  exists a, encode toy_walk (fun _ => None) (fun _ => inr (Errno 22)) toy_enc toy_open [str "/d"] {| buf := [] |} = ({| buf := a |}, Ret tt) /\
    decode (toy_dec (length toy_json)) (fun _ _ => None) [inl a] [] =
      ([AMkdirAll (str "d") (2 ^ 31 + 0x1ed); ALchown (str "d") 0 0; AOpen (str "d/a") 0x1a4; AWrite (str "d/a") (str "hello");
        ALchown (str "d/a") 1000 100], Ret tt).
Proof.
  apply (vtoc_roundtrip toy_walk (fun _ => None) (fun _ => inr (Errno 22)) toy_enc (toy_dec (length toy_json)) toy_open (fun _ _ => None)
    [str "/d"] [MkFile (str "/d") 0 (2 ^ 31 + 0x1ed) 0 true [] 0 0 0; MkFile (str "/d/a") 5 0x1a4 0 false [] 1000 100 0] toy_vtoc toy_json);
    try reflexivity; [done|].
  repeat constructor; intros Hc Hs; [done|]. exists (str "hello"). done.
Defined.

(** A decoder that leaves the line feed after the table unread, which its documentation allows,
    shifts the contents of every file by one byte. *)
Example archive_shifted :
  let a := hex07 (zlen toy_json) ++ x0a :: toy_json ++ str "hello" in
  fst (decode (toy_dec (length toy_json - 1)) (fun _ _ => None) [inl a] []) !! 3%nat = Some (AWrite (str "d/a") (x0a :: str "hell")).
Proof. reflexivity. Qed.

(** A regular file with the setuid bit has no size in the table and is not extracted. *)
Lemma setuid_file_lost name mtime uid gid size perm b :
  0 <= perm < 0x200 ->
  let v := MkFile name 0 (2 ^ 23 + perm) mtime false [] uid gid 0 in
  visit (fun _ => None) (fun _ => inr (Errno 22)) name (inl (MkW (2 ^ 23 + perm) mtime false size uid gid 0)) = inl (v, None) /\ plan v b = [].
Proof.
  intros Hp. assert (mode_char (2 ^ 23 + perm) = x75) as Hc.
  { assert (forall i, 23 < i -> Z.testbit (2 ^ 23 + perm) i = false) as Hh.
    { intros i Hi. apply Z.bits_above_log2; [lia|]. apply (Z.lt_le_trans _ 24); [|lia]. apply Z.log2_lt_pow2; lia. }
    unfold mode_char, mode_letters. cbn [first_letter]. rewrite !Hh by lia.
    assert (Z.testbit (2 ^ 23 + perm) 23 = true) as ->; [|done].
    rewrite Z.testbit_true by lia. replace ((2 ^ 23 + perm) / 2 ^ 23) with 1; [done|].
    rewrite Z.add_comm. replace (perm + 2 ^ 23) with (perm + 1 * 2 ^ 23) by lia. rewrite Z.div_add, Z.div_small; lia. }
  unfold visit, plan. cbn [w_mode Mode]. by rewrite Hc.
Qed.

(** A sink whose second write fails. *)
Definition flaky : Type := nat * bytes.
#[local] Instance flaky_Writer : Writer flaky := fun '(n, x) b =>
  match n with 1%nat => ((2%nat, x), (0, Some (Errno 5))) | n => ((S n, x ++ b), (zlen b, None)) end.

(** The error of writing the table is lost: the archive has none, and [encode] returns nil. *)
Example encode_drops_error :
  encode toy_walk (fun _ => None) (fun _ => inr (Errno 22)) toy_enc toy_open [str "/d"] (0%nat, []) =
    ((3%nat, str "0000008
hello"), Ret tt).
Proof. reflexivity. Qed.
