(* ===== verification/Ectool.v ===== *)
(** * Embedded controller commands ([cmds/ectool])

    Port access through [/dev/port] ([io.go]) and the host command protocol over it ([lpc.go]), with
    the checksums of a command and of its response; [info] and [main].  A port device is a class of
    byte reads and writes that may fail. *)

From Stdlib Require Import Strings.String.
From S2P Require Export GoIO GoBinary GoText.

(** ** Ports *)

(** [WriteAt] and [ReadAt] on [/dev/port]; the reads change the state of a device too. *)
Class Ports (P : Type) := {
  port_WriteAt : bytes -> Z -> P -> P * option error;
  port_ReadAt : nat -> Z -> P -> P * (bytes * option error)
}.

Section Devports.
Context {P : Type} `{!Ports P}.

Definition ioaddr (z : Z) : Z := u16 z.

Definition out_at (b : bytes) (i : Z) : M P unit := fun p =>
  let '(p, e) := port_WriteAt b i p in (p, match e with None => Ret tt | Some e => Fail e end).

(** The buffer after a read: what was read, then the zeros it was made with. *)
Definition in_at (n : nat) (i : Z) : M P bytes := fun p =>
  let '(p, (b, e)) := port_ReadAt n i p in
  (p, match e with None => Ret (take n (b ++ replicate n x00)) | Some e => Fail e end).

Definition Outb (i : Z) (d : Z) : M P unit := out_at [z2b d] i.
Definition Outw (i : Z) (d : Z) : M P unit := out_at (le_bytes 2 d) i.
Definition Outl (i : Z) (d : Z) : M P unit := out_at (le_bytes 4 d) i.

(** [Outs]: [n] is the index in the loop and the count. *)
Fixpoint Outs_from (i : Z) (n : Z) (d : bytes) : M P Z :=
  match d with
  | [] => mret n
  | b :: d => _ ← Outb (ioaddr (i + ioaddr n)) (b2z b); Outs_from i (n + 1) d
  end.

Definition Outs (i : Z) (d : bytes) : M P Z := Outs_from i 0 d.

Definition Inb (i : Z) : M P Z := b ← in_at 1 i; mret (le_val b).
Definition Inw (i : Z) : M P Z := b ← in_at 2 i; mret (le_val b).
Definition Inl (i : Z) : M P Z := b ← in_at 4 i; mret (le_val b).

Fixpoint Ins_from (i : Z) (n : Z) (amt : nat) : M P bytes :=
  match amt with
  | O => mret []
  | S amt => v ← Inb (ioaddr (i + ioaddr n)); r ← Ins_from i (n + 1) amt; mret (z2b v :: r)
  end.

Definition Ins (i : Z) (amt : nat) : M P bytes := Ins_from i 0 amt.

(** ** The protocol *)

Definition ecLpcAddrHostData : Z := 0x200.
Definition ecLpcAddrHostCmd : Z := 0x204.
Definition ecLpcAddrHostArgs : Z := 0x800.
Definition ecLpcAddrHostParam : Z := 0x804.
Definition ecHostArgsFlagFromHost : Z := 0x01.
Definition ecHostArgsFlagToHost : Z := 0x02.
Definition ecCmdGetChipInfo : Z := 0x05.

(** Durations in nanoseconds. *)
Definition Second : Z := 1000000000.

Record lpc := MkLpc { statusAddr : Z; status : Z; cmd : Z; initial : Z; max : Z }.

(** [newLPC] sets neither [status] nor [cmd]. *)
Definition newLPC (sa i m : Z) : lpc := MkLpc sa 0 0 i m.

(** [Wait]: [i] is the time waited so far; [None] when the fuel has run out. *)
Fixpoint Wait (fuel : nat) (l : lpc) (timeout i delay : Z) (p : P) : option (P * outcome error unit) :=
  match fuel with
  | O => None
  | S fuel =>
      if i <? timeout then
        let delay := if max l <? delay then max l else delay in
        match Inb (statusAddr l) p with
        | (p, Ret v) =>
            if v =? 0 then Some (p, Ret tt)
            else Wait fuel l timeout (i64 (i + initial l)) (if (20 <? i) && (delay <? max l) then i64 (delay * 2) else delay) p
        | (p, Fail e) => Some (p, Fail e)
        | (p, Panic) => Some (p, Panic)
        end
      else Some (p, Fail (Errorf "LPC timed out"))
  end.

(** How many polls there can be. *)
Definition polls (l : lpc) (timeout : Z) : nat := S (Z.to_nat (timeout `div` initial l + 1)).

(** The parameters of a command, and the sum over them. *)
Fixpoint send_data (l : lpc) (i : Z) (csum : Z) (idata : bytes) : M P Z :=
  match idata with
  | [] => mret csum
  | b :: idata => _ ← Outb (ioaddr (statusAddr l + ioaddr i)) (b2z b); send_data l (i + 1) (u8 (csum + b2z b)) idata
  end.

Definition sum_bytes (csum : Z) (b : bytes) : Z := foldl (fun s c => u8 (s + b2z c)) csum b.

(** The part of [Command] up to the wait. *)
Definition send_command (l : lpc) (c v : Z) (idata : bytes) : M P unit :=
  let flags := ecHostArgsFlagFromHost in
  csum ← send_data l 0 (u8 (flags + u8 c + u8 v + u8 (zlen idata))) idata;
  _ ← Outs (statusAddr l) [z2b flags; z2b v; z2b (zlen idata); z2b csum];
  (fun p => let '(p, _) := Outb (cmd l) (u8 c) p in
            let '(p, _) := Outb (status l) 0xa5 p in (p, Ret tt)) : M P unit.

(** The part after it; [dres[2]] and [dout[3]] index what was read. *)
Definition read_response (c v : Z) (outsize : Z) : M P bytes :=
  i ← Inb ecLpcAddrHostData;
  if negb (i =? 0) then raise (Errorf "Bad EC value %d") else
  dres ← Ins ecLpcAddrHostArgs 4;
  if Z.land ecHostArgsFlagFromHost ecHostArgsFlagToHost =? ecHostArgsFlagToHost
  then raise (Errorf "EC appears to have reset (may be expected)") else
  d0 ← lift (or_panic (dres !! 0%nat));
  d2 ← lift (or_panic (dres !! 2%nat));
  if u8 outsize <? b2z d2 then raise (Errorf "EC returned too much data") else
  let csum := u8 (u8 c + b2z d0 + u8 v + b2z d2) in
  dout ← Ins ecLpcAddrHostParam (Z.to_nat (b2z d2));
  let csum := sum_bytes csum dout in
  d3 ← lift (or_panic (dout !! 3%nat));
  if negb (b2z d3 =? csum) then raise (Errorf "EC response has invalid checksum") else mret dout.

(** [Command]; it waits ten seconds whatever its timeout. *)
Definition Command (l : lpc) (c v : Z) (idata : bytes) (outsize : Z) (p : P) : option (P * outcome error bytes) :=
  match send_command l c v idata p with
  | (p, Ret _) =>
      match Wait (polls l (10 * Second)) l (10 * Second) 0 (initial l) p with
      | None => None
      | Some (p, Ret _) => Some (read_response c v outsize p)
      | Some (p, Fail _) => Some (p, Fail (Errorf "Timeout waiting for EC response"))
      | Some (p, Panic) => Some (p, Panic)
      end
  | (p, Fail e) => Some (p, Fail e)
  | (p, Panic) => Some (p, Panic)
  end.

Definition info (l : lpc) (p : P) : option (P * outcome error bytes) := Command l ecCmdGetChipInfo 0 [] 96 p.

(** [main] with the default chip: the result that is printed, or nothing for another command. *)
Definition ectool_main (args : list bytes) (p : P) : option (P * outcome error (option bytes)) :=
  let l := newLPC ecLpcAddrHostCmd (10 * Second) (10 * Second) in
  match args with
  | [] => Some (p, Fail (Errorf "usage: ectool command [args]"))
  | a :: _ =>
      if bytes_eqb a (str "info") then
        match info l p with
        | None => None
        | Some (p, Ret b) => Some (p, Ret (Some b))
        | Some (p, Fail e) => Some (p, Fail e)
        | Some (p, Panic) => Some (p, Panic)
        end
      else Some (p, Ret None)
  end.

(** ** The wait ends *)

Lemma Wait_ends fuel l timeout i delay p :
  0 < initial l -> timeout + initial l < 2 ^ 63 -> 0 <= i -> i < timeout + initial l ->
  (Z.to_nat ((timeout - i + initial l - 1) `div` initial l) < fuel)%nat ->
  exists p' r, Wait fuel l timeout i delay p = Some (p', r).
Proof.
  intros Hi Ht. revert i delay p. induction fuel as [|fuel IH]; intros i delay p H0 Hb Hf; [lia|]. cbn [Wait].
  destruct (Z.ltb_spec i timeout) as [Hlt|Hge]; [|eauto]. destruct (Inb (statusAddr l) p) as [p' [v|e|]]; [|eauto|eauto].
  destruct (v =? 0); [eauto|]. rewrite i64_small by lia. apply IH; [lia|lia|].
  replace (timeout - (i + initial l) + initial l - 1) with (timeout - i + initial l - 1 + (-1) * initial l) by lia.
  rewrite Z.div_add by lia. assert (0 < (timeout - i + initial l - 1) `div` initial l) by (apply Z.div_str_pos; lia). lia.
Qed.

(** The fuel of [Command] is enough. *)
Lemma Command_ends l c v idata outsize p :
  0 < initial l <= 2 ^ 62 -> exists p' r, Command l c v idata outsize p = Some (p', r).
Proof.
  intros Hi. unfold Command. destruct (send_command l c v idata p) as [p1 [u|e|]]; [|eauto|eauto].
  destruct (Wait_ends (polls l (10 * Second)) l (10 * Second) 0 (initial l) p1) as (p2 & r & ->); [lia|unfold Second; lia|lia|unfold Second; lia| |].
  - unfold polls. replace (10 * Second - 0 + initial l - 1) with (10 * Second - 1 + 1 * initial l) by lia. rewrite Z.div_add by lia.
    assert ((10 * Second - 1) `div` initial l <= (10 * Second) `div` initial l) by (apply Z.div_le_mono; lia). lia.
  - destruct r as [u'|e|]; [destruct (read_response c v outsize p2) as [p3 r3]; eauto|eauto|eauto].
Qed.
End Devports.

(** ** A controller that records what is written *)

Record dev := MkDev { writes : list (Z * byte); answer : Z -> byte }.

Fixpoint at_ports (i : Z) (b : bytes) : list (Z * byte) :=
  match b with [] => [] | c :: b => (i, c) :: at_ports (i + 1) b end.

#[export] Instance dev_Ports : Ports dev := {|
  port_WriteAt b i p := (MkDev (writes p ++ at_ports i b) (answer p), None);
  port_ReadAt n i p := (p, ((fun k => answer p (i + Z.of_nat k)) <$> seq 0 n, None))
|}.

Lemma dev_Inb i p : Inb i p = (p, Ret (b2z (answer p i))).
Proof. unfold Inb, mbind, M_bind, in_at. cbn. rewrite Z.add_0_r, Z.add_0_r. done. Qed.

Lemma dev_Outb i d p : Outb i d p = (MkDev (writes p ++ [(i, z2b d)]) (answer p), Ret tt).
Proof. done. Qed.

Lemma send_data_writes l i csum idata p :
  0 <= i -> 0 <= statusAddr l -> statusAddr l + i + zlen idata <= 2 ^ 16 ->
  send_data l i csum idata p =
    (MkDev (writes p ++ at_ports (statusAddr l + i) idata) (answer p), Ret (sum_bytes csum idata)).
Proof.
  revert i csum p. induction idata as [|b idata IH]; intros i csum p Hi Hs Hb; cbn [send_data at_ports].
  - rewrite app_nil_r. by destruct p.
  - rewrite zlen_cons in Hb. pose proof (zlen_nonneg idata). rewrite (M_bind_Ret _ _ _ _ _ (dev_Outb _ _ _)).
    rewrite IH by lia. cbn [writes answer]. unfold ioaddr, u16. rewrite (Z.mod_small i) by lia. rewrite Z.mod_small by lia. rewrite <- app_assoc, z2b_b2z. cbn [app].
    by rewrite Z.add_assoc.
Qed.

Lemma Outs_writes i n d p :
  0 <= n -> 0 <= i -> i + n + zlen d <= 2 ^ 16 ->
  Outs_from i n d p = (MkDev (writes p ++ at_ports (i + n) d) (answer p), Ret (n + zlen d)).
Proof.
  revert n p. induction d as [|b d IH]; intros n p Hn Hi Hb; cbn [Outs_from at_ports].
  - rewrite app_nil_r, Z.add_0_r. by destruct p.
  - rewrite zlen_cons in *. pose proof (zlen_nonneg d). rewrite (M_bind_Ret _ _ _ _ _ (dev_Outb _ _ _)).
    rewrite IH by lia. cbn [writes answer]. unfold ioaddr, u16. rewrite (Z.mod_small n) by lia. rewrite Z.mod_small by lia.
    rewrite <- app_assoc, z2b_b2z. cbn [app]. by rewrite !Z.add_assoc.
Qed.

(** What a command writes: its parameters, then the four argument bytes at the same address, then
    the command and 0xa5 at port 0, because [newLPC] leaves both addresses at zero. *)
Lemma send_command_writes sa i m c v idata p :
  0 <= sa -> sa + zlen idata <= 2 ^ 16 -> sa + 4 <= 2 ^ 16 ->
  let csum := sum_bytes (u8 (1 + u8 c + u8 v + u8 (zlen idata))) idata in
  send_command (newLPC sa i m) c v idata p =
    (MkDev (writes p ++ at_ports sa idata ++ at_ports sa [z2b 1; z2b v; z2b (zlen idata); z2b csum] ++
            [(0, z2b (u8 c)); (0, z2b 0xa5)]) (answer p), Ret tt).
Proof.
  intros Hs Hl H4 csum. unfold send_command.
  rewrite (M_bind_Ret _ _ _ _ _ (send_data_writes (newLPC sa i m) 0 _ idata p ltac:(lia) Hs ltac:(cbn; lia))).
  cbn [statusAddr newLPC]. set (hd := [z2b ecHostArgsFlagFromHost; _; _; _]). assert (zlen hd = 4) as Hh by done.
  unfold Outs. unfold mbind at 1, M_bind at 1. rewrite (Outs_writes sa 0 hd) by lia.
  rewrite !dev_Outb. cbn [writes answer cmd status newLPC]. rewrite !Z.add_0_r. by rewrite <- !app_assoc.
Qed.

Definition zsum (b : bytes) : Z := foldr (fun c s => b2z c + s) 0 b.

(** The checksum of the argument bytes: flags, version, length and parameters with the command. *)
Lemma sum_bytes_add csum b : 0 <= csum < 256 -> sum_bytes csum b = (csum + zsum b) `mod` 256.
Proof.
  revert csum. induction b as [|c b IH]; intros csum Hc.
  - unfold sum_bytes, zsum. cbn [foldl foldr]. rewrite Z.add_0_r. symmetry. by apply Z.mod_small.
  - change (sum_bytes csum (c :: b)) with (sum_bytes (u8 (csum + b2z c)) b). rewrite IH by apply Z.mod_pos_bound, eq_refl.
    unfold u8. change (2 ^ 8) with 256. rewrite Zplus_mod_idemp_l. f_equal. unfold zsum. cbn [foldr]. lia.
Qed.

(** A response of fewer than four bytes is a crash: the checksum is looked for in the fourth byte of
    the data. *)
Lemma read_response_short c v outsize w (ans : Z -> byte) :
  b2z (ans 0x200) = 0 -> b2z (ans 0x802) < 4 -> b2z (ans 0x802) <= u8 outsize ->
  snd (read_response c v outsize (MkDev w ans)) = Panic.
Proof.
  intros H0 H2 Hs. unfold read_response. change ecLpcAddrHostData with 0x200. change ecLpcAddrHostArgs with 0x800.
  change ecLpcAddrHostParam with 0x804. unfold mbind at 1, M_bind at 1. rewrite dev_Inb. cbn [answer]. rewrite H0. cbn [Z.eqb negb].
  assert (forall n k p, 0 <= n -> answer p = ans -> 0x804 + n + Z.of_nat k <= 2 ^ 16 -> forall i, 0 <= i <= 0x804 ->
    Ins_from i n k p = (p, Ret ((fun j => ans (i + n + Z.of_nat j)) <$> seq 0 k))) as HI.
  { intros n k. revert n. induction k as [|k IH]; intros n p Hn Hp Hb i Hi; [done|]. cbn [Ins_from].
    unfold mbind at 1, M_bind at 1. rewrite dev_Inb, Hp. unfold mbind, M_bind. rewrite IH by (done || lia). unfold mret, M_ret. cbn [seq fmap list_fmap].
    unfold ioaddr, u16. rewrite (Z.mod_small n) by lia. rewrite Z.mod_small by lia. rewrite z2b_b2z, Z.add_0_r. do 3 f_equal.
    rewrite <- fmap_S_seq, <- list_fmap_compose. apply list_fmap_ext. intros j x _. cbn. f_equal. lia. }
  unfold mbind at 1, M_bind at 1, Ins. rewrite HI by (done || lia). cbn [seq fmap list_fmap].
  change (Z.land _ _ =? _) with false. cbv iota. unfold mbind at 1, M_bind at 1, lift at 1. cbn [lookup list_lookup or_panic].
  unfold mbind at 1, M_bind at 1, lift at 1. cbn [lookup list_lookup or_panic]. change (0x800 + 0 + Z.of_nat 2) with 0x802.
  destruct (Z.ltb_spec (u8 outsize) (b2z (ans 0x802))); [lia|]. pose proof (b2z_range (ans 0x802)).
  unfold mbind at 1, M_bind at 1. rewrite HI by (done || lia). unfold mbind at 1, M_bind at 1, lift at 1.
  rewrite lookup_ge_None_2; [done|]. rewrite length_fmap, length_seq. lia.
Qed.

(** A controller that answers as the protocol asks, with the checksum in the last of the argument
    bytes, is not understood. *)
Definition good_ec (a : Z) : byte :=
  z2b (if a =? 0x800 then 2 else if a =? 0x801 then 0 else if a =? 0x802 then 8 else if a =? 0x803 then 5 + 2 + 8 else 0).

Example command_rejects_good_answer :
  match ectool_main [str "info"] (MkDev [] good_ec) with Some (_, Fail e) => bool_decide (e = Errorf "EC response has invalid checksum") | _ => false end = true.
Proof. vm_compute. reflexivity. Qed.

(** The parameters of a command are overwritten by its argument bytes. *)
Example send_overlap :
  writes (fst (send_command (newLPC 0x204 1 1) 7 0 [x41; x42] (MkDev [] good_ec))) =
    [(0x204, x41); (0x205, x42); (0x204, x01); (0x205, x00); (0x206, x02); (0x207, x8d); (0, x07); (0, xa5)].
Proof. reflexivity. Qed.

(** ** The start of [main] *)

(** [newDevPorts]: no ports when [/dev/port] cannot be created. *)
Definition newDevPorts {P} (create : option error) (p : P) : option P * option error :=
  match create with Some e => (None, Some e) | None => (Some p, None) end.

(** [chips]: [init] registers one. *)
Definition chips (name : bytes) : option (Z -> Z -> Z -> lpc) := if bytes_eqb name (str "lpc") then Some newLPC else None.

(** The whole of [main]: an error of [newDevPorts] is only printed, and the method of the nil
    interface is called later.  The status is that of [os.Exit]. *)
Inductive ended := Exit (status : Z) | Unknown | Shown (r : outcome error bytes) | Crash.

Definition ectool {P} `{!Ports P} (create : option error) (chip : bytes) (args : list bytes) (p : P) : option (P * ended) :=
  let '(ports, _) := newDevPorts create p in
  match chips chip with
  | None => Some (p, Exit 1)
  | Some c =>
      let l := c ecLpcAddrHostCmd (10 * Second) (10 * Second) in
      match args with
      | [] => Some (p, Exit 1)
      | a :: _ =>
          if bytes_eqb a (str "info") then
            match ports with
            | None => Some (p, Crash)
            | Some p =>
                match info l p with
                | None => None
                | Some (p, Panic) => Some (p, Crash)
                | Some (p, r) => Some (p, Shown r)
                end
            end
          else Some (p, Unknown)
      end
  end.

(** [main] always ends. *)
Theorem ectool_ends {P} `{!Ports P} create chip args (p : P) : exists p' e, ectool create chip args p = Some (p', e).
Proof.
  unfold ectool. destruct (newDevPorts create p) as [ports err]. unfold chips. destruct (bytes_eqb chip _); [|eauto].
  destruct args as [|a args]; [eauto|]. destruct (bytes_eqb a _); [|eauto]. destruct ports as [q|]; [|eauto].
  unfold info. destruct (Command_ends (newLPC ecLpcAddrHostCmd (10 * Second) (10 * Second)) ecCmdGetChipInfo 0 [] 96 q) as (q' & r & ->).
  { cbn [initial newLPC]. unfold Second. lia. }
  destruct r; eauto.
Qed.

(** ** Masks and packed fields of [commands.go] *)

(** A shift of a [uint8] by a [uint8]: all bits are gone from the eighth place on. *)
Definition shl8 (x n : Z) : Z := u8 (Z.shiftl x n).

Definition ecHostEventMask (eventCode : Z) : Z := shl8 1 (u8 (eventCode - 1)).
Definition ecVerMask (version : Z) : Z := shl8 1 version.

Definition pdLogSizeMask : Z := 0x1f.
Definition pdLogPortShift : Z := 5.
Definition pdLogPortSize (port size : Z) : Z := Z.lor (shl8 port pdLogPortShift) (Z.land size pdLogSizeMask).
Definition pdLogPort (sizePort : Z) : Z := Z.shiftr sizePort pdLogPortShift.
Definition pdLogSize (sizePort : Z) : Z := Z.land sizePort pdLogSizeMask.

Definition mcdpChipid (chipid : bytes) : outcome error Z :=
  a ← or_panic (chipid !! 0%nat); b ← or_panic (chipid !! 1%nat); Ret (Z.lor (u16 (Z.shiftl (b2z a) 8)) (b2z b)).
Definition mcdpFamily (family : bytes) : outcome error Z :=
  a ← or_panic (family !! 0%nat); b ← or_panic (family !! 1%nat); Ret (Z.lor (u16 (Z.shiftl (b2z a) 8)) (b2z b)).

Definition ecCmdPassthruOffset (n : Z) : Z := u64 (0x4000 * n).
Definition ecCmdPassthruMax (n : Z) : Z := u64 (ecCmdPassthruOffset n + 0x3fff).

Lemma shl8_pow n : 0 <= n -> shl8 1 n = if n <? 8 then 2 ^ n else 0.
Proof.
  intros Hn. unfold shl8, u8. rewrite Z.shiftl_1_l. destruct (Z.ltb_spec n 8).
  - apply Z.mod_small. split; [lia|]. apply Z.pow_lt_mono_r; lia.
  - replace n with (8 + (n - 8)) by lia. rewrite Z.pow_add_r by lia. rewrite Z.mul_comm. apply Z.mod_mul. lia.
Qed.

(** The mask of an event has its bit only for the first eight events; the others of the table, and
    event 0, have no bit at all. *)
Theorem ecHostEventMask_bit e :
  0 <= e < 256 -> ecHostEventMask e = if (1 <=? e) && (e <=? 8) then 2 ^ (e - 1) else 0.
Proof.
  intros He. unfold ecHostEventMask. destruct (Z.eq_dec e 0) as [->|]; [done|].
  unfold u8. rewrite Z.mod_small, shl8_pow by lia.
  destruct (Z.leb_spec 1 e), (Z.leb_spec e 8), (Z.ltb_spec (e - 1) 8); lia || done.
Qed.

(** The port and the size of a log entry are read back from its packed byte, cut to three and to
    five bits. *)
Theorem pdLog_unpacks port size :
  0 <= port < 256 -> 0 <= size < 256 ->
  pdLogPort (pdLogPortSize port size) = port `mod` 8 /\ pdLogSize (pdLogPortSize port size) = size `mod` 32.
Proof.
  intros Hp Hs.
  assert (pdLogPortSize port size = 32 * (port `mod` 8) + size `mod` 32) as ->.
  { unfold pdLogPortSize, shl8, u8, pdLogPortShift, pdLogSizeMask. change 0x1f with (Z.ones 5). rewrite Z.land_ones by lia.
    rewrite Z.shiftl_mul_pow2 by lia. change (2 ^ 8) with (8 * 2 ^ 5). rewrite Z.mul_mod_distr_r by lia.
    rewrite <- Z.shiftl_mul_pow2, lor_shift by (lia || apply Z.mod_pos_bound; lia). change (2 ^ 5) with 32. lia. }
  assert (0 <= size `mod` 32 < 32) by (apply Z.mod_pos_bound; lia).
  unfold pdLogPort, pdLogSize, pdLogPortShift, pdLogSizeMask. change 0x1f with (Z.ones 5). rewrite Z.shiftr_div_pow2, Z.land_ones by lia.
  change (2 ^ 5) with 32. rewrite (Z.mul_comm 32), Z.add_comm. split.
  - rewrite Z.div_add, Z.div_small by lia. lia.
  - rewrite Z.mod_add, Z.mod_mod by lia. done.
Qed.

(** The commands of different sub-devices do not meet: the range of the one ends below that of the
    next. *)
Theorem passthru_disjoint n :
  0 <= n -> 0x4000 * (n + 1) < 2 ^ 64 ->
  ecCmdPassthruOffset n <= ecCmdPassthruMax n < ecCmdPassthruOffset (n + 1).
Proof. intros. unfold ecCmdPassthruMax, ecCmdPassthruOffset. rewrite !u64_small by (rewrite ?u64_small; lia). lia. Qed.

(** Ports that cannot be opened are used all the same. *)
Example no_port_crashes : option_map snd (ectool (Some (Errno 13)) (str "lpc") [str "info"] (MkDev [] good_ec)) = Some Crash.
Proof. reflexivity. Qed.

(** The mask of a thermal event (9) has no bit. *)
Example event_mask_lost : ecHostEventMask 9 = 0 /\ ecHostEventMask 32 = 0.
Proof. done. Qed.
