(* ===== verification/GoDecls.v ===== *)
(** * Declarations of constants and types

    The meaning of the declarations of a Go package that declares constants and types only, as the
    language defines it: a group of constants with [iota] and with the repetition of the last
    expression for a name that stands alone, typed constants that have to be representable in their
    type, and the sizes of structures, as [encoding/binary] writes them and as the compiler lays
    them out on amd64. *)

From stdpp Require Import strings.
From S2P Require Import Prelude.
Local Open Scope Z_scope.

(** ** Constants *)

Inductive const_expr : Type :=
| Num (n : Z)
| Iota
| Ref (x : string)
| Neg (a : const_expr)
| Not (a : const_expr)
| Shl (a b : const_expr)
| Or (a b : const_expr)
| Add (a b : const_expr)
| Sub (a b : const_expr)
| Conv (t : string) (a : const_expr).

(** [x T = e], [x = e] or [x]. *)
Record const_spec := MkConst { c_name : string; c_init : option (option string * const_expr) }.

Definition typed (x t : string) (e : const_expr) : const_spec := MkConst x (Some (Some t, e)).
Definition same (x : string) : const_spec := MkConst x None.
Declare Scope go_decl_scope.
Delimit Scope go_decl_scope with go_decl.
Notation "x ::= e" := (MkConst x (Some (None, e))) (at level 70) : go_decl_scope.

Inductive go_type : Type :=
| U8 | U16 | U32 | I8 | I16 | I32 | Int | F32
| Arr (n : const_expr) (t : go_type)
| Sl (t : go_type)
| Named (x : string).

Inductive decl : Type :=
| Consts (l : list const_spec)
| TypeOf (x : string) (t : go_type)
| StructOf (x : string) (fields : list (string * go_type)).

(** What is known of a type: the values of an integer type, the number of bytes of
    [encoding/binary] if it has a fixed one, and its size and alignment in memory. *)
Record type_info := MkInfo { t_range : option (Z * Z); t_wire : option Z; t_mem : Z; t_align : Z }.

Definition value : Type := option string * Z.

Record scope := MkScope { s_consts : gmap string value; s_types : gmap string type_info; s_names : list string }.

Definition empty_scope : scope := MkScope ∅ ∅ [].

Definition in_range (r : Z * Z) (v : Z) : bool := (r.1 <=? v) && (v <=? r.2).

(** A constant is representable in its type; one without a type always is. *)
Definition representable (s : scope) (v : value) : bool :=
  match v.1 with
  | None => true
  | Some t => match s_types s !! t with Some i => match t_range i with Some r => in_range r v.2 | None => false end | None => false end
  end.

(** The type of an operation on two constants: a constant without a type takes the other's. *)
Definition join (t u : option string) : option (option string) :=
  match t, u with
  | None, _ => Some u
  | _, None => Some t
  | Some x, Some y => if decide (x = y) then Some (Some x) else None
  end.

Definition checked_value (s : scope) (v : value) : option value := if representable s v then Some v else None.

Definition binary (s : scope) (f : Z -> Z -> Z) (a b : option value) : option value :=
  '(t, x) ← a; '(u, y) ← b; w ← join t u; checked_value s (w, f x y).

(** Every step of a constant expression has to be representable, too. *)
Fixpoint eval (s : scope) (iota : Z) (e : const_expr) : option value :=
  match e with
  | Num n => Some (None, n)
  | Iota => Some (None, iota)
  | Ref x => s_consts s !! x
  | Neg a => '(t, x) ← eval s iota a; checked_value s (t, - x)
  | Not a => '(t, x) ← eval s iota a; match t with None => Some (None, - x - 1) | Some _ => None end
  | Shl a b => '(t, x) ← eval s iota a; '(_, y) ← eval s iota b; if 0 <=? y then checked_value s (t, Z.shiftl x y) else None
  | Or a b => binary s Z.lor (eval s iota a) (eval s iota b)
  | Add a b => binary s Z.add (eval s iota a) (eval s iota b)
  | Sub a b => binary s Z.sub (eval s iota a) (eval s iota b)
  | Conv t a => '(_, x) ← eval s iota a; checked_value s (Some t, x)
  end.

(** The value of a specification: the conversion to its type, if it has one. *)
Definition spec_value (s : scope) (iota : Z) (init : option string * const_expr) : option value :=
  '(u, v) ← eval s iota init.2; t ← join init.1 u; checked_value s (t, v).

(** A name may be declared once. *)
Definition declared (s : scope) (x : string) : bool :=
  match s_consts s !! x, s_types s !! x with None, None => false | _, _ => true end.

Definition declare_const (s : scope) (x : string) (v : value) : option scope :=
  if declared s x then None else Some (MkScope (<[x := v]> (s_consts s)) (s_types s) (x :: s_names s)).

(** A group: [iota] counts the specifications; one without an expression repeats the last. *)
Fixpoint elab_consts (s : scope) (iota : Z) (last : option (option string * const_expr)) (l : list const_spec) : option scope :=
  match l with
  | [] => Some s
  | c :: l =>
      init ← match c_init c with Some i => Some i | None => last end;
      v ← spec_value s iota init;
      s' ← declare_const s (c_name c) v;
      elab_consts s' (iota + 1) (Some init) l
  end.

(** ** Types *)

Definition int_info (lo hi n : Z) : type_info := MkInfo (Some (lo, hi)) (Some n) n n.

(** The size of a field rounded up to the alignment. *)
Definition align_up (n a : Z) : Z := (n + a - 1) / a * a.

Fixpoint elab_type (s : scope) (t : go_type) : option type_info :=
  match t with
  | U8 => Some (int_info 0 0xff 1)
  | U16 => Some (int_info 0 0xffff 2)
  | U32 => Some (int_info 0 0xffffffff 4)
  | I8 => Some (int_info (-0x80) 0x7f 1)
  | I16 => Some (int_info (-0x8000) 0x7fff 2)
  | I32 => Some (int_info (-0x80000000) 0x7fffffff 4)
  | Int => Some (MkInfo (Some (-0x8000000000000000, 0x7fffffffffffffff)) None 8 8)
  | F32 => Some (MkInfo None (Some 4) 4 4)
  | Arr n t =>
      '(_, k) ← eval s 0 n; i ← elab_type s t;
      if 0 <=? k then Some (MkInfo None ((fun w => k * w) <$> t_wire i) (k * t_mem i) (t_align i)) else None
  | Sl t => i ← elab_type s t; Some (MkInfo None None 24 8)
  | Named x => s_types s !! x
  end.

Definition add_field (acc i : type_info) : type_info :=
  MkInfo None (a ← t_wire acc; b ← t_wire i; Some (a + b)) (align_up (t_mem acc) (t_align i) + t_mem i) (Z.max (t_align acc) (t_align i)).

Definition elab_fields (s : scope) (fields : list (string * go_type)) : option type_info :=
  infos ← mapM (fun f => elab_type s f.2) fields;
  let i := foldl add_field (MkInfo None (Some 0) 0 1) infos in
  if decide (NoDup fields.*1) then Some (MkInfo None (t_wire i) (align_up (t_mem i) (t_align i)) (t_align i)) else None.

Definition declare_type (s : scope) (x : string) (i : type_info) : option scope :=
  if declared s x then None else Some (MkScope (s_consts s) (<[x := i]> (s_types s)) (x :: s_names s)).

Definition elab_decl (s : scope) (d : decl) : option scope :=
  match d with
  | Consts l => elab_consts s 0 None l
  | TypeOf x t => i ← elab_type s t; declare_type s x i
  | StructOf x fields => i ← elab_fields s fields; declare_type s x i
  end.

Definition elab (s : scope) (ds : list decl) : option scope := foldl (fun os d => s ← os; elab_decl s d) (Some s) ds.

(** The values of constants and the sizes of types of an elaborated package. *)
Definition lookup_const (s : scope) (x : string) : option Z := snd <$> s_consts s !! x.
Definition lookup_wire (s : scope) (x : string) : option Z := i ← s_types s !! x; t_wire i.
Definition lookup_mem (s : scope) (x : string) : option Z := t_mem <$> s_types s !! x.

Definition elab_package (ds : list decl) : option scope := elab empty_scope ds.

(** ** What the elaboration guarantees *)

(** Every constant is representable in its type, and everything declared has a name of its own. *)
Record well_typed (s : scope) : Prop := {
  wt_consts : forall x v, s_consts s !! x = Some v -> representable s v = true;
  wt_names : NoDup (s_names s);
  wt_declared : forall x, x ∈ s_names s <-> is_Some (s_consts s !! x) \/ is_Some (s_types s !! x)
}.

Lemma checked_value_ok s v w : checked_value s v = Some w -> w = v /\ representable s w = true.
Proof. unfold checked_value. destruct (representable s v) eqn:E; naive_solver. Qed.

Lemma spec_value_ok s i e v : spec_value s i e = Some v -> representable s v = true.
Proof.
  unfold spec_value. intros ([u x] & _ & H)%bind_Some. apply bind_Some in H as (t & _ & H). by apply checked_value_ok in H as [_ ?].
Qed.

Lemma declared_spec s x : well_typed s -> declared s x = false -> (x ∉ s_names s) /\ s_consts s !! x = None /\ s_types s !! x = None.
Proof.
  intros [_ _ Hd] H. unfold declared in H. destruct (s_consts s !! x) eqn:E1, (s_types s !! x) eqn:E2; try done.
  split; [|done]. rewrite Hd, E1, E2. by intros [[? ?]|[? ?]].
Qed.

(** Declaring one more name. *)
Lemma names_insert {A} (m : gmap string A) (ns : list string) (P : string -> Prop) x a :
  (forall y, y ∈ ns <-> is_Some (m !! y) \/ P y) -> forall y, y ∈ x :: ns <-> is_Some (<[x := a]> m !! y) \/ P y.
Proof.
  intros H y. rewrite elem_of_cons, H. destruct (decide (x = y)) as [->|Hxy].
  - rewrite lookup_insert_eq. split; [intros _; left; eauto|by left].
  - rewrite lookup_insert_ne by done. split; [intros [->|?]; [done|done]|by right].
Qed.

Lemma well_typed_empty : well_typed empty_scope.
Proof.
  split; [intros x v H; cbn in H; by rewrite lookup_empty in H|constructor|]. intros x. cbn. rewrite !lookup_empty.
  split; [by intros ?%elem_of_nil|by intros [[? ?]|[? ?]]].
Qed.

Lemma declare_const_ok s x v s' : well_typed s -> representable s v = true -> declare_const s x v = Some s' -> well_typed s'.
Proof.
  intros Hs Hv. unfold declare_const. destruct (declared s x) eqn:E; [done|]. intros [= <-].
  destruct (declared_spec s x Hs E) as [Hx _]. destruct Hs as [Hc Hn Hd]. split; cbn.
  - intros y w H. apply lookup_insert_Some in H as [[<- <-]|[_ H]]; [apply Hv|by apply (Hc y)].
  - by constructor.
  - by apply names_insert.
Qed.

Lemma elab_consts_ok s i last l s' : well_typed s -> elab_consts s i last l = Some s' -> well_typed s'.
Proof.
  revert s i last. induction l as [|c l IH]; intros s i last Hs; [by intros [= <-]|]. cbn.
  intros (e & _ & H)%bind_Some. apply bind_Some in H as (v & Hv & H). apply bind_Some in H as (s1 & Hd & H).
  eapply IH, H. eapply declare_const_ok, Hd; [done|]. by eapply spec_value_ok.
Qed.

Lemma declare_type_ok s x i s' : well_typed s -> declare_type s x i = Some s' -> well_typed s'.
Proof.
  intros Hs. unfold declare_type. destruct (declared s x) eqn:E; [done|]. intros [= <-].
  destruct (declared_spec s x Hs E) as (Hx & _ & Ht). destruct Hs as [Hc Hn Hd]. split; cbn.
  - intros y w H. pose proof (Hc y w H) as Hr. unfold representable in *. destruct w as [[t|] z]; [|done]. cbn [fst snd] in *.
    destruct (decide (x = t)) as [->|Hxt]; [by rewrite Ht in Hr|]. cbn. by rewrite lookup_insert_ne.
  - by constructor.
  - intros y. rewrite (names_insert (s_types s) (s_names s) (fun y => is_Some (s_consts s !! y)) x i); [tauto|].
    intros z. rewrite Hd. tauto.
Qed.

Lemma elab_decl_ok s d s' : well_typed s -> elab_decl s d = Some s' -> well_typed s'.
Proof.
  intros Hs. destruct d as [l|x t|x fs]; cbn; [by apply elab_consts_ok| |]; intros (i & _ & H)%bind_Some; by eapply declare_type_ok, H.
Qed.

Lemma elab_None ds : foldl (fun os d => s ← os; elab_decl s d) None ds = None.
Proof. by induction ds. Qed.

Lemma elab_ok s ds s' : well_typed s -> elab s ds = Some s' -> well_typed s'.
Proof.
  unfold elab. revert s. induction ds as [|d ds IH]; intros s Hs; [by intros [= <-]|]. cbn.
  destruct (elab_decl s d) as [s1|] eqn:E; cbn; [|by rewrite elab_None]. apply IH. by eapply elab_decl_ok.
Qed.

Lemma elab_package_ok ds s : elab_package ds = Some s -> well_typed s.
Proof. apply elab_ok, well_typed_empty. Qed.

(** ** Repeated expressions *)

Definition bare (c : const_spec) : bool := bool_decide (c_init c = None).

(** What a closed expression without [iota] evaluates to does not depend on the constants declared. *)
Fixpoint literal (e : const_expr) : bool :=
  match e with
  | Num _ => true
  | Iota | Ref _ => false
  | Neg a | Not a | Conv _ a => literal a
  | Shl a b | Or a b | Add a b | Sub a b => literal a && literal b
  end.

Lemma eval_literal s s' i j e : s_types s = s_types s' -> literal e = true -> eval s i e = eval s' j e.
Proof.
  intros Et. assert (forall v, representable s v = representable s' v) as Er by (intros v; unfold representable; by rewrite Et).
  assert (forall v, checked_value s v = checked_value s' v) as Ec by (intros v; unfold checked_value; by rewrite Er).
  induction e as [n| |x|a IH|a IH|a IHa b IHb|a IHa b IHb|a IHa b IHb|a IHa b IHb|t a IH]; cbn; try done;
    rewrite ?andb_true_iff; intros H; unfold binary; rewrite ?IH, ?IHa, ?IHb by naive_solver;
    repeat (apply option_bind_ext_fun; intros []); rewrite ?Ec; try done; by repeat case_match.
Qed.

Lemma spec_value_literal s s' i j e : s_types s = s_types s' -> literal e.2 = true -> spec_value s i e = spec_value s' j e.
Proof.
  intros Et He. unfold spec_value. rewrite (eval_literal s s' i j) by done. apply option_bind_ext_fun. intros [u v].
  apply option_bind_ext_fun. intros t. unfold checked_value, representable. by rewrite Et.
Qed.

(** Names that stand alone after an expression without [iota] all get the same value. *)
Lemma elab_repeat s i e l s' v :
  literal e.2 = true -> forallb bare l = true -> spec_value s i e = Some v -> elab_consts s i (Some e) l = Some s' ->
  Forall (fun c => s_consts s' !! c_name c = Some v) l /\ forall x w, s_consts s !! x = Some w -> x ∉ (c_name <$> l) -> s_consts s' !! x = Some w.
Proof.
  intros He. revert s i. induction l as [|c l IH]; intros s i Hb Hv; cbn; [by intros [= <-]|].
  cbn in Hb. apply andb_prop in Hb as [Hc Hb]. apply bool_decide_eq_true in Hc. rewrite Hc. cbn. rewrite Hv. cbn.
  intros (s1 & Hd & H)%bind_Some. unfold declare_const in Hd. destruct (declared s (c_name c)); [done|]. injection Hd as <-.
  assert (spec_value (MkScope (<[c_name c := v]> (s_consts s)) (s_types s) (c_name c :: s_names s)) (i + 1) e = Some v) as Hv'
    by (rewrite <- Hv; by apply spec_value_literal).
  pose proof (IH _ _ Hb Hv' H) as [Hl Hk]. split.
  - constructor; [|done]. destruct (decide (c_name c ∈ c_name <$> l)) as [Hin|Hin].
    + apply list_elem_of_fmap in Hin as (c' & -> & Hin). rewrite Forall_forall in Hl. by apply Hl.
    + apply Hk; [|done]. cbn. by rewrite lookup_insert_eq.
  - intros x w Hw Hin. apply not_elem_of_cons in Hin as [H1 H2]. apply Hk; [|done]. cbn. by rewrite lookup_insert_ne.
Qed.
