(* ===== verification/EcTable.v ===== *)
(** * The protocol of the embedded controller

    The declarations of [cmds/ectool/commands.go], in the order of the file, read with the meaning
    of [GoDecls]: the constants of the protocol, the numbers of the commands, and the structures of
    their parameters and responses.  The functions of the file are in [Ectool]. *)

From stdpp Require Import strings.
From S2P Require Import Prelude GoDecls.
From S2P Require Ectool.
Local Open Scope Z_scope.
Local Open Scope go_decl_scope.

(** Lines 10 to 165. *)
Definition lpc_decls_1 : list const_spec := [
  "ecProtoVersion" ::= Num 0x00000002; "ecLpcAddrAcpiData" ::= Num 0x62; "ecLpcAddrAcpiCmd" ::= Num 0x66;
  "ecLpcAddrHostData" ::= Num 0x200; "ecLpcAddrHostCmd" ::= Num 0x204; "ecLpcAddrHostArgs" ::= Num 0x800;
  "ecLpcAddrHostParam" ::= Num 0x804; "ecLpcAddrHostPacket" ::= Num 0x800; "ecLpcHostPacketSize" ::= Num 0x100;
  "ecHostCmdRegion0" ::= Num 0x800; "ecHostCmdRegion1" ::= Num 0x880; "ecHostCmdRegionSize" ::= Num 0x80;
  "ecLpcCmdrData" ::= Shl (Num 1) (Num 0); "ecLpcCmdrPending" ::= Shl (Num 1) (Num 1);
  "ecLpcCmdrBusy" ::= Shl (Num 1) (Num 2); "ecLpcCmdrCmd" ::= Shl (Num 1) (Num 3);
  "ecLpcCmdrAcpiBrst" ::= Shl (Num 1) (Num 4); "ecLpcCmdrSci" ::= Shl (Num 1) (Num 5);
  "ecLpcCmdrSmi" ::= Shl (Num 1) (Num 6); "ecLpcAddrMemmap" ::= Num 0x900; "ecMemmapSize" ::= Num 255;
  "ecMemmapTextMax" ::= Num 8; "ecMemmapTempSensor" ::= Num 0x00; "ecMemmapFan" ::= Num 0x10;
  "ecMemmapTempSensorB" ::= Num 0x18; "ecMemmapID" ::= Num 0x20; "ecMemmapIDVersion" ::= Num 0x22;
  "ecMemmapThermalVersion" ::= Num 0x23; "ecMemmapBatteryVersion" ::= Num 0x24;
  "ecMemmapSwitchesVersion" ::= Num 0x25; "ecMemmapEventsVersion" ::= Num 0x26; "ecMemmapHostCmdFlags" ::= Num 0x27;
  "ecMemmapSwitches" ::= Num 0x30; "ecMemmapHostEvents" ::= Num 0x34; "ecMemmapBattVolt" ::= Num 0x40;
  "ecMemmapBattRate" ::= Num 0x44; "ecMemmapBattCap" ::= Num 0x48; "ecMemmapBattFlag" ::= Num 0x4c;
  "ecMemmapBattDcap" ::= Num 0x50; "ecMemmapBattDvlt" ::= Num 0x54; "ecMemmapBattLfcc" ::= Num 0x58;
  "ecMemmapBattCcnt" ::= Num 0x5c; "ecMemmapBattMfgr" ::= Num 0x60; "ecMemmapBattModel" ::= Num 0x68;
  "ecMemmapBattSerial" ::= Num 0x70; "ecMemmapBattType" ::= Num 0x78; "ecMemmapAls" ::= Num 0x80;
  "ecMemmapAccStatus" ::= Num 0x90; "ecMemmapAccData" ::= Num 0x92; "ecMemmapGyroData" ::= Num 0xa0;
  "ecMemmapNoAcpi" ::= Num 0xe0; "ecMemmapAccStatusSampleIDMask" ::= Num 0x0f;
  "ecMemmapAccStatusBusyBit" ::= Shl (Num 1) (Num 4); "ecMemmapAccStatusPresenceBit" ::= Shl (Num 1) (Num 7);
  "ecTempSensorEntries" ::= Num 16; "ecTempSensorBEntries" ::= Num 8; "ecTempSensorNotPresent" ::= Num 0xff;
  "ecTempSensorError" ::= Num 0xfe; "ecTempSensorNotPowered" ::= Num 0xfd; "ecTempSensorNotCalibrated" ::= Num 0xfc;
  "ecTempSensorOffset" ::= Num 200; "ecAlsEntries" ::= Num 2;
  "ecTempSensorDefault" ::= Sub (Num 296) (Ref "ecTempSensorOffset"); "ecFanSpeedEntries" ::= Num 4;
  "ecFanSpeedNotPresent" ::= Num 0xffff; "ecFanSpeedStalled" ::= Num 0xfffe; "ecBattFlagAcPresent" ::= Num 0x01;
  "ecBattFlagBattPresent" ::= Num 0x02; "ecBattFlagDischarging" ::= Num 0x04; "ecBattFlagCharging" ::= Num 0x08;
  "ecBattFlagLevelCritical" ::= Num 0x10; "ecSwitchLidOpen" ::= Num 0x01; "ecSwitchPowerButtonPressed" ::= Num 0x02;
  "ecSwitchWriteProtectDisabled" ::= Num 0x04; "ecSwitchIgnore1" ::= Num 0x08;
  "ecSwitchDedicatedRecovery" ::= Num 0x10; "ecSwitchIgnore0" ::= Num 0x20;
  "ecHostCmdFlagLpcArgsSupported" ::= Num 0x01; "ecHostCmdFlagVersion3" ::= Num 0x02].

(** Lines 168 to 311. *)
Definition lpc_decls_2 : list const_spec := [
  "ecWirelessSwitchAll" ::= Not (Num 0x00); "ecWirelessSwitchWlan" ::= Num 0x01;
  "ecWirelessSwitchBluetooth" ::= Num 0x02; "ecWirelessSwitchWwan" ::= Num 0x04;
  "ecWirelessSwitchWlanPower" ::= Num 0x08; "ecCmdAcpiRead" ::= Num 0x80; "ecCmdAcpiWrite" ::= Num 0x81;
  "ecCmdAcpiBurstEnable" ::= Num 0x82; "ecCmdAcpiBurstDisable" ::= Num 0x83; "ecCmdAcpiQueryEvent" ::= Num 0x84;
  "ecAcpiMemVersion" ::= Num 0x00; "ecAcpiMemTest" ::= Num 0x01; "ecAcpiMemTestCompliment" ::= Num 0x02;
  "ecAcpiMemKeyboardBacklight" ::= Num 0x03; "ecAcpiMemFanDuty" ::= Num 0x04; "ecAcpiMemTempID" ::= Num 0x05;
  "ecAcpiMemTempThreshold" ::= Num 0x06; "ecAcpiMemTempCommit" ::= Num 0x07;
  "ecAcpiMemTempCommitSelectMask" ::= Shl (Num 1) (Num 0); "ecAcpiMemTempCommitEnableMask" ::= Shl (Num 1) (Num 1);
  "ecAcpiMemChargingLimit" ::= Num 0x08; "ecAcpiMemChargingLimitStepMa" ::= Num 64;
  "ecAcpiMemChargingLimitDisabled" ::= Num 0xff; "ecAcpiMemMappedBegin" ::= Num 0x20;
  "ecAcpiMemMappedSize" ::= Num 0xe0; "ecAcpiMemVersionCurrent" ::= Num 2].

(** Lines 321 to 342. *)
Definition lpc_decls_3 : list const_spec := [
  "ecLpcStatusToHost" ::= Num 0x01; "ecLpcStatusFromHost" ::= Num 0x02; "ecLpcStatusProcessing" ::= Num 0x04;
  "ecLpcStatusLastCmd" ::= Num 0x08; "ecLpcStatusBurstMode" ::= Num 0x10; "ecLpcStatusSciPending" ::= Num 0x20;
  "ecLpcStatusSmiPending" ::= Num 0x40; "ecLpcStatusReserved" ::= Num 0x80;
  "ecLpcStatusBusyMask" ::= Or (Ref "ecLpcStatusFromHost") (Ref "ecLpcStatusProcessing")].

Definition lpc_decls : list decl := [Consts (lpc_decls_1 ++ lpc_decls_2 ++ lpc_decls_3)].

(** Lines 345 to 431. *)
Definition result_decls : list decl := [
  TypeOf "ecStatus" U8;
  Consts [
    typed "ecResSuccess" "ecStatus" (Num 0); "ecResInvalidCommand" ::= Num 1; "ecResError" ::= Num 2;
    "ecResInvalidParam" ::= Num 3; "ecResAccessDenied" ::= Num 4; "ecResInvalidResponse" ::= Num 5;
    "ecResInvalidVersion" ::= Num 6; "ecResInvalidChecksum" ::= Num 7; "ecResInProgress" ::= Num 8;
    "ecResUnavailable" ::= Num 9; "ecResTimeout" ::= Num 10; "ecResOverflow" ::= Num 11;
    "ecResInvalidHeader" ::= Num 12; "ecResRequestTruncated" ::= Num 13; "ecResResponseTooBig" ::= Num 14;
    "ecResBusError" ::= Num 15; "ecResBusy" ::= Num 16];
  TypeOf "hostEventCode" U8;
  Consts [
    typed "ecHostEventLidClosed" "hostEventCode" (Num 1); "ecHostEventLidOpen" ::= Num 2;
    "ecHostEventPowerButton" ::= Num 3; "ecHostEventAcConnected" ::= Num 4; "ecHostEventAcDisconnected" ::= Num 5;
    "ecHostEventBatteryLow" ::= Num 6; "ecHostEventBatteryCritical" ::= Num 7; "ecHostEventBattery" ::= Num 8;
    "ecHostEventThermalThreshold" ::= Num 9; "ecHostEventThermalOverload" ::= Num 10;
    "ecHostEventThermal" ::= Num 11; "ecHostEventUsbCharger" ::= Num 12; "ecHostEventKeyPressed" ::= Num 13;
    "ecHostEventInterfaceReady" ::= Num 14; "ecHostEventKeyboardRecovery" ::= Num 15;
    "ecHostEventThermalShutdown" ::= Num 16; "ecHostEventBatteryShutdown" ::= Num 17;
    "ecHostEventThrottleStart" ::= Num 18; "ecHostEventThrottleStop" ::= Num 19; "ecHostEventHangDetect" ::= Num 20;
    "ecHostEventHangReboot" ::= Num 21; "ecHostEventPdMcu" ::= Num 22; "ecHostEventBatteryStatus" ::= Num 23;
    "ecHostEventPanic" ::= Num 24; "ecHostEventInvalid" ::= Num 32]].

(** Lines 440 to 470. *)
Definition args_decls : list decl := [
  StructOf "ecLpcHostArgs" [
    ("flags", U8); ("commandVersion", U8); ("dataSize", U8); ("checksum", U8)];
  Consts ["ecHostArgsFlagFromHost" ::= Num 0x01];
  Consts ["ecHostArgsFlagToHost" ::= Num 0x02]].

(** Lines 512 to 655. *)
Definition packet_decls : list decl := [
  Consts [
    "ecSpiFrameStart" ::= Num 0xec; "ecSpiPastEnd" ::= Num 0xed; "ecSpiRxReady" ::= Num 0xf8;
    "ecSpiReceiving" ::= Num 0xf9; "ecSpiProcessing" ::= Num 0xfa; "ecSpiRxBadData" ::= Num 0xfb;
    "ecSpiNotReady" ::= Num 0xfc; "ecSpiOldReady" ::= Num 0xfd; "ecProto2RequestHeaderBytes" ::= Num 3;
    "ecProto2RequestTrailerBytes" ::= Num 1;
    "ecProto2RequestOverhead" ::= Add (Ref "ecProto2RequestHeaderBytes") (Ref "ecProto2RequestTrailerBytes");
    "ecProto2ResponseHeaderBytes" ::= Num 2; "ecProto2ResponseTrailerBytes" ::= Num 1;
    "ecProto2ResponseOverhead" ::= Add (Ref "ecProto2ResponseHeaderBytes") (Ref "ecProto2ResponseTrailerBytes");
    "ecProto2MaxParamSize" ::= Num 0xfc;
    "ecProto2MaxRequestSize" ::= Add (Ref "ecProto2RequestOverhead") (Ref "ecProto2MaxParamSize");
    "ecProto2MaxResponseSize" ::= Add (Ref "ecProto2ResponseOverhead") (Ref "ecProto2MaxParamSize");
    "ecCommandProtocol3" ::= Num 0xda; "ecHostRequestVersion" ::= Num 3];
  StructOf "ecHostRequest" [
    ("structVersion", U8); ("checksum", U8); ("command", U16); ("commandVersion", U8); ("reserved", U8);
    ("dataLen", U16)];
  Consts ["ecHostResponseVersion" ::= Num 3];
  StructOf "ecHostResponse" [
    ("structVersion", U8); ("checksum", U8); ("result", U16); ("dataLen", U16); ("reserved", U16)]].

(** Lines 676 to 807. *)
Definition general_decls : list decl := [
  Consts ["ecCmdProtoVersion" ::= Num 0x00];
  StructOf "ecResponseProtoVersion" [("version", U32)];
  Consts ["ecCmdHello" ::= Num 0x01];
  StructOf "ecParamsHello" [("inData", U32)];
  StructOf "ecResponseHello" [("outData", U32)];
  Consts ["ecCmdGetVersion" ::= Num 0x02];
  TypeOf "ecCurrentImage" U8;
  Consts [
    typed "ecImageUnknown" "ecCurrentImage" (Num 0); same "ecImageRo"; same "ecImageRw"];
  StructOf "ecResponseGetVersion" [
    ("versionStringRo", Arr (Num 32) (U8)); ("versionStringRw", Arr (Num 32) (U8)); ("reserved", Arr (Num 32) (U8));
    ("currentImage", U32)];
  Consts ["ecCmdReadTest" ::= Num 0x03];
  StructOf "ecParamsReadTest" [("offset", U32); ("size", U32)];
  StructOf "ecResponseReadTest" [("data", Arr (Num 32) (U32))];
  Consts [
    "ecCmdGetBuildInfo" ::= Num 0x04; "ecCmdGetChipInfo" ::= Num 0x05];
  StructOf "ecResponseGetChipInfo" [("vendor", Arr (Num 32) (U8)); ("name", Arr (Num 32) (U8)); ("revision", Arr (Num 32) (U8))];
  Consts ["ecCmdGetBoardVersion" ::= Num 0x06];
  StructOf "ecResponseBoardVersion" [("boardVersion", U16)];
  Consts ["ecCmdReadMemmap" ::= Num 0x07];
  StructOf "ecParamsReadMemmap" [("offset", U8); ("size", U8)];
  Consts ["ecCmdGetCmdVersions" ::= Num 0x08];
  StructOf "ecParamsGetCmdVersions" [("cmd", U8)];
  StructOf "ecParamsGetCmdVersionsV1" [("cmd", U16)];
  StructOf "ecResponseGetCmdVersions" [("versionMask", U32)]].

(** Lines 816 to 897. *)
Definition protocol_decls : list decl := [
  Consts ["ecCmdGetCommsStatus" ::= Num 0x09];
  TypeOf "ecCommsStatus" U8;
  Consts [typed "ecCommsStatusProcessing" "ecCommsStatus" (Shl (Num 1) (Num 0))];
  StructOf "ecResponseGetCommsStatus" [("flags", U32)];
  Consts ["ecCmdTestProtocol" ::= Num 0x0a];
  StructOf "ecParamsTestProtocol" [("ecResult", U32); ("retLen", U32); ("buf", Arr (Num 32) (U8))];
  StructOf "ecResponseTestProtocol" [("buf", Arr (Num 32) (U8))];
  Consts ["ecCmdGetProtocolInfo" ::= Num 0x0b];
  Consts ["ecProtocolInfoInProgressSupported" ::= Shl (Num 1) (Num 0)];
  StructOf "ecResponseGetProtocolInfo" [
    ("protocolVersions", U32); ("maxRequestPacketSize", U16); ("maxResponsePacketSize", U16); ("flags", U32)];
  Consts [
    "ecGsvSet" ::= Num 0x80000000; "ecGsvParamMask" ::= Num 0x00ffffff];
  StructOf "ecParamsGetSetValue" [("flags", U32); ("value", U32)];
  StructOf "ecResponseGetSetValue" [("flags", U32); ("value", U32)];
  Consts ["ecCmdGsvPauseInS5" ::= Num 0x0c]].

(** Lines 903 to 995. *)
Definition flash_decls : list decl := [
  Consts ["ecCmdFlashInfo" ::= Num 0x10];
  StructOf "ecResponseFlashInfo" [
    ("flashSize", U32); ("writeBlockSize", U32); ("eraseBlockSize", U32); ("protectBlockSize", U32)];
  Consts ["ecFlashInfoEraseTo0" ::= Shl (Num 1) (Num 0)];
  StructOf "ecResponseFlashInfo1" [
    ("flashSize", U32); ("writeBlockSize", U32); ("eraseBlockSize", U32); ("protectBlockSize", U32);
    ("writeIdealSize", U32); ("flags", U32)];
  Consts ["ecCmdFlashRead" ::= Num 0x11];
  StructOf "ecParamsFlashRead" [("offset", U32); ("size", U32)];
  Consts [
    "ecCmdFlashWrite" ::= Num 0x12; "ecVerFlashWrite" ::= Num 1; "ecFlashWriteVer0Size" ::= Num 64];
  StructOf "ecParamsFlashWrite" [("offset", U32); ("size", U32)];
  Consts ["ecCmdFlashErase" ::= Num 0x13];
  StructOf "ecParamsFlashErase" [("offset", U32); ("size", U32)]].

(** Lines 997 to 1114. *)
Definition flash_protect_decls : list decl := [
  Consts [
    "ecCmdFlashProtect" ::= Num 0x15; "ecVerFlashProtect" ::= Num 1;
    "ecFlashProtectRoAtBoot" ::= Shl (Num 1) (Num 0); "ecFlashProtectRoNow" ::= Shl (Num 1) (Num 1);
    "ecFlashProtectAllNow" ::= Shl (Num 1) (Num 2); "ecFlashProtectGpioAsserted" ::= Shl (Num 1) (Num 3);
    "ecFlashProtectErrorStuck" ::= Shl (Num 1) (Num 4); "ecFlashProtectErrorInconsistent" ::= Shl (Num 1) (Num 5);
    "ecFlashProtectAllAtBoot" ::= Shl (Num 1) (Num 6)];
  StructOf "ecParamsFlashProtect" [("mask", U32); ("flags", U32)];
  StructOf "ecResponseFlashProtect" [("flags", U32); ("validFlags", U32); ("writableFlags", U32)];
  Consts ["ecCmdFlashRegionInfo" ::= Num 0x16];
  Consts ["ecVerFlashRegionInfo" ::= Num 1];
  TypeOf "ecFlashRegion" U8;
  Consts [
    typed "ecFlashRegionRo" "ecFlashRegion" (Iota); same "ecFlashRegionRw"; same "ecFlashRegionWpRo";
    same "ecFlashRegionCount"];
  StructOf "ecParamsFlashRegionInfo" [("region", U32)];
  StructOf "ecResponseFlashRegionInfo" [("offset", U32); ("size", U32)];
  Consts [
    "ecCmdVbnvContext" ::= Num 0x17; "ecVerVbnvContext" ::= Num 1; "ecVbnvBlockSize" ::= Num 16];
  TypeOf "ecVbnvcontextOp" U8;
  Consts [
    typed "ecVbnvContextOpRead" "ecVbnvcontextOp" (Iota); same "ecVbnvContextOpWrite"];
  StructOf "ecParamsVbnvcontext" [("op", U32); ("block", Arr (Ref "ecVbnvBlockSize") (U8))];
  StructOf "ecResponseVbnvcontext" [("block", Arr (Ref "ecVbnvBlockSize") (U8))]].

(** Lines 1120 to 1174. *)
Definition pwm_decls : list decl := [
  Consts ["ecCmdPwmGetFanTargetRpm" ::= Num 0x20];
  StructOf "ecResponsePwmGetFanRpm" [("rpm", U32)];
  Consts ["ecCmdPwmSetFanTargetRpm" ::= Num 0x21];
  StructOf "ecParamsPwmSetFanTargetRpmV0" [("rpm", U32)];
  StructOf "ecParamsPwmSetFanTargetRpmV1" [("rpm", U32); ("fanIdx", U8)];
  Consts ["ecCmdPwmGetKeyboardBacklight" ::= Num 0x22];
  StructOf "ecResponsePwmGetKeyboardBacklight" [("percent", U8); ("enabled", U8)];
  Consts ["ecCmdPwmSetKeyboardBacklight" ::= Num 0x23];
  StructOf "ecParamsPwmSetKeyboardBacklight" [("percent", U8)];
  Consts ["ecCmdPwmSetFanDuty" ::= Num 0x24];
  StructOf "ecParamsPwmSetFanDutyV0" [("percent", U32)];
  StructOf "ecParamsPwmSetFanDutyV1" [("percent", U32); ("fanIdx", U8)]].

(** Lines 1183 to 1278. *)
Definition lightbar_decls : list decl := [
  Consts ["ecCmdLightbarCmd" ::= Num 0x28];
  StructOf "rgbS" [("r", U8); ("g", U8); ("b", U8)];
  Consts ["lbBatteryLevels" ::= Num 4];
  StructOf "lightbarParamsV0" [
    ("googleRampUp", I32); ("googleRampDown", I32); ("s3s0RampUp", I32); ("s0TickDelay", Arr (Num 2) (I32));
    ("s0aTickDelay", Arr (Num 2) (I32)); ("s0s3RampDown", I32); ("s3SleepFor", I32); ("s3RampUp", I32);
    ("s3RampDown", I32); ("newS0", U8); ("oscMin", Arr (Num 2) (U8)); ("oscMax", Arr (Num 2) (U8));
    ("wOfs", Arr (Num 2) (U8)); ("brightBlOffFixed", Arr (Num 2) (U8)); ("brightBlOnMin", Arr (Num 2) (U8));
    ("brightBlOnMax", Arr (Num 2) (U8)); ("batteryhreshold", Arr (Sub (Ref "lbBatteryLevels") (Num 1)) (U8));
    ("s0Idx", Arr (Num 2) (Arr (Ref "lbBatteryLevels") (U8)));
    ("s3Idx", Arr (Num 2) (Arr (Ref "lbBatteryLevels") (U8))); ("color", Arr (Num 8) (Named "rgbS"))];
  StructOf "lightbarParamsV1" [
    ("googleRampUp", I32); ("googleRampDown", I32); ("s3s0RampUp", I32); ("s0TickDelay", Arr (Num 2) (I32));
    ("s0aTickDelay", Arr (Num 2) (I32)); ("s0s3RampDown", I32); ("s3SleepFor", I32); ("s3RampUp", I32);
    ("s3RampDown", I32); ("s5RampUp", I32); ("s5RampDown", I32); ("tapTickDelay", I32); ("tapGateDelay", I32);
    ("tapDisplayTime", I32); ("tapPctRed", U8); ("tapPctGreen", U8); ("tapSegMinOn", U8); ("tapSegMaxOn", U8);
    ("tapSegOsc", U8); ("tapIdx", Arr (Num 3) (U8)); ("oscMin", Arr (Num 2) (U8)); ("oscMax", Arr (Num 2) (U8));
    ("wOfs", Arr (Num 2) (U8)); ("brightBlOffFixed", Arr (Num 2) (U8)); ("brightBlOnMin", Arr (Num 2) (U8));
    ("brightBlOnMax", Arr (Num 2) (U8)); ("batteryhreshold", Arr (Sub (Ref "lbBatteryLevels") (Num 1)) (U8));
    ("s0Idx", Arr (Num 2) (Arr (Ref "lbBatteryLevels") (U8)));
    ("s3Idx", Arr (Num 2) (Arr (Ref "lbBatteryLevels") (U8))); ("s5Idx", U8); ("color", Arr (Num 8) (Named "rgbS"))]].

(** Lines 1290 to 1361. *)
Definition lightbar_v2_decls : list decl := [
  StructOf "lightbarParamsV2Timing" [
    ("googleRampUp", I32); ("googleRampDown", I32); ("s3s0RampUp", I32); ("s0TickDelay", Arr (Num 2) (I32));
    ("s0aTickDelay", Arr (Num 2) (I32)); ("s0s3RampDown", I32); ("s3SleepFor", I32); ("s3RampUp", I32);
    ("s3RampDown", I32); ("s5RampUp", I32); ("s5RampDown", I32); ("tapTickDelay", I32); ("tapGateDelay", I32);
    ("tapDisplayTime", I32)];
  StructOf "lightbarParamsV2Tap" [
    ("tapPctRed", U8); ("tapPctGreen", U8); ("tapSegMinOn", U8); ("tapSegMaxOn", U8); ("tapSegOsc", U8);
    ("tapIdx", Arr (Num 3) (U8))];
  StructOf "lightbarParamsV2Oscillation" [("oscMin", Arr (Num 2) (U8)); ("oscMax", Arr (Num 2) (U8)); ("wOfs", Arr (Num 2) (U8))];
  StructOf "lightbarParamsV2Brightness" [("brightBlOffFixed", Arr (Num 2) (U8)); ("brightBlOnMin", Arr (Num 2) (U8)); ("brightBlOnMax", Arr (Num 2) (U8))];
  StructOf "lightbarParamsV2Thresholds" [("batteryhreshold", Arr (Sub (Ref "lbBatteryLevels") (Num 1)) (U8))];
  StructOf "lightbarParamsV2Colors" [
    ("s0Idx", Arr (Num 2) (Arr (Ref "lbBatteryLevels") (U8)));
    ("s3Idx", Arr (Num 2) (Arr (Ref "lbBatteryLevels") (U8))); ("s5Idx", U8); ("color", Arr (Num 8) (Named "rgbS"))];
  Consts ["ecLbProgLen" ::= Num 192];
  StructOf "lightbarProgram" [("size", U8); ("data", Arr (Ref "ecLbProgLen") (U8))]].

(** Lines 1458 to 1496. *)
Definition lightbar_cmd_decls : list decl := [
  TypeOf "lightbarCommand" U8;
  Consts [
    typed "lightbarCmdDump" "lightbarCommand" (Num 0); "lightbarCmdOff" ::= Num 1; "lightbarCmdOn" ::= Num 2;
    "lightbarCmdInit" ::= Num 3; "lightbarCmdSetBrightness" ::= Num 4; "lightbarCmdSeq" ::= Num 5;
    "lightbarCmdReg" ::= Num 6; "lightbarCmdSetRgb" ::= Num 7; "lightbarCmdGetSeq" ::= Num 8;
    "lightbarCmdDemo" ::= Num 9; "lightbarCmdGetParamsV0" ::= Num 10; "lightbarCmdSetParamsV0" ::= Num 11;
    "lightbarCmdVersion" ::= Num 12; "lightbarCmdGetBrightness" ::= Num 13; "lightbarCmdGetRgb" ::= Num 14;
    "lightbarCmdGetDemo" ::= Num 15; "lightbarCmdGetParamsV1" ::= Num 16; "lightbarCmdSetParamsV1" ::= Num 17;
    "lightbarCmdSetProgram" ::= Num 18; "lightbarCmdManualSuspendCtrl" ::= Num 19; "lightbarCmdSuspend" ::= Num 20;
    "lightbarCmdResume" ::= Num 21; "lightbarCmdGetParamsV2Timing" ::= Num 22;
    "lightbarCmdSetParamsV2Timing" ::= Num 23; "lightbarCmdGetParamsV2Tap" ::= Num 24;
    "lightbarCmdSetParamsV2Tap" ::= Num 25; "lightbarCmdGetParamsV2Oscillation" ::= Num 26;
    "lightbarCmdSetParamsV2Oscillation" ::= Num 27; "lightbarCmdGetParamsV2Brightness" ::= Num 28;
    "lightbarCmdSetParamsV2Brightness" ::= Num 29; "lightbarCmdGetParamsV2Thresholds" ::= Num 30;
    "lightbarCmdSetParamsV2Thresholds" ::= Num 31; "lightbarCmdGetParamsV2Colors" ::= Num 32;
    "lightbarCmdSetParamsV2Colors" ::= Num 33; same "lightbarNumCmds"]].

(** Lines 1501 to 1554. *)
Definition led_decls : list decl := [
  Consts ["ecCmdLedControl" ::= Num 0x29];
  TypeOf "ecLedID" U8;
  Consts [
    typed "ecLedIDBatteryLed" "ecLedID" (Num 0); same "ecLedIDPowerLed"; same "ecLedIDAdapterLed";
    same "ecLedIDCount"];
  Consts [
    "ecLedFlagsQuery" ::= Shl (Num 1) (Iota); same "ecLedFlagsAuto"];
  TypeOf "ecLedColors" U8;
  Consts [
    typed "ecLedColorRed" "ecLedColors" (Num 0); same "ecLedColorGreen"; same "ecLedColorBlue";
    same "ecLedColorYellow"; same "ecLedColorWhite"; same "ecLedColorCount"];
  StructOf "ecParamsLedControl" [("ledID", U8); ("flags", U8); ("brightness", Arr (Ref "ecLedColorCount") (U8))];
  StructOf "ecResponseLedControl" [("brightnessRange", Arr (Ref "ecLedColorCount") (U8))]].

(** Lines 1565 to 1618. *)
Definition vboot_hash_decls : list decl := [
  Consts ["ecCmdVbootHash" ::= Num 0x2A];
  StructOf "ecParamsVbootHash" [
    ("cmd", U8); ("hashype", U8); ("nonceSize", U8); ("reserved0", U8); ("offset", U32); ("size", U32);
    ("nonceData", Arr (Num 64) (U8))];
  StructOf "ecResponseVbootHash" [
    ("status", U8); ("hashype", U8); ("digestSize", U8); ("reserved0", U8); ("offset", U32); ("size", U32);
    ("hashDigest", Arr (Num 64) (U8))];
  TypeOf "ecVbootHashCmd" U8;
  Consts [
    typed "ecVbootHashGet" "ecVbootHashCmd" (Num 0); "ecVbootHashAbort" ::= Num 1; "ecVbootHashStart" ::= Num 2;
    "ecVbootHashRecalc" ::= Num 3];
  TypeOf "ecVbootHashType" U8;
  Consts [typed "ecVbootHashTypeSha256" "ecVbootHashType" (Num 0)];
  TypeOf "ecVbootHashStatus" U8;
  Consts [
    typed "ecVbootHashStatusNone" "ecVbootHashStatus" (Num 0); "ecVbootHashStatusDone" ::= Num 1;
    "ecVbootHashStatusBusy" ::= Num 2];
  Consts ["ecVbootHashOffsetRo" ::= Num 0xfffffffe];
  Consts ["ecVbootHashOffsetRw" ::= Num 0xfffffffd]].

(** Lines 1625 to 1709. *)
Definition motion_decls : list decl := [
  Consts ["ecCmdMotionSenseCmd" ::= Num 0x2B];
  TypeOf "motionsenseCommand" U8;
  Consts [
    typed "motionsenseCmdDump" "motionsenseCommand" (Iota); same "motionsenseCmdInfo"; same "motionsenseCmdEcRate";
    same "motionsenseCmdSensorOdr"; same "motionsenseCmdSensorRange"; same "motionsenseCmdKbWakeAngle";
    same "motionsenseNumCmds"];
  TypeOf "motionsensorType" U8;
  Consts [
    typed "motionsenseTypeAccel" "motionsensorType" (Num 0); "motionsenseTypeGyro" ::= Num 1];
  TypeOf "motionsensorLocation" U8;
  Consts [
    typed "motionsenseLocBase" "motionsensorLocation" (Num 0); "motionsenseLocLid" ::= Num 1];
  TypeOf "motionsensorChip" U8;
  Consts [
    typed "motionsenseChipKxcj9" "motionsensorChip" (Num 0); "motionsenseChipLsm6ds0" ::= Num 1];
  Consts ["motionsenseModuleFlagActive" ::= Shl (Num 1) (Num 0)];
  Consts ["motionsenseSensorFlagPresent" ::= Shl (Num 1) (Num 0)];
  Consts ["ecMotionSenseNoValue" ::= Neg (Num 1)]].

(** Lines 1758 to 1765. *)
Definition motion_data_decls : list decl := [
  StructOf "ecResponseMotionSensorData" [("flags", U8); ("padding", U8); ("data", Arr (Num 3) (I16))]].

(** Lines 1815 to 1832. *)
Definition lid_usb_decls : list decl := [
  Consts ["ecCmdForceLidOpen" ::= Num 0x2c];
  StructOf "ecParamsForceLidOpen" [("enabled", U8)];
  Consts ["ecCmdUsbChargeSetMode" ::= Num 0x30];
  StructOf "ecParamsUsbChargeSetMode" [("usbPortID", U8); ("mode", U8)]].

(** Lines 1838 to 1872. *)
Definition pstore_decls : list decl := [
  Consts ["ecPstoreSizeMax" ::= Num 64];
  Consts ["ecCmdPstoreInfo" ::= Num 0x40];
  StructOf "ecResponsePstoreInfo" [("pstoreSize", U32); ("accessSize", U32)];
  Consts ["ecCmdPstoreRead" ::= Num 0x41];
  StructOf "ecParamsPstoreRead" [("offset", U32); ("size", U32)];
  Consts ["ecCmdPstoreWrite" ::= Num 0x42];
  StructOf "ecParamsPstoreWrite" [("offset", U32); ("size", U32); ("data", Arr (Ref "ecPstoreSizeMax") (U8))]].

(** Lines 1879 to 1894. *)
Definition rtc_decls : list decl := [
  StructOf "ecParamsRtc" [("time", U32)];
  StructOf "ecResponseRtc" [("time", U32)];
  Consts ["ecCmdRtcGetValue" ::= Num 0x44];
  Consts ["ecCmdRtcGetAlarm" ::= Num 0x45];
  Consts ["ecCmdRtcSetValue" ::= Num 0x46];
  Consts ["ecCmdRtcSetAlarm" ::= Num 0x47]].

(** Lines 1900 to 1935. *)
Definition port80_decls : list decl := [
  Consts ["ecPort80SizeMax" ::= Num 32];
  Consts ["ecCmdPort80LastBoot" ::= Num 0x48];
  Consts ["ecCmdPort80Read" ::= Num 0x48];
  TypeOf "ecPort80Subcmd" U8;
  Consts [
    typed "ecPort80GetInfo" "ecPort80Subcmd" (Num 0); same "ecPort80ReadBuffer"];
  StructOf "ecParamsPort80Read" [("subcmd", U16); ("offset", U32); ("numEntries", U32)];
  StructOf "ecResponsePort80Read" [("codes", Arr (Ref "ecPort80SizeMax") (U16))];
  StructOf "ecResponsePort80LastBoot" [("code", U16)]].

(** Lines 1944 to 2019. *)
Definition thermal_decls : list decl := [
  Consts ["ecCmdThermalSetThreshold" ::= Num 0x50];
  Consts ["ecCmdThermalGetThreshold" ::= Num 0x51];
  StructOf "ecParamsThermalSetThreshold" [("sensorype", U8); ("thresholdID", U8); ("value", U16)];
  StructOf "ecParamsThermalGetThreshold" [("sensorype", U8); ("thresholdID", U8)];
  StructOf "ecResponseThermalGetThreshold" [("value", U16)];
  TypeOf "ecTempThresholds" U8;
  Consts [
    typed "ecTempThreshWarn" "ecTempThresholds" (Num 0); same "ecTempThreshHigh"; same "ecTempThreshHalt";
    same "ecTempThreshCount"];
  StructOf "ecThermalConfig" [("tempHost", Arr (Ref "ecTempThreshCount") (U32)); ("tempFanOff", U32); ("tempFanMax", U32)];
  StructOf "ecParamsThermalGetThresholdV1" [("sensorNum", U32)];
  StructOf "ecParamsThermalSetThresholdV1" [("sensorNum", U32); ("cfg", Named "ecThermalConfig")];
  Consts ["ecCmdThermalAutoFanCtrl" ::= Num 0x52];
  StructOf "ecParamsAutoFanCtrlV1" [("fanIdx", U8)]].

(** Lines 2022 to 2083. *)
Definition tmp006_decls : list decl := [
  Consts ["ecCmdTmp006GetCalibration" ::= Num 0x53];
  Consts ["ecCmdTmp006SetCalibration" ::= Num 0x54];
  StructOf "ecParamsTmp006GetCalibration" [("index", U8)];
  StructOf "ecResponseTmp006GetCalibrationV0" [
    ("s0", F32); ("b0", F32); ("b1", F32); ("bw", F32)];
  StructOf "ecParamsTmp006SetCalibrationV0" [
    ("index", U8); ("reserved", Arr (Num 3) (U8)); ("s0", F32); ("b0", F32); ("b1", F32); ("b2", F32)];
  StructOf "ecResponseTmp006GetCalibrationV1" [
    ("algorithm", U8); ("numParams", U8); ("reserved", Arr (Num 2) (U8)); ("val", Sl (F32))];
  StructOf "ecParamsTmp006SetCalibrationV1" [
    ("index", U8); ("algorithm", U8); ("numParams", U8); ("reserved", U8); ("val", Sl (F32))];
  Consts ["ecCmdTmp006GetRaw" ::= Num 0x55];
  StructOf "ecParamsTmp006GetRaw" [("index", U8)];
  StructOf "ecResponseTmp006GetRaw" [("t", I32); ("v", I32)]].

(** Lines 2094 to 2170. *)
Definition mkbp_decls : list decl := [
  Consts ["ecCmdMkbpState" ::= Num 0x60];
  Consts ["ecCmdMkbpInfo" ::= Num 0x61];
  StructOf "ecResponseMkbpInfo" [("rows", U32); ("cols", U32); ("switches", U8)];
  Consts ["ecCmdMkbpSimulateKey" ::= Num 0x62];
  StructOf "ecParamsMkbpSimulateKey" [("col", U8); ("row", U8); ("pressed", U8)];
  Consts ["ecCmdMkbpSetConfig" ::= Num 0x64];
  Consts ["ecCmdMkbpGetConfig" ::= Num 0x65];
  TypeOf "mkbpConfigFlags" U8;
  Consts [typed "ecMkbpFlagsEnable" "mkbpConfigFlags" (Num 1)];
  TypeOf "mkbpConfigValid" U8;
  Consts [
    typed "ecMkbpValidScanPeriod" "mkbpConfigValid" (Shl (Num 1) (Num 0));
    "ecMkbpValidPollTimeout" ::= Shl (Num 1) (Num 1); "ecMkbpValidMinPostScanDelay" ::= Shl (Num 1) (Num 3);
    "ecMkbpValidOutputSettle" ::= Shl (Num 1) (Num 4); "ecMkbpValidDebounceDown" ::= Shl (Num 1) (Num 5);
    "ecMkbpValidDebounceUp" ::= Shl (Num 1) (Num 6); "ecMkbpValidFifoMaxDepth" ::= Shl (Num 1) (Num 7)];
  StructOf "ecMkbpConfig" [
    ("validMask", U32); ("flags", U8); ("validFlags", U8); ("scanPeriodUs", U16); ("pollimeoutUs", U32);
    ("minPostScanDelayUs", U16); ("outputSettleUs", U16); ("debounceDownUs", U16); ("debounceUpUs", U16);
    ("fifoMaxDepth", U8)];
  StructOf "ecParamsMkbpSetConfig" [("config", Named "ecMkbpConfig")];
  StructOf "ecResponseMkbpGetConfig" [("config", Named "ecMkbpConfig")]].

(** Lines 2173 to 2197. *)
Definition keyscan_decls : list decl := [
  Consts ["ecCmdKeyscanSeqCtrl" ::= Num 0x66];
  TypeOf "ecKeyscanSeqCmd" U8;
  Consts [
    typed "ecKeyscanSeqStatus" "ecKeyscanSeqCmd" (Num 0); "ecKeyscanSeqClear" ::= Num 1; "ecKeyscanSeqAdd" ::= Num 2;
    "ecKeyscanSeqStart" ::= Num 3; "ecKeyscanSeqCollect" ::= Num 4];
  TypeOf "ecCollectFlags" U8;
  Consts [typed "ecKeyscanSeqFlagDone" "ecCollectFlags" (Shl (Num 1) (Iota))];
  StructOf "ecCollectItem" [("flags", U8)]].

(** Lines 2242 to 2261. *)
Definition event_decls : list decl := [
  Consts ["ecCmdGetNextEvent" ::= Num 0x67];
  TypeOf "ecMkbpEvent" U8;
  Consts [
    "ecMkbpEventKeyMatrix" ::= Iota; same "ecMkbpEventHostEvent"; same "ecMkbpEventCount"];
  StructOf "ecResponseGetNextEvent" [("eventype", U8)]].

(** Lines 2267 to 2278. *)
Definition temp_sensor_decls : list decl := [
  Consts ["ecCmdTempSensorGetInfo" ::= Num 0x70];
  StructOf "ecParamsTempSensorGetInfo" [("id", U8)];
  StructOf "ecResponseTempSensorGetInfo" [("sensorName", Arr (Num 32) (U8)); ("sensorype", U8)]].

(** Lines 2296 to 2316. *)
Definition host_event_decls : list decl := [
  StructOf "ecParamsHostEventMask" [("mask", U32)];
  StructOf "ecResponseHostEventMask" [("mask", U32)];
  Consts ["ecCmdHostEventGetB" ::= Num 0x87];
  Consts ["ecCmdHostEventGetSmiMask" ::= Num 0x88];
  Consts ["ecCmdHostEventGetSciMask" ::= Num 0x89];
  Consts ["ecCmdHostEventGetWakeMask" ::= Num 0x8d];
  Consts ["ecCmdHostEventSetSmiMask" ::= Num 0x8a];
  Consts ["ecCmdHostEventSetSciMask" ::= Num 0x8b];
  Consts ["ecCmdHostEventClear" ::= Num 0x8c];
  Consts ["ecCmdHostEventSetWakeMask" ::= Num 0x8e];
  Consts ["ecCmdHostEventClearB" ::= Num 0x8f]].

(** Lines 2322 to 2367. *)
Definition switch_decls : list decl := [
  Consts ["ecCmdSwitchEnableBklight" ::= Num 0x90];
  StructOf "ecParamsSwitchEnableBacklight" [("enabled", U8)];
  Consts ["ecCmdSwitchEnableWireless" ::= Num 0x91];
  Consts ["ecVerSwitchEnableWireless" ::= Num 1];
  StructOf "ecParamsSwitchEnableWirelessV0" [("enabled", U8)];
  StructOf "ecParamsSwitchEnableWirelessV1" [
    ("nowFlags", U8); ("nowMask", U8); ("suspendFlags", U8); ("suspendMask", U8)];
  StructOf "ecResponseSwitchEnableWirelessV1" [("nowFlags", U8); ("suspendFlags", U8)]].

(** Lines 2373 to 2423. *)
Definition gpio_decls : list decl := [
  Consts ["ecCmdGpioSet" ::= Num 0x92];
  StructOf "ecParamsGpioSet" [("name", Arr (Num 32) (U8)); ("val", U8)];
  Consts ["ecCmdGpioGet" ::= Num 0x93];
  StructOf "ecParamsGpioGet" [("name", Arr (Num 32) (U8))];
  StructOf "ecResponseGpioGet" [("val", U8)];
  StructOf "ecParamsGpioGetV1" [("subcmd", U8); ("data", Arr (Num 32) (U8))];
  TypeOf "gpioGetSubcmd" U8;
  Consts [
    typed "ecGpioGetByName" "gpioGetSubcmd" (Num 0); "ecGpioGetCount" ::= Num 1; "ecGpioGetInfo" ::= Num 2]].

(** Lines 2434 to 2459. *)
Definition i2c_decls : list decl := [
  Consts ["ecCmdI2cRead" ::= Num 0x94];
  StructOf "ecParamsI2cRead" [
    ("addr", U16); ("readSize", U8); ("port", U8); ("offset", U8)];
  StructOf "ecResponseI2cRead" [("data", U16)];
  Consts ["ecCmdI2cWrite" ::= Num 0x95];
  StructOf "ecParamsI2cWrite" [
    ("data", U16); ("addr", U16); ("writeSize", U8); ("port", U8); ("offset", U8)]].

(** Lines 2467 to 2481. *)
Definition charge_decls : list decl := [
  Consts ["ecCmdChargeControl" ::= Num 0x96];
  Consts ["ecVerChargeControl" ::= Num 1];
  TypeOf "ecChargeControlMode" U8;
  Consts [
    typed "chargeControlNormal" "ecChargeControlMode" (Num 0); same "chargeControlIdle";
    same "chargeControlDischarge"];
  StructOf "ecParamsChargeControl" [("mode", U32)]].

(** Lines 2487 to 2495. *)
Definition console_decls : list decl := [
  Consts ["ecCmdConsoleSnapshot" ::= Num 0x97];
  Consts ["ecCmdConsoleRead" ::= Num 0x98]].

(** Lines 2506 to 2513. *)
Definition battery_decls : list decl := [
  Consts ["ecCmdBatteryCutOff" ::= Num 0x99];
  Consts ["ecBatteryCutoffFlagAtShutdown" ::= Shl (Num 1) (Num 0)];
  StructOf "ecParamsBatteryCutoff" [("flags", U8)]].

(** Lines 2521 to 2526. *)
Definition usb_mux_decls : list decl := [
  Consts ["ecCmdUsbMux" ::= Num 0x9a];
  StructOf "ecParamsUsbMux" [("mux", U8)]].

(** Lines 2531 to 2562. *)
Definition ldo_decls : list decl := [
  TypeOf "ecLdoState" U8;
  Consts [
    typed "ecLdoStateOff" "ecLdoState" (Num 0); "ecLdoStateOn" ::= Num 1];
  Consts ["ecCmdLdoSet" ::= Num 0x9b];
  StructOf "ecParamsLdoSet" [("index", U8); ("state", U8)];
  Consts ["ecCmdLdoGet" ::= Num 0x9c];
  StructOf "ecParamsLdoGet" [("index", U8)];
  StructOf "ecResponseLdoGet" [("state", U8)]].

(** Lines 2570 to 2579. *)
Definition power_decls : list decl := [
  Consts ["ecCmdPowerInfo" ::= Num 0x9d];
  StructOf "ecResponsePowerInfo" [
    ("usbDevype", U32); ("voltageAc", U16); ("voltageSystem", U16); ("currentSystem", U16); ("usbCurrentLimit", U16)]].

(** Lines 2584 to 2617. *)
Definition passthru_decls : list decl := [
  Consts ["ecCmdI2cPassthru" ::= Num 0x9e];
  Consts ["ecI2cFlagRead" ::= Shl (Num 1) (Num 15)];
  Consts ["ecI2cAddrMask" ::= Num 0x3ff];
  Consts ["ecI2cStatusNak" ::= Shl (Num 1) (Num 0)];
  Consts ["ecI2cStatusTimeout" ::= Shl (Num 1) (Num 1)];
  Consts ["ecI2cStatusError" ::= Or (Ref "ecI2cStatusNak") (Ref "ecI2cStatusTimeout")];
  StructOf "ecParamsI2cPassthruMsg" [("addrFlags", U16); ("len", U16)];
  StructOf "ecParamsI2cPassthru" [("port", U8); ("numMsgs", U8); ("msg", Sl (Named "ecParamsI2cPassthruMsg"))];
  StructOf "ecResponseI2cPassthru" [("i2cStatus", U8); ("numMsgs", U8); ("data", Sl (U8))]].

(** Lines 2622 to 2673. *)
Definition hang_decls : list decl := [
  Consts ["ecCmdHangDetect" ::= Num 0x9f];
  Consts ["ecHangStartOnPowerPress" ::= Shl (Num 1) (Num 0)];
  Consts ["ecHangStartOnLidClose" ::= Shl (Num 1) (Num 1)];
  Consts ["ecHangStartOnLidOpen" ::= Shl (Num 1) (Num 2)];
  Consts ["ecHangStartOnResume" ::= Shl (Num 1) (Num 3)];
  Consts ["ecHangStopOnPowerRelease" ::= Shl (Num 1) (Num 8)];
  Consts ["ecHangStopOnHostCommand" ::= Shl (Num 1) (Num 9)];
  Consts ["ecHangStopOnSuspend" ::= Shl (Num 1) (Num 10)];
  Consts ["ecHangStartNow" ::= Shl (Num 1) (Num 30)];
  Consts ["ecHangStopNow" ::= Shl (Num 1) (Num 31)];
  StructOf "ecParamsHangDetect" [("flags", U32); ("hostEventimeoutMsec", U16); ("warmRebootimeoutMsec", U16)]].

(** Lines 2682 to 2714. *)
Definition charge_state_decls : list decl := [
  Consts ["ecCmdChargeState" ::= Num 0xa0];
  TypeOf "chargeStateCommand" U8;
  Consts [
    typed "chargeStateCmdGetState" "chargeStateCommand" (Iota); same "chargeStateCmdGetParam";
    same "chargeStateCmdSetParam"; same "chargeStateNumCmds"];
  TypeOf "chargeStateParams" U8;
  Consts [
    typed "csParamChgVoltage" "chargeStateParams" (Iota); same "csParamChgCurrent"; same "csParamChgInputCurrent";
    same "csParamChgStatus"; same "csParamChgOption"; same "csNumBaseParams";
    "csParamCustomProfileMin" ::= Num 0x10000; "csParamCustomProfileMax" ::= Num 0x1ffff]].

(** Lines 2761 to 2776. *)
Definition current_limit_decls : list decl := [
  Consts ["ecCmdChargeCurrentLimit" ::= Num 0xa1];
  StructOf "ecParamsCurrentLimit" [("limit", U32)];
  Consts ["ecCmdExtPowerCurrentLimit" ::= Num 0xa2];
  StructOf "ecParamsExtPowerCurrentLimit" [("limit", U32)]].

(** Lines 2782 to 2846. *)
Definition smart_battery_decls : list decl := [
  Consts ["ecCmdSbReadWord" ::= Num 0xb0];
  Consts ["ecCmdSbWriteWord" ::= Num 0xb1];
  Consts ["ecCmdSbReadBlock" ::= Num 0xb2];
  Consts ["ecCmdSbWriteBlock" ::= Num 0xb3];
  StructOf "ecParamsSbRd" [("reg", U8)];
  StructOf "ecResponseSbRdWord" [("value", U16)];
  StructOf "ecParamsSbWrWord" [("reg", U8); ("value", U16)];
  StructOf "ecResponseSbRdBlock" [("data", Arr (Num 32) (U8))];
  StructOf "ecParamsSbWrBlock" [("reg", U8); ("data", Arr (Num 32) (U16))];
  Consts ["ecCmdBatteryVendorParam" ::= Num 0xb4];
  TypeOf "ecBatteryVendorParamMode" U8;
  Consts [
    typed "batteryVendorParamModeGet" "ecBatteryVendorParamMode" (Num 0); same "batteryVendorParamModeSet"];
  StructOf "ecParamsBatteryVendorParam" [("param", U32); ("value", U32); ("mode", U8)];
  StructOf "ecResponseBatteryVendorParam" [("value", U32)]].

(** Lines 2852 to 2899. *)
Definition battery_fw_decls : list decl := [
  Consts ["ecCmdSbFwUpdate" ::= Num 0xb5];
  TypeOf "ecSbFwUpdateSubcmd" U8;
  Consts [
    typed "ecSbFwUpdatePrepare" "ecSbFwUpdateSubcmd" (Num 0x0); "ecSbFwUpdateInfo" ::= Num 0x1;
    "ecSbFwUpdateBegin" ::= Num 0x2; "ecSbFwUpdateWrite" ::= Num 0x3; "ecSbFwUpdateEnd" ::= Num 0x4;
    "ecSbFwUpdateStatus" ::= Num 0x5; "ecSbFwUpdateProtect" ::= Num 0x6; "ecSbFwUpdateMax" ::= Num 0x7];
  Consts ["sbFwUpdateCmdWriteBlockSize" ::= Num 32];
  Consts ["sbFwUpdateCmdStatusSize" ::= Num 2];
  Consts ["sbFwUpdateCmdInfoSize" ::= Num 8];
  StructOf "ecSbFwUpdateHeader" [("subcmd", U16); ("fwID", U16)];
  StructOf "ecParamsSbFwUpdate" [("hdr", Named "ecSbFwUpdateHeader"); ("data", Arr (Ref "sbFwUpdateCmdWriteBlockSize") (U8))];
  StructOf "ecResponseSbFwUpdate" [("data", Sl (U8))]].

(** Lines 2906 to 2915. *)
Definition mode_decls : list decl := [
  Consts ["ecCmdEnteringMode" ::= Num 0xb6];
  StructOf "ecParamsEnteringMode" [("vbootMode", Int)];
  Consts ["vbootModeNormal" ::= Num 0];
  Consts ["vbootModeDeveloper" ::= Num 1];
  Consts ["vbootModeRecovery" ::= Num 2]].

(** Lines 2924 to 2995. *)
Definition reboot_decls : list decl := [
  Consts ["ecCmdRebootEc" ::= Num 0xd2];
  TypeOf "ecRebootCmd" U8;
  Consts [
    typed "ecRebootCancel" "ecRebootCmd" (Num 0); "ecRebootJumpRo" ::= Num 1; "ecRebootJumpRw" ::= Num 2;
    "ecRebootCold" ::= Num 4; "ecRebootDisableJump" ::= Num 5; "ecRebootHibernate" ::= Num 6];
  Consts ["ecRebootFlagReserved0" ::= Shl (Num 1) (Num 0)];
  Consts ["ecRebootFlagOnApShutdown" ::= Shl (Num 1) (Num 1)];
  StructOf "ecParamsRebootEc" [("cmd", U8); ("flags", U8)];
  Consts ["ecCmdGetPanicInfo" ::= Num 0xd3];
  Consts ["ecCmdReboot" ::= Num 0xd1];
  Consts ["ecCmdResendResponse" ::= Num 0xdb];
  Consts ["ecCmdVersion0" ::= Num 0xdc]].

(** Lines 3005 to 3045. *)
Definition pd_decls : list decl := [
  Consts ["ecCmdPdExchangeStatus" ::= Num 0x100];
  TypeOf "pdChargeState" U8;
  Consts [
    typed "pdChargeNoChange" "pdChargeState" (Num 0); same "pdChargeNone"; same "pdCharge5v"; same "pdChargeMax"];
  StructOf "ecParamsPdStatus" [("battSoc", I8); ("chargeState", U8)];
  Consts ["pdStatusHostEvent" ::= Shl (Num 1) (Num 0)];
  Consts ["pdStatusInRw" ::= Shl (Num 1) (Num 1)];
  Consts ["pdStatusJumpedToImage" ::= Shl (Num 1) (Num 2)];
  StructOf "ecResponsePdStatus" [("status", U32); ("currLimMa", U32); ("activeChargePort", I32)];
  Consts ["ecCmdPdHostEventStatus" ::= Num 0x104];
  Consts ["pdEventUpdateDevice" ::= Shl (Num 1) (Num 0)];
  Consts ["pdEventPowerChange" ::= Shl (Num 1) (Num 1)];
  Consts ["pdEventIdentityReceived" ::= Shl (Num 1) (Num 2)];
  StructOf "ecResponseHostEventStatus" [("status", U32)]].

(** Lines 3048 to 3152. *)
Definition usb_pd_decls : list decl := [
  Consts ["ecCmdUsbPdControl" ::= Num 0x101];
  TypeOf "usbPdControlRole" U8;
  Consts [
    typed "usbPdCtrlRoleNoChange" "usbPdControlRole" (Num 0); "usbPdCtrlRoleToggleOn" ::= Num 1;
    "usbPdCtrlRoleToggleOff" ::= Num 2; "usbPdCtrlRoleForceSink" ::= Num 3; "usbPdCtrlRoleForceSource" ::= Num 4;
    same "usbPdCtrlRoleCount"];
  TypeOf "usbPdControlMux" U8;
  Consts [
    typed "usbPdCtrlMuxNoChange" "usbPdControlMux" (Num 0); "usbPdCtrlMuxNone" ::= Num 1;
    "usbPdCtrlMuxUsb" ::= Num 2; "usbPdCtrlMuxDp" ::= Num 3; "usbPdCtrlMuxDock" ::= Num 4;
    "usbPdCtrlMuxAuto" ::= Num 5; same "usbPdCtrlMuxCount"];
  StructOf "ecParamsUsbPdControl" [("port", U8); ("role", U8); ("mux", U8)];
  StructOf "ecResponseUsbPdControl" [
    ("enabled", U8); ("role", U8); ("polarity", U8); ("state", U8)];
  StructOf "ecResponseUsbPdControlV1" [
    ("enabled", U8); ("role", U8); ("polarity", U8); ("state", Arr (Num 32) (U8))];
  Consts ["ecCmdUsbPdPorts" ::= Num 0x102];
  StructOf "ecResponseUsbPdPorts" [("numPorts", U8)];
  Consts ["ecCmdUsbPdPowerInfo" ::= Num 0x103];
  Consts ["pdPowerChargingPort" ::= Num 0xff];
  StructOf "ecParamsUsbPdPowerInfo" [("port", U8)];
  TypeOf "usbChgType" U8;
  Consts [
    typed "usbChgTypeNone" "usbChgType" (Iota); same "usbChgTypePd"; same "usbChgTypeC";
    same "usbChgTypeProprietary"; same "usbChgTypeBc12Dcp"; same "usbChgTypeBc12Cdp"; same "usbChgTypeBc12Sdp";
    same "usbChgTypeOther"; same "usbChgTypeVbus"; same "usbChgTypeUnknown"];
  TypeOf "usbPowerRoles" U8;
  Consts [
    typed "usbPdPortPowerDisconnected" "usbPowerRoles" (Iota); same "usbPdPortPowerSource";
    same "usbPdPortPowerSink"; same "usbPdPortPowerSinkNotCharging"];
  StructOf "usbChgMeasures" [
    ("voltageMax", U16); ("voltageNow", U16); ("currentMax", U16); ("currentLim", U16)];
  StructOf "ecResponseUsbPdPowerInfo" [
    ("role", U8); ("etype", U8); ("dualrole", U8); ("reserved1", U8); ("meas", Named "usbChgMeasures");
    ("maxPower", U32)]].

(** Lines 3155 to 3205. *)
Definition pd_update_decls : list decl := [
  Consts ["ecCmdUsbPdFwUpdate" ::= Num 0x110];
  TypeOf "usbPdFwUpdateCmds" U8;
  Consts [
    typed "usbPdFwReboot" "usbPdFwUpdateCmds" (Iota); same "usbPdFwFlashErase"; same "usbPdFwFlashWrite";
    same "usbPdFwEraseSig"];
  StructOf "ecParamsUsbPdFwUpdate" [
    ("devID", U16); ("cmd", U8); ("port", U8); ("size", U32)];
  Consts ["ecCmdUsbPdRwHashEntry" ::= Num 0x111];
  Consts ["pdRwHashSize" ::= Num 20];
  StructOf "ecParamsUsbPdRwHashEntry" [
    ("devID", U16); ("devRwHash", Arr (Ref "pdRwHashSize") (U8)); ("reserved", U8); ("currentImage", U32)];
  Consts ["ecCmdUsbPdDevInfo" ::= Num 0x112];
  StructOf "ecParamsUsbPdInfoRequest" [("port", U8)];
  Consts ["ecCmdUsbPdDiscovery" ::= Num 0x113];
  StructOf "ecParamsUsbPdDiscoveryEntry" [("vid", U16); ("pid", U16); ("ptype", U8)]].

(** Lines 3208 to 3241. *)
Definition pd_log_decls : list decl := [
  Consts ["ecCmdPdChargePortOverride" ::= Num 0x114];
  TypeOf "usbPdOverridePorts" I8;
  Consts [
    typed "overrideDontCharge" "usbPdOverridePorts" (Neg (Num 2)); "overrideOff" ::= Neg (Num 1)];
  StructOf "ecParamsChargePortOverride" [("overridePort", I16)];
  Consts ["ecCmdPdGetLogEntry" ::= Num 0x115];
  StructOf "ecResponsePdLog" [
    ("timestamp", U32); ("etype", U8); ("sizePort", U8); ("data", U16); ("payload", Sl (U8))];
  Consts ["pdLogTimestampShift" ::= Num 10];
  Consts ["pdLogSizeMask" ::= Num 0x1F];
  Consts ["pdLogPortMask" ::= Num 0xE0];
  Consts ["pdLogPortShift" ::= Num 5]].

(** Lines 3256 to 3325. *)
Definition pd_event_decls : list decl := [
  Consts ["pdEventMcuBase" ::= Num 0x00];
  Consts ["pdEventMcuCharge" ::= Add (Ref "pdEventMcuBase") (Num 0)];
  Consts ["pdEventMcuConnect" ::= Add (Ref "pdEventMcuBase") (Num 1)];
  Consts ["pdEventMcuBoardCustom" ::= Add (Ref "pdEventMcuBase") (Num 2)];
  Consts ["pdEventAccBase" ::= Num 0x20];
  Consts ["pdEventAccRwFail" ::= Add (Ref "pdEventAccBase") (Num 0)];
  Consts ["pdEventAccRwErase" ::= Add (Ref "pdEventAccBase") (Num 1)];
  Consts ["pdEventPsBase" ::= Num 0x40];
  Consts ["pdEventPsFault" ::= Add (Ref "pdEventPsBase") (Num 0)];
  Consts ["pdEventVideoBase" ::= Num 0x60];
  Consts ["pdEventVideoDpMode" ::= Add (Ref "pdEventVideoBase") (Num 0)];
  Consts ["pdEventVideoCodec" ::= Add (Ref "pdEventVideoBase") (Num 1)];
  Consts ["pdEventNoEntry" ::= Num 0xFF];
  Consts ["chargeFlagsDualRole" ::= Shl (Num 1) (Num 15)];
  Consts ["chargeFlagsDelayedOverride" ::= Shl (Num 1) (Num 14)];
  Consts ["chargeFlagsOverride" ::= Shl (Num 1) (Num 13)];
  Consts ["chargeFlagsTypeShift" ::= Num 3];
  Consts ["chargeFlagsTypeMask" ::= Shl (Num 0xF) (Ref "chargeFlagsTypeShift")];
  Consts ["chargeFlagsRoleMask" ::= Shl (Num 7) (Num 0)];
  Consts ["psFaultOcp" ::= Num 1];
  Consts ["psFaultFastOcp" ::= Num 2];
  Consts ["psFaultOvp" ::= Num 3];
  Consts ["psFaultDisch" ::= Num 4];
  StructOf "mcdpVersion" [("major", U8); ("minor", U8); ("build", U16)];
  StructOf "mcdpInfo" [
    ("family", Arr (Num 2) (U8)); ("chipid", Arr (Num 2) (U8)); ("irom", Named "mcdpVersion");
    ("fw", Named "mcdpVersion")]].

(** Lines 3337 to 3378. *)
Definition pd_mode_decls : list decl := [
  Consts ["ecCmdUsbPdGetAmode" ::= Num 0x116];
  StructOf "ecParamsUsbPdGetModeRequest" [("svidIdx", U16); ("port", U8)];
  StructOf "ecParamsUsbPdGetModeResponse" [("svid", U16); ("opos", U16); ("vdo", Arr (Num 6) (U32))];
  Consts ["ecCmdUsbPdSetAmode" ::= Num 0x117];
  TypeOf "pdModeCmd" U8;
  Consts [
    typed "pdExitMode" "pdModeCmd" (Num 0); "pdEnterMode" ::= Num 1; same "pdModeCmdCount"];
  StructOf "ecParamsUsbPdSetModeRequest" [
    ("cmd", U32); ("svid", U16); ("opos", U8); ("port", U8)];
  Consts ["ecCmdPdWriteLogEntry" ::= Num 0x118];
  StructOf "ecParamsPdWriteLogEntry" [("etype", U8); ("port", U8)]].

(** Lines 3419 to 3421. *)
Definition old_decls : list decl := [
  Consts ["ecHostParamSize" ::= Ref "ecProto2MaxParamSize"];
  Consts ["ecLpcAddrOldParam" ::= Ref "ecHostCmdRegion1"];
  Consts ["ecOldParamSize" ::= Ref "ecHostCmdRegionSize"]].

Definition ec_decls : list decl :=
  lpc_decls ++ result_decls ++ args_decls ++ packet_decls ++ general_decls ++ protocol_decls ++ flash_decls ++ flash_protect_decls ++
  pwm_decls ++ lightbar_decls ++ lightbar_v2_decls ++ lightbar_cmd_decls ++ led_decls ++ vboot_hash_decls ++ motion_decls ++
  motion_data_decls ++ lid_usb_decls ++ pstore_decls ++ rtc_decls ++ port80_decls ++ thermal_decls ++ tmp006_decls ++ mkbp_decls ++
  keyscan_decls ++ event_decls ++ temp_sensor_decls ++ host_event_decls ++ switch_decls ++ gpio_decls ++ i2c_decls ++ charge_decls ++
  console_decls ++ battery_decls ++ usb_mux_decls ++ ldo_decls ++ power_decls ++ passthru_decls ++ hang_decls ++
  charge_state_decls ++ current_limit_decls ++ smart_battery_decls ++ battery_fw_decls ++ mode_decls ++ reboot_decls ++ pd_decls ++
  usb_pd_decls ++ pd_update_decls ++ pd_log_decls ++ pd_event_decls ++ pd_mode_decls ++ old_decls.

(** ** The package *)

Definition ec_scope : scope := default empty_scope (elab_package ec_decls).

(** The value of a constant and what is known of a type. *)
Definition const_value (x : string) : option Z := lookup_const ec_scope x.
Definition wire_size (x : string) : option Z := lookup_wire ec_scope x.
Definition mem_size (x : string) : option Z := lookup_mem ec_scope x.

Lemma default_Some {A} (a : A) o : bool_decide (is_Some o) = true -> o = Some (default a o).
Proof. by intros [x ->]%bool_decide_eq_true. Qed.

Lemma ec_decls_elaborate : elab_package ec_decls = Some ec_scope.
Proof. apply default_Some. vm_compute. reflexivity. Qed.

#[local] Opaque ec_decls ec_scope.

(** The declarations of the file are those of a Go package: every name is declared once, every
    constant refers to constants declared before it, and every constant with a type is a value of
    that type; 552 constants and 186 types are declared. *)
Theorem ec_package_typed :
  elab_package ec_decls = Some ec_scope /\ well_typed ec_scope /\
  length (List.filter (fun x => bool_decide (is_Some (s_consts ec_scope !! x))) (s_names ec_scope)) = 552%nat /\
  length (List.filter (fun x => bool_decide (is_Some (s_types ec_scope !! x))) (s_names ec_scope)) = 186%nat.
Proof.
  split; [apply ec_decls_elaborate|]. split; [apply (elab_package_ok ec_decls), ec_decls_elaborate|]. split; vm_compute; reflexivity.
Qed.

(** The constants that [Ectool] uses are those of the file. *)
Lemma ectool_constants :
  const_value <$> ["ecLpcAddrHostData"; "ecLpcAddrHostCmd"; "ecLpcAddrHostArgs"; "ecLpcAddrHostParam"; "ecHostArgsFlagFromHost";
    "ecHostArgsFlagToHost"; "ecCmdGetChipInfo"; "pdLogSizeMask"; "pdLogPortShift"]%string =
  Some <$> [Ectool.ecLpcAddrHostData; Ectool.ecLpcAddrHostCmd; Ectool.ecLpcAddrHostArgs; Ectool.ecLpcAddrHostParam;
    Ectool.ecHostArgsFlagFromHost; Ectool.ecHostArgsFlagToHost; Ectool.ecCmdGetChipInfo; Ectool.pdLogSizeMask; Ectool.pdLogPortShift].
Proof. vm_compute. reflexivity. Qed.

(** The answer to the command that [ectool info] sends has the size that it asks for. *)
Example chip_info_size : wire_size "ecResponseGetChipInfo" = Some 96.
Proof. vm_compute. reflexivity. Qed.

(** ** The numbers of the commands *)

(** The commands of the host, with their numbers; those of ACPI go to a port of their own. *)
Definition host_commands : list (string * Z) :=
  omap (fun x => if String.prefix "ecCmd" x && negb (String.prefix "ecCmdAcpi" x) then pair x <$> const_value x else None)
    (rev (s_names ec_scope)).

(** The number under which device [n] receives a command: [ecCmdPassthruOffset] above its own. *)
Definition device_code (n v : Z) : Z := Ectool.ecCmdPassthruOffset n + v.

(** Both names of the command that reads the log of port 80. *)
Definition port80 (x : string) : bool := bool_decide (x = "ecCmdPort80LastBoot"%string) || bool_decide (x = "ecCmdPort80Read"%string).

Definition no_clash (a b : string * Z) : bool := negb (a.2 =? b.2) || bool_decide (a.1 = b.1) || (port80 a.1 && port80 b.1).

Lemma host_commands_checked :
  forallb (fun a => (0 <=? a.2) && (a.2 <? 0x4000) && forallb (no_clash a) host_commands) host_commands = true.
Proof. vm_compute. reflexivity. Qed.

Lemma host_commands_spec x v y w :
  (x, v) ∈ host_commands -> (y, w) ∈ host_commands -> 0 <= v < 0x4000 /\ (v = w -> x = y \/ port80 x && port80 y = true).
Proof.
  intros Hx%list_elem_of_In Hy%list_elem_of_In. pose proof host_commands_checked as H. rewrite forallb_forall in H.
  apply H in Hx. apply andb_prop in Hx as [Hv Hc]. rewrite forallb_forall in Hc. apply Hc in Hy. unfold no_clash in Hy. cbn [fst snd] in *.
  rewrite andb_true_iff, Z.leb_le, Z.ltb_lt in Hv. split; [lia|]. intros ->. rewrite Z.eqb_refl in Hy. cbn in Hy.
  apply orb_prop in Hy as [E|E]; [left; by apply bool_decide_eq_true in E|by right].
Qed.

(** A command number says which device it is for and which command it is: among the four devices
    that the top two bits can name, two commands of the table with the same number are for the same
    device and are the same command, unless both are the two names of the command for port 80; and
    the number fits in sixteen bits. *)
Theorem command_numbers_unique n m x y v w :
  0 <= n < 4 -> 0 <= m < 4 -> (x, v) ∈ host_commands -> (y, w) ∈ host_commands ->
  0 <= device_code n v < 2 ^ 16 /\ device_code n v / 0x4000 = n /\ device_code n v mod 0x4000 = v /\
  (device_code n v = device_code m w -> n = m /\ (x = y \/ port80 x && port80 y = true)).
Proof.
  intros Hn Hm Hx Hy. destruct (host_commands_spec x v y w Hx Hy) as [Hv Hxy]. destruct (host_commands_spec y w y w Hy Hy) as [Hw _].
  unfold device_code, Ectool.ecCmdPassthruOffset. rewrite !u64_small by lia. split; [lia|].
  rewrite (Z.add_comm _ v), (Z.mul_comm 0x4000 n), Z.div_add, Z.mod_add by lia. rewrite Z.div_small, Z.mod_small by lia.
  split; [lia|]. split; [done|]. intros E. assert (n = m) as -> by lia. split; [done|]. apply Hxy. lia.
Qed.

Lemma command_numbers_unique_witness :
  (("ecCmdGetChipInfo"%string, 5) ∈ host_commands /\ ("ecCmdGetChipInfo"%string, 5) ∈ host_commands) /\
  device_code 1 5 / 0x4000 = 1.
Proof.
  assert (("ecCmdGetChipInfo"%string, 5) ∈ host_commands) as H by (apply (bool_decide_unpack _); vm_compute; exact I).
  split; [done|].
  pose proof (command_numbers_unique 1 1 "ecCmdGetChipInfo"%string "ecCmdGetChipInfo"%string 5 5 ltac:(lia) ltac:(lia) H H) as (_ & E & _).
  exact E.
Defined.

(** The note on the commands of the ACPI port reserves 0x80 to 0x87 for them; one command is in that range. *)
Example reserved_range_used : List.filter (fun c => bool_decide (0x80 <= c.2 <= 0x87)) host_commands = [("ecCmdHostEventGetB"%string, 0x87)].
Proof. vm_compute. reflexivity. Qed.

(** ** The structures of the commands *)

Definition message (x : string) : bool := String.prefix "ecParams" x || String.prefix "ecResponse" x.
Definition messages : list string := List.filter message (rev (s_names ec_scope)).

(** The ones that have no fixed size: a field is a slice or an [int]. *)
Definition open_messages : list string :=
  ["ecResponseTmp006GetCalibrationV1"; "ecParamsTmp006SetCalibrationV1"; "ecParamsI2cPassthru"; "ecResponseI2cPassthru";
   "ecResponseSbFwUpdate"; "ecParamsEnteringMode"; "ecResponsePdLog"]%string.
Definition is_open (x : string) : bool := existsb (String.eqb x) open_messages.

(** Every structure of parameters or of a response has a fixed size, but for seven with a slice or
    an [int], and with the header of version 3 fits into the packet of the LPC interface, and
    without it into the parameters of version 2. *)
Theorem messages_fit :
  length messages = 127%nat /\ wire_size "ecHostRequest" = Some 8 /\ wire_size "ecHostResponse" = Some 8 /\
  exists packet params, const_value "ecLpcHostPacketSize" = Some packet /\ const_value "ecProto2MaxParamSize" = Some params /\
  Forall (fun x => from_option (fun n => 0 <= n /\ 8 + n <= packet /\ n <= params) (is_open x = true) (wire_size x)) messages.
Proof.
  split; [vm_compute; reflexivity|]. split; [vm_compute; reflexivity|]. split; [vm_compute; reflexivity|].
  exists 0x100, 0xfc. split; [vm_compute; reflexivity|]. split; [vm_compute; reflexivity|].
  assert (forallb (fun x => from_option (fun n => (0 <=? n) && (8 + n <=? 0x100) && (n <=? 0xfc)) (is_open x) (wire_size x)) messages = true) as H
    by (vm_compute; reflexivity).
  apply Forall_forall. intros x Hx%list_elem_of_In. rewrite forallb_forall in H. apply H in Hx. destruct (wire_size x) as [n|]; cbn [from_option] in *.
  - rewrite !andb_true_iff, !Z.leb_le in Hx. lia.
  - exact Hx.
Qed.

(** The ones that the compiler lays out with gaps, so that their bytes in memory are not the message. *)
Example padded_messages :
  List.filter (fun x => negb (default (-1) (wire_size x) =? default 0 (mem_size x)) && negb (is_open x)) messages =
  ["ecParamsPwmSetFanTargetRpmV1"; "ecParamsPwmSetFanDutyV1"; "ecParamsPort80Read"; "ecResponseMkbpInfo"; "ecParamsMkbpSetConfig";
   "ecResponseMkbpGetConfig"; "ecParamsI2cRead"; "ecParamsI2cWrite"; "ecParamsSbWrWord"; "ecParamsSbWrBlock";
   "ecParamsBatteryVendorParam"; "ecParamsUsbPdRwHashEntry"; "ecParamsUsbPdDiscoveryEntry"; "ecParamsUsbPdGetModeRequest"]%string.
Proof. vm_compute. reflexivity. Qed.

(** ** The enumerations *)

(** The names of a group that stand alone, with the expression that they repeat. *)
Fixpoint repeats (last : option (option string * const_expr)) (l : list const_spec) : list (string * const_expr) :=
  match l with
  | [] => []
  | c :: l => match c_init c, last with
              | Some i, _ => repeats (Some i) l
              | None, Some i => (c_name c, i.2) :: repeats last l
              | None, None => repeats last l
              end
  end.

Fixpoint uses_iota (e : const_expr) : bool :=
  match e with
  | Iota => true
  | Num _ | Ref _ => false
  | Neg a | Not a | Conv _ a => uses_iota a
  | Shl a b | Or a b | Add a b | Sub a b => uses_iota a || uses_iota b
  end.

(** The names that stand alone after an expression without [iota]. *)
Definition stuck : list string :=
  fst <$> List.filter (fun p => negb (uses_iota p.2)) (mjoin ((fun d => match d with Consts l => repeats None l | _ => [] end) <$> ec_decls)).

(** Enumerations that are written as in C, with a value for the first name only, do not count: the
    images, the LEDs and their colours, the thresholds and others are all 0, and a count that
    follows is that of the last member. *)
Example enumerations_stuck :
  (fun x => (x, const_value x)) <$> stuck =
  [("ecImageRo", Some 0); ("ecImageRw", Some 0); ("lightbarNumCmds", Some 33); ("ecLedIDPowerLed", Some 0); ("ecLedIDAdapterLed", Some 0);
   ("ecLedIDCount", Some 0); ("ecLedColorGreen", Some 0); ("ecLedColorBlue", Some 0); ("ecLedColorYellow", Some 0);
   ("ecLedColorWhite", Some 0); ("ecLedColorCount", Some 0); ("ecPort80ReadBuffer", Some 0); ("ecTempThreshHigh", Some 0);
   ("ecTempThreshHalt", Some 0); ("ecTempThreshCount", Some 0); ("chargeControlIdle", Some 0); ("chargeControlDischarge", Some 0);
   ("batteryVendorParamModeSet", Some 0); ("pdChargeNone", Some 0); ("pdCharge5v", Some 0); ("pdChargeMax", Some 0);
   ("usbPdCtrlRoleCount", Some 4); ("usbPdCtrlMuxCount", Some 5); ("pdModeCmdCount", Some 1)]%string.
Proof. vm_compute. reflexivity. Qed.

(** So the structures with an array of a counted length have an empty one. *)
Example counted_arrays_empty :
  (wire_size "ecParamsLedControl", wire_size "ecResponseLedControl", wire_size "ecThermalConfig") = (Some 2, Some 0, Some 8).
Proof. vm_compute. reflexivity. Qed.

(** ** The memory map *)

(** The regions of the mapped memory with their lengths. *)
Definition memory_map : list (string * Z) :=
  [("ecMemmapTempSensor", 16); ("ecMemmapFan", 8); ("ecMemmapTempSensorB", 8); ("ecMemmapID", 2); ("ecMemmapIDVersion", 1);
   ("ecMemmapThermalVersion", 1); ("ecMemmapBatteryVersion", 1); ("ecMemmapSwitchesVersion", 1); ("ecMemmapEventsVersion", 1);
   ("ecMemmapHostCmdFlags", 1); ("ecMemmapSwitches", 1); ("ecMemmapHostEvents", 4); ("ecMemmapBattVolt", 4); ("ecMemmapBattRate", 4);
   ("ecMemmapBattCap", 4); ("ecMemmapBattFlag", 4); ("ecMemmapBattDcap", 4); ("ecMemmapBattDvlt", 4); ("ecMemmapBattLfcc", 4);
   ("ecMemmapBattCcnt", 4); ("ecMemmapBattMfgr", 8); ("ecMemmapBattModel", 8); ("ecMemmapBattSerial", 8); ("ecMemmapBattType", 8);
   ("ecMemmapAls", 4); ("ecMemmapAccStatus", 1); ("ecMemmapAccData", 14); ("ecMemmapGyroData", 6)]%string.

(** Each region starts at or after the end of the one before it. *)
Fixpoint in_order (at_ : Z) (l : list (string * Z)) : option Z :=
  match l with
  | [] => Some at_
  | (x, n) :: l => o ← const_value x; if at_ <=? o then in_order (o + n) l else None
  end.

(** The regions do not overlap and lie in the part that ACPI can read. *)
Example memory_map_apart : in_order 0 memory_map = Some 0xa6 /\ const_value "ecMemmapNoAcpi" = Some 0xe0.
Proof. vm_compute. done. Qed.
