(* ===== verification/Termios.v ===== *)
(** * Terminal settings ([pkg/termios])

    The settings of a terminal and the size of its window, read and set by ioctls that the kernel
    may refuse, and raw mode. *)

From Stdlib Require Import Strings.String.
From S2P Require Export Prelude.

(** [NCCS]: the length of the array of control characters. *)
Definition NCCS : nat := 32.

Record Termios := MkTermios {
  Iflag : Z; Oflag : Z; Cflag : Z; Lflag : Z;
  Line : Z;
  CC : bytes;
  Ispeed : Z; Ospeed : Z
}.

Record WinSize := MkWinSize { Row : Z; Col : Z; Xpixel : Z; Ypixel : Z }.

(** The widths of the fields: [uint32] words and speeds, a byte, an array of [NCCS] bytes. *)
Definition is_u32 (z : Z) : Prop := 0 <= z < 2 ^ 32.
Definition is_u16 (z : Z) : Prop := 0 <= z < 2 ^ 16.

Record wf_termios (t : Termios) : Prop := {
  wf_Iflag : is_u32 (Iflag t); wf_Oflag : is_u32 (Oflag t);
  wf_Cflag : is_u32 (Cflag t); wf_Lflag : is_u32 (Lflag t);
  wf_Line : 0 <= Line t < 2 ^ 8;
  wf_CC : length (CC t) = NCCS;
  wf_Ispeed : is_u32 (Ispeed t); wf_Ospeed : is_u32 (Ospeed t)
}.

Record wf_winsize (w : WinSize) : Prop := {
  wf_Row : is_u16 (Row w); wf_Col : is_u16 (Col w); wf_Xpixel : is_u16 (Xpixel w); wf_Ypixel : is_u16 (Ypixel w)
}.

Definition IGNBRK : Z := 0x1.
Definition BRKINT : Z := 0x2.
Definition PARMRK : Z := 0x8.
Definition ISTRIP : Z := 0x20.
Definition INLCR : Z := 0x40.
Definition IGNCR : Z := 0x80.
Definition ICRNL : Z := 0x100.
Definition IXON : Z := 0x400.
Definition OPOST : Z := 0x1.
Definition ECHO : Z := 0x8.
Definition ECHONL : Z := 0x40.
Definition ICANON : Z := 0x2.
Definition ISIG : Z := 0x1.
Definition IEXTEN : Z := 0x8000.
Definition CSIZE : Z := 0x30.
Definition CS8 : Z := 0x30.
Definition PARENB : Z := 0x100.
Definition VTIME : nat := 5.
Definition VMIN : nat := 6.

(** ** Raw mode *)

(** [x & ^m] and [x | m] on [uint32]. *)
Definition and_not (x m : Z) : Z := Z.land x (Z.lxor m (2 ^ 32 - 1)).

Definition raw_Iflag : Z :=
  Z.lor IGNBRK (Z.lor BRKINT (Z.lor PARMRK (Z.lor ISTRIP (Z.lor INLCR (Z.lor IGNCR (Z.lor ICRNL IXON)))))).
Definition raw_Lflag : Z := Z.lor ECHO (Z.lor ECHONL (Z.lor ICANON (Z.lor ISIG IEXTEN))).

Definition MakeRaw (term : Termios) : Termios :=
  MkTermios
    (and_not (Iflag term) raw_Iflag)
    (and_not (Oflag term) OPOST)
    (Z.lor (and_not (Cflag term) (Z.lor CSIZE PARENB)) CS8)
    (and_not (Lflag term) raw_Lflag)
    (Line term)
    (<[VTIME := x00]> (<[VMIN := x01]> (CC term)))
    (Ispeed term) (Ospeed term).

(** ** The terminal *)

Inductive ioctl :=
| TCGETS
| TCSETS (t : Termios)
| TIOCGWINSZ
| TIOCSWINSZ (w : WinSize).

(** What the kernel keeps of a terminal, and the calls made on it. *)
Record terminal := MkTerminal { settings : Termios; window : WinSize; calls : list ioctl }.

Definition wf_terminal (d : terminal) : Prop := wf_termios (settings d) /\ wf_winsize (window d).

Section Terminal.
(** [refuse]: the error of a call, given the calls before it.  [driver old new]: the settings after
    a successful [TCSETS] of [new]; a driver may adjust them. *)
Context (refuse : list ioctl -> ioctl -> option error) (driver : Termios -> Termios -> Termios).

Definition ioctl_call (c : ioctl) (d : terminal) : terminal * outcome error unit :=
  match refuse (calls d) c with
  | Some _ => (MkTerminal (settings d) (window d) (calls d ++ [c]), Fail (Errorf "r1 %v, errno %v"))
  | None =>
      (MkTerminal
         (match c with TCSETS t => driver (settings d) t | _ => settings d end)
         (match c with TIOCSWINSZ w => w | _ => window d end)
         (calls d ++ [c]), Ret tt)
  end.

Definition tty_Get : M terminal Termios := _ ← ioctl_call TCGETS; d ← get; mret (settings d).

Definition tty_Set (ti : Termios) : M terminal unit := ioctl_call (TCSETS ti).

Definition GetWinSize : M terminal WinSize := _ ← ioctl_call TIOCGWINSZ; d ← get; mret (window d).

Definition SetWinSize (w : WinSize) : M terminal unit := ioctl_call (TIOCSWINSZ w).

Definition Raw : M terminal Termios :=
  restorer ← tty_Get;
  let raw := MakeRaw restorer in
  _ ← tty_Set raw;
  mret restorer.
End Terminal.

(** ** Facts *)

Create HintDb tty.

Lemma testbit_all_ones n i : 0 <= n -> 0 <= i -> Z.testbit (2 ^ n - 1) i = (i <? n).
Proof.
  intros Hn Hi. replace (2 ^ n - 1) with (Z.ones n) by (rewrite Z.ones_equiv; lia).
  destruct (Z.ltb_spec i n).
  - apply Z.ones_spec_low. lia.
  - apply Z.ones_spec_high. lia.
Qed.

Lemma testbit_is_u32 x i : is_u32 x -> 32 <= i -> Z.testbit x i = false.
Proof. intros [H0 H1] Hi. rewrite <- (Z.mod_small x (2 ^ 32)) by lia. apply Z.mod_pow2_bits_high. lia. Qed.

Lemma is_u32_bits x : 0 <= x -> (forall i, 32 <= i -> Z.testbit x i = false) -> is_u32 x.
Proof.
  intros H0 H. split; [done|]. destruct (decide (x = 0)) as [->|Hx]; [done|].
  apply Z.log2_lt_pow2; [lia|]. destruct (Z.lt_ge_cases (Z.log2 x) 32) as [?|Hge]; [done|].
  specialize (H _ Hge). rewrite Z.bit_log2 in H by lia. done.
Qed.

Lemma and_not_bits x m i : is_u32 x -> 0 <= i -> Z.testbit (and_not x m) i = Z.testbit x i && negb (Z.testbit m i).
Proof.
  intros Hx Hi. unfold and_not. rewrite Z.land_spec, Z.lxor_spec, testbit_all_ones by lia.
  destruct (Z.ltb_spec i 32).
  - by rewrite xorb_true_r.
  - by rewrite (testbit_is_u32 x i) by done.
Qed.

Lemma and_not_u32 x m : is_u32 x -> 0 <= m -> is_u32 (and_not x m).
Proof.
  intros Hx Hm. apply is_u32_bits.
  - unfold and_not. apply Z.land_nonneg. left. apply Hx.
  - intros i Hi. rewrite and_not_bits, (testbit_is_u32 x i) by (done || lia). done.
Qed.

Lemma lor_u32 x m : is_u32 x -> is_u32 m -> is_u32 (Z.lor x m).
Proof.
  intros Hx Hm. apply is_u32_bits.
  - apply Z.lor_nonneg. split; [apply Hx | apply Hm].
  - intros i Hi. by rewrite Z.lor_spec, !testbit_is_u32.
Qed.

#[export] Hint Resolve and_not_u32 lor_u32 : tty.

Lemma MakeRaw_wf t : wf_termios t -> wf_termios (MakeRaw t).
Proof.
  intros []. split; simpl; try done; try (apply and_not_u32; done).
  - apply lor_u32; [apply and_not_u32; done|done].
  - by rewrite !length_insert.
Qed.

(** The bits of a constant, checked one by one. *)
Lemma mask_bits m (ls : list Z) i :
  is_u32 m -> 0 <= i ->
  forallb (fun j => Bool.eqb (Z.testbit m j) (bool_decide (j ∈ ls))) (seqZ 0 32) && forallb (fun j => j <? 32) ls = true ->
  Z.testbit m i = bool_decide (i ∈ ls).
Proof.
  intros Hm Hi [H Hl]%andb_prop. destruct (Z.lt_ge_cases i 32).
  - rewrite forallb_forall in H. apply Bool.eqb_prop, H, list_elem_of_In, elem_of_seqZ. lia.
  - rewrite (testbit_is_u32 m i) by done. symmetry. apply bool_decide_eq_false. intros Hin.
    rewrite forallb_forall in Hl. apply list_elem_of_In, Hl in Hin. lia.
Qed.

(** The bits of a setting in raw mode: the ones that process input and output are off, characters
    have eight bits without parity, and every other bit is the one of the given settings. *)
Lemma MakeRaw_bits t i :
  wf_termios t -> 0 <= i ->
  Z.testbit (Iflag (MakeRaw t)) i = Z.testbit (Iflag t) i && negb (bool_decide (i ∈ [0; 1; 3; 5; 6; 7; 8; 10])) /\
  Z.testbit (Oflag (MakeRaw t)) i = Z.testbit (Oflag t) i && negb (bool_decide (i = 0)) /\
  Z.testbit (Lflag (MakeRaw t)) i = Z.testbit (Lflag t) i && negb (bool_decide (i ∈ [0; 1; 3; 6; 15])) /\
  Z.testbit (Cflag (MakeRaw t)) i =
    (Z.testbit (Cflag t) i && negb (bool_decide (i = 8))) || bool_decide (i ∈ [4; 5]).
Proof.
  intros [] Hi. unfold MakeRaw; simpl. rewrite Z.lor_spec, !and_not_bits by done.
  rewrite (mask_bits raw_Iflag [0; 1; 3; 5; 6; 7; 8; 10] i) by (done || vm_compute; reflexivity).
  rewrite (mask_bits OPOST [0] i), (mask_bits CS8 [4; 5] i) by (done || vm_compute; reflexivity).
  rewrite (mask_bits raw_Lflag [0; 1; 3; 6; 15] i), (mask_bits (Z.lor CSIZE PARENB) [4; 5; 8] i) by (done || vm_compute; reflexivity).
  rewrite !bool_decide_decide. repeat split; try done.
  - destruct (decide (i ∈ [0])), (decide (i = 0)); set_solver.
  - destruct (decide (i ∈ [4; 5])), (decide (i = 8)), (decide (i ∈ [4; 5; 8])), (Z.testbit (Cflag t) i); set_solver.
Qed.

(** A driver whose settings have the widths of their fields. *)
Definition typed_driver (driver : Termios -> Termios -> Termios) : Prop :=
  forall old new, wf_termios old -> wf_termios new -> wf_termios (driver old new).

(** The use the package documents: raw mode, then the settings it returned.  The kernel is asked for the settings
    of [MakeRaw], and at the end, whatever was set in between, for the settings of before. *)
Lemma Raw_restores refuse driver d d1 d2 d3 restorer :
  Raw refuse driver d = (d1, Ret restorer) ->
  window d2 = window d1 ->
  tty_Set refuse driver restorer d2 = (d3, Ret tt) ->
  calls d1 = calls d ++ [TCGETS; TCSETS (MakeRaw (settings d))] /\ calls d3 = calls d2 ++ [TCSETS (settings d)] /\
  settings d1 = driver (settings d) (MakeRaw (settings d)) /\ settings d3 = driver (settings d2) (settings d) /\
  window d3 = window d.
Proof.
  intros H Hw H3. unfold Raw, tty_Get, tty_Set in *. M_inv H.
  M_inv Hm. M_inv Hm. M_inv H.
  unfold ioctl_call, get, mret, M_ret in *. repeat case_match; simplify_eq. simpl in *. by rewrite <- app_assoc.
Qed.
