(* ===== verification/Stty.v ===== *)
(** * Terminal options ([cmds/stty])

    The tables of option names, reading and setting the options of a terminal, the command line, raw
    mode, and saving and loading the options as JSON.  A loop over a Go map runs in any order: the
    orders of the loops whose effect may depend on them are parameters. *)

From Stdlib Require Import Strings.String.
From stdpp Require Import gmap.
From S2P Require Export GoPath GoUtf8 GoText Termios.

(** ** Tables *)

Record bit := MkBit { word : Z; mask : Z }.

Definition word_I : Z := 0.
Definition word_O : Z := 1.
Definition word_C : Z := 2.
Definition word_L : Z := 3.

Definition boolFields : list (bytes * bit) :=
  (fun '(n, w, m) => (str n, MkBit w m)) <$> [
    ("ignbrk"%string, word_I, 0x1); ("brkint"%string, word_I, 0x2); ("ignpar"%string, word_I, 0x4);
    ("parmrk"%string, word_I, 0x8); ("inpck"%string, word_I, 0x10); ("istrip"%string, word_I, 0x20);
    ("inlcr"%string, word_I, 0x40); ("igncr"%string, word_I, 0x80); ("icrnl"%string, word_I, 0x100);
    ("iuclc"%string, word_I, 0x200); ("ixon"%string, word_I, 0x400); ("ixany"%string, word_I, 0x800);
    ("ixoff"%string, word_I, 0x1000); ("imaxbel"%string, word_I, 0x2000); ("iutf8"%string, word_I, 0x4000);
    ("opost"%string, word_O, 0x1); ("olcuc"%string, word_O, 0x2); ("onlcr"%string, word_O, 0x4);
    ("ocrnl"%string, word_O, 0x8); ("onocr"%string, word_O, 0x10); ("onlret"%string, word_O, 0x20);
    ("ofill"%string, word_O, 0x40); ("ofdel"%string, word_O, 0x80);
    ("isig"%string, word_L, 0x1); ("icanon"%string, word_L, 0x2); ("xcase"%string, word_L, 0x4);
    ("echo"%string, word_L, 0x8); ("echoe"%string, word_L, 0x10); ("echok"%string, word_L, 0x20);
    ("echonl"%string, word_L, 0x40); ("noflsh"%string, word_L, 0x80); ("tostop"%string, word_L, 0x100);
    ("echoctl"%string, word_L, 0x200); ("echoprt"%string, word_L, 0x400); ("echoke"%string, word_L, 0x800);
    ("flusho"%string, word_L, 0x1000); ("pendin"%string, word_L, 0x4000); ("iexten"%string, word_L, 0x8000);
    ("cstopb"%string, word_C, 0x40); ("cread"%string, word_C, 0x80); ("parenb"%string, word_C, 0x100);
    ("parodd"%string, word_C, 0x200); ("hupcl"%string, word_C, 0x400); ("clocal"%string, word_C, 0x800)].

(** [cc]: the index of a control character; the literals are the ones of the table. *)
Definition cc : list (bytes * nat) :=
  (fun '(n, i) => (str n, i)) <$> [
    ("min"%string, 5%nat); ("time"%string, 0%nat); ("lnext"%string, 15%nat); ("intr"%string, 0%nat);
    ("quit"%string, 1%nat); ("erase"%string, 2%nat); ("kill"%string, 3%nat); ("eof"%string, 4%nat);
    ("eol"%string, 11%nat); ("eol2"%string, 16%nat); ("start"%string, 8%nat); ("stop"%string, 9%nat);
    ("susp"%string, 10%nat); ("werase"%string, 14%nat)].

(** [_, ok := m[k]]. *)
Definition has_key {V} (m : list (bytes * V)) (k : bytes) : bool := existsb (fun kv => bytes_eqb kv.1 k) m.

(** [tty]; [gtty] leaves [Line], [Min] and [Time] zero and [stty] does not look at them. *)
Record tty := MkTty {
  tty_Ispeed : Z; tty_Ospeed : Z; tty_Row : Z; tty_Col : Z;
  tty_Line : Z; tty_Min : Z; tty_Time : Z;
  tty_CC : gmap bytes byte;
  Opts : gmap bytes bool
}.

Definition set_Ispeed (v : Z) (t : tty) : tty :=
  MkTty v (tty_Ospeed t) (tty_Row t) (tty_Col t) (tty_Line t) (tty_Min t) (tty_Time t) (tty_CC t) (Opts t).
Definition set_Row (v : Z) (t : tty) : tty :=
  MkTty (tty_Ispeed t) (tty_Ospeed t) v (tty_Col t) (tty_Line t) (tty_Min t) (tty_Time t) (tty_CC t) (Opts t).
Definition set_Col (v : Z) (t : tty) : tty :=
  MkTty (tty_Ispeed t) (tty_Ospeed t) (tty_Row t) v (tty_Line t) (tty_Min t) (tty_Time t) (tty_CC t) (Opts t).
Definition set_CC (n : bytes) (v : byte) (t : tty) : tty :=
  MkTty (tty_Ispeed t) (tty_Ospeed t) (tty_Row t) (tty_Col t) (tty_Line t) (tty_Min t) (tty_Time t)
    (<[n := v]> (tty_CC t)) (Opts t).
Definition set_Opt (n : bytes) (v : bool) (t : tty) : tty :=
  MkTty (tty_Ispeed t) (tty_Ospeed t) (tty_Row t) (tty_Col t) (tty_Line t) (tty_Min t) (tty_Time t)
    (tty_CC t) (<[n := v]> (Opts t)).

(** [reflect.ValueOf(term).Elem().Field(w).Uint()] and [SetUint], which keeps the low 32 bits. *)
Definition Field (t : Termios) (w : Z) : Z :=
  if w =? 0 then Iflag t else if w =? 1 then Oflag t else if w =? 2 then Cflag t else Lflag t.

Definition SetField (w v : Z) (t : Termios) : Termios :=
  let v := u32 v in
  if w =? 0 then MkTermios v (Oflag t) (Cflag t) (Lflag t) (Line t) (CC t) (Ispeed t) (Ospeed t)
  else if w =? 1 then MkTermios (Iflag t) v (Cflag t) (Lflag t) (Line t) (CC t) (Ispeed t) (Ospeed t)
  else if w =? 2 then MkTermios (Iflag t) (Oflag t) v (Lflag t) (Line t) (CC t) (Ispeed t) (Ospeed t)
  else MkTermios (Iflag t) (Oflag t) (Cflag t) v (Line t) (CC t) (Ispeed t) (Ospeed t).

Definition with_CC (l : bytes) (t : Termios) : Termios :=
  MkTermios (Iflag t) (Oflag t) (Cflag t) (Lflag t) (Line t) l (Ispeed t) (Ospeed t).
Definition with_speeds (i o : Z) (t : Termios) : Termios :=
  MkTermios (Iflag t) (Oflag t) (Cflag t) (Lflag t) (Line t) (CC t) i o.

(** ** Reading and setting *)

(** The body of the first loop of [stty]. *)
Definition put_bit (opts : gmap bytes bool) (term : Termios) (f : bytes * bit) : Termios :=
  let '(n, b) := f in
  let set := default false (opts !! n) in
  let i := Field term (word b) in
  let i := if set then Z.lor i (mask b) else Z.land i (Z.lxor (mask b) (2 ^ 64 - 1)) in
  SetField (word b) i term.

(** The body of the second loop. *)
Definition put_char (chars : gmap bytes byte) (l : bytes) (c : bytes * nat) : bytes :=
  <[c.2 := default x00 (chars !! c.1)]> l.

(** What [gtty] makes of the settings.  The loops fill maps under distinct keys; an index outside of
    the array would panic. *)
Fixpoint get_chars (l : bytes) (cs : list (bytes * nat)) (m : gmap bytes byte) : outcome error (gmap bytes byte) :=
  match cs with
  | [] => Ret m
  | (n, i) :: cs => b ← or_panic (l !! i); get_chars l cs (<[n := b]> m)
  end.

Fixpoint get_opts (term : Termios) (fs : list (bytes * bit)) (m : gmap bytes bool) : gmap bytes bool :=
  match fs with
  | [] => m
  | (n, b) :: fs => get_opts term fs (<[n := negb (Z.land (Field term (word b)) (mask b) =? 0)]> m)
  end.

Section Stty.
Context (refuse : list ioctl -> ioctl -> option error) (driver : Termios -> Termios -> Termios).
(** The orders in which the loops of [stty] run through the tables. *)
Context (bools : list (bytes * bit)) (chars : list (bytes * nat)).

Definition tiGet : M terminal Termios := _ ← ioctl_call refuse driver TCGETS; d ← get; mret (settings d).
Definition tiSet (term : Termios) : M terminal unit := ioctl_call refuse driver (TCSETS term).
Definition wsGet : M terminal WinSize := _ ← ioctl_call refuse driver TIOCGWINSZ; d ← get; mret (window d).
Definition wsSet (w : WinSize) : M terminal unit := ioctl_call refuse driver (TIOCSWINSZ w).

Definition gtty : M terminal tty :=
  term ← tiGet;
  w ← wsGet;
  let opts := get_opts term boolFields ∅ in
  m ← lift (get_chars (CC term) cc ∅);
  mret (MkTty (Ispeed term) (Ospeed term) (Row w) (Col w) 0 0 0 m opts).

Definition stty (t : tty) : M terminal tty :=
  term ← tiGet;
  let term := foldl (put_bit (Opts t)) term bools in
  let term := with_CC (foldl (put_char (tty_CC t)) (CC term) chars) term in
  let term := with_speeds (u32 (tty_Ispeed t)) (u32 (tty_Ospeed t)) term in
  _ ← tiSet term;
  let w := MkWinSize (u16 (tty_Row t)) (u16 (tty_Col t)) 0 0 in
  _ ← wsSet w;
  gtty.

(** ** The command line *)

(** [intarg]: [log.Fatalf] is [Fail]. *)
Definition intarg (s : list bytes) : outcome error Z :=
  match s with
  | [] => Panic
  | [_] => Fail (Errorf "%s requires an arg")
  | _ :: a :: _ => match Atoi a with (i, None) => Ret i | (_, Some _) => Fail (Errorf "%s is not a number") end
  end.

(** [setOpts]; every pass of the loop uses up one or two of the arguments. *)
Fixpoint setOpts (t : tty) (opts : list bytes) : outcome error tty :=
  match opts with
  | [] => Ret t
  | o :: rest =>
      let arg (f : Z -> tty) :=
        i ← intarg opts;
        setOpts (f i) (match rest with [] => rest | _ :: rest => rest end) in
      if bytes_eqb o (str "row") then arg (fun i => set_Row i t)
      else if bytes_eqb o (str "col") then arg (fun i => set_Col i t)
      else if bytes_eqb o (str "speed") then arg (fun i => set_Ispeed i t)
      else if has_key cc o then arg (fun i => set_CC o (z2b i) t)
      else
        match o with
        | [] => Panic
        | b :: o1 =>
            let '(set, o) := if byte_eqb b x7e then (false, o1) else (true, o) in
            if has_key boolFields o then setOpts (set_Opt o set t) rest
            else Fail (Errorf "%s: unknown option")
        end
  end.

Definition raw_opts : list bytes := str <$> [
  "~ignbrk"; "~brkint"; "~parmrk"; "~istrip"; "~inlcr"; "~igncr"; "~icrnl"; "~ixon"; "~opost"; "~echo"; "~echonl";
  "~icanon"; "~isig"; "~iexten"; "~parenb"; "min"; "1"; "time"; "0"]%string.

Definition setRaw : M terminal tty :=
  t ← gtty;
  t ← lift (setOpts t raw_opts);
  stty t.

(** ** Printing *)

Definition hex2 (z : Z) : bytes := [hex_digit (z / 16); hex_digit (z `mod` 16)].

(** [%#q] of a byte: the rune in single quotes, escaped when it cannot be printed. *)
Definition quote_char (c : byte) : bytes :=
  let z := b2z c in
  let body :=
    if z =? 7 then str "\a" else if z =? 8 then str "\b" else if z =? 12 then str "\f"
    else if z =? 10 then str "\n" else if z =? 13 then str "\r" else if z =? 9 then str "\t"
    else if z =? 11 then str "\v" else if z =? 39 then str "\'" else if z =? 92 then str "\\"
    else if z <? 32 then str "\x" ++ hex2 z
    else if z <? 127 then [c]
    else if (161 <=? z) && negb (z =? 173) then EncodeRune z
    else str "\u00" ++ hex2 z in
  str "'" ++ body ++ str "'".

(** The orders of the loops over the two maps of a [tty]. *)
Context (range_CC : gmap bytes byte -> list (bytes * byte)) (range_Opts : gmap bytes bool -> list (bytes * bool)).

Definition pretty (t : tty) : bytes :=
  str "speed: " ++ Itoa (tty_Ispeed t) ++ str " " ++
  concat ((fun '(n, c) => n ++ str ": " ++ quote_char c ++ str ", ") <$> range_CC (tty_CC t)) ++
  Itoa (tty_Row t) ++ str " rows, " ++ Itoa (tty_Col t) ++ str " cols" ++ [x0a] ++
  concat ((fun '(n, set) => (if (set : bool) then [] else str "~") ++ n ++ str " ") <$> range_Opts (Opts t)) ++ [x0a].

(** ** [main] *)

Definition or_fail {A} (r : A + error) : outcome error A := match r with inl a => Ret a | inr e => Fail e end.

(**

    The standard output of a run; JSON and the files are parameters.  [Unmarshal b t] changes the
    fields of [t] that [b] names. *)
Context (MarshalIndent : tty -> bytes) (Unmarshal : bytes -> tty -> tty + error).
Context (ReadFile : bytes -> bytes + error).

Definition stty_main (args : list bytes) : M terminal bytes :=
  t ← gtty;
  let args := match args with [] => [str "pretty"] | _ => args end in
  match args with
  | [] => mret []
  | verb :: operands =>
      if bytes_eqb verb (str "pretty") then mret (pretty t)
      else if bytes_eqb verb (str "dump") then mret (MarshalIndent t ++ [x0a])
      else if bytes_eqb verb (str "load") then
        match operands with
        | [name] =>
            b ← lift (or_fail (ReadFile name));
            t ← lift (or_fail (Unmarshal b t));
            t ← stty t;
            mret (pretty t)
        | _ => raise (Errorf "arg count")
        end
      else if bytes_eqb verb (str "raw") then _ ← setRaw; mret []
      else
        t ← lift (setOpts t args);
        t ← stty t;
        mret (pretty t)
  end.
End Stty.

(** ** The tables *)

#[global] Arguments put_bit _ _ _ : simpl never.
#[global] Arguments put_char _ _ _ : simpl never.

(** Where an option is kept: the word and the number of its bit. *)
Definition place (b : bit) : Z * Z := (word b, Z.log2 (mask b)).

Definition bit_ok (b : bit) : Prop := 0 <= word b <= 3 /\ 0 <= Z.log2 (mask b) < 32 /\ mask b = 2 ^ Z.log2 (mask b).

#[export] Instance bit_ok_dec b : Decision (bit_ok b).
Proof. unfold bit_ok. apply _. Defined.

Lemma boolFields_ok : Forall (fun f => bit_ok f.2) boolFields.
Proof. apply (bool_decide_eq_true_1 _). vm_compute. reflexivity. Qed.

Lemma boolFields_places : NoDup ((fun f => place f.2) <$> boolFields).
Proof. apply (bool_decide_eq_true_1 _). vm_compute. reflexivity. Qed.

Lemma boolFields_names : NoDup (boolFields.*1).
Proof. apply (bool_decide_eq_true_1 _). vm_compute. reflexivity. Qed.

Lemma cc_names : NoDup (cc.*1).
Proof. apply (bool_decide_eq_true_1 _). vm_compute. reflexivity. Qed.

Lemma cc_indices : Forall (fun c => (c.2 < NCCS)%nat) cc.
Proof. apply (bool_decide_eq_true_1 _). vm_compute. reflexivity. Qed.

(** Two names of one control character are the two names of the first. *)
Lemma cc_alias c1 c2 : c1 ∈ cc -> c2 ∈ cc -> c1.2 = c2.2 -> c1.1 = c2.1 \/ c1.2 = 0%nat.
Proof.
  intros H1 H2. revert c2 H2. pattern c1. revert c1 H1. apply Forall_forall.
  assert (H : Forall (fun c1 => Forall (fun c2 => c1.2 = c2.2 -> c1.1 = c2.1 \/ c1.2 = 0%nat) cc) cc)
    by (apply (bool_decide_eq_true_1 _); vm_compute; reflexivity).
  eapply Forall_impl; [exact H|]. intros c Hc c2 H2. by eapply Forall_forall in Hc.
Qed.

Lemma has_key_elem {V} (m : list (bytes * V)) k : has_key m k = true <-> k ∈ m.*1.
Proof.
  unfold has_key. rewrite existsb_exists, list_elem_of_fmap. split.
  - intros (kv & Hin & <-%bytes_eqb_eq). exists kv. by rewrite list_elem_of_In.
  - intros (kv & -> & Hin). exists kv. by rewrite <- list_elem_of_In, bytes_eqb_eq.
Qed.

(** ** Words *)

Lemma Field_SetField t w v w' :
  0 <= w <= 3 -> 0 <= w' <= 3 -> Field (SetField w v t) w' = if w' =? w then u32 v else Field t w'.
Proof.
  intros Hw Hw'. unfold Field, SetField.
  assert (w = 0 \/ w = 1 \/ w = 2 \/ w = 3) as [->|[->|[->| ->]]] by lia;
    assert (w' = 0 \/ w' = 1 \/ w' = 2 \/ w' = 3) as [->|[->|[->| ->]]] by lia; reflexivity.
Qed.

Lemma Field_u32 t w : wf_termios t -> is_u32 (Field t w).
Proof. intros []. unfold Field. by repeat case_match. Qed.

Lemma u32_is_u32 z : is_u32 (u32 z).
Proof. apply u32_range. Qed.

Lemma SetField_wf w v t : wf_termios t -> wf_termios (SetField w v t).
Proof. intros []. unfold SetField. repeat case_match; split; simpl; auto using u32_is_u32. Qed.

Lemma put_bit_wf opts t f : wf_termios t -> wf_termios (put_bit opts t f).
Proof. destruct f. apply SetField_wf. Qed.

(** The parts of the settings outside of the words. *)
Definition rest_of (t : Termios) : Z * bytes * Z * Z := (Line t, CC t, Ispeed t, Ospeed t).

Lemma put_bit_rest opts t f : rest_of (put_bit opts t f) = rest_of t.
Proof. destruct f. unfold put_bit, SetField. by repeat case_match. Qed.

Lemma testbit_u32 v i : 0 <= i < 32 -> Z.testbit (u32 v) i = Z.testbit v i.
Proof. intros. unfold u32. apply Z.mod_pow2_bits_low. lia. Qed.

Lemma put_bit_bits opts t n b w i :
  bit_ok b -> 0 <= w <= 3 -> 0 <= i < 32 ->
  Z.testbit (Field (put_bit opts t (n, b)) w) i =
    if decide (place b = (w, i)) then default false (opts !! n) else Z.testbit (Field t w) i.
Proof.
  intros (Hw & Hk & Hm) Hw' Hi. unfold put_bit, place. rewrite Field_SetField by done.
  destruct (Z.eqb_spec w (word b)) as [->|Hne]; [|rewrite decide_False by congruence; done].
  rewrite testbit_u32 by done. rewrite Hm. set (k := Z.log2 (mask b)) in *. rewrite (Z.log2_pow2 k) by lia.
  destruct (default false (opts !! n)).
  - rewrite Z.lor_spec, Z.pow2_bits_eqb by lia.
    destruct (Z.eqb_spec k i) as [->|Hne]; [by rewrite decide_True, orb_true_r by done|].
    rewrite decide_False by congruence. apply orb_false_r.
  - rewrite Z.land_spec, Z.lxor_spec, Z.pow2_bits_eqb, (testbit_all_ones 64 i) by lia.
    replace (i <? 64) with true by (symmetry; apply Z.ltb_lt; lia).
    destruct (Z.eqb_spec k i) as [->|Hne]; [by rewrite decide_True, andb_false_r by done|].
    rewrite decide_False by congruence. apply andb_true_r.
Qed.

Lemma put_bits_wf opts fs t : wf_termios t -> wf_termios (foldl (put_bit opts) t fs).
Proof. revert t. induction fs as [|f fs IH]; simpl; eauto using put_bit_wf. Qed.

Lemma put_bits_rest opts fs t : rest_of (foldl (put_bit opts) t fs) = rest_of t.
Proof. revert t. induction fs as [|f fs IH]; intros t; simpl; [done|]. by rewrite IH, put_bit_rest. Qed.

Lemma put_bits_other opts fs t w i :
  Forall (fun f => bit_ok f.2) fs -> 0 <= w <= 3 -> 0 <= i < 32 ->
  (w, i) ∉ ((fun f => place f.2) <$> fs) ->
  Z.testbit (Field (foldl (put_bit opts) t fs) w) i = Z.testbit (Field t w) i.
Proof.
  intros Hok Hw Hi. revert t. induction Hok as [|[n b] fs Hb _ IH]; intros t Hn; simpl in *; [done|].
  rewrite not_elem_of_cons in Hn. destruct Hn as [Hne Hn].
  rewrite IH, put_bit_bits by done. by rewrite decide_False by (intros E; by rewrite <- E in Hne).
Qed.

Lemma put_bits_set opts fs t n b :
  Forall (fun f => bit_ok f.2) fs -> NoDup ((fun f => place f.2) <$> fs) -> (n, b) ∈ fs ->
  Z.testbit (Field (foldl (put_bit opts) t fs) (word b)) (Z.log2 (mask b)) = default false (opts !! n).
Proof.
  intros Hok. revert t. induction Hok as [|[n' b'] fs Hb Hfs IH]; intros t Hnd Hin; simpl in *; [by apply not_elem_of_nil in Hin|].
  rewrite NoDup_cons in Hnd. destruct Hnd as [Hn Hnd].
  apply elem_of_cons in Hin as [[= -> ->]|Hin]; [|by apply IH].
  destruct Hb as (? & ? & ?).
  rewrite put_bits_other by (done || lia). rewrite put_bit_bits by (done || lia). by rewrite decide_True.
Qed.

(** ** Characters *)

Lemma put_chars_length m cs l : length (foldl (put_char m) l cs) = length l.
Proof. revert l. induction cs as [|c cs IH]; intros l; simpl; [done|]. rewrite IH. apply length_insert. Qed.

Lemma put_chars_other m cs l i : i ∉ cs.*2 -> foldl (put_char m) l cs !! i = l !! i.
Proof.
  revert l. induction cs as [|[n j] cs IH]; intros l Hn; simpl in *; [done|].
  rewrite not_elem_of_cons in Hn. destruct Hn as [Hne Hn]. rewrite IH by done. by apply list_lookup_insert_ne.
Qed.

Lemma put_chars_set m cs l i v :
  (i < length l)%nat -> (forall n, (n, i) ∈ cs -> default x00 (m !! n) = v) -> i ∈ cs.*2 ->
  foldl (put_char m) l cs !! i = Some v.
Proof.
  revert l. induction cs as [|[n j] cs IH]; intros l Hl Hv Hin; simpl in *; [by apply not_elem_of_nil in Hin|].
  destruct (decide (i ∈ cs.*2)) as [Hcs|Hcs].
  - apply IH; [unfold put_char; by rewrite length_insert| |done]. intros n' H. apply Hv. by apply elem_of_cons; right.
  - apply elem_of_cons in Hin as [->|?]; [|done]. rewrite put_chars_other by done.
    unfold put_char; simpl. rewrite list_lookup_insert_eq by done. f_equal. apply Hv. by apply elem_of_cons; left.
Qed.

(** ** Reading *)

Lemma get_opts_other term fs m n : n ∉ fs.*1 -> get_opts term fs m !! n = m !! n.
Proof.
  revert m. induction fs as [|[n' b] fs IH]; intros m Hn; simpl in *; [done|].
  rewrite not_elem_of_cons in Hn. destruct Hn. rewrite IH by done. by apply lookup_insert_ne.
Qed.

Lemma land_pow2_testbit x k : 0 <= k -> negb (Z.land x (2 ^ k) =? 0) = Z.testbit x k.
Proof.
  intros Hk. destruct (Z.testbit x k) eqn:E; destruct (Z.eqb_spec (Z.land x (2 ^ k)) 0) as [H|H]; try done.
  - apply (f_equal (fun z => Z.testbit z k)) in H. rewrite Z.land_spec, E, Z.pow2_bits_true, Z.bits_0 in H by done. done.
  - exfalso. apply H. apply Z.bits_inj'. intros i Hi. rewrite Z.land_spec, Z.pow2_bits_eqb, Z.bits_0 by done.
    destruct (Z.eqb_spec k i) as [<-|]; [by rewrite E|apply andb_false_r].
Qed.

Lemma get_opts_set term fs m n b :
  NoDup (fs.*1) -> bit_ok b -> (n, b) ∈ fs ->
  get_opts term fs m !! n = Some (Z.testbit (Field term (word b)) (Z.log2 (mask b))).
Proof.
  intros Hnd (Hw & Hk & Hm). revert m. induction fs as [|[n' b'] fs IH]; intros m Hin; simpl in *; [by apply not_elem_of_nil in Hin|].
  rewrite NoDup_cons in Hnd. destruct Hnd as [Hn Hnd].
  apply elem_of_cons in Hin as [[= <- <-]|Hin]; [|by apply IH].
  rewrite get_opts_other, lookup_insert_eq by done. f_equal. rewrite Hm at 1. apply land_pow2_testbit. lia.
Qed.

Lemma get_chars_ok l cs m :
  Forall (fun c => (c.2 < length l)%nat) cs -> NoDup (cs.*1) ->
  exists m', get_chars l cs m = Ret m' /\
    (forall n i, (n, i) ∈ cs -> m' !! n = l !! i) /\ (forall n, n ∉ cs.*1 -> m' !! n = m !! n).
Proof.
  intros Hl. revert m. induction Hl as [|[n i] cs Hi _ IH]; intros m Hnd; simpl in *.
  - exists m. split; [done|]. split; [|done]. intros n i Hin. by apply not_elem_of_nil in Hin.
  - rewrite NoDup_cons in Hnd. destruct Hnd as [Hn Hnd].
    destruct (lookup_lt_is_Some_2 l i Hi) as [v Hv]. rewrite Hv. simpl.
    destruct (IH (<[n := v]> m) Hnd) as (m' & -> & H1 & H2). exists m'. split; [done|]. split.
    + intros n' i' [[= -> ->]|Hin]%elem_of_cons; [|by apply H1]. by rewrite H2, lookup_insert_eq, Hv.
    + intros n' [Hne Hn']%not_elem_of_cons. rewrite H2 by done. by apply lookup_insert_ne.
Qed.

(** What [gtty] reads off the settings. *)
Definition tty_of (term : Termios) (w : WinSize) (t : tty) : Prop :=
  get_chars (CC term) cc ∅ = Ret (tty_CC t) /\ Opts t = get_opts term boolFields ∅ /\
  tty_Ispeed t = Ispeed term /\ tty_Ospeed t = Ospeed term /\ tty_Row t = Row w /\ tty_Col t = Col w /\
  tty_Line t = 0 /\ tty_Min t = 0 /\ tty_Time t = 0.

Lemma tty_of_Opts term w t n b :
  tty_of term w t -> (n, b) ∈ boolFields ->
  Opts t !! n = Some (Z.testbit (Field term (word b)) (Z.log2 (mask b))).
Proof.
  intros (_ & -> & _) Hin. apply get_opts_set; [apply boolFields_names | | done].
  pose proof boolFields_ok as H. rewrite Forall_forall in H. by apply (H (n, b)).
Qed.

Lemma tty_of_CC term w t n i : length (CC term) = NCCS -> tty_of term w t -> (n, i) ∈ cc -> tty_CC t !! n = CC term !! i.
Proof.
  intros Hl (H & _) Hin. destruct (get_chars_ok (CC term) cc ∅) as (m & Hm & Hs & _); [|apply cc_names|].
  - rewrite Hl. apply cc_indices.
  - rewrite Hm in H. injection H as ->. by apply Hs.
Qed.

Lemma tty_of_dom term w t :
  length (CC term) = NCCS -> tty_of term w t -> dom (tty_CC t) = list_to_set (cc.*1) /\ dom (Opts t) = list_to_set (boolFields.*1).
Proof.
  intros Hl (H & HO & _). split; apply set_eq; intros n; rewrite elem_of_dom, elem_of_list_to_set.
  - destruct (get_chars_ok (CC term) cc ∅) as (m & Hm & Hs & Ho); [by rewrite Hl; apply cc_indices|apply cc_names|].
    rewrite Hm in H. injection H as <-. destruct (decide (n ∈ cc.*1)) as [Hin|Hin].
    + split; [done|intros _]. apply list_elem_of_fmap in Hin as ([n' i] & -> & Hin). simpl. rewrite (Hs _ _ Hin).
      apply lookup_lt_is_Some. rewrite Hl. pose proof cc_indices as Hc. rewrite Forall_forall in Hc. by apply (Hc (n', i)).
    + split; [|done]. rewrite Ho by done. rewrite lookup_empty. by intros [].
  - destruct (decide (n ∈ boolFields.*1)) as [Hin|Hin].
    + split; [done|intros _]. apply list_elem_of_fmap in Hin as ([n' b] & -> & Hin). simpl. rewrite HO.
      pose proof boolFields_ok as Hb. rewrite Forall_forall in Hb.
      erewrite get_opts_set; [eauto|apply boolFields_names|exact (Hb (n', b) Hin)|done].
    + split; [|done]. rewrite HO, get_opts_other, lookup_empty by done. by intros [].
Qed.

(** ** The settings [stty] makes *)

Definition filled (bools : list (bytes * bit)) (chars : list (bytes * nat)) (t : tty) (term : Termios) : Termios :=
  let term := foldl (put_bit (Opts t)) term bools in
  let term := with_CC (foldl (put_char (tty_CC t)) (CC term) chars) term in
  with_speeds (u32 (tty_Ispeed t)) (u32 (tty_Ospeed t)) term.

(** Settings that agree in everything the tables do not name. *)
Definition untouched (a b : Termios) : Prop :=
  Line a = Line b /\
  (forall w i, 0 <= w <= 3 -> 0 <= i < 32 -> (w, i) ∉ ((fun f => place f.2) <$> boolFields) ->
     Z.testbit (Field a w) i = Z.testbit (Field b w) i) /\
  (forall i, i ∉ cc.*2 -> CC a !! i = CC b !! i).

#[export] Instance untouched_equiv : Equivalence untouched.
Proof.
  split.
  - done.
  - intros a b (? & ? & ?). split; [done|]. split; intros; symmetry; auto.
  - intros a b c (? & H1 & H2) (? & H3 & H4). split; [congruence|]. split; intros.
    + by rewrite H1, H3.
    + by rewrite H2, H4.
Qed.

Section Filled.
Context (bools : list (bytes * bit)) (chars : list (bytes * nat)).
Context (Hb : bools ≡ₚ boolFields) (Hc : chars ≡ₚ cc).

Lemma bools_ok : Forall (fun f => bit_ok f.2) bools.
Proof. rewrite Hb. apply boolFields_ok. Qed.

Lemma bools_places : NoDup ((fun f => place f.2) <$> bools).
Proof. rewrite Hb. apply boolFields_places. Qed.

Lemma filled_Field t term w : Field (filled bools chars t term) w = Field (foldl (put_bit (Opts t)) term bools) w.
Proof. done. Qed.

Lemma filled_CC t term : CC (filled bools chars t term) = foldl (put_char (tty_CC t)) (CC term) chars.
Proof. unfold filled; simpl. pose proof (put_bits_rest (Opts t) bools term) as H. by injection H as _ -> _ _. Qed.

Lemma filled_Line t term : Line (filled bools chars t term) = Line term.
Proof. unfold filled; simpl. pose proof (put_bits_rest (Opts t) bools term) as H. by injection H as -> _ _ _. Qed.

Lemma filled_wf t term : wf_termios term -> wf_termios (filled bools chars t term).
Proof.
  intros H. pose proof (put_bits_wf (Opts t) bools term H) as [].
  split; try done; simpl; auto using u32_is_u32. by rewrite put_chars_length.
Qed.

Lemma filled_untouched t term : untouched (filled bools chars t term) term.
Proof.
  split; [apply filled_Line|]. split.
  - intros w i Hw Hi Hn. rewrite filled_Field. apply put_bits_other; try done; [apply bools_ok|]. by rewrite Hb.
  - intros i Hi. rewrite filled_CC. apply put_chars_other. by rewrite Hc.
Qed.

(** Setting the options read off settings [a] gives [a] back. *)
Lemma Termios_eq a b :
  wf_termios a -> wf_termios b -> Line a = Line b -> CC a = CC b -> Ispeed a = Ispeed b -> Ospeed a = Ospeed b ->
  (forall w i, 0 <= w <= 3 -> 0 <= i < 32 -> Z.testbit (Field a w) i = Z.testbit (Field b w) i) -> a = b.
Proof.
  intros Wa Wb HL HCC HI HO H.
  assert (HF : forall w, 0 <= w <= 3 -> Field a w = Field b w).
  { intros w Hw. apply Z.bits_inj'. intros i Hi. destruct (Z.lt_ge_cases i 32); [by apply H|].
    by rewrite !testbit_is_u32 by (done || by apply Field_u32). }
  pose proof (HF 0 ltac:(lia)). pose proof (HF 1 ltac:(lia)). pose proof (HF 2 ltac:(lia)). pose proof (HF 3 ltac:(lia)).
  destruct a, b; unfold Field in *; simpl in *; congruence.
Qed.

Lemma filled_bits_restored a b w t :
  wf_termios a -> untouched b a -> tty_of a w t ->
  forall f i, 0 <= f <= 3 -> 0 <= i < 32 -> Z.testbit (Field (filled bools chars t b) f) i = Z.testbit (Field a f) i.
Proof.
  intros Wa (_ & Hbits & _) Ht f i Hf Hi. rewrite filled_Field.
  destruct (decide ((f, i) ∈ ((fun f => place f.2) <$> boolFields))) as [Hin|Hin].
  - apply list_elem_of_fmap in Hin as ([n bt] & [= -> ->] & Hin). simpl.
    erewrite put_bits_set; [|apply bools_ok|apply bools_places|by rewrite Hb].
    by rewrite (tty_of_Opts _ _ _ _ _ Ht Hin).
  - rewrite put_bits_other; [by apply Hbits|apply bools_ok|done|done|by rewrite Hb].
Qed.

Lemma filled_CC_restored a b w t :
  wf_termios a -> wf_termios b -> untouched b a -> tty_of a w t -> CC (filled bools chars t b) = CC a.
Proof.
  intros Wa Wb (_ & _ & HC) Ht. apply list_eq. intros i. rewrite filled_CC.
  destruct (decide (i ∈ cc.*2)) as [Hin|Hin].
  - pose proof cc_indices as Hi. rewrite Forall_forall in Hi. pose proof Hin as Hin'.
    apply list_elem_of_fmap in Hin' as ([n j] & -> & Hj). specialize (Hi _ Hj). simpl in *.
    destruct (lookup_lt_is_Some_2 (CC a) j) as [v Hv]; [by rewrite (wf_CC a Wa)|]. rewrite Hv.
    apply put_chars_set; [by rewrite (wf_CC b Wb)| |by rewrite Hc].
    intros n' Hn'. rewrite Hc in Hn'. by rewrite (tty_of_CC _ _ _ _ _ (wf_CC a Wa) Ht Hn'), Hv.
  - rewrite put_chars_other by (by rewrite Hc). by apply HC.
Qed.

Lemma filled_restores a b w t :
  wf_termios a -> wf_termios b -> untouched b a -> tty_of a w t -> filled bools chars t b = a.
Proof.
  intros Wa Wb Hu Ht. apply Termios_eq; [by apply filled_wf|done| | | | |].
  - rewrite filled_Line. apply Hu.
  - eauto using filled_CC_restored.
  - destruct Ht as (_ & _ & HI & _). simpl. rewrite HI. apply u32_small, wf_Ispeed, Wa.
  - destruct Ht as (_ & _ & _ & HO & _). simpl. rewrite HO. apply u32_small, wf_Ospeed, Wa.
  - eauto using filled_bits_restored.
Qed.
End Filled.

(** ** Runs *)

Section Runs.
Context (refuse : list ioctl -> ioctl -> option error) (driver : Termios -> Termios -> Termios).
Context (Hdriver : typed_driver driver).

(** The kernel has refused a call. *)
Definition refused : Prop := exists h c e, refuse h c = Some e.

(** One step of a run, without unfolding the tables. *)
Ltac go_on H := cbv beta iota zeta delta [get mret M_ret] in H.

Lemma ioctl_call_run c d d' r :
  ioctl_call refuse driver c d = (d', r) ->
  match r with
  | Ret _ => settings d' = (match c with TCSETS t => driver (settings d) t | _ => settings d end) /\
             window d' = (match c with TIOCSWINSZ w => w | _ => window d end)
  | Fail _ => refused /\ settings d' = settings d /\ window d' = window d
  | Panic => False
  end.
Proof. unfold ioctl_call. intros H. case_match eqn:E; simplify_eq; simpl; [|done]. split; [|done]. by exists (calls d), c, e. Qed.

(** The calls, in their order. *)
Lemma ioctl_call_calls c d d' r : ioctl_call refuse driver c d = (d', r) -> calls d' = calls d ++ [c].
Proof. unfold ioctl_call. case_match; by intros [= <- _]. Qed.

Lemma gtty_calls d d' t : gtty refuse driver d = (d', Ret t) -> calls d' = calls d ++ [TCGETS; TIOCGWINSZ].
Proof.
  unfold gtty, tiGet, wsGet, mbind, M_bind. destruct (ioctl_call refuse driver TCGETS d) as [d1 [[]|e|]] eqn:E1; [|done|done].
  intros H. go_on H. destruct (ioctl_call refuse driver TIOCGWINSZ d1) as [d2 [[]|e|]] eqn:E2; [|done|done]. go_on H.
  apply ioctl_call_calls in E1, E2. unfold lift in H. destruct (get_chars _ cc ∅); [|done|done]. go_on H.
  apply pair_equal_spec in H as [<- _]. by rewrite E2, E1, <- app_assoc.
Qed.

(** [gtty] changes nothing and reads everything. *)
Lemma gtty_run d d' r :
  wf_terminal d -> gtty refuse driver d = (d', r) ->
  settings d' = settings d /\ window d' = window d /\
  match r with Ret t => tty_of (settings d) (window d) t | Fail _ => refused | Panic => False end.
Proof.
  intros [Wt _] H. unfold gtty, tiGet, wsGet, mbind, M_bind in H.
  destruct (ioctl_call refuse driver TCGETS d) as [d1 r1] eqn:E1. apply ioctl_call_run in E1.
  destruct r1; [|injection H as <- <-; destruct E1 as (? & -> & ->); auto|done]. destruct E1 as [S1 W1]. go_on H.
  destruct (ioctl_call refuse driver TIOCGWINSZ d1) as [d2 r2] eqn:E2. apply ioctl_call_run in E2.
  destruct r2; [|injection H as <- <-; destruct E2 as (? & -> & ->); done|done]. destruct E2 as [S2 W2]. go_on H.
  destruct (get_chars_ok (CC (settings d1)) cc ∅) as (m & Hm & _).
  { rewrite S1, (wf_CC _ Wt). apply cc_indices. }
  { apply cc_names. }
  unfold lift in H. rewrite Hm in H. go_on H. apply pair_equal_spec in H as [<- <-]. rewrite S2, W2, S1, W1. split; [done|]. split; [done|].
  unfold tty_of. cbn [tty_CC Opts tty_Ispeed tty_Ospeed tty_Row tty_Col tty_Line tty_Min tty_Time]. by rewrite <- S1, <- W1.
Qed.

Section Set_options.
Context (bools : list (bytes * bit)) (chars : list (bytes * nat)).

Definition new_window (t : tty) : WinSize := MkWinSize (u16 (tty_Row t)) (u16 (tty_Col t)) 0 0.

Lemma new_window_wf t : wf_winsize (new_window t).
Proof. assert (H : forall z, is_u16 (u16 z)) by (intros z; apply Z.mod_pos_bound; done). by split; simpl. Qed.

Lemma stty_run t d d' r :
  wf_terminal d -> stty refuse driver bools chars t d = (d', r) ->
  let new := driver (settings d) (filled bools chars t (settings d)) in
  (settings d' = settings d \/ settings d' = new) /\ (window d' = window d \/ window d' = new_window t) /\
  match r with
  | Ret t' => settings d' = new /\ window d' = new_window t /\ tty_of (settings d') (window d') t'
  | Fail _ => refused
  | Panic => False
  end.
Proof using Hdriver.
  intros Wd H new. unfold stty, tiGet, tiSet, wsSet, mbind, M_bind in H.
  destruct (ioctl_call refuse driver TCGETS d) as [d1 r1] eqn:E1. apply ioctl_call_run in E1.
  destruct r1; [|simplify_eq; destruct E1 as (? & -> & ->); auto|done]. destruct E1 as [S1 W1]. go_on H.
  change (with_speeds _ _ _) with (filled bools chars t (settings d1)) in H.
  destruct (ioctl_call refuse driver (TCSETS _) d1) as [d2 r2] eqn:E2. apply ioctl_call_run in E2.
  destruct r2; [|simplify_eq; destruct E2 as (? & -> & ->); rewrite S1, W1; auto|done].
  destruct E2 as [S2 W2]. rewrite S1 in S2. rewrite W1 in W2.
  destruct (ioctl_call refuse driver (TIOCSWINSZ _) d2) as [d3 r3] eqn:E3. apply ioctl_call_run in E3.
  destruct r3; [|simplify_eq; destruct E3 as (? & -> & ->); rewrite S2, W2; auto|done].
  destruct E3 as [S3 W3]. rewrite S2 in S3.
  apply gtty_run in H as (S4 & W4 & Hr).
  - rewrite S4, W4, S3, W3. split; [by right|]. split; [by right|]. destruct r; [|done|done].
    by rewrite S3, W3 in Hr.
  - split; [rewrite S3; apply Hdriver; [apply Wd|apply filled_wf, Wd] | rewrite W3; apply new_window_wf].
Qed.

Lemma stty_calls t d d' t' :
  stty refuse driver bools chars t d = (d', Ret t') ->
  calls d' = calls d ++ [TCGETS; TCSETS (filled bools chars t (settings d)); TIOCSWINSZ (new_window t); TCGETS; TIOCGWINSZ].
Proof.
  unfold stty, tiGet, tiSet, wsSet, mbind, M_bind. intros H.
  destruct (ioctl_call refuse driver TCGETS d) as [d1 [[]|e|]] eqn:E1; [|done|done]. go_on H.
  change (with_speeds _ _ _) with (filled bools chars t (settings d1)) in H.
  destruct (ioctl_call refuse driver (TCSETS _) d1) as [d2 [[]|e|]] eqn:E2; [|done|done].
  destruct (ioctl_call refuse driver (TIOCSWINSZ _) d2) as [d3 [[]|e|]] eqn:E3; [|done|done].
  apply gtty_calls in H. pose proof (ioctl_call_run _ _ _ _ E1) as [S1 _]. apply ioctl_call_calls in E1, E2, E3.
  rewrite H, E3, E2, E1, S1, <- !app_assoc. done.
Qed.

Lemma stty_wf t d d' r : wf_terminal d -> stty refuse driver bools chars t d = (d', r) -> wf_terminal d'.
Proof using Hdriver.
  intros Wd H. pose proof Wd as [Wt Ww]. apply stty_run in H as (HS & HW & _); [|done]. split.
  - destruct HS as [->| ->]; [done|]. apply Hdriver; [done|]. by apply filled_wf.
  - destruct HW as [->| ->]; [done|]. apply new_window_wf.
Qed.
End Set_options.
End Runs.

(** ** Command lines *)

Lemma setOpts_cons t o rest :
  setOpts t (o :: rest) =
    let arg (f : Z -> tty) :=
      i ← intarg (o :: rest); setOpts (f i) (match rest with [] => rest | _ :: rest => rest end) in
    if bytes_eqb o (str "row") then arg (fun i => set_Row i t)
    else if bytes_eqb o (str "col") then arg (fun i => set_Col i t)
    else if bytes_eqb o (str "speed") then arg (fun i => set_Ispeed i t)
    else if has_key cc o then arg (fun i => set_CC o (z2b i) t)
    else
      match o with
      | [] => Panic
      | b :: o1 =>
          let '(set, o) := if byte_eqb b x7e then (false, o1) else (true, o) in
          if has_key boolFields o then setOpts (set_Opt o set t) rest else Fail (Errorf "%s: unknown option")
      end.
Proof. reflexivity. Qed.

(** Only an empty argument crashes. *)
Lemma setOpts_panic t opts : setOpts t opts = Panic -> [] ∈ opts.
Proof.
  remember (length opts) as n eqn:Hn. revert t opts Hn. induction n as [n IH] using lt_wf_ind. intros t opts Hn H.
  destruct opts as [|o rest]; [done|]. rewrite setOpts_cons in H.
  assert (Harg : forall f : Z -> tty,
    (i ← intarg (o :: rest); setOpts (f i) (match rest with [] => rest | _ :: rest => rest end)) = Panic -> [] ∈ o :: rest).
  { intros f Hf. destruct rest as [|a rest]; [done|]. unfold intarg in Hf.
    destruct (Atoi a) as [i [e|]]; [done|]. change (setOpts (f i) rest = Panic) in Hf.
    apply IH with (m := length rest) in Hf; [|simpl in Hn; lia|done]. by do 2 (apply elem_of_cons; right). }
  cbv beta zeta in H.
  repeat match type of H with (if ?c then _ ≫= _ else _) = _ => destruct c; [exact (Harg _ H)|] end.
  destruct o as [|b o1]; [by apply elem_of_cons; left|].
  destruct (if byte_eqb b x7e then _ else _) as [set o']. destruct (has_key boolFields o'); [|done].
  apply IH with (m := length rest) in H; [|simpl in Hn; lia|done]. by apply elem_of_cons; right.
Qed.

Lemma bind_cases {S A B} (m : M S A) (f : A -> M S B) s s' r :
  (m ≫= f) s = (s', r) ->
  (exists s1 a, m s = (s1, Ret a) /\ f a s1 = (s', r)) \/
  (exists e, m s = (s', Fail e) /\ r = Fail e) \/ (m s = (s', Panic) /\ r = Panic).
Proof.
  unfold mbind, M_bind. destruct (m s) as [s1 [a|e|]]; intros H; [eauto| |];
    injection H as <- <-; eauto.
Qed.

Lemma raw_opts_nonempty : [] ∉ raw_opts.
Proof. apply (bool_decide_eq_true_1 _). vm_compute. reflexivity. Qed.

Section Main.
Context (refuse : list ioctl -> ioctl -> option error) (driver : Termios -> Termios -> Termios).
Context (bools : list (bytes * bit)) (chars : list (bytes * nat)).
Context (range_CC : gmap bytes byte -> list (bytes * byte)) (range_Opts : gmap bytes bool -> list (bytes * bool)).
Context (MarshalIndent : tty -> bytes) (Unmarshal : bytes -> tty -> tty + error) (ReadFile : bytes -> bytes + error).
Context (Hdriver : typed_driver driver).
Abbreviation run := (stty_main refuse driver bools chars range_CC range_Opts MarshalIndent Unmarshal ReadFile).

Lemma after_stty {A} t (out : tty -> A) d d1 d' r :
  settings d1 = settings d -> window d1 = window d -> wf_terminal d1 ->
  (t ← stty refuse driver bools chars t; mret (out t)) d1 = (d', r) ->
  exists d1 t r1, wf_terminal d1 /\ settings d1 = settings d /\ window d1 = window d /\
    stty refuse driver bools chars t d1 = (d', r1) /\ (r = Panic -> r1 = Panic).
Proof.
  intros S1 W1 Wd Hs. exists d1, t. apply bind_cases in Hs as [(d2 & t2 & Hs & E)|[(e & Hs & ->)|(Hs & ->)]];
    [apply pair_equal_spec in E as [<- <-]| |]; eexists; (split; [exact Wd|]); (split; [exact S1|]); (split; [exact W1|]);
    (split; [exact Hs|done]).
Qed.

Lemma setRaw_run d d' r :
  wf_terminal d -> setRaw refuse driver bools chars d = (d', r) ->
  (exists d1 t, wf_terminal d1 /\ settings d1 = settings d /\ window d1 = window d /\
     stty refuse driver bools chars t d1 = (d', r)) \/
  (settings d' = settings d /\ window d' = window d /\ r <> Panic).
Proof.
  intros Wd H. unfold setRaw in H. apply bind_cases in H as [(d1 & t & Hg & H)|[(e & Hg & ->)|(Hg & ->)]];
    apply gtty_run in Hg as (S1 & W1 & Ht); try done; [|by right].
  unfold lift in H. apply bind_cases in H as [(d2 & t2 & E & H)|[(e & E & ->)|(E & ->)]]; apply pair_equal_spec in E as [<- E].
  - left. exists d1, t2. unfold wf_terminal. rewrite S1, W1. done.
  - by right.
  - by apply setOpts_panic, raw_opts_nonempty in E.
Qed.

(** A run reads the terminal, and sets it at most once, to the options it has computed. *)
Lemma stty_main_run args d d' r :
  wf_terminal d -> run args d = (d', r) ->
  (exists d1 t r1, wf_terminal d1 /\ settings d1 = settings d /\ window d1 = window d /\
     stty refuse driver bools chars t d1 = (d', r1) /\ (r = Panic -> r1 = Panic)) \/
  (settings d' = settings d /\ window d' = window d /\ (r = Panic -> [] ∈ args)).
Proof using Hdriver.
  intros Wd H. unfold stty_main in H. apply bind_cases in H as [(d1 & t & Hg & H)|[(e & Hg & ->)|(Hg & ->)]];
    pose proof Hg as Hg'; apply gtty_run in Hg as (S1 & W1 & Ht); try done; [|right; done].
  assert (Wd1 : wf_terminal d1) by (unfold wf_terminal; by rewrite S1, W1).
  assert (Hstop : forall r', (d1, r') = (d', r) -> (r' = Panic -> [] ∈ args) ->
    settings d' = settings d /\ window d' = window d /\ (r = Panic -> [] ∈ args)).
  { by intros r' [<- <-]%pair_equal_spec. }
  destruct args as [|verb ops]; [right; by apply (Hstop _ H)|]. cbv zeta in H.
  destruct (bytes_eqb verb (str "pretty")); [right; by apply (Hstop _ H)|].
  destruct (bytes_eqb verb (str "dump")); [right; by apply (Hstop _ H)|].
  destruct (bytes_eqb verb (str "load")).
  { destruct ops as [|name [|? ?]]; [right; by apply (Hstop _ H)| |right; by apply (Hstop _ H)].
    unfold lift in H. destruct (ReadFile name) as [b|e]; [|right; by apply (Hstop _ H)].
    unfold mbind at 1 in H. unfold M_bind, or_fail in H. destruct (Unmarshal b t) as [t'|e]; [|right; by apply (Hstop _ H)].
    left. exact (after_stty _ _ _ _ _ _ S1 W1 Wd1 H). }
  destruct (bytes_eqb verb (str "raw")).
  { assert (Hraw : exists r1, setRaw refuse driver bools chars d1 = (d', r1) /\ (r = Panic -> r1 = Panic)).
    { apply bind_cases in H as [(d2 & t2 & H & E)|[(e & H & ->)|(H & ->)]];
        [apply pair_equal_spec in E as [<- <-]| |]; eexists; (split; [exact H|done]). }
    destruct Hraw as (r1 & Hraw & Hp). apply setRaw_run in Hraw as [(d2 & t2 & W2 & S2 & Wn & Hs)|(S2 & W2 & Hr1)]; [| |done].
    - left. exists d2, t2, r1. by rewrite S2, Wn.
    - right. rewrite S2, W2. split; [done|]. split; [done|]. intros E. by destruct (Hr1 (Hp E)). }
  unfold lift in H. apply bind_cases in H as [(d2 & t2 & E & H)|[(e & E & ->)|(E & ->)]]; apply pair_equal_spec in E as [<- E].
  - left. exact (after_stty _ _ _ _ _ _ S1 W1 Wd1 H).
  - by right.
  - right. split; [done|]. split; [done|]. intros _. by eapply setOpts_panic.
Qed.

Lemma stty_main_wf args d d' r :
  wf_terminal d -> run args d = (d', r) -> wf_terminal d' /\ (r = Panic -> [] ∈ args).
Proof using Hdriver.
  intros Wd H. apply stty_main_run in H as [(d1 & t & r1 & W1 & S1 & Wn & Hs & Hp)|(S1 & W1 & Hp)]; [| |done].
  - split; [by eapply stty_wf|]. intros E. rewrite (Hp E) in Hs. by apply stty_run in Hs as (_ & _ & []).
  - unfold wf_terminal. by rewrite S1, W1.
Qed.

End Main.

(** One run of the command, with any arguments, files, orders of its loops and result. *)
Inductive stty_runs (refuse : list ioctl -> ioctl -> option error) (driver : Termios -> Termios -> Termios) : terminal -> terminal -> Prop :=
| runs_none d : stty_runs refuse driver d d
| runs_more d d1 d2 r bools chars range_CC range_Opts MarshalIndent Unmarshal ReadFile args :
    stty_runs refuse driver d d1 ->
    bools ≡ₚ boolFields -> chars ≡ₚ cc ->
    stty_main refuse driver bools chars range_CC range_Opts MarshalIndent Unmarshal ReadFile args d1 = (d2, r) ->
    stty_runs refuse driver d d2.

(** ** Theorems *)

(** C39: Every sequence of runs of [stty], whatever their arguments, files and results, leaves a
    terminal whose settings have the widths of their fields: 32-bit words and speeds, 32 control
    characters, a 16-bit window size; and a run crashes only on an empty argument. *)
Theorem stty_typed refuse driver d d' :
  typed_driver driver -> wf_terminal d -> stty_runs refuse driver d d' ->
  wf_terminal d' /\
  forall bools chars range_CC range_Opts MarshalIndent Unmarshal ReadFile args d'',
    stty_main refuse driver bools chars range_CC range_Opts MarshalIndent Unmarshal ReadFile args d' = (d'', Panic) ->
    [] ∈ args.
Proof.
  intros Ht Wd H. assert (Wd' : wf_terminal d').
  { induction H as [|? ? ? ? ? ? ? ? ? ? ? ? _ IH _ _ H]; [done|]. by eapply stty_main_wf in H as [? _]; auto. }
  split; [done|]. intros ? ? ? ? ? ? ? ? ? Hp. eapply stty_main_wf in Hp as [_ Hp]; auto.
Qed.

(** The options [gtty] reads off a terminal. *)
Definition read_off (t : tty) : Prop := exists term w, wf_termios term /\ wf_winsize w /\ tty_of term w t.

(** [json.Unmarshal] of what [json.MarshalIndent] wrote of options read off a terminal, into such options. *)
Definition json_roundtrip (MarshalIndent : tty -> bytes) (Unmarshal : bytes -> tty -> tty + error) : Prop :=
  forall t t', read_off t -> read_off t' -> Unmarshal (MarshalIndent t ++ [x0a]) t' = inl t.

Section Dump_load.
Context (refuse : list ioctl -> ioctl -> option error) (driver : Termios -> Termios -> Termios).
Context (bools : list (bytes * bit)) (chars : list (bytes * nat)).
Context (range_CC : gmap bytes byte -> list (bytes * byte)) (range_Opts : gmap bytes bool -> list (bytes * bool)).
Context (MarshalIndent : tty -> bytes) (Unmarshal : bytes -> tty -> tty + error) (ReadFile : bytes -> bytes + error).
Abbreviation run := (stty_main refuse driver bools chars range_CC range_Opts MarshalIndent Unmarshal ReadFile).

Lemma dump_run d d' out :
  wf_terminal d -> run [str "dump"] d = (d', Ret out) ->
  settings d' = settings d /\ window d' = window d /\
  exists t, tty_of (settings d) (window d) t /\ out = MarshalIndent t ++ [x0a].
Proof.
  intros Wd H. unfold stty_main in H. apply bind_cases in H as [(d1 & t & Hg & H)|[(e & Hg & E)|(Hg & E)]]; [|done|done].
  apply gtty_run in Hg as (S1 & W1 & Ht); [|done]. apply pair_equal_spec in H as [<- E].
  split; [done|]. split; [done|]. exists t. split; [done|]. by injection E as <-.
Qed.

Lemma load_run d d' r name b (t : tty) :
  wf_terminal d -> run [str "load"; name] d = (d', r) -> ReadFile name = inl b ->
  (forall t', read_off t' -> Unmarshal b t' = inl t) ->
  refused refuse /\ (exists e, r = Fail e) \/
  exists d1 r1, wf_terminal d1 /\ settings d1 = settings d /\ window d1 = window d /\ calls d1 = calls d ++ [TCGETS; TIOCGWINSZ] /\
    stty refuse driver bools chars t d1 = (d', r1) /\
    match r, r1 with Ret _, Ret _ | Fail _, Fail _ | Panic, Panic => True | _, _ => False end.
Proof.
  intros Wd H Hf Hu. unfold stty_main in H. apply bind_cases in H as [(d1 & t1 & Hg & H)|[(e & Hg & ->)|(Hg & ->)]];
    pose proof Hg as Hg'; apply gtty_run in Hg as (S1 & W1 & Ht); try done; [|by eauto].
  right. apply gtty_calls in Hg'. assert (Hu1 : Unmarshal b t1 = inl t) by (apply Hu; destruct Wd; eexists _, _; eauto).
  change ((b ← lift (or_fail (ReadFile name)); t ← lift (or_fail (Unmarshal b t1)); t ← stty refuse driver bools chars t;
    mret (pretty range_CC range_Opts t)) d1 = (d', r)) in H.
  rewrite Hf in H. unfold mbind at 1, M_bind at 1, lift at 1, or_fail at 1 in H. rewrite Hu1 in H.
  unfold mbind at 1, M_bind at 1, lift at 1, or_fail at 1 in H. exists d1.
  assert (Wd1 : wf_terminal d1) by (unfold wf_terminal; by rewrite S1, W1).
  apply bind_cases in H as [(d2 & t2 & H & E)|[(e & H & ->)|(H & ->)]];
    [apply pair_equal_spec in E as [<- <-]| |]; eexists; (split; [exact Wd1|]); (split; [exact S1|]); (split; [exact W1|]);
    (split; [exact Hg'|]); (split; [exact H|done]).
Qed.

(** The settings [new] have every option, control character and speed of [saved], and are otherwise the ones of [old]. *)
Definition restored (saved old new : Termios) : Prop :=
  (forall n b, (n, b) ∈ boolFields ->
     Z.testbit (Field new (word b)) (Z.log2 (mask b)) = Z.testbit (Field saved (word b)) (Z.log2 (mask b))) /\
  (forall n i, (n, i) ∈ cc -> CC new !! i = CC saved !! i) /\
  Ispeed new = Ispeed saved /\ Ospeed new = Ospeed saved /\ untouched new old /\
  (untouched old saved -> new = saved).

Lemma filled_restored a b w t :
  bools ≡ₚ boolFields -> chars ≡ₚ cc -> wf_termios a -> wf_termios b -> tty_of a w t -> restored a b (filled bools chars t b).
Proof.
  intros Hb Hc Wa Wb Ht. pose proof Ht as (_ & _ & HI & HO & _). unfold restored. split_and!.
  - intros n bt Hin. rewrite filled_Field, (put_bits_set _ _ _ n); [|by apply bools_ok|by apply bools_places|by rewrite Hb].
    by rewrite (tty_of_Opts _ _ _ _ _ Ht Hin).
  - intros n i Hin. rewrite filled_CC. pose proof cc_indices as Hlt. rewrite Forall_forall in Hlt. specialize (Hlt _ Hin).
    cbn in Hlt. destruct (lookup_lt_is_Some_2 (CC a) i) as [v Hv]; [by rewrite (wf_CC _ Wa)|]. rewrite Hv.
    apply put_chars_set; [by rewrite (wf_CC _ Wb)| |rewrite Hc; by apply (list_elem_of_fmap_2 snd _ (n, i))].
    intros n' Hn'. rewrite Hc in Hn'. by rewrite (tty_of_CC _ _ _ _ _ (wf_CC _ Wa) Ht Hn'), Hv.
  - cbn. rewrite HI. apply u32_small, wf_Ispeed, Wa.
  - cbn. rewrite HO. apply u32_small, wf_Ospeed, Wa.
  - by apply filled_untouched.
  - intros Hu. by apply (filled_restores bools chars Hb Hc a b w t).
Qed.

(** C20: [load] of the options that [dump] saved, whatever was done to the terminal in between, asks the kernel, unless
    it refuses a call, for every option, control character and speed of the terminal that was saved, and for its rows
    and columns; outside of the tables the settings asked for are the ones found, so that they are the saved settings
    when those are unchanged there.  What the driver makes of the settings asked for is left open. *)
Theorem stty_dump_load d0 d1 d2 d3 out name r :
  typed_driver driver -> bools ≡ₚ boolFields -> chars ≡ₚ cc -> json_roundtrip MarshalIndent Unmarshal ->
  wf_terminal d0 -> wf_terminal d2 ->
  run [str "dump"] d0 = (d1, Ret out) ->
  ReadFile name = inl out ->
  run [str "load"; name] d2 = (d3, r) ->
  match r with
  | Ret _ => exists new,
      restored (settings d0) (settings d2) new /\
      settings d3 = driver (settings d2) new /\ window d3 = MkWinSize (Row (window d0)) (Col (window d0)) 0 0 /\
      calls d3 = calls d2 ++ [TCGETS; TIOCGWINSZ; TCGETS; TCSETS new; TIOCSWINSZ (window d3); TCGETS; TIOCGWINSZ]
  | Fail _ => refused refuse
  | Panic => False
  end.
Proof.
  intros Hty Hb Hc Hj W0 W2 Hd Hf Hl. apply dump_run in Hd as (_ & _ & t & Ht & ->); [|done].
  assert (Ho : read_off t) by (destruct W0; eexists _, _; eauto).
  eapply load_run with (t := t) in Hl as [(Hr & e & ->)|(d & r1 & Wd & Sd & Wn & Cd & Hs & Hm)]; [done| |done|exact Hf|intros t' Ht'; by apply Hj].
  pose proof Hs as Hs'. apply stty_run in Hs' as (_ & _ & Hs'); [|done|done].
  destruct r, r1; try done. destruct Hs' as (S3 & W3 & _). apply stty_calls in Hs. rewrite Sd in *.
  exists (filled bools chars t (settings d2)). pose proof W0 as [W0t [HRw HCw _ _]]. destruct W2 as [W2t _].
  assert (Hw : new_window t = MkWinSize (Row (window d0)) (Col (window d0)) 0 0).
  { destruct Ht as (_ & _ & _ & _ & HR & HC & _). unfold new_window. rewrite HR, HC. unfold u16. by rewrite !Z.mod_small. }
  split; [by eapply filled_restored|]. split; [done|]. split; [by rewrite W3|]. by rewrite Hs, Cd, W3, <- app_assoc.
Qed.
End Dump_load.

(** ** Settings on the command line *)

Inductive setting :=
| Flag (n : bytes) (on : bool)
| Char (n : bytes) (v : Z)
| Rows (v : Z)
| Cols (v : Z)
| Speed (v : Z).

(** How a setting is written, and what it does. *)
Definition render (s : setting) : list bytes :=
  match s with
  | Flag n on => [if (on : bool) then n else x7e :: n]
  | Char n v => [n; Itoa v]
  | Rows v => [str "row"; Itoa v]
  | Cols v => [str "col"; Itoa v]
  | Speed v => [str "speed"; Itoa v]
  end.

Definition apply_setting (t : tty) (s : setting) : tty :=
  match s with
  | Flag n on => set_Opt n on t
  | Char n v => set_CC n (z2b v) t
  | Rows v => set_Row v t
  | Cols v => set_Col v t
  | Speed v => set_Ispeed v t
  end.

Definition setting_ok (s : setting) : Prop :=
  match s with
  | Flag n _ => n ∈ boolFields.*1
  | Char n v => n ∈ cc.*1 /\ 0 <= v < 2 ^ 63
  | Rows v | Cols v | Speed v => 0 <= v < 2 ^ 63
  end.

#[export] Instance setting_ok_dec s : Decision (setting_ok s).
Proof. destruct s; simpl; apply _. Defined.

(** The last value given to something, or else the old one. *)
Definition last_of {A} (f : setting -> option A) (ss : list setting) (old : A) : A :=
  foldl (fun v s => default v (f s)) old ss.

Definition flag_of (n : bytes) (s : setting) : option bool :=
  match s with Flag n' on => if decide (n' = n) then Some on else None | _ => None end.
Definition char_of (n : bytes) (s : setting) : option byte :=
  match s with Char n' v => if decide (n' = n) then Some (z2b v) else None | _ => None end.
Definition rows_of (s : setting) : option Z := match s with Rows v => Some v | _ => None end.
Definition cols_of (s : setting) : option Z := match s with Cols v => Some v | _ => None end.
Definition speed_of (s : setting) : option Z := match s with Speed v => Some v | _ => None end.

(** Names that are neither verbs nor the ones [setOpts] looks for first. *)
Definition not_verb (o : bytes) : bool := negb (existsb (bytes_eqb o) (str <$> ["pretty"; "dump"; "load"; "raw"]%string)).
Definition plain_option (o : bytes) : bool :=
  negb (existsb (bytes_eqb o) (str <$> ["row"; "col"; "speed"]%string)) && negb (has_key cc o) && not_verb o.
Definition flag_name (n : bytes) : bool :=
  plain_option n && plain_option (x7e :: n) && match n with [] => false | b :: _ => negb (byte_eqb b x7e) end.

Lemma flag_names n : n ∈ boolFields.*1 -> flag_name n = true.
Proof.
  intros Hn. assert (H : forallb flag_name (boolFields.*1) = true) by (vm_compute; reflexivity).
  rewrite forallb_forall in H. by apply H, list_elem_of_In.
Qed.

Lemma char_names n : n ∈ cc.*1 -> negb (existsb (bytes_eqb n) (str <$> ["row"; "col"; "speed"]%string)) && not_verb n = true.
Proof.
  intros Hn. assert (H : forallb (fun n => negb (existsb (bytes_eqb n) (str <$> ["row"; "col"; "speed"]%string)) && not_verb n) (cc.*1) = true)
    by (vm_compute; reflexivity).
  rewrite forallb_forall in H. by apply H, list_elem_of_In.
Qed.

Lemma setOpts_plain t o rest :
  negb (existsb (bytes_eqb o) (str <$> ["row"; "col"; "speed"]%string)) = true ->
  setOpts t (o :: rest) =
    if has_key cc o then
      i ← intarg (o :: rest); setOpts (set_CC o (z2b i) t) (match rest with [] => rest | _ :: rest => rest end)
    else
      match o with
      | [] => Panic
      | b :: o1 =>
          let '(set, o) := if byte_eqb b x7e then (false, o1) else (true, o) in
          if has_key boolFields o then setOpts (set_Opt o set t) rest else Fail (Errorf "%s: unknown option")
      end.
Proof.
  intros H. rewrite setOpts_cons. cbv zeta. cbn [existsb fmap list_fmap] in H.
  destruct (bytes_eqb o (str "row")); [done|]. destruct (bytes_eqb o (str "col")); [done|].
  destruct (bytes_eqb o (str "speed")); [done|]. reflexivity.
Qed.

Lemma intarg_Itoa {A} o v rest (f : Z -> outcome error A) : 0 <= v < 2 ^ 63 -> (i ← intarg (o :: Itoa v :: rest); f i) = f v.
Proof. intros Hv. unfold intarg. by rewrite Atoi_Itoa. Qed.

Lemma setOpts_render1 t s rest : setting_ok s -> setOpts t (render s ++ rest) = setOpts (apply_setting t s) rest.
Proof.
  destruct s as [n on|n v|v|v|v]; intros Hok; [| |by cbn [render app]; rewrite setOpts_cons; apply (intarg_Itoa _ v _ (fun i => setOpts _ _))..].
  - pose proof (flag_names n Hok) as [[H1 H2]%andb_prop H3]%andb_prop. unfold plain_option in *.
    apply andb_prop in H1 as [[H1 H1']%andb_prop _]. apply andb_prop in H2 as [[H2 H2']%andb_prop _].
    apply negb_true_iff in H1', H2'. apply (has_key_elem boolFields n) in Hok.
    destruct on; cbn [render app].
    + rewrite setOpts_plain, H1' by done. destruct n as [|b n]; [done|]. apply negb_true_iff in H3. by rewrite H3, Hok.
    + rewrite setOpts_plain, H2' by done. rewrite byte_eqb_refl. by rewrite Hok.
  - destruct Hok as [Hn Hv]. pose proof (char_names n Hn) as [H1 _]%andb_prop. cbn [render app].
    rewrite setOpts_plain, (proj2 (has_key_elem cc n) Hn) by done. by apply (intarg_Itoa _ v _ (fun i => setOpts _ _)).
Qed.

Lemma setOpts_render t ss : Forall setting_ok ss -> setOpts t (concat (render <$> ss)) = Ret (foldl apply_setting t ss).
Proof.
  intros H. revert t. induction H as [|s ss Hs _ IH]; intros t; [done|].
  change (concat (render <$> s :: ss)) with (render s ++ concat (render <$> ss)). by rewrite setOpts_render1, IH.
Qed.

Lemma last_Opt ss t n : default false (Opts (foldl apply_setting t ss) !! n) = last_of (flag_of n) ss (default false (Opts t !! n)).
Proof.
  unfold last_of. revert t. induction ss as [|s ss IH]; intros t; [done|]. cbn [foldl]. rewrite IH. f_equal.
  destruct s as [n' on| | | |]; try done. cbn [apply_setting set_Opt Opts flag_of].
  destruct (decide (n' = n)) as [->|Hne]; [by rewrite lookup_insert_eq|by rewrite lookup_insert_ne].
Qed.

Lemma last_CC ss t n : default x00 (tty_CC (foldl apply_setting t ss) !! n) = last_of (char_of n) ss (default x00 (tty_CC t !! n)).
Proof.
  unfold last_of. revert t. induction ss as [|s ss IH]; intros t; [done|]. cbn [foldl]. rewrite IH. f_equal.
  destruct s as [|n' v| | |]; try done. cbn [apply_setting set_CC tty_CC char_of].
  destruct (decide (n' = n)) as [->|Hne]; [by rewrite lookup_insert_eq|by rewrite lookup_insert_ne].
Qed.

Lemma last_numbers ss t :
  tty_Row (foldl apply_setting t ss) = last_of rows_of ss (tty_Row t) /\
  tty_Col (foldl apply_setting t ss) = last_of cols_of ss (tty_Col t) /\
  tty_Ispeed (foldl apply_setting t ss) = last_of speed_of ss (tty_Ispeed t) /\
  tty_Ospeed (foldl apply_setting t ss) = tty_Ospeed t.
Proof.
  unfold last_of. revert t. induction ss as [|s ss IH]; intros t; [done|]. cbn [foldl].
  destruct (IH (apply_setting t s)) as (-> & -> & -> & ->). by destruct s.
Qed.

Lemma render_head s : setting_ok s -> exists o rest, render s = o :: rest /\ not_verb o = true.
Proof.
  destruct s as [n on|n v|v|v|v]; intros Hok; cbn [render]; eexists _, _; (split; [reflexivity|]); try reflexivity.
  - pose proof (flag_names n Hok) as [[[_ H1]%andb_prop [_ H2]%andb_prop]%andb_prop _]%andb_prop. by destruct on.
  - destruct Hok as [Hn _]. by pose proof (char_names n Hn) as [_ ?]%andb_prop.
Qed.

Section Settings.
Context (refuse : list ioctl -> ioctl -> option error) (driver : Termios -> Termios -> Termios).
Context (bools : list (bytes * bit)) (chars : list (bytes * nat)).
Context (range_CC : gmap bytes byte -> list (bytes * byte)) (range_Opts : gmap bytes bool -> list (bytes * bool)).
Context (MarshalIndent : tty -> bytes) (Unmarshal : bytes -> tty -> tty + error) (ReadFile : bytes -> bytes + error).
Abbreviation run := (stty_main refuse driver bools chars range_CC range_Opts MarshalIndent Unmarshal ReadFile).

Lemma settings_run ss d d' r :
  typed_driver driver -> wf_terminal d -> ss <> [] -> Forall setting_ok ss ->
  run (concat (render <$> ss)) d = (d', r) ->
  match r with
  | Ret _ => exists t, tty_of (settings d) (window d) t /\
      settings d' = driver (settings d) (filled bools chars (foldl apply_setting t ss) (settings d)) /\
      window d' = new_window (foldl apply_setting t ss)
  | Fail _ => refused refuse
  | Panic => False
  end.
Proof.
  intros Ht Wd Hne Hok H. unfold stty_main in H. apply bind_cases in H as [(d1 & t & Hg & H)|[(e & Hg & ->)|(Hg & ->)]];
    apply gtty_run in Hg as (S1 & W1 & Htt); try done.
  assert (Wd1 : wf_terminal d1) by (unfold wf_terminal; by rewrite S1, W1).
  assert (H' : (t ← stty refuse driver bools chars (foldl apply_setting t ss); mret (pretty range_CC range_Opts t)) d1 = (d', r)).
  { rewrite <- H. destruct ss as [|s ss]; [done|]. pose proof Hok as [Hs _]%Forall_cons.
    pose proof (setOpts_render t _ Hok) as Hset. destruct (render_head s Hs) as (o & rest & Ho & Hv).
    change (concat (render <$> s :: ss)) with (render s ++ concat (render <$> ss)) in *. rewrite Ho in *. cbn [app] in *.
    unfold not_verb in Hv. cbn [existsb fmap list_fmap] in Hv. cbv zeta.
    destruct (bytes_eqb o (str "pretty")); [done|]. destruct (bytes_eqb o (str "dump")); [done|].
    destruct (bytes_eqb o (str "load")); [done|]. destruct (bytes_eqb o (str "raw")); [done|].
    rewrite Hset. reflexivity. }
  clear H. apply bind_cases in H' as [(d2 & t2 & H & E)|[(e & H & ->)|(H & ->)]];
    [apply pair_equal_spec in E as [<- <-]| |]; apply stty_run in H as (_ & _ & H); try done.
  exists t. rewrite S1 in H. by destruct H as (? & ? & _).
Qed.

(** A command line of settings: every option named in the tables gets the last value given to it
    and keeps the old one otherwise, in the bit or character it belongs to, and nothing outside of
    the tables changes, in the settings the kernel is asked for.  The first control character is left out, it has two names. *)
Theorem stty_sets ss d d' r :
  typed_driver driver -> bools ≡ₚ boolFields -> chars ≡ₚ cc ->
  wf_terminal d -> ss <> [] -> Forall setting_ok ss ->
  run (concat (render <$> ss)) d = (d', r) ->
  match r with
  | Ret _ => exists new, settings d' = driver (settings d) new /\
      (forall n b, (n, b) ∈ boolFields ->
         Z.testbit (Field new (word b)) (Z.log2 (mask b)) =
           last_of (flag_of n) ss (Z.testbit (Field (settings d) (word b)) (Z.log2 (mask b)))) /\
      (forall n i, (n, i) ∈ cc -> i <> 0%nat -> CC new !! i = last_of (char_of n) ss <$> CC (settings d) !! i) /\
      untouched new (settings d) /\
      Ispeed new = u32 (last_of speed_of ss (Ispeed (settings d))) /\
      Ospeed new = Ospeed (settings d) /\
      Row (window d') = u16 (last_of rows_of ss (Row (window d))) /\
      Col (window d') = u16 (last_of cols_of ss (Col (window d)))
  | Fail _ => refused refuse
  | Panic => False
  end.
Proof.
  intros Hk Hb Hc Wd Hne Hok H. apply settings_run in H; try done.
  destruct r as [out|e|]; [|done|done]. destruct H as (t & Ht & -> & ->). eexists. split; [done|]. pose proof Wd as [Wt _].
  destruct (last_numbers ss t) as (HR & HC & HI & HO). pose proof Ht as (_ & _ & E1 & E2 & E3 & E4 & _).
  split; [|split; [|split; [by apply filled_untouched|]]].
  - intros n b Hin. rewrite filled_Field, (put_bits_set _ _ _ n); [|by apply bools_ok|by apply bools_places|by rewrite Hb].
    by rewrite last_Opt, (tty_of_Opts _ _ _ _ _ Ht Hin).
  - intros n i Hin Hi. rewrite filled_CC. pose proof cc_indices as Hlt. rewrite Forall_forall in Hlt. specialize (Hlt _ Hin).
    pose proof (tty_of_CC _ _ _ _ _ (wf_CC _ Wt) Ht Hin) as Hv.
    destruct (lookup_lt_is_Some_2 (CC (settings d)) i) as [v Hv']; [by rewrite (wf_CC _ Wt)|]. rewrite Hv' in *.
    apply put_chars_set; [by rewrite (wf_CC _ Wt)| |rewrite Hc; by apply (list_elem_of_fmap_2 snd _ (n, i))].
    intros n' Hn'. rewrite Hc in Hn'. destruct (cc_alias _ _ Hn' Hin eq_refl) as [E|E]; simpl in E; [|done].
    by rewrite E, last_CC, Hv.
  - unfold filled, new_window; simpl. rewrite HR, HC, HI, HO, E1, E2, E3, E4. repeat split. apply u32_small, wf_Ospeed, Wt.
Qed.
End Settings.

(** ** Examples *)

#[export] Instance tty_eq_dec : EqDecision tty.
Proof. solve_decision. Defined.

#[export] Instance tty_countable : Countable tty :=
  inj_countable' (fun t => (tty_Ispeed t, tty_Ospeed t, tty_Row t, tty_Col t, (tty_Line t, tty_Min t, tty_Time t), tty_CC t, Opts t))
    (fun '(i, o, r, c, (l, k, z), m, f) => MkTty i o r c l k z m f) ltac:(by intros []).

(** A text form of a [tty]: the bits of its number. *)
Fixpoint pos_bytes (p : positive) : bytes :=
  match p with xH => [] | xO p => x00 :: pos_bytes p | xI p => x01 :: pos_bytes p end.

Fixpoint bytes_pos (l : bytes) : positive :=
  match l with
  | x01 :: l => xI (bytes_pos l)
  | x00 :: l => xO (bytes_pos l)
  | _ => xH
  end.

Lemma bytes_pos_bytes p l : bytes_pos (pos_bytes p ++ x0a :: l) = p.
Proof. induction p as [p IH|p IH|]; simpl; by rewrite ?IH. Qed.

Definition toy_marshal (t : tty) : bytes := pos_bytes (encode t).
Definition toy_unmarshal (b : bytes) (_ : tty) : tty + error :=
  match decode (bytes_pos b) with Some t => inl t | None => inr (Errorf "json") end.

Lemma toy_json : json_roundtrip toy_marshal toy_unmarshal.
Proof. intros t t' _ _. unfold toy_unmarshal, toy_marshal. by rewrite bytes_pos_bytes, decode_encode. Qed.

Definition toy_termios : Termios :=
  MkTermios 0x4500 0x5 0xbf 0x8a3b 0 (z2b <$> [3; 0x1c; 0x7f; 0x15; 4; 0; 1; 0; 0x11; 0x13; 0x1a; 0; 0x12; 0xf; 0x17; 0x16] ++ replicate 16 0)
    38400 38400.

Definition toy_terminal : terminal := MkTerminal toy_termios (MkWinSize 24 80 0 0) [].

Lemma toy_terminal_wf : wf_terminal toy_terminal.
Proof. by repeat split. Qed.

Definition accept (_ : list ioctl) (_ : ioctl) : option error := None.

(** A driver that takes no speed from the speed fields. *)
Definition linux (old new : Termios) : Termios := with_speeds (Ispeed old) (Ospeed old) new.

Lemma linux_typed : typed_driver linux.
Proof. intros old new [] []. by split. Qed.

Definition toy_out : bytes :=
  match (gtty accept linux toy_terminal).2 with Ret t => toy_marshal t ++ [x0a] | _ => [] end.

Definition toy_run (chars : list (bytes * nat)) (args : list bytes) (d : terminal) : terminal * outcome error bytes :=
  stty_main accept linux boolFields chars map_to_list map_to_list toy_marshal toy_unmarshal (fun _ => inl toy_out) args d.

Lemma toy_runs args d : stty_runs accept linux d (toy_run cc args d).1.
Proof.
  exact (runs_more accept linux d d _ _ boolFields cc map_to_list map_to_list toy_marshal toy_unmarshal
    (fun _ => inl toy_out) args (runs_none _ _ _) (Permutation_refl _) (Permutation_refl _) (surjective_pairing _)).
Qed.

Lemma stty_typed_witness : wf_terminal (toy_run cc (str <$> ["~echo"; "row"; "40"]%string) toy_terminal).1.
Proof. refine (proj1 (stty_typed _ _ _ _ linux_typed toy_terminal_wf (toy_runs _ _))). Defined.

(** With a scan order that visits [time] after [intr], an interrupt character cannot be set; [raw]
    writes its two numbers to the interrupt character and the timeout. *)
Example stty_intr_lost :
  let last := filter (fun c => c.1 <> str "time") cc ++ [(str "time", 0%nat)] in
  last ≡ₚ cc /\
  CC (settings (toy_run last (str <$> ["intr"; "7"]%string) toy_terminal).1) !! 0%nat = Some x03 /\
  CC (settings (toy_run cc (str <$> ["intr"; "7"]%string) toy_terminal).1) !! 0%nat = Some x07.
Proof. split; [apply (bool_decide_eq_true_1 _); vm_compute; reflexivity|]. split; vm_compute; reflexivity. Qed.

Example stty_raw_wrong_characters :
  let l := CC (settings (toy_run cc [str "raw"] toy_terminal).1) in l !! VTIME = Some x01 /\ l !! VMIN = Some x01.
Proof. split; vm_compute; reflexivity. Qed.

(** A run given by its result. *)
Lemma toy_run_result chars args d x : toy_run chars args d = x ->
  stty_main accept linux boolFields chars map_to_list map_to_list toy_marshal toy_unmarshal (fun _ => inl toy_out) args d = (x.1, x.2).
Proof. intros <-. apply surjective_pairing. Qed.

Definition toy_d1 : terminal := (toy_run cc [str "dump"] toy_terminal).1.

Lemma toy_dump : toy_run cc [str "dump"] toy_terminal = (toy_d1, Ret toy_out).
Proof.
  unfold toy_d1, toy_out, toy_run, stty_main, mbind, M_bind.
  assert (H : is_Ret (gtty accept linux toy_terminal).2 = true) by (vm_compute; reflexivity).
  destruct (gtty accept linux toy_terminal) as [d [t|e|]]; [reflexivity|discriminate H|discriminate H].
Qed.

Definition toy_d2 : terminal := (toy_run cc (str <$> ["~echo"; "row"; "40"]%string) toy_d1).1.
Definition toy_d3 : terminal * outcome error bytes := toy_run cc [str "load"; str "f"] toy_d2.

Lemma toy_d2_wf : wf_terminal toy_d2.
Proof. by vm_compute. Qed.

Lemma stty_dump_load_witness :
  settings toy_d2 <> settings toy_terminal /\ is_Ret toy_d3.2 = true /\
  exists new, restored (settings toy_terminal) (settings toy_d2) new /\ settings toy_d3.1 = linux (settings toy_d2) new /\
    Row (window toy_d3.1) = 24.
Proof.
  assert (H : is_Ret toy_d3.2 = true) by (vm_compute; reflexivity).
  split; [intros E; apply (f_equal Lflag) in E; vm_compute in E; discriminate|]. split; [exact H|].
  pose proof (stty_dump_load accept linux boolFields cc map_to_list map_to_list toy_marshal toy_unmarshal (fun _ => inl toy_out)
    toy_terminal toy_d1 toy_d2 toy_d3.1 toy_out (str "f") toy_d3.2 linux_typed (Permutation_refl _) (Permutation_refl _)
    toy_json toy_terminal_wf toy_d2_wf (toy_run_result _ _ _ (_, _) toy_dump) eq_refl (toy_run_result _ _ _ toy_d3 eq_refl)) as T.
  revert H T. destruct toy_d3.2 as [out|e|]; intros H T; [|discriminate H|discriminate H].
  destruct T as (new & T1 & T2 & T3 & _). exists new. split; [exact T1|]. split; [exact T2|]. rewrite T3. reflexivity.
Defined.

Definition toy_settings : list setting := [Flag (str "echo") false; Char (str "erase") 8; Rows 70000; Flag (str "echo") true].
Definition toy_d4 : terminal * outcome error bytes := toy_run cc (concat (render <$> toy_settings)) toy_terminal.

Lemma stty_sets_witness : is_Ret toy_d4.2 = true /\ Row (window toy_d4.1) = 70000 - 65536.
Proof.
  assert (H : is_Ret toy_d4.2 = true) by (vm_compute; reflexivity). split; [exact H|].
  pose proof (stty_sets accept linux boolFields cc map_to_list map_to_list toy_marshal toy_unmarshal (fun _ => inl toy_out)
    toy_settings toy_terminal toy_d4.1 toy_d4.2 linux_typed (Permutation_refl _) (Permutation_refl _)
    toy_terminal_wf ltac:(done) ltac:(apply (bool_decide_eq_true_1 _); vm_compute; reflexivity) (toy_run_result _ _ _ toy_d4 eq_refl)) as T.
  revert H T. destruct toy_d4.2 as [out|e|]; intros H T; [|discriminate H|discriminate H].
  destruct T as (new & _ & _ & _ & _ & _ & _ & T & _). exact T.
Defined.
