(* ===== verification/Grep.v ===== *)
(** * Searching lines ([cmds/grep])

    The walk over the operands, the matching loop of a file, printing, and the goroutines: one per
    opened file, which count themselves in [nGrep] and hand a channel of results to [main].  [main]
    empties one channel at a time, so the results of a file are printed together; the goroutines
    start and are chosen in any order.  [nGrep] is a global variable without a lock: each access to
    it is a step of its own, and increments can be lost.  [regexp], files and directories are
    parameters. *)

From Stdlib Require Import Strings.String.
From stdpp Require Import relations.
From S2P Require Export GoPath GoIO.

(** ** Walking the operands *)

(** What [filepath.Walk] finds: no file, a file, or a directory with its entries in order of their
    names, or with an error of reading them. *)
#[warnings="-register-all"]
Inductive tree :=
| NoFile (e : error)
| File
| Directory (entries : list (bytes * tree) + error).

(** The messages on the standard error. *)
Inductive message := IsADirectory (name : bytes) | WalkError (name : bytes) (e : error).

(** How a walk goes on after a call of the function. *)
Inductive walk_end := Continue | Stopped | Crashed.

Section Walk.
Context (recursive : bool).

(** [filepath.Walk] with the function of [main]: the names sent, the messages, and how it ends.  An
    error comes with a nil [fi], whose method [IsDir] crashes. *)
Fixpoint walk (name : bytes) (t : tree) : list bytes * list message * walk_end :=
  match t with
  | NoFile _ => ([], [], Crashed)
  | File => ([name], [], Continue)
  | Directory entries =>
      if negb recursive then ([], [IsADirectory name], Continue)
      else
        match entries with
        | inr e => ([name], [WalkError name e], Stopped)
        | inl entries =>
            (fix each (entries : list (bytes * tree)) (names : list bytes) (msgs : list message) :=
               match entries with
               | [] => (names, msgs, Continue)
               | (n, t) :: entries =>
                   match walk (PathJoin [name; n]) t with
                   | (ns, ms, Continue) => each entries (names ++ ns) (msgs ++ ms)
                   | (ns, ms, e) => (names ++ ns, msgs ++ ms, e)
                   end
               end) entries [name] []
        end
  end.

(** The loop over the operands; an error ends only the walk of its operand. *)
Fixpoint walk_all (lstat : bytes -> tree) (operands : list bytes) : list bytes * list message * bool :=
  match operands with
  | [] => ([], [], true)
  | v :: operands =>
      match walk v (lstat v) with
      | (ns, ms, Crashed) => (ns, ms, false)
      | (ns, ms, _) =>
          let '(ns', ms', ok) := walk_all lstat operands in (ns ++ ns', ms ++ ms', ok)
      end
  end.
End Walk.

(** The second goroutine: files that cannot be opened are reported and skipped. *)
Definition open_files (Open : bytes -> bytes + error) (names : list bytes) : list (bytes * bytes) :=
  omap (fun n => match Open n with inl data => Some (n, data) | inr _ => None end) names.

(** ** Matching *)

Section Grep.
Context (Match : bytes -> bool) (match_ noshowmatch quiet : bool).

(** The loop of [grep]: the lines pushed into the channel.  [fuel] bounds the number of lines. *)
Fixpoint grep_loop (fuel : nat) (r : bytes) : list bytes :=
  match fuel with
  | O => []
  | S fuel =>
      match ReadBytes x0a r with
      | (i, None, r) =>
          let m := Match i in
          if Bool.eqb m match_ then i :: (if noshowmatch then [] else grep_loop fuel r) else grep_loop fuel r
      | (_, Some _, _) => []
      end
  end.

Definition grep (data : bytes) : list bytes := grep_loop (S (length data)) data.

Definition printmatch (showname : bool) (name line : bytes) : bytes :=
  (if showname then name else []) ++
  (if noshowmatch then []
   else if Bool.eqb (Match line) match_ then (if showname then str ":" else []) ++ line else []).

(** ** The goroutines *)

(** A [grepCommand] with what its channel will carry. *)
Record job := MkJob { job_name : bytes; results : list bytes }.

Definition job_of (f : bytes * bytes) : job := MkJob f.1 (grep f.2).

(** Where [main] is in the loop over [allGrep]: waiting for a channel, emptying the one of a file,
    or in [nGrep--] (before the load, and before the store with the value loaded) and the test. *)
Inductive phase := Receiving | Ranging (j : job) (rest : list bytes) | Loading | Storing (v : Z) | Testing.

Record state := MkState {
  unstarted : list job;        (** created, before [nGrep++] *)
  counting : list (job * Z);   (** in [nGrep++], with the value loaded *)
  ready : list job;            (** waiting to send on [allGrep] *)
  main_at : phase;
  nGrep : Z;
  out : bytes;
  status : option Z            (** the exit status when the program has ended *)
}.

Definition init (jobs : list job) : state := MkState jobs [] [] Receiving 0 [] None.

Definition printed (showname : bool) (j : job) : bytes := concat (printmatch showname (job_name j) <$> results j).

(** The steps of a goroutine are those up to the send on [allGrep]; the matching that follows fills
    the channel [main] is emptying and touches nothing else. *)
Inductive step (showname : bool) : state -> state -> Prop :=
| step_load a j b counting ready m n out :
    step showname (MkState (a ++ j :: b) counting ready m n out None)
                  (MkState (a ++ b) (counting ++ [(j, n)]) ready m n out None)
| step_store unstarted a j v b ready m n out :
    step showname (MkState unstarted (a ++ (j, v) :: b) ready m n out None)
                  (MkState unstarted (a ++ b) (ready ++ [j]) m (v + 1) out None)
| step_recv unstarted counting a j b n out :
    step showname (MkState unstarted counting (a ++ j :: b) Receiving n out None)
                  (MkState unstarted counting (a ++ b) (Ranging j (results j)) n out None)
| step_quiet unstarted counting ready j r rest n out :
    quiet = true ->
    step showname (MkState unstarted counting ready (Ranging j (r :: rest)) n out None)
                  (MkState unstarted counting ready (Ranging j (r :: rest)) n out (Some 0))
| step_print unstarted counting ready j r rest n out :
    quiet = false ->
    step showname (MkState unstarted counting ready (Ranging j (r :: rest)) n out None)
                  (MkState unstarted counting ready (Ranging j rest) n (out ++ printmatch showname (job_name j) r) None)
| step_closed unstarted counting ready j n out :
    step showname (MkState unstarted counting ready (Ranging j []) n out None)
                  (MkState unstarted counting ready Loading n out None)
| step_dec_load unstarted counting ready n out :
    step showname (MkState unstarted counting ready Loading n out None)
                  (MkState unstarted counting ready (Storing n) n out None)
| step_dec_store unstarted counting ready v n out :
    step showname (MkState unstarted counting ready (Storing v) n out None)
                  (MkState unstarted counting ready Testing (v - 1) out None)
| step_test unstarted counting ready n out :
    step showname (MkState unstarted counting ready Testing n out None)
                  (MkState unstarted counting ready Receiving n out
                     (if n =? 0 then Some (if quiet then 1 else 0) else None)).

(** [main] up to the loop over [allGrep]: the files to search and whether names are shown; [None]
    when the walk has crashed the program. *)
Definition grep_jobs (recursive : bool) (lstat : bytes -> tree) (Open : bytes -> bytes + error) (stdin : bytes)
    (args : list bytes) : option (bool * list job) :=
  match args with
  | [] | [_] => Some (false, [job_of (str "<stdin>", stdin)])
  | _ :: operands =>
      match walk_all recursive lstat operands with
      | (_, _, false) => None
      | (names, _, true) => Some (1 <? zlen operands, job_of <$> open_files Open names)
      end
  end.
End Grep.

(** ** The lines of a file *)

Section Lines.
Context (Match : bytes -> bool) (match_ noshowmatch : bool).

(** The selected lines: terminated, and matching or not as asked. *)
Definition selected (ls : list bytes) : list bytes :=
  filter (fun l => Bool.eqb (Match l) match_ = true) ((fun l => l ++ [x0a]) <$> ls).

Lemma grep_loop_spec ls t fuel :
  Forall is_line ls -> is_line t -> (length ls < fuel)%nat ->
  grep_loop Match match_ noshowmatch fuel (unlines ls ++ t) =
    (if noshowmatch then take 1 else id) (selected ls).
Proof.
  intros Hls Ht. revert fuel. induction Hls as [|l ls Hl _ IH]; intros [|fuel] Hf; simpl in Hf; try lia.
  - simpl. rewrite ReadBytes_end by done. by destruct noshowmatch.
  - cbn [grep_loop]. rewrite unlines_cons, <- app_assoc. cbn [app]. rewrite ReadBytes_delim by done.
    unfold selected. rewrite fmap_cons, filter_cons. destruct (Bool.eqb (Match (l ++ [x0a])) match_); simpl.
    + destruct noshowmatch; [done|]. unfold id. f_equal. apply IH. lia.
    + apply IH. lia.
Qed.

Lemma length_unlines ls : (length ls <= length (unlines ls))%nat.
Proof. induction ls as [|l ls IH]; [done|]. rewrite unlines_cons, length_app. simpl. lia. Qed.

Lemma grep_spec ls t :
  Forall is_line ls -> is_line t ->
  grep Match match_ noshowmatch (unlines ls ++ t) = (if noshowmatch then take 1 else id) (selected ls).
Proof.
  intros Hls Ht. apply grep_loop_spec; try done. rewrite length_app. pose proof (length_unlines ls). lia.
Qed.

Lemma printed_lines name ls :
  Forall (fun l => Bool.eqb (Match l) match_ = true) ls ->
  printed Match match_ false false (MkJob name ls) = concat ls.
Proof.
  intros H. unfold printed. cbn [results job_name]. induction H as [|l ls Hl _ IH]; [done|].
  rewrite fmap_cons. cbn [concat]. rewrite IH. unfold printmatch. by rewrite Hl.
Qed.
End Lines.

(** ** Runs *)

Section Runs.
Context (Match : bytes -> bool) (match_ noshowmatch quiet showname : bool).
Abbreviation grep_step := (step Match match_ noshowmatch quiet showname).
Abbreviation print := (printed Match match_ noshowmatch showname).
Abbreviation print_line := (printmatch Match match_ noshowmatch showname).

Definition current (m : phase) : list job := match m with Ranging j _ => [j] | _ => [] end.

(** What [main] has printed: the files [done], and of the current one the results [pre]. *)
Definition printing (done : list job) (m : phase) (out : bytes) : Prop :=
  match m with
  | Ranging j rest => exists pre, results j = pre ++ rest /\ (quiet = true -> pre = []) /\
      out = concat (print <$> done) ++ concat (print_line (job_name j) <$> pre)
  | _ => out = concat (print <$> done)
  end.

(** [done] are the files that have been printed, in order. *)
Record inv (jobs done : list job) (s : state) : Prop := {
  inv_jobs : unstarted s ++ (fst <$> counting s) ++ ready s ++ current (main_at s) ++ done ≡ₚ jobs;
  inv_out : printing done (main_at s) (out s);
  inv_quiet : quiet = true -> Forall (fun j => results j = []) done;
  inv_status : match status s with
    | None => True
    | Some v => if quiet then v = 0 /\ (exists j r rest, main_at s = Ranging j (r :: rest)) \/ v = 1 /\ main_at s = Receiving
                else v = 0 /\ main_at s = Receiving
    end
}.

Lemma printing_idle done m m' out :
  current m = [] -> current m' = [] -> printing done m out -> printing done m' out.
Proof. by destruct m, m'. Qed.

Lemma grep_inv_step jobs done s s' : inv jobs done s -> grep_step s s' -> exists done', inv jobs done' s'.
Proof.
  intros [Hj Ho Hq Hs] H.
  destruct H as [a j b co rd m n o|us a j v b rd m n o|us co a j b n o|us co rd j r rest n o Hqu
    |us co rd j r rest n o Hqu|us co rd j n o|us co rd n o|us co rd v n o|us co rd n o]; simpl in *.
  - exists done. split; simpl; try done. rewrite <- Hj, fmap_app. cbn. solve_Permutation.
  - exists done. split; simpl; try done. rewrite <- Hj, !fmap_app. cbn. solve_Permutation.
  - exists done. split; simpl; try done.
    + rewrite <- Hj. solve_Permutation.
    + exists []. rewrite Ho, app_nil_r. by split_and!.
  - exists done. split; simpl; try done. rewrite Hqu. left. eauto.
  - exists done. split; simpl; try done. destruct Ho as (pre & Hr & _ & ->). exists (pre ++ [r]). split_and!.
    + by rewrite <- app_assoc.
    + congruence.
    + rewrite fmap_app, concat_app, app_assoc. cbn. by rewrite app_nil_r.
  - destruct Ho as (pre & Hr & Hpre & ->). rewrite app_nil_r in Hr. exists (done ++ [j]). split; simpl; try done.
    + rewrite <- Hj. solve_Permutation.
    + rewrite fmap_app, concat_app. cbn. by rewrite app_nil_r, <- Hr.
    + intros E. apply Forall_app. split; [by apply Hq|]. apply Forall_singleton. rewrite Hr. by apply Hpre.
  - exists done. by split.
  - exists done. by split.
  - exists done. split; simpl; try done. destruct (n =? 0); [|done]. destruct quiet; [by right|done].
Qed.

Lemma grep_inv_reach jobs s : rtc grep_step (init jobs) s -> exists done, inv jobs done s.
Proof.
  intros H. assert (Hi : exists done, inv jobs done (init jobs)).
  { exists []. split; simpl; try done. by rewrite app_nil_r. }
  induction H as [|s1 s2 s3 H _ IH]; [done|]. destruct Hi as [done Hi]. eauto using grep_inv_step.
Qed.

(** Steps left: for [main] with a file those of its results, and five around them; two more for a
    goroutine that has not counted itself. *)
Definition job_steps (j : job) : nat := (length (results j) + 5)%nat.

Definition main_steps (m : phase) : nat :=
  (match m with Receiving => 0 | Ranging _ rest => length rest + 4 | Loading => 3 | Storing _ => 2 | Testing => 1 end)%nat.

Definition steps_left (s : state) : nat :=
  (match status s with
  | Some _ => 0
  | None => 1 + sum_list_with (fun j => job_steps j + 2) (unstarted s) + sum_list_with (fun p => job_steps p.1 + 1) (counting s) +
      sum_list_with job_steps (ready s) + main_steps (main_at s)
  end)%nat.

Lemma sum_list_with_middle {A} (f : A -> nat) a x b :
  sum_list_with f (a ++ x :: b) = (f x + sum_list_with f (a ++ b))%nat.
Proof. rewrite !sum_list_with_app. cbn. lia. Qed.

Lemma steps_left_step s s' : grep_step s s' -> (steps_left s' < steps_left s)%nat.
Proof.
  unfold steps_left, job_steps. destruct 1; simpl; rewrite ?sum_list_with_middle, ?sum_list_with_app; simpl; try lia.
  case_match; simpl; lia.
Qed.

Lemma grep_finite s : Acc (fun a b => grep_step b a) s.
Proof.
  induction s as [s IH] using (induction_ltof1 _ steps_left). unfold ltof in IH.
  constructor. intros s' H. by apply IH, steps_left_step.
Qed.

(** A program that has not ended goes on, or [main] waits and every goroutine has been heard. *)
Lemma grep_progress s : status s = None ->
  (exists s', grep_step s s') \/ (unstarted s = [] /\ counting s = [] /\ ready s = [] /\ main_at s = Receiving).
Proof.
  intros Hst. destruct s as [us co rd m n o st]; simpl in *; subst st.
  destruct m as [|j [|r rest]| |v|].
  - destruct rd as [|j rd]; [|by left; eexists; eapply (step_recv _ _ _ _ _ us co [])].
    destruct co as [|[j v] co]; [|by left; eexists; eapply (step_store _ _ _ _ _ us [])].
    destruct us as [|j us]; [|by left; eexists; eapply (step_load _ _ _ _ _ [])]. by right.
  - left. eexists. apply step_closed.
  - left. destruct quiet eqn:Eq; eexists; [by apply step_quiet|by apply step_print].
  - left. eexists. apply step_dec_load.
  - left. eexists. apply step_dec_store.
  - left. eexists. apply step_test.
Qed.

(** *** One file: the accesses to [nGrep] come one after the other *)

Inductive single (j : job) : state -> Prop :=
| single_start : single j (MkState [j] [] [] Receiving 0 [] None)
| single_count : single j (MkState [] [(j, 0)] [] Receiving 0 [] None)
| single_ready : single j (MkState [] [] [j] Receiving 1 [] None)
| single_range pre rest : results j = pre ++ rest -> (quiet = true -> pre = []) ->
    single j (MkState [] [] [] (Ranging j rest) 1 (concat (print_line (job_name j) <$> pre)) None)
| single_quiet r rest : quiet = true -> results j = r :: rest ->
    single j (MkState [] [] [] (Ranging j (r :: rest)) 1 [] (Some 0))
| single_loading : (quiet = true -> results j = []) -> single j (MkState [] [] [] Loading 1 (print j) None)
| single_storing : (quiet = true -> results j = []) -> single j (MkState [] [] [] (Storing 1) 1 (print j) None)
| single_testing : (quiet = true -> results j = []) -> single j (MkState [] [] [] Testing 0 (print j) None)
| single_end : (quiet = true -> results j = []) ->
    single j (MkState [] [] [] Receiving 0 (print j) (Some (if quiet then 1 else 0))).

Lemma app_cons_nil {A} (a b : list A) x : a ++ x :: b <> [].
Proof. by destruct a. Qed.

Lemma app_cons_singleton {A} (a b : list A) x y : [x] = a ++ y :: b -> a = [] /\ y = x /\ b = [].
Proof. destruct a as [|z [|]]; by intros [= -> ->]. Qed.

Lemma single_step j s s' : single j s -> grep_step s s' -> single j s'.
Proof.
  intros H1 H2. destruct H1; inversion H2; subst; clear H2;
    repeat match goal with
    | H : [] = ?a ++ ?x :: ?b |- _ => symmetry in H; by apply app_cons_nil in H
    | H : ?a ++ ?x :: ?b = [] |- _ => by apply app_cons_nil in H
    | H : [?x] = ?a ++ ?y :: ?b |- _ => apply app_cons_singleton in H as (-> & ? & ->); simplify_eq
    | H : ?a ++ ?y :: ?b = [?x] |- _ => symmetry in H; apply app_cons_singleton in H as (-> & ? & ->); simplify_eq
    end; try (by constructor).
  - by apply (single_range j []).
  - match goal with H : quiet = true -> ?pre = [], Hq : quiet = true |- _ => specialize (H Hq); subst pre end. by apply single_quiet.
  - match goal with |- single _ (MkState _ _ _ _ _ (concat (_ <$> ?pre) ++ print_line _ ?r) _) =>
      replace (concat (print_line (job_name j) <$> pre) ++ print_line (job_name j) r) with (concat (print_line (job_name j) <$> (pre ++ [r])))
        by (rewrite fmap_app, concat_app; cbn; by rewrite app_nil_r) end.
    apply single_range; [by rewrite <- app_assoc|congruence].
  - rewrite app_nil_r in *. match goal with H : results j = ?pre |- _ => rewrite <- H in * end. by apply single_loading.
Qed.

Lemma single_reach j s : rtc grep_step (init [j]) s -> single j s.
Proof.
  intros H. assert (Hi : single j (init [j])) by constructor.
  induction H as [|s1 s2 s3 H _ IH]; [done|]. eauto using single_step.
Qed.

Lemma single_progress j s : single j s -> status s = None -> exists s', grep_step s s'.
Proof. intros H Hs. destruct (grep_progress s Hs) as [?|(H1 & H2 & H3 & H4)]; [done|]. by destruct H. Qed.

(** *** The files searched *)

(** A file: its name, its lines, and what follows the last newline. *)
Record input := MkInput { in_name : bytes; in_lines : list bytes; in_tail : bytes }.

Definition input_ok (f : input) : Prop := Forall is_line (in_lines f) /\ is_line (in_tail f).

Definition input_job (f : input) : job :=
  job_of Match match_ noshowmatch (in_name f, unlines (in_lines f) ++ in_tail f).

(** The lines to be reported: the selected ones, or with [-l] only the first. *)
Definition hits (f : input) : list bytes := (if noshowmatch then take 1 else id) (selected Match match_ (in_lines f)).

Definition file_out (f : input) : bytes := concat (print_line (in_name f) <$> hits f).

Lemma results_hits f : input_ok f -> results (input_job f) = hits f.
Proof. intros [Hl Ht]. unfold input_job, job_of. cbn [results fst snd]. by apply grep_spec. Qed.

Lemma print_file f : input_ok f -> print (input_job f) = file_out f.
Proof. intros Hf. unfold printed. by rewrite results_hits. Qed.

Lemma print_files fs : Forall input_ok fs -> concat (print <$> (input_job <$> fs)) = concat (file_out <$> fs).
Proof. intros Hf. induction Hf as [|f fs Hf _ IH]; [done|]. rewrite !fmap_cons. cbn [concat]. by rewrite print_file, IH. Qed.

Lemma hits_files fs : Forall input_ok fs -> Forall (fun j => results j = []) (input_job <$> fs) -> Forall (fun f => hits f = []) fs.
Proof.
  intros Hf H. apply Forall_fmap in H. rewrite Forall_forall in *. intros f Hin. specialize (H f Hin). unfold compose in H.
  rewrite results_hits in H by auto. exact H.
Qed.

(** The output in terms of the files. *)
Definition partial_out (n : nat) (f : input) : bytes := concat (print_line (in_name f) <$> take n (hits f)).

Lemma printing_inputs fd fc m o :
  Forall input_ok fd -> Forall input_ok fc -> input_job <$> fc = current m -> printing (input_job <$> fd) m o ->
  exists cur n, fc = option_list cur /\ o = concat (file_out <$> fd) ++ concat (partial_out n <$> option_list cur).
Proof.
  intros Hd Hc Hm Ho.
  assert (current m = [] -> exists cur n, fc = option_list cur /\ o = concat (file_out <$> fd) ++ concat (partial_out n <$> option_list cur)) as Hidle.
  { intros E. rewrite E in Hm. apply fmap_nil_inv in Hm as ->. exists None, 0%nat. split; [done|]. cbn. rewrite app_nil_r, <- print_files by done.
    by destruct m. }
  destruct m as [|j rest| |v|]; [by apply Hidle| |by apply Hidle..]. clear Hidle.
  destruct fc as [|f [|]]; [discriminate| |discriminate]. injection Hm as <-. apply Forall_inv in Hc.
  destruct Ho as (pre & Hr & _ & ->). rewrite (results_hits f Hc) in Hr. exists (Some f), (length pre). split; [done|].
  unfold partial_out. cbn. by rewrite Hr, take_app_length, print_files, app_nil_r by done.
Qed.

(** The end of a search of one file. *)
Lemma single_end_status f s v : input_ok f -> single (input_job f) s -> status s = Some v ->
  if quiet then v = (if decide (hits f = []) then 1 else 0) else v = 0 /\ out s = file_out f.
Proof.
  intros Hf Hs Hv. destruct Hs as [| | | |r rest Hq Hr| | | |Hr]; try done; simpl in Hv; injection Hv as <-.
  - rewrite Hq. rewrite results_hits in Hr by done. rewrite Hr. by rewrite decide_False.
  - rewrite results_hits in Hr by done. destruct quiet; [by rewrite decide_True by auto|]. split; [done|by apply print_file].
Qed.
End Runs.

(** C40: The goroutines of [grep], which share the counter [nGrep] without a lock, on files given by
    their lines.  No run goes on for ever.  At any time the output consists of the selected lines of
    distinct files, those of a file together and in order, the last file perhaps not finished; with
    [-q] the status is 0 only if a file has a selected line and 1 only if none of the files looked
    at has one.  A run that stops without an exit (an increment of the counter was lost, or there
    was no file) has printed every file.  With one file, or the standard input, the program always
    exits, with status 0 after all selected lines, and with [-q] with 0 exactly if there is one. *)
Theorem grep_runs Match match_ noshowmatch quiet showname files s :
  Forall input_ok files ->
  rtc (step Match match_ noshowmatch quiet showname) (init (input_job Match match_ noshowmatch <$> files)) s ->
  Acc (fun a b => step Match match_ noshowmatch quiet showname b a) s /\
  (exists done cur rest, done ++ option_list cur ++ rest ≡ₚ files /\
    (exists n, out s = concat (file_out Match match_ noshowmatch showname <$> done) ++
       concat (partial_out Match match_ noshowmatch showname n <$> option_list cur)) /\
    (status s = Some 0 -> quiet = true -> exists f, f ∈ files /\ hits Match match_ noshowmatch f <> []) /\
    (status s = Some 1 -> quiet = true /\ Forall (fun f => hits Match match_ noshowmatch f = []) done) /\
    (status s = None -> (exists s', step Match match_ noshowmatch quiet showname s s') \/ cur = None /\ rest = [])) /\
  (forall f, files = [f] ->
    (status s = None -> exists s', step Match match_ noshowmatch quiet showname s s') /\
    (forall v, status s = Some v ->
       if quiet then v = (if decide (hits Match match_ noshowmatch f = []) then 1 else 0)
       else v = 0 /\ out s = file_out Match match_ noshowmatch showname f)).
Proof.
  intros Hok H. split; [apply grep_finite|]. split.
  - apply grep_inv_reach in H as [dn [Hj Ho Hq Hs]].
    assert (current (main_at s) ++ dn ++ unstarted s ++ (fst <$> counting s) ++ ready s ≡ₚ input_job Match match_ noshowmatch <$> files) as Hp
      by (rewrite <- Hj; solve_Permutation).
    apply Permutation_map_inv in Hp as (fs & Efs & Hfs). symmetry in Efs.
    apply fmap_app_inv in Efs as (fc & fs1 & Ec & Efs & ->). symmetry in Efs. apply fmap_app_inv in Efs as (fd & fr & Ed & Er & ->).
    rewrite Hfs in Hok. apply Forall_app in Hok as [Hokc Hok]. apply Forall_app in Hok as [Hokd Hokr].
    subst dn. destruct (printing_inputs _ _ _ _ _ fd fc _ _ Hokd Hokc (eq_sym Ec) Ho) as (cur & n & -> & Ho').
    exists fd, cur, fr. split; [rewrite Hfs; solve_Permutation|]. split; [by exists n|]. split_and!.
    + intros E Eq. rewrite E, Eq in Hs. destruct Hs as [(_ & j & r & rest & Em)|[? _]]; [|done]. rewrite Em in *.
      destruct cur as [f|]; [|done]. injection Ec as Ej. exists f. split; [rewrite Hfs; set_solver|].
      apply Forall_inv in Hokc. rewrite <- (results_hits _ _ _ f Hokc), <- Ej.
      destruct Ho as (pre & -> & _). by destruct pre.
    + intros E. rewrite E in Hs. destruct quiet; [|by destruct Hs]. split; [done|]. apply hits_files; [done|]. by apply Hq.
    + intros E. destruct (grep_progress Match match_ noshowmatch quiet showname s E) as [?|(H1 & H2 & H3 & H4)]; [by left|right].
      rewrite H1, H2, H3 in Er. rewrite H4 in Ec. split; [by destruct cur|]. symmetry in Er. by apply fmap_nil_inv in Er.
  - intros f ->. apply Forall_inv in Hok. apply single_reach in H. split; [by eapply single_progress|].
    intros v. by apply single_end_status.
Qed.

(** ** Examples *)

Definition toy_job (n : string) (ls : list string) : job := MkJob (str n) ((fun l => str l ++ [x0a]) <$> ls).

(** With two files a run can end before the second goroutine has counted itself. *)
Example grep_loses_file :
  let a := toy_job "a" ["x"%string] in let b := toy_job "b" ["x"%string] in
  exists s, rtc (step (fun _ => true) true false false true) (init [a; b]) s /\
    status s = Some 0 /\ out s = str "a:x" ++ [x0a].
Proof.
  intros a b. eexists. split.
  - eapply rtc_l; [exact (step_load _ _ _ _ _ [] a [b] [] [] _ 0 [])|].
    eapply rtc_l; [exact (step_store _ _ _ _ _ [b] [] a 0 [] [] _ _ [])|].
    eapply rtc_l; [exact (step_recv _ _ _ _ _ [b] [] [] a [] _ [])|].
    eapply rtc_l; [by eapply (step_print _ _ _ _ _ _ _ _ a)|].
    do 4 (eapply rtc_l; [constructor|]). apply rtc_refl.
  - split; reflexivity.
Qed.

(** With two files a decrement can be overwritten by an increment that had loaded the old value;
    [main] then waits for ever for a third file. *)
Example grep_waits_for_ever :
  let a := toy_job "a" ["x"%string] in let b := toy_job "b" ["x"%string] in
  exists s, rtc (step (fun _ => true) true false false true) (init [a; b]) s /\
    status s = None /\ nGrep s = 1 /\ forall s', ~ step (fun _ => true) true false false true s s'.
Proof.
  intros a b. eexists. split.
  - eapply rtc_l; [exact (step_load _ _ _ _ _ [] a [b] [] [] _ 0 [])|].
    eapply rtc_l; [exact (step_store _ _ _ _ _ [b] [] a 0 [] [] _ _ [])|].
    eapply rtc_l; [exact (step_load _ _ _ _ _ [] b [] [] [a] _ 1 [])|].
    eapply rtc_l; [exact (step_recv _ _ _ _ _ [] [(b, 1)] [] a [] _ [])|].
    eapply rtc_l; [by eapply (step_print _ _ _ _ _ _ _ _ a)|].
    do 3 (eapply rtc_l; [constructor|]).
    eapply rtc_l; [exact (step_store _ _ _ _ _ [] [] b 1 [] [] _ _ _)|].
    eapply rtc_l; [constructor|].
    eapply rtc_l; [exact (step_recv _ _ _ _ _ [] [] [] b [] _ _)|].
    eapply rtc_l; [by eapply (step_print _ _ _ _ _ _ _ _ b)|].
    do 4 (eapply rtc_l; [constructor|]). apply rtc_refl.
  - split; [reflexivity|]. split; [reflexivity|]. intros s' H. inversion H; by (edestruct @app_cons_nil; eauto).
Qed.

(** Without a file that can be opened nothing is ever sent to [main]. *)
Lemma grep_no_file_waits Match match_ noshowmatch quiet showname s :
  ~ step Match match_ noshowmatch quiet showname (init []) s.
Proof. intros H. inversion H as [a|? a|? ? a| | | | | |]; by destruct a. Qed.

(** A run of two files to its end. *)
Definition toy_input (n : string) (ls : list string) (t : string) : input := MkInput (str n) (str <$> ls) (str t).

Lemma grep_runs_witness :
  let f := toy_input "a" ["x"; "y"]%string "z"%string in
  let M := fun l => bytes_eqb l (str "y" ++ [x0a]) in
  exists s, rtc (step M true false false true) (init [input_job M true false f]) s /\ status s = Some 0 /\
    out s = str "a:y" ++ [x0a].
Proof.
  intros f M.
  assert (exists s, rtc (step M true false false true) (init [input_job M true false f]) s /\ status s = Some 0) as (s & Hr & Hs).
  { eexists. split.
    - eapply rtc_l; [exact (step_load _ _ _ _ _ [] _ [] [] [] _ 0 [])|].
      eapply rtc_l; [exact (step_store _ _ _ _ _ [] [] _ 0 [] [] _ _ [])|].
      eapply rtc_l; [exact (step_recv _ _ _ _ _ [] [] [] _ [] _ [])|].
      eapply rtc_l; [by eapply (step_print _ _ _ _ _ _ _ _ _ (str "y" ++ [x0a]) [])|].
      do 4 (eapply rtc_l; [constructor|]). apply rtc_refl.
    - reflexivity. }
  exists s. split; [exact Hr|]. split; [exact Hs|].
  destruct (grep_runs M true false false true [f] s) as (_ & _ & Hone); [|exact Hr|].
  - apply Forall_singleton. split; [repeat constructor|]; apply (bool_decide_unpack _); vm_compute; exact I.
  - destruct (proj2 (Hone f eq_refl) 0 Hs) as [_ E]. rewrite E. vm_compute. reflexivity.
Defined.

(** The default: lines are selected when matching equals the flag [-v], whose default is true; [-v]
    keeps that. *)
Example grep_v_default :
  grep (fun l => bytes_eqb l (str "a" ++ [x0a])) true false (str "a" ++ [x0a] ++ str "b" ++ [x0a]) = [str "a" ++ [x0a]] /\
  grep (fun l => bytes_eqb l (str "a" ++ [x0a])) false false (str "a" ++ [x0a] ++ str "b" ++ [x0a]) = [str "b" ++ [x0a]].
Proof. split; vm_compute; reflexivity. Qed.

(** A missing operand crashes the command. *)
Example grep_missing_file :
  grep_jobs (fun _ => true) true false false (fun _ => NoFile (Errno 2)) (fun _ => inr (Errno 2)) [] [str "x"; str "f"] = None.
Proof. reflexivity. Qed.
