(* ===== verification/TextCmds.v ===== *)
(** * Small commands on files and streams ([cmds/freq], [validate], [truncate], [tee], [cat], [echo],
    [dirname], [ansi])

    Histograms of bytes and runes, digests compared with a file, sizes of files, copies to several
    files, concatenation.  Files are contents under their names; writers are those of [GoIO]. *)

From Stdlib Require Import Strings.String.
From stdpp Require Import gmap sorting.
From S2P Require Export GoPath GoUtf8 GoIO GoText.

(** ** [freq] *)

Module Freq.

(** [freq[r]++] on [uint64] entries, all zero at the start. *)
Definition bump (freq : gmap Z Z) (r : Z) : gmap Z Z := <[r := u64 (default 0 (freq !! r) + 1)]> freq.

(** What [doFreq] counts: the runes of the input with [-r], else its bytes.  [ReadRune] gives
    [RuneError] for an invalid byte. *)
Definition symbols (utf : bool) (data : bytes) : list Z := if utf then runes data else b2z <$> data.

Definition doFreq (utf : bool) (data : bytes) (freq : gmap Z Z) : gmap Z Z := foldl bump freq (symbols utf data).

(** The digits of a number in a base, the last one first. *)
Fixpoint digits (fuel : nat) (base z : Z) : bytes :=
  match fuel with
  | O => []
  | S fuel => hex_digit (z `mod` base) :: (if z <? base then [] else digits fuel base (z / base))
  end.

(** [%.Pb] for base [b]: at least [P] digits. *)
Definition fmt_base (base : Z) (prec : nat) (z : Z) : bytes :=
  let s := reverse (digits 65 base z) in replicate (prec - length s) x30 ++ s.

(** [%Wd]. *)
Definition fmt_width (w : nat) (z : Z) : bytes := let s := Itoa z in replicate (w - length s) x20 ++ s.

Record freq_flags := MkFlags { utf : bool; dec : bool; hex : bool; oct : bool; chr : bool }.

(** Without any of the four options all of them are set. *)
Definition effective (f : freq_flags) : freq_flags :=
  if negb (dec f || hex f || oct f || chr f) then MkFlags (utf f) true true true true else f.

Definition row (f : freq_flags) (i v : Z) : bytes :=
  (if dec f then fmt_width 3 i ++ str " " else []) ++
  (if oct f then fmt_base 8 3 i ++ str " " else []) ++
  (if hex f then fmt_base 16 2 i ++ str " " else []) ++
  (if chr f then
     if (i <=? 0x20) || ((0x7f <=? i) && (i <? 0xa0)) || ((0xff <? i) && negb (utf f)) then str "- "
     else EncodeRune i ++ str " "
   else []) ++
  fmt_width 8 v ++ [x0a].

(** The loop over the table. *)
Definition rows (f : freq_flags) (freq : gmap Z Z) (indices : list Z) : bytes :=
  concat ((fun i => let v := default 0 (freq !! i) in if v =? 0 then [] else row f i v) <$> indices).

Definition indices : list Z := seqZ 0 (MaxRune + 1).

(** The loop over the operands. *)
Fixpoint freq_read_all (utf : bool) (Open : bytes -> bytes + error) (names : list bytes) (freq : gmap Z Z) : outcome error (gmap Z Z) :=
  match names with
  | [] => Ret freq
  | v :: names =>
      match Open v with
      | inr e => Fail e
      | inl data => freq_read_all utf Open names (doFreq utf data freq)
      end
  end.

(** [main]: the output, or the error of opening a file. *)
Definition freq_main (f : freq_flags) (Open : bytes -> bytes + error) (stdin : bytes) (args : list bytes) : outcome error bytes :=
  freq ← (match args with [] => Ret (doFreq (utf f) stdin ∅) | _ => freq_read_all (utf f) Open args ∅ end);
  mret (rows (effective f) freq indices).

End Freq.

(** ** [validate] *)

Module Validate.
Section Validate.
(** [hash n]: the digest function of an algorithm, when it is known and linked in. *)
Context (hash : bytes -> option (bytes -> bytes)).

(** [one]; the text of a digest is two hexadecimal digits per byte. *)
Definition validate_one (n b sig : bytes) : bool :=
  match hash n with
  | None => false
  | Some sum => bytes_eqb (hex_encode (sum b)) sig
  end.

(** The loop over the algorithms without a sum file: the one that is printed. *)
Fixpoint try_all (try_ : list bytes) (b sig0 sigData : bytes) : option bytes :=
  match try_ with
  | [] => None
  | n :: try_ => if validate_one n b sig0 then Some n else if validate_one n b sigData then Some n else try_all try_ b sig0 sigData
  end.

(** [main]: the output of a successful run.  [all]: the names of the table in the order in which
    [init] visits them.  With a sum file [sign] asserts that a byte slice is a signer, which crashes
    for an algorithm that is linked in, and is false for another. *)
Definition validate_main (all : list bytes) (ReadFile : bytes -> bytes + error) (alg sumfile : bytes) (args : list bytes) :
    outcome error bytes :=
  match args with
  | v :: f :: _ =>
      match ReadFile v with
      | inr e => Fail e
      | inl sigData =>
          let try_ := if bytes_eqb alg [] then all else Split x2c alg in
          sig0 ← or_panic (head (Split x20 sigData));
          match ReadFile f with
          | inr e => Fail e
          | inl b =>
              if bytes_eqb sumfile [] then
                match try_all try_ b sig0 sigData with
                | Some n => Ret (n ++ [x0a])
                | None => Fail (Errorf "No matches found for %v")
                end
              else
                match ReadFile sumfile with
                | inr e => Fail e
                | inl _ => if existsb (fun n => match hash n with Some _ => true | None => false end) try_ then Panic
                           else Fail (Errorf "No matches found for %v")
                end
          end
      end
  | _ => Fail (Errorf "Need at least a file to be validated and one public key")
  end.
End Validate.
End Validate.

(** ** [truncate] *)

Module Truncate.
Section Truncate.
Abbreviation fs := (gmap bytes bytes).
(** The error of a call on a file, other than that it does not exist. *)
Context (deny_stat deny_create deny_truncate : bytes -> option error).

(** [os.Truncate] of a regular file. *)
Definition resize (n : Z) (d : bytes) : bytes := take (Z.to_nat n) (d ++ replicate (Z.to_nat n - length d) x00).

Definition Truncate (s : fs) (name : bytes) (n : Z) : fs :=
  match deny_truncate name with
  | Some _ => s
  | None => match s !! name with Some d => <[name := resize n d]> s | None => s end
  end.

(** [os.Stat]: the size, or an error and whether it says that there is no such file. *)
Definition Stat (s : fs) (name : bytes) : Z + bool :=
  match deny_stat name with
  | Some _ => inr false
  | None => match s !! name with Some d => inl (zlen d) | None => inr true end
  end.

(** The body of the loop; a size taken from a missing [st] crashes. *)
Definition truncate_one (noCreate relative : bool) (want : Z) (fname : bytes) : M fs unit :=
  let cut (st : option Z) : M fs unit :=
    final ← (if relative then size ← lift (or_panic st); mret (i64 (size + want)) else mret want);
    let final := if final <? 0 then 0 else final in
    modify (fun s => Truncate s fname final) in
  s ← get;
  match Stat s fname with
  | inl size => cut (Some size)
  | inr true =>
      if noCreate then cut None
      else
        match deny_create fname with
        | Some e => raise e
        | None =>
            _ ← modify (insert fname []);
            s ← get;
            match Stat s fname with inl size => cut (Some size) | inr _ => raise (Errorf "could not stat newly created file: %v") end
        end
  | inr false => cut None
  end.

Fixpoint truncate_all (noCreate relative : bool) (want : Z) (names : list bytes) : M fs unit :=
  match names with
  | [] => mret tt
  | n :: names => _ ← truncate_one noCreate relative want n; truncate_all noCreate relative want names
  end.

(** [main]; [strconv.ParseInt] in base 10 with 64 bits is [Atoi] here. *)
Definition truncate_main (noCreate : bool) (sizeStr : bytes) (args : list bytes) : M fs unit :=
  match args with
  | [] => raise (Errorf "usage")
  | _ =>
      match Atoi sizeStr with
      | (_, Some _) => raise (Errorf "usage")
      | (want, None) =>
          match sizeStr with
          | [] => lift Panic
          | c :: _ => truncate_all noCreate (byte_eqb c x2b || byte_eqb c x2d) want args
          end
      end
  end.
End Truncate.
End Truncate.

(** ** [tee] *)

Module Tee.

(** A file opened with [O_WRONLY|O_CREATE], and [O_APPEND] with [-a]; it is not truncated. *)
Record ofile := MkOfile { contents : bytes; offset : nat; append : bool }.

#[global] Instance ofile_Writer : Writer ofile := fun f b =>
  (if append f then MkOfile (contents f ++ b) (offset f) true
   else MkOfile (take (offset f) (contents f) ++ b ++ drop (offset f + length b) (contents f)) (offset f + length b) false,
   (zlen b, None)).

Section Tee.
Context {W : Type} `{!Writer W}.

(** [copyinput] stops at the first error. *)
Fixpoint copyinput (files : list W) (buf : bytes) : list W * option error :=
  match files with
  | [] => ([], None)
  | v :: files =>
      let '(v, (_, e)) := io_Write v buf in
      match e with
      | Some e => (v :: files, Some e)
      | None => let '(files, e) := copyinput files buf in (v :: files, e)
      end
  end.

(** The loop of [main]: the error of [copyinput] is ignored; only an error of reading, the end of
    the input too, ends it. *)
Fixpoint tee_loop (files : list W) (reads : list bytes) : list W :=
  match reads with
  | [] => files
  | b :: reads => tee_loop (copyinput files b).1 reads
  end.

(** [main] after the files are opened: they and the standard output, and the exit status. *)
Definition tee_main (files : list W) (stdout : W) (reads : list bytes) : list W * Z :=
  (tee_loop (files ++ [stdout]) reads, 1).
End Tee.
End Tee.

(** ** [cat], [echo], [dirname], [ansi] *)

Module Cat.
Section Cat.
Context {W : Type} `{!Writer W} (Open : bytes -> bytes + error).

Definition w_write (b : bytes) : M W Z := fun w =>
  let '(w, (n, e)) := io_Write w b in (w, match e with Some e => Fail e | None => Ret n end).

Definition catFile (file : bytes) : M W Z :=
  data ← lift (match Open file with inl d => Ret d | inr e => Fail e end);
  io_Copy w_write data.

Fixpoint cat (files : list bytes) : M W unit :=
  match files with
  | [] => mret tt
  | name :: files => _ ← catFile name; cat files
  end.

(** [main]: [argv] is all of [os.Args] but the name, [args] without the flags. *)
Definition cat_main (stdin : bytes) (argv args : list bytes) : M W unit :=
  _ ← (match argv with [] => _ ← io_Copy w_write stdin; mret tt | _ => mret tt end);
  cat args.

(** [echo]: the error of the first write is returned, the line feed is written anyway. *)
Definition echo (nonewline : bool) (s : list bytes) (w : W) : W * option error :=
  let '(w, (_, err)) := io_Write w (Join (str " ") s) in
  let w := if nonewline then w else (io_Write w [x0a]).1 in
  (w, err).

Definition ansi_commands : list (bytes * bytes) := [(str "clear", x1b :: str "[1;1H" ++ x1b :: str "[2J")].

(** [ansi]: the errors of the writes are ignored. *)
Fixpoint ansi (args : list bytes) (w : W) : W * option error :=
  match args with
  | [] => (w, None)
  | arg :: args =>
      match find (fun c => bytes_eqb c.1 arg) ansi_commands with
      | Some c => ansi args (io_Write w c.2).1
      | None => (w, Some (Errorf "Command ANSI '%v' don't exists"))
      end
  end.
End Cat.

(** [dirname]: the output. *)
Definition dirname (args : list bytes) : outcome error bytes :=
  match args with
  | [] => Fail (Errorf "dirname: missing operand")
  | _ => Ret (unlines (Dir <$> args))
  end.
End Cat.

(** ** Facts about [tee] *)

Section Tee_facts.
Import Tee.
Context {W : Type} `{!Writer W} (Hok : WriterOk W).

(** A writer that accepts everything from now on. *)
Definition accepting (P : W -> Prop) : Prop := forall w b, P w -> P (io_Write w b).1 /\ (io_Write w b).2.2 = None.

Lemma copyinput_all P files b :
  accepting P -> Forall P files ->
  (copyinput files b).2 = None /\ Forall P (copyinput files b).1 /\
  out <$> (copyinput files b).1 = (fun w => out w ++ b) <$> files.
Proof.
  intros HP H. induction H as [|w files Hw _ IH]; [done|]. cbn [copyinput].
  destruct (HP w b Hw) as [Hw' He]. destruct (io_Write w b) as [w' [n e]] eqn:E. simpl in He, Hw'. subst e.
  destruct IH as (E1 & HF & Hout). destruct (copyinput files b) as [fs e]. cbn [fst snd] in *. split; [done|]. split; [by constructor|].
  rewrite !fmap_cons, Hout. f_equal. pose proof (Write_full _ _ _ _ E) as ->. destruct (Write_out _ _ _ _ _ E) as [_ ->].
  by rewrite take_ge by (unfold zlen; lia).
Qed.

Lemma tee_loop_all P files reads :
  accepting P -> Forall P files -> out <$> tee_loop files reads = (fun w => out w ++ concat reads) <$> files.
Proof.
  intros HP. revert files. induction reads as [|b reads IH]; intros files HF; cbn [tee_loop concat].
  - apply list_fmap_ext. intros ? w _. by rewrite app_nil_r.
  - destruct (copyinput_all P files b HP HF) as (_ & HF' & Hout). rewrite IH by done.
    change (fun w => out w ++ concat reads) with ((fun o => o ++ concat reads) ∘ out).
    rewrite list_fmap_compose, Hout, <- list_fmap_compose. apply list_fmap_ext. intros ? w _. simpl. by rewrite <- app_assoc.
Qed.

(** Every file and the standard output get the whole input, however it is cut into reads, as long
    as no write fails. *)
Lemma tee_copies P files stdout reads :
  accepting P -> Forall P (files ++ [stdout]) ->
  out <$> (tee_main files stdout reads).1 = (fun w => out w ++ concat reads) <$> files ++ [stdout].
Proof. apply tee_loop_all. Qed.
End Tee_facts.

(** A file that was longer keeps its tail: it is opened without [O_TRUNC]. *)
Lemma tee_keeps_tail reads done_ old :
  Tee.tee_loop [Tee.MkOfile (done_ ++ drop (length done_) old) (length done_) false] reads =
    [Tee.MkOfile (done_ ++ concat reads ++ drop (length (done_ ++ concat reads)) old) (length (done_ ++ concat reads)) false].
Proof.
  revert done_. induction reads as [|b reads IH]; intros p; cbn [Tee.tee_loop concat].
  - by rewrite !app_nil_r.
  - cbn [Tee.copyinput io_Write Tee.ofile_Writer Tee.append Tee.offset Tee.contents fst].
    rewrite take_app_length, drop_app_add', drop_drop by done.
    specialize (IH (p ++ b)). rewrite length_app, <- !app_assoc in IH. rewrite length_app in IH. rewrite IH.
    rewrite <- ?app_assoc, ?length_app. done.
Qed.

(** The exit status is 1 after a complete copy. *)
Example tee_status : (Tee.tee_main [] {| buf := [] |} [str "a"]).2 = 1.
Proof. reflexivity. Qed.

(** A full device in the list starves the files after it. *)
Example tee_error_starves :
  dev_data <$> (Tee.tee_main [{| dev_data := []; dev_room := 0 |}] {| dev_data := []; dev_room := 9 |} [str "a"]).1 = [[]; []].
Proof. reflexivity. Qed.

(** ** Facts about [cat] *)

Section Cat_facts.
Import Cat.
Context {W : Type} `{!Writer W} (Hok : WriterOk W) (Open : bytes -> bytes + error).

(** Running [m] appends a part of [b], all of it unless it fails. *)
Definition sends {A} (m : M W A) (b : bytes) : Prop := forall w w' r,
  m w = (w', r) -> exists p, p `prefix_of` b /\ out w' = out w ++ p /\ r <> Panic /\ (is_Ret r = true -> p = b).

Lemma sends_bind {A B} (m : M W A) (f : A -> M W B) b c : sends m b -> (forall a, sends (f a) c) -> sends (m ≫= f) (b ++ c).
Proof.
  intros Hm Hf w w' r H. unfold mbind, M_bind in H. destruct (m w) as [w1 [a|e|]] eqn:E.
  - destruct (Hm _ _ _ E) as (p & _ & Ho & _ & Hp). rewrite (Hp eq_refl) in Ho.
    destruct (Hf a _ _ _ H) as (q & Hq & Ho' & Hn & Hr). exists (b ++ q). split; [by apply prefix_app|].
    split; [by rewrite Ho', Ho, <- app_assoc|]. split; [done|]. intros E'. by rewrite Hr.
  - simplify_eq. destruct (Hm _ _ _ E) as (p & Hp & Ho & Hn & _). exists p. split; [by apply prefix_app_r|done].
  - simplify_eq. by destruct (Hm _ _ _ E) as (p & Hp & Ho & Hn & _).
Qed.

Lemma sends_ret {A} (a : A) : sends (mret a) [].
Proof. intros w w' r [<- <-]%pair_equal_spec. exists []. by rewrite app_nil_r. Qed.

Lemma sends_raise {A} e b : sends (A := A) (raise e) b.
Proof. intros w w' r [<- <-]%pair_equal_spec. exists []. rewrite app_nil_r. split; [apply prefix_nil|done]. Qed.

Lemma sends_chunks n cs : sends (copy_chunks w_write n cs) (concat cs).
Proof.
  revert n. induction cs as [|c cs IH]; intros n; [apply sends_ret|]. cbn [copy_chunks concat].
  intros w w' r H. unfold mbind, M_bind, w_write in H. destruct (io_Write w c) as [w1 [k [e|]]] eqn:E;
    destruct (Write_out _ _ _ _ _ E) as [Hk Ho].
  - simplify_eq. exists (take (Z.to_nat k) c). split; [apply prefix_app_r, prefix_take|done].
  - pose proof (Write_full _ _ _ _ E) as ->. rewrite bool_decide_eq_true_2 in H by done.
    destruct (IH _ _ _ _ H) as (q & Hq & Ho' & Hn & Hr). rewrite take_ge in Ho by (unfold zlen; lia).
    exists (c ++ q). split; [by apply prefix_app|]. split; [by rewrite Ho', Ho, <- app_assoc|]. split; [done|].
    intros E'. by rewrite Hr.
Qed.

(** The contents of the files up to the first one that cannot be opened. *)
Fixpoint opened (files : list bytes) : bytes :=
  match files with
  | [] => []
  | f :: files => match Open f with inl d => d ++ opened files | inr _ => [] end
  end.

(** [cat] writes the concatenation of the files, or a first part of it when a file cannot be opened
    or a write fails. *)
Lemma cat_sends files : sends (cat Open files) (opened files).
Proof.
  induction files as [|f files IH]; [apply sends_ret|]. cbn [cat opened]. unfold catFile.
  destruct (Open f) as [d|e].
  - apply sends_bind; [|done]. change (sends (io_Copy w_write d) d). unfold io_Copy.
    pose proof (sends_chunks 0 (chunks copy_buf_size d)) as H. by rewrite concat_chunks in H.
  - apply (sends_raise e).
Qed.
End Cat_facts.

(** With flags but no files nothing is read: the test is on [os.Args]. *)
Example cat_u_reads_nothing :
  Cat.cat_main (fun _ => inr EOF) (str "input") [str "-u"] [] {| buf := [] |} = ({| buf := [] |}, Ret tt).
Proof. reflexivity. Qed.

(** ** Facts about [truncate] *)

Section Truncate_facts.
Import Truncate.
Context (deny_stat deny_create deny_truncate : bytes -> option error).

(** The size a file of [size] bytes gets. *)
Definition target (relative : bool) (want size : Z) : Z := Z.max 0 (if relative then i64 (size + want) else want).

Lemma length_resize n d : 0 <= n -> length (resize n d) = Z.to_nat n.
Proof. intros. unfold resize. rewrite length_take, length_app, length_replicate. lia. Qed.

(** A file that exists, or is created empty, is cut or filled with zeros to its target size. *)
Lemma truncate_one_spec (noCreate relative : bool) (want : Z) (s : gmap bytes bytes) (fname : bytes) :
  deny_stat fname = None -> deny_create fname = None -> deny_truncate fname = None ->
  (noCreate = false \/ is_Some (s !! fname)) ->
  let old : bytes := default [] (s !! fname) in
  truncate_one deny_stat deny_create deny_truncate noCreate relative want fname s =
    (<[fname := resize (target relative want (zlen old)) old]> s, Ret tt).
Proof.
  intros Hs Hc Ht Hex old. unfold truncate_one, mbind, M_bind, get, lift, modify, mret, M_ret, Stat, or_panic.
  assert (Hcut : forall (s' : gmap bytes bytes) f, s' !! fname = Some old ->
    Truncate deny_truncate s' fname (if f <? 0 then 0 else f) = <[fname := resize (Z.max 0 f) old]> s').
  { intros s' f H. unfold Truncate. rewrite Ht, H. repeat f_equal. destruct (Z.ltb_spec f 0); lia. }
  rewrite Hs. unfold target. destruct (s !! fname) as [d|] eqn:E; simpl in old.
  - destruct relative; rewrite Hcut by done; done.
  - destruct noCreate; [destruct Hex as [|[? ?]]; done|]. rewrite Hc, lookup_insert_eq.
    destruct relative; rewrite Hcut by (by rewrite lookup_insert_eq); by rewrite insert_insert_eq.
Qed.

(** [truncate] on distinct files changes each of them and nothing else. *)
Lemma truncate_all_spec (noCreate relative : bool) (want : Z) (s : gmap bytes bytes) (names : list bytes) :
  NoDup names ->
  Forall (fun n => deny_stat n = None /\ deny_create n = None /\ deny_truncate n = None /\
                   (noCreate = false \/ is_Some (s !! n))) names ->
  exists s', truncate_all deny_stat deny_create deny_truncate noCreate relative want names s = (s', Ret tt) /\
    (forall n, n ∈ names -> let old : bytes := default [] (s !! n) in s' !! n = Some (resize (target relative want (zlen old)) old)) /\
    (forall n, n ∉ names -> s' !! n = s !! n).
Proof.
  revert s. induction names as [|x names IH]; intros s Hnd HF.
  - exists s. split; [done|]. split; [intros n Hn; by apply not_elem_of_nil in Hn|done].
  - apply NoDup_cons in Hnd as [Hx Hnd]. apply Forall_cons in HF as [(H1 & H2 & H3 & H4) HF].
    cbn [truncate_all]. unfold mbind, M_bind. rewrite truncate_one_spec by done.
    set (s1 := <[x := _]> s). destruct (IH s1) as (s' & -> & Hin & Hout); [done| |].
    { apply Forall_forall. intros n Hn. rewrite Forall_forall in HF. destruct (HF n Hn) as (? & ? & ? & Hex).
      unfold s1. rewrite lookup_insert_ne by set_solver. done. }
    exists s'. split; [done|]. split.
    + intros n [->|Hn]%elem_of_cons.
      * rewrite Hout by done. unfold s1. by rewrite lookup_insert_eq.
      * rewrite (Hin n Hn). unfold s1. by rewrite lookup_insert_ne by set_solver.
    + intros n [Hne Hn]%not_elem_of_cons. rewrite (Hout n Hn). unfold s1. by rewrite lookup_insert_ne.
Qed.
End Truncate_facts.

(** A relative size that overflows empties the file; with [-c] a missing file crashes. *)
Example truncate_overflow :
  (Truncate.truncate_main (fun _ => None) (fun _ => None) (fun _ => None) false (str "+9223372036854775807") [str "f"]
     {[ str "f" := str "ab" ]}).1 !! str "f" = Some [].
Proof. vm_compute. reflexivity. Qed.

Example truncate_c_missing :
  (Truncate.truncate_main (fun _ => None) (fun _ => None) (fun _ => None) true (str "+1") [str "f"] ∅).2 = Panic.
Proof. reflexivity. Qed.

(** ** Facts about [validate] *)

Section Validate_facts.
Import Validate.
Context (hash : bytes -> option (bytes -> bytes)).

(** A digest of [b] is the first field of the file or the whole of it. *)
Definition digest_agrees (b sig0 sigData n : bytes) : Prop :=
  exists sum, hash n = Some sum /\ (hex_encode (sum b) = sig0 \/ hex_encode (sum b) = sigData).

Lemma validate_one_spec b n sig : Validate.validate_one hash n b sig = true <-> exists sum, hash n = Some sum /\ hex_encode (sum b) = sig.
Proof.
  unfold validate_one. destruct (hash n) as [sum|]; [|by split; [|intros (? & ? & _)]]. rewrite bytes_eqb_eq.
  split; [eauto|by intros (? & [= <-] & ?)].
Qed.

(** The first algorithm with an agreeing digest is printed, and an error means that there is none. *)
Lemma try_all_spec try_ b sig0 sigData :
  match try_all hash try_ b sig0 sigData with
  | Some n => exists p q, try_ = p ++ n :: q /\ digest_agrees b sig0 sigData n /\ Forall (fun m => ~ digest_agrees b sig0 sigData m) p
  | None => Forall (fun m => ~ digest_agrees b sig0 sigData m) try_
  end.
Proof.
  induction try_ as [|n try_ IH]; [by constructor|]. cbn [try_all].
  destruct (validate_one hash n b sig0) eqn:E1; [|destruct (validate_one hash n b sigData) eqn:E2].
  - apply validate_one_spec in E1 as (sum & ? & ?). exists [], try_. split; [done|]. split; [exists sum; auto|done].
  - apply validate_one_spec in E2 as (sum & ? & ?). exists [], try_. split; [done|]. split; [exists sum; auto|done].
  - assert (Hn : ~ digest_agrees b sig0 sigData n).
    { intros (sum & Hh & [Hs|Hs]).
      - assert (validate_one hash n b sig0 = true) by (apply validate_one_spec; eauto). congruence.
      - assert (validate_one hash n b sigData = true) by (apply validate_one_spec; eauto). congruence. }
    destruct (try_all hash try_ b sig0 sigData) as [m|]; [|by constructor].
    destruct IH as (p & q & -> & Hm & Hp). exists (n :: p), q. split; [done|]. split; [done|]. by constructor.
Qed.
End Validate_facts.

(** A sum file crashes the command. *)
Example validate_sumfile_panics :
  Validate.validate_main (fun _ => Some id) [str "MD5"] (fun _ => inl (str "x")) [] (str "key") [str "s"; str "f"] = Panic.
Proof. reflexivity. Qed.

(** ** Facts about [freq] *)

Section Freq_facts.
Import Freq.

Definition count_of (i : Z) (l : list Z) : Z := Z.of_nat (length (filter (fun j => j = i) l)).

Lemma bump_all l (m : gmap Z Z) i :
  (forall j, 0 <= default 0 (m !! j)) -> default 0 (m !! i) + Z.of_nat (length l) < 2 ^ 64 ->
  default 0 (foldl bump m l !! i) = default 0 (m !! i) + count_of i l.
Proof.
  revert m. induction l as [|x l IH]; intros m Hm Hb; cbn [foldl length] in *; [unfold count_of; simpl; lia|].
  unfold count_of in *. rewrite filter_cons. unfold bump at 2. destruct (decide (x = i)) as [->|Hne].
  - specialize (Hm i) as Hi. rewrite IH; unfold bump.
    + rewrite lookup_insert_eq. cbn [default from_option id length]. rewrite u64_small by lia. lia.
    + intros j. destruct (decide (i = j)) as [->|]; [rewrite lookup_insert_eq; apply u64_range|by rewrite lookup_insert_ne].
    + rewrite lookup_insert_eq. cbn [default from_option id]. rewrite u64_small by lia. lia.
  - rewrite IH; unfold bump.
    + by rewrite lookup_insert_ne.
    + intros j. destruct (decide (x = j)) as [->|]; [rewrite lookup_insert_eq; apply u64_range|by rewrite lookup_insert_ne].
    + rewrite lookup_insert_ne by done. lia.
Qed.

Lemma doFreq_bump utf data m : doFreq utf data m = foldl bump m (symbols utf data).
Proof. done. Qed.

Lemma freq_read_all_bump utf Open names datas m :
  Forall2 (fun n d => Open n = inl d) names datas ->
  freq_read_all utf Open names m = Ret (foldl bump m (concat (symbols utf <$> datas))).
Proof.
  intros H. revert m. induction H as [|n d names datas Hn _ IH]; intros m; [done|]. cbn [freq_read_all]. rewrite Hn, IH.
  rewrite fmap_cons. cbn [concat]. by rewrite foldl_app, doFreq_bump.
Qed.

(** The low [n] bits of a byte. *)
Lemma land_low z n : 0 <= n -> Z.land z (2 ^ n - 1) = z `mod` 2 ^ n.
Proof. intros Hn. rewrite <- Z.land_ones by done. f_equal. rewrite Z.ones_equiv. lia. Qed.

Lemma DecodeRune_range s : 0 <= fst (DecodeRune s) <= MaxRune.
Proof.
  assert (H3f : forall z, Z.land z 0x3f = z `mod` 64) by (intros; apply (land_low z 6); lia).
  assert (H1f : forall z, Z.land z 0x1f = z `mod` 32) by (intros; apply (land_low z 5); lia).
  assert (H0f : forall z, Z.land z 0x0f = z `mod` 16) by (intros; apply (land_low z 4); lia).
  assert (H07 : forall z, Z.land z 0x07 = z `mod` 8) by (intros; apply (land_low z 3); lia).
  unfold DecodeRune, RuneError, MaxRune. destruct s as [|b0 s]; [cbn; lia|]. pose proof (b2z_range b0).
  cbv zeta. repeat case_match; cbn [fst]; try lia; rewrite ?H3f, ?H1f, ?H0f, ?H07;
    rewrite ?(lor_shift _ _ 6), ?(lor_shift _ _ 12), ?(lor_shift _ _ 18) by (Z.to_euclidean_division_equations; lia);
    unfold is_cont in *; Z.to_euclidean_division_equations; lia.
Qed.

Lemma symbols_range utf data : Forall (fun i => 0 <= i <= MaxRune) (symbols utf data).
Proof.
  unfold symbols. destruct utf.
  - remember (length data) as n eqn:Hn. revert data Hn. induction n as [n IH] using lt_wf_ind. intros data ->.
    destruct data as [|b data]; [constructor|]. rewrite runes_cons by done.
    constructor; [apply DecodeRune_range|]. pose proof (DecodeRune_width (b :: data) ltac:(done)) as Hw.
    apply (IH (length (drop (snd (DecodeRune (b :: data))) (b :: data)))); [|done]. rewrite length_drop. simpl in *. lia.
  - apply Forall_fmap, Forall_true. intros b. pose proof (b2z_range b). unfold MaxRune. simpl. lia.
Qed.

(** The values that occur, in increasing order. *)
Definition occurring (l : list Z) : list Z := merge_sort Z.le (elements (list_to_set l : gset Z)).

Lemma rows_filter f m is_ :
  rows f m is_ = concat ((fun i => row f i (default 0 (m !! i))) <$> filter (fun i => default 0 (m !! i) <> 0) is_).
Proof.
  unfold rows. induction is_ as [|i is_ IH]; [done|]. rewrite fmap_cons, filter_cons. cbn [concat]. rewrite IH.
  destruct (Z.eqb_spec (default 0 (m !! i)) 0) as [E|E].
  - by rewrite decide_False by (intros H; by apply H).
  - by rewrite decide_True.
Qed.

Lemma StronglySorted_filter_le (P : Z -> Prop) `{!forall i, Decision (P i)} (l : list Z) :
  StronglySorted Z.le l -> StronglySorted Z.le (filter P l).
Proof.
  induction 1 as [|x l _ IH Hx]; [constructor|]. rewrite filter_cons. destruct (decide (P x)); [|done].
  constructor; [done|]. apply Forall_forall. intros y Hy. apply list_elem_of_filter in Hy as [_ Hy].
  rewrite Forall_forall in Hx. by apply Hx.
Qed.

Lemma StronglySorted_seqZ a n : StronglySorted Z.le (seqZ a n).
Proof.
  destruct (Z.lt_ge_cases n 0) as [Hn|Hn]; [by rewrite seqZ_nil by lia; constructor|].
  revert a. pattern n. apply natlike_ind; [intros a; by rewrite seqZ_nil by lia; constructor| |done].
  intros k Hk IH a. rewrite seqZ_cons by lia. constructor; [by replace (Z.pred (Z.succ k)) with k by lia|].
  apply Forall_forall. intros x Hx. apply elem_of_seqZ in Hx. lia.
Qed.

Lemma occurring_filter (P : Z -> Prop) `{!forall i, Decision (P i)} l n :
  (forall i, P i <-> i ∈ l) -> Forall (fun i => 0 <= i < n) l -> filter P (seqZ 0 n) = occurring l.
Proof.
  intros HP Hl. apply (StronglySorted_unique Z.le).
  - by apply StronglySorted_filter_le, StronglySorted_seqZ.
  - apply (StronglySorted_merge_sort Z.le).
  - unfold occurring. rewrite merge_sort_Permutation. apply NoDup_Permutation.
    + apply NoDup_filter, NoDup_seqZ.
    + apply NoDup_elements.
    + intros i. rewrite list_elem_of_filter, elem_of_elements, elem_of_list_to_set, HP, elem_of_seqZ. split; [by intros [? _]|].
      intros Hi. split; [done|]. rewrite Forall_forall in Hl. by apply Hl in Hi.
Qed.

(** The output of [freq] on files that can be opened: one row for every byte, or rune with [-r],
    that occurs in them, in increasing order, with the number of times it occurs. *)
Theorem freq_histogram f Open stdin args datas :
  Forall2 (fun n d => Open n = inl d) args datas ->
  let syms := concat (symbols (utf f) <$> match args with [] => [stdin] | _ => datas end) in
  zlen syms < 2 ^ 64 ->
  freq_main f Open stdin args = Ret (concat ((fun i => row (effective f) i (count_of i syms)) <$> occurring syms)).
Proof.
  intros HF syms Hlen.
  assert (Hm : (match args with [] => Ret (doFreq (utf f) stdin ∅) | _ => freq_read_all (utf f) Open args ∅ end)
               = Ret (E := error) (foldl bump ∅ syms)).
  { unfold syms. destruct args; [|by apply freq_read_all_bump]. cbn [fmap list_fmap concat]. by rewrite app_nil_r. }
  unfold freq_main. rewrite Hm. unfold mbind, outcome_bind, mret, outcome_ret. f_equal. rewrite rows_filter.
  assert (Hc : forall i, default 0 (foldl bump ∅ syms !! i) = count_of i syms).
  { intros i. rewrite bump_all; rewrite ?lookup_empty; cbn [default from_option id]; [lia|intros j; by rewrite lookup_empty|].
    unfold zlen in Hlen. lia. }
  unfold indices. rewrite (occurring_filter _ syms).
  - f_equal. apply list_fmap_ext. intros _ i _. by rewrite Hc.
  - intros i. rewrite Hc. unfold count_of. split.
    + intros H. destruct (filter (fun j => j = i) syms) as [|x l] eqn:E; [done|].
      assert (Hx : x ∈ filter (fun j => j = i) syms) by (rewrite E; apply elem_of_cons; by left).
      apply list_elem_of_filter in Hx as [-> ?]. done.
    + intros Hi H. assert (Hx : i ∈ filter (fun j => j = i) syms) by (by apply list_elem_of_filter).
      destruct (filter (fun j => j = i) syms); [by apply not_elem_of_nil in Hx|done].
  - unfold syms. apply Forall_concat, Forall_fmap, Forall_true. intros d. simpl.
    eapply Forall_impl; [apply symbols_range|]. simpl. lia.
Qed.
End Freq_facts.

Lemma freq_histogram_witness :
  Freq.freq_main (Freq.MkFlags false true false false true) (fun _ => inr EOF) (str "aba") [] =
    Ret (str " 97 a        2" ++ [x0a] ++ str " 98 b        1" ++ [x0a]).
Proof.
  rewrite (freq_histogram (Freq.MkFlags false true false false true) (fun _ => inr EOF) (str "aba") [] []);
    [vm_compute; reflexivity|constructor|vm_compute; reflexivity].
Defined.
