(* ===== verification/SysCmds.v ===== *)
(** * Commands around system calls ([cmds/switch_root], [run/tempfile.go], [installcommand], [io], [mknod])

    Emptying and switching the root file system, names of temporary files, building and running a
    command, port access and device nodes.  The kernel, which may refuse any call, is a parameter. *)

From Stdlib Require Import Strings.String.
From stdpp Require Import gmap.
From S2P Require Export GoPath GoIO GoText Fs.

(** ** [switch_root] *)

Module SwitchRoot.

(** A file or directory and the type of the file system it is on; no links. *)
#[warnings="-register-all"]
Inductive node :=
| RFile (fs : Z)
| RDir (fs : Z) (entries : list (bytes * node)).

Definition node_fs (t : node) : Z := match t with RFile fs | RDir fs _ => fs end.

Section LittleDoctor.
Context (deny_open deny_remove : bytes -> option error) (fsType : Z).

(** [os.Remove]: what is left at the path. *)
Definition Remove (path : bytes) (t : node) : option node * option error :=
  match deny_remove path with
  | Some e => (Some t, Some e)
  | None => match t with RDir _ (_ :: _) => (Some t, Some (Errno 39)) | _ => (None, None) end
  end.

(** The loop over the entries of a directory: [path] itself is removed after every entry; once it is
    gone there are no entries left to visit.  [doctor] is [littleDoctor]. *)
Section Visit.
Context (doctor : bytes -> node -> option node * option error) (path : bytes) (fs : Z).

Fixpoint visit_entries (kept todo : list (bytes * node)) : option node * option error :=
  match todo with
  | [] => (Some (RDir fs kept), None)
  | (n, c) :: todo =>
      if bytes_eqb n (str ".") || bytes_eqb n (str "..") then visit_entries (kept ++ [(n, c)]) todo
      else
        let '(c', e) := doctor (PathJoin [path; n]) c in
        let kept := kept ++ match c' with Some c' => [(n, c')] | None => [] end in
        match e with
        | Some e => (Some (RDir fs (kept ++ todo)), Some e)
        | None =>
            match Remove path (RDir fs (kept ++ todo)) with
            | (None, _) => (None, None)
            | left_ => left_
            end
        end
  end.
End Visit.

(** [littleDoctor]: what is left at the path, and the error. *)
Fixpoint littleDoctor (path : bytes) (t : node) : option node * option error :=
  if negb (node_fs t =? fsType) then (Some t, None)
  else
    match deny_open path with
    | Some _ => (Some t, Some (Errorf "Could not open %s: %v"))
    | None =>
        match t with
        | RFile _ => Remove path t
        | RDir fs entries => visit_entries littleDoctor path fs [] entries
        end
    end.
End LittleDoctor.

(** The other calls of [SwitchRoot]. *)
Inductive root_call :=
| Chdir (dir : bytes)
| Statfs (path : bytes)
| MountMove (source target fstype : bytes)
| Chroot (dir : bytes)
| Mkdir (path : bytes)
| Mount (target fstype : bytes)
| Exec (path : bytes).

(** The root of the old file system, and the calls made. *)
Record sys := MkSys { root : option node; log : list root_call }.

Section SwitchRoot.
Context (deny_open deny_remove : bytes -> option error) (refuse : list root_call -> root_call -> option error).

Definition syscall (msg : string) (c : root_call) : M sys unit := fun s =>
  (MkSys (root s) (log s ++ [c]), match refuse (log s) c with None => Ret tt | Some _ => Fail (Errorf msg) end).

Definition doctor (msg : string) : M sys unit := fun s =>
  match root s with
  | None => (s, Fail (Errorf msg))
  | Some t =>
      let '(t', e) := littleDoctor deny_open deny_remove (node_fs t) (str "/") t in
      (MkSys t' (log s), match e with None => Ret tt | Some _ => Fail (Errorf msg) end)
  end.

Definition specialFS (msg : string) : M sys unit :=
  _ ← syscall msg (Mkdir (str "/proc"));
  _ ← syscall msg (Mkdir (str "/sys"));
  _ ← syscall msg (Mkdir (str "/dev"));
  _ ← syscall msg (Mount (str "/proc") (str "proc"));
  _ ← syscall msg (Mount (str "/sys") (str "sysfs"));
  syscall msg (Mount (str "/dev") (str "devtmpfs")).

Definition SwitchRoot (newRoot init : bytes) : M sys unit :=
  _ ← syscall "switch_root: failed change directory to new_root %v" (Chdir newRoot);
  _ ← syscall "switch_root: failed statfs %v" (Statfs (str "/"));
  _ ← doctor "switch_root: failed Deletion of rootfs %v";
  _ ← syscall "switch_root: fatal mount error %v" (MountMove (str ".") (str "/") (str "ext4"));
  _ ← syscall "switch_root: fatal chroot error %v" (Chroot (str "."));
  _ ← syscall "switch_root: failed change directory to '/' %v" (Chdir (str "/"));
  _ ← specialFS "switch_root: failed to create special files %v";
  syscall "switch_root: exec failed %v" (Exec init).

(** [main] after the flags: without arguments the usage is printed; a missing [init] crashes. *)
Definition switch_root_main (args : list bytes) : M sys unit :=
  match args with
  | [] => mret tt
  | [_] => lift Panic
  | new_root :: init :: _ => SwitchRoot new_root init
  end.
End SwitchRoot.
End SwitchRoot.

(** ** Temporary files ([run/tempfile.go]) *)

Module TempFile.

(** [nextSuffix]: the new value of [rand] and the suffix; [seed] is what [reseed] returns. *)
Definition nextSuffix (seed rand : Z) : Z * bytes :=
  let r := if rand =? 0 then seed else rand in
  let r := u32 (r * 1664525 + 1013904223) in
  (r, drop 1 (Itoa (1000000000 + r `mod` 1000000000))).

(** [fmt.Sprintf(format, suffix)] with one [%s], given by its two sides. *)
Definition format_name (format : bytes * bytes) (suffix : bytes) : bytes := format.1 ++ suffix ++ format.2.

Section TempFile.
(** [OpenFile] with [O_EXCL] on the [i]-th try: opened, already there, or another error. *)
Inductive open_result := Opened | Exists | OpenError (e : error).
Context (Open : nat -> bytes -> open_result) (reseed : nat -> Z).

(** The loop: [i] counts the tries and [last] is what the previous one left in [f] and [err]. *)
Fixpoint try_open (n i : nat) (dir : bytes) (format : bytes * bytes) (nconflict rand : Z) (last : outcome error bytes) :
    outcome error bytes :=
  match n with
  | O => last
  | S n =>
      let '(rand, suffix) := nextSuffix (u32 (reseed i)) rand in
      let name := PathJoin [dir; format_name format suffix] in
      match Open i name with
      | Opened => Ret name
      | OpenError e => Fail e
      | Exists =>
          let nconflict := nconflict + 1 in
          let rand := if 10 <? nconflict then u32 (reseed i) else rand in
          try_open n (S i) dir format nconflict rand (Fail (Errno 17))
      end
  end.

Definition TempFile (TempDir dir : bytes) (format : bytes * bytes) (rand : Z) : outcome error bytes :=
  let dir := if bytes_eqb dir [] then TempDir else dir in
  try_open (Z.to_nat 10000) 0 dir format 0 rand (Ret []).
End TempFile.
End TempFile.

(** ** [installcommand] *)

Module Installcommand.

Record form := MkForm {
  cmdName : bytes; cmdArgs : list bytes;
  lowPri : bool; ludicrous : bool; onlybuild : bool; noForce : bool; verbose : bool
}.

(** [parseCommandLine]: [flags] is what [flag.Parse] makes of the arguments, the five flags and the
    rest.  [Fail] is the usage with status 2. *)
Definition parseCommandLine (argv0 : bytes) (argv : list bytes) (flags : bool * bool * bool * bool * bool) (rest : list bytes) :
    outcome error form :=
  if negb (HasSuffix argv0 (str "installcommand")) then
    Ret (MkForm (Base argv0) argv false false false false false)
  else
    match rest with
    | [] => Fail (Errorf "Second form requires a COMMAND argument")
    | cmd :: args => let '(l, u, o, n, v) := flags in Ret (MkForm cmd args l u o n v)
    end.

Inductive install_action :=
| Setpriority
| Build (args : list bytes) (gogc : bool)  (** [go] with its arguments, and whether GOGC=400 is added *)
| Exec (path : bytes) (argv : list bytes)
| Run (path : bytes) (argv : list bytes).

(** How the program ends. *)
Inductive ending := Exit (status : Z) | Fatal (e : error) | Replaced.

Section Main.
(** The environment: files that exist, matches of a glob, variables, the results of builds, of
    [execve] (which returns only with an error) and of child processes. *)
Context (exists_ : bytes -> bool) (Glob : bytes -> list bytes + error) (noexec gogc_set : bool).
Context (build : list bytes -> option error) (execve : bytes -> list bytes -> option error).
Context (child : bytes -> list bytes -> Z + error).

Definition run_command (n : bytes) (f : form) : list install_action * ending :=
  let argv := cmdName f :: cmdArgs f in
  let via_child := ([Run n argv], match child n argv with inl status => Exit status | inr e => Fatal e end) in
  if noexec then via_child
  else
    match execve n argv with
    | None => ([Exec n argv], Replaced)
    | Some _ => let '(acts, e) := via_child in (Exec n argv :: acts, e)
    end.

Definition CmdsPath : bytes := str "github.com/u-root/u-root/cmds".

(** Where the source is. *)
Definition find_source (f : form) : bytes + error :=
  let src := PathJoin [str "/src"; CmdsPath; cmdName f] in
  if exists_ src then inl src
  else
    match Glob (PathJoin [str "/src/*/*/"; cmdName f]) with
    | inl (p :: _) => inl p
    | inl [] | inr _ => inr (Errorf "Can't find source code for %v (err %v)")
    end.

Definition installcommand (f : form) : list install_action * ending :=
  let pri := if lowPri f then [Setpriority] else [] in
  let destFile := PathJoin [str "/ubin"; cmdName f] in
  if exists_ destFile then
    if onlybuild f then (pri, Exit 0)
    else let '(acts, e) := run_command destFile f in (pri ++ acts, e)
  else
    match find_source f with
    | inr e => (pri, Fatal e)
    | inl src =>
        match Rel (str "/src") src with
        | None => (pri, Fatal (Errorf "Can't take rel of %v: %v"))
        | Some r =>
            let args := str "install" :: (if verbose f then [str "-x"] else []) ++ [r] in
            let acts := pri ++ [Build args (negb gogc_set)] in
            match build args with
            | Some e => (acts, Fatal e)
            | None =>
                if onlybuild f then (acts, Exit 0)
                else let '(acts', e) := run_command destFile f in (acts ++ acts', e)
            end
        end
    end.
End Main.
End Installcommand.

(** ** [io] *)

Module Io.

Record iod := MkIod { nargs : nat; valbits : Z; isIn : bool }.

Definition ios : list (bytes * iod) := [
  (str "inb", MkIod 2 8 true); (str "inw", MkIod 2 16 true); (str "inl", MkIod 2 32 true);
  (str "outb", MkIod 3 8 false); (str "outw", MkIod 3 16 false); (str "outl", MkIod 3 32 false)].

Definition width (i : iod) : nat := Z.to_nat (valbits i / 8).

(** [%#0wx] where [w] is the width: the digits filled up with zeros after the prefix. *)
Definition format (i : iod) (v : Z) : bytes :=
  let ds := TrimLeft (hex_encode (be_bytes (width i) v)) [x30] in
  let ds := if bytes_eqb ds [] then [x30] else ds in
  str "0x" ++ replicate (2 * width i - length ds) x30 ++ ds.

Section Main.
(** [/dev/port]: bytes read at an address, and the error of a write. *)
Context (read_port : Z -> nat -> bytes + error) (write_port : Z -> bytes -> option error).

(** [main]: the bytes written with their address, and the output.  The value that was parsed is
    assigned to the variable of the type switch; [out] is given the one of the table, zero. *)
Definition io_main (a : list bytes) : option (Z * bytes) * outcome error bytes :=
  match a with
  | [] => (None, Fail (Errorf "usage"))
  | verb :: rest =>
      match find (fun e => bytes_eqb e.1 verb) ios with
      | None => (None, Fail (Errorf "usage"))
      | Some (_, i) =>
          match rest with
          | address :: values =>
              if negb (length a =? nargs i)%nat then (None, Fail (Errorf "usage"))
              else
                match ParseUint0 address 16 with
                | (_, Some _) => (None, Fail (Errorf "Parsing address for %d bits: %v %v"))
                | (addr, None) =>
                    if isIn i then
                      (None, match read_port addr (width i) with
                             | inr e => Fail e
                             | inl b => Ret (format i (le_val b))
                             end)
                    else
                      match values with
                      | value :: _ =>
                          match ParseUint0 value (valbits i) with
                          | (_, Some _) => (None, Fail (Errorf "%v: %v"))
                          | (_, None) =>
                              let b := le_bytes (width i) 0 in
                              (Some (addr, b), match write_port addr b with Some e => Fail e | None => Ret [] end)
                          end
                      | [] => (None, Panic)
                      end
                end
          | [] => (None, Fail (Errorf "usage"))
          end
      end
  end.
End Main.
End Io.

(** ** [mknod] *)

Module Mknod.

Definition defaultPerms : Z := 0x1b0.
Definition S_IFIFO : Z := 0x1000.
Definition S_IFCHR : Z := 0x2000.
Definition S_IFBLK : Z := 0x6000.

Definition parseDevices (args : list bytes) : outcome error Z :=
  match args with
  | [_; _; major; minor] =>
      match ParseUint major 10 8 with
      | (_, Some _) => Fail (Errorf "major")
      | (major, None) =>
          match ParseUint minor 10 8 with
          | (_, Some _) => Fail (Errorf "minor")
          | (minor, None) => Ret (Z.lor (Z.shiftl major 8) minor)
          end
      end
  | _ => Fail (Errorf "device type %v requires a major and minor number")
  end.

(** [mknod] up to the call: the path, the mode and the device. *)
Definition mknod (a : list bytes) : outcome error (bytes * Z * Z) :=
  match a with
  | path :: devtype :: rest =>
      if negb ((length a =? 2)%nat || (length a =? 4)%nat) then Fail (Errorf "Usage: mknod path type [major minor]")
      else if bytes_eqb devtype (str "b") then
        dev ← parseDevices a; mret (path, Z.lor defaultPerms S_IFBLK, dev)
      else if bytes_eqb devtype (str "c") || bytes_eqb devtype (str "u") then
        dev ← parseDevices a; mret (path, Z.lor defaultPerms S_IFCHR, dev)
      else if bytes_eqb devtype (str "p") then
        if (length a =? 2)%nat then Ret (path, Z.lor defaultPerms S_IFIFO, 0)
        else Fail (Errorf "device type %v requires no other arguments")
      else Fail (Errorf "device type not recognized: %v")
  | _ => Fail (Errorf "Usage: mknod path type [major minor]")
  end.
End Mknod.

(** ** Facts about [switch_root] *)

Section SwitchRoot_facts.
Import SwitchRoot.
Context (fsType : Z).

Definition dot_name (n : bytes) : bool := bytes_eqb n (str ".") || bytes_eqb n (str "..").

(** A file of the file system, below directories that have it as their only entry. *)
Fixpoint chain (t : node) : Prop :=
  match t with
  | RFile fs => fs = fsType
  | RDir fs [(n, c)] => fs = fsType /\ dot_name n = false /\ chain c
  | RDir _ _ => False
  end.

Lemma node_nested_ind (P : node -> Prop) :
  (forall fs, P (RFile fs)) -> (forall fs es, Forall (fun e => P e.2) es -> P (RDir fs es)) -> forall t, P t.
Proof.
  intros HF HD. fix IH 1. intros [fs|fs es]; [apply HF|]. apply HD.
  induction es as [|[n c] es IHes]; constructor; [apply IH|exact IHes].
Qed.

(** A directory goes away only when its one entry did. *)
Lemma visit_removed deny_remove doctor path fs kept todo e :
  visit_entries deny_remove doctor path fs kept todo = (None, e) ->
  kept = [] /\ e = None /\ exists n c, todo = [(n, c)] /\ dot_name n = false /\ doctor (PathJoin [path; n]) c = (None, None).
Proof.
  revert kept. induction todo as [|[n c] todo IH]; intros kept H; [done|]. cbn [visit_entries] in H.
  fold (dot_name n) in H. destruct (dot_name n) eqn:Hn.
  - apply IH in H as (H & _). by destruct kept.
  - destruct (doctor (PathJoin [path; n]) c) as [c' [e'|]] eqn:Ed; [done|]. unfold Remove in H.
    destruct (deny_remove path); [done|]. destruct kept; [|by simpl in H]. destruct c'; [by simpl in H|]. destruct todo; [|by simpl in H].
    split; [done|]. split; [by injection H as <-|]. exists n, c. by rewrite Ed.
Qed.

(** When nothing is refused, exactly such chains are removed: [path] is removed in place of its
    entries, so a directory with no entry stays and one with several is an error. *)
Lemma littleDoctor_removes_chains path t :
  littleDoctor (fun _ => None) (fun _ => None) fsType path t = (None, None) <-> chain t.
Proof.
  revert path. induction t as [fs|fs es IH] using node_nested_ind; intros path; cbn [littleDoctor node_fs].
  - destruct (Z.eqb_spec fs fsType); done.
  - destruct (Z.eqb_spec fs fsType) as [->|Hne]; cbn [negb].
    + split.
      * intros H. apply visit_removed in H as (_ & _ & n & c & -> & Hn & Hc). apply Forall_cons in IH as [IH _].
        simpl. split; [done|]. split; [done|]. by apply IH in Hc.
      * destruct es as [|[n c] [|]]; try done. intros (_ & Hn & Hc). apply Forall_cons in IH as [IH _].
        cbn [visit_entries]. fold (dot_name n). rewrite Hn. by rewrite (proj2 (IH _) Hc).
    + split; [done|]. destruct es as [|[n c] [|]]; try done. by intros (? & _).
Qed.

(** The root directory cannot be removed, so emptying it ends with an error after its first entry. *)
Lemma littleDoctor_root deny_open deny_remove fs es :
  fs = fsType -> is_Some (deny_remove (str "/")) -> existsb (fun e => negb (dot_name e.1)) es = true ->
  exists t e, littleDoctor deny_open deny_remove fsType (str "/") (RDir fs es) = (Some t, Some e).
Proof.
  intros -> [er Her] Hes. cbn [littleDoctor node_fs]. rewrite Z.eqb_refl. cbn [negb]. destruct (deny_open (str "/")); [by eauto|].
  generalize (@nil (bytes * node)) as kept. induction es as [|[n c] es IH]; intros kept; [done|]. cbn [visit_entries].
  fold (dot_name n). cbn [existsb fst] in Hes. destruct (dot_name n); [by apply IH|].
  destruct (littleDoctor deny_open deny_remove fsType (PathJoin [str "/"; n]) c) as [c' [e'|]]; [by eauto|].
  unfold Remove. rewrite Her. by eauto.
Qed.
End SwitchRoot_facts.

Section Switch.
Import SwitchRoot.

Lemma syscall_log refuse msg c s s' r :
  syscall refuse msg c s = (s', r) -> root s' = root s /\ log s' = log s ++ [c].
Proof. unfold syscall. intros H. by injection H as <- <-. Qed.

(** [switch_root] never gets past the deletion of the old root: the kernel refuses to remove
    the root directory, which the loop over its entries asks for, so with any entry in it the
    command fails and nothing is mounted, no root changed and no program run. *)
Theorem switch_root_fails deny_open deny_remove refuse fs es l newRoot init s' r :
  is_Some (deny_remove (str "/")) -> existsb (fun e => negb (dot_name e.1)) es = true ->
  SwitchRoot deny_open deny_remove refuse newRoot init (MkSys (Some (RDir fs es)) l) = (s', r) ->
  (exists e, r = Fail e) /\ (log s' = l ++ [Chdir newRoot] \/ log s' = l ++ [Chdir newRoot; Statfs (str "/")]).
Proof.
  intros Hr Hes H. unfold SwitchRoot, mbind, M_bind in H. unfold syscall at 1 in H. cbn [log root] in H.
  destruct (refuse l (Chdir newRoot)); [injection H as <- <-; split; [eauto|by left]|].
  unfold syscall at 1 in H. cbn [log root] in H.
  assert (Hl : (l ++ [Chdir newRoot]) ++ [Statfs (str "/")] = l ++ [Chdir newRoot; Statfs (str "/")]) by (by rewrite <- app_assoc).
  destruct (refuse (l ++ [Chdir newRoot]) (Statfs (str "/"))); [injection H as <- <-; split; [eauto|by right]|].
  unfold doctor in H. cbn [log root node_fs] in H.
  destruct (littleDoctor_root fs deny_open deny_remove fs es eq_refl Hr Hes) as (t & e & E). rewrite E in H.
  injection H as <- <-. split; [eauto|by right].
Qed.

Lemma switch_root_fails_witness :
  let deny p := if bytes_eqb p (str "/") then Some (Errno 16) else None in
  exists e, (SwitchRoot (fun _ => None) deny (fun _ _ => None) (str "/new") (str "/init")
               (MkSys (Some (RDir 1 [(str "bin", RFile 1)])) [])).2 = Fail e.
Proof.
  intros deny. refine (proj1 (switch_root_fails (fun _ => None) deny (fun _ _ => None) 1 [(str "bin", RFile 1)] []
    (str "/new") (str "/init") _ _ _ _ (surjective_pairing _))); [by eexists|reflexivity].
Defined.

(** An empty directory below the root is an error as well. *)
Example littleDoctor_empty_dir :
  (littleDoctor (fun _ => None) (fun _ => None) 1 (str "/a") (RDir 1 [(str "b", RDir 1 [])])).2 = Some (Errno 39).
Proof. reflexivity. Qed.
End Switch.

(** ** Facts about temporary files *)

Section TempFile_facts.
Import TempFile.

Lemma Itoa_ten_digits z : 1000000000 <= z < 2000000000 -> exists ds, Itoa z = x31 :: ds /\ length ds = 9%nat /\ forallb is_digit ds = true.
Proof.
  intros Hz. unfold Itoa. destruct (Z.ltb_spec z 0); [lia|].
  assert (Hd : forall k q acc, (k < 10)%nat -> 10 ^ Z.of_nat k <= q < 10 ^ Z.of_nat (S k) -> forall fuel, (S k <= fuel)%nat ->
    exists ds, dec_digits fuel q acc = z2b (48 + q / 10 ^ Z.of_nat k) :: ds ++ acc /\ length ds = k /\ forallb is_digit ds = true).
  { induction k as [|k IH]; intros q acc Hk Hq [|fuel] Hf; try lia; cbn [dec_digits].
    - destruct (Z.ltb_spec q 10); [|simpl in Hq; lia]. exists []. split; [|done]. simpl. rewrite Z.mod_small, Z.div_1_r by lia. done.
    - rewrite !Nat2Z.inj_succ, !Z.pow_succ_r in Hq by lia.
      assert (0 < 10 ^ Z.of_nat k) by (apply Z.pow_pos_nonneg; lia). destruct (Z.ltb_spec q 10); [lia|].
      pose proof (Z.mod_pos_bound q 10 eq_refl) as Hm. pose proof (Z.div_mod q 10 ltac:(lia)) as Hdm.
      destruct (IH (q `div` 10) (z2b (48 + q `mod` 10) :: acc) ltac:(lia)) with (fuel := fuel) as (ds & E & Hl & Hds); [|lia|].
      + rewrite Nat2Z.inj_succ, Z.pow_succ_r by lia. lia.
      + exists (ds ++ [z2b (48 + q `mod` 10)]). rewrite E. split; [|split].
        * rewrite Nat2Z.inj_succ, Z.pow_succ_r, <- Z.div_div, <- app_assoc by lia. done.
        * rewrite length_app, Hl. simpl. lia.
        * rewrite forallb_app, Hds. simpl. by rewrite (proj1 (digit_byte _ Hm)). }
  destruct (Hd 9%nat z [] ltac:(lia) ltac:(simpl; lia) (S (Z.to_nat (Z.log2 z)))) as (ds & -> & Hl & Hds).
  { assert (9 <= Z.log2 z); [|lia]. apply Z.log2_le_pow2; lia. }
  exists ds. rewrite app_nil_r. split; [|done]. f_equal.
  replace (z / 10 ^ Z.of_nat 9) with 1; [reflexivity|]. apply Z.div_unique with (r := z - 1000000000); simpl; lia.
Qed.

(** A suffix has nine digits, and the generator stays within 32 bits. *)
Lemma nextSuffix_shape seed rand :
  let '(r, suffix) := nextSuffix seed rand in
  0 <= r < 2 ^ 32 /\ length suffix = 9%nat /\ forallb is_digit suffix = true.
Proof.
  unfold nextSuffix. set (r := u32 _). pose proof (u32_range ((if rand =? 0 then seed else rand) * 1664525 + 1013904223)) as Hr.
  fold r in Hr. split; [done|]. pose proof (Z.mod_pos_bound r 1000000000 eq_refl).
  destruct (Itoa_ten_digits (1000000000 + r `mod` 1000000000) ltac:(lia)) as (ds & -> & Hl & Hd). done.
Qed.

(** The name that is returned was opened exclusively, in the directory, with a suffix of nine digits
    in place of the verb; an error other than that a file exists ends the loop at once. *)
Lemma TempFile_name Open reseed TempDir dir format rand :
  match TempFile Open reseed TempDir dir format rand with
  | Ret name => exists i suffix, Open i name = Opened /\ length suffix = 9%nat /\ forallb is_digit suffix = true /\
      name = PathJoin [if bytes_eqb dir [] then TempDir else dir; format_name format suffix]
  | Fail e => e = Errno 17 \/ exists i name, Open i name = OpenError e
  | Panic => False
  end.
Proof.
  unfold TempFile. set (d := if bytes_eqb dir [] then TempDir else dir).
  assert (H : forall n i c r last, (n = 0%nat -> last = Fail (Errno 17)) ->
    match try_open Open reseed n i d format c r last with
    | Ret name => exists i suffix, Open i name = Opened /\ length suffix = 9%nat /\ forallb is_digit suffix = true /\
        name = PathJoin [d; format_name format suffix]
    | Fail e => e = Errno 17 \/ exists i name, Open i name = OpenError e
    | Panic => False
    end).
  { induction n as [|n IH]; intros i c r last Hl; cbn [try_open]; [rewrite Hl by done; by left|].
    pose proof (nextSuffix_shape (u32 (reseed i)) r) as Hs. destruct (nextSuffix (u32 (reseed i)) r) as [r' suffix].
    destruct Hs as (_ & Hs1 & Hs2). destruct (Open i (PathJoin [d; format_name format suffix])) eqn:E.
    - by exists i, suffix.
    - by apply IH.
    - right. eauto. }
  apply H. intros E. vm_compute in E. discriminate.
Qed.
End TempFile_facts.

(** ** Facts about [installcommand] *)

Section Installcommand_facts.
Import Installcommand.
Context (exists_ : bytes -> bool) (Glob : bytes -> list bytes + error) (noexec gogc_set : bool).
Context (build : list bytes -> option error) (execve : bytes -> list bytes -> option error).
Context (child : bytes -> list bytes -> Z + error).
Abbreviation install := (installcommand exists_ Glob noexec gogc_set build execve child).

Definition is_build (a : install_action) : bool := match a with Build _ _ => true | _ => false end.
Definition is_run (a : install_action) : bool := match a with Exec _ _ | Run _ _ => true | _ => false end.

(** The program is built at most once and only when it is not there; every program that is run is
    the destination, under the name and with the arguments of the command line; with [-onlybuild]
    nothing is run, and otherwise the destination is run unless the command ends with an error. *)
Lemma installcommand_plan f :
  let '(acts, e) := install f in
  let dest := PathJoin [str "/ubin"; cmdName f] in
  (length (filter (fun a => is_build a = true) acts) <= 1)%nat /\
  (exists_ dest = true -> filter (fun a => is_build a = true) acts = []) /\
  Forall (fun a => match a with Exec p argv | Run p argv => p = dest /\ argv = cmdName f :: cmdArgs f | _ => True end) acts /\
  (onlybuild f = true -> Forall (fun a => is_run a = false) acts) /\
  (onlybuild f = false -> Exists (fun a => is_run a = true) acts \/ exists e', e = Fatal e').
Proof.
  unfold installcommand. set (dest := PathJoin [str "/ubin"; cmdName f]). set (pri := if lowPri f then [Setpriority] else []).
  assert (Hp : pri = [] \/ pri = [Setpriority]) by (unfold pri; destruct (lowPri f); auto).
  assert (Hrun : exists acts e, run_command noexec execve child dest f = (acts, e) /\ filter (fun a => is_build a = true) acts = [] /\
    Forall (fun a => match a with Exec p argv | Run p argv => p = dest /\ argv = cmdName f :: cmdArgs f | _ => True end) acts /\
    Exists (fun a => is_run a = true) acts).
  { unfold run_command. destruct noexec; [|destruct (execve dest (cmdName f :: cmdArgs f))]; eexists _, _; (split; [reflexivity|]);
      (split; [reflexivity|]); (split; [by repeat constructor|by left]). }
  destruct Hrun as (ra & re & -> & Hb & Hf & He).
  assert (Hpri : filter (fun a => is_build a = true) pri = [] /\
    Forall (fun a => match a with Exec p argv | Run p argv => p = dest /\ argv = cmdName f :: cmdArgs f | _ => True end) pri /\
    Forall (fun a => is_run a = false) pri) by (destruct Hp as [-> | ->]; by repeat constructor).
  destruct Hpri as (Hp1 & Hp2 & Hp3). clearbody pri. destruct (exists_ dest) eqn:Ed.
  - destruct (onlybuild f).
    + rewrite Hp1. by repeat split; simpl; try lia.
    + rewrite filter_app, Hp1, Hb. split; [simpl; lia|]. split; [done|]. split; [by apply Forall_app|]. split; [done|].
      intros _. left. by apply Exists_app; right.
  - destruct (find_source exists_ Glob f) as [src|e]; [|rewrite Hp1; repeat split; simpl; try lia; try done; eauto].
    destruct (Rel (str "/src") src) as [r|]; [|rewrite Hp1; repeat split; simpl; try lia; try done; eauto].
    destruct (build _); [|destruct (onlybuild f)]; rewrite ?filter_app, ?Hp1, ?Hb; (split; [simpl; lia|]); (split; [done|]);
      rewrite ?Forall_app, ?Exists_app; repeat split; try done; eauto; by repeat constructor.
Qed.
End Installcommand_facts.

(** ** Facts about [io] and [mknod] *)

(** Whatever value the command line gives, zero is written. *)
Lemma io_out_writes_zero read_port write_port a addr b r :
  Io.io_main read_port write_port a = (Some (addr, b), r) -> Forall (fun c => c = x00) b.
Proof.
  intros H. unfold Io.io_main in H. destruct a as [|verb rest]; [done|].
  destruct (find _ Io.ios) as [[? i]|]; [|done]. destruct rest as [|address values]; [done|].
  destruct (negb _); [done|]. destruct (ParseUint0 address 16) as [ad [?|]]; [done|]. destruct (Io.isIn i); [done|].
  destruct values as [|value ?]; [done|]. destruct (ParseUint0 value (Io.valbits i)) as [? [?|]]; [done|].
  assert (Hz : forall n, Forall (fun c => c = x00) (le_bytes n 0)).
  { induction n as [|n IH]; [constructor|]. cbn [le_bytes]. constructor; [reflexivity|exact IH]. }
  injection H as _ <- _. apply Hz.
Qed.

Example io_ex :
  Io.io_main (fun _ _ => inl [x05]) (fun _ _ => None) [str "inb"; str "0x60"] = (None, Ret (str "0x05")) /\
  Io.io_main (fun _ _ => inl []) (fun _ _ => None) [str "outb"; str "0x60"; str "0xff"] = (Some (0x60, [x00]), Ret []).
Proof. split; vm_compute; reflexivity. Qed.

Lemma ParseUint_Itoa z bits : 0 <= z < 2 ^ bits -> ParseUint (Itoa z) 10 bits = (z, None).
Proof. intros Hz. destruct (Itoa_spec z ltac:(lia)) as (c & ds & -> & _ & Hp). apply Hp. lia. Qed.

(** The device of a node is its two numbers, each of eight bits. *)
Lemma mknod_device path (block : bool) major minor :
  0 <= major < 2 ^ 8 -> 0 <= minor < 2 ^ 8 ->
  Mknod.mknod [path; str (if block then "b" else "c"); Itoa major; Itoa minor] =
    Ret (path, Z.lor Mknod.defaultPerms (if block then Mknod.S_IFBLK else Mknod.S_IFCHR), major * 256 + minor).
Proof.
  intros Hma Hmi. unfold Mknod.mknod, Mknod.parseDevices.
  rewrite !ParseUint_Itoa by done.
  rewrite (lor_shift major minor 8) by lia. by destruct block.
Qed.
