(* ===== verification/Boot.v ===== *)
(** * Starting up ([uroot/root.go], [cmds/init])

    The root file system and the environment that [uroot.Rootfs] makes, the start-up sequence of
    [init] and the background build.  What happens is a list of calls; the kernel may refuse any of
    them, and the code carries on.  Loops over Go maps and [sort.Sort] run in an order that is a
    parameter. *)

From Stdlib Require Import Strings.String.
From stdpp Require Import gmap.
From S2P Require Export GoPath GoText.

(** ** Calls *)

Inductive bcall :=
| BMkdirAll (name : bytes) (mode : Z)
| BWriteFile (name contents : bytes) (mode : Z)
| BRemove (name : bytes)
| BSymlink (old new : bytes)
| BLink (old new : bytes)
| BMknod (name : bytes) (mode dev : Z)
| BMount (source target fstype : bytes) (flags : Z) (opts : bytes)
| BSetenv (key value : bytes)
| BRun (argv : list bytes) (env : list bytes) (newpid setctty : bool)
| BSyslog
| BSync.

(** The calls made, and the files written. *)
Record world := MkWorld { log : list bcall; files : gmap bytes bytes }.

Section Boot.
Context (refuse : list bcall -> bcall -> option error).

(** A call whose error is returned. *)
Definition sys (c : bcall) (w : world) : world * option error :=
  match refuse (log w) c with
  | Some e => (MkWorld (log w ++ [c]) (files w), Some e)
  | None =>
      (MkWorld (log w ++ [c]) (match c with BWriteFile n d _ => <[n := d]> (files w) | _ => files w end), None)
  end.

(** A call whose error is only logged, or ignored. *)
Definition attempt (c : bcall) (w : world) : world := (sys c w).1.

(** ** [uroot/root.go] *)

Definition PATHHEAD : bytes := str "/ubin".
Definition PATHMID : bytes := str "/usr/sbin:/usr/bin:/sbin:/bin:/usr/local/bin:/usr/local/sbin".
Definition PATHTAIL : bytes := str "/buildbin".
Definition CmdsPath : bytes := str "github.com/u-root/u-root/cmds".

Inductive Creator :=
| Dir (Name : bytes) (Mode : Z)
| File (Name Contents : bytes) (Mode : Z)
| Symlink (Target Linkpath : bytes)
| Link (Oldpath Newpath : bytes)
| Dev (Name : bytes) (Mode Dev : Z)
| Mount (Source Target FSType : bytes) (Flags : Z) (Opts : bytes).

(** The method [Create] of each type; the error of [os.Remove] is ignored. *)
Definition Create (c : Creator) (w : world) : world * option error :=
  match c with
  | Dir n m => sys (BMkdirAll n m) w
  | File n d m => sys (BWriteFile n d m) w
  | Symlink t l => sys (BSymlink l t) (attempt (BRemove t) w)
  | Link o n => sys (BLink o n) (attempt (BRemove n) w)
  | Dev n m d => sys (BMknod n m d) (attempt (BRemove n) w)
  | Mount s t f fl o => sys (BMount s t f fl o) w
  end.

Definition S_IFCHR : Z := 0x2000.
Definition MS_MGC_VAL : Z := 0xc0ed0000.

Definition env : list (bytes * bytes) := [
  (str "LD_LIBRARY_PATH", str "/usr/local/lib"); (str "GOROOT", str "/go"); (str "GOPATH", str "/");
  (str "GOBIN", str "/ubin"); (str "CGO_ENABLED", str "0")].

Definition namespace : list Creator := [
  Dir (str "/proc") 0x16d; Dir (str "/sys") 0x16d; Dir (str "/buildbin") 0x1ff; Dir (str "/ubin") 0x1ff;
  Dir (str "/tmp") 0x1ff; Dir (str "/env") 0x1ff; Dir (str "/etc") 0x1ff; Dir (str "/tcz") 0x1ff;
  Dir (str "/dev") 0x1ff; Dir (str "/lib") 0x1ff; Dir (str "/usr/lib") 0x1ff; Dir (str "/go/pkg/linux_amd64") 0x1ff;
  Dev (str "/dev/tty") (Z.lor S_IFCHR 0x1b6) 0x500; Dev (str "/dev/urandom") (Z.lor S_IFCHR 0x124) 0x109;
  Dev (str "/dev/port") (Z.lor S_IFCHR 0x1a0) 0x104;
  Mount (str "proc") (str "/proc") (str "proc") MS_MGC_VAL []; Mount (str "sys") (str "/sys") (str "sysfs") MS_MGC_VAL [];
  Mount (str "cgroup") (str "/sys/fs/cgroup") (str "tmpfs") MS_MGC_VAL [];
  Mount (str "none") (str "/tmp") (str "tmpfs") MS_MGC_VAL [];
  Mount (str "none") (str "/dev") (str "devtmpfs") MS_MGC_VAL [];
  Dir (str "/dev/pts") 0x1ff;
  Mount (str "none") (str "/dev/pts") (str "devpts") MS_MGC_VAL (str "newinstance,ptmxmode=666,gid=5,mode=620");
  Symlink (str "/dev/ptmx") (str "/dev/pts/ptmx");
  File (str "/etc/resolv.conf") (str "nameserver 8.8.8.8") 0x1a4;
  Dir (str "/sys/fs/cgroup/memory") 0x16d; Dir (str "/sys/fs/cgroup/freezer") 0x16d;
  Dir (str "/sys/fs/cgroup/devices") 0x16d; Dir (str "/sys/fs/cgroup/cpu,cpuacct") 0x16d;
  Symlink (str "/sys/fs/cgroup/cpu") (str "/sys/fs/cgroup/cpu,cpuacct");
  Symlink (str "/sys/fs/cgroup/cpuacct") (str "/sys/fs/cgroup/cpu,cpuacct");
  Mount (str "cgroup") (str "/sys/fs/cgroup/memory") (str "cgroup") MS_MGC_VAL (str "memory");
  Mount (str "cgroup") (str "/sys/fs/cgroup/freezer") (str "cgroup") MS_MGC_VAL (str "freezer");
  Mount (str "cgroup") (str "/sys/fs/cgroup/devices") (str "cgroup") MS_MGC_VAL (str "devices");
  Mount (str "cgroup") (str "/sys/fs/cgroup/cpu,cpuacct") (str "cgroup") MS_MGC_VAL (str "cpu,cpuacct")].

Definition ToLower (s : bytes) : bytes :=
  (fun c => if (65 <=? b2z c) && (b2z c <=? 90) then z2b (b2z c + 32) else c) <$> s.

(** The two names in the path of the go tool; [mach[0:3]] crashes on a shorter name. *)
Definition go_names (Uname : bytes * bytes + error) : outcome error (bytes * bytes) :=
  match Uname with
  | inr _ => Ret (str "linux", str "amd64")
  | inl (sysname, machine) =>
      let uname := ToLower sysname in
      let mach := ToLower machine in
      head3 ← or_panic (slice mach 0 3);
      let mach := if bytes_eqb head3 (str "arm") then str "arm" else mach in
      let mach := if bytes_eqb mach (str "x86_64") then str "amd64" else mach in
      Ret (uname, mach)
  end.

Definition goPath (uname mach : bytes) : bytes :=
  let um := uname ++ str "_" ++ mach in
  str "/go/bin/" ++ um ++ str ":/go/bin:/go/pkg/tool/" ++ um.

(** [env["PATH"] = ...]. *)
Definition with_PATH (path : bytes) : list (bytes * bytes) := env ++ [(str "PATH", path)].

Definition colons (l : list bytes) : bytes := Join (str ":") l.

(** The orders in which the two loops over [env] run. *)
Context (range1 range2 : list (bytes * bytes) -> list (bytes * bytes)).

Definition create_all (cs : list Creator) (w : world) : world := foldl (fun w c => (Create c w).1) w cs.

(** [Rootfs]: the world, [Envs] and [Profile]. *)
Definition Rootfs (Uname : bytes * bytes + error) (w : world) : world * outcome error (list bytes * bytes) :=
  match go_names Uname with
  | Fail e => (w, Fail e)
  | Panic => (w, Panic)
  | Ret (uname, mach) =>
      let gp := goPath uname mach in
      let vars := range1 (with_PATH (colons [gp; PATHHEAD; PATHMID; PATHTAIL])) in
      let w := foldl (fun w '(k, v) => attempt (BSetenv k v) w) w vars in
      let Envs := (fun '(k, v) => k ++ str "=" ++ v) <$> vars in
      let exports := range2 (with_PATH (colons [gp; PATHHEAD; str "$PATH"; PATHTAIL])) in
      let Profile :=
        concat ((fun '(k, v) => str "export " ++ k ++ str "=" ++ v ++ [x0a]) <$> exports) ++
        str "IFS=`hash -r`" ++ [x0a] ++
        str "sudo mount -t tmpfs none /go/pkg/" ++ uname ++ str "_" ++ mach ++ [x0a] ++
        str "sudo mount -t tmpfs none /ubin" ++ [x0a] ++ str "sudo mount -t tmpfs none /pkg" ++ [x0a] in
      (create_all namespace w, Ret (Envs, Profile))
  end.

(** ** [cmds/init] *)

(** Files that exist, whether [/etc/profile.d] is a directory, and the matches of the two globs. *)
Context (exists_ : bytes -> bool) (profile_d : bool) (cmds others : list bytes) (verbose test_mode : bool).

(** The loop that links the commands to [installcommand]. *)
Definition link_command (w : world) (v : bytes) : world :=
  let name := Base v in
  if bytes_eqb name (str "installcommand") || bytes_eqb name (str "init") then w
  else attempt (BSymlink (str "/buildbin/installcommand") (PathJoin [str "/buildbin"; name])) w.

(** One variable in [/env]; without an equals sign the value is empty. *)
Definition write_env (w : world) (e : bytes) : world :=
  match SplitN x3d 2 e with
  | nv0 :: rest => attempt (BWriteFile (PathJoin [str "/env"; nv0]) (match rest with nv1 :: _ => nv1 | [] => [] end) 0x1b6) w
  | [] => w
  end.

Definition cmdList : list bytes := str <$> ["/inito"; "/buildbin/uinit"; "/buildbin/rush"]%string.

(** The loop over [cmdList]; only the first position has its own process identifiers. *)
Fixpoint run_inits (envs : list bytes) (newpid : bool) (l : list bytes) (w : world) : world :=
  match l with
  | [] => w
  | v :: l =>
      let w := if exists_ v then attempt (BRun [v] envs newpid (negb test_mode)) w else w in
      run_inits envs false l w
  end.

(** [main] after the flags; the background build runs beside it. *)
Definition init_main (Uname : bytes * bytes + error) (w : world) : world * outcome error unit :=
  match Rootfs Uname w with
  | (w, Fail e) => (w, Fail e)
  | (w, Panic) => (w, Panic)
  | (w, Ret (envs, profile)) =>
      let a := str "build" :: (if verbose then [str "-x"] else []) in
      let w := foldl link_command w (cmds ++ others) in
      let w := attempt (BSetenv (str "GOBIN") (str "/buildbin")) w in
      let a := a ++ [str "-o"; str "/buildbin/installcommand"; PathJoin [CmdsPath; str "installcommand"]] in
      let w := attempt (BRun (str "go" :: a) (envs ++ [str "GOBIN=/buildbin"]) false false) w in
      let w := attempt BSyslog w in
      let w := attempt (BSetenv (str "GOBIN") (str "/ubin")) w in
      let envs := envs ++ [str "GOBIN=/ubin"] in
      let w := foldl write_env w envs in
      let w := if profile_d then attempt (BWriteFile (str "/etc/profile.d/uroot.sh") profile 0x1a4) w else w in
      let w := run_inits envs true cmdList w in
      (attempt BSync w, Ret tt)
  end.
End Boot.

(** ** The background build ([bgbuild.go]) *)

(** [cmdlineContainsFlag] on the contents of [/proc/cmdline]. *)
Definition cmdlineContainsFlag (cmdline : bytes + error) (flag : bytes) : bool :=
  match cmdline with
  | inr _ => false
  | inl c => existsb (fun a => bytes_eqb a flag) (Split x20 c)
  end.

Definition isBgBuildEnabled (cmdline : bytes + error) : bool := negb (cmdlineContainsFlag cmdline (str "uroot.nobgbuild")).

(** [sort.Sort] by the length of the names, in any order among equal lengths. *)
Definition shorter (a b : bytes) : Prop := (length a <= length b)%nat.

(** The arguments a worker gives to [installcommand]. *)
Definition worker_args (cmdName : bytes) : list bytes := [str "--onlybuild"; str "--noforce"; str "--lowpri"; cmdName].

(** The names still to be sent and the one each worker is building. *)
Record build_state := MkBuild { to_send : list bytes; workers : list (option bytes); started : list bytes }.

(** A worker that waits receives the next name; a worker that builds finishes, with or without an
    error. *)
Inductive build_step : build_state -> build_state -> Prop :=
| build_recv n ns ws1 ws2 done_ :
    build_step (MkBuild (n :: ns) (ws1 ++ None :: ws2) done_) (MkBuild ns (ws1 ++ Some n :: ws2) (done_ ++ [n]))
| build_finish ns ws1 n ws2 done_ :
    build_step (MkBuild ns (ws1 ++ Some n :: ws2) done_) (MkBuild ns (ws1 ++ None :: ws2) done_).

Definition startBgBuild (cpus : nat) (sorted : list bytes) : build_state := MkBuild sorted (replicate cpus None) [].

(** ** Facts about calls *)

Section Boot_facts.
Context (refuse : list bcall -> bcall -> option error).
Abbreviation try_call := (attempt refuse).

Lemma attempt_log c w : log (try_call c w) = log w ++ [c].
Proof. unfold attempt, sys. by destruct (refuse (log w) c). Qed.

(** The calls of a step, whatever the kernel answers. *)
Definition calls_of (c : Creator) : list bcall :=
  match c with
  | Dir n m => [BMkdirAll n m]
  | File n d m => [BWriteFile n d m]
  | Symlink t l => [BRemove t; BSymlink l t]
  | Link o n => [BRemove n; BLink o n]
  | Dev n m d => [BRemove n; BMknod n m d]
  | Mount s t f fl o => [BMount s t f fl o]
  end.

Lemma Create_log c w : log (Create refuse c w).1 = log w ++ calls_of c.
Proof.
  destruct c; cbn [Create calls_of]; change ((sys refuse ?a ?b).1) with (try_call a b); rewrite !attempt_log;
    by rewrite <- ?app_assoc.
Qed.

(** [Rootfs] asks for everything in its table, in order, whatever is refused on the way. *)
Lemma create_all_log cs w : log (create_all refuse cs w) = log w ++ concat (calls_of <$> cs).
Proof.
  unfold create_all. revert w. induction cs as [|c cs IH]; intros w; cbn [foldl fmap list_fmap concat]; [by rewrite app_nil_r|].
  by rewrite IH, Create_log, <- app_assoc.
Qed.

(** ** The order of the table *)

(** Directories and mounts above a path that an earlier entry has made. *)
Definition provides (c : Creator) (p : bytes) : bool :=
  match c with
  | Dir n _ => bytes_eqb p n || HasPrefix n (p ++ str "/")
  | Mount _ t _ _ _ => bytes_eqb p t || HasPrefix p (t ++ str "/")
  | _ => false
  end.

(** What has to be there before an entry can be made. *)
Definition requires (c : Creator) : bytes :=
  match c with
  | Dir n _ => str "/"
  | File n _ _ | Dev n _ _ => GoPath.Dir n
  | Symlink t _ => GoPath.Dir t
  | Link _ n => GoPath.Dir n
  | Mount _ t _ _ _ => t
  end.

Fixpoint ordered (before cs : list Creator) : bool :=
  match cs with
  | [] => true
  | c :: cs => (bytes_eqb (requires c) (str "/") || existsb (fun b => provides b (requires c)) before) && ordered (before ++ [c]) cs
  end.

(** Every mount point, and the directory of every device, link and file, is made by an earlier entry
    of the table or lies below an earlier mount. *)
Lemma namespace_ordered : ordered [] namespace = true.
Proof. vm_compute. reflexivity. Qed.

(** ** The environment in [/env] *)

Definition accepts_env : Prop := forall h n d m, refuse h (BWriteFile n d m) = None.

Lemma SplitN_assignment k v : x3d ∉ k -> SplitN x3d 2 (k ++ str "=" ++ v) = [k; v].
Proof.
  intros Hk. change (k ++ str "=" ++ v) with (k ++ x3d :: v). cbn [SplitN]. rewrite Split_app by done.
  destruct (Split x3d v) eqn:E; [by apply Split_nonempty in E|]. f_equal. f_equal.
  rewrite drop_app_ge by lia. by replace (S (length k) - length k)%nat with 1%nat by lia.
Qed.

Lemma write_env_files w k v :
  accepts_env -> x3d ∉ k -> files (write_env refuse w (k ++ str "=" ++ v)) = <[PathJoin [str "/env"; k] := v]> (files w).
Proof. intros Ha Hk. unfold write_env. rewrite SplitN_assignment by done. unfold attempt, sys. by rewrite Ha. Qed.

Definition assignment (kv : bytes * bytes) : bytes := kv.1 ++ str "=" ++ kv.2.

(** After all variables are written a file holds the value, if all that are written to it agree. *)
Lemma write_envs_files vars w p v :
  accepts_env -> Forall (fun kv : bytes * bytes => x3d ∉ kv.1) vars ->
  (forall kv, kv ∈ vars -> PathJoin [str "/env"; kv.1] = p -> kv.2 = v) ->
  (exists kv, kv ∈ vars /\ PathJoin [str "/env"; kv.1] = p) \/ files w !! p = Some v ->
  files (foldl (write_env refuse) w (assignment <$> vars)) !! p = Some v.
Proof.
  intros Ha Hv. revert w. induction Hv as [|[k x] vars Hk _ IH]; intros w Hsame Hin; cbn [fmap list_fmap foldl].
  - destruct Hin as [(kv & Hkv & _)|?]; [by apply not_elem_of_nil in Hkv|done].
  - apply IH; [intros kv Hkv; apply Hsame; by apply elem_of_cons; right|].
    change (assignment (k, x)) with (k ++ str "=" ++ x). rewrite write_env_files by done.
    destruct (decide (PathJoin [str "/env"; k] = p)) as [E|E].
    + right. rewrite <- E, lookup_insert_eq. f_equal. apply (Hsame (k, x)); [by apply elem_of_cons; left|done].
    + destruct Hin as [(kv & [->|Hkv]%elem_of_cons & Hp)|Hin]; [done|left; eauto|right; by rewrite lookup_insert_ne].
Qed.

Lemma run_inits_files exists_ test_mode envs np l w : files (run_inits refuse exists_ test_mode envs np l w) = files w.
Proof.
  revert np w. induction l as [|v l IH]; intros np w; cbn [run_inits]; [done|]. rewrite IH. destruct (exists_ v); [|done].
  unfold attempt, sys. by destruct (refuse _ _).
Qed.

Lemma attempt_files c w : (forall n d m, c <> BWriteFile n d m) -> files (try_call c w) = files w.
Proof. intros H. unfold attempt, sys. destruct (refuse _ _); [done|]. destruct c; try done. by edestruct H. Qed.

Definition var_names : list bytes := (with_PATH []).*1.

Lemma with_PATH_names path : (with_PATH path).*1 = var_names.
Proof. done. Qed.

Lemma var_paths_distinct : NoDup ((fun k => PathJoin [str "/env"; k]) <$> var_names).
Proof. apply (bool_decide_eq_true_1 _). vm_compute. reflexivity. Qed.

Lemma var_names_plain : Forall (fun k => x3d ∉ k) var_names.
Proof. apply (bool_decide_eq_true_1 _). vm_compute. reflexivity. Qed.

(** Two variables with the same file are the same variable with the same value. *)
Lemma var_path_inj path kv kv' :
  kv ∈ with_PATH path -> kv' ∈ with_PATH path -> PathJoin [str "/env"; kv.1] = PathJoin [str "/env"; kv'.1] -> kv = kv'.
Proof.
  intros H1 H2 E. apply list_elem_of_lookup_1 in H1 as [i Hi], H2 as [j Hj].
  pose proof var_paths_distinct as Hn. rewrite <- (with_PATH_names path), <- list_fmap_compose in Hn.
  assert (i = j); [|congruence]. eapply NoDup_lookup; [exact Hn| |].
  - by rewrite list_lookup_fmap, Hi.
  - rewrite list_lookup_fmap, Hj. unfold fmap, option_fmap, option_map, compose. by rewrite E.
Qed.

(** ** The programs that are run *)

Definition is_brun (c : bcall) : bool := match c with BRun _ _ _ _ => true | _ => false end.
Definition runs_of (w : world) : list bcall := filter (fun c => is_brun c = true) (log w).

Lemma attempt_runs c w : runs_of (try_call c w) = runs_of w ++ (if is_brun c then [c] else []).
Proof. unfold runs_of. rewrite attempt_log, filter_app. f_equal. by destruct c. Qed.

Lemma quiet_attempt c w : is_brun c = false -> runs_of (try_call c w) = runs_of w.
Proof. intros H. by rewrite attempt_runs, H, app_nil_r. Qed.

Lemma fold_keeps {A B} (g : world -> B) (f : world -> A -> world) l w : (forall w a, g (f w a) = g w) -> g (foldl f w l) = g w.
Proof. intros H. revert w. induction l as [|a l IH]; intros w; [done|]. cbn [foldl]. by rewrite IH, H. Qed.

Lemma Create_runs c w : runs_of (Create refuse c w).1 = runs_of w.
Proof.
  unfold runs_of. rewrite Create_log, filter_app. rewrite <- (app_nil_r (filter _ (log w))) at 2. f_equal. by destruct c.
Qed.

Lemma write_env_runs w e : runs_of (write_env refuse w e) = runs_of w.
Proof. unfold write_env. destruct (SplitN x3d 2 e); [done|]. by apply quiet_attempt. Qed.

Lemma link_command_runs w v : runs_of (link_command refuse w v) = runs_of w.
Proof. unfold link_command. destruct (_ || _); [done|]. by apply quiet_attempt. Qed.

Lemma Rootfs_runs range1 range2 Uname w : runs_of (Rootfs refuse range1 range2 Uname w).1 = runs_of w.
Proof.
  unfold Rootfs. destruct (go_names Uname) as [[u m]|e|]; [|done|done]. cbn [fst]. unfold create_all.
  rewrite (fold_keeps runs_of) by (intros; apply Create_runs). apply (fold_keeps runs_of). intros w' [k v]. by apply quiet_attempt.
Qed.

(** The programs of [cmdList] that exist, in order. *)
Definition inits (exists_ : bytes -> bool) (test_mode : bool) (envs : list bytes) : list bcall :=
  (fun '(v, np) => BRun [v] envs np (negb test_mode)) <$>
    filter (fun x => exists_ x.1 = true) (zip cmdList [true; false; false]).

Lemma run_inits_runs exists_ test_mode envs w :
  runs_of (run_inits refuse exists_ test_mode envs true cmdList w) = runs_of w ++ inits exists_ test_mode envs.
Proof.
  assert (H : forall l nps np w, length nps = length l -> Forall (fun b => b = false) nps ->
    runs_of (run_inits refuse exists_ test_mode envs np l w) =
      runs_of w ++ ((fun '(v, np) => BRun [v] envs np (negb test_mode)) <$>
        filter (fun x => exists_ x.1 = true) (zip l (match l with [] => [] | _ => np :: tail nps end)))).
  { induction l as [|v l IH]; intros [|b nps] np w' Hl Hf; try done; cbn [run_inits].
    - by rewrite app_nil_r.
    - simpl in Hl. apply Forall_cons in Hf as [-> Hf]. rewrite (IH nps) by (lia || done). cbn [tail zip_with]. rewrite filter_cons.
      replace (zip l match l with [] => [] | _ => false :: tail nps end) with (zip l nps).
      2: { destruct l, nps; try done. by apply Forall_cons in Hf as [-> _]. }
      cbn [fst]. destruct (exists_ v); cbn [decide]; [|by rewrite decide_False].
      rewrite decide_True by done. rewrite attempt_runs. cbn [is_brun]. by rewrite <- app_assoc. }
  rewrite (H cmdList [false; false; false]); [done|done|by repeat constructor].
Qed.
End Boot_facts.

(** The value of [PATH]. *)
Definition init_path (uname mach : bytes) : bytes := colons [goPath uname mach; PATHHEAD; PATHMID; PATHTAIL].

(** The loop over the environment: every variable is in its file. *)
Lemma init_env_written refuse path vars w k v :
  accepts_env refuse -> vars ≡ₚ with_PATH path -> (k, v) ∈ with_PATH path ->
  files (foldl (write_env refuse) w ((assignment <$> vars) ++ [str "GOBIN=/ubin"])) !! PathJoin [str "/env"; k] = Some v.
Proof.
  intros Ha Hp Hin.
  assert (Hall : (assignment <$> vars) ++ [str "GOBIN=/ubin"] = assignment <$> (vars ++ [(str "GOBIN", str "/ubin")]))
    by (by rewrite fmap_app).
  assert (HG : (str "GOBIN", str "/ubin") ∈ with_PATH path) by (do 3 right; left).
  assert (Hsub : forall kv, kv ∈ vars ++ [(str "GOBIN", str "/ubin")] -> kv ∈ with_PATH path).
  { intros kv [Hkv|Hkv]%elem_of_app; [by rewrite Hp in Hkv|]. by apply list_elem_of_singleton in Hkv as ->. }
  rewrite Hall. apply write_envs_files; [done| | |].
  - apply Forall_forall. intros kv Hkv. pose proof var_names_plain as Hn. rewrite Forall_forall in Hn. apply Hn.
    rewrite <- (with_PATH_names path). by apply list_elem_of_fmap_2, Hsub.
  - intros kv Hkv Ek. by rewrite (var_path_inj path kv (k, v) (Hsub _ Hkv) Hin Ek).
  - left. exists (k, v). split; [|done]. apply elem_of_app. left. by rewrite Hp.
Qed.

Lemma profile_not_env path k v : (k, v) ∈ with_PATH path -> str "/etc/profile.d/uroot.sh" <> PathJoin [str "/env"; k].
Proof.
  intros Hin. assert (Hk : k ∈ var_names) by (rewrite <- (with_PATH_names path); by apply (list_elem_of_fmap_2 fst _ (k, v))).
  assert (Hne : Forall (fun k => str "/etc/profile.d/uroot.sh" <> PathJoin [str "/env"; k]) var_names)
    by (apply (bool_decide_eq_true_1 _); vm_compute; reflexivity).
  rewrite Forall_forall in Hne. by apply (Hne k Hk).
Qed.

(** C23: The environment and the programs of [init].  On a machine whose name has at least three letters (or
    cannot be asked for), so that its Go name is found, it runs to its end even when the kernel refuses calls; the programs it runs are the build
    of [installcommand] and then those of its list that exist, the first with process identifiers of its own; and if
    the kernel grants every write of a file, [/env] holds every variable with its value, in whatever order the map
    is read. *)
Theorem init_environment refuse range1 range2 exists_ profile_d cmds others verbose test_mode Uname uname mach w w' r :
  (forall l, range1 l ≡ₚ l) -> go_names Uname = Ret (uname, mach) ->
  init_main refuse range1 range2 exists_ profile_d cmds others verbose test_mode Uname w = (w', r) ->
  let vars := range1 (with_PATH (init_path uname mach)) in
  let Envs := assignment <$> vars in
  r = Ret tt /\
  runs_of w' = runs_of w ++
    BRun (str "go" :: str "build" :: (if verbose then [str "-x"] else []) ++
           [str "-o"; str "/buildbin/installcommand"; PathJoin [CmdsPath; str "installcommand"]])
         (Envs ++ [str "GOBIN=/buildbin"]) false false ::
    inits exists_ test_mode (Envs ++ [str "GOBIN=/ubin"]) /\
  (accepts_env refuse -> forall k v, (k, v) ∈ with_PATH (init_path uname mach) -> files w' !! PathJoin [str "/env"; k] = Some v).
Proof.
  intros Hp Hg H vars Envs. unfold init_main in H. pose proof (Rootfs_runs refuse range1 range2 Uname w) as Hr.
  destruct (Rootfs refuse range1 range2 Uname w) as [w1 o] eqn:E. cbn [fst] in Hr.
  assert (Ho : exists profile, o = Ret (Envs, profile)).
  { unfold Rootfs in E. rewrite Hg in E. apply pair_equal_spec in E as [_ <-]. eexists. f_equal. f_equal.
    unfold Envs, vars, init_path. apply list_fmap_ext. by intros ? [k v] _. }
  destruct Ho as [profile ->]. cbv zeta in H. apply pair_equal_spec in H as [<- <-]. split; [done|]. split.
  - rewrite quiet_attempt, run_inits_runs by done.
    assert (Hprof : forall b w, runs_of (if (b : bool) then attempt refuse (BWriteFile (str "/etc/profile.d/uroot.sh") profile 0x1a4) w else w) = runs_of w)
      by (intros [] w0; [by apply quiet_attempt|done]).
    rewrite Hprof, (fold_keeps runs_of) by apply write_env_runs. rewrite !quiet_attempt by done. rewrite attempt_runs. cbn [is_brun].
    rewrite quiet_attempt, (fold_keeps runs_of) by (done || apply link_command_runs). rewrite Hr, <- app_assoc. done.
  - intros Ha k v Hin. rewrite attempt_files, run_inits_files by done.
    set (w2 := attempt refuse (BSetenv (str "GOBIN") (str "/ubin")) _).
    pose proof (init_env_written refuse (init_path uname mach) vars w2 k v Ha (Hp _) Hin) as Hw.
    destruct profile_d; [|done]. unfold attempt at 1, sys. rewrite Ha. cbn [fst files]. rewrite lookup_insert_ne; [done|].
    exact (profile_not_env (init_path uname mach) k v Hin).
Qed.

Definition toy_boot : world * outcome error unit :=
  init_main (fun _ _ => None) id id (fun n => bytes_eqb n (str "/buildbin/rush")) true [str "/src/ls"; str "/src/init"] [] false false
    (inl (str "Linux", str "x86_64")) (MkWorld [] ∅).

Lemma init_environment_witness :
  files toy_boot.1 !! str "/env/GOROOT" = Some (str "/go") /\
  (drop 1 (runs_of toy_boot.1) = inits (fun n => bytes_eqb n (str "/buildbin/rush")) false
     ((assignment <$> with_PATH (init_path (str "linux") (str "amd64"))) ++ [str "GOBIN=/ubin"])).
Proof.
  destruct (init_environment (fun _ _ => None) id id (fun n => bytes_eqb n (str "/buildbin/rush")) true [str "/src/ls"; str "/src/init"] []
    false false (inl (str "Linux", str "x86_64")) (str "linux") (str "amd64") (MkWorld [] ∅) toy_boot.1 toy_boot.2
    (fun l => Permutation_refl l) eq_refl (surjective_pairing _)) as (_ & Hr & Hf).
  split.
  - change (str "/env/GOROOT") with (PathJoin [str "/env"; str "GOROOT"]). apply Hf; [done|]. do 1 right; left.
  - rewrite Hr. reflexivity.
Defined.

(** A machine name of fewer than three letters crashes [init]. *)
Example init_short_machine : (go_names (inl (str "Linux", str "sh"))) = Panic.
Proof. reflexivity. Qed.

(** [/proc/cmdline] ends with a line feed, so the flag is not seen as the last parameter. *)
Example nobgbuild_last :
  isBgBuildEnabled (inl (str "quiet uroot.nobgbuild" ++ [x0a])) = true /\
  isBgBuildEnabled (inl (str "uroot.nobgbuild quiet" ++ [x0a])) = false.
Proof. split; reflexivity. Qed.

(** ** Facts about the background build *)

Section Build_facts.
Context (cpus : nat) (names : list bytes).

Definition busy (s : build_state) : list bytes := omap id (workers s).

Record build_inv (s : build_state) : Prop := {
  binv_started : started s ++ to_send s = names;
  binv_workers : length (workers s) = cpus;
  binv_busy : exists finished, busy s ++ finished ≡ₚ started s
}.

Lemma build_inv_step s s' : build_inv s -> build_step s s' -> build_inv s'.
Proof.
  intros [Hs Hw [fin Hb]] H. destruct H as [n ns ws1 ws2 done_|ns ws1 n ws2 done_]; unfold busy in *; simpl in *.
  - split; simpl.
    + by rewrite <- app_assoc.
    + rewrite length_app in *. simpl in *. lia.
    + exists fin. unfold busy; simpl. rewrite omap_app in *. simpl in *. rewrite <- Hb. solve_Permutation.
  - split; simpl; [done|rewrite length_app in *; simpl in *; lia|].
    exists (n :: fin). unfold busy; simpl. rewrite omap_app in *. simpl in *. rewrite <- Hb. solve_Permutation.
Qed.

Lemma build_inv_reach s : rtc build_step (startBgBuild cpus names) s -> build_inv s.
Proof.
  intros H. assert (Hi : build_inv (startBgBuild cpus names)).
  { split; simpl; [done|apply length_replicate|]. exists []. unfold busy; simpl. rewrite app_nil_r.
    assert (Hn : forall k, omap id (replicate k (@None bytes)) = []) by (induction k as [|k IHk]; [done|exact IHk]).
    by rewrite Hn. }
  induction H as [|s1 s2 s3 H _ IH]; [done|]. eauto using build_inv_step.
Qed.

Definition build_left (s : build_state) : nat := 2 * length (to_send s) + length (busy s).

Lemma build_left_step s s' : build_step s s' -> (build_left s' < build_left s)%nat.
Proof. unfold build_left, busy. destruct 1; simpl; rewrite !omap_app; simpl; rewrite !length_app; simpl; lia. Qed.

(** The workers start every command once, in the given order, with at most one build per processor
    at a time; they always stop, and only when nothing is left to build. *)
Lemma bgbuild_all s :
  (0 < cpus)%nat -> rtc build_step (startBgBuild cpus names) s ->
  started s `prefix_of` names /\ (length (busy s) <= cpus)%nat /\
  Acc (fun a b => build_step b a) s /\
  ((forall s', ~ build_step s s') -> started s = names /\ busy s = []).
Proof.
  intros Hc H. apply build_inv_reach in H as [Hs Hw [fin Hb]]. split; [by exists (to_send s)|]. split; [|split].
  - rewrite <- Hw. unfold busy. clear. induction (workers s) as [|[n|] ws IH]; [done| |];
      [change (S (length (omap id ws)) <= S (length ws))%nat; lia|change (length (omap id ws) <= S (length ws))%nat; lia].
  - clear. induction s as [s IH] using (induction_ltof1 _ build_left). unfold ltof in IH. constructor. intros s' H.
    by apply IH, build_left_step.
  - intros Hstuck. destruct s as [ns ws st]. unfold busy in *; simpl in *.
    assert (Hidle : Forall (fun o => o = None) ws).
    { apply Forall_forall. intros [n|] Hin; [|done]. apply list_elem_of_split in Hin as (l1 & l2 & ->).
      exfalso. eapply Hstuck, build_finish. }
    destruct ws as [|o ws]; [simpl in Hw; lia|]. pose proof Hidle as [-> Hi]%Forall_cons.
    destruct ns as [|n ns]; [|exfalso; by eapply Hstuck, (build_recv n ns [] ws)].
    rewrite app_nil_r in Hs. split; [done|]. clear -Hi. simpl. induction Hi as [|? ? -> _ IH]; [done|]. simpl. done.
Qed.
End Build_facts.
