(* ===== verification/Kernel.v ===== *)
(** * Programs that are sequences of calls

    Many commands are little more than an order of system calls, program runs and file
    accesses with their error paths.  Here a program is a computation over the list of the calls
    it has made: [ask c] makes the call [c] and gets an answer or an error, and what is outside
    (kernel, files, other programs) is the function [answer], which may refuse any call and may
    answer differently every time.  [planned m p] says that [m] makes exactly the calls [p], in
    order, and stops early only because of an error. *)

From S2P Require Export Prelude.

(** ** Calls *)

Section Calls.
Context {C : Type} {R : C -> Type} (answer : forall c : C, list C -> R c + error).

Definition ask (c : C) : M (list C) (R c) := fun tr =>
  (tr ++ [c], match answer c tr with inl r => Ret r | inr e => Fail e end).

(** A call whose error is a value the program looks at. *)
Definition ask_or (c : C) : M (list C) (R c + error) := fun tr => (tr ++ [c], Ret (answer c tr)).
End Calls.

(** [if err := m; err != nil { return f(err) }] *)
Definition wrap {S A} (f : error -> error) (m : M S A) : M S A := fun s =>
  match m s with
  | (s, Fail e) => (s, Fail (f e))
  | r => r
  end.

(** [log.Fatalf]: the program ends with a message. *)
Definition fatalf {S A} (msg : String.string) (m : M S A) : M S A := wrap (fun _ => Errorf msg) m.

(** An error that is looked at, logged or dropped. *)
Definition result {S A} (m : M S A) : M S (A + error) := fun s =>
  match m s with
  | (s, Ret a) => (s, Ret (inl a))
  | (s, Fail e) => (s, Ret (inr e))
  | (s, Panic) => (s, Panic)
  end.

(** [for _, a := range l] *)
Fixpoint each {S A} (f : A -> M S unit) (l : list A) : M S unit :=
  match l with
  | [] => mret tt
  | a :: l => _ ← f a; each f l
  end.

(** [defer f()] where the error of [f] is dropped: it runs when [m] returns or panics. *)
Definition deferred {S A} (f : M S unit) (m : M S A) : M S A := fun s =>
  let '(s, r) := m s in
  let '(s, r') := f s in
  (s, match r' with Panic => Panic | _ => r end).

(** ** What the calls are *)

Create HintDb planned.

Section Planned.
Context {C : Type}.

Definition planned {A} (m : M (list C) A) (p : list C) : Prop := forall tr,
  match m tr with
  | (tr', Ret _) => tr' = tr ++ p
  | (tr', Fail _) => exists k, tr' = tr ++ take k p
  | (_, Panic) => False
  end.

Lemma planned_ret {A} (a : A) : planned (mret a) [].
Proof. intros tr. simpl. by rewrite app_nil_r. Qed.

Lemma planned_raise {A} e : planned (raise e : M (list C) A) [].
Proof. intros tr. exists 0%nat. simpl. by rewrite app_nil_r. Qed.

Lemma planned_ask {R : C -> Type} (answer : forall c : C, list C -> R c + error) c :
  planned (ask answer c) [c].
Proof. intros tr. unfold ask. destruct (answer c tr); [done|]. by exists 1%nat. Qed.

Lemma planned_ask_or {R : C -> Type} (answer : forall c : C, list C -> R c + error) c :
  planned (ask_or answer c) [c].
Proof. by intros tr. Qed.

Lemma planned_bind {A B} (m : M (list C) A) (f : A -> M (list C) B) p q :
  planned m p -> (forall a, planned (f a) q) -> planned (m ≫= f) (p ++ q).
Proof.
  intros Hm Hf tr. specialize (Hm tr). unfold mbind, M_bind.
  destruct (m tr) as [t1 [a|e|]]; [|destruct Hm as [k ->]|done].
  - subst t1. specialize (Hf a (tr ++ p)).
    destruct (f a (tr ++ p)) as [t2 [b|e|]]; [|destruct Hf as [k ->]|done].
    + subst t2. by rewrite app_assoc.
    + exists (length p + k)%nat. by rewrite take_app_add, app_assoc.
  - exists (min k (length p)). rewrite take_app_le by lia. f_equal.
    destruct (decide (k <= length p)%nat); [by rewrite Nat.min_l|].
    rewrite Nat.min_r, !take_ge by lia. done.
Qed.

Lemma planned_wrap {A} f (m : M (list C) A) p : planned m p -> planned (wrap f m) p.
Proof. intros Hm tr. specialize (Hm tr). unfold wrap. by destruct (m tr) as [t [a|e|]]. Qed.

Lemma planned_fatalf {A} msg (m : M (list C) A) p : planned m p -> planned (fatalf msg m) p.
Proof. apply planned_wrap. Qed.

Lemma planned_each {A} (f : A -> M (list C) unit) (p : A -> list C) l :
  (forall a, planned (f a) (p a)) -> planned (each f l) (concat (p <$> l)).
Proof.
  intros Hf. induction l as [|a l IH]; cbn [each]; [apply planned_ret|].
  rewrite fmap_cons. cbn [concat]. by apply planned_bind.
Qed.

(** A program that went through has made all the calls of its plan. *)
Lemma planned_Ret {A} (m : M (list C) A) p tr tr' a :
  planned m p -> m tr = (tr', Ret a) -> tr' = tr ++ p.
Proof. intros Hm E. specialize (Hm tr). by rewrite E in Hm. Qed.

(** The calls that are made, whatever happens, only add to those before. *)
Definition grows {A} (m : M (list C) A) : Prop := forall tr, exists k, (m tr).1 = tr ++ k.

Lemma planned_grows {A} (m : M (list C) A) p : planned m p -> grows m.
Proof.
  intros Hm tr. specialize (Hm tr). destruct (m tr) as [t [a|e|]]; [eauto| |done].
  destruct Hm as [k ->]. eauto.
Qed.

Lemma grows_bind {A B} (m : M (list C) A) (f : A -> M (list C) B) :
  grows m -> (forall a, grows (f a)) -> grows (m ≫= f).
Proof.
  intros Hm Hf tr. destruct (Hm tr) as [k Hk]. unfold mbind, M_bind.
  destruct (m tr) as [t [a|e|]]; simpl in *; subst; [|eauto..].
  destruct (Hf a (tr ++ k)) as [k' ->]. exists (k ++ k'). by rewrite app_assoc.
Qed.

Lemma grows_lift {A} (o : outcome error A) : grows (lift o).
Proof. intros tr. exists []. by rewrite app_nil_r. Qed.
Lemma grows_ret {A} (a : A) : grows (mret a).
Proof. apply (grows_lift (Ret a)). Qed.
Lemma grows_raise {A} e : grows (raise e : M (list C) A).
Proof. apply (grows_lift (Fail e)). Qed.
Lemma grows_ask {R : C -> Type} (answer : forall c : C, list C -> R c + error) c : grows (ask answer c).
Proof. intros tr. by exists [c]. Qed.
Lemma grows_ask_or {R : C -> Type} (answer : forall c : C, list C -> R c + error) c : grows (ask_or answer c).
Proof. intros tr. by exists [c]. Qed.
Lemma grows_wrap {A} f (m : M (list C) A) : grows m -> grows (wrap f m).
Proof. intros Hm tr. destruct (Hm tr) as [k Hk]. unfold wrap. destruct (m tr) as [t [a|e|]]; by eauto. Qed.
Lemma grows_fatalf {A} msg (m : M (list C) A) : grows m -> grows (fatalf msg m).
Proof. apply grows_wrap. Qed.
Lemma grows_result {A} (m : M (list C) A) : grows m -> grows (result m).
Proof. intros Hm tr. destruct (Hm tr) as [k Hk]. unfold result. destruct (m tr) as [t [a|e|]]; by eauto. Qed.
Lemma grows_each {A} (f : A -> M (list C) unit) l : (forall a, grows (f a)) -> grows (each f l).
Proof. intros Hf. induction l as [|a l IH]; cbn [each]; [apply grows_ret|]. by apply grows_bind. Qed.
End Planned.

(** ** Programs that stop at the first refusal

    [strict m p]: [m] makes the calls [p] in order; when it goes through, all of them were
    granted, and when it fails it has made a part of them. *)
Section Strict.
Context {C : Type} {R : C -> Type} (answer : forall c : C, list C -> R c + error).

Fixpoint granted (tr p : list C) : Prop :=
  match p with
  | [] => True
  | c :: p => (exists r, answer c tr = inl r) /\ granted (tr ++ [c]) p
  end.

Lemma granted_app tr p q : granted tr p -> granted (tr ++ p) q -> granted tr (p ++ q).
Proof.
  revert tr. induction p as [|c p IH]; intros tr; cbn [app granted]; [by rewrite app_nil_r|].
  intros [Hc Hp] Hq. split; [done|]. apply IH; [done|]. by rewrite <- app_assoc.
Qed.

Definition strict {A} (m : M (list C) A) (p : list C) : Prop := forall tr,
  match m tr with
  | (tr', Ret _) => tr' = tr ++ p /\ granted tr p
  | (tr', Fail _) => exists k, tr' = tr ++ take k p
  | (_, Panic) => False
  end.

Lemma strict_planned {A} (m : M (list C) A) p : strict m p -> planned m p.
Proof. intros Hm tr. specialize (Hm tr). destruct (m tr) as [t [a|e|]]; [by destruct Hm|done|done]. Qed.

Lemma strict_ret {A} (a : A) : strict (mret a) [].
Proof. intros tr. simpl. by rewrite app_nil_r. Qed.

Lemma strict_ask c : strict (ask answer c) [c].
Proof. intros tr. unfold ask. destruct (answer c tr) eqn:E; [|by exists 1%nat]. split; [done|]. split; [by eexists|done]. Qed.

Lemma strict_bind {A B} (m : M (list C) A) (f : A -> M (list C) B) p q :
  strict m p -> (forall a, strict (f a) q) -> strict (m ≫= f) (p ++ q).
Proof.
  intros Hm Hf tr. pose proof (planned_bind m f p q (strict_planned m p Hm) (fun a => strict_planned _ _ (Hf a)) tr) as Hp.
  specialize (Hm tr). unfold mbind, M_bind in *. destruct (m tr) as [t1 [a|e|]]; [|done..]. destruct Hm as [-> Hg].
  specialize (Hf a (tr ++ p)). destruct (f a (tr ++ p)) as [t2 [b|e|]]; [|done..]. destruct Hf as [-> Hg2].
  split; [by rewrite app_assoc|]. by apply granted_app.
Qed.

Lemma strict_wrap {A} f (m : M (list C) A) p : strict m p -> strict (wrap f m) p.
Proof. intros Hm tr. specialize (Hm tr). unfold wrap. by destruct (m tr) as [t [a|e|]]. Qed.

Lemma strict_fatalf {A} msg (m : M (list C) A) p : strict m p -> strict (fatalf msg m) p.
Proof. apply strict_wrap. Qed.

Lemma strict_each {A} (f : A -> M (list C) unit) (p : A -> list C) l :
  (forall a, strict (f a) (p a)) -> strict (each f l) (concat (p <$> l)).
Proof.
  intros Hf. induction l as [|a l IH]; cbn [each]; [apply strict_ret|].
  rewrite fmap_cons. cbn [concat]. by apply strict_bind.
Qed.
End Strict.

Create HintDb grows.
#[export] Hint Resolve grows_lift grows_ret grows_raise grows_ask grows_ask_or grows_wrap grows_fatalf grows_result
  grows_each grows_bind : grows.

#[export] Hint Resolve planned_ret planned_raise planned_ask planned_ask_or planned_bind planned_wrap
  planned_fatalf planned_each : planned.

(** Splits a sequence of binds, one call each; what is left are the branches. *)
Ltac plan_step :=
  lazymatch goal with
  | |- planned (mbind _ _) _ =>
      first [eapply (planned_bind _ _ [_]); [solve [eauto with planned]|intro]
            |eapply (planned_bind _ _ []); [solve [eauto with planned]|intro]]
  | |- planned (mret _) _ => apply planned_ret
  | |- planned (fatalf _ _) _ => apply planned_fatalf
  | |- planned (wrap _ _) _ => apply planned_wrap
  | |- planned (ask _ _) _ => apply planned_ask
  | |- planned (raise _) _ => apply planned_raise
  end.
Ltac plan := repeat plan_step.

(** ** What a call that went through tells *)

Lemma ask_inv {C} {R : C -> Type} (answer : forall c : C, list C -> R c + error) c tr tr' r :
  ask answer c tr = (tr', Ret r) -> tr' = tr ++ [c] /\ answer c tr = inl r.
Proof. unfold ask. destruct (answer c tr); intros H; by simplify_eq. Qed.

Lemma fatalf_inv {S A} msg (m : M S A) s s' a : fatalf msg m s = (s', Ret a) -> m s = (s', Ret a).
Proof. unfold fatalf, wrap. destruct (m s) as [t [b|e|]]; intros H; by simplify_eq. Qed.

(** A loop whose steps do not fail makes the calls of all of them. *)
Lemma each_calls {C A} (f : A -> M (list C) unit) (p : A -> list C) l :
  (forall a tr, f a tr = (tr ++ p a, Ret tt)) -> forall tr, each f l tr = (tr ++ concat (p <$> l), Ret tt).
Proof.
  intros Hf. induction l as [|a l IH]; intros tr; cbn [each]; [by rewrite app_nil_r|].
  unfold mbind, M_bind. rewrite Hf, IH, fmap_cons. cbn [concat]. by rewrite <- app_assoc.
Qed.

(** ** Programs that only make some calls

    [only P m]: whatever is answered, the calls that [m] makes satisfy [P]. *)
Create HintDb only.

Section Only.
Context {C : Type} (P : C -> Prop).

Definition only {A} (m : M (list C) A) : Prop := forall tr, Forall P tr -> Forall P (m tr).1.

Lemma only_lift {A} (o : outcome error A) : only (lift o).
Proof. by intros tr Htr. Qed.
Lemma only_ret {A} (a : A) : only (mret a).
Proof. by intros tr Htr. Qed.
Lemma only_raise {A} e : only (raise e : M (list C) A).
Proof. by intros tr Htr. Qed.
Lemma only_ask {R : C -> Type} (answer : forall c : C, list C -> R c + error) c : P c -> only (ask answer c).
Proof. intros Hc tr Htr. apply Forall_app. auto. Qed.
Lemma only_ask_or {R : C -> Type} (answer : forall c : C, list C -> R c + error) c : P c -> only (ask_or answer c).
Proof. intros Hc tr Htr. apply Forall_app. auto. Qed.
Lemma only_wrap {A} f (m : M (list C) A) : only m -> only (wrap f m).
Proof. intros Hm tr Htr. specialize (Hm tr Htr). unfold wrap. by destruct (m tr) as [t [a|e|]]. Qed.
Lemma only_fatalf {A} msg (m : M (list C) A) : only m -> only (fatalf msg m).
Proof. apply only_wrap. Qed.
Lemma only_result {A} (m : M (list C) A) : only m -> only (result m).
Proof. intros Hm tr Htr. specialize (Hm tr Htr). unfold result. by destruct (m tr) as [t [a|e|]]. Qed.
Lemma only_bind {A B} (m : M (list C) A) (f : A -> M (list C) B) : only m -> (forall a, only (f a)) -> only (m ≫= f).
Proof.
  intros Hm Hf tr Htr. specialize (Hm tr Htr). unfold mbind, M_bind.
  destruct (m tr) as [t [a|e|]]; [by apply Hf|done..].
Qed.
Lemma only_each {A} (f : A -> M (list C) unit) l : (forall a, only (f a)) -> only (each f l).
Proof. intros Hf. induction l as [|a l IH]; cbn [each]; [apply only_ret|]. by apply only_bind. Qed.

(** A run with another call has come past a part that makes none. *)
Lemma only_past {A B} (m : M (list C) A) (f : A -> M (list C) B) s tr r :
  only m -> (m ≫= f) s = (tr, r) -> Forall P s -> ~ Forall P tr ->
  exists s' a, m s = (s', Ret a) /\ Forall P s' /\ f a s' = (tr, r).
Proof.
  intros Hm H Hs Htr. specialize (Hm s Hs). unfold mbind, M_bind in H.
  destruct (m s) as [s' [a|e|]]; [by exists s', a|by simplify_eq..].
Qed.
End Only.
#[export] Hint Resolve only_lift only_ret only_raise only_ask only_ask_or only_wrap only_fatalf only_result only_bind only_each : only.

(** Goes past a part that makes none of the calls in question. *)
Ltac past H Hs Htr :=
  let s := fresh "s" in let a := fresh "a" in let H1 := fresh "Hm" in let Hs' := fresh "Hp" in
  apply only_past in H as (s & a & H1 & Hs' & H); [|by eauto with only|exact Hs|exact Htr].
