(* ===== verification/Images.v ===== *)
(** * Building the images ([scripts/ramfs.go], [bb/ramfs.go])

    The two programs that pack an initial RAM file system.  [Scripts]: the list of Go files that
    the sources need, the tool chain that is built, and the archive made of an optional initial
    archive, the Go tree, the sources and the temporary directory.  [BbImage]: the archive around
    the one binary of [bb].  The go tool, the environment, globbing and the orders of loops over
    Go maps are parameters; the host is that of [CpioFs]. *)

From Stdlib Require Import Strings.String.
From S2P Require Import Ldd Fs.
From S2P Require Export Ramfs Kernel.

(** ** Sequencing copies

    A step of the archive: [None] is fuel that has run out, an error ends the program. *)
Definition then_ {St} (m : option (St * outcome error unit)) (k : St -> option (St * outcome error unit))
  : option (St * outcome error unit) :=
  match m with
  | Some (s, Ret _) => k s
  | r => r
  end.

Section Methods.
Context `{RecordFormat}.
Abbreviation state := (inodes * Initramfs)%type.

(** [Initramfs] embeds [cpio.Writer]: its [Concat] and [WriteTrailer] are those of the writer
    and leave the set of recorded files alone. *)
Definition init_Concat (fuel : nat) (t : Rec -> Rec) (d : RecordReader) (s : state)
  : option (state * outcome error unit) :=
  match Concat fuel (Some t) d (i_Writer (snd s)) with
  | None => None
  | Some (_, w, r) => Some ((fst s, MkInitramfs w (i_files (snd s))), r)
  end.

Definition init_WriteTrailer (s : state) : option (state * outcome error unit) :=
  let '(w, r) := WriteTrailer (i_Writer (snd s)) in
  Some ((fst s, MkInitramfs w (i_files (snd s))), r).
End Methods.

(** The bytes of an archive in memory. *)
Definition archive_bytes {fs} (s : inodes * @Initramfs (newc_format fs)) : bytes :=
  buf (w_w (@rw (newc_format fs) (i_Writer (snd s)))).

(** ** [scripts/ramfs.go] *)

Module Scripts.

Record Config := MkConfig {
  Goroot : bytes; Arch : bytes; Goos : bytes; Gopath : bytes; TempDir : bytes; Go : bytes;
  InitialCpio : bytes; UseExistingInit : bool
}.

Record goPackage := MkPackage {
  p_Dir : bytes; Deps : list bytes; GoFiles : list bytes; SFiles : list bytes; HFiles : list bytes;
  p_Goroot : bool; ImportPath : bytes
}.

(** What the program runs and opens before it writes the archive. *)
Inductive call :=
| GoBuild (args : list bytes) (dir : bytes)
| MkTemp
| CreateOut (name : bytes)
| OpenCpio (name : bytes)
| RemoveAll (dir : bytes).

(** The global variables, and what was run. *)
Record packing := MkPacking {
  cfg : Config;
  goList : list bytes; urootList : list bytes; pkgList : list bytes;
  deps : gset bytes; gorootFiles : gset bytes; urootFiles : gset bytes;
  ran : list call
}.

Definition set_cfg (c : Config) (s : packing) : packing :=
  MkPacking c (goList s) (urootList s) (pkgList s) (deps s) (gorootFiles s) (urootFiles s) (ran s).
Definition add_pkgs (l : list bytes) (s : packing) : packing :=
  MkPacking (cfg s) (goList s) (urootList s) (pkgList s ++ l) (deps s) (gorootFiles s) (urootFiles s) (ran s).
Definition add_deps (l : list bytes) (s : packing) : packing :=
  MkPacking (cfg s) (goList s) (urootList s) (pkgList s) (list_to_set l ∪ deps s) (gorootFiles s) (urootFiles s) (ran s).
Definition add_file (goroot : bool) (f : bytes) (s : packing) : packing :=
  MkPacking (cfg s) (goList s) (urootList s) (pkgList s) (deps s)
    (if goroot then {[f]} ∪ gorootFiles s else gorootFiles s)
    (if goroot then urootFiles s else {[f]} ∪ urootFiles s) (ran s).
Definition add_lists (gl ul : list bytes) (s : packing) : packing :=
  MkPacking (cfg s) (goList s ++ gl) (urootList s ++ ul) (pkgList s) (deps s) (gorootFiles s) (urootFiles s) (ran s).
Definition add_call (c : call) (s : packing) : packing :=
  MkPacking (cfg s) (goList s) (urootList s) (pkgList s) (deps s) (gorootFiles s) (urootFiles s) (ran s ++ [c]).

Definition cmds_dir : bytes := str "src/github.com/u-root/u-root/cmds".

Section Main.
(** The environment, the constants of package runtime, the answers of [go list], the order of
    a loop over a map, globbing, and what is refused after the calls made so far. *)
Context (getenv : bytes -> bytes) (runtime_GOARCH runtime_GOROOT : bytes).
Context (go_list : bytes -> goPackage + error) (range : gset bytes -> list bytes).
Context (Glob : bytes -> list bytes + error) (refuse : call -> list call -> option error) (tempdir : bytes).

Definition run_call (c : call) : M packing unit := fun s =>
  (add_call c s, match refuse c (ran s) with None => Ret tt | Some e => Fail e end).

Definition guessgoarch (c : Config) : Config :=
  let arch := getenv (str "GOARCH") in
  MkConfig (Goroot c) (if bytes_eqb arch [] then runtime_GOARCH else Clean arch) (Goos c) (Gopath c)
    (TempDir c) (Go c) (InitialCpio c) (UseExistingInit c).

Definition guessgoroot (c : Config) : Config :=
  let root := getenv (str "GOROOT") in
  MkConfig (if bytes_eqb root [] then runtime_GOROOT else Clean root) (Arch c) (Goos c) (Gopath c)
    (TempDir c) (Go c) (InitialCpio c) (UseExistingInit c).

Definition guessgopath (c : Config) : outcome error Config :=
  let gopath := getenv (str "GOPATH") in
  if bytes_eqb gopath [] then Fail (Errorf "You have to set GOPATH, which is typically ~/go")
  else Ret (MkConfig (Goroot c) (Arch c) (Goos c) gopath (TempDir c) (Go c) (InitialCpio c) (UseExistingInit c)).

(** The arguments given to [go]. *)
Definition build_args (pkg output : bytes) (opts : list bytes) : list bytes :=
  [str "build"; str "-x"; str "-a"; str "-o"; output; str "-installsuffix"; str "cgo"; str "-ldflags"; str "-s -w"]
  ++ opts ++ (if bytes_eqb pkg [] then [] else [pkg]).

Definition buildPkg (pkg wd output : bytes) (opts : list bytes) : M packing unit :=
  wrap (fun _ => Errorf "building statically linked go tool info %v: %v, %v")
    (run_call (GoBuild (build_args pkg output opts) wd)).

Definition buildToolChain : M packing unit :=
  s ← get;
  let c := cfg s in
  _ ← buildPkg [] (PathJoin [Goroot c; str "src/cmd/go"]) (PathJoin [TempDir c; str "go/bin/go"])
        [str "-tags"; str "cmd_go_bootstrap"];
  let toolDir := PathJoin [TempDir c; str "go/pkg/tool/" ++ Goos c ++ str "_" ++ Arch c] in
  each (fun pkg => buildPkg (str "cmd/" ++ pkg) [] (PathJoin [toolDir; pkg]) [])
    [str "compile"; str "link"; str "asm"].

Definition goListPkg (name : bytes) : M packing goPackage := fun s =>
  match go_list name with
  | inr e => (s, Fail e)
  | inl p =>
      (foldl (fun s v => add_file (p_Goroot p) (PathJoin [ImportPath p; v]) s) s
         (GoFiles p ++ SFiles p ++ HFiles p), Ret p)
  end.

(** The bodies of the loops of [addGoFiles]: a package that [go list] does not know is skipped,
    and is fatal among the dependencies. *)
Definition list_pkg (v : bytes) : M packing unit :=
  r ← result (goListPkg v);
  match r with
  | inr _ => mret tt
  | inl p => modify (add_deps (Deps p))
  end.

Definition list_dep (v : bytes) : M packing unit :=
  _ ← fatalf "%v" (goListPkg v); mret tt.

Definition addGoFiles : M packing unit :=
  s ← get;
  _ ← each list_pkg (pkgList s);
  s ← get;
  _ ← each list_dep (range (deps s));
  s ← get;
  modify (add_lists ((fun v => PathJoin [str "src"; v]) <$> range (gorootFiles s))
                    ((fun v => PathJoin [str "src"; v]) <$> range (urootFiles s))).

Definition globlist (gopath : bytes) (s : list bytes) : list bytes :=
  match s with
  | [] => [PathJoin [gopath; cmds_dir; str "[a-zA-Z]*"]]
  | _ => (fun v => PathJoin [gopath; v]) <$> s
  end.

(** The names relative to [$GOPATH/src]. *)
Fixpoint rel_all (base : bytes) (g : list bytes) : outcome error (list bytes) :=
  match g with
  | [] => Ret []
  | n :: g =>
      match Rel base n with
      | None => Fail (Errorf "Can't get rel path for %v: %v")
      | Some r => rs ← rel_all base g; Ret (r :: rs)
      end
  end.

Definition find_pkgs (gopath : bytes) (v : bytes) : M packing unit :=
  match Glob v with
  | inr _ => raise (Errorf "Glob error: %v")
  | inl g => rs ← lift (rel_all (PathJoin [gopath; str "src"]) g); modify (add_pkgs rs)
  end.

Definition with_TempDir (d : bytes) (c : Config) : Config :=
  MkConfig (Goroot c) (Arch c) (Goos c) (Gopath c) d (Go c) (InitialCpio c) (UseExistingInit c).

(** [main] up to the archive. *)
Definition prepare (args : list bytes) : M packing unit :=
  s ← get;
  let c := guessgoroot (guessgoarch (cfg s)) in
  c ← lift (guessgopath c);
  _ ← modify (set_cfg c);
  _ ← each (find_pkgs (Gopath c)) (globlist (Gopath c) args);
  _ ← fatalf "%v" addGoFiles;
  _ ← (if bytes_eqb (TempDir c) [] then
         _ ← fatalf "%v" (run_call MkTemp); modify (set_cfg (with_TempDir tempdir c))
       else mret tt);
  _ ← fatalf "%v" buildToolChain;
  s ← get;
  (if UseExistingInit (cfg s) then mret tt
   else fatalf "%v" (buildPkg (str ".") (PathJoin [Gopath (cfg s); cmds_dir ++ str "/init"])
                      (PathJoin [TempDir (cfg s); str "init"]) [])).
End Main.

(** The program starts with one directory to copy and no flag given. *)
Definition packing0 (cpio tmpdir : bytes) (useinit : bool) : packing :=
  MkPacking (MkConfig [] [] (str "linux") [] tmpdir [] cpio useinit) [str "pkg/include"] [] [] ∅ ∅ ∅ [].

(** ** The archive *)

Definition transform (useinit : bool) (r : Rec) : Rec :=
  if useinit then MakeReproducible r
  else MakeReproducible (if bytes_eqb (Name (info r)) (str "init") then map_info (set_Name (str "inito")) r else r).

Section Pack.
Context (fs : files) (h : host).
#[local] Hint Extern 0 RecordFormat => exact (newc_format fs) : typeclass_instances.
Abbreviation state := (inodes * Initramfs)%type.

(** [initial] is the file of [-cpio], if one is given: what it holds, or the error of opening it;
    the fuel bounds the depth of the trees. *)
Definition pack (fuel : nat) (c : Config) (initial : option (bytes + error)) (goList urootList : list bytes)
  : option (state * outcome error unit) :=
  match NewInitramfs (NewArchive fs) with
  | (_, Ret i) =>
      then_ (match initial with
             | None => Some ((inodes0, i), Ret tt)
             | Some (inr e) => Some ((inodes0, i), Fail e)
             | Some (inl data) => init_Concat (S (length data)) (transform (UseExistingInit c)) (NewReader newcMagic data) (inodes0, i)
             end) (fun s =>
      then_ (WriteFiles h fuel (Goroot c) (str "go") goList s) (fun s =>
      then_ (WriteFiles h fuel (Gopath c) [] urootList s) (fun s =>
      then_ (WriteFile h fuel (TempDir c) [] s)
        init_WriteTrailer)))
  | (w, Fail e) => Some ((inodes0, MkInitramfs w ∅), Fail e)
  | (w, Panic) => Some ((inodes0, MkInitramfs w ∅), Panic)
  end.
End Pack.

(** The whole program: what was run, and the bytes of the output file with the result.  The
    host and its files are those after the builds; [contents] is what the file of [-cpio] holds. *)
Section Program.
Context (getenv : bytes -> bytes) (runtime_GOARCH runtime_GOROOT : bytes).
Context (go_list : bytes -> goPackage + error) (range : gset bytes -> list bytes).
Context (Glob : bytes -> list bytes + error) (refuse : call -> list call -> option error) (tempdir : bytes).
Context (fs : list call -> files) (h : list call -> host) (contents : bytes -> bytes).

Definition oname (c : Config) : bytes := str "/tmp/initramfs." ++ Goos c ++ str "_" ++ Arch c ++ str ".cpio".

Definition create_output : M packing unit :=
  s ← get;
  fatalf "%v" (run_call refuse (CreateOut (oname (cfg s)))).

Definition open_initial : M packing (option (bytes + error)) := fun s =>
  let n := InitialCpio (cfg s) in
  if bytes_eqb n [] then (s, Ret None)
  else (add_call (OpenCpio n) s,
        Ret (Some (match refuse (OpenCpio n) (ran s) with None => inl (contents n) | Some e => inr e end))).

(** [log.Fatalf] ends the program without the deferred removal of the temporary directory. *)
Definition main (fuel : nat) (args : list bytes) (s : packing) : packing * option (bytes * outcome error unit) :=
  match (prepare getenv runtime_GOARCH runtime_GOROOT go_list range Glob refuse tempdir args ≫= fun _ =>
         create_output ≫= fun _ => open_initial) s with
  | (s, Fail e) => (s, Some ([], Fail e))
  | (s, Panic) => (s, Some ([], Panic))
  | (s, Ret initial) =>
      match pack (fs (ran s)) (h (ran s)) fuel (cfg s) initial (goList s) (urootList s) with
      | None => (s, None)
      | Some (a, Ret _) =>
          let '(s, r) := fatalf "%v" (run_call refuse (RemoveAll (TempDir (cfg s)))) s in (s, Some (archive_bytes a, r))
      | Some (a, r) => (s, Some (archive_bytes a, r))
      end
  end.
End Program.

End Scripts.

(** ** [bb/ramfs.go] *)

Module BbImage.

Definition bbsh_dir (gopath : bytes) : bytes := PathJoin [gopath; str "src/github.com/u-root/u-root/bb/bbsh"].

Section Initramfs.
Context (fs : files) (h : host).
#[local] Hint Extern 0 RecordFormat => exact (newc_format fs) : typeclass_instances.
Abbreviation state := (inodes * Initramfs)%type.
(** [os.Stat], with the mode of [os.FileMode]; [ldd.List]; the files that can be opened; the
    order of a loop over a map. *)
Context (Stat : bytes -> Z + error) (ldd_List : list bytes -> option (outcome error (list bytes))).
Context (open : bytes -> bytes + error) (range : list (bytes * list bytes) -> list (bytes * list bytes)).

(** [s.Mode().IsRegular() && s.Mode()&0111 != 0] *)
Definition executable (mode : Z) : bool := (Z.land mode ModeType =? 0) && negb (Z.land mode 0x49 =? 0).

(** [paths["/"]] for the names of [-add]. *)
Fixpoint add_extra (copyc : list bytes) (root : list bytes) : option (outcome error (list bytes)) :=
  match copyc with
  | [] => Some (Ret root)
  | path :: copyc =>
      match Stat path with
      | inr e => Some (Fail e)
      | inl mode =>
          let root := root ++ [path] in
          if executable mode then
            match ldd_List [path] with
            | None => None
            | Some (Ret libs) => add_extra copyc (root ++ libs)
            | Some (Fail e) => Some (Fail e)
            | Some Panic => Some Panic
            end
          else add_extra copyc root
      end
  end.

(** The archives of [-cpio], in order. *)
Fixpoint concat_all (extras : list bytes) (s : state) : option (state * outcome error unit) :=
  match extras with
  | [] => Some (s, Ret tt)
  | x :: extras =>
      match open x with
      | inr _ => Some (s, Fail (Errorf "%v: %v"))
      | inl data =>
          then_ (init_Concat (S (length data)) MakeReproducible (NewReader newcMagic data) s) (concat_all extras)
      end
  end.

Fixpoint write_paths (fuel : nat) (paths : list (bytes * list bytes)) (s : state) : option (state * outcome error unit) :=
  match paths with
  | [] => Some (s, Ret tt)
  | (root, lst) :: paths => then_ (WriteFiles h fuel root [] lst s) (write_paths fuel paths)
  end.

(** The map [paths]: the binary and its links, and what is added from the root. *)
Definition all_paths (gopath : bytes) (root : list bytes) : gmap bytes (list bytes) :=
  let m : gmap bytes (list bytes) := {[bbsh_dir gopath := [str "init"; str "ubin"]]} in
  match root with
  | [] => m
  | _ => <[sep := default [] (m !! sep) ++ root]> m
  end.

(** [initramfs]; [creat] is the error of creating the output. *)
Definition initramfs (fuel : nat) (creat : option error) (gopath extraAdd extraCpio : bytes)
  : option (state * outcome error unit) :=
  let s0 : state := (inodes0, MkInitramfs (NewArchive fs) ∅) in
  match creat with
  | Some e => Some (s0, Fail e)
  | None =>
      match NewInitramfs (NewArchive fs) with
      | (w, Fail e) => Some ((inodes0, MkInitramfs w ∅), Fail e)
      | (w, Panic) => Some ((inodes0, MkInitramfs w ∅), Panic)
      | (_, Ret i) =>
          match add_extra (Fields extraAdd) [] with
          | None => None
          | Some (Fail e) => Some ((inodes0, i), Fail e)
          | Some Panic => Some ((inodes0, i), Panic)
          | Some (Ret root) =>
              then_ (concat_all (Fields extraCpio) (inodes0, i)) (fun s =>
              then_ (write_paths fuel (range (map_to_list (all_paths gopath root))) s)
                init_WriteTrailer)
          end
      end
  end.
End Initramfs.
End BbImage.

(** ** The files of a tree

    [leaf h src dest file name]: the tree at [src] of the host has the file [file], to be archived
    as [name] when [src] is archived as [dest]. *)
Inductive leaf (h : host) : bytes -> bytes -> bytes -> bytes -> Prop :=
| leaf_here src dest st :
    lstat h src = Ret st -> Z.ldiff (st_mode st) 0x1ff <> S_IFDIR -> leaf h src dest src dest
| leaf_in src dest st ns n file name :
    lstat h src = Ret st -> Z.ldiff (st_mode st) 0x1ff = S_IFDIR ->
    readdirnames h src = Ret ns -> n ∈ ns -> leaf h (PathJoin [src; n]) (PathJoin [dest; n]) file name ->
    leaf h src dest file name.

(** A tree of depth [d] that can be read: the links and directories in it can, and an entry of a
    directory is there or has disappeared. *)
#[warnings="-register-all"]
Inductive readable (h : host) : nat -> bytes -> Prop :=
| readable_file d p st :
    lstat h p = Ret st -> Z.ldiff (st_mode st) 0x1ff <> S_IFDIR ->
    (Z.land (fileMode st) ModeType = ModeSymlink -> exists l, readlink h p = Ret l) -> readable h d p
| readable_dir d p st ns :
    lstat h p = Ret st -> Z.ldiff (st_mode st) 0x1ff = S_IFDIR -> readdirnames h p = Ret ns ->
    (forall n, n ∈ ns -> lstat h (PathJoin [p; n]) = Fail (Errno ENOENT) \/ readable h d (PathJoin [p; n])) ->
    readable h (S d) p.

(** What [WriteFile] takes for a directory is one for [fileMode] too. *)
Lemma fileMode_dir st : Z.ldiff (st_mode st) 0x1ff = S_IFDIR -> Z.land (fileMode st) ModeType = ModeDir.
Proof.
  intros Hd. assert (Z.land (st_mode st) modeTypeMask = modeDir) as E.
  { replace (Z.land (st_mode st) modeTypeMask) with (Z.land (Z.ldiff (st_mode st) 0x1ff) modeTypeMask); [by rewrite Hd|].
    apply Z.bits_inj'. intros n Hn. rewrite !Z.land_spec, Z.ldiff_spec.
    destruct (decide (n < 9)) as [Hlt|Hge].
    - assert (Z.testbit modeTypeMask n = false) as ->; [|by rewrite !andb_false_r].
      change modeTypeMask with (Z.shiftl 0x78 9). by rewrite Z.shiftl_spec_low.
    - change 0x1ff with (Z.ones 9). rewrite Z.ones_spec_high by lia. by rewrite andb_true_r. }
  unfold fileMode. by rewrite E.
Qed.

(** ** The newc archive of a host *)

Section NewcImage.
Context (fs : files) (h : host).
#[local] Hint Extern 0 RecordFormat => exact (newc_format fs) : typeclass_instances.

(** A record whose contents can be read and have the size that is announced. *)
Definition sized (r : Rec) : Prop := forall c, rc r = Some c ->
  exists b, reads fs c b /\ FileSize (info r) = zlen b /\ zlen b < 2 ^ 32.

(** The host keeps still: a regular file can be opened and read and has the size that [Lstat]
    tells, less than 4 GB; the metadata of a file belong to its inode. *)
Record host_ok : Prop := {
  regular_files p st : lstat h p = Ret st -> Z.land (fileMode st) ModeType = 0 ->
    exists b, fs p = plain b /\ st_size st = zlen b /\ zlen b < 2 ^ 32;
  short_links p l : readlink h p = Ret l -> zlen l < 2 ^ 32;
  same_inode p q st st' : lstat h p = Ret st -> lstat h q = Ret st' ->
    st_dev st = st_dev st' -> st_ino st = st_ino st' -> st = st'
}.

Lemma sized_relative r : sized r -> sized (relative r).
Proof. unfold sized, relative. by destruct (IsAbs (Name (info r))). Qed.

Lemma sized_dir d : sized (relative (dir_record d)).
Proof. apply sized_relative. intros c. done. Qed.

Lemma sized_no_ENOENT r (w w' : writer Buffer) : sized r -> WriteRecord fs r w <> (w', Fail (Errno ENOENT)).
Proof.
  intros Hs. destruct (succeeds_WriteRecord fs w r) as (w2 & a & ->); [|done].
  intros c Hc. destruct (Hs c Hc) as (b & Hb & _). eauto.
Qed.

Lemma sized_write_all ss (w : writer Buffer) : Forall sized ss -> exists w', write_all ss w = (w', Ret tt).
Proof.
  intros Hss. revert w. induction Hss as [|r ss Hr _ IH]; intros w; [by exists w|]. cbn [write_all].
  destruct (succeeds_WriteRecord fs w r) as (w2 & [] & E).
  { intros c Hc. destruct (Hr c Hc) as (b & Hb & _). eauto. }
  destruct (IH w2) as [w3 E3]. exists w3. unfold mbind, M_bind. cbn [fmt_WriteRecord newc_format].
  by rewrite E.
Qed.

(** Adding a record to an archive in memory succeeds. *)
Lemma sized_WriteRecord fuel r (i : Initramfs) :
  sized r -> (length (Name (info r)) < fuel)%nat -> exists i', WriteRecord_fuel fuel r i = Some (i', Ret tt).
Proof.
  revert r i. induction fuel as [|fuel IH]; intros r i Hs Hf; [lia|]. cbn [WriteRecord_fuel].
  case_bool_decide; [by eauto|].
  assert (forall j : Initramfs, exists i', (let '(w, res) := CWriter_WriteRecord r (i_Writer j) in
     Some (MkInitramfs w ({[Name (info r)]} ∪ i_files j), res)) = Some (i', Ret tt)) as Hw.
  { intros j. unfold CWriter_WriteRecord. case_bool_decide; [by eauto|]. cbn [fmt_WriteRecord newc_format].
    destruct (succeeds_WriteRecord fs (rw (i_Writer j)) (relative r)) as (w2 & [] & ->); [|by eauto].
    intros c Hc. destruct (sized_relative _ Hs c Hc) as (b & Hb & _). eauto. }
  case_bool_decide as Hd; [|apply Hw]. destruct Hd as (Hd1 & Hd2 & _).
  destruct (IH (dir_record (Dir (Name (info r)))) i) as [j ->]; [by intros c| |apply Hw].
  cbn. destruct (Dir_shorter (Name (info r))) as [?|[?|?]]; [done|done|lia].
Qed.

Lemma sized_kept r : newc_writable fs r -> sized (newc_kept fs r).
Proof.
  intros Hw. rewrite newc_kept_eq by done. intros c [= <-]. exists (contents fs r). split_and!; [done..|].
  unfold contents. destruct Hw as [_ Hc]. destruct (rc r) as [c|]; [|done].
  destruct (Hc c eq_refl) as (b & [-> _] & _ & Hb). done.
Qed.

Lemma sized_survivors rs seen : Forall sized rs -> Forall sized (survivors seen rs).
Proof.
  intros Hrs. revert seen. induction Hrs as [|r rs Hr _ IH]; intros seen; simpl; [done|].
  case_bool_decide; [apply IH|]. constructor; [by apply sized_relative|apply IH].
Qed.

Lemma sized_DevCPIO : Forall sized (survivors ∅ (MakeAllReproducible DevCPIO)).
Proof.
  apply sized_survivors. unfold MakeAllReproducible. apply Forall_fmap.
  assert (forall b i, FileSize i = zlen b -> zlen b < 2 ^ 32 -> sized (MakeReproducible (MkRec (Some (NewBytesReadCloser b)) i))) as Hb.
  { intros b i Hi Hlt c Hc. exists b. cbn in Hc. by simplify_eq. }
  assert (forall i, sized (MakeReproducible (MkRec None i))) as Hn by (by intros i c).
  unfold DevCPIO. repeat (apply Forall_cons_2; [first [apply Hn|by apply Hb]|]). apply Forall_nil_2.
Qed.

Lemma record_bytes_nonempty r : (0 < length (record_bytes newcMagic fs r))%nat.
Proof.
  unfold record_bytes, prologue. rewrite !length_app. change (length newcMagic) with 6%nat. lia.
Qed.

Lemma length_archive rs : (length rs <= length (archive_of rs))%nat.
Proof.
  induction rs as [|r rs IH]; [done|]. rewrite archive_of_cons, length_app. cbn [length].
  pose proof (record_bytes_nonempty r). cbn [encoding newc_format_ok]. lia.
Qed.

(** Adding an archive whose entries follow their parents. *)
Lemma Concat_inv w0 (s : inodes * Initramfs) ss (t : Rec -> Rec) rs b fuel :
  ramfs_inv w0 (snd s) ss -> Forall sized ((fun r => t (newc_kept fs r)) <$> rs) ->
  Forall (newc_writable fs) rs -> Trailer ∉ names rs -> (length rs < fuel)%nat ->
  let added := survivors (list_to_set (names ss)) ((fun r => t (newc_kept fs r)) <$> rs) in
  parents_first (names ss) (names added) = true ->
  exists s', init_Concat fuel t (NewReader newcMagic (archive_of rs ++ record_bytes newcMagic fs TrailerRecord ++ b)) s = Some (s', Ret tt) /\
    ramfs_inv w0 (snd s') (ss ++ added).
Proof.
  intros [Hw Hn Hu Hp Hf] Hs Hrs Htr Hfuel added Hadd.
  destruct (sized_write_all added (rw (i_Writer (snd s)))) as [w1 E1]; [by apply sized_survivors|].
  pose proof (WriteRecords_write_all ((fun r => t (newc_kept fs r)) <$> rs) (rw (i_Writer (snd s))) (alreadyWritten (i_Writer (snd s)))) as Hwr.
  rewrite Hn in Hwr. fold added in Hwr. rewrite E1 in Hwr.
  destruct (@Concat_ok _ (newc_format_ok fs) t rs (NewReader newcMagic (archive_of rs ++ record_bytes newcMagic fs TrailerRecord ++ b))
    [] b (i_Writer (snd s)) fuel (MkCWriter w1 (seen_after (list_to_set (names ss)) ((fun r => t (newc_kept fs r)) <$> rs))))
    as [d' Ec]; [done|done|apply TrailerRecord_writable|done|done| |].
  { destruct (i_Writer (snd s)) as [w0' aw]. cbn [rw alreadyWritten] in *. by rewrite Hn. }
  unfold init_Concat. rewrite Ec. eexists. split; [done|]. cbn [snd].
  destruct (survivors_props (list_to_set (names ss)) ((fun r => t (newc_kept fs r)) <$> rs)) as [Hnd Hnew].
  split; cbn [i_Writer rw alreadyWritten i_files].
  - eapply offers_app; [exact Hw|by apply write_all_offers].
  - rewrite names_app, list_to_set_app_L. unfold seen_after. fold added. set_solver.
  - rewrite names_app. apply NoDup_app. split_and!; [done| |done]. intros n Hin Hin2.
    rewrite Forall_forall in Hnew. apply Hnew in Hin2 as [Hin2 _]. set_solver.
  - by rewrite names_app, parents_first_app, Hp.
  - intros n Hin. rewrite names_app. apply elem_of_app. left. by apply Hf.
Qed.
End NewcImage.

Section ReadBack.
Context (fs : files) (h : host).
#[local] Hint Extern 0 RecordFormat => exact (newc_format fs) : typeclass_instances.
Abbreviation w0 := (NewWriter newcMagic {| buf := [] |}).

Definition short_names (ns : list bytes) : Prop := Forall (fun n => zlen n + 1 < 2 ^ 32) ns.

Lemma sized_writable ss : Forall (sized fs) ss -> short_names (names ss) -> Forall (newc_writable fs) ss.
Proof.
  unfold short_names, names. rewrite Forall_fmap, !Forall_forall. intros Hs Hn r Hr.
  split; [by apply Hn|]. by apply Hs.
Qed.

(** An archive with its trailer can be read. *)
Lemma trailer_reads (s s' : inodes * Initramfs) ss :
  ramfs_inv w0 (snd s) ss -> Forall (sized fs) ss -> short_names (names ss) -> Trailer ∉ names ss ->
  init_WriteTrailer s = Some (s', Ret tt) ->
  exists d, ReadRecords (S (length ss)) (NewReader newcMagic (archive_bytes s')) = Some (d, Ret (newc_kept fs <$> ss)).
Proof.
  intros [Hw Hn _ _ _] Hs Hsh Ht E. pose proof (sized_writable ss Hs Hsh) as Hws.
  apply offers_write_all in Hw; [|intros r w w' Hr; apply (sized_no_ENOENT fs); by rewrite Forall_forall in Hs; apply Hs].
  destruct (@write_all_ok _ (newc_format_ok fs) ss w0 [] (conj eq_refl eq_refl) Hws) as (w1 & E1 & Hw1).
  rewrite Hw in E1. injection E1 as E1.
  destruct (@format_write _ (newc_format_ok fs) w1 _ TrailerRecord Hw1 (TrailerRecord_writable fs)) as (w2 & E2 & Hw2).
  revert E. unfold init_WriteTrailer, WriteTrailer, CWriter_WriteRecord.
  change (relative TrailerRecord) with TrailerRecord.
  rewrite bool_decide_eq_false_2 by (rewrite Hn; set_solver). rewrite E1, E2. intros [= <-].
  unfold archive_bytes. cbn [snd i_Writer rw]. destruct Hw2 as [-> _]. cbn [w_w buf].
  apply (@ReadRecords_loop_ok _ (newc_format_ok fs) _ _ [] [] []); try done; [apply TrailerRecord_writable|lia].
Qed.

End ReadBack.

(** ** What is packed *)

(** The files of the trees [roots], each given with its place in the archive. *)
Definition packed (h : host) (roots : list (bytes * bytes)) (file name : bytes) : Prop :=
  exists src dest, (src, dest) ∈ roots /\ leaf h src dest file name.

Section Packed.
Context (fs : files) (h : host) (Hok : host_ok fs h) (Packed : bytes -> bytes -> Prop).
#[local] Hint Extern 0 RecordFormat => exact (newc_format fs) : typeclass_instances.
Abbreviation w0 := (NewWriter newcMagic {| buf := [] |}).

(** [file] is a hard link to another packed file, which goes under another name. *)
Definition linked (file name : bytes) : Prop := exists file' name' st st', Packed file' name' /\
  rel_name name' <> rel_name name /\ lstat h file = Ret st /\ lstat h file' = Ret st' /\
  st_dev st = st_dev st' /\ st_ino st = st_ino st'.

(** [r] is the record of [file] under [name]: its metadata without the time of modification, and
    what it holds; the contents of hard links are stored once. *)
Definition archived (file name : bytes) (r : Rec) : Prop := exists st, lstat h file = Ret st /\
  Name (info r) = rel_name name /\ Mode (info r) = st_mode st /\ UID (info r) = st_uid st /\ GID (info r) = st_gid st /\
  MTime (info r) = 0 /\ Rmajor (info r) = Z.shiftr (st_rdev st) 8 /\ Rminor (info r) = Z.land (st_rdev st) 0xff /\
  (if Z.land (fileMode st) ModeType =? 0 then
     fs file = plain (contents fs r) \/ contents fs r = [] /\ linked file name
   else if Z.land (fileMode st) ModeType =? ModeSymlink then readlink h file = Ret (contents fs r)
   else contents fs r = []).

Definition packed_record (r : Rec) : Prop :=
  exists file name, Packed file name /\ (archived file name r \/ parent_of name r).

(** The initramfs holds [base], and after it the records of packed files; the inodes that were met
    are those of directories and of files that are in the archive. *)
Record image (t : inodes) (i : Initramfs) (base added : list Rec) : Prop := {
  im_inv : ramfs_inv w0 i (base ++ added);
  im_sized : Forall (sized fs) (base ++ added);
  im_packed : Forall packed_record added;
  im_seen d j : inodeMap t !! d = Some j ->
    exists p st, lstat h p = Ret st /\ d = (st_dev st, st_ino st) /\
      (Z.ldiff (st_mode st) 0x1ff <> S_IFDIR -> exists name, Packed p name /\ rel_name name ∈ names (base ++ added))
}.

Lemma relative_eq r : relative r = map_info (set_Name (rel_name (Name (info r)))) r.
Proof. unfold relative, rel_name. destruct (IsAbs _); [done|]. by destruct r as [c []]. Qed.

Lemma GetRecord_spec p st t :
  lstat h p = Ret st -> (Z.land (fileMode st) ModeType = ModeSymlink -> exists l, readlink h p = Ret l) ->
  exists r, GetRecord h p t = (fst (inode (sysInfo p st) t), Ret r) /\
    Mode (info r) = st_mode st /\ UID (info r) = st_uid st /\ GID (info r) = st_gid st /\
    Rmajor (info r) = Z.shiftr (st_rdev st) 8 /\ Rminor (info r) = Z.land (st_rdev st) 0xff /\
    (if Z.land (fileMode st) ModeType =? 0 then
       FileSize (info r) = u64 (st_size st) /\
       rc r = (if snd (snd (inode (sysInfo p st) t)) then None else Some (LazyOpen p))
     else FileSize (info r) = zlen (contents fs r) /\
       if Z.land (fileMode st) ModeType =? ModeSymlink then exists l, readlink h p = Ret l /\ rc r = Some (StaticRC l)
       else rc r = Some (StaticRC [])).
Proof.
  intros Hs Hl. unfold GetRecord, mbind, M_bind, lift. rewrite Hs.
  assert (exists n, fst (snd (inode (sysInfo p st) t)) = set_Ino n (set_Dev 0 (sysInfo p st))) as [n En].
  { unfold inode. destruct (_ !! _); eexists; reflexivity. }
  destruct (inode (sysInfo p st) t) as [t' [i dn]]. cbn [fst snd] in *. subst i.
  destruct (Z.eqb_spec (Z.land (fileMode st) ModeType) 0); [destruct dn; eexists; split_and!; reflexivity|].
  destruct (Z.eqb_spec (Z.land (fileMode st) ModeType) ModeSymlink) as [Hk|Hk].
  - destruct (Hl Hk) as [l El]. rewrite El. eexists. split_and!; [reflexivity..|]. by exists l.
  - eexists. by split_and!.
Qed.

Lemma inode_seen i t d j : inodeMap (fst (inode i t)) !! d = Some j ->
  d = (Dev i, Ino i) \/ inodeMap t !! d = Some j.
Proof.
  unfold inode. destruct (inodeMap t !! (Dev i, Ino i)); cbn [fst]; [by right|]. cbn [inodeMap].
  intros [[<- _]|[_ ?]]%lookup_insert_Some; [by left|by right].
Qed.

Lemma inode_done i t : snd (snd (inode i t)) = true -> is_Some (inodeMap t !! (Dev i, Ino i)).
Proof. unfold inode. destruct (inodeMap t !! (Dev i, Ino i)); [by eauto|done]. Qed.

Lemma image_dir t i base added p st :
  image t i base added -> lstat h p = Ret st -> Z.ldiff (st_mode st) 0x1ff = S_IFDIR ->
  image (fst (inode (sysInfo p st) t)) i base added.
Proof.
  intros [H1 H2 H3 H4] Hs Hd. split; [done..|]. intros d j [->|Hj]%inode_seen; [|by eapply H4].
  exists p, st. split_and!; [done|done|]. by intros ?.
Qed.

(** One file: its record is added unless its name is taken. *)
Lemma image_file t i base added file name st :
  image t i base added -> lstat h file = Ret st -> Z.ldiff (st_mode st) 0x1ff <> S_IFDIR ->
  (Z.land (fileMode st) ModeType = ModeSymlink -> exists l, readlink h file = Ret l) ->
  Packed file name -> name <> sep -> name <> dot ->
  exists t' r i' ts, GetRecord h file t = (t', Ret r) /\ Mode (info r) = st_mode st /\
    Initramfs_WriteRecord (MakeReproducible (map_info (set_Name name) r)) i = Some (i', Ret tt) /\
    image t' i' base (added ++ ts) /\ rel_name name ∈ names (base ++ added ++ ts).
Proof.
  intros [H1 H2 H3 H4] Hs Hd Hl HP Hsep Hdot.
  destruct (GetRecord_spec file st t Hs Hl) as (r & Eg & Em & Eu & Egi & Ej & En & Hc).
  set (r' := MakeReproducible (map_info (set_Name name) r)).
  assert (sized fs r') as Hsz.
  { intros c Hrc. change (rc r = Some c) in Hrc. change (FileSize (info r')) with (FileSize (info r)). unfold contents in Hc.
    destruct (Z.eqb_spec (Z.land (fileMode st) ModeType) 0) as [H0|H0].
    - destruct Hc as [Hf Hc]. destruct (regular_files _ _ Hok _ _ Hs H0) as (b & Hb & Hz & Hlt). exists b.
      destruct (snd (snd _)); [congruence|]. rewrite Hrc in Hc. injection Hc as ->. unfold reads. cbn. rewrite Hb, Hf, Hz.
      rewrite u64_small by (pose proof (zlen_nonneg b); lia). by split_and!.
    - destruct Hc as [Hf Hc]. rewrite Hrc in Hf. destruct (_ =? ModeSymlink).
      + destruct Hc as (l & El & Er). rewrite Hrc in Er. injection Er as ->. exists l. apply (short_links _ _ Hok) in El. by split_and!.
      + rewrite Hrc in Hc. injection Hc as ->. exists []. by split_and!. }
  destruct (sized_WriteRecord fs _ r' i Hsz (Nat.lt_succ_diag_r _)) as [i' Ew].
  destruct (WriteRecord_inv _ _ _ _ _ _ _ H1 (or_introl eq_refl) Ew) as (ds & ts & Hinv & Hds & Hts & Hnm).
  rewrite <- app_assoc in Hinv.
  destruct (Hnm eq_refl) as [?|[?|[_ Hin]]]; [done|done|]. change (Name (info r')) with name in *.
  assert (rel_name name ∈ names (base ++ added ++ ds ++ ts)) as Hname.
  { destruct Hts as [->| ->].
    - rewrite app_nil_r. specialize (Hin eq_refl). by rewrite <- app_assoc in Hin.
    - rewrite !names_app, !elem_of_app. do 3 right. cbn. rewrite relative_name. by left. }
  exists (fst (inode (sysInfo file st) t)), r, i', (ds ++ ts). split_and!; [done|done|done| |done].
  split; [done| | |].
  - rewrite Forall_app in H2. destruct H2 as [? ?]. rewrite !Forall_app. split_and!; [done|done| |].
    + eapply Forall_impl; [exact Hds|]. intros x [k ->]. apply sized_dir.
    + destruct Hts as [->| ->]; [done|]. apply Forall_singleton. by apply sized_relative.
  - rewrite !Forall_app. split_and!; [done| |].
    + eapply Forall_impl; [exact Hds|]. intros x Hx. exists file, name. auto.
    + destruct Hts as [->| ->]; [done|]. apply Forall_singleton. exists file, name. split; [done|]. left.
      exists st. rewrite relative_eq. split_and!; [done..|]. revert Hc. unfold contents. cbn [rc map_info MakeReproducible r'].
      destruct (Z.eqb_spec (Z.land (fileMode st) ModeType) 0) as [H0|H0].
      * intros [_ Hc]. destruct (regular_files _ _ Hok _ _ Hs H0) as (b & Hb & _).
        destruct (snd (snd (inode (sysInfo file st) t))) eqn:Edn; rewrite Hc; [|left; cbn; by rewrite Hb].
        right. split; [done|]. apply inode_done in Edn as [j Hj]. apply H4 in Hj as (p & st' & Hs' & [= Hdev Hino] & Hp).
        pose proof (same_inode _ _ Hok _ _ _ _ Hs Hs' Hdev Hino) as <-. destruct (Hp Hd) as (name' & HP' & Hin').
        exists p, name', st, st. split_and!; [done| |done..]. intros Heq.
        destruct Hinv as [_ _ Hnd _ _]. rewrite (app_assoc base), names_app in Hnd. apply NoDup_app in Hnd as (_ & Hnd & _).
        rewrite Heq in Hin'. apply (Hnd _ Hin'). rewrite names_app. apply elem_of_app. right. cbn. rewrite relative_name. by left.
      * intros [_ Hc]. destruct (_ =? ModeSymlink); [by destruct Hc as (l & El & ->)|by rewrite Hc].
  - intros d j [->|Hj]%inode_seen.
    + exists file, st. split_and!; [done|done|]. intros _. by exists name.
    + destruct (H4 d j Hj) as (p & st' & Hp & Hd' & Hn). exists p, st'. split_and!; [done|done|]. intros Hnd.
      destruct (Hn Hnd) as (name' & HP' & Hin'). exists name'. split; [done|].
      rewrite app_assoc, names_app. apply elem_of_app. by left.
Qed.

Hypothesis named : forall file name, Packed file name -> name <> sep /\ name <> dot.

(** After the copy of [src] the archive has grown by packed records and has every file of it. *)
Definition packs (src dest : bytes) (base : list Rec) (m : inodes * Initramfs -> option ((inodes * Initramfs) * outcome error unit)) : Prop :=
  forall t i added, image t i base added ->
    exists t' i' ts, m (t, i) = Some ((t', i'), Ret tt) /\ image t' i' base (added ++ ts) /\
      forall file name, leaf h src dest file name -> rel_name name ∈ names (base ++ added ++ ts).

Lemma children_packs (fn : bytes -> inodes * Initramfs -> option ((inodes * Initramfs) * outcome error unit)) base src dest ns :
  (forall n, n ∈ ns ->
    (lstat h (PathJoin [src; n]) = Fail (Errno ENOENT) /\ forall s, fn n s = Some (s, Fail (Errno ENOENT))) \/
    packs (PathJoin [src; n]) (PathJoin [dest; n]) base (fn n)) ->
  forall t i added, image t i base added ->
    exists t' i' ts, children_loop fn ns (t, i) = Some ((t', i'), Ret tt) /\ image t' i' base (added ++ ts) /\
      forall n file name, n ∈ ns -> leaf h (PathJoin [src; n]) (PathJoin [dest; n]) file name -> rel_name name ∈ names (base ++ added ++ ts).
Proof.
  induction ns as [|n ns IH]; intros Hfn t i added Him.
  - exists t, i, []. rewrite app_nil_r. split_and!; [done|done|]. by intros ??? ?%elem_of_nil.
  - specialize (IH (fun m Hm => Hfn m (list_elem_of_further _ _ _ Hm))). cbn [children_loop].
    destruct (Hfn n ltac:(by left)) as [[Hgone ->]|Hp].
    + rewrite bool_decide_eq_true_2 by done. destruct (IH t i added Him) as (t' & i' & ts & E & Him' & Hin).
      exists t', i', ts. split_and!; [done|done|]. intros m file name [->|Hm]%elem_of_cons Hlf; [|by eapply Hin].
      destruct Hlf; congruence.
    + destruct (Hp t i added Him) as (t1 & i1 & ts1 & -> & Him1 & Hin1).
      destruct (IH t1 i1 _ Him1) as (t' & i' & ts & E & Him' & Hin). exists t', i', (ts1 ++ ts).
      rewrite <- app_assoc in Him'. split_and!; [done|done|]. intros m file name [->|Hm]%elem_of_cons Hlf.
      * rewrite !app_assoc, names_app. apply elem_of_app. left. rewrite <- app_assoc. by eapply Hin1.
      * rewrite <- app_assoc in Hin. by eapply Hin.
Qed.

Lemma WriteFile_packs fuel d src dest base :
  readable h d src -> (d < fuel)%nat -> (forall file name, leaf h src dest file name -> Packed file name) ->
  packs src dest base (WriteFile h fuel src dest).
Proof.
  revert d src dest. induction fuel as [|fuel IH]; intros d src dest Hr Hf HP t i added Him; [lia|]. cbn [WriteFile fst snd].
  destruct Hr as [d src st Hs Hd Hl|d src st ns Hs Hd Hn Hch].
  - pose proof (HP _ _ (leaf_here h src dest st Hs Hd)) as HPs. destruct (named _ _ HPs) as [Hsep Hdot].
    destruct (image_file t i base added src dest st Him Hs Hd Hl HPs Hsep Hdot) as (t' & r & i' & ts & Eg & Em & Ew & Him' & Hin).
    rewrite Eg, Em, (proj2 (Z.eqb_neq _ _) Hd), Ew. exists t', i', ts. split_and!; [done|done|].
    intros file name Hlf. inversion Hlf; subst; [done|congruence].
  - destruct (GetRecord_spec src st t Hs) as (r & Eg & Em & _); [by rewrite (fileMode_dir _ Hd)|].
    rewrite Eg, Em, Hd, Z.eqb_refl. unfold children. rewrite Hn.
    pose proof (image_dir _ _ _ _ _ _ Him Hs Hd) as Him1.
    edestruct (children_packs (fun name => WriteFile h fuel (PathJoin [src; name]) (PathJoin [dest; name])) base src dest ns)
      as (t' & i' & ts & E & Him' & Hin); [|exact Him1|].
    + intros n Hin. destruct (Hch n Hin) as [Hgone|Hrd]; [left|right].
      * split; [done|]. intros [t2 i2]. destruct fuel; [lia|]. cbn [WriteFile fst snd].
        unfold GetRecord, mbind, M_bind, lift. by rewrite Hgone.
      * eapply IH; [exact Hrd|lia|]. intros file name Hlf. apply HP. by eapply leaf_in.
    + exists t', i', ts. split_and!; [done|done|]. intros file name Hlf. inversion Hlf as [|? ? ? ns' n ? ? ? ? Hn' Hin' Hlf']; subst; [congruence|].
      rewrite Hn in Hn'. injection Hn' as <-. by eapply Hin.
Qed.

(** A list of trees, copied one after the other. *)
Definition packs_all (roots : list (bytes * bytes)) (base : list Rec) (m : inodes * Initramfs -> option ((inodes * Initramfs) * outcome error unit)) : Prop :=
  forall t i added, image t i base added ->
    exists t' i' ts, m (t, i) = Some ((t', i'), Ret tt) /\ image t' i' base (added ++ ts) /\
      forall file name, packed h roots file name -> rel_name name ∈ names (base ++ added ++ ts).

Lemma packs_all_one src dest base m : packs src dest base m -> packs_all [(src, dest)] base m.
Proof.
  intros Hm t i added Him. destruct (Hm t i added Him) as (t' & i' & ts & E & Him' & Hin). exists t', i', ts.
  split_and!; [done|done|]. intros file name (s & d & [= -> ->]%list_elem_of_singleton & Hl). by eapply Hin.
Qed.

Lemma packs_all_then roots1 roots2 base m k :
  packs_all roots1 base m -> packs_all roots2 base k -> packs_all (roots1 ++ roots2) base (fun s => then_ (m s) k).
Proof.
  intros Hm Hk t i added Him. destruct (Hm t i added Him) as (t1 & i1 & ts1 & E1 & Him1 & Hin1).
  destruct (Hk t1 i1 _ Him1) as (t2 & i2 & ts2 & E2 & Him2 & Hin2). exists t2, i2, (ts1 ++ ts2).
  rewrite <- app_assoc in Him2. rewrite E1. cbn [then_]. split_and!; [done|done|].
  intros file name (s & d & [Hr|Hr]%elem_of_app & Hl).
  - rewrite !app_assoc, names_app. apply elem_of_app. left. rewrite <- app_assoc. apply (Hin1 file). by exists s, d.
  - rewrite <- app_assoc in Hin2. apply (Hin2 file). by exists s, d.
Qed.

Lemma packs_all_nil base : packs_all [] base (fun s => Some (s, Ret tt)).
Proof.
  intros t i added Him. exists t, i, []. rewrite app_nil_r. split_and!; [done|done|].
  by intros file name (s & d & ?%elem_of_nil & _).
Qed.

(** The trees of one list of names. *)
Definition roots_of (sd dd : bytes) (fls : list bytes) : list (bytes * bytes) :=
  (fun f => (PathJoin [sd; f], PathJoin [dd; f])) <$> fls.

Definition good_roots (d : nat) (roots : list (bytes * bytes)) : Prop :=
  forall src dest, (src, dest) ∈ roots -> readable h d src /\ forall file name, leaf h src dest file name -> Packed file name.

Lemma WriteFiles_packs fuel d sd dd fls base :
  good_roots d (roots_of sd dd fls) -> (d < fuel)%nat ->
  packs_all (roots_of sd dd fls) base (WriteFiles h fuel sd dd fls).
Proof.
  intros Hg Hf. induction fls as [|f fls IH]; [apply packs_all_nil|].
  pose proof (packs_all_then [(PathJoin [sd; f], PathJoin [dd; f])] (roots_of sd dd fls) base
    (WriteFile h fuel (PathJoin [sd; f]) (PathJoin [dd; f])) (WriteFiles h fuel sd dd fls)) as Ht.
  intros t i added Him. edestruct Ht as (t' & i' & ts & E & Him' & Hin); [| |exact Him|].
  - destruct (Hg (PathJoin [sd; f]) (PathJoin [dd; f]) ltac:(by left)) as [Hr HP].
    apply packs_all_one. by eapply WriteFile_packs.
  - apply IH. intros src dest Hin. apply Hg. by right.
  - exists t', i', ts. split_and!; [|done|exact Hin]. rewrite <- E. cbn [WriteFiles]. unfold then_.
    by destruct (WriteFile _ _ _ _ _) as [[? [[]|?|]]|].
Qed.
End Packed.

(** ** The initial archive with its [init] renamed *)

Section Rename.
Context (useinit : bool).
Abbreviation t := (Scripts.transform useinit).

Definition new_name (n : bytes) : bytes := if negb useinit && bytes_eqb n (str "init") then str "inito" else n.

Lemma transform_Name r : Name (info (t r)) = new_name (Name (info r)).
Proof. unfold Scripts.transform, new_name. destruct useinit; [done|]. simpl. by destruct (bytes_eqb _ _). Qed.

Lemma transform_sized fs r : sized fs r -> sized fs (t r).
Proof. unfold Scripts.transform, sized. destruct useinit; [done|]. by destruct (bytes_eqb _ _). Qed.

Lemma new_name_abs n : IsAbs n = false -> IsAbs (new_name n) = false.
Proof. unfold new_name. by destruct (negb useinit && _). Qed.

(** The parents stay in front, when nothing is below [init]. *)
Lemma renamed_parents_first (k : Rec -> Rec) rs acc seen :
  (forall r, Name (info (k r)) = Name (info r)) ->
  parents_first acc (names rs) = true -> Forall (fun n => IsAbs n = false /\ Dir n <> str "init") (names rs) ->
  (forall n, n ∈ acc -> new_name n ∈ seen) ->
  parents_first seen (names (survivors (list_to_set seen) ((fun r => t (k r)) <$> rs))) = true.
Proof.
  intros Hk. revert acc seen. induction rs as [|r rs IH]; intros acc seen Hp Hf Hacc; [done|].
  cbn [names fmap list_fmap parents_first] in Hp, Hf. apply andb_prop in Hp as [Hd Hp].
  apply bool_decide_eq_true in Hd. apply Forall_cons in Hf as [[Ha Hi] Hf].
  rewrite fmap_cons. cbn [survivors].
  assert (Name (info (relative (t (k r)))) = new_name (Name (info r))) as Hnm.
  { rewrite relative_name. unfold rel_name. by rewrite transform_Name, Hk, (new_name_abs _ Ha). }
  rewrite Hnm. case_bool_decide as Hin.
  - apply (IH (acc ++ [Name (info r)])); [done|done|]. apply elem_of_list_to_set in Hin.
    intros n [Hn| ->%list_elem_of_singleton]%elem_of_app; auto.
  - cbn [names fmap list_fmap parents_first]. rewrite Hnm. apply andb_true_intro. split.
    + apply bool_decide_eq_true. unfold new_name at 1 2. destruct (negb useinit && bytes_eqb (Name (info r)) _) eqn:E; [by left|].
      destruct Hd as [?|Hd]; [by left|right]. apply Hacc in Hd. unfold new_name in Hd.
      rewrite (bytes_eqb_neq _ _ Hi), andb_false_r in Hd. done.
    + replace ({[new_name (Name (info r))]} ∪ list_to_set seen : gset bytes) with (list_to_set (seen ++ [new_name (Name (info r))]) : gset bytes) by set_solver.
      apply (IH (acc ++ [Name (info r)])); [done|done|].
      intros n [Hn| ->%list_elem_of_singleton]%elem_of_app; apply elem_of_app; [left; auto|right; by left].
Qed.
End Rename.

(** ** Properties *)

(** The trees that [scripts/ramfs.go] packs: those of the lists and the temporary directory. *)
Definition script_roots (c : Scripts.Config) (goList urootList : list bytes) : list (bytes * bytes) :=
  roots_of (Scripts.Goroot c) (str "go") goList ++ roots_of (Scripts.Gopath c) [] urootList ++ [(Scripts.TempDir c, [])].

(** The archive that [-cpio] names. *)
Definition initial_archive (fs : files) (initial : option (bytes + error)) (rs : list Rec) : Prop :=
  (initial = None /\ rs = []) \/
  exists b, initial = Some (inl (concat (record_bytes newcMagic fs <$> rs) ++ record_bytes newcMagic fs TrailerRecord ++ b)).

Abbreviation dev_records := (survivors ∅ (MakeAllReproducible DevCPIO)).
Abbreviation initial_records fs useinit rs :=
  (survivors (list_to_set (names dev_records)) ((fun r => Scripts.transform useinit (newc_kept fs r)) <$> rs)).

(** Adding the initial archive to a new initramfs. *)
Lemma initial_added fs useinit initial rs w i :
  NewInitramfs (NewArchive fs) = (w, Ret i) -> initial_archive fs initial rs ->
  Forall (newc_writable fs) rs -> Trailer ∉ names rs -> parents_first [] (names rs) = true ->
  Forall (fun n => IsAbs n = false /\ Dir n <> str "init") (names rs) ->
  exists s, match initial with
      | None => Some ((inodes0, i), Ret tt)
      | Some (inr e) => Some ((inodes0, i), Fail e)
      | Some (inl data) => @init_Concat (newc_format fs) (S (length data)) (Scripts.transform useinit) (NewReader newcMagic data) (inodes0, i)
      end = Some (s, Ret tt) /\
    @ramfs_inv (newc_format fs) (NewWriter newcMagic {| buf := [] |}) (snd s) (dev_records ++ initial_records fs useinit rs).
Proof.
  intros Hn Hini Hw Ht Hp Hf. apply (@NewInitramfs_inv (newc_format fs)) in Hn.
  destruct Hini as [[-> ->]|[b ->]].
  - eexists. split; [done|]. rewrite app_nil_r. exact Hn.
  - apply (Concat_inv fs) with (t := Scripts.transform useinit); [exact Hn| |done|done| |].
    + apply Forall_fmap. eapply Forall_impl; [exact Hw|]. intros r Hr. by apply transform_sized, sized_kept.
    + pose proof (length_archive fs rs) as Hl. unfold archive_of in Hl. rewrite length_app.
      cbn [encoding newc_format_ok] in Hl. lia.
    + apply (renamed_parents_first useinit (newc_kept fs) rs []); [done|done|done|]. intros n Hin. by apply elem_of_nil in Hin.
Qed.

Lemma NewInitramfs_newc fs : exists w i, @NewInitramfs (newc_format fs) (NewArchive fs) = (w, Ret i).
Proof.
  unfold NewInitramfs, NewArchive, NewCWriter.
  pose proof (@WriteRecords_write_all (newc_format fs) (MakeAllReproducible DevCPIO) (NewWriter newcMagic {| buf := [] |}) ∅) as Hw.
  destruct (sized_write_all fs (survivors ∅ (MakeAllReproducible DevCPIO)) (NewWriter newcMagic {| buf := [] |}) (sized_DevCPIO fs)) as [w1 E].
  rewrite E in Hw. rewrite Hw. by eauto.
Qed.

Lemma init_WriteTrailer_ok fs s : exists s', @init_WriteTrailer (newc_format fs) s = Some (s', Ret tt).
Proof.
  unfold init_WriteTrailer, WriteTrailer, CWriter_WriteRecord. case_bool_decide; [by eauto|].
  cbn [fmt_WriteRecord newc_format].
  destruct (succeeds_WriteRecord fs (@rw (newc_format fs) (i_Writer (snd s))) (relative TrailerRecord)) as (w2 & [] & ->); [|by eauto].
  intros c [= <-]. by exists [].
Qed.

Lemma then_assoc3 {St} (m : option (St * outcome error unit)) k1 k2 k3 :
  then_ m (fun s => then_ (k1 s) (fun s => then_ (k2 s) k3)) = then_ (then_ m (fun s => then_ (k1 s) k2)) k3.
Proof. destruct m as [[s [[]|e|]]|]; try done. cbn [then_]. by destruct (k1 s) as [[s1 [[]|e|]]|]. Qed.

(** The first steps leave no inode numbered. *)
Lemma initial_inodes fs useinit initial i s :
  match initial with
  | None => Some ((inodes0, i), Ret tt)
  | Some (inr e) => Some ((inodes0, i), Fail e)
  | Some (inl data) => @init_Concat (newc_format fs) (S (length data)) (Scripts.transform useinit) (NewReader newcMagic data) (inodes0, i)
  end = Some (s, Ret tt) -> fst s = inodes0.
Proof.
  destruct initial as [[data|e]|]; [|done|by intros [= <-]].
  unfold init_Concat. destruct (Concat _ _ _ _) as [[[? ?] ?]|]; [|done]. by intros [= <- _].
Qed.

Lemma image_start fs h Packed t i base :
  @ramfs_inv (newc_format fs) (NewWriter newcMagic {| buf := [] |}) i base -> Forall (sized fs) base -> t = inodes0 ->
  image fs h Packed t i base [].
Proof. intros Hi Hs ->. split; rewrite ?app_nil_r; [done|done|done|]. intros d j Hj. cbn in Hj. by rewrite lookup_empty in Hj. Qed.

(** The copies of [pack], one after the other. *)
Lemma script_packs fs h fuel d c gl ul base :
  let Packed := packed h (script_roots c gl ul) in
  host_ok fs h -> (forall src dest, (src, dest) ∈ script_roots c gl ul -> readable h d src) -> (d < fuel)%nat ->
  (forall file name, Packed file name -> name <> sep /\ name <> dot) ->
  packs_all fs h Packed (script_roots c gl ul) base (fun s =>
    then_ (@WriteFiles (newc_format fs) h fuel (Scripts.Goroot c) (str "go") gl s) (fun s =>
    then_ (@WriteFiles (newc_format fs) h fuel (Scripts.Gopath c) [] ul s) (@WriteFile (newc_format fs) h fuel (Scripts.TempDir c) []))).
Proof.
  intros Packed Hok Hrd Hfuel Hnm.
  assert (good_roots h Packed d (script_roots c gl ul)) as Hg.
  { intros src dest Hin. split; [by eapply Hrd|]. intros file name Hl. by exists src, dest. }
  clearbody Packed. clear Hrd. unfold script_roots in *. apply packs_all_then; [|apply packs_all_then].
  - eapply WriteFiles_packs; [done|exact Hnm| |exact Hfuel]. intros src dest Hin. apply Hg, elem_of_app. by left.
  - eapply WriteFiles_packs; [done|exact Hnm| |exact Hfuel]. intros src dest Hin. apply Hg, elem_of_app. right. apply elem_of_app. by left.
  - apply packs_all_one. destruct (Hg (Scripts.TempDir c) []) as [Hr HP]; [rewrite !elem_of_app; do 2 right; by left|].
    by eapply WriteFile_packs.
Qed.

(** C7: [scripts/ramfs.go] on a host that keeps still, with trees that can be read to a depth below
    the fuel, none of whose files is to be archived as the root itself, and with an initial archive
    of relative names, none below [init], that follow their parents: the packing succeeds.  The
    image starts with the device records, goes on with the records of the initial archive under
    their new names, and then has only records of the packed files, each with the metadata and the
    contents of its file (a hard link may leave the contents to another name), and records of the
    directories above them; no name comes twice, every entry follows its parent, and every file of
    the lists and of the temporary directory has an entry under its name.  When no name is as long
    as 4 GB or that of the trailer, reading the image gives exactly these records. *)
Theorem image_reads_back fs h fuel d c initial gl ul rs :
  let Packed := packed h (script_roots c gl ul) in
  host_ok fs h -> (forall src dest, (src, dest) ∈ script_roots c gl ul -> readable h d src) -> (d < fuel)%nat ->
  (forall file name, Packed file name -> name <> sep /\ name <> dot) ->
  initial_archive fs initial rs ->
  Forall (newc_writable fs) rs -> Trailer ∉ names rs -> parents_first [] (names rs) = true ->
  Forall (fun n => IsAbs n = false /\ Dir n <> str "init") (names rs) ->
  exists s' added, Scripts.pack fs h fuel c initial gl ul = Some (s', Ret tt) /\
    let ss := dev_records ++ initial_records fs (Scripts.UseExistingInit c) rs ++ added in
    NoDup (names ss) /\ parents_first [] (names ss) = true /\
    (forall file name, Packed file name -> rel_name name ∈ names ss) /\
    Forall (packed_record fs h Packed) added /\
    (short_names (names ss) -> Trailer ∉ names ss ->
     exists r, @ReadRecords (newc_format fs) (S (length ss)) (NewReader newcMagic (archive_bytes s')) =
               Some (r, Ret (newc_kept fs <$> ss))).
Proof.
  intros Packed Hok Hrd Hfuel Hnm Hini Hw Ht Hp Hf. unfold Scripts.pack.
  destruct (NewInitramfs_newc fs) as (w & i & En). rewrite En.
  destruct (initial_added fs (Scripts.UseExistingInit c) initial rs w i En Hini Hw Ht Hp Hf) as (s1 & E1 & Hinv).
  pose proof (initial_inodes _ _ _ _ _ E1) as Ht1. rewrite E1. cbn [then_]. destruct s1 as [t1 i1]. cbn [fst snd] in *.
  set (base := dev_records ++ initial_records fs (Scripts.UseExistingInit c) rs) in *.
  assert (Forall (sized fs) base) as Hbase.
  { apply Forall_app_2; [apply sized_DevCPIO|]. apply sized_survivors, Forall_fmap.
    eapply Forall_impl; [exact Hw|]. intros r Hr. by apply transform_sized, sized_kept. }
  pose proof (script_packs fs h fuel d c gl ul base Hok Hrd Hfuel Hnm) as Hall.
  destruct (Hall t1 i1 [] (image_start _ _ _ _ _ _ Hinv Hbase Ht1)) as (t2 & i2 & added & E2 & [Hinv2 Hsz2 Hpk2 _] & Hin2).
  cbn [app] in *. rewrite then_assoc3, E2. cbn [then_].
  destruct (init_WriteTrailer_ok fs (t2, i2)) as [s' Es]. exists s', added.
  split; [exact Es|]. cbv zeta. rewrite (app_assoc dev_records). fold base.
  split; [exact (@inv_unique (newc_format fs) _ _ _ Hinv2)|]. split; [exact (@inv_parents (newc_format fs) _ _ _ Hinv2)|]. split; [exact Hin2|]. split; [exact Hpk2|].
  intros Hsh Htr. exact (trailer_reads fs (t2, i2) s' _ Hinv2 Hsz2 Hsh Htr Es).
Qed.

(** The host of [Ramfs] with the contents of its files, and an archive with an [init]. *)
Definition ex_files : files := fun p =>
  if bytes_eqb p (str "/d/f") then plain (str "hello") else if bytes_eqb p (str "/d/g") then plain [] else inr (Errno ENOENT).

Lemma same_inode_of (h : host) (l : list Stat_t) :
  (forall p st, lstat h p = Ret st -> st ∈ l) ->
  forallb (fun s => forallb (fun s' => negb ((st_dev s =? st_dev s') && (st_ino s =? st_ino s')) || (st_mode s =? st_mode s') && (st_nlink s =? st_nlink s') &&
    (st_uid s =? st_uid s') && (st_gid s =? st_gid s') && (st_rdev s =? st_rdev s') && (st_size s =? st_size s') && (st_mtime s =? st_mtime s')) l) l = true ->
  forall p q st st', lstat h p = Ret st -> lstat h q = Ret st' -> st_dev st = st_dev st' -> st_ino st = st_ino st' -> st = st'.
Proof.
  intros Hl Hb p q st st' Hp%Hl%list_elem_of_In Hq%Hl%list_elem_of_In Hd Hi. rewrite forallb_forall in Hb. specialize (Hb _ Hp).
  rewrite forallb_forall in Hb. specialize (Hb _ Hq). rewrite Hd, Hi, !Z.eqb_refl in Hb. cbn [andb negb orb] in Hb.
  rewrite !andb_true_iff, !Z.eqb_eq in Hb. destruct st, st'. cbn in *. by destruct_and!; subst.
Qed.

Lemma ex_host_ok : host_ok ex_files ex_host.
Proof.
  split; [|done|].
  - intros p st Hs Hm. cbn [lstat ex_host] in Hs. unfold ex_files.
    destruct (bytes_eqb p (str "/d")); [injection Hs as <-; done|].
    destruct (bytes_eqb p (str "/d/f")); [injection Hs as <-; by eexists|].
    destruct (bytes_eqb p (str "/d/g")); [injection Hs as <-; by eexists|done].
  - apply (same_inode_of ex_host [MkStat 1 1 (Z.lor S_IFDIR 0x1ed) 2 0 0 0 0 0; MkStat 1 2 (Z.lor S_IFREG 0x1a4) 1 0 0 0 5 0;
      MkStat 1 3 (Z.lor S_IFREG 0x1a4) 1 0 0 0 0 0]); [|vm_compute; reflexivity].
    intros p st Hs. cbn [lstat ex_host] in Hs. repeat case_match; try discriminate; injection Hs as <-; set_solver.
Qed.

Definition ex_init : list Rec :=
  [map_info (set_Name (str "init")) ex_rec; dir_record (str "sbin"); map_info (set_Name (str "sbin/x")) ex_rec].

Definition ex_config : Scripts.Config :=
  Scripts.MkConfig (str "/d") (str "amd64") (str "linux") (str "/d") (str "/d") [] (str "in.cpio") false.

Definition ex_cpio : bytes :=
  concat (record_bytes newcMagic ex_files <$> ex_init) ++ record_bytes newcMagic ex_files TrailerRecord ++ [].

Lemma ex_readable : readable ex_host 1 (str "/d").
Proof.
  apply (readable_dir ex_host 0) with (MkStat 1 1 (Z.lor S_IFDIR 0x1ed) 2 0 0 0 0 0) [str "f"; str "gone"; str "g"]; [done..|].
  intros n Hn. repeat (apply elem_of_cons in Hn as [->|Hn]); [right|by left|right|by apply elem_of_nil in Hn].
  - by eapply readable_file.
  - by eapply readable_file.
Qed.

(** The packed files of the example: [/d/f] under two names, [/d/g] under one. *)
Lemma ex_packed file name :
  packed ex_host (script_roots ex_config [str "f"] []) file name -> name ∈ [str "go/f"; str "f"; str "g"].
Proof.
  assert (forall d f n, leaf ex_host (str "/d/f") d f n -> n = d) as Hf.
  { intros d f n Hl. inversion Hl as [|? ? ? ? ? ? ? Hs Hd]; subst; [done|]. injection Hs as <-. done. }
  assert (forall d f n, leaf ex_host (str "/d/g") d f n -> n = d) as Hg.
  { intros d f n Hl. inversion Hl as [|? ? ? ? ? ? ? Hs Hd]; subst; [done|]. injection Hs as <-. done. }
  intros (src & dest & Hin & Hl). repeat (apply elem_of_cons in Hin as [[= -> ->]|Hin]); [| |by apply elem_of_nil in Hin].
  - apply Hf in Hl as ->. by left.
  - inversion Hl as [? ? ? Hs Hd|? ? ? ns n ? ? Hs Hd Hn Hin' Hl']; subst; [injection Hs as <-; done|].
    injection Hn as <-. repeat (apply elem_of_cons in Hin' as [->|Hin']); [| | |by apply elem_of_nil in Hin'].
    + apply Hf in Hl' as ->. right. by left.
    + inversion Hl'; done.
    + apply Hg in Hl' as ->. right. right. by left.
Qed.

Lemma image_reads_back_witness :
  exists s' added, Scripts.pack ex_files ex_host 2 ex_config (Some (inl ex_cpio)) [str "f"] [] = Some (s', Ret tt) /\
    let ss := dev_records ++ initial_records ex_files false ex_init ++ added in
    NoDup (names ss) /\ parents_first [] (names ss) = true /\ str "go/f" ∈ names ss.
Proof.
  destruct (image_reads_back ex_files ex_host 2 1 ex_config (Some (inl ex_cpio)) [str "f"] [] ex_init ex_host_ok)
    as (s' & added & E & H1 & H2 & H3 & _).
  - intros src dest Hin. repeat (apply elem_of_cons in Hin as [[= -> ->]|Hin]); [by eapply readable_file|exact ex_readable|by apply elem_of_nil in Hin].
  - lia.
  - intros file name Hp. apply ex_packed in Hp. repeat (apply elem_of_cons in Hp as [->|Hp]; [done|]). by apply elem_of_nil in Hp.
  - right. by exists [].
  - repeat apply Forall_cons_2; try apply Forall_nil_2; [by apply static_writable with (str "hello")|by split|by apply static_writable with (str "hello")].
  - apply (bool_decide_eq_true_1 _). vm_compute. reflexivity.
  - vm_compute. reflexivity.
  - apply (bool_decide_eq_true_1 _). vm_compute. reflexivity.
  - exists s', added. split; [exact E|]. split_and!; [exact H1|exact H2|].
    apply (H3 (str "/d/f") (str "go/f")). exists (str "/d/f"), (str "go/f"). split; [by left|]. by eapply leaf_here.
Defined.

(** The second name of a packed file is a hard link without contents, also when the record of the
    first was dropped because its name was taken: then the contents are lost. *)
Example dropped_first_link_loses_contents :
  let c := Scripts.MkConfig (str "/d") [] [] (str "/d") (str "/d") [] [] true in
  let cpio := record_bytes newcMagic ex_files (dir_record (str "go")) ++
    record_bytes newcMagic ex_files (map_info (set_Name (str "go/f")) (StaticRecord [] (info ex_rec))) ++ record_bytes newcMagic ex_files TrailerRecord in
  match Scripts.pack ex_files ex_host 2 c (Some (inl cpio)) [str "f"] [] with
  | Some (s', Ret _) =>
      match @ReadRecords (newc_format ex_files) 40 (NewReader newcMagic (archive_bytes s')) with
      | Some (_, Ret rs) => forallb (fun r => bool_decide (rc r <> Some (StaticRC (str "hello")))) rs = true
      | _ => False
      end
  | _ => False
  end.
Proof. vm_compute. reflexivity. Qed.

(** ** The image of [bb] *)

Section BbFacts.
Context (fs : files) (h : host).
#[local] Hint Extern 0 RecordFormat => exact (newc_format fs) : typeclass_instances.
Context (open : bytes -> bytes + error).

(** An archive whose entries are relative and follow their parents. *)
Definition good_archive (data : bytes) : Prop := exists rs b,
  data = concat (record_bytes newcMagic fs <$> rs) ++ record_bytes newcMagic fs TrailerRecord ++ b /\
  Forall (newc_writable fs) rs /\ (Trailer ∉ names rs) /\ parents_first [] (names rs) = true /\
  Forall (fun n => IsAbs n = false) (names rs).

Lemma parents_first_relative rs (k : Rec -> Rec) acc seen :
  (forall r, Name (info (k r)) = Name (info r)) ->
  parents_first acc (names rs) = true -> Forall (fun n => IsAbs n = false) (names rs) -> acc ⊆ seen ->
  parents_first seen (names (survivors (list_to_set seen) ((fun r => MakeReproducible (k r)) <$> rs))) = true.
Proof.
  intros Hk. revert acc seen. induction rs as [|r rs IH]; intros acc seen Hp Hf Hacc; [done|].
  cbn [names fmap list_fmap parents_first] in Hp, Hf. apply andb_prop in Hp as [Hd Hp].
  apply bool_decide_eq_true in Hd. apply Forall_cons in Hf as [Ha Hf].
  rewrite fmap_cons. cbn [survivors].
  assert (Name (info (relative (MakeReproducible (k r)))) = Name (info r)) as Hnm.
  { rewrite relative_name. change (Name (info (MakeReproducible (k r)))) with (Name (info (k r))).
    unfold rel_name. by rewrite Hk, Ha. }
  rewrite Hnm. case_bool_decide as Hin.
  - apply (IH (acc ++ [Name (info r)])); [done|done|]. apply elem_of_list_to_set in Hin. set_solver.
  - cbn [names fmap list_fmap parents_first]. rewrite Hnm. apply andb_true_intro. split.
    + apply bool_decide_eq_true. set_solver.
    + replace ({[Name (info r)]} ∪ list_to_set seen : gset bytes) with (list_to_set (seen ++ [Name (info r)]) : gset bytes) by set_solver.
      apply (IH (acc ++ [Name (info r)])); [done|done|]. set_solver.
Qed.

Lemma concat_all_extends extras (s : inodes * Initramfs) ss :
  (forall x, x ∈ extras -> exists data, open x = inl data /\ good_archive data) ->
  @ramfs_inv (newc_format fs) (NewWriter newcMagic {| buf := [] |}) (snd s) ss ->
  exists s' ts, BbImage.concat_all fs open extras s = Some (s', Ret tt) /\ fst s' = fst s /\
    @ramfs_inv (newc_format fs) (NewWriter newcMagic {| buf := [] |}) (snd s') (ss ++ ts) /\ Forall (sized fs) ts.
Proof.
  revert s ss. induction extras as [|x extras IH]; intros s ss Hx Hs; cbn [BbImage.concat_all].
  - exists s, []. by rewrite app_nil_r.
  - destruct (Hx x ltac:(by left)) as (data & -> & rs & b & -> & Hw & Ht & Hp & Hf).
    destruct (Concat_inv fs _ s ss MakeReproducible rs b
      (S (length (concat (record_bytes newcMagic fs <$> rs) ++ record_bytes newcMagic fs TrailerRecord ++ b))) Hs)
      as (s1 & E1 & Hs1); [|done|done| | |].
    + apply Forall_fmap. eapply Forall_impl; [exact Hw|]. intros r Hr. by apply sized_kept in Hr.
    + pose proof (length_archive fs rs) as Hl. unfold archive_of in Hl. cbn [encoding newc_format_ok] in Hl.
      rewrite length_app. lia.
    + apply (parents_first_relative rs (newc_kept fs) []); [done|done|done|by apply list_subseteq_nil].
    + unfold archive_of in E1. cbn [encoding newc_format_ok] in E1. rewrite E1. cbn [then_].
      assert (fst s1 = fst s) as Et
        by (revert E1; unfold init_Concat; destruct (Concat _ _ _ _) as [[[? ?] ?]|]; [by intros [= <- _]|done]).
      destruct (IH s1 _ (fun y Hy => Hx y (list_elem_of_further _ _ _ Hy)) Hs1) as (s' & us & E & Et' & Hu & Hsu).
      rewrite <- app_assoc in Hu. eexists s', _. split_and!; [exact E|congruence|exact Hu|]. apply Forall_app_2; [|done].
      apply sized_survivors, Forall_fmap. eapply Forall_impl; [exact Hw|]. intros r Hr. by apply sized_kept in Hr.
Qed.

Definition bb_roots (paths : list (bytes * list bytes)) : list (bytes * bytes) :=
  concat ((fun p => roots_of p.1 [] p.2) <$> paths).

Lemma write_paths_packs (Hok : host_ok fs h) Packed fuel d paths base :
  (forall file name, Packed file name -> name <> sep /\ name <> dot) ->
  good_roots h Packed d (bb_roots paths) -> (d < fuel)%nat ->
  packs_all fs h Packed (bb_roots paths) base (BbImage.write_paths fs h fuel paths).
Proof.
  intros Hnm Hg Hf. induction paths as [|[root lst] paths IH]; [apply packs_all_nil|].
  change (bb_roots ((root, lst) :: paths)) with (roots_of root [] lst ++ bb_roots paths) in *.
  apply (packs_all_then fs h Packed _ _ base (@WriteFiles (newc_format fs) h fuel root [] lst)).
  - eapply WriteFiles_packs; [done|exact Hnm| |exact Hf]. intros src dest Hin. apply Hg, elem_of_app. by left.
  - apply IH. intros src dest Hin. apply Hg, elem_of_app. by right.
Qed.
End BbFacts.

Lemma bb_roots_perm paths paths' p : paths ≡ₚ paths' -> p ∈ bb_roots paths <-> p ∈ bb_roots paths'.
Proof. intros Hp. unfold bb_roots. by rewrite Hp. Qed.

(** The image of [bb], made from a host that keeps still, trees that can be read to a depth below
    the fuel, and archives whose entries follow their parents, in whatever order the map is walked:
    the packing succeeds; after the device records and those of the archives there are only the
    records of the files of the binary's directory and of the added names with the libraries found
    for them, as [C7] says of them, and of the directories above; no name comes twice, every entry
    follows its parent, and the image can be read back. *)
Theorem bb_image_reads_back fs h Stat ldd_List open range fuel d gopath extraAdd extraCpio root :
  let roots := bb_roots (map_to_list (BbImage.all_paths gopath root)) in
  host_ok fs h -> (forall l, range l ≡ₚ l) ->
  BbImage.add_extra Stat ldd_List (Fields extraAdd) [] = Some (Ret root) ->
  (forall x, x ∈ Fields extraCpio -> exists data, open x = inl data /\ good_archive fs data) ->
  (forall src dest, (src, dest) ∈ roots -> readable h d src) -> (d < fuel)%nat ->
  (forall file name, packed h roots file name -> name <> sep /\ name <> dot) ->
  exists s' extra added,
    BbImage.initramfs fs h Stat ldd_List open range fuel None gopath extraAdd extraCpio = Some (s', Ret tt) /\
    let ss := dev_records ++ extra ++ added in
    NoDup (names ss) /\ parents_first [] (names ss) = true /\
    (forall file name, packed h roots file name -> rel_name name ∈ names ss) /\
    Forall (packed_record fs h (packed h roots)) added /\
    (short_names (names ss) -> Trailer ∉ names ss ->
     exists r, @ReadRecords (newc_format fs) (S (length ss)) (NewReader newcMagic (archive_bytes s')) =
               Some (r, Ret (newc_kept fs <$> ss))).
Proof.
  intros roots Hok Hr Hadd Hx Hrd Hfuel Hnm. unfold BbImage.initramfs.
  destruct (NewInitramfs_newc fs) as (w & i & En). rewrite En, Hadd.
  apply (@NewInitramfs_inv (newc_format fs)) in En.
  destruct (concat_all_extends fs open (Fields extraCpio) (inodes0, i) _ Hx En) as ([t1 i1] & extra & E1 & Et & Hinv & Hsz).
  rewrite E1. cbn [then_ fst snd] in *.
  assert (good_roots h (packed h roots) d (bb_roots (range (map_to_list (BbImage.all_paths gopath root))))) as Hg.
  { intros src dest Hin. rewrite (bb_roots_perm _ _ _ (Hr _)) in Hin. split; [exact (Hrd _ _ Hin)|].
    intros file name Hl. exists src, dest. split; [exact Hin|exact Hl]. }
  pose proof (write_paths_packs fs h Hok (packed h roots) fuel d _ (dev_records ++ extra) Hnm Hg Hfuel) as Hall.
  destruct (Hall t1 i1 [] (image_start _ _ _ _ _ _ Hinv (Forall_app_2 _ _ _ (sized_DevCPIO fs) Hsz) Et))
    as (t2 & i2 & added & E2 & [Hinv2 Hsz2 Hpk2 _] & Hin2).
  rewrite E2. cbn [then_ app] in *. destruct (init_WriteTrailer_ok fs (t2, i2)) as [s' Es]. exists s', extra, added.
  split; [exact Es|]. cbv zeta. rewrite (app_assoc dev_records).
  split; [exact (@inv_unique (newc_format fs) _ _ _ Hinv2)|]. split; [exact (@inv_parents (newc_format fs) _ _ _ Hinv2)|].
  split; [|split; [exact Hpk2|]].
  - intros file name (src & dest & Hin & Hl). apply (Hin2 file). exists src, dest. split; [|exact Hl].
    by rewrite (bb_roots_perm _ _ _ (Hr _)).
  - intros Hsh Htr. exact (trailer_reads fs (t2, i2) s' _ Hinv2 Hsz2 Hsh Htr Es).
Qed.

(** A tree as [bb] leaves it: the binary and a link to it. *)
Definition ex_bbsh : bytes := str "/g/src/github.com/u-root/u-root/bb/bbsh".

Definition ex_bb_host : host := MkHost
  (fun p => if bytes_eqb p (ex_bbsh ++ str "/init") then Ret (MkStat 1 1 (Z.lor S_IFREG 0x1ed) 1 0 0 0 3 0)
            else if bytes_eqb p (ex_bbsh ++ str "/ubin") then Ret (MkStat 1 2 (Z.lor S_IFDIR 0x1ed) 1 0 0 0 0 0)
            else if bytes_eqb p (ex_bbsh ++ str "/ubin/ls") then Ret (MkStat 1 3 (Z.lor modeSymlink 0x1ff) 1 0 0 0 5 0)
            else Fail (Errno ENOENT))
  (fun p => if bytes_eqb p (ex_bbsh ++ str "/ubin/ls") then Ret (str "/init") else Fail (Errno 22))
  (fun p => if bytes_eqb p (ex_bbsh ++ str "/ubin") then Ret [str "ls"] else Fail (Errno 20)).

Definition ex_bb_files : files := fun p => if bytes_eqb p (ex_bbsh ++ str "/init") then plain (str "ELF") else inr (Errno ENOENT).

Lemma ex_bb_host_ok : host_ok ex_bb_files ex_bb_host.
Proof.
  split.
  - intros p st Hs Hm. cbn [lstat ex_bb_host] in Hs. unfold ex_bb_files.
    destruct (bytes_eqb p (ex_bbsh ++ str "/init")); [injection Hs as <-; by eexists|].
    destruct (bytes_eqb p (ex_bbsh ++ str "/ubin")); [injection Hs as <-; done|].
    destruct (bytes_eqb p (ex_bbsh ++ str "/ubin/ls")); [injection Hs as <-; done|done].
  - intros p l. cbn [readlink ex_bb_host]. destruct (bytes_eqb p _); [|done]. by intros [= <-].
  - apply (same_inode_of ex_bb_host [MkStat 1 1 (Z.lor S_IFREG 0x1ed) 1 0 0 0 3 0; MkStat 1 2 (Z.lor S_IFDIR 0x1ed) 1 0 0 0 0 0;
      MkStat 1 3 (Z.lor modeSymlink 0x1ff) 1 0 0 0 5 0]); [|vm_compute; reflexivity].
    intros p st Hs. cbn [lstat ex_bb_host] in Hs. repeat case_match; try discriminate; injection Hs as <-; set_solver.
Qed.

Definition ex_bb_initramfs := BbImage.initramfs ex_bb_files ex_bb_host (fun _ => inr (Errno 2)) (fun _ => Some (Ret []))
  (fun _ => inl ex_cpio) (fun l => l) 2 None (str "/g") [].

Lemma ex_bb_readable p : p ∈ [ex_bbsh ++ str "/init"; ex_bbsh ++ str "/ubin"] -> readable ex_bb_host 1 p.
Proof.
  intros Hp. repeat (apply elem_of_cons in Hp as [->|Hp]); [by eapply readable_file| |by apply elem_of_nil in Hp].
  apply (readable_dir ex_bb_host 0) with (MkStat 1 2 (Z.lor S_IFDIR 0x1ed) 1 0 0 0 0 0) [str "ls"]; [done..|].
  intros n ->%list_elem_of_singleton. right. eapply readable_file; [done|done|]. intros _. by eexists.
Qed.

Lemma ex_bb_roots : bb_roots (map_to_list (BbImage.all_paths (str "/g") [])) =
  [(ex_bbsh ++ str "/init", str "init"); (ex_bbsh ++ str "/ubin", str "ubin")].
Proof. vm_compute. reflexivity. Qed.

Lemma ex_bb_packed file name :
  packed ex_bb_host (bb_roots (map_to_list (BbImage.all_paths (str "/g") []))) file name -> name ∈ [str "init"; str "ubin/ls"].
Proof.
  rewrite ex_bb_roots. intros (src & dest & Hin & Hl). repeat (apply elem_of_cons in Hin as [[= -> ->]|Hin]); [| |by apply elem_of_nil in Hin].
  - inversion Hl as [|? ? ? ? ? ? ? Hs Hd]; subst; [by left|]. injection Hs as <-. done.
  - inversion Hl as [? ? ? Hs Hd|? ? ? ns n ? ? Hs Hd Hn Hin' Hl']; subst; [injection Hs as <-; done|].
    injection Hn as <-. apply list_elem_of_singleton in Hin' as ->.
    inversion Hl' as [|? ? ? ? ? ? ? Hs' Hd']; subst; [right; by left|]. injection Hs' as <-. done.
Qed.

Lemma bb_image_reads_back_witness :
  exists s' added, ex_bb_initramfs [] = Some (s', Ret tt) /\
    NoDup (names (dev_records ++ added)) /\ str "ubin/ls" ∈ names (dev_records ++ added).
Proof.
  destruct (bb_image_reads_back ex_bb_files ex_bb_host (fun _ => inr (Errno 2)) (fun _ => Some (Ret []))
    (fun _ => inl ex_cpio) (fun l => l) 2 1 (str "/g") [] [] [] ex_bb_host_ok (fun l => reflexivity l) eq_refl)
    as (s' & extra & added & E & H1 & _ & H3 & _).
  - intros x Hx. by apply elem_of_nil in Hx.
  - rewrite ex_bb_roots. intros src dest Hin. apply ex_bb_readable. repeat (apply elem_of_cons in Hin as [[= -> ->]|Hin]); [by left|right; by left|by apply elem_of_nil in Hin].
  - lia.
  - intros file name Hp. apply ex_bb_packed in Hp. repeat (apply elem_of_cons in Hp as [->|Hp]; [done|]). by apply elem_of_nil in Hp.
  - exists s', (extra ++ added). split; [exact E|]. split; [exact H1|].
    apply (H3 (ex_bbsh ++ str "/ubin/ls") (str "ubin/ls")). exists (ex_bbsh ++ str "/ubin"), (str "ubin").
    split; [rewrite ex_bb_roots; right; left|].
    apply (leaf_in ex_bb_host) with (MkStat 1 2 (Z.lor S_IFDIR 0x1ed) 1 0 0 0 0 0) [str "ls"] (str "ls"); [done..|by left|].
    by apply (leaf_here ex_bb_host) with (MkStat 1 3 (Z.lor modeSymlink 0x1ff) 1 0 0 0 5 0).
Defined.

(** The archives of [-cpio] are added first: an [init] in one of them takes the place of the
    binary, which is then dropped as a duplicate. *)
Example extra_cpio_replaces_init :
  match ex_bb_initramfs (str "in.cpio") with
  | Some (s', Ret _) =>
      match @ReadRecords (newc_format ex_bb_files) 40 (NewReader newcMagic (archive_bytes s')) with
      | Some (_, Ret rs) => rc <$> List.filter (fun r => bytes_eqb (Name (info r)) (str "init")) rs
      | _ => []
      end
  | _ => []
  end = [Some (StaticRC (str "hello"))].
Proof. vm_compute. reflexivity. Qed.

(** ** The lists of Go files *)

Section GoFiles.
Context (go_list : bytes -> Scripts.goPackage + error).

Abbreviation files_of p := ((fun v => PathJoin [Scripts.ImportPath p; v]) <$> (Scripts.GoFiles p ++ Scripts.SFiles p ++ Scripts.HFiles p)).

(** [f] is a file of the package [v], in the Go tree or not. *)
Definition file_of (goroot : bool) (v f : bytes) : Prop :=
  exists p, go_list v = inl p /\ Scripts.p_Goroot p = goroot /\ f ∈ files_of p.

Definition files_in (goroot : bool) (s : Scripts.packing) : gset bytes :=
  if goroot then Scripts.gorootFiles s else Scripts.urootFiles s.

Definition lists (s : Scripts.packing) := (Scripts.goList s, Scripts.urootList s).

Lemma add_files_in goroot g ip vs s f :
  let s' := foldl (fun s v => Scripts.add_file g (PathJoin [ip; v]) s) s vs in
  (f ∈ files_in goroot s' <-> f ∈ files_in goroot s \/ (g = goroot /\ f ∈ (fun v => PathJoin [ip; v]) <$> vs)) /\
  Scripts.deps s' = Scripts.deps s /\ lists s' = lists s.
Proof.
  revert s. induction vs as [|v vs IH]; intros s; cbn [foldl].
  - split; [|done]. split; [by left|]. intros [?|[_ H]]; [done|by apply elem_of_nil in H].
  - destruct (IH (Scripts.add_file g (PathJoin [ip; v]) s)) as (IH1 & -> & ->). split; [|done].
    rewrite IH1, fmap_cons, elem_of_cons. unfold files_in. destruct goroot, g; cbn; set_solver.
Qed.

Lemma goListPkg_spec v s s' r :
  Scripts.goListPkg go_list v s = (s', r) ->
  r <> Panic /\ (forall p, r = Ret p <-> go_list v = inl p) /\
  (forall g f, f ∈ files_in g s' <-> f ∈ files_in g s \/ file_of g v f) /\
  Scripts.deps s' = Scripts.deps s /\ lists s' = lists s.
Proof.
  unfold Scripts.goListPkg, file_of. destruct (go_list v) as [p|e] eqn:E; intros H; injection H as <- <-.
  - split_and!; [done|intros q; split; [by intros [= ->]|by intros [= ->]]| |eapply (add_files_in true _ _ _ s [])..].
    intros g f. destruct (add_files_in g (Scripts.p_Goroot p) (Scripts.ImportPath p)
      (Scripts.GoFiles p ++ Scripts.SFiles p ++ Scripts.HFiles p) s f) as [-> _].
    split; (intros [?|H]; [by left|right]).
    + destruct H. by exists p.
    + destruct H as (q & Hq & ? & ?). injection Hq as ->. done.
  - split_and!; [done|by intros p| |done|done]. intros g f. split; [by left|]. intros [?|(q & ? & _)]; done.
Qed.

Lemma list_pkg_spec v s s' r :
  Scripts.list_pkg go_list v s = (s', r) ->
  r = Ret tt /\ lists s' = lists s /\
  (forall g f, f ∈ files_in g s' <-> f ∈ files_in g s \/ file_of g v f) /\
  (forall d, d ∈ Scripts.deps s' <-> d ∈ Scripts.deps s \/ exists p, go_list v = inl p /\ d ∈ Scripts.Deps p).
Proof.
  unfold Scripts.list_pkg, mbind, M_bind, result. destruct (Scripts.goListPkg go_list v s) as [s1 r1] eqn:E.
  destruct (goListPkg_spec _ _ _ _ E) as (Hp & Hr & Hf & Hd & Hl).
  destruct r1 as [p|e|]; [| |done]; intros [= <- <-]; split_and!; try done.
  - intros d. cbn. rewrite elem_of_union, elem_of_list_to_set, Hd, (proj1 (Hr p) eq_refl). naive_solver.
  - intros d. rewrite Hd. split; [by left|]. intros [?|(q & Hq & _)]; [done|]. by apply Hr in Hq.
Qed.

(** The loop over the packages: those that [go list] knows give their files and dependencies. *)
Lemma each_pkg_spec ps s s' r :
  each (Scripts.list_pkg go_list) ps s = (s', r) ->
  r = Ret tt /\ lists s' = lists s /\
  (forall g f, f ∈ files_in g s' <-> f ∈ files_in g s \/ exists v, v ∈ ps /\ file_of g v f) /\
  (forall d, d ∈ Scripts.deps s' <-> d ∈ Scripts.deps s \/ exists v p, v ∈ ps /\ go_list v = inl p /\ d ∈ Scripts.Deps p).
Proof.
  revert s. induction ps as [|v ps IH]; intros s; cbn [each].
  { intros [= <- <-]. split_and!; [done|done|..]; [intros g f|intros d]; (split; [by left|intros [?|H]; [done|]]).
    - destruct H as (v & Hv & _). by apply elem_of_nil in Hv.
    - destruct H as (v & p & Hv & _). by apply elem_of_nil in Hv. }
  unfold mbind, M_bind. destruct (Scripts.list_pkg go_list v s) as [s1 r1] eqn:E.
  destruct (list_pkg_spec _ _ _ _ E) as (-> & Hl & Hf & Hd). intros H.
  destruct (IH _ H) as (-> & IHl & IHf & IHd). split_and!; [done|congruence|intros g f|intros d].
  - rewrite IHf, Hf. setoid_rewrite elem_of_cons. naive_solver.
  - rewrite IHd, Hd. setoid_rewrite elem_of_cons. naive_solver.
Qed.

(** The loop over the dependencies. *)
Lemma each_dep_spec ps s s' :
  each (Scripts.list_dep go_list) ps s = (s', Ret tt) ->
  lists s' = lists s /\
  forall g f, f ∈ files_in g s' <-> f ∈ files_in g s \/ exists v, v ∈ ps /\ file_of g v f.
Proof.
  revert s. induction ps as [|v ps IH]; intros s; cbn [each].
  { intros [= <-]. split; [done|]. intros g f. split; [by left|]. intros [?|(v & Hv & _)]; [done|]. by apply elem_of_nil in Hv. }
  unfold mbind at 1, M_bind at 1, Scripts.list_dep at 1, mbind at 1, M_bind at 1, fatalf, wrap.
  destruct (Scripts.goListPkg go_list v s) as [s1 r1] eqn:E.
  destruct (goListPkg_spec _ _ _ _ E) as (Hp & Hr & Hf & Hd & Hl). destruct r1 as [p|e|]; [|done..].
  intros H. destruct (IH _ H) as [IHl IHf]. split; [congruence|]. intros g f. rewrite IHf, Hf.
  setoid_rewrite elem_of_cons. naive_solver.
Qed.
End GoFiles.

(** When [addGoFiles] goes through, the two lists have grown by exactly the files of the
    packages of the list that [go list] knows and of their dependencies, under [src], the files
    of the Go tree in one list and the others in the other. *)
Theorem addGoFiles_lists go_list range s s' :
  (forall (s : gset bytes) f, f ∈ range s <-> f ∈ s) ->
  Scripts.deps s = ∅ -> Scripts.gorootFiles s = ∅ -> Scripts.urootFiles s = ∅ ->
  Scripts.addGoFiles go_list range s = (s', Ret tt) ->
  exists gl ul, Scripts.goList s' = Scripts.goList s ++ gl /\ Scripts.urootList s' = Scripts.urootList s ++ ul /\
    forall goroot n, n ∈ (if goroot : bool then gl else ul) <->
      exists v f, n = PathJoin [str "src"; f] /\ file_of go_list goroot v f /\
        (v ∈ Scripts.pkgList s \/ exists w p, w ∈ Scripts.pkgList s /\ go_list w = inl p /\ v ∈ Scripts.Deps p).
Proof.
  intros Hrange Hd0 Hg0 Hu0 H. unfold Scripts.addGoFiles in H.
  M_inv H. injection Hm as <- <-. M_inv H. destruct (each_pkg_spec _ _ _ _ _ Hm) as (_ & Hl1 & Hf1 & Hd1).
  M_inv H. injection Hm0 as <- <-. M_inv H. destruct a0. destruct (each_dep_spec _ _ _ _ Hm0) as (Hl2 & Hf2).
  M_inv H. injection Hm1 as <- <-. injection H as <-. cbn [Scripts.add_lists Scripts.goList Scripts.urootList].
  rewrite Hl1 in Hl2. injection Hl2 as -> ->. eexists _, _. split_and!; [done|done|]. intros g n.
  transitivity (exists f, n = PathJoin [str "src"; f] /\ f ∈ files_in g s1).
  { destruct g; rewrite list_elem_of_fmap; setoid_rewrite Hrange; done. }
  assert (forall f, f ∈ files_in g s <-> False) as H0 by (intros f; unfold files_in; destruct g; rewrite ?Hg0, ?Hu0; set_solver).
  setoid_rewrite Hf2. setoid_rewrite Hf1. setoid_rewrite H0. setoid_rewrite Hrange. setoid_rewrite Hd1. rewrite Hd0.
  split.
  - intros (f & -> & [[[]|(v & Hv & Hfv)]|(v & [Hv|Hv] & Hfv)]); [eauto 10|by apply elem_of_empty in Hv|eauto 10].
  - intros (v & f & -> & Hfv & [Hv|Hv]); exists f; split; eauto 10.
Qed.

Definition ex_go_list (v : bytes) : Scripts.goPackage + error :=
  if bytes_eqb v (str "u/ls") then inl (Scripts.MkPackage [] [str "fmt"] [str "ls.go"] [] [] false (str "u/ls"))
  else if bytes_eqb v (str "fmt") then inl (Scripts.MkPackage [] [] [str "print.go"] [str "a.s"] [] true (str "fmt"))
  else inr (Errorf "exit status 1").

Definition ex_packing : Scripts.packing := Scripts.add_pkgs [str "u/none"; str "u/ls"] (Scripts.packing0 [] [] false).

Lemma addGoFiles_lists_witness :
  exists s', Scripts.addGoFiles ex_go_list elements ex_packing = (s', Ret tt) /\
    exists gl ul, Scripts.goList s' = str "pkg/include" :: gl /\ Scripts.urootList s' = ul /\
      str "src/fmt/a.s" ∈ gl /\ str "src/u/ls/ls.go" ∈ ul.
Proof.
  destruct (Scripts.addGoFiles ex_go_list elements ex_packing) as [s' r] eqn:E.
  assert (r = Ret tt) as ->.
  { assert (snd (Scripts.addGoFiles ex_go_list elements ex_packing) = Ret tt) as H by (vm_compute; reflexivity).
    rewrite E in H. exact H. }
  exists s'. split; [done|].
  destruct (addGoFiles_lists ex_go_list elements ex_packing s') as (gl & ul & H1 & H2 & H3);
    [intros; apply elem_of_elements|done..|exact E|].
  exists gl, ul. split_and!; [exact H1|exact H2|apply (proj2 (H3 true _))|apply (proj2 (H3 false _))].
  - exists (str "fmt"), (str "fmt/a.s"). split_and!; [done| |].
    + eexists. split_and!; [done|done|]. right. by left.
    + right. eexists (str "u/ls"), _. split_and!; [right; by left|done|by left].
  - exists (str "u/ls"), (str "u/ls/ls.go"). split_and!; [done| |].
    + eexists. split_and!; [done|done|]. by left.
    + left. right. by left.
Defined.
