(* ===== verification/Bb.v ===== *)
(** * The busybox mode ([bb/bb.go], [bb/config.go])

    [bb] turns the commands into packages of one binary: it rewrites the syntax tree of every
    file, writes the rewritten files with a file that registers the command, makes the links and
    the table of initialisers, and builds the result.  Parsing, printing and fixing imports
    belong to Go's own packages and are parameters; the syntax tree has the nodes the rewriting
    looks at, every other ast_node being [Other].  The last part is the [init] that the binary
    starts with. *)

From Stdlib Require Import Strings.String.
From S2P Require Import Boot Fs.
From S2P Require Export GoPath GoText Kernel.

(** ** Syntax trees ([go/ast]) *)

#[warnings="-register-all"]
Inductive ast_node :=
| Ident (name : bytes)
| SelectorExpr (x : ast_node) (sel : bytes)
| CallExpr (fn : ast_node) (args : list ast_node)
| FuncDecl (recv : option ast_node) (name : bytes) (type : ast_node) (body : option (list ast_node))
| ReturnStmt (results : list ast_node)
| Other (kind : bytes) (children : list ast_node).

Record comment := MkComment { c_line : Z; c_text : bytes }.

(** A file: its package clause, its declarations and all of its comments. *)
Record file := MkFile { f_name : bytes; f_line : Z; f_decls : list ast_node; f_comments : list (list comment) }.

Section NodeInd.
Context (P : ast_node -> Prop).
Context (P_Ident : forall s, P (Ident s)) (P_Sel : forall x s, P x -> P (SelectorExpr x s)).
Context (P_Call : forall f args, P f -> Forall P args -> P (CallExpr f args)).
Context (P_Func : forall r s t b, from_option P True r -> P t -> from_option (Forall P) True b -> P (FuncDecl r s t b)).
Context (P_Ret : forall l, Forall P l -> P (ReturnStmt l)) (P_Other : forall k l, Forall P l -> P (Other k l)).

Lemma ast_nested_ind : forall n, P n.
Proof.
  fix IH 1.
  assert (forall l, Forall P l) as Hl by (fix IHl 1; intros [|n l]; constructor; [apply IH|apply IHl]).
  intros [s|x s|f args|r s t b|l|k l]; [apply P_Ident|apply P_Sel|apply P_Call|apply P_Func|apply P_Ret|apply P_Other]; auto.
  - by destruct r; simpl.
  - by destruct b; simpl.
Qed.
End NodeInd.

(** ** Rewriting one file *)

(** What [oneFile] notes while it walks: [isMain] and [c.Init]. *)
Record notes := MkNotes { isMain : bool; Init : bytes }.

Section Walk.
Context (ins : ast_node -> M notes ast_node).

Fixpoint walk_nodes (l : list ast_node) : M notes (list ast_node) :=
  match l with
  | [] => mret []
  | n :: l => n ← ins n; l ← walk_nodes l; mret (n :: l)
  end.

Definition walk_option (o : option ast_node) : M notes (option ast_node) :=
  match o with
  | None => mret None
  | Some n => n ← ins n; mret (Some n)
  end.
End Walk.

Definition note_main : M notes unit := modify (fun s => MkNotes true (Init s)).
Definition note_init (cmd : bytes) : M notes unit := modify (fun s => MkNotes (isMain s) (cmd ++ str ".Init()")).

(** The name that is selected from package [flag]. *)
Definition flag_selector (fn : ast_node) : option bytes :=
  match fn with
  | SelectorExpr (Ident i) sel => if bytes_eqb i (str "flag") then Some sel else None
  | _ => None
  end.

(** The function given to [ast.Inspect]: a node is changed before its children are visited.
    [main] without a body is the nil pointer that panics. *)
Fixpoint inspect (cmd : bytes) (n : ast_node) : M notes ast_node :=
  match n with
  | Ident _ => mret n
  | SelectorExpr x sel => x ← inspect cmd x; mret (SelectorExpr x sel)
  | CallExpr fn args =>
      match flag_selector fn with
      | Some sel =>
          if bytes_eqb sel (str "Parse") then
            mret (CallExpr (SelectorExpr (Ident (cmd ++ str "flag")) sel) [Ident (str "os.Args[1:]")])
          else
            let fn := if bytes_eqb sel (str "Flag") then fn else SelectorExpr (Ident (cmd ++ str "flag")) sel in
            args ← walk_nodes (inspect cmd) args; mret (CallExpr fn args)
      | None => fn ← inspect cmd fn; args ← walk_nodes (inspect cmd) args; mret (CallExpr fn args)
      end
  | FuncDecl recv name type body =>
      let is_main := bytes_eqb name (str "main") in
      let is_init := match recv with None => bytes_eqb name (str "init") | Some _ => false end in
      let name' := if is_main then str "Main" else if is_init then str "Init" else name in
      _ ← (if is_main then match body with None => lift Panic | Some _ => note_main end
           else if is_init then note_init cmd else mret tt);
      recv ← walk_option (inspect cmd) recv;
      type ← inspect cmd type;
      match body with
      | None => mret (FuncDecl recv name' type None)
      | Some l =>
          l ← walk_nodes (inspect cmd) l;
          mret (FuncDecl recv name' type (Some (if is_main then l ++ [ReturnStmt []] else l)))
      end
  | ReturnStmt l => l ← walk_nodes (inspect cmd) l; mret (ReturnStmt l)
  | Other k l => l ← walk_nodes (inspect cmd) l; mret (Other k l)
  end.

(** The comments on the line of the package clause: [c.Text[0:9]] needs nine bytes. *)
Definition fix_comment (line : Z) (c : comment) : outcome error comment :=
  if negb (c_line c =? line) then Ret c
  else
    match slice (c_text c) 0 9 with
    | None => Panic
    | Some p => Ret (if bytes_eqb p (str "// import") then MkComment (c_line c) (str "// Import" ++ drop 9 (c_text c)) else c)
    end.

Fixpoint map_outcome {A B} (f : A -> outcome error B) (l : list A) : outcome error (list B) :=
  match l with
  | [] => Ret []
  | a :: l => b ← f a; bs ← map_outcome f l; Ret (b :: bs)
  end.

(** The rewritten file with what was noted. *)
Definition rewrite_file (cmd : bytes) (f : file) : outcome error (file * notes) :=
  match walk_nodes (inspect cmd) (f_decls f) (MkNotes false []) with
  | (s, Ret ds) =>
      cs ← map_outcome (map_outcome (fix_comment (f_line f))) (f_comments f);
      Ret (MkFile cmd (f_line f) ds cs, s)
  | (_, Fail e) => Fail e
  | (_, Panic) => Panic
  end.

(** ** The files that are written *)

Definition nl : bytes := [x0a].
Definition tab : bytes := [x09].
Definition in_quotes (s : bytes) : bytes := [x22] ++ s ++ [x22].

(** The template [bbsetupGo]. *)
Definition bbsetupGo (cmd : bytes) : bytes :=
  str "package " ++ cmd ++ nl ++ nl ++ str "import " ++ in_quotes (str "flag") ++ nl ++ nl ++
  str "var " ++ cmd ++ str "flag = flag.NewFlagSet(" ++ in_quotes cmd ++ str ", flag.ExitOnError)" ++ nl.

(** The template [cmdFunc]. *)
Definition cmdFunc (cmd init : bytes) : bytes :=
  str "package main" ++ nl ++ nl ++
  str "import " ++ in_quotes (str "github.com/u-root/u-root/bb/bbsh/cmds/" ++ cmd) ++ nl ++ nl ++
  str "func _forkbuiltin_" ++ cmd ++ str "(c *Command) (err error) {" ++ nl ++
  tab ++ cmd ++ str ".Main()" ++ nl ++
  tab ++ str "return" ++ nl ++ str "}" ++ nl ++ nl ++
  str "func " ++ cmd ++ str "Init() {" ++ nl ++
  tab ++ str "addForkBuiltIn(" ++ in_quotes cmd ++ str ", _forkbuiltin_" ++ cmd ++ str ")" ++ nl ++
  tab ++ init ++ nl ++ str "}" ++ nl.

Definition initMap0 : bytes := str "package main" ++ nl ++ nl ++ str "var initMap = map[string]func() {".
Definition initMap_entry (cmd : bytes) : bytes := nl ++ tab ++ in_quotes cmd ++ str ": " ++ cmd ++ str "Init,".

Definition skip : list bytes := [str "builtin"; str "init"; str "rush"; str "script"].

Record Command := MkCommand { Gopath : bytes; CmdName : bytes; CmdPath : bytes }.

Record Config := MkConfig {
  Commands : list Command; Cwd : bytes; Bbsh : bytes; Goroot : bytes; Gosrcroot : bytes; Arch : bytes; Goos : bytes;
  c_Gopath : bytes; Gopaths : list bytes; TempDir : bytes
}.

(** What [bb] asks for outside of its own memory. *)
Inductive bbcall :=
| Getwd
| MkTemp
| RemoveAll (dir : bytes)
| MkdirAll (dir : bytes)
| ParseDir (dir : bytes)
| WriteFile (name data : bytes) (perm : Z)
| Symlink (old new : bytes)
| Walk (dir : bytes)
| ReadFile (name : bytes)
| GoBuild (dir : bytes) (args : list bytes)
| Initramfs (goos arch : bytes).

(** A name met by [filepath.Walk]: its last element, and whether it is a directory, or an error. *)
Record walked := MkWalked { w_name : bytes; w_base : bytes; w_info : bool + error }.

Definition bbanswer (c : bbcall) : Type :=
  match c with
  | Getwd | MkTemp | ReadFile _ => bytes
  | ParseDir _ => list (list (bytes * file))
  | Walk _ => list walked
  | _ => unit
  end.

(** The calls, and the text of [initMap]. *)
Record bbstate := MkBb { calls : list bbcall; initMap : bytes }.

Section Bb.
Context (answer : forall c, list bbcall -> bbanswer c + error).
Context (format_Node : file -> bytes + error) (imports_Process : bytes -> bytes + error).
Context (getenv : bytes -> bytes) (runtime_GOARCH runtime_GOROOT initGo : bytes).
Context (Glob : bytes -> list bytes + error).

Definition bb_ask (c : bbcall) : M bbstate (bbanswer c) := fun s =>
  (MkBb (calls s ++ [c]) (initMap s), match answer c (calls s) with inl r => Ret r | inr e => Fail e end).

Definition or_error {S A} (msg : string) (r : A + error) : M S A :=
  match r with inl a => mret a | inr _ => raise (Errorf msg) end.

Definition oneFile (bbsh : bytes) (c : Command) (dir s : bytes) (f : file) : M bbstate unit :=
  '(f, n) ← lift (rewrite_file (CmdName c) f);
  out ← or_error "error formating: %v" (format_Node f);
  fullCode ← or_error "bad parse %q: %v" (imports_Process out);
  _ ← wrap (fun _ => Errorf "error writing to %q: %v") (bb_ask (WriteFile (PathJoin [dir; Base s]) fullCode 0x1b6));
  if isMain n then
    _ ← wrap (fun _ => Errorf "error writing to %q: %v")
          (bb_ask (WriteFile (PathJoin [bbsh; str "cmds"; CmdName c; str "bbsetup.go"]) (bbsetupGo (CmdName c)) 0x124));
    fullCode ← or_error "main commandline imports: bad parse %q: %v" (imports_Process (cmdFunc (CmdName c) (Init n)));
    wrap (fun _ => Errorf "error writing %q: %v")
      (bb_ask (WriteFile (PathJoin [bbsh; str "cmd_" ++ CmdName c ++ str ".go"]) fullCode 0x124))
  else mret tt.

(** A directory that cannot be parsed is logged; the command is left out. *)
Definition oneCmd (bbsh : bytes) (c : Command) : M bbstate unit :=
  let packageDir := PathJoin [bbsh; str "cmds"; CmdName c] in
  _ ← wrap (fun _ => Errorf "failed to create target directory %q: %v") (bb_ask (MkdirAll packageDir));
  p ← result (bb_ask (ParseDir (PathJoin [Gopath c; CmdPath c])));
  match p with
  | inr _ => mret tt
  | inl pkgs =>
      _ ← each (fun fs => each (fun '(n, v) =>
             wrap (fun _ => Errorf "error processing %s: %v") (oneFile bbsh c packageDir n v)) fs) pkgs;
      _ ← modify (fun s => MkBb (calls s) (initMap s ++ initMap_entry (CmdName c)));
      wrap (fun _ => Errorf "symlinking %v -> /init: %v")
        (bb_ask (Symlink (str "/init") (PathJoin [bbsh; str "ubin"; CmdName c])))
  end.

Definition buildinit (bbsh : bytes) : M bbstate unit :=
  bb_ask (GoBuild bbsh [str "build"; str "-o"; str "init"; str "."]).

(** ** Configuration *)

Definition bb_guessgoarch : bytes :=
  let arch := getenv (str "GOARCH") in if bytes_eqb arch [] then runtime_GOARCH else Clean arch.

Definition bb_guessgoroot : bytes :=
  let root := getenv (str "GOROOT") in if bytes_eqb root [] then runtime_GOROOT else Clean root.

Definition bb_guessgopath : outcome error (bytes * list bytes) :=
  let gopath := getenv (str "GOPATH") in
  if bytes_eqb gopath [] then Fail (Errorf "You have to set GOPATH, which is typically ~/go")
  else
    let l := Split x3a gopath in
    p ← or_panic (l !! 0%nat); Ret (p, l).

Definition doConfig : M bbstate Config :=
  cwd ← fatalf "Getwd: %v" (bb_ask Getwd);
  let goroot := bb_guessgoroot in
  '(gopath, gopaths) ← lift bb_guessgopath;
  tmp ← fatalf "%v" (bb_ask MkTemp);
  let bbsh := PathJoin [cwd; str "bbsh"] in
  _ ← result (bb_ask (RemoveAll bbsh));
  mret (MkConfig [] cwd bbsh goroot (Dir goroot) bb_guessgoarch (str "linux") gopath gopaths tmp).

(** ** [main] *)

(** The commands that a pattern names.  The pattern itself is replaced by its join with the
    path, so the next path is put before the last one. *)
Fixpoint find_commands (gopaths : list bytes) (v : bytes) : outcome error (list Command) :=
  match gopaths with
  | [] => Ret []
  | gp :: gopaths =>
      let v := PathJoin [gp; v] in
      cs ← match Glob v with
           | inr _ => Ret []
           | inl g => map_outcome (fun n =>
               match Rel gp n with
               | None => Fail (Errorf "Can't take rel path of %v from %v? %v")
               | Some r => Ret (MkCommand gp [] r)
               end) g
           end;
      rest ← find_commands gopaths v;
      Ret (cs ++ rest)
  end.

Definition named (c : Command) : Command := MkCommand (Gopath c) (Base (CmdPath c)) (CmdPath c).

Definition main_command (bbsh : bytes) (c : Command) : M bbstate unit :=
  if existsb (bytes_eqb (Base (CmdPath c))) skip then mret tt
  else fatalf "%v" (oneCmd bbsh (named c)).

(** The function given to [filepath.Walk]. *)
Definition copy_shell (bbsh : bytes) (w : walked) : M bbstate unit :=
  match w_info w with
  | inr e => raise e
  | inl true => mret tt
  | inl false =>
      b ← bb_ask (ReadFile (w_name w));
      bb_ask (WriteFile (PathJoin [bbsh; w_base w]) b 0x1a4)
  end.

Definition cmdlist0 : list bytes := [str "src/github.com/u-root/u-root/cmds/*"].

Definition bb_main (args : list bytes) : M bbstate unit :=
  cfg ← doConfig;
  let bbsh := Bbsh cfg in
  _ ← fatalf "%v" (bb_ask (MkdirAll (PathJoin [bbsh; str "ubin"])));
  let cmdlist := match args with [] => cmdlist0 | _ => args end in
  cs ← lift (map_outcome (find_commands (Gopaths cfg)) cmdlist);
  _ ← each (main_command bbsh) (concat cs);
  _ ← fatalf "%v" (bb_ask (WriteFile (PathJoin [bbsh; str "init.go"]) initGo 0x1a4));
  ws ← fatalf "%v" (bb_ask (Walk (PathJoin [c_Gopath cfg; str "src/github.com/u-root/u-root/cmds/rush"])));
  _ ← fatalf "%v" (each (copy_shell bbsh) ws);
  _ ← result (bb_ask (Symlink (str "/init") (PathJoin [bbsh; str "ubin"; str "rush"])));
  _ ← modify (fun s => MkBb (calls s) (initMap s ++ nl ++ str "}"));
  s ← get;
  _ ← fatalf "%v" (bb_ask (WriteFile (PathJoin [bbsh; str "initmap.go"]) (initMap s) 0x1a4));
  _ ← fatalf "%v" (buildinit bbsh);
  fatalf "%v" (bb_ask (Initramfs (Goos cfg) (Arch cfg))).
End Bb.

(** ** What the rewriting achieves *)

(** A use of the global flags: a call of a function of package [flag], conversions to
    [flag.Flag] apart. *)
Definition flag_call (fn : ast_node) : bool :=
  match flag_selector fn with Some sel => negb (bytes_eqb sel (str "Flag")) | None => false end.

Definition is_None {A} (o : option A) : bool := match o with None => true | Some _ => false end.

(** Nothing to rewrite: no [main], no function [init], no such call. *)
Fixpoint clean (n : ast_node) : bool :=
  match n with
  | Ident _ => true
  | SelectorExpr x _ => clean x
  | CallExpr fn args => negb (flag_call fn) && clean fn && forallb clean args
  | FuncDecl r name t b =>
      negb (bytes_eqb name (str "main")) && negb (is_None r && bytes_eqb name (str "init")) &&
      from_option clean true r && clean t && match b with Some l => forallb clean l | None => true end
  | ReturnStmt l => forallb clean l
  | Other _ l => forallb clean l
  end.

(** Inverts the binds of a walk that returned. *)
Ltac walk_inv H :=
  repeat (let s := fresh "s" in let a := fresh "a" in let H1 := fresh "Hm" in
          apply M_bind_inv in H as (s & a & H1 & H)); injection H as <- <-.

Section Rewriting.
Context (cmd : bytes).
Abbreviation ins := (inspect cmd).

(** The walk keeps the kind of a node. *)
Lemma visit_head n s s' n' :
  ins n s = (s', Ret n') ->
  match n' with
  | Ident i => n = Ident i
  | SelectorExpr x' sel => exists x, n = SelectorExpr x sel /\ exists s0 s1, ins x s0 = (s1, Ret x')
  | _ => True
  end.
Proof.
  destruct n as [i|x sel|f args|r nm t b|l|k l]; cbn [inspect]; intros H.
  - by injection H as <- <-.
  - walk_inv H. eauto.
  - destruct (flag_selector f) as [sel|]; [destruct (bytes_eqb sel (str "Parse"))|]; walk_inv H; done.
  - M_inv H. M_inv H. M_inv H. destruct b; walk_inv H; done.
  - by walk_inv H.
  - by walk_inv H.
Qed.

Lemma visit_selector fn s s' fn' : ins fn s = (s', Ret fn') -> flag_selector fn' = flag_selector fn.
Proof.
  intros H. pose proof (visit_head _ _ _ _ H) as Hh.
  destruct fn as [i|x sel|f args|r nm t b|l|k l]; cbn [inspect] in H.
  - by injection H as <- <-.
  - walk_inv H. destruct Hh as (x0 & [= <-] & q0 & q1 & H). pose proof (visit_head _ _ _ _ H) as Hx.
    destruct x; cbn [inspect] in H; try (by injection H as <- <-);
      destruct a; cbn [flag_selector]; try done.
  - by destruct fn'; try done; destruct Hh as (? & ? & _).
  - by destruct fn'; try done; destruct Hh as (? & ? & _).
  - by destruct fn'; try done; destruct Hh as (? & ? & _).
  - by destruct fn'; try done; destruct Hh as (? & ? & _).
Qed.

Definition cleans (n : ast_node) : Prop := forall s s' n', ins n s = (s', Ret n') -> clean n' = true.

Lemma walk_clean l s s' l' : Forall cleans l -> walk_nodes ins l s = (s', Ret l') -> forallb clean l' = true.
Proof.
  intros Hl. revert s l'. induction Hl as [|n l Hn _ IH]; intros s l' H; cbn [walk_nodes] in H.
  - by injection H as <- <-.
  - walk_inv H. cbn [forallb]. by rewrite (Hn _ _ _ Hm), (IH _ _ Hm0).
Qed.

Lemma flag_renamed sel : cmd <> [] -> flag_call (SelectorExpr (Ident (cmd ++ str "flag")) sel) = false.
Proof.
  intros Hc. unfold flag_call, flag_selector. rewrite bytes_eqb_neq; [done|]. intros E.
  apply (f_equal length) in E. rewrite length_app in E. destruct cmd; [done|]. simpl in E. lia.
Qed.

Lemma decl_name_clean nm (r : option ast_node) :
  let is_main := bytes_eqb nm (str "main") in
  let is_init := match r with None => bytes_eqb nm (str "init") | Some _ => false end in
  let nm' := if is_main then str "Main" else if is_init then str "Init" else nm in
  negb (bytes_eqb nm' (str "main")) && negb (is_None r && bytes_eqb nm' (str "init")) = true.
Proof.
  intros is_main is_init nm'. unfold nm', is_main, is_init. destruct (bytes_eqb nm (str "main")) eqn:E; [by destruct r|].
  destruct r; cbn [is_None]; [by rewrite E|]. destruct (bytes_eqb nm (str "init")) eqn:E2; [done|]. by rewrite E, E2.
Qed.

Lemma visit_clean n : cmd <> [] -> cleans n.
Proof.
  intros Hc. induction n as [i|x sel IH|f args IHf IHa|r nm t b IHr IHt IHb|l IH|k l IH] using ast_nested_ind;
    intros s s' n' H; cbn [inspect] in H.
  - by injection H as <- <-.
  - walk_inv H. by apply IH in Hm.
  - destruct (flag_selector f) as [sel|] eqn:Ef.
    + destruct (bytes_eqb sel (str "Parse")); [injection H as <- <-; cbn [clean forallb]; by rewrite flag_renamed|].
      walk_inv H. cbn [clean]. rewrite (walk_clean _ _ _ _ IHa Hm), andb_true_r.
      destruct (bytes_eqb sel (str "Flag")) eqn:E2; [|cbn [clean]; by rewrite flag_renamed].
      unfold flag_call. rewrite Ef, E2. unfold flag_selector in Ef. by destruct f as [|[]| | | |].
    + walk_inv H. cbn [clean]. unfold flag_call. rewrite (visit_selector _ _ _ _ Hm), Ef.
      by rewrite (IHf _ _ _ Hm), (walk_clean _ _ _ _ IHa Hm0).
  - M_inv H. M_inv H. M_inv H.
    assert (from_option clean true a0 = true /\ is_None a0 = is_None r) as [Hr Hn].
    { destruct r; cbn [walk_option] in Hm0; [walk_inv Hm0; by apply IHr in Hm2|by injection Hm0 as <- <-]. }
    pose proof (decl_name_clean nm r) as Hnm. cbn zeta in Hnm. rewrite <- Hn in Hnm. apply IHt in Hm1.
    destruct b as [l|]; walk_inv H; cbn [clean]; rewrite Hnm, Hr, Hm1; [|done].
    apply (walk_clean _ _ _ _ IHb) in Hm2. destruct (bytes_eqb nm (str "main")); [|by rewrite Hm2].
    by rewrite forallb_app, Hm2.
  - walk_inv H. by apply (walk_clean _ _ _ _ IH) in Hm.
  - walk_inv H. by apply (walk_clean _ _ _ _ IH) in Hm.
Qed.

(** What is clean already is kept, and nothing is noted. *)
Definition kept_as_is (n : ast_node) : Prop := forall s, clean n = true -> ins n s = (s, Ret n).

Lemma walk_kept l s : Forall kept_as_is l -> forallb clean l = true -> walk_nodes ins l s = (s, Ret l).
Proof.
  induction 1 as [|n l Hn _ IH]; cbn [forallb walk_nodes]; [done|]. intros [H1 H2]%andb_prop.
  rewrite (M_bind_Ret _ _ _ _ _ (Hn s H1)). by rewrite (M_bind_Ret _ _ _ _ _ (IH H2)).
Qed.

Lemma visit_kept n : kept_as_is n.
Proof.
  induction n as [i|x sel IH|f args IHf IHa|r nm t b IHr IHt IHb|l IH|k l IH] using ast_nested_ind;
    intros s; cbn [clean inspect].
  - done.
  - intros H. by rewrite (M_bind_Ret _ _ _ _ _ (IH s H)).
  - intros [[H1 H2]%andb_prop H3]%andb_prop. unfold flag_call in H1. destruct (flag_selector f) as [sel|].
    + destruct (bytes_eqb sel (str "Flag")) eqn:E; [|done].
      assert (bytes_eqb sel (str "Parse") = false) as -> by (by apply bytes_eqb_eq in E as ->).
      cbv zeta iota. by rewrite (M_bind_Ret _ _ _ _ _ (walk_kept _ s IHa H3)).
    + rewrite (M_bind_Ret _ _ _ _ _ (IHf s H2)). by rewrite (M_bind_Ret _ _ _ _ _ (walk_kept _ s IHa H3)).
  - intros [[[[H1 H2]%andb_prop H3]%andb_prop H4]%andb_prop H5]%andb_prop.
    apply negb_true_iff in H1, H2. rewrite H1.
    assert (match r with None => bytes_eqb nm (str "init") | Some _ => false end = false) as -> by (by destruct r).
    rewrite (M_bind_Ret (mret tt) _ s s tt eq_refl).
    assert (walk_option ins r s = (s, Ret r)) as Er.
    { destruct r as [x|]; cbn [walk_option]; [|done]. by rewrite (M_bind_Ret _ _ _ _ _ (IHr s H3)). }
    rewrite (M_bind_Ret _ _ _ _ _ Er), (M_bind_Ret _ _ _ _ _ (IHt s H4)).
    destruct b as [l|]; [|done]. by rewrite (M_bind_Ret _ _ _ _ _ (walk_kept _ s IHb H5)).
  - intros H. by rewrite (M_bind_Ret _ _ _ _ _ (walk_kept _ s IH H)).
  - intros H. by rewrite (M_bind_Ret _ _ _ _ _ (walk_kept _ s IH H)).
Qed.
End Rewriting.

(** ** Files and packages

    In a file, functions are declared at the top level only. *)
Fixpoint no_decl (n : ast_node) : bool :=
  match n with
  | Ident _ => true
  | SelectorExpr x _ => no_decl x
  | CallExpr fn args => no_decl fn && forallb no_decl args
  | FuncDecl _ _ _ _ => false
  | ReturnStmt l => forallb no_decl l
  | Other _ l => forallb no_decl l
  end.

Definition decl_ok (n : ast_node) : bool :=
  match n with
  | FuncDecl r _ t b => from_option no_decl true r && no_decl t && match b with Some l => forallb no_decl l | None => true end
  | _ => no_decl n
  end.

Definition main_decl (n : ast_node) : bool :=
  match n with FuncDecl _ name _ _ => bytes_eqb name (str "main") | _ => false end.
Definition init_decl (n : ast_node) : bool :=
  match n with FuncDecl None name _ _ => bytes_eqb name (str "init") | _ => false end.
Definition has_body (n : ast_node) : bool := match n with FuncDecl _ _ _ None => false | _ => true end.

Section FileFacts.
Context (cmd : bytes).
Abbreviation ins := (inspect cmd).

(** Inside of a declaration nothing is noted and nothing goes wrong. *)
Definition silent (n : ast_node) : Prop := no_decl n = true -> forall s, exists n', ins n s = (s, Ret n').

Lemma walk_silent l : Forall silent l -> forallb no_decl l = true -> forall s, exists l', walk_nodes ins l s = (s, Ret l').
Proof.
  induction 1 as [|n l Hn _ IH]; cbn [forallb walk_nodes]; [by eexists|]. intros [H1 H2]%andb_prop s.
  destruct (Hn H1 s) as [n' En]. destruct (IH H2 s) as [l' El].
  rewrite (M_bind_Ret _ _ _ _ _ En), (M_bind_Ret _ _ _ _ _ El). by eexists.
Qed.

Lemma visit_silent n : silent n.
Proof.
  induction n as [i|x sel IH|f args IHf IHa|r nm t b IHr IHt IHb|l IH|k l IH] using ast_nested_ind;
    intros H s; cbn [no_decl inspect] in *; [by eexists|..].
  - destruct (IH H s) as [x' E]. rewrite (M_bind_Ret _ _ _ _ _ E). by eexists.
  - apply andb_prop in H as [H1 H2]. destruct (walk_silent _ IHa H2 s) as [a' Ea].
    destruct (flag_selector f) as [sel|].
    + destruct (bytes_eqb sel (str "Parse")); [by eexists|]. cbv zeta. rewrite (M_bind_Ret _ _ _ _ _ Ea). by eexists.
    + destruct (IHf H1 s) as [f' Ef]. rewrite (M_bind_Ret _ _ _ _ _ Ef), (M_bind_Ret _ _ _ _ _ Ea). by eexists.
  - done.
  - destruct (walk_silent _ IH H s) as [l' E]. rewrite (M_bind_Ret _ _ _ _ _ E). by eexists.
  - destruct (walk_silent _ IH H s) as [l' E]. rewrite (M_bind_Ret _ _ _ _ _ E). by eexists.
Qed.

Lemma silent_all l : Forall silent l.
Proof. apply Forall_forall. intros n _. apply visit_silent. Qed.

Definition note_decl (s : notes) (n : ast_node) : notes :=
  MkNotes (isMain s || main_decl n) (if init_decl n then cmd ++ str ".Init()" else Init s).

Lemma main_not_init n : main_decl n = true -> init_decl n = false.
Proof. destruct n as [| | |[] nm t b| |]; try done. cbn. intros ->%bytes_eqb_eq. done. Qed.

Lemma visit_decl n s : decl_ok n = true -> (main_decl n = true -> has_body n = true) ->
  exists n', ins n s = (note_decl s n, Ret n').
Proof.
  intros Hok Hb. destruct n as [i|x sel|f args|r nm t b|l|k l];
    try (destruct (visit_silent _ Hok s) as [n' E]; exists n'; rewrite E; unfold note_decl; cbn; rewrite orb_false_r; by destruct s).
  cbn [decl_ok inspect] in *. apply andb_prop in Hok as [[H1 H2]%andb_prop H3].
  set (s1 := note_decl s (FuncDecl r nm t b)).
  assert ((if bytes_eqb nm (str "main") then match b with None => lift Panic | Some _ => note_main end
           else if match r with None => bytes_eqb nm (str "init") | Some _ => false end then note_init cmd else mret tt) s
          = (s1, Ret tt)) as E1.
  { pose proof (main_not_init (FuncDecl r nm t b)) as Hmi. unfold s1, note_decl. cbn [main_decl] in *.
    destruct (bytes_eqb nm (str "main")).
    - rewrite Hmi by done. destruct b; [|by specialize (Hb eq_refl)]. by rewrite orb_true_r.
    - rewrite orb_false_r. destruct r; cbn [init_decl]; [by destruct s|]. by destruct (bytes_eqb nm (str "init")), s. }
  rewrite (M_bind_Ret _ _ _ _ _ E1).
  assert (exists r', walk_option ins r s1 = (s1, Ret r')) as [r' Er].
  { destruct r as [x|]; cbn [walk_option]; [|by eexists]. destruct (visit_silent _ H1 s1) as [x' Ex].
    rewrite (M_bind_Ret _ _ _ _ _ Ex). by eexists. }
  destruct (visit_silent _ H2 s1) as [t' Et]. rewrite (M_bind_Ret _ _ _ _ _ Er), (M_bind_Ret _ _ _ _ _ Et).
  destruct b as [l|]; [|by eexists]. destruct (walk_silent _ (silent_all l) H3 s1) as [l' El].
  rewrite (M_bind_Ret _ _ _ _ _ El). by eexists.
Qed.

Lemma walk_decls ds s :
  forallb decl_ok ds = true -> (forall d, d ∈ ds -> main_decl d = true -> has_body d = true) ->
  exists ds', walk_nodes ins ds s = (foldl note_decl s ds, Ret ds').
Proof.
  revert s. induction ds as [|d ds IH]; intros s; cbn [forallb walk_nodes foldl]; [by eexists|].
  intros [H1 H2]%andb_prop Hb. destruct (visit_decl d s H1) as [d' Ed]; [apply Hb; by left|].
  destruct (IH (note_decl s d) H2) as [ds' Eds]; [intros x Hx; apply Hb; by right|].
  rewrite (M_bind_Ret _ _ _ _ _ Ed), (M_bind_Ret _ _ _ _ _ Eds). by eexists.
Qed.

Lemma foldl_notes ds s :
  isMain (foldl note_decl s ds) = isMain s || existsb main_decl ds /\
  Init (foldl note_decl s ds) = if existsb init_decl ds then cmd ++ str ".Init()" else Init s.
Proof.
  revert s. induction ds as [|d ds IH]; intros s; cbn [foldl existsb]; [by rewrite orb_false_r|].
  destruct (IH (note_decl s d)) as [-> ->]. cbn. rewrite orb_assoc. split; [done|].
  by destruct (init_decl d), (existsb init_decl ds).
Qed.

(** Declarations are rewritten one by one. *)
Lemma walk_Forall2 l s s' l' :
  walk_nodes ins l s = (s', Ret l') -> Forall2 (fun n n' => exists s s', ins n s = (s', Ret n')) l l'.
Proof.
  revert s l'. induction l as [|n l IH]; intros s l' H; cbn [walk_nodes] in H.
  - injection H as <- <-. constructor.
  - walk_inv H. constructor; [by eauto|by eapply IH].
Qed.

Lemma fix_comment_Ret line c : (c_line c = line -> 9 <= zlen (c_text c)) -> exists c', fix_comment line c = Ret c' /\ c_line c' = c_line c.
Proof.
  intros H. unfold fix_comment. destruct (Z.eqb_spec (c_line c) line) as [E|]; cbn [negb]; [|by eexists].
  rewrite slice_Some by (try apply H; lia || done). case_match; by eexists.
Qed.

Lemma map_outcome_Ret {A B} (f : A -> outcome error B) l :
  (forall a, a ∈ l -> exists b, f a = Ret b) -> exists bs, map_outcome f l = Ret bs.
Proof.
  induction l as [|a l IH]; intros H; cbn [map_outcome]; [by eexists|].
  destruct (H a ltac:(by left)) as [b ->]. destruct IH as [bs ->]; [intros; apply H; by right|]. by eexists.
Qed.
End FileFacts.

(** C13: rewriting a file gives its package the name of the command, and leaves no [main], no
    function [init] and no call on the global flags; declarations without them are kept, in
    place.  It goes through when every [main] has a body and the comments on the line of the
    package clause have nine bytes; the file counts as the one with [main] exactly when it
    declares one, and its initialiser is noted exactly when it is declared in the same file. *)
Theorem rewrite_file_clean (cmd : bytes) (f : file) :
  cmd <> [] -> forallb decl_ok (f_decls f) = true ->
  (forall d, d ∈ f_decls f -> main_decl d = true -> has_body d = true) ->
  (forall g c, g ∈ f_comments f -> c ∈ g -> c_line c = f_line f -> 9 <= zlen (c_text c)) ->
  exists f' n, rewrite_file cmd f = Ret (f', n) /\ f_name f' = cmd /\
    forallb clean (f_decls f') = true /\
    Forall2 (fun d d' => clean d = true -> d' = d) (f_decls f) (f_decls f') /\
    isMain n = existsb main_decl (f_decls f) /\
    Init n = (if existsb init_decl (f_decls f) then cmd ++ str ".Init()" else []).
Proof.
  intros Hc Hok Hb Hcom. unfold rewrite_file.
  destruct (walk_decls cmd (f_decls f) (MkNotes false []) Hok Hb) as [ds' E]. rewrite E.
  destruct (map_outcome_Ret (map_outcome (fix_comment (f_line f))) (f_comments f)) as [cs ->].
  { intros g Hg. apply map_outcome_Ret. intros c Hcc. destruct (fix_comment_Ret (f_line f) c) as (c' & Hc' & _); eauto. }
  destruct (foldl_notes cmd (f_decls f) (MkNotes false [])) as [Hm Hi].
  eexists _, _. split_and!; [done|done| | |exact Hm|exact Hi]; cbn [f_decls].
  - eapply walk_clean; [|exact E]. apply Forall_forall. intros n _. by apply visit_clean.
  - eapply Forall2_impl; [exact (walk_Forall2 _ _ _ _ _ E)|]. intros d d' (s & s' & Hv) Hcl.
    rewrite (visit_kept cmd d s Hcl) in Hv. by injection Hv as <- <-.
Qed.

(** A file with a [main], a method and a function [init], and calls on the flags. *)
Definition ex_sel (x s : string) : ast_node := SelectorExpr (Ident (str x)) (str s).

Definition ex_file : file :=
  MkFile (str "main") 5
    [Other (str "GenDecl") [CallExpr (ex_sel "flag" "Bool") [Ident (str "x")]];
     FuncDecl None (str "init") (Other (str "FuncType") []) (Some []);
     FuncDecl (Some (Ident (str "T"))) (str "init") (Other (str "FuncType") []) (Some []);
     FuncDecl None (str "main") (Other (str "FuncType") [])
       (Some [Other (str "ExprStmt") [CallExpr (ex_sel "flag" "Parse") []]; Other (str "ExprStmt") [CallExpr (ex_sel "fmt" "Println") []]])]
    [[MkComment 5 (str "// import a/b")]; [MkComment 9 (str "// x")]].

Example ex_rewritten : rewrite_file (str "ls") ex_file = Ret
  (MkFile (str "ls") 5
    [Other (str "GenDecl") [CallExpr (ex_sel "lsflag" "Bool") [Ident (str "x")]];
     FuncDecl None (str "Init") (Other (str "FuncType") []) (Some []);
     FuncDecl (Some (Ident (str "T"))) (str "init") (Other (str "FuncType") []) (Some []);
     FuncDecl None (str "Main") (Other (str "FuncType") [])
       (Some [Other (str "ExprStmt") [CallExpr (ex_sel "lsflag" "Parse") [Ident (str "os.Args[1:]")]];
              Other (str "ExprStmt") [CallExpr (ex_sel "fmt" "Println") []]; ReturnStmt []])]
    [[MkComment 5 (str "// Import a/b")]; [MkComment 9 (str "// x")]], MkNotes true (str "ls.Init()")).
Proof. reflexivity. Qed.

Lemma rewrite_file_clean_witness :
  exists f' n, rewrite_file (str "ls") ex_file = Ret (f', n) /\ f_name f' = str "ls" /\ forallb clean (f_decls f') = true /\
    isMain n = true /\ Init n = str "ls.Init()".
Proof.
  destruct (rewrite_file_clean (str "ls") ex_file) as (f' & n & H1 & H2 & H3 & _ & H4 & H5); [done|done| | |by exists f', n].
  - intros d Hd. repeat (apply elem_of_cons in Hd as [->|Hd]; [done|]). by apply elem_of_nil in Hd.
  - intros g c Hg Hc. repeat (apply elem_of_cons in Hg as [->|Hg]; [apply list_elem_of_singleton in Hc as ->; by vm_compute|]).
    by apply elem_of_nil in Hg.
Defined.

(** A comment of less than nine bytes behind the package clause ends [bb]. *)
Theorem short_comment_panics (cmd : bytes) (f : file) (c : comment) :
  c_line c = f_line f -> zlen (c_text c) < 9 -> f_comments f = [[c]] -> forallb no_decl (f_decls f) = true ->
  rewrite_file cmd f = Panic.
Proof.
  intros Hl Ht Hc Hd. unfold rewrite_file.
  destruct (walk_silent cmd (f_decls f) (silent_all cmd _) Hd (MkNotes false [])) as [ds ->].
  rewrite Hc. cbn [map_outcome]. unfold fix_comment. rewrite (proj2 (Z.eqb_eq _ _) Hl). cbn [negb].
  unfold slice. rewrite bool_decide_eq_false_2; [done|]. unfold zlen in Ht. lia.
Qed.

(** Only calls are rewritten: another use of package [flag] keeps the global set. *)
Example flag_use_kept :
  inspect (str "ls") (Other (str "AssignStmt") [ex_sel "flag" "Usage"; Ident (str "usage")]) (MkNotes false []) =
  (MkNotes false [], Ret (Other (str "AssignStmt") [ex_sel "flag" "Usage"; Ident (str "usage")])).
Proof. reflexivity. Qed.

(** A method called [main] counts as the command's main function. *)
Example method_main_taken :
  let m := FuncDecl (Some (Ident (str "T"))) (str "main") (Other (str "FuncType") []) (Some []) in
  (inspect (str "ls") m (MkNotes false [])).1 = MkNotes true [].
Proof. reflexivity. Qed.

(** ** The search for commands

    With several paths, each one is put in front of the pattern made for the path before it. *)
Fixpoint patterns (gopaths : list bytes) (v : bytes) : list bytes :=
  match gopaths with
  | [] => []
  | gp :: gopaths => PathJoin [gp; v] :: patterns gopaths (PathJoin [gp; v])
  end.

Lemma find_commands_patterns Glob1 Glob2 gopaths v :
  (forall p, p ∈ patterns gopaths v -> Glob1 p = Glob2 p) -> find_commands Glob1 gopaths v = find_commands Glob2 gopaths v.
Proof.
  revert v. induction gopaths as [|gp gopaths IH]; intros v H; cbn [find_commands patterns] in *; [done|].
  rewrite (H _ ltac:(by left)), (IH (PathJoin [gp; v])); [done|]. intros p Hp. apply H. by right.
Qed.

(** A command that is there only under the second of two paths is never found: nothing below
    that path is looked at but names that repeat the first path. *)
Theorem second_path_not_searched (a b v : bytes) (g : list bytes) :
  PathJoin [b; v] <> PathJoin [a; v] -> PathJoin [b; v] <> PathJoin [b; PathJoin [a; v]] ->
  find_commands (fun p => if bytes_eqb p (PathJoin [b; v]) then inl g else inl []) [a; b] v = Ret [].
Proof.
  intros H1 H2. rewrite (find_commands_patterns _ (fun _ => inl [])); [done|]. intros p Hp. cbn [patterns] in Hp.
  apply elem_of_cons in Hp as [->|Hp]; [by rewrite bytes_eqb_neq|].
  apply list_elem_of_singleton in Hp as ->. by rewrite bytes_eqb_neq.
Qed.

Lemma second_path_not_searched_witness :
  find_commands (fun p => if bytes_eqb p (PathJoin [str "/b"; str "c/*"]) then inl [str "/b/c/ls"] else inl [])
    [str "/a"; str "/b"] (str "c/*") = Ret [].
Proof. apply (second_path_not_searched (str "/a") (str "/b") (str "c/*") [str "/b/c/ls"]); vm_compute; discriminate. Defined.

(** ** Links and the table of initialisers *)

(** The links that were made. *)
Definition links (s : bbstate) : list bytes := omap (fun c => match c with Symlink _ new => Some new | _ => None end) (calls s).

Definition is_link (c : bbcall) : bool := match c with Symlink _ _ => true | _ => false end.

(** A part that neither makes links nor changes the table. *)
Definition leaves {A} (m : M bbstate A) : Prop := forall s, initMap (m s).1 = initMap s /\ links (m s).1 = links s.

Create HintDb leaves.

Lemma leaves_ret {A} (a : A) : leaves (mret a).
Proof. done. Qed.
Lemma leaves_lift {A} (o : outcome error A) : leaves (lift o).
Proof. done. Qed.
Lemma leaves_raise {A} e : leaves (raise e : M bbstate A).
Proof. done. Qed.
Lemma leaves_or_error {A} msg (r : A + error) : leaves (or_error msg r).
Proof. by destruct r. Qed.
Lemma leaves_ask answer c : is_link c = false -> leaves (bb_ask answer c).
Proof. intros Hc s. split; [done|]. unfold links, bb_ask. cbn. rewrite omap_app. destruct c; try done; cbn; by rewrite app_nil_r. Qed.
Lemma leaves_wrap {A} f (m : M bbstate A) : leaves m -> leaves (wrap f m).
Proof. intros Hm s. specialize (Hm s). unfold wrap. by destruct (m s) as [s' [a|e|]]. Qed.
Lemma leaves_fatalf {A} msg (m : M bbstate A) : leaves m -> leaves (fatalf msg m).
Proof. apply leaves_wrap. Qed.
Lemma leaves_result {A} (m : M bbstate A) : leaves m -> leaves (result m).
Proof. intros Hm s. specialize (Hm s). unfold result. by destruct (m s) as [s' [a|e|]]. Qed.
Lemma leaves_bind {A B} (m : M bbstate A) (f : A -> M bbstate B) : leaves m -> (forall a, leaves (f a)) -> leaves (m ≫= f).
Proof.
  intros Hm Hf s. specialize (Hm s) as [H1 H2]. unfold mbind, M_bind. destruct (m s) as [s' [a|e|]]; cbn [fst] in *; [|done..].
  destruct (Hf a s') as [-> ->]. done.
Qed.
Lemma leaves_each {A} (f : A -> M bbstate unit) l : (forall a, leaves (f a)) -> leaves (each f l).
Proof. intros Hf. induction l as [|a l IH]; cbn [each]; [apply leaves_ret|]. by apply leaves_bind. Qed.

#[local] Hint Resolve leaves_ret leaves_lift leaves_raise leaves_or_error leaves_wrap leaves_fatalf leaves_result leaves_bind
  leaves_each : leaves.
#[local] Hint Extern 2 (leaves (bb_ask _ _)) => apply leaves_ask; reflexivity : leaves.

Lemma leaves_Ret {A} (m : M bbstate A) s s' a : leaves m -> m s = (s', Ret a) -> initMap s' = initMap s /\ links s' = links s.
Proof. intros Hm E. specialize (Hm s). by rewrite E in Hm. Qed.

Section Links.
Context (answer : forall c, list bbcall -> bbanswer c + error).
Context (format_Node : file -> bytes + error) (imports_Process : bytes -> bytes + error).

Lemma leaves_oneFile bbsh c dir s f : leaves (oneFile answer format_Node imports_Process bbsh c dir s f).
Proof.
  unfold oneFile. apply leaves_bind; [auto with leaves|]. intros [f' n]. do 3 (apply leaves_bind; [auto with leaves|intros ?]).
  destruct (isMain n); [|auto with leaves]. do 2 (apply leaves_bind; [auto with leaves|intros ?]). auto with leaves.
Qed.

Lemma leaves_doConfig getenv arch goroot : leaves (doConfig answer getenv arch goroot).
Proof.
  unfold doConfig. apply leaves_bind; [auto with leaves|]. intros cwd. apply leaves_bind; [auto with leaves|].
  intros [gp gps]. auto with leaves.
Qed.

Lemma ask_calls msg c s s' a :
  fatalf msg (bb_ask answer c) s = (s', Ret a) -> s' = MkBb (calls s ++ [c]) (initMap s).
Proof. unfold fatalf, wrap, bb_ask. destruct (answer c (calls s)); [|done]. by intros [= <-]. Qed.

Lemma links_Symlink l m old new s : calls s = l -> links (MkBb (l ++ [Symlink old new]) m) = links s ++ [new].
Proof. intros <-. unfold links. cbn. by rewrite omap_app. Qed.

(** A command that is taken gets a link and an entry; one that cannot be parsed gets neither. *)
Lemma oneCmd_links bbsh c s s' :
  oneCmd answer format_Node imports_Process bbsh c s = (s', Ret tt) ->
  exists ns, (ns = [] \/ ns = [CmdName c]) /\ initMap s' = initMap s ++ concat (initMap_entry <$> ns) /\
    links s' = links s ++ ((fun n => PathJoin [bbsh; str "ubin"; n]) <$> ns).
Proof.
  unfold oneCmd. intros H. M_inv H. apply leaves_Ret in Hm as [E1 E2]; [|auto with leaves].
  M_inv H. apply leaves_Ret in Hm as [E3 E4]; [|auto with leaves]. destruct a0 as [pkgs|e].
  - M_inv H. apply leaves_Ret in Hm as [E5 E6].
    2:{ apply leaves_each. intros fs. apply leaves_each. intros [n v]. apply leaves_wrap, leaves_oneFile. }
    M_inv H. injection Hm as <- _. exists [CmdName c]. split; [by right|].
    unfold wrap, bb_ask in H. destruct (answer _ _); [|done]. injection H as <- _.
    cbn [calls initMap]. erewrite links_Symlink by reflexivity. rewrite E6, E4, E2, E5, E3, E1.
    cbn. by rewrite app_nil_r.
  - injection H as <-. exists []. rewrite E3, E1, E4, E2. cbn. rewrite !app_nil_r. auto.
Qed.

Lemma commands_links bbsh cs s s' :
  each (main_command answer format_Node imports_Process bbsh) cs s = (s', Ret tt) ->
  exists ns, ns `sublist_of` (Base ∘ CmdPath <$> cs) /\ Forall (fun n => n ∉ skip) ns /\
    initMap s' = initMap s ++ concat (initMap_entry <$> ns) /\
    links s' = links s ++ ((fun n => PathJoin [bbsh; str "ubin"; n]) <$> ns).
Proof.
  revert s. induction cs as [|c cs IH]; intros s; cbn [each].
  { intros [= <-]. exists []. cbn. by rewrite !app_nil_r. }
  intros H. M_inv H. destruct a. destruct (IH _ H) as (ns & Hs & Hk & Hi & Hl).
  unfold main_command in Hm. destruct (existsb _ skip) eqn:Es.
  - injection Hm as <-. exists ns. split_and!; [by apply sublist_cons|done..].
  - unfold fatalf, wrap in Hm. destruct (oneCmd _ _ _ _ _ s) as [s1 [[]|e|]] eqn:Ec; [|done..]. injection Hm as <-.
    destruct (oneCmd_links _ _ _ _ Ec) as (ms & [->| ->] & Hi1 & Hl1); [exists ns|exists (Base (CmdPath c) :: ns)].
    + rewrite Hi, Hl, Hi1, Hl1. cbn. rewrite !app_nil_r. split_and!; [by apply sublist_cons|done..].
    + rewrite Hi, Hl, Hi1, Hl1, <- !app_assoc. cbn. rewrite app_nil_r. split_and!; [by apply sublist_skip| |done|done].
      constructor; [|done]. intros Hin. assert (existsb (bytes_eqb (Base (CmdPath c))) skip = true) as Ht; [|congruence].
      apply existsb_exists. exists (Base (CmdPath c)). split; [by apply list_elem_of_In|apply bytes_eqb_refl].
Qed.
End Links.

(** Takes a fatal call that went through into the list of calls. *)
Ltac ask_inv H :=
  lazymatch type of H with context [bb_ask ?a ?c] => apply (ask_calls a _ c) in H end.

(** A run of [bb] that goes through links exactly the commands of its table: the file
    [initmap.go] has an entry for each command that was taken, in order and none that is to be
    skipped, and [ubin] has a link for each of them and for the shell. *)
Theorem bb_main_links answer format_Node imports_Process getenv arch goroot initGo Glob args s' :
  bb_main answer format_Node imports_Process getenv arch goroot initGo Glob args (MkBb [] initMap0) = (s', Ret tt) ->
  exists bbsh ns, Forall (fun n => n ∉ skip) ns /\
    links s' = (fun n => PathJoin [bbsh; str "ubin"; n]) <$> ns ++ [str "rush"] /\
    WriteFile (PathJoin [bbsh; str "initmap.go"]) (initMap0 ++ concat (initMap_entry <$> ns) ++ nl ++ str "}") 0x1a4 ∈ calls s'.
Proof.
  intros H. unfold bb_main in H. M_inv H. rename a into cfg. apply leaves_Ret in Hm as [I0 L0]; [|apply leaves_doConfig].
  M_inv H. apply leaves_Ret in Hm as [I1 L1]; [|auto with leaves].
  M_inv H. injection Hm as <- _. M_inv H. destruct a1. apply commands_links in Hm as (ns & _ & Hk & I2 & L2).
  M_inv H. apply leaves_Ret in Hm as [I3 L3]; [|auto with leaves].
  M_inv H. apply leaves_Ret in Hm as [I4 L4]; [|auto with leaves].
  M_inv H. apply leaves_Ret in Hm as [I5 L5].
  2:{ apply leaves_fatalf, leaves_each. intros [n b [[]|e]]; unfold copy_shell; cbn [w_info]; eauto 8 with leaves. }
  M_inv H. assert (initMap s5 = initMap s4 /\ links s5 = links s4 ++ [PathJoin [Bbsh cfg; str "ubin"; str "rush"]]) as [I6 L6].
  { unfold result, bb_ask in Hm. destruct (answer _ _); injection Hm as <- _; (split; [done|]); by apply links_Symlink. }
  M_inv H. injection Hm0 as <- _. M_inv H. injection Hm0 as <- <-. M_inv H.
  ask_inv Hm0. M_inv H. unfold buildinit in Hm1. ask_inv Hm1. ask_inv H. subst.
  exists (Bbsh cfg), ns. split_and!; [done| |].
  - unfold links. cbn [calls]. rewrite !omap_app. cbn. rewrite !app_nil_r.
    change (omap _ (calls s5)) with (links s5). by rewrite L6, L5, L4, L3, L2, L1, L0, fmap_app.
  - cbn [calls initMap]. do 2 (apply elem_of_app; left). apply elem_of_app. right. apply list_elem_of_singleton.
    by rewrite I6, I5, I4, I3, I2, I1, I0, <- app_assoc.
Qed.

(** A world that accepts everything: one path with the commands [ls] and [init]. *)
Definition ex_answer (c : bbcall) (_ : list bbcall) : bbanswer c + error :=
  match c with
  | Getwd => inl (str "/w")
  | MkTemp => inl (str "/tmp/u-root")
  | ReadFile _ => inl (str "package main")
  | ParseDir _ => inl [[(str "/g/c/ls/ls.go", ex_file)]]
  | Walk _ => inl [MkWalked (str "/g/rush") (str "rush") (inl true); MkWalked (str "/g/rush/rush.go") (str "rush.go") (inl false)]
  | RemoveAll _ | MkdirAll _ | WriteFile _ _ _ | Symlink _ _ | GoBuild _ _ | Initramfs _ _ => inl tt
  end.

Definition ex_bb_run :=
  bb_main ex_answer (fun f => inl (f_name f)) inl (fun _ => str "/g") (str "amd64") (str "/go") []
    (fun p => inl (if bytes_eqb p (str "/g/c/*") then [str "/g/c/init"; str "/g/c/ls"] else [])) [str "c/*"] (MkBb [] initMap0).

Lemma ex_bb_run_ok : exists s', ex_bb_run = (s', Ret tt).
Proof.
  assert (snd ex_bb_run = Ret tt) as H by (vm_compute; reflexivity). destruct ex_bb_run as [s' r]. exists s'.
  cbn [snd] in H. by rewrite H.
Qed.

Lemma bb_main_links_witness : exists s', ex_bb_run = (s', Ret tt) /\
  exists bbsh ns, Forall (fun n => n ∉ skip) ns /\ links s' = (fun n => PathJoin [bbsh; str "ubin"; n]) <$> ns ++ [str "rush"].
Proof.
  destruct ex_bb_run_ok as [s' E]. exists s'. split; [exact E|]. unfold ex_bb_run in E.
  destruct (bb_main_links _ _ _ _ _ _ _ _ _ _ E) as (bbsh & ns & H1 & H2 & _).
  exists bbsh, ns. split; [exact H1|exact H2].
Defined.

Example ex_bb_links : links (fst ex_bb_run) = [str "/w/bbsh/ubin/ls"; str "/w/bbsh/ubin/rush"].
Proof. vm_compute. reflexivity. Qed.

(** The file that registers a command calls its initialiser only when it was declared beside
    [main]; of a package with [main] and [init] in two files the initialiser, renamed, is never
    called. *)
Theorem init_in_other_file_lost (cmd : bytes) (f : file) :
  cmd <> [] -> forallb decl_ok (f_decls f) = true ->
  (forall d, d ∈ f_decls f -> main_decl d = true -> has_body d = true) -> f_comments f = [] ->
  existsb main_decl (f_decls f) = true -> existsb init_decl (f_decls f) = false ->
  exists f' n, rewrite_file cmd f = Ret (f', n) /\ isMain n = true /\ cmdFunc cmd (Init n) = cmdFunc cmd [].
Proof.
  intros Hc Hok Hb Hcom Hm Hi. unfold rewrite_file.
  destruct (walk_decls cmd (f_decls f) (MkNotes false []) Hok Hb) as [ds' E]. rewrite E, Hcom.
  destruct (foldl_notes cmd (f_decls f) (MkNotes false [])) as [Hm' Hi']. rewrite Hm in Hm'. rewrite Hi in Hi'.
  eexists _, _. split_and!; [done|exact Hm'|by rewrite Hi'].
Qed.

(** ** The [init] of the binary ([initGo])

    The initialiser of the command that the binary was called as runs first; as process 1 called
    [/init] it makes the root file system and runs the first programs, one after the other,
    errors being logged.  The programs inherit the environment. *)
Section InitGo.
Context (refuse : list Boot.bcall -> Boot.bcall -> option error).
Context (range1 range2 : list (bytes * bytes) -> list (bytes * bytes)).

Definition bb_init (initMap : bytes -> option (Boot.world -> Boot.world)) (arg0 : bytes) (pid : Z)
    (Uname : bytes * bytes + error) (w : Boot.world) : Boot.world * outcome error unit :=
  let w := match initMap (Base arg0) with Some f => f w | None => w end in
  if negb (bytes_eqb arg0 (str "/init")) then (w, Ret tt)
  else if negb (pid =? 1) then (w, Ret tt)
  else
    match Boot.Rootfs refuse range1 range2 Uname w with
    | (w, Fail e) => (w, Fail e)
    | (w, Panic) => (w, Panic)
    | (w, Ret _) =>
        (foldl (fun w v => Boot.attempt refuse (Boot.BRun [v] [] false true) w) w
           [str "/inito"; str "/ubin/uinit"; str "/ubin/rush"], Ret tt)
    end.

(** As process 1, after the root file system, exactly the three programs are run, in order and
    whatever fails; in every other process nothing is run but the initialiser. *)
Theorem bb_init_runs initMap arg0 pid Uname w w' r :
  bb_init initMap arg0 pid Uname w = (w', r) ->
  let w0 := match initMap (Base arg0) with Some f => f w | None => w end in
  if bytes_eqb arg0 (str "/init") && (pid =? 1) then
    r = Ret tt -> Boot.runs_of w' = Boot.runs_of w0 ++
      ((fun v => Boot.BRun [v] [] false true) <$> [str "/inito"; str "/ubin/uinit"; str "/ubin/rush"])
  else w' = w0 /\ r = Ret tt.
Proof.
  intros H w0. unfold bb_init in H. fold w0 in H.
  destruct (bytes_eqb arg0 (str "/init")); cbn [negb andb] in *; [|by injection H as <- <-].
  destruct (pid =? 1); cbn [negb] in *; [|by injection H as <- <-].
  pose proof (Boot.Rootfs_runs refuse range1 range2 Uname w0) as Hr.
  destruct (Boot.Rootfs refuse range1 range2 Uname w0) as [w1 [[envs profile]|e|]]; cbn [fst] in Hr; injection H as <- <-; [|done..].
  intros _. rewrite <- Hr. cbn [foldl]. rewrite !Boot.attempt_runs. cbn. by rewrite <- !app_assoc.
Qed.
End InitGo.
