(* ===== verification/Dhclient.v ===== *)
(** * Addresses for the network interfaces ([cmds/dhclient])

    Bringing a link up, getting and renewing leases, and the goroutines of [main], one for every
    interface.  The clock, netlink and the exchange of packets are calls with answers; a packet
    is its bytes, read as the vendored package [dhcp4] does.  Times are in nanoseconds, at the
    64 bits of [time.Duration]. *)

From Stdlib Require Import Strings.String.
From stdpp Require Import gmap.
From S2P Require Export GoStrings Kernel.

(** ** Packets ([vendor/github.com/d2g/dhcp4/packet.go]) *)

(** The bytes of a packet; its capacity is its length. *)
Abbreviation Packet := bytes.

Definition Secs (p : Packet) : option bytes := slice p 8 10.
Definition YIAddr (p : Packet) : option bytes := slice p 16 20.
Definition GIAddr (p : Packet) : option bytes := slice p 24 28.

Definition Options (p : Packet) : bytes := if 240 <? zlen p then drop 240 p else [].

Definition Pad : byte := x00.
Definition End_ : byte := xff.

(** The loop of [ParseOptions]; one step per byte is enough. *)
Fixpoint parse_options (fuel : nat) (opts : bytes) (m : gmap byte bytes) : gmap byte bytes :=
  match fuel, opts with
  | S fuel, code :: (size :: rest) as tail =>
      if byte_eqb code End_ then m
      else if byte_eqb code Pad then parse_options fuel tail m
      else
        let n := Z.to_nat (b2z size) in
        if (length rest <? n)%nat then m
        else parse_options fuel (drop n rest) (<[code := take n rest]> m)
  | _, _ => m
  end.

Definition ParseOptions (p : Packet) : gmap byte bytes := parse_options (length (Options p)) (Options p) ∅.

Definition OptionSubnetMask : byte := x01.
Definition OptionRouter : byte := x03.

(** ** Calls *)

Record link := MkLink { l_Index : Z; l_Name : bytes; l_HardwareAddr : bytes; l_OperUp : bool }.

(** What [Request] and [Renew] return. *)
Record reply := MkReply { r_success : bool; r_packet : Packet; r_err : option error }.

(** An address of a DHCPv6 reply; its lifetimes in seconds. *)
Record iaaddr := MkIA { ia_IP : bytes; ia_Preferred : Z; ia_Valid : Z }.

Inductive dcall :=
| Now
| Sleep (d : Z)
| LinkByName (name : bytes)
| LinkSetUp (index : Z)
| NewPacketSock (index : Z)
| NewClient (mac : bytes) (timeout : Z)
| Request
| Renew (p : Packet)
| AddrReplace (index : Z) (ip mask : bytes) (preferred valid : Z)
| RouteReplace (index : Z) (dst gw : bytes)
| NewPacketSock6 (index : Z)
| Solicit.

Definition danswer (c : dcall) : Type :=
  match c with
  | LinkByName _ => link
  | Request | Renew _ => reply
  | Solicit => list iaaddr
  | _ => unit
  end.

Definition Second : Z := 1000000000.
Definition slop : Z := 10 * Second.
Definition linkUpAttempt : Z := 30 * Second.

(** [binary.BigEndian.Uint16] *)
Definition Uint16 (b : bytes) : option Z :=
  match b with h :: l :: _ => Some (256 * b2z h + b2z l) | _ => None end.

(** [os.IsExist] *)
Definition IsExist (e : error) : bool := bool_decide (e = Errno 17 \/ e = Errno 39).

Section Client.
(** The clock, and the answers to everything else. *)
Context (clock : list dcall -> Z) (answer : forall c, list dcall -> danswer c + error).
Abbreviation D := (M (list dcall)).
Abbreviation do_ := (ask answer).

(** A call that may panic when an operand is out of range. *)
Definition checked {A} (o : option A) : D A := lift (or_panic o).

Definition time_Now : D Z := fun tr => (tr ++ [Now], Ret (clock tr)).
Definition time_Sleep (d : Z) : D unit := fun tr => (tr ++ [Sleep d], Ret tt).

(** A message of the client: a plain error comes with an empty packet. *)
Definition exchange (needsRequest : bool) (packet : Packet) : D reply :=
  r ← (if needsRequest then ask_or answer Request else ask_or answer (Renew packet));
  mret (match r with inl r => r | inr e => MkReply false [] (Some e) end).

(** ** Bringing a link up: [None] when the fuel has run out *)
Fixpoint ifup_loop (fuel : nat) (start : Z) (ifname : bytes) : D (option link) :=
  match fuel with
  | O => mret None
  | S fuel =>
      now ← time_Now;
      if now - start <? linkUpAttempt then
        iface ← wrap (fun _ => Errorf "cannot get interface by name %v: %v") (do_ (LinkByName ifname));
        if (l_OperUp iface : bool) then mret (Some iface)
        else
          _ ← wrap (fun _ => Errorf "%v: %v can't make it up: %v") (do_ (LinkSetUp (l_Index iface)));
          _ ← time_Sleep Second;
          ifup_loop fuel start ifname
      else raise (Errorf "Link %v still down after %d seconds")
  end.

Definition ifup (fuel : nat) (ifname : bytes) : D (option link) :=
  start ← time_Now;
  ifup_loop fuel start ifname.

(** ** DHCPv4 *)

(** The attempts to get an answer: [success], the packet and [needsRequest]. *)
Fixpoint attempts (fuel : nat) (retry i : Z) (success : bool) (packet : Packet) (needsRequest : bool)
  : D (option (bool * Packet * bool)) :=
  match fuel with
  | O => mret None
  | S fuel =>
      if (i <? retry) || (retry <? 0) then
        r ← exchange needsRequest packet;
        match r_err r with
        | Some _ => attempts fuel retry (i + 1) (r_success r) (r_packet r) needsRequest
        | None => mret (Some (r_success r, r_packet r, false))
        end
      else mret (Some (success, packet, needsRequest))
  end.

(** The address that is asked for. *)
Definition set_address (iface : link) (ip mask : bytes) (preferred valid : Z) : D unit :=
  r ← ask_or answer (AddrReplace (l_Index iface) ip mask preferred valid);
  match r with
  | inr e => if IsExist e then raise (Errorf "add/replace %v to %v: %v") else mret tt
  | inl _ => mret tt
  end.

(** What is done with a lease; [false] ends the renewals. *)
Definition use_lease (test : bool) (iface : link) (packet : Packet) : D bool :=
  yiaddr ← checked (YIAddr packet);
  let o := ParseOptions packet in
  let netmask := default yiaddr (o !! OptionSubnetMask) in
  _ ← (if test then mret tt
       else
         _ ← set_address iface yiaddr netmask 0 0;
         match o !! OptionRouter with
         | None => mret tt
         | Some gw =>
             dst ← checked (GIAddr packet);
             wrap (fun _ => Errorf "%s: add %s: %v") (do_ (RouteReplace (l_Index iface) dst gw))
         end);
  secs ← checked (Secs packet);
  s ← checked (Uint16 secs);
  mret (negb (s =? 0)).

(** The loop over the renewals.  The arguments of the debug messages are evaluated also when
    nothing is printed: [packet.Secs()] before the check for success. *)
Fixpoint leases (fuel : nat) (test : bool) (iface : link) (numRenewals timeout retry i : Z) (packet : Packet) (needsRequest : bool)
  : D (option unit) :=
  match fuel with
  | O => mret None
  | S fuel' =>
      if (numRenewals <? 0) || (i <? numRenewals + 1) then
        r ← attempts fuel retry 0 false packet needsRequest;
        match r with
        | None => mret None
        | Some (success, packet, needsRequest) =>
            _ ← checked (Secs packet);
            if negb success then raise (Errorf "%s: we didn't successfully get a DHCP lease")
            else
              more ← use_lease test iface packet;
              if (more : bool) then
                _ ← time_Sleep (i64 (timeout - slop));
                leases fuel' test iface numRenewals timeout retry (i + 1) packet needsRequest
              else mret (Some tt)
        end
      else mret (Some tt)
  end.

Definition dhclient4 (fuel : nat) (test : bool) (iface : link) (numRenewals timeout retry : Z) : D (option unit) :=
  _ ← wrap (fun _ => Errorf "client connection generation: %v") (do_ (NewPacketSock (l_Index iface)));
  _ ← wrap (fun _ => Errorf "error: %v") (do_ (NewClient (l_HardwareAddr iface) timeout));
  leases fuel test iface numRenewals timeout retry 0 [] true.

(** ** DHCPv6 *)

Fixpoint leases6 (fuel : nat) (test : bool) (iface : link) (numRenewals timeout i : Z) : D (option unit) :=
  match fuel with
  | O => mret None
  | S fuel =>
      if (numRenewals <? 0) || (i <? numRenewals + 1) then
        iaAddrs ← wrap (fun _ => Errorf "error: %v") (do_ Solicit);
        _ ← (if test then mret tt
             else a ← checked (iaAddrs !! 0%nat); set_address iface (ia_IP a) [] (ia_Preferred a) (ia_Valid a));
        _ ← time_Sleep (i64 (timeout - slop));
        leases6 fuel test iface numRenewals timeout (i + 1)
      else mret (Some tt)
  end.

Definition dhclient6 (fuel : nat) (test : bool) (iface : link) (numRenewals timeout : Z) : D (option unit) :=
  _ ← wrap (fun _ => Errorf "client connection generation: %v") (do_ (NewPacketSock6 (l_Index iface)));
  leases6 fuel test iface numRenewals timeout 0.
End Client.

(** The timeout of [main], from the flag in seconds. *)
Definition lease_timeout (leasetimeout : Z) : Z :=
  let timeout := i64 (leasetimeout * Second) in
  if timeout <? slop then 2 * slop else timeout.

(** ** Every lease ends *)

Section Facts.
Context (clock : list dcall -> Z) (answer : forall c, list dcall -> danswer c + error).

(** A computation whose fuel is enough. *)
Definition ends {A} (m : M (list dcall) (option A)) : Prop := forall tr, (m tr).2 <> Ret None.

Lemma ends_bind {A B} (m : M (list dcall) A) (f : A -> M (list dcall) (option B)) :
  (forall a, ends (f a)) -> ends (m ≫= f).
Proof. intros Hf tr. unfold mbind, M_bind. destruct (m tr) as [tr' [a|e|]]; [apply Hf|done..]. Qed.

Lemma ended_ret {A} (a : A) : ends (mret (Some a)).
Proof. by intros tr. Qed.

Lemma ends_raise {A} e : ends (raise e : M (list dcall) (option A)).
Proof. by intros tr. Qed.

(** A bind after a part that ends: only its results matter. *)
Lemma ends_bind_Some {A B} (m : M (list dcall) (option A)) (f : option A -> M (list dcall) (option B)) :
  ends m -> (forall a, ends (f (Some a))) -> ends (m ≫= f).
Proof.
  intros Hm Hf tr. specialize (Hm tr). unfold mbind, M_bind.
  destruct (m tr) as [tr' [[a|]|e|]]; [apply Hf|done..].
Qed.

Lemma attempts_end fuel retry i success packet needs :
  0 <= i <= retry -> retry - i < Z.of_nat fuel -> ends (attempts answer fuel retry i success packet needs).
Proof.
  revert i success packet needs. induction fuel as [|fuel IH]; intros i success packet needs Hi Hf; [lia|]. cbn [attempts].
  destruct (Z.ltb_spec i retry), (Z.ltb_spec retry 0); cbn [orb]; try lia; [|apply ended_ret].
  apply ends_bind. intros r. destruct (r_err r); [apply IH; lia|apply ended_ret].
Qed.

Lemma leases_end fuel test iface n timeout retry i packet needs :
  0 <= retry < Z.of_nat fuel - Z.max 0 (n + 1 - i) -> 0 <= n -> 0 <= i <= n + 1 ->
  ends (leases answer fuel test iface n timeout retry i packet needs).
Proof.
  revert i packet needs. induction fuel as [|fuel IH]; intros i packet needs Hr Hn Hi; [lia|]. cbn [leases].
  destruct (Z.ltb_spec n 0), (Z.ltb_spec i (n + 1)); cbn [orb]; try lia; [|apply ended_ret].
  apply ends_bind_Some; [apply attempts_end; lia|]. intros [[success p'] needs'].
  apply ends_bind. intros _. destruct success; cbn [negb]; [|apply ends_raise].
  apply ends_bind. intros []; [|apply ended_ret]. apply ends_bind. intros _. apply IH; lia.
Qed.

Lemma leases6_end fuel test iface n timeout i :
  n + 1 - i < Z.of_nat fuel -> 0 <= n -> 0 <= i <= n + 1 -> ends (leases6 answer fuel test iface n timeout i).
Proof.
  revert i. induction fuel as [|fuel IH]; intros i Hf Hn Hi; [lia|]. cbn [leases6].
  destruct (Z.ltb_spec n 0), (Z.ltb_spec i (n + 1)); cbn [orb]; try lia; [|apply ended_ret].
  do 3 (apply ends_bind; intros ?). apply IH; lia.
Qed.

(** ** The messages of a client *)

Definition message (c : dcall) : bool := match c with Request | Renew _ => true | _ => false end.
Definition renewal (c : dcall) : bool := match c with Renew _ => true | _ => false end.
Definition messages (tr : list dcall) : list dcall := List.filter message tr.

Lemma messages_app l k : messages (l ++ k) = messages l ++ messages k.
Proof. apply List.filter_app. Qed.

(** A part that sends nothing. *)
Definition quiet {A} (m : M (list dcall) A) : Prop := forall tr, messages (m tr).1 = messages tr.

Lemma silent_bind {A B} (m : M (list dcall) A) (f : A -> M (list dcall) B) :
  quiet m -> (forall a, quiet (f a)) -> quiet (m ≫= f).
Proof.
  intros Hm Hf tr. specialize (Hm tr). unfold mbind, M_bind. destruct (m tr) as [tr' [a|e|]]; [|done..].
  by rewrite (Hf a tr').
Qed.
Lemma quiet_ret {A} (a : A) : quiet (mret a).
Proof. done. Qed.
Lemma quiet_lift {A} (o : outcome error A) : quiet (lift o).
Proof. done. Qed.
Lemma quiet_raise {A} e : quiet (raise e : M (list dcall) A).
Proof. done. Qed.
Lemma quiet_wrap {A} f (m : M (list dcall) A) : quiet m -> quiet (wrap f m).
Proof. intros Hm tr. specialize (Hm tr). unfold wrap. by destruct (m tr) as [tr' [a|e|]]. Qed.
Lemma quiet_ask c : message c = false -> quiet (ask answer c).
Proof. intros Hc tr. cbn [fst ask]. rewrite messages_app. cbn. by rewrite Hc, app_nil_r. Qed.
Lemma quiet_ask_or c : message c = false -> quiet (ask_or answer c).
Proof. intros Hc tr. cbn [fst ask_or]. rewrite messages_app. cbn. by rewrite Hc, app_nil_r. Qed.
Lemma quiet_Sleep d : quiet (time_Sleep d).
Proof. intros tr. cbn. by rewrite messages_app, app_nil_r. Qed.

Lemma quiet_use_lease test iface packet : quiet (use_lease answer test iface packet).
Proof.
  unfold use_lease. apply silent_bind; [apply quiet_lift|]. intros yi.
  apply silent_bind; [|intros _; do 2 (apply silent_bind; [apply quiet_lift|intros ?]); apply quiet_ret].
  destruct test; [apply quiet_ret|]. apply silent_bind.
  - unfold set_address. apply silent_bind; [by apply quiet_ask_or|].
    intros [u|e]; [apply quiet_ret|]. destruct (IsExist e); [apply quiet_raise|apply quiet_ret].
  - intros _. destruct (_ !! OptionRouter); [|apply quiet_ret].
    apply silent_bind; [apply quiet_lift|]. intros dst. by apply quiet_wrap, quiet_ask.
Qed.

(** The messages of one phase: requests, or renewals. *)
Definition phase (needs : bool) (c : dcall) : Prop := if needs then c = Request else renewal c = true.

Lemma exchange_sends needs packet tr :
  exists c r, exchange answer needs packet tr = (tr ++ [c], Ret r) /\ phase needs c /\ message c = true.
Proof. destruct needs; eexists _, _; (split; [reflexivity|done]). Qed.

Lemma attempts_send fuel retry i success packet needs tr :
  exists l, messages (attempts answer fuel retry i success packet needs tr).1 = messages tr ++ l /\
    Forall (phase needs) l /\ (0 <= i <= retry -> zlen l <= retry - i) /\
    forall s' p', (attempts answer fuel retry i success packet needs tr).2 = Ret (Some (s', p', true)) -> needs = true.
Proof.
  revert i success packet tr. induction fuel as [|fuel IH]; intros i success packet tr; cbn [attempts].
  - exists []. rewrite app_nil_r. split_and!; [done|done|change (zlen []) with 0; lia|done].
  - destruct ((i <? retry) || (retry <? 0)) eqn:Ei.
    2:{ exists []. rewrite app_nil_r. split_and!; [done|done|change (zlen []) with 0; lia|]. intros s' p'. cbn. by intros [= _ _ ->]. }
    destruct (exchange_sends needs packet tr) as (c & r & E & Hc & Hm). rewrite (M_bind_Ret _ _ _ _ _ E).
    destruct (r_err r) as [e|].
    + destruct (IH (i + 1) (r_success r) (r_packet r) (tr ++ [c])) as (l & H1 & H2 & H3 & H4).
      exists (c :: l). rewrite H1, messages_app. cbn. rewrite Hm, <- app_assoc. split_and!; [done|by constructor| |done].
      intros Hi. rewrite zlen_cons. apply orb_prop in Ei. lia.
    + exists [c]. cbn. rewrite messages_app. cbn. rewrite Hm. split_and!; [done|by constructor| |done].
      intros Hi. rewrite zlen_cons, zlen_nil. apply orb_prop in Ei. lia.
Qed.

Lemma leases_send fuel test iface n timeout retry i packet needs tr :
  0 <= retry -> 0 <= n -> 0 <= i <= n + 1 ->
  exists reqs rens, messages (leases answer fuel test iface n timeout retry i packet needs tr).1 = messages tr ++ reqs ++ rens /\
    Forall (phase true) reqs /\ Forall (phase false) rens /\ (needs = false -> reqs = []) /\
    zlen reqs + zlen rens <= (n + 1 - i) * retry.
Proof.
  intros Hr Hn. revert i packet needs tr. induction fuel as [|fuel IH]; intros i packet needs tr Hi.
  { exists [], []. cbn. rewrite app_nil_r. split_and!; try done. change (zlen []) with 0. nia. }
  cbn [leases]. destruct ((n <? 0) || (i <? n + 1)) eqn:Ei.
  2:{ exists [], []. cbn. rewrite app_nil_r. split_and!; try done. change (zlen []) with 0. nia. }
  destruct (attempts_send (S fuel) retry 0 false packet needs tr) as (l & H1 & H2 & H3 & H4).
  specialize (H3 ltac:(lia)). rewrite Z.sub_0_r in H3. apply orb_prop in Ei.
  assert (exists reqs rens, messages tr ++ l = messages tr ++ reqs ++ rens /\ Forall (phase true) reqs /\ Forall (phase false) rens /\
    (needs = false -> reqs = []) /\ zlen reqs + zlen rens <= (n + 1 - i) * retry) as Hstop.
  { destruct needs; [exists l, []|exists [], l]; rewrite ?app_nil_r; split_and!; try done; change (zlen []) with 0; nia. }
  unfold mbind at 1, M_bind at 1.
  destruct (attempts answer (S fuel) retry 0 false packet needs tr) as [t1 [[[[success p'] needs']|]|e|]] eqn:Ea;
    cbn [fst snd] in H1, H4; try (unfold mret, M_ret; cbn [fst]; by rewrite H1).
  unfold mbind at 1, M_bind at 1. destruct (checked (Secs p') t1) as [t2 [secs|e|]] eqn:E2;
    (assert (t2 = t1) as -> by (unfold checked, lift in E2; by injection E2)); try (by cbn [fst]; rewrite H1).
  destruct success; cbn [negb]; [|unfold raise; cbn [fst]; by rewrite H1].
  unfold mbind at 1, M_bind at 1. pose proof (quiet_use_lease test iface p' t1) as Hq.
  destruct (use_lease answer test iface p' t1) as [t3 [more|e|]]; cbn [fst] in *; try (by rewrite Hq, H1).
  destruct more; [|unfold mret, M_ret; cbn [fst]; by rewrite Hq, H1].
  rewrite (M_bind_Ret _ _ _ _ _ (eq_refl : time_Sleep _ t3 = (t3 ++ [_], Ret tt))).
  destruct (IH (i + 1) p' needs' (t3 ++ [Sleep (i64 (timeout - slop))]) ltac:(lia)) as (reqs & rens & G1 & G2 & G3 & G4 & G5).
  rewrite G1, messages_app, Hq, H1. cbn [messages List.filter message]. rewrite app_nil_r.
  destruct needs.
  - exists (l ++ reqs), rens. rewrite !app_assoc, zlen_app. split_and!; [done|by apply Forall_app_2|done|done|nia].
  - assert (needs' = false) as -> by (destruct needs'; [|done]; by specialize (H4 _ _ eq_refl)).
    rewrite (G4 eq_refl) in *. exists [], (l ++ rens). rewrite <- app_assoc, zlen_app.
    split_and!; [done|done|by apply Forall_app_2|done|]. rewrite zlen_nil in *. nia.
Qed.
End Facts.

(** ** The goroutines of [main]

    Each interface has a goroutine that counts itself in the wait group and sends its results on
    an unbuffered channel; another one closes the channel when the count is zero; [main] receives
    until then. *)

(** The result of a call, sent on the channel: [nil] or an error. *)
Abbreviation err_report := (option error).

(** What a goroutine still has to do; [ASend None] waits for a call that never returns. *)
Inductive action := AAdd | ASend (r : option err_report) | ADone.

(** The goroutine of an interface: what [ifup] gives, and the results of the two clients. *)
Definition worker (ipv4 ipv6 : bool) (up : option error) (r4 r6 : option err_report) : list action :=
  match up with
  | Some e => [ASend (Some (Some e)); ADone]
  | None => (if ipv4 then [AAdd; ASend r4; ADone] else []) ++ (if ipv6 then [AAdd; ASend r6; ADone] else []) ++ [ADone]
  end.

(** The goroutine that waits, then closes. *)
Inductive waiter := Waiting | Closing | Closed.

Record net := MkNet {
  to_start : list (list action);
  running : list (list action);
  wg : Z;
  wait : waiter;
  received : list err_report;
  returned : bool
}.

Definition net0 (ws : list (list action)) : net := MkNet ws [] 0 Waiting [] false.

(** [None] is the panic of a send on a closed channel, or of a negative count. *)
Inductive net_step : net -> option net -> Prop :=
| net_start w ws run n wt rcv ret :
    net_step (MkNet (w :: ws) run n wt rcv ret) (Some (MkNet ws (run ++ [w]) (n + 1) wt rcv ret))
| net_add ts pre l post n wt rcv ret :
    net_step (MkNet ts (pre ++ (AAdd :: l) :: post) n wt rcv ret) (Some (MkNet ts (pre ++ l :: post) (n + 1) wt rcv ret))
| net_done ts pre l post n wt rcv ret :
    0 <= n - 1 ->
    net_step (MkNet ts (pre ++ (ADone :: l) :: post) n wt rcv ret) (Some (MkNet ts (pre ++ l :: post) (n - 1) wt rcv ret))
| net_negative ts pre l post n wt rcv ret :
    n - 1 < 0 -> net_step (MkNet ts (pre ++ (ADone :: l) :: post) n wt rcv ret) None
| net_send pre r l post n wt rcv :
    wt <> Closed ->
    net_step (MkNet [] (pre ++ (ASend (Some r) :: l) :: post) n wt rcv false) (Some (MkNet [] (pre ++ l :: post) n wt (rcv ++ [r]) false))
| net_send_closed ts pre r l post n rcv ret :
    net_step (MkNet ts (pre ++ (ASend (Some r) :: l) :: post) n Closed rcv ret) None
| net_waited run rcv ret : net_step (MkNet [] run 0 Waiting rcv ret) (Some (MkNet [] run 0 Closing rcv ret))
| net_close run n rcv ret : net_step (MkNet [] run n Closing rcv ret) (Some (MkNet [] run n Closed rcv ret))
| net_return run n rcv : net_step (MkNet [] run n Closed rcv false) (Some (MkNet [] run n Closed rcv true)).

(** A run of the program. *)
Inductive net_run : net -> net -> Prop :=
| run_refl s : net_run s s
| run_step s s1 s2 : net_step s (Some s1) -> net_run s1 s2 -> net_run s s2.

(** *** The count of the wait group *)

(** What a goroutine will still take off the count. *)
Fixpoint balance (l : list action) : Z :=
  match l with
  | [] => 0
  | AAdd :: l => balance l - 1
  | ADone :: l => balance l + 1
  | ASend _ :: l => balance l
  end.

(** Every goroutine that is not at its end still counts. *)
Fixpoint counted (l : list action) : bool :=
  match l with [] => true | _ :: l' => (1 <=? balance l) && counted l' end.

Definition total (ls : list (list action)) : Z := foldr Z.add 0 (balance <$> ls).

Fixpoint reports (l : list action) : list err_report :=
  match l with
  | [] => []
  | ASend (Some r) :: l => r :: reports l
  | _ :: l => reports l
  end.

Lemma total_app ls ms : total (ls ++ ms) = total ls + total ms.
Proof. unfold total. rewrite fmap_app, foldr_app. induction ls as [|l ls IH]; cbn; [done|]. rewrite IH. lia. Qed.

Lemma counted_balance l : counted l = true -> 0 <= balance l /\ (balance l = 0 -> l = []).
Proof. destruct l as [|a l]; [done|]. cbn [counted]. intros [H _]%andb_prop. apply Z.leb_le in H. split; lia. Qed.

Lemma counted_tail a l : counted (a :: l) = true -> counted l = true.
Proof. cbn [counted]. by intros [_ ?]%andb_prop. Qed.

Lemma total_zero ls : Forall (fun l => counted l = true) ls -> 0 <= total ls /\ (total ls = 0 -> Forall (fun l => l = []) ls).
Proof.
  induction 1 as [|l ls Hl _ [IH1 IH2]]; [done|]. destruct (counted_balance l Hl) as [H1 H2]. unfold total in *. cbn.
  split; [lia|]. intros H. constructor; [apply H2|apply IH2]; lia.
Qed.

Record net_inv (all : list err_report) (s : net) : Prop := {
  inv_counted : Forall (fun l => counted l = true) (running s);
  inv_start : Forall (fun l => counted l = true /\ balance l = 1) (to_start s);
  inv_wg : wg s = total (running s);
  inv_wait : wait s <> Waiting -> to_start s = [] /\ Forall (fun l => l = []) (running s);
  inv_reports : received s ++ concat (reports <$> running s) ++ concat (reports <$> to_start s) ≡ₚ all;
  inv_returned : returned s = true -> wait s = Closed
}.

Lemma total_cons l ls : total (l :: ls) = balance l + total ls.
Proof. done. Qed.

Lemma Forall_mid {A} (P : A -> Prop) pre x post : Forall P (pre ++ x :: post) <-> Forall P pre /\ P x /\ Forall P post.
Proof. rewrite Forall_app, Forall_cons. tauto. Qed.

(** A goroutine that makes a step was not at its end. *)
Lemma not_waited all s pre a l post :
  net_inv all s -> running s = pre ++ (a :: l) :: post -> wait s = Waiting.
Proof.
  intros [_ _ _ Hw _ _] Hr. destruct (wait s) eqn:E; [done|exfalso..];
    (destruct Hw as [_ Hw]; [done|]; rewrite Hr in Hw; by apply Forall_mid in Hw as (_ & ? & _)).
Qed.

(** Replacing a goroutine by what is left of it. *)
Lemma inv_advance all ts pre a l post n rcv ret n' rcv' :
  net_inv all (MkNet ts (pre ++ (a :: l) :: post) n Waiting rcv ret) ->
  n' = n + (balance l - balance (a :: l)) ->
  rcv' ++ concat (reports <$> pre ++ l :: post) ++ concat (reports <$> ts) ≡ₚ
    rcv ++ concat (reports <$> pre ++ (a :: l) :: post) ++ concat (reports <$> ts) ->
  net_inv all (MkNet ts (pre ++ l :: post) n' Waiting rcv' ret).
Proof.
  intros [H1 H2 H3 H4 H5 H6] -> Hp. cbn [running to_start wg wait received returned] in *. split; cbn [running to_start wg wait received returned].
  - apply Forall_mid in H1 as (? & ?%counted_tail & ?). by apply Forall_mid.
  - done.
  - rewrite H3, !total_app, !total_cons. lia.
  - done.
  - by rewrite Hp.
  - done.
Qed.

Lemma net_step_inv all s o : net_inv all s -> net_step s o -> exists s', o = Some s' /\ net_inv all s'.
Proof.
  intros Hi Hs. destruct Hs as [w ws run n wt rcv ret|ts pre l post n wt rcv ret|ts pre l post n wt rcv ret Hn|
    ts pre l post n wt rcv ret Hn|pre r l post n wt rcv Hwt|ts pre r l post n rcv ret|run rcv ret|run n rcv ret|run n rcv].
  - eexists. split; [done|]. destruct Hi as [H1 H2 H3 H4 H5 H6]. cbn [running to_start wg wait received returned] in *.
    apply Forall_cons in H2 as [[Hc Hb] H2]. split; cbn [running to_start wg wait received returned].
    + apply Forall_app_2; [done|]. by constructor.
    + done.
    + rewrite total_app, total_cons, Hb, H3. change (total []) with 0. lia.
    + intros Hw. by destruct (H4 Hw).
    + rewrite <- H5, fmap_app, concat_app. cbn. by rewrite app_nil_r, <- app_assoc.
    + done.
  - pose proof (not_waited _ _ _ _ _ _ Hi eq_refl) as Hw. cbn in Hw. subst wt. eexists. split; [done|].
    eapply inv_advance; [exact Hi|cbn; lia|]. by rewrite !fmap_app.
  - pose proof (not_waited _ _ _ _ _ _ Hi eq_refl) as Hw. cbn in Hw. subst wt.
    eexists. split; [done|].
    eapply inv_advance; [exact Hi|cbn; lia|]. by rewrite !fmap_app.
  - exfalso. destruct Hi as [H1 _ H3 _ _ _]. cbn [running wg] in *. rewrite H3, total_app, total_cons in Hn.
      apply Forall_mid in H1 as (Hp & Hl & Hq). apply total_zero in Hp as [Hp _]. apply total_zero in Hq as [Hq _].
      cbn [counted] in Hl. apply andb_prop in Hl as [Hl%Z.leb_le _]. lia.
  - pose proof (not_waited _ _ _ _ _ _ Hi eq_refl) as Hw. cbn in Hw. subst wt. eexists. split; [done|].
    eapply inv_advance; [exact Hi|cbn; lia|]. rewrite !fmap_app, !concat_app. cbn.
    rewrite <- !app_assoc. cbn. solve_Permutation.
  - pose proof (not_waited _ _ _ _ _ _ Hi eq_refl) as Hw. done.
  - eexists. split; [done|]. destruct Hi as [H1 H2 H3 H4 H5 H6]. split; try done; cbn in *.
    + intros _. split; [done|]. apply total_zero in H1 as [_ H1]. by apply H1.
    + intros Hr. by specialize (H6 Hr).
  - eexists. split; [done|]. destruct Hi as [H1 H2 H3 H4 H5 H6]. split; try done. intros _. by apply H4.
  - eexists. split; [done|]. destruct Hi as [H1 H2 H3 H4 H5 H6]. by split.
Qed.

(** *** Runs *)

Lemma worker_counted ipv4 ipv6 up r4 r6 : counted (worker ipv4 ipv6 up r4 r6) = true /\ balance (worker ipv4 ipv6 up r4 r6) = 1.
Proof. by destruct up, ipv4, ipv6. Qed.

Definition is_worker (w : list action) : Prop := exists ipv4 ipv6 up r4 r6, w = worker ipv4 ipv6 up r4 r6.

Lemma net0_inv ws : Forall is_worker ws -> net_inv (concat (reports <$> ws)) (net0 ws).
Proof.
  intros Hw. split; try done. eapply Forall_impl; [exact Hw|]. intros w (i4 & i6 & up & r4 & r6 & ->). apply worker_counted.
Qed.

Lemma net_run_inv all s s' : net_run s s' -> net_inv all s -> net_inv all s'.
Proof.
  induction 1 as [s|s s1 s2 Hs _ IH]; [done|]. intros Hi. apply IH.
  destruct (net_step_inv _ _ _ Hi Hs) as (s' & [= <-] & ?). done.
Qed.

(** What is left to do: every step takes something off. *)
Definition left_ (s : net) : nat :=
  sum_list_with (fun l => S (length l)) (to_start s) + sum_list_with length (running s) +
  (match wait s with Waiting => 3 | Closing => 2 | Closed => 1 end) + (if returned s then 0 else 1).

Lemma net_step_left s s' : net_step s (Some s') -> (left_ s' < left_ s)%nat.
Proof.
  intros H. unfold left_.
  inversion H; subst; cbn [to_start running wait returned]; rewrite ?sum_list_with_app; cbn; lia.
Qed.

(** Calls that never return stay where they are. *)
Definition returns (l : list action) : Prop := ASend None ∉ l.

Lemma net_run_returns s s' : net_run s s' -> Forall returns (to_start s ++ running s) -> Forall returns (to_start s' ++ running s').
Proof.
  induction 1 as [s|s s1 s2 Hs _ IH]; [done|]. intros Hi. apply IH. clear IH. unfold returns in *.
  inversion Hs; subst; cbn [to_start running] in *; try done;
    rewrite ?Forall_app, ?Forall_cons, ?Forall_app, ?not_elem_of_cons in *; naive_solver.
Qed.

(** Some goroutine that is not at its end, if there is one. *)
Lemma busy_split (ls : list (list action)) : Forall (fun l => l = []) ls \/ exists pre a l post, ls = pre ++ (a :: l) :: post.
Proof.
  induction ls as [|l ls IH]; [by left|]. destruct l as [|a l]; [|right; by exists [], a, l, ls].
  destruct IH as [IH|(pre & a & l & post & ->)]; [left; by constructor|right]. by exists ([] :: pre), a, l, post.
Qed.

Lemma total_nil ls : Forall (fun l => l = []) ls -> total ls = 0.
Proof. induction 1 as [|l ls -> _ IH]; [done|]. by rewrite total_cons, IH. Qed.

Lemma net_progress all s :
  net_inv all s -> Forall returns (running s) -> returned s = false -> exists o, net_step s o.
Proof.
  intros Hi Hret Hr. destruct s as [ts run n wt rcv ret]. cbn [returned] in Hr. subst ret.
  destruct ts as [|w ts]; [|eexists; apply net_start].
  destruct (busy_split run) as [Hall|(pre & a & l & post & ->)].
  - destruct wt; [|eexists; apply net_close|eexists; apply net_return].
    destruct Hi as [_ _ H3 _ _ _]. cbn [running wg] in H3. rewrite (total_nil _ Hall) in H3. subst n. eexists. apply net_waited.
  - destruct a as [|[r|]|]; [eexists; apply net_add|..].
    + destruct wt; [eexists; by apply net_send|eexists; by apply net_send|eexists; apply net_send_closed].
    + exfalso. apply Forall_mid in Hret as (_ & Hret & _). apply Hret. by left.
    + destruct (decide (0 <= n - 1)); eexists; [by apply net_done|apply net_negative; lia].
Qed.

(** C12: in every run of [main] with its goroutines nothing is sent on the closed channel and the
    count of the wait group never goes below zero; no run goes on forever; while the clients
    return, [main] is not stuck before it returns; and when it returns it has received the
    result of every client exactly once. *)
Theorem dhclient_main_runs (ws : list (list action)) (s : net) :
  Forall is_worker ws -> net_run (net0 ws) s ->
  ~ net_step s None /\
  Acc (fun s' s => net_step s (Some s')) s /\
  (Forall returns ws -> returned s = false -> exists s', net_step s (Some s')) /\
  (returned s = true -> received s ≡ₚ concat (reports <$> ws)).
Proof.
  intros Hw Hrun. pose proof (net_run_inv _ _ _ Hrun (net0_inv ws Hw)) as Hi. split_and!.
  - intros Hs. by destruct (net_step_inv _ _ _ Hi Hs) as (s' & ? & _).
  - clear. induction (well_founded_ltof _ left_ s) as [s _ IH]. constructor. intros s' Hs. apply IH. by apply net_step_left.
  - intros Hret Hr. assert (Forall returns (to_start s ++ running s)) as Hret'.
    { apply (net_run_returns _ _ Hrun). cbn. by rewrite app_nil_r. }
    apply Forall_app in Hret' as [_ Hret']. destruct (net_progress _ _ Hi Hret' Hr) as [o Ho].
    destruct (net_step_inv _ _ _ Hi Ho) as (s' & -> & _). by exists s'.
  - intros Hr. destruct Hi as [_ _ _ H4 H5 H6]. destruct (H4 ltac:(by rewrite (H6 Hr))) as [Ht Hall].
    rewrite <- H5, Ht. cbn. rewrite app_nil_r. clear -Hall. replace (concat (reports <$> running s)) with (@nil err_report); [by rewrite app_nil_r|].
    induction Hall as [|l ls -> _ IH]; [done|]. cbn. by rewrite <- IH.
Qed.

Definition ex_workers : list (list action) :=
  [worker true true None (Some None) (Some (Some (Errno 1))); worker true false (Some (Errno 19)) None None].

Lemma dhclient_main_runs_witness :
  exists s, net_run (net0 ex_workers) s /\ returned s = true /\ ~ net_step s None /\
    received s ≡ₚ [None; Some (Errno 1); Some (Errno 19)].
Proof.
  assert (exists s, net_run (net0 ex_workers) s /\ returned s = true) as (s & Hs & Hr).
  { eexists. split.
    - eapply run_step; [apply net_start|]. eapply run_step; [apply net_start|]. cbn.
      eapply run_step; [apply (net_add _ [])|]. eapply run_step; [by apply (net_send [])|].
      eapply run_step; [by apply (net_done _ [])|]. eapply run_step; [apply (net_add _ [])|].
      eapply run_step; [by apply (net_send [])|]. eapply run_step; [by apply (net_done _ [])|].
      eapply run_step; [by apply (net_done _ [])|]. eapply run_step; [by apply (net_send [[]])|].
      eapply run_step; [by apply (net_done _ [[]])|]. eapply run_step; [apply net_waited|].
      eapply run_step; [apply net_close|]. eapply run_step; [apply net_return|]. apply run_refl.
    - reflexivity. }
  destruct (dhclient_main_runs ex_workers s) as (H1 & _ & _ & H2); [|exact Hs|exists s; by auto].
  repeat constructor; by eexists _, _, _, _, _.
Defined.

(** [main] counts results, not interfaces: with both protocols switched off it reports that no
    interface matches, whatever matched. *)
Example no_protocol_no_interface : concat (reports <$> [worker false false None None None; worker false false None None None]) = [].
Proof. reflexivity. Qed.

(** ** Properties of the clients *)

Lemma dhclient4_messages answer fuel test iface n timeout retry tr :
  0 <= n -> 0 <= retry -> retry + n + 1 < Z.of_nat fuel ->
  let '(tr', r) := dhclient4 answer fuel test iface n timeout retry tr in
  r <> Ret None /\ zlen (messages tr') <= zlen (messages tr) + (n + 1) * retry.
Proof.
  intros Hn Hr Hf. pose proof (leases_end answer fuel test iface n timeout retry 0 [] true ltac:(lia) Hn ltac:(lia)) as He.
  unfold dhclient4, mbind at 1, M_bind at 1.
  pose proof (quiet_wrap (fun _ => Errorf "client connection generation: %v") _ (quiet_ask answer (NewPacketSock (l_Index iface)) eq_refl) tr) as Hq1.
  destruct (wrap _ (ask answer (NewPacketSock _)) tr) as [t1 [u|e|]]; cbn [fst] in Hq1; [|split; [done|rewrite Hq1; nia]..].
  unfold mbind at 1, M_bind at 1.
  pose proof (quiet_wrap (fun _ => Errorf "error: %v") _ (quiet_ask answer (NewClient (l_HardwareAddr iface) timeout) eq_refl) t1) as Hq2.
  destruct (wrap _ (ask answer (NewClient _ _)) t1) as [t2 [v|e|]]; cbn [fst] in Hq2; [|split; [done|rewrite Hq2, Hq1; nia]..].
  destruct (leases_send answer fuel test iface n timeout retry 0 [] true t2 Hr Hn ltac:(lia)) as (reqs & rens & H1 & _ & _ & _ & H5).
  specialize (He t2). destruct (leases _ _ _ _ _ _ _ _ _ _ t2) as [t3 r]. cbn [fst snd] in *. split; [done|].
  rewrite H1, Hq2, Hq1, !zlen_app. lia.
Qed.

(** *** What a client may do

    [needs] and [p] are what [needsRequest] and [packet] ought to be: no message has been answered
    yet, and the packet of the last answer. *)
Section Protocol.
Context (answer : forall c, list dcall -> danswer c + error) (iface : link).

Definition reply_to (c : dcall) (tr : list dcall) : reply :=
  match c with
  | Request => match answer Request tr with inl r => r | inr e => MkReply false [] (Some e) end
  | Renew p => match answer (Renew p) tr with inl r => r | inr e => MkReply false [] (Some e) end
  | _ => MkReply false [] None
  end.

Definition still_needs (needs : bool) (r : reply) : bool := match r_err r with Some _ => needs | None => false end.

(** What is right as the next call. *)
Definition allowed (needs : bool) (p : Packet) (c : dcall) : Prop :=
  match c with
  | Request => needs = true
  | Renew q => needs = false /\ q = p
  | AddrReplace i ip mask preferred valid => i = l_Index iface /\ YIAddr p = Some ip /\
      mask = default ip (ParseOptions p !! OptionSubnetMask) /\ preferred = 0 /\ valid = 0
  | RouteReplace i dst gw => i = l_Index iface /\ GIAddr p = Some dst /\ ParseOptions p !! OptionRouter = Some gw
  | _ => True
  end.

Definition next (tr : list dcall) (s : bool * Packet) (c : dcall) : bool * Packet :=
  if message c then (still_needs s.1 (reply_to c tr), r_packet (reply_to c tr)) else s.

(** The calls [l] after the trace [tr]: all of them right, and what they leave. *)
Fixpoint conforms (tr : list dcall) (s : bool * Packet) (l : list dcall) : Prop :=
  match l with
  | [] => True
  | c :: l => allowed s.1 s.2 c /\ conforms (tr ++ [c]) (next tr s c) l
  end.

Fixpoint after (tr : list dcall) (s : bool * Packet) (l : list dcall) : bool * Packet :=
  match l with [] => s | c :: l => after (tr ++ [c]) (next tr s c) l end.

Lemma conforms_app tr s l k : conforms tr s l -> conforms (tr ++ l) (after tr s l) k -> conforms tr s (l ++ k).
Proof.
  revert tr s. induction l as [|c l IH]; intros tr s; cbn [conforms after app]; [by rewrite app_nil_r|].
  intros [Hc Hl] Hk. split; [done|]. apply IH; [done|]. by rewrite <- app_assoc.
Qed.

Lemma after_app tr s l k : after tr s (l ++ k) = after (tr ++ l) (after tr s l) k.
Proof.
  revert tr s. induction l as [|c l IH]; intros tr s; cbn [after app]; [by rewrite app_nil_r|]. by rewrite IH, <- app_assoc.
Qed.

(** The action makes right calls only, and [Q] holds of its result and of what they leave. *)
Definition speaks {A} (s : bool * Packet) (m : M (list dcall) A) (Q : A -> bool * Packet -> Prop) : Prop :=
  forall tr, exists l, (m tr).1 = tr ++ l /\ conforms tr s l /\ forall a, (m tr).2 = Ret a -> Q a (after tr s l).

Lemma speaks_ret {A} s (a : A) (Q : A -> bool * Packet -> Prop) : Q a s -> speaks s (mret a) Q.
Proof. intros HQ tr. exists []. rewrite app_nil_r. split_and!; [done|done|]. by intros ? [= <-]. Qed.

Lemma speaks_bind {A B} s (m : M (list dcall) A) (f : A -> M (list dcall) B) (Q : A -> bool * Packet -> Prop) R :
  speaks s m Q -> (forall a s', Q a s' -> speaks s' (f a) R) -> speaks s (m ≫= f) R.
Proof.
  intros Hm Hf tr. destruct (Hm tr) as (l & El & Hl & HQ). unfold mbind, M_bind. destruct (m tr) as [tr1 [a|e|]]; cbn [fst snd] in *; subst.
  - destruct (Hf a _ (HQ a eq_refl) (tr ++ l)) as (k & Ek & Hk & HR). exists (l ++ k). rewrite Ek, app_assoc. split_and!; [done| |].
    + by apply conforms_app.
    + intros b Hb. rewrite after_app. by apply HR.
  - exists l. split_and!; [done|done|]. by intros ?.
  - exists l. split_and!; [done|done|]. by intros ?.
Qed.

Lemma speaks_raise {A} s e (Q : A -> bool * Packet -> Prop) : speaks s (raise e) Q.
Proof. intros tr. exists []. rewrite app_nil_r. split_and!; [done|done|]. by intros ?. Qed.

Lemma speaks_checked {A} s (o : option A) : speaks s (checked o) (fun a s' => o = Some a /\ s' = s).
Proof. intros tr. exists []. rewrite app_nil_r. split_and!; [done|done|]. intros a. destruct o; [|done]. by intros [= ->]. Qed.

Lemma speaks_wrap {A} s f (m : M (list dcall) A) Q : speaks s m Q -> speaks s (wrap f m) Q.
Proof.
  intros Hm tr. destruct (Hm tr) as (l & El & Hl & HQ). exists l. unfold wrap.
  destruct (m tr) as [tr1 [a|e|]]; cbn [fst snd] in *; (split_and!; [done|done|]); [done|by intros ?|by intros ?].
Qed.

(** A call that is not a message. *)
Lemma speaks_call s c : message c = false -> allowed s.1 s.2 c -> speaks s (ask answer c) (fun _ s' => s' = s).
Proof.
  intros Hc Ha tr. exists [c]. unfold ask. destruct (answer c tr); cbn [fst snd conforms after]; unfold next; rewrite Hc; by split_and!.
Qed.

Lemma speaks_ask_or s c : message c = false -> allowed s.1 s.2 c -> speaks s (ask_or answer c) (fun _ s' => s' = s).
Proof. intros Hc Ha tr. exists [c]. cbn [fst snd conforms after ask_or]. unfold next. rewrite Hc. by split_and!. Qed.

Lemma speaks_Sleep s d : speaks s (time_Sleep d) (fun _ s' => s' = s).
Proof. intros tr. exists [Sleep d]. by split_and!. Qed.

Lemma speaks_exchange needs p :
  speaks (needs, p) (exchange answer needs p) (fun r s' => s' = (still_needs needs r, r_packet r)).
Proof.
  intros tr. exists [if needs then Request else Renew p]. unfold exchange. destruct needs; unfold mbind, M_bind, ask_or; cbn [fst snd];
    (split_and!; [done|done|]); intros r [= <-]; done.
Qed.

Lemma speaks_attempts fuel retry i success packet needs :
  speaks (needs, packet) (attempts answer fuel retry i success packet needs)
    (fun r s' => forall ok p n, r = Some (ok, p, n) -> s' = (n, p)).
Proof.
  revert i success packet needs. induction fuel as [|fuel IH]; intros i success packet needs; cbn [attempts]; [by apply speaks_ret|].
  destruct (_ || _); [|apply speaks_ret; by intros ??? [= <- <- <-]].
  eapply speaks_bind; [apply speaks_exchange|]. intros r s' ->. unfold still_needs. destruct (r_err r); [apply IH|].
  apply speaks_ret. by intros ??? [= <- <- <-].
Qed.

Lemma speaks_use_lease test needs p : speaks (needs, p) (use_lease answer test iface p) (fun _ s' => s' = (needs, p)).
Proof.
  unfold use_lease. eapply speaks_bind; [apply speaks_checked|]. intros yiaddr s1 [Hy ->]. cbv zeta.
  eapply (speaks_bind _ _ _ (fun _ s' => s' = (needs, p))).
  - destruct test; [by apply speaks_ret|]. eapply (speaks_bind _ _ _ (fun _ s' => s' = (needs, p))).
    + unfold set_address. eapply speaks_bind; [by apply speaks_ask_or|]. intros r s2 ->.
      destruct r as [u|e]; [by apply speaks_ret|]. destruct (IsExist e); [apply speaks_raise|by apply speaks_ret].
    + intros _ s2 ->. destruct (ParseOptions p !! OptionRouter) as [gw|] eqn:Eg; [|by apply speaks_ret].
      eapply speaks_bind; [apply speaks_checked|]. intros dst s3 [Hd ->]. apply speaks_wrap. by apply speaks_call.
  - intros _ s2 ->. eapply speaks_bind; [apply speaks_checked|]. intros secs s3 [_ ->].
    eapply speaks_bind; [apply speaks_checked|]. intros x s4 [_ ->]. by apply speaks_ret.
Qed.

Lemma speaks_leases fuel test n timeout retry i packet needs :
  speaks (needs, packet) (leases answer fuel test iface n timeout retry i packet needs) (fun _ _ => True).
Proof.
  revert i packet needs. induction fuel as [|fuel IH]; intros i packet needs; cbn [leases]; [by apply speaks_ret|].
  destruct (_ || _); [|by apply speaks_ret]. eapply speaks_bind; [apply speaks_attempts|]. intros r s1 Hr.
  destruct r as [[[ok p] nd]|]; [|by apply speaks_ret]. rewrite (Hr ok p nd eq_refl).
  eapply speaks_bind; [apply speaks_checked|]. intros x s2 [_ ->]. destruct ok; cbn [negb]; [|apply speaks_raise].
  eapply speaks_bind; [apply speaks_use_lease|]. intros more s3 ->. destruct more; [|by apply speaks_ret].
  eapply speaks_bind; [apply speaks_Sleep|]. intros _ s4 ->. apply IH.
Qed.

Lemma speaks_dhclient4 fuel test n timeout retry :
  speaks (true, []) (dhclient4 answer fuel test iface n timeout retry) (fun _ _ => True).
Proof.
  unfold dhclient4. eapply speaks_bind; [by apply speaks_wrap, speaks_call|]. intros _ s1 ->.
  eapply speaks_bind; [by apply speaks_wrap, speaks_call|]. intros _ s2 ->. apply speaks_leases.
Qed.
End Protocol.

(** C31: with finite numbers of renewals and attempts [dhclient4] ends, after at most as many messages
    as there are attempts for the first lease and the renewals.  It keeps to the protocol: each
    message is a request as long as none was answered without an error, and from then on a renewal
    of the packet of the last answer; each address that is set is that of the last packet, with its
    mask or by itself, and each route its router, both on the link that was given. *)
Theorem dhclient4_bounded answer fuel test iface n timeout retry tr :
  0 <= n -> 0 <= retry -> retry + n + 1 < Z.of_nat fuel ->
  let '(tr', r) := dhclient4 answer fuel test iface n timeout retry tr in
  r <> Ret None /\
  exists l, tr' = tr ++ l /\ conforms answer iface tr (true, []) l /\ zlen (messages l) <= (n + 1) * retry.
Proof.
  intros Hn Hr Hf. pose proof (dhclient4_messages answer fuel test iface n timeout retry tr Hn Hr Hf) as Hb.
  destruct (speaks_dhclient4 answer iface fuel test n timeout retry tr) as (l & El & Hl & _).
  destruct (dhclient4 _ _ _ _ _ _ _ tr) as [tr' r]. cbn [fst] in El. subst tr'. destruct Hb as [He Hb]. split; [done|].
  exists l. split_and!; [done|done|]. rewrite messages_app, zlen_app in Hb. lia.
Qed.

(** A reply of a server: a mask, a router and five seconds. *)
Definition ex_options : bytes := [x01; x04; xff; xff; xff; x00; x03; x04; x0a; x00; x02; x02; xff].
Definition ex_packet : Packet :=
  replicate 9 x00 ++ [x05] ++ replicate 6 x00 ++ [x0a; x00; x02; x0f] ++ replicate 220 x00 ++ ex_options.

Definition ex_link : link := MkLink 2 (str "eth0") [x52; x54] true.

(** The first request is lost. *)
Definition ex_server (c : dcall) (tr : list dcall) : danswer c + error :=
  match c with
  | LinkByName _ => inl ex_link
  | Request | Renew _ => if (length (messages tr) <? 1)%nat then inr (Errno 110) else inl (MkReply true ex_packet None)
  | Solicit => inl []
  | _ => inl tt
  end.

Lemma dhclient4_bounded_witness :
  let '(tr', r) := dhclient4 ex_server 9 false ex_link 1 (20 * Second) 3 [] in
  r <> Ret None /\ messages tr' = [Request; Request; Renew ex_packet] /\ conforms ex_server ex_link [] (true, []) tr'.
Proof.
  pose proof (dhclient4_bounded ex_server 9 false ex_link 1 (20 * Second) 3 [] ltac:(lia) ltac:(lia) ltac:(lia)) as H.
  assert (messages (dhclient4 ex_server 9 false ex_link 1 (20 * Second) 3 []).1 = [Request; Request; Renew ex_packet]) as Em
    by (vm_compute; reflexivity).
  destruct (dhclient4 _ _ _ _ _ _ _ []) as [tr' r]. destruct H as (H1 & l & -> & H2 & _).
  split; [exact H1|]. split; [exact Em|exact H2].
Defined.

Example ex_dhclient4 : dhclient4 ex_server 9 false ex_link 1 (20 * Second) 3 [] =
  ([NewPacketSock 2; NewClient [x52; x54] (20 * Second); Request; Request;
    AddrReplace 2 [x0a; x00; x02; x0f] [xff; xff; xff; x00] 0 0; RouteReplace 2 [x00; x00; x00; x00] [x0a; x00; x02; x02];
    Sleep (10 * Second); Renew ex_packet;
    AddrReplace 2 [x0a; x00; x02; x0f] [xff; xff; xff; x00] 0 0; RouteReplace 2 [x00; x00; x00; x00] [x0a; x00; x02; x02];
    Sleep (10 * Second)], Ret (Some tt)).
Proof. vm_compute. reflexivity. Qed.

(** Nobody answers: the attempts end with the empty packet of the last error. *)
Lemma attempts_unanswered answer fuel retry i success packet needs tr :
  (forall tr, exists e, answer Request tr = inr e) -> needs = true -> packet = [] ->
  0 <= i <= retry -> retry - i < Z.of_nat fuel -> (i = retry -> success = false) ->
  exists tr', attempts answer fuel retry i success packet needs tr = (tr', Ret (Some (false, [], true))).
Proof.
  intros Ha -> ->. revert i success tr. induction fuel as [|fuel IH]; intros i success tr Hi Hf Hs; [lia|]. cbn [attempts].
  destruct (Z.ltb_spec i retry), (Z.ltb_spec retry 0); cbn [orb]; try lia.
  - unfold exchange, mbind, M_bind. destruct (Ha tr) as [e He]. cbn [ask_or]. rewrite He.
    change (r_err (MkReply false [] (Some e))) with (Some e). apply IH; [lia|lia|done].
  - eexists. by rewrite (Hs ltac:(lia)).
Qed.

(** Without a server [dhclient4] does not err_report that it has no lease: it crashes on the empty
    packet, whose [Secs] is evaluated for a debug message. *)
Theorem dhclient4_no_server_panics answer fuel test iface n timeout retry tr :
  (forall tr, exists e, answer Request tr = inr e) ->
  (forall c tr, message c = false -> exists r, answer c tr = inl r) ->
  0 <= n -> 0 <= retry -> retry + n + 1 < Z.of_nat fuel ->
  snd (dhclient4 answer fuel test iface n timeout retry tr) = Panic.
Proof.
  intros Ha Hok Hn Hr Hf. unfold dhclient4, mbind at 1, M_bind at 1, wrap at 1, ask at 1.
  destruct (Hok (NewPacketSock (l_Index iface)) tr eq_refl) as [u ->]. cbn [fst snd].
  unfold mbind at 1, M_bind at 1, wrap at 1, ask at 1.
  destruct (Hok (NewClient (l_HardwareAddr iface) timeout) (tr ++ [NewPacketSock (l_Index iface)]) eq_refl) as [v ->].
  set (t2 := (_ ++ [NewClient _ _])). destruct fuel as [|fuel]; [lia|]. cbn [leases].
  destruct (Z.ltb_spec n 0), (Z.ltb_spec 0 (n + 1)); cbn [orb]; try lia.
  destruct (attempts_unanswered answer (S fuel) retry 0 false [] true t2 Ha eq_refl eq_refl) as [t3 E]; [lia..|done|].
  unfold mbind at 1, M_bind at 1. by rewrite E.
Qed.

Lemma dhclient4_no_server_panics_witness :
  snd (dhclient4 (fun c tr => if message c then inr (Errno 110) else ex_server c tr) 9 false ex_link 1 (20 * Second) 3 []) = Panic.
Proof.
  apply (dhclient4_no_server_panics (fun c tr => if message c then inr (Errno 110) else ex_server c tr)); [| |lia..].
  - intros tr. by eexists.
  - intros c tr Hc. rewrite Hc. destruct c; try discriminate Hc; by eexists.
Defined.

(** An address that cannot be set is only an error when it exists already: the client goes on
    to the route and the next renewal as if it had been set. *)
Theorem address_error_ignored answer iface ip mask preferred valid tr e :
  answer (AddrReplace (l_Index iface) ip mask preferred valid) tr = inr e -> e <> Errno 17 -> e <> Errno 39 ->
  set_address answer iface ip mask preferred valid tr = (tr ++ [AddrReplace (l_Index iface) ip mask preferred valid], Ret tt).
Proof.
  intros He H1 H2. unfold set_address, mbind, M_bind, ask_or. rewrite He. unfold IsExist.
  rewrite bool_decide_eq_false_2; [done|]. naive_solver.
Qed.

(** The wait between two renewals is never negative, and is zero for a timeout of ten seconds. *)
Theorem lease_timeout_wait seconds :
  0 <= i64 (lease_timeout seconds - slop) < 2 ^ 63 /\ lease_timeout 10 - slop = 0.
Proof.
  split; [|done]. unfold lease_timeout. pose proof (i64_range (seconds * Second)).
  destruct (Z.ltb_spec (i64 (seconds * Second)) slop) as [|Hge]; [by vm_compute|].
  assert (0 <= slop) by (by vm_compute). rewrite i64_small; lia.
Qed.

(** ** The mask of an address without one *)

(** [IPMask.Size]: the leading ones; [(0, 0)] unless they are followed by zeros only. *)
Definition leading_ones (b : byte) : option Z :=
  let v := b2z b in
  if v =? 0xff then Some 8 else if v =? 0xfe then Some 7 else if v =? 0xfc then Some 6 else if v =? 0xf8 then Some 5
  else if v =? 0xf0 then Some 4 else if v =? 0xe0 then Some 3 else if v =? 0xc0 then Some 2 else if v =? 0x80 then Some 1
  else if v =? 0 then Some 0 else None.

Fixpoint simpleMaskLength (mask : bytes) : option Z :=
  match mask with
  | [] => Some 0
  | v :: mask =>
      if b2z v =? 0xff then option_map (Z.add 8) (simpleMaskLength mask)
      else match leading_ones v with
           | None => None
           | Some n => if forallb (fun b => b2z b =? 0) mask then Some n else None
           end
  end.

Definition mask_Size (mask : bytes) : Z * Z :=
  match simpleMaskLength mask with Some n => (n, 8 * zlen mask) | None => (0, 0) end.

(** The default mask is meant to be the most restrictive one; for an address that does not look
    like a mask it has length zero, the least restrictive. *)
Theorem default_mask_is_zero a b c d :
  b2z a < 128 -> a <> x00 -> mask_Size [a; b; c; d] = (0, 0).
Proof.
  intros Ha H0. unfold mask_Size. cbn [simpleMaskLength].
  assert (b2z a <> 0) as Hz. { intros Hz. apply H0. apply (inj b2z). by rewrite Hz. }
  assert (leading_ones a = None) as Hl.
  { unfold leading_ones.
    repeat (match goal with |- context [b2z a =? ?k] => destruct (Z.eqb_spec (b2z a) k) as [E|_]; [exfalso; lia|] end). done. }
  destruct (Z.eqb_spec (b2z a) 0xff) as [E|_]; [exfalso; lia|]. by rewrite Hl.
Qed.

Example default_mask_ex : mask_Size [x0a; x00; x02; x0f] = (0, 0) /\ mask_Size [xff; xff; xff; x00] = (24, 32).
Proof. split; reflexivity. Qed.

(** ** Options *)

(** The encoding of options: code, length, value. *)
Definition encode_option (o : byte * bytes) : bytes := fst o :: z2b (zlen (snd o)) :: snd o.

Definition option_ok (o : byte * bytes) : Prop := fst o <> Pad /\ fst o <> End_ /\ zlen (snd o) < 256.

Lemma parse_options_cons fuel o rest m :
  option_ok o -> parse_options (S fuel) (encode_option o ++ rest) m = parse_options fuel rest (<[fst o := snd o]> m).
Proof.
  intros (H1 & H2 & H3). destruct o as [c v]. cbn [fst snd encode_option app parse_options] in *.
  pose proof (zlen_nonneg v). rewrite (proj2 (byte_eqb_neq c End_) H2), (proj2 (byte_eqb_neq c Pad) H1), b2z_z2b_small by lia.
  replace (Z.to_nat (zlen v)) with (length v) by (unfold zlen; lia).
  rewrite length_app. destruct (Nat.ltb_spec (length v + length rest) (length v)); [lia|].
  by rewrite drop_app_length, take_app_length.
Qed.

(** The options of a packet are read back, the last one of every code. *)
Theorem ParseOptions_encoded (p : bytes) (os : list (byte * bytes)) (rest : bytes) :
  length p = 240%nat -> Forall option_ok os ->
  ParseOptions (p ++ concat (encode_option <$> os) ++ End_ :: rest) = foldl (fun m o => <[fst o := snd o]> m) ∅ os.
Proof.
  intros Hp Hos. unfold ParseOptions, Options.
  assert (forall l : bytes, drop 240 (p ++ l) = l) as Hd by (intros l; rewrite <- Hp; apply drop_app_length).
  rewrite (proj2 (Z.ltb_lt _ _)) by (unfold zlen; rewrite !length_app; cbn [length]; lia). rewrite Hd.
  set (m := ∅). set (data := concat _ ++ _). assert (length os < length data)%nat as Hf.
  { unfold data. rewrite length_app. clear. induction os as [|o os IH]; cbn; [lia|]. rewrite length_app. cbn in *. lia. }
  revert Hf. generalize (length data) as fuel. unfold data. clear data. generalize m. clear m.
  induction Hos as [|o os Ho _ IH]; intros m [|fuel] Hf; [cbn in Hf; lia|..].
  - cbn. by destruct rest.
  - cbn in Hf. lia.
  - rewrite fmap_cons. cbn [concat foldl]. rewrite <- app_assoc, parse_options_cons by done. apply IH. cbn in Hf. lia.
Qed.

Lemma ParseOptions_encoded_witness :
  ParseOptions (replicate 240 x00 ++ concat (encode_option <$> [(x01, [xff; x00]); (x03, [x0a])]) ++ End_ :: []) =
  <[x03 := [x0a]]> (<[x01 := [xff; x00]]> ∅).
Proof.
  apply (ParseOptions_encoded (replicate 240 x00) [(x01, [xff; x00]); (x03, [x0a])] []); [done|].
  repeat constructor; try done; by vm_compute.
Defined.

(** ** Bringing a link up ends *)

Definition slept (tr : list dcall) : Z := foldr Z.add 0 ((fun c => match c with Sleep d => d | _ => 0 end) <$> tr).

Lemma slept_app l k : slept (l ++ k) = slept l + slept k.
Proof. unfold slept. rewrite fmap_app, foldr_app. induction l as [|c l IH]; cbn; [done|]. rewrite IH. lia. Qed.

Section Ifup.
Context (clock : list dcall -> Z) (answer : forall c, list dcall -> danswer c + error) (start : Z).
(** The clock of a process that sleeps goes on. *)
Hypothesis clock_runs : forall tr, start + slept tr <= clock tr.

Lemma ifup_loop_end fuel ifname tr :
  (1 <= fuel)%nat -> linkUpAttempt - slept tr <= (Z.of_nat fuel - 1) * Second ->
  (ifup_loop clock answer fuel start ifname tr).2 <> Ret None.
Proof.
  revert tr. induction fuel as [|fuel IH]; intros tr H1 Hf; [lia|]. cbn [ifup_loop].
  rewrite (M_bind_Ret _ _ _ _ _ (eq_refl : time_Now clock tr = (_, Ret (clock tr)))).
  destruct (Z.ltb_spec (clock tr - start) linkUpAttempt) as [Hlt|]; [|done]. specialize (clock_runs tr).
  unfold mbind at 1, M_bind at 1, wrap at 1, ask at 1.
  destruct (answer (LinkByName ifname) (tr ++ [Now])) as [iface|e]; [|done].
  destruct (l_OperUp iface); [done|]. unfold mbind at 1, M_bind at 1, wrap at 1, ask at 1.
  destruct (answer (LinkSetUp (l_Index iface)) _); [|done].
  rewrite (M_bind_Ret _ _ _ _ _ (eq_refl : time_Sleep Second _ = (_, Ret tt))).
  assert (0 < Second) by (by vm_compute). assert (1 <= fuel)%nat by nia.
  apply IH; [done|]. rewrite !slept_app. change (slept [Sleep Second]) with Second.
  change (slept [Now]) with 0. change (slept [LinkByName ifname]) with 0. change (slept [LinkSetUp (l_Index iface)]) with 0. nia.
Qed.
End Ifup.

(** [ifup] tries at most thirty times, a second apart, and then gives up. *)
Theorem ifup_ends clock answer ifname :
  (forall tr, clock [] + slept tr <= clock tr) ->
  (ifup clock answer 31 ifname []).2 <> Ret None.
Proof.
  intros Hc. unfold ifup. rewrite (M_bind_Ret _ _ _ _ _ (eq_refl : time_Now clock [] = (_, Ret (clock [])))).
  apply ifup_loop_end; [done|lia|by vm_compute].
Qed.

Lemma ifup_ends_witness : (ifup (fun tr => 7 + slept tr) ex_server 31 (str "eth0") []).2 <> Ret None.
Proof. apply (ifup_ends (fun tr => 7 + slept tr)). intros tr. cbn. lia. Defined.
