(* ===== verification/Pflask.v ===== *)
(** * Containers ([cmds/pflask])

    [pflask] starts itself again in new name spaces and, there, mounts a root file system, makes
    the device nodes and links of [/dev], opens a pseudo-terminal and runs the program.  The
    program is the list of its calls to a kernel that may refuse any of them; file descriptors
    are left out. *)

From Stdlib Require Import Strings.String.
From stdpp Require Import gmap.
From S2P Require Import Termios.
From S2P Require Export GoPath GoText Kernel.

(** What [Stat] tells of a file. *)
Record pstat := MkPstat { p_IsDir : bool; p_Dev : Z; p_Rdev : Z; p_Mode : Z }.

Inductive pcall :=
| Open (name : bytes)
| Ioctl (request : Z)
| Stat (name : bytes)
| MkdirAll (name : bytes)
| Mount (src dst mtype : bytes) (flags : Z) (opts : bytes)
| Mknod (name : bytes) (mode dev : Z)
| Symlink (old new : bytes)
| Chmod (name : bytes) (mode : Z)
| Chown (name : bytes) (uid gid : Z)
| WriteFile (name data : bytes) (perm : Z)
| RemoveAll (name : bytes)
| Chroot (name : bytes)
| Chdir (name : bytes)
| Exec (prog : bytes) (argv : list bytes) (env : list bytes)
| Spawn (argv : list bytes) (cloneflags : Z)
| Start (argv : list bytes) (env : list bytes) (chroot dir : bytes)
| PtraceDetach (pid : Z)
| Sleep (ms : Z)
| RawMode.

Definition panswer (c : pcall) : Type :=
  match c with
  | Ioctl _ | Start _ _ _ _ => Z
  | Stat _ => pstat
  | _ => unit
  end.

Definition TIOCGPTN : Z := 0x80045430.
Definition TIOCSPTLCK : Z := 0x40045431.

Definition MS_RDONLY : Z := 1.
Definition MS_NOSUID : Z := 2.
Definition MS_NODEV : Z := 4.
Definition MS_NOEXEC : Z := 8.
Definition MS_REMOUNT : Z := 32.
Definition MS_BIND : Z := 4096.
Definition MS_REC : Z := 16384.
Definition MS_SLAVE : Z := 2 ^ 19.
Definition MS_STRICTATIME : Z := 2 ^ 24.

Definition flags_of (l : list Z) : Z := foldr Z.lor 0 l.

Record mount := MkMount { m_src : bytes; m_dst : bytes; m_type : bytes; m_opts : bytes; m_flags : Z; m_dir : bool; needPrivilege : bool }.

Definition root_mount : mount := MkMount [] (str "/") [] [] (Z.lor MS_SLAVE MS_REC) false false.

Definition mounts : list mount :=
  [MkMount (str "proc") (str "/proc") (str "proc") [] (flags_of [MS_NOSUID; MS_NOEXEC; MS_NODEV]) true false;
   MkMount (str "/proc/sys") (str "/proc/sys") [] [] MS_BIND true true;
   MkMount [] (str "/proc/sys") [] [] (flags_of [MS_BIND; MS_RDONLY; MS_REMOUNT]) true true;
   MkMount (str "sysfs") (str "/sys") (str "sysfs") [] (flags_of [MS_NOSUID; MS_NOEXEC; MS_NODEV; MS_RDONLY]) true true;
   MkMount (str "tmpfs") (str "/dev") (str "tmpfs") (str "mode=755") (flags_of [MS_NOSUID; MS_STRICTATIME]) true true;
   MkMount (str "devpts") (str "/dev/pts") (str "devpts") (str "newinstance,ptmxmode=0660,mode=0620") (flags_of [MS_NOSUID; MS_NOEXEC]) true false;
   MkMount (str "tmpfs") (str "/dev/shm") (str "tmpfs") (str "mode=1777") (flags_of [MS_NOSUID; MS_STRICTATIME; MS_NODEV]) true false;
   MkMount (str "tmpfs") (str "/run") (str "tmpfs") (str "mode=755") (flags_of [MS_NOSUID; MS_NODEV; MS_STRICTATIME]) true false].

(** [Add]: another mount at the end of the list. *)
Definition Add (src dst mtype opts : bytes) (flags : Z) (dir : bool) (ms : list mount) : list mount :=
  ms ++ [MkMount src dst mtype opts flags dir false].

(** The device number that [mknod] is given: the one of the file system that holds the node,
    its low byte moved up. *)
Definition modedev (st : pstat) : Z * Z := (u32 (p_Mode st), Z.lor (Z.shiftr (p_Dev st) 8) (Z.shiftl (Z.land (p_Dev st) 0xff) 8)).

Definition dev_nodes : list bytes :=
  [str "/dev/tty"; str "/dev/full"; str "/dev/null"; str "/dev/zero"; str "/dev/random"; str "/dev/urandom"].

Definition dev_links : list (bytes * bytes) :=
  [(str "/dev/pts/ptmx", str "/dev/ptmx"); (str "/proc/kcore", str "/dev/core"); (str "/proc/self/fd", str "/dev/fd");
   (str "/proc/self/fd/0", str "/dev/stdin"); (str "/proc/self/fd/1", str "/dev/stdout"); (str "/proc/self/fd/2", str "/dev/stderr")].

Section Pflask.
Context (answer : forall c, list pcall -> panswer c + error).
Abbreviation K := (M (list pcall)).
Abbreviation do_ := (ask answer).

(** A call whose error is only logged. *)
Definition try_ (c : pcall) : K unit := _ ← ask_or answer c; mret tt.

(** ** Pseudo-terminals *)

Definition ptsname : K bytes := n ← do_ (Ioctl TIOCGPTN); mret (str "/dev/pts/" ++ Itoa n).

(** The request is the one of [ptsname]: nothing is unlocked. *)
Definition ptsunlock : K unit := _ ← do_ (Ioctl TIOCGPTN); mret tt.

Definition ptsopen : K bytes :=
  _ ← do_ (Open (str "/dev/ptmx"));
  slavename ← ptsname;
  _ ← ptsunlock;
  _ ← do_ (Open slavename);
  mret slavename.

(** ** Control groups *)

Definition cg_apply (s : bytes) (f : bytes -> K unit) : K unit :=
  match s with
  | [] => mret tt
  | _ => each (fun g => f (PathJoin [g])) (Split x2c s)
  end.

Definition cg_Validate (c s : bytes) : K unit :=
  cg_apply s (fun s =>
    st ← fatalf "%v" (do_ (Stat (PathJoin [c; s])));
    if p_IsDir st then mret tt else raise (Errorf "%s: not a directory")).

Definition cg_Create (c s name : bytes) : K unit := fatalf "%v" (do_ (MkdirAll (PathJoin [c; s; name]))).
Definition cg_Attach (c s name : bytes) (pid : Z) : K unit :=
  fatalf "%v" (do_ (WriteFile (PathJoin [c; s; name; str "tasks"]) (Itoa pid) 0x180)).
Definition cg_Destroy (c s n : bytes) : K unit := fatalf "%v" (do_ (RemoveAll (PathJoin [c; s; n]))).

Definition cg_Do (c groups : bytes) (pid : Z) : K unit :=
  let cgn := str "pflask." ++ Itoa pid in
  cg_apply groups (fun s => _ ← cg_Create c s cgn; cg_Attach c s cgn pid).

(** ** The root file system *)

Definition One (m : mount) (base : bytes) : K unit :=
  let dst := PathJoin [base; m_dst m] in
  _ ← (if m_dir m then fatalf "One: mkdirall %v: %v" (do_ (MkdirAll dst)) else mret tt);
  fatalf "Mount :%s: on :%s: type :%s: flags %x: opts :%v: %v" (do_ (Mount (m_src m) dst (m_type m) (m_flags m) (m_opts m))).

Definition MountAll (ms : list mount) (base : bytes) (unprivileged : bool) : K unit :=
  _ ← One root_mount [];
  each (fun m => if needPrivilege m && unprivileged then mret tt else One m base) ms.

(** [os.Stat] whose error is logged and whose nil result is used: a panic. *)
Definition stat_or_nil (n : bytes) : K pstat :=
  r ← ask_or answer (Stat n);
  match r with inl st => mret st | inr _ => lift Panic end.

Definition make_console (base console : bytes) (unprivileged : bool) : K unit :=
  _ ← try_ (Chmod console 0x180);
  _ ← try_ (Chown console 0 0);
  st ← stat_or_nil console;
  let nn := PathJoin [base; str "/dev/console"] in
  let '(mode, dev) := modedev st in
  _ ← (if unprivileged then
         r ← ask_or answer (Stat nn);
         match r with inl _ => mret tt | inr _ => try_ (WriteFile nn [] 0x180) end
       else try_ (Mknod nn mode dev));
  fatalf "Mount :%s: on :%s: flags %v: %v" (do_ (Mount console nn [] MS_BIND [])).

Definition copy_nodes (base : bytes) : K unit :=
  each (fun n =>
    st ← stat_or_nil n;
    let '(mode, dev) := modedev st in
    try_ (Mknod (PathJoin [base; n]) mode dev)) dev_nodes.

(** A link that is made when nothing is there. *)
Definition link_if_missing (src dst : bytes) : K unit :=
  r ← ask_or answer (Stat dst);
  match r with inl _ => mret tt | inr _ => try_ (Symlink src dst) end.

Definition make_ptmx (base : bytes) : K unit := link_if_missing (str "/dev/pts/ptmx") (PathJoin [base; str "/dev/ptmx"]).

Definition make_symlinks (base : bytes) : K unit :=
  each (fun '(src, dst) => link_if_missing src (PathJoin [base; dst])) dev_links.

(** ** The environment *)

(** The last argument tells that the name spaces are new. *)
Record options := MkOptions {
  o_cgpath : bytes; o_cgroup : bytes; o_chroot : bytes; o_chdir : bytes; o_keepenv : bool; o_env : bytes; o_user : bytes
}.

(** [e[k[0]] = k[1]] of a variable of the process. *)
Definition keep_var (e : gmap bytes bytes) (v : bytes) : outcome error (gmap bytes bytes) :=
  match SplitN x3d 2 v with
  | k0 :: k1 :: _ => Ret (<[k0 := k1]> e)
  | _ => Panic
  end.

Fixpoint keep_vars (e : gmap bytes bytes) (vs : list bytes) : outcome error (gmap bytes bytes) :=
  match vs with
  | [] => Ret e
  | v :: vs => e ← keep_var e v; keep_vars e vs
  end.

(** A variable of [-env]; one without a value is logged and skipped. *)
Definition set_var (e : gmap bytes bytes) (c : bytes) : gmap bytes bytes :=
  match SplitN x3d 2 c with
  | [k0; k1] => <[k0 := k1]> e
  | _ => e
  end.

Definition environment (o : options) (environ : list bytes) (term : bytes) : outcome error (gmap bytes bytes) :=
  e ← (if o_keepenv o then keep_vars ∅ environ else Ret ∅);
  let e := <[str "HOME" := str "/root"]> (<[str "LOGNAME" := o_user o]> (<[str "USER" := o_user o]>
             (<[str "PATH" := str "/usr/sbin:/usr/bin:/sbin:/bin"]> (<[str "TERM" := term]> e)))) in
  let e := match o_env o with [] => e | s => foldl set_var e (Split x2c s) end in
  Ret (<[str "container" := str "pflask"]> e).

(** ** Letting the child go

    The error is looked at before the number of attempts. *)
Fixpoint detach (fuel : nat) (kid i : Z) : K (option unit) :=
  match fuel with
  | O => mret None
  | S fuel =>
      r ← ask_or answer (PtraceDetach kid);
      match r with
      | inr _ => _ ← try_ (Sleep 250); detach fuel kid (i + 1)
      | inl _ => if 100 <? i then raise (Errorf "Tried for 10 seconds to get a DETACH. Let's fix the go runtime someday") else mret (Some tt)
      end
  end.

(** ** [main] *)

Definition clone_flags (euid : Z) : Z :=
  let f := flags_of [0x20000; 0x4000000; 0x8000000; 0x20000000] in
  if euid =? 0 then f else Z.lor f 0x10000000.

Context (range : gmap bytes bytes -> list (bytes * bytes)).

Definition env_list (e : gmap bytes bytes) : list bytes := (fun '(k, v) => k ++ str "=" ++ v) <$> range e.

(** Without control groups the process becomes the program: the arguments that [Exec] is given
    start with the second one. *)
Definition become (o : options) (a : list bytes) (e : gmap bytes bytes) : K unit :=
  _ ← fatalf "%v" (do_ (Chroot (o_chroot o)));
  _ ← fatalf "%v" (do_ (Chdir (o_chdir o)));
  a0 ← lift (or_panic (a !! 0%nat));
  _ ← fatalf "%v" (do_ (Exec a0 (drop 1 a) (env_list e)));
  mret tt.

(** With them it starts the program, traced, and lets it go when it is in its groups; then it
    copies between the terminals.  [None] when the fuel of [detach] has run out. *)
Definition start_child (o : options) (a : list bytes) (e : gmap bytes bytes) : K Z := fun tr =>
  match do_ (Start a (env_list e) (o_chroot o) (o_chdir o)) tr with
  | (tr, Fail _) => (tr, Panic)
  | r => r
  end.

Definition run_child (fuel : nat) (o : options) (a : list bytes) (e : gmap bytes bytes) : K (option unit) :=
  _ ← lift (or_panic (a !! 0%nat));
  kid ← start_child o a e;
  _ ← cg_Do (o_cgpath o) (o_cgroup o) kid;
  r ← detach fuel kid 0;
  match r with
  | None => mret None
  | Some _ => _ ← fatalf "%v" (do_ RawMode); mret (Some tt)
  end.

(** In the new name spaces; [args] are the arguments after the flags. *)
Definition contained (fuel : nat) (o : options) (environ : list bytes) (term : bytes) (unprivileged : bool) (args : list bytes)
  : K (option unit) :=
  if bytes_eqb (o_chroot o) [] then raise (Errorf "you are required to set the chroot via --chroot")
  else
    a ← lift (or_panic (slice args 0 (zlen args - 1)));
    sname ← fatalf "%v" ptsopen;
    _ ← MountAll mounts (o_chroot o) unprivileged;
    _ ← (if unprivileged then mret tt else copy_nodes (o_chroot o));
    _ ← make_ptmx (o_chroot o);
    _ ← make_symlinks (o_chroot o);
    _ ← make_console (o_chroot o) sname unprivileged;
    e ← lift (environment o environ term);
    if bytes_eqb (o_cgroup o) [] then _ ← become o a e; mret (Some tt)
    else run_child fuel o a e.

(** [osargs] is the whole command line; after starting itself again it exits with status 1
    (the error). *)
Definition pflask_main (fuel : nat) (o : options) (environ : list bytes) (term : bytes) (euid : Z) (osargs args : list bytes)
  : K (option unit) :=
  match args with
  | [] => raise (Errorf "exit status 1")
  | _ =>
      l ← lift (or_panic (last osargs));
      c ← lift (or_panic (l !! 0%nat));
      if negb (byte_eqb c x23) then
        let a := osargs ++ [if euid =? 0 then str "#" else str "#u"] in
        _ ← try_ (Spawn a (clone_flags euid));
        raise (Errorf "exit status 1")
      else contained fuel o environ term (bytes_eqb l (str "#u")) args
  end.
End Pflask.

(** ** The terminal ([termios.go])

    The command has its own copy of the settings; raw mode is the one of [pkg/termios]. *)
Definition setRaw (t : Termios.Termios) : Termios.Termios :=
  Termios.MkTermios
    (Termios.and_not (Termios.Iflag t) (flags_of [0x1; 0x2; 0x8; 0x20; 0x40; 0x80; 0x100; 0x400]))
    (Termios.and_not (Termios.Oflag t) 0x1)
    (Z.lor (Termios.and_not (Termios.Cflag t) (flags_of [0x30; 0x100])) 0x30)
    (Termios.and_not (Termios.Lflag t) (flags_of [0x8; 0x40; 0x2; 0x1; 0x8000]))
    (Termios.Line t)
    (<[5%nat := x00]> (<[6%nat := x01]> (Termios.CC t)))
    (Termios.Ispeed t) (Termios.Ospeed t).

Section RawFd.
Context (refuse : list Termios.ioctl -> Termios.ioctl -> option error) (driver : Termios.Termios -> Termios.Termios -> Termios.Termios).

(** The requests; all four report a failure as [termios.get]. *)
Definition request (c : Termios.ioctl) : M Termios.terminal unit := fun d =>
  match Termios.ioctl_call refuse driver c d with
  | (d', Fail _) => (d', Fail (Errorf "termios.get: r1 %v, errno %v"))
  | r => r
  end.

Definition getTermios : M Termios.terminal Termios.Termios := _ ← request Termios.TCGETS; d ← get; mret (Termios.settings d).
Definition termios_set (t : Termios.Termios) : M Termios.terminal unit := request (Termios.TCSETS t).
Definition getWinsize : M Termios.terminal Termios.WinSize := _ ← request Termios.TIOCGWINSZ; d ← get; mret (Termios.window d).
Definition winsize_set (w : Termios.WinSize) : M Termios.terminal unit := request (Termios.TIOCSWINSZ w).

Definition raw : M Termios.terminal unit :=
  t ← getTermios;
  termios_set (setRaw t).
End RawFd.

(** ** The mounts *)

Definition one_plan (m : mount) (base : bytes) : list pcall :=
  let dst := PathJoin [base; m_dst m] in
  (if m_dir m then [MkdirAll dst] else []) ++ [Mount (m_src m) dst (m_type m) (m_flags m) (m_opts m)].

Definition mount_plan (ms : list mount) (base : bytes) (unprivileged : bool) : list pcall :=
  one_plan root_mount [] ++
  concat ((fun m => if needPrivilege m && unprivileged then [] else one_plan m base) <$> ms).

Section Facts.
Context (answer : forall c, list pcall -> panswer c + error).

Lemma One_strict m base : strict answer (One answer m base) (one_plan m base).
Proof.
  unfold One, one_plan. destruct (m_dir m).
  - apply (strict_bind _ _ _ [_]); [apply strict_fatalf, strict_ask|intros _]. apply strict_fatalf, strict_ask.
  - apply (strict_bind _ _ _ []); [apply strict_ret|intros _]. apply strict_fatalf, strict_ask.
Qed.

Lemma MountAll_strict ms base u : strict answer (MountAll answer ms base u) (mount_plan ms base u).
Proof.
  unfold MountAll, mount_plan. apply strict_bind; [apply One_strict|intros _].
  apply strict_each. intros m. destruct (needPrivilege m && u); [apply strict_ret|apply One_strict].
Qed.

#[local] Hint Extern 1 (grows (match ?x with _ => _ end)) => destruct x : grows.

Lemma grows_try_ c : grows (try_ answer c).
Proof. unfold try_. eauto with grows. Qed.
#[local] Hint Resolve grows_try_ : grows.

Lemma grows_stat_or_nil n : grows (stat_or_nil answer n).
Proof. unfold stat_or_nil. eauto with grows. Qed.
#[local] Hint Resolve grows_stat_or_nil : grows.

Lemma grows_link src dst : grows (link_if_missing answer src dst).
Proof. unfold link_if_missing. eauto with grows. Qed.
#[local] Hint Resolve grows_link : grows.

Lemma grows_console base console u : grows (make_console answer base console u).
Proof.
  unfold make_console. do 3 (apply grows_bind; [auto with grows|intros ?]). destruct (modedev a1) as [mode dev].
  eauto 8 with grows.
Qed.

Lemma grows_detach fuel kid i : grows (detach answer fuel kid i).
Proof.
  revert i. induction fuel as [|fuel IH]; intros i; cbn [detach]; [apply grows_ret|].
  apply grows_bind; [auto with grows|]. intros [u|e]; [destruct (100 <? i); auto with grows|].
  apply grows_bind; auto with grows.
Qed.

(** What is done after the mounts. *)
Lemma grows_rest range fuel o environ term (u : bool) a sname :
  grows (
    _ ← (if u then mret tt else copy_nodes answer (o_chroot o));
    _ ← make_ptmx answer (o_chroot o);
    _ ← make_symlinks answer (o_chroot o);
    _ ← make_console answer (o_chroot o) sname u;
    e ← lift (environment o environ term);
    if bytes_eqb (o_cgroup o) [] then _ ← become answer range o a e; mret (Some tt)
    else run_child answer range fuel o a e).
Proof.
  apply grows_bind; [destruct u; [apply grows_ret|]|intros _].
  { apply grows_each. intros n. apply grows_bind; [auto with grows|]. intros st. destruct (modedev st). auto with grows. }
  apply grows_bind; [apply grows_link|intros _].
  apply grows_bind; [apply grows_each; intros [x y]; apply grows_link|intros _].
  apply grows_bind; [apply grows_console|intros _]. apply grows_bind; [apply grows_lift|intros e].
  destruct (bytes_eqb (o_cgroup o) []).
  - apply grows_bind; [|intros _; apply grows_ret]. unfold become. eauto 12 with grows.
  - unfold run_child. apply grows_bind; [apply grows_lift|intros _]. apply grows_bind.
    { intros tr. unfold start_child. destruct (grows_ask answer (Start a (env_list range e) (o_chroot o) (o_chdir o)) tr) as [k Hk].
      destruct (ask _ _ tr) as [t [z|x|]]; by exists k. }
    intros kid. apply grows_bind.
    { unfold cg_Do, cg_apply, cg_Create, cg_Attach. destruct (o_cgroup o); eauto 8 with grows. }
    intros _. apply grows_bind; [apply grows_detach|]. intros [[]|]; eauto with grows.
Qed.

(** Calls that run a program. *)
Definition runs_program (c : pcall) : bool := match c with Exec _ _ _ | Start _ _ _ _ => true | _ => false end.

(** A part that runs none. *)
Definition no_run {A} (m : M (list pcall) A) : Prop := forall tr, exists l, (m tr).1 = tr ++ l /\ forallb (fun c => negb (runs_program c)) l = true.

Lemma no_run_bind {A B} (m : M (list pcall) A) (f : A -> M (list pcall) B) : no_run m -> (forall a, no_run (f a)) -> no_run (m ≫= f).
Proof.
  intros Hm Hf tr. destruct (Hm tr) as (l & E & Hl). unfold mbind, M_bind. destruct (m tr) as [t [a|e|]]; cbn [fst] in *; subst; [|by eauto..].
  destruct (Hf a (tr ++ l)) as (l' & -> & Hl'). exists (l ++ l'). rewrite app_assoc, forallb_app, Hl, Hl'. done.
Qed.
Lemma no_run_lift {A} (o : outcome error A) : no_run (lift o).
Proof. intros tr. exists []. by rewrite app_nil_r. Qed.
Lemma no_run_ret {A} (a : A) : no_run (mret a).
Proof. intros tr. exists []. by rewrite app_nil_r. Qed.
Lemma no_run_raise {A} e : no_run (raise e : M (list pcall) A).
Proof. intros tr. exists []. by rewrite app_nil_r. Qed.
Lemma no_run_ask c : runs_program c = false -> no_run (ask answer c).
Proof. intros Hc tr. exists [c]. split; [done|]. cbn. by rewrite Hc. Qed.
Lemma no_run_ask_or c : runs_program c = false -> no_run (ask_or answer c).
Proof. intros Hc tr. exists [c]. split; [done|]. cbn. by rewrite Hc. Qed.
Lemma no_run_wrap {A} f (m : M (list pcall) A) : no_run m -> no_run (wrap f m).
Proof. intros Hm tr. destruct (Hm tr) as (l & E & Hl). unfold wrap. destruct (m tr) as [t [a|e|]]; by eauto. Qed.
Lemma no_run_each {A} (f : A -> M (list pcall) unit) l : (forall a, no_run (f a)) -> no_run (each f l).
Proof. intros Hf. induction l as [|a l IH]; cbn [each]; [apply no_run_ret|]. by apply no_run_bind. Qed.

Lemma no_run_ptsopen : no_run (ptsopen answer).
Proof.
  unfold ptsopen, ptsname, ptsunlock. apply no_run_bind; [by apply no_run_ask|intros _].
  apply no_run_bind; [apply no_run_bind; [by apply no_run_ask|intros n; apply no_run_ret]|intros n].
  apply no_run_bind; [apply no_run_bind; [by apply no_run_ask|intros _; apply no_run_ret]|intros _].
  apply no_run_bind; [by apply no_run_ask|intros _; apply no_run_ret].
Qed.

Lemma mount_plan_no_run ms base u : forallb (fun c => negb (runs_program c)) (mount_plan ms base u) = true.
Proof.
  unfold mount_plan. rewrite forallb_app. apply andb_true_intro. split; [done|].
  induction ms as [|m ms IH]; [done|]. cbn. rewrite forallb_app, IH, andb_true_r.
  destruct (needPrivilege m && u); [done|]. unfold one_plan. by destruct (m_dir m).
Qed.
End Facts.

Lemma forallb_take {A} (f : A -> bool) k l : forallb f l = true -> forallb f (take k l) = true.
Proof. revert k. induction l as [|a l IH]; intros [|k]; cbn; try done. intros [-> ?]%andb_prop. by apply IH. Qed.

Lemma no_run_in l c : forallb (fun c => negb (runs_program c)) l = true -> c ∈ l -> runs_program c = false.
Proof. intros H Hin. apply negb_true_iff. rewrite forallb_forall in H. apply H. by apply list_elem_of_In. Qed.

(** C24: no program is run in the container before all of its mounts were made: whatever the
    kernel refuses, when the program is executed or started, the calls before it include the
    whole list of mounts, in order, each of them granted. *)
Theorem program_runs_after_mounts answer range fuel o environ term unprivileged args tr tr' r c :
  contained answer range fuel o environ term unprivileged args tr = (tr', r) ->
  c ∈ tr' -> runs_program c = true ->
  c ∈ tr \/ exists l1 l2, tr' = tr ++ l1 ++ mount_plan mounts (o_chroot o) unprivileged ++ l2 /\ c ∈ l2 /\
    granted answer (tr ++ l1) (mount_plan mounts (o_chroot o) unprivileged).
Proof.
  intros H Hin Hc. unfold contained in H. destruct (bytes_eqb (o_chroot o) []).
  { injection H as <- _. by left. }
  unfold mbind at 1, M_bind at 1, lift at 1 in H. destruct (or_panic _) as [a|e|]; [|injection H as <- _; by left..].
  unfold mbind at 1, M_bind at 1 in H.
  destruct (no_run_wrap (fun _ => Errorf "%v") _ (no_run_ptsopen answer) tr) as (l1 & E1 & Hl1).
  change (wrap (fun _ => Errorf "%v") (ptsopen answer)) with (fatalf "%v" (ptsopen answer)) in E1.
  assert (forall t r', (t, r') = (tr', r) -> t = tr ++ l1 -> c ∈ tr) as Hstop1.
  { intros t r' [= -> _] ->. apply elem_of_app in Hin as [?|Hin]; [done|]. pose proof (no_run_in _ _ Hl1 Hin). congruence. }
  destruct (fatalf _ (ptsopen answer) tr) as [t1 [sname|e|]]; cbn [fst] in E1; [|left; by eapply Hstop1..]. subst t1.
  unfold mbind at 1, M_bind at 1 in H. pose proof (MountAll_strict answer mounts (o_chroot o) unprivileged (tr ++ l1)) as Hm.
  pose proof (mount_plan_no_run mounts (o_chroot o) unprivileged) as Hp.
  assert (forall l, forallb (fun c => negb (runs_program c)) l = true -> c ∈ tr ++ l1 ++ l -> c ∈ tr) as Hskip.
  { intros l Hl [?|[Hi|Hi]%elem_of_app]%elem_of_app; [done|exfalso..]; [pose proof (no_run_in _ _ Hl1 Hi)|pose proof (no_run_in _ _ Hl Hi)]; congruence. }
  destruct (MountAll answer mounts (o_chroot o) unprivileged (tr ++ l1)) as [t2 [u|e|]]; [|destruct Hm as [k ->]|done].
  - destruct Hm as [-> Hg].
    destruct (grows_rest answer range fuel o environ term unprivileged a sname ((tr ++ l1) ++ mount_plan mounts (o_chroot o) unprivileged)) as [l2 E2].
    rewrite H in E2. cbn [fst] in E2. subst tr'. rewrite <- !app_assoc in *. rewrite (app_assoc l1), app_assoc in Hin.
    apply elem_of_app in Hin as [Hin|Hin]; [left; by eapply Hskip, Hin|]. right. by exists l1, l2.
  - injection H as <- _. left. rewrite <- app_assoc in Hin. eapply Hskip, Hin. by apply forallb_take.
Qed.

(** A kernel that grants everything. *)
Definition granting (c : pcall) (_ : list pcall) : panswer c + error :=
  match c with
  | Ioctl _ => inl 3
  | Start _ _ _ _ => inl 42
  | Stat _ => inl (MkPstat true 6 0x103 0x21b6)
  | _ => inl tt
  end.

Definition ex_options : options := MkOptions (str "/cg") [] (str "/c") (str "/") false (str "A=1,B,A=2") (str "me").

Lemma program_runs_after_mounts_witness :
  exists tr' r l1 l2, contained granting map_to_list 1 ex_options [] (str "vt") false [str "/bin/sh"; str "-x"; str "#"] [] = (tr', r) /\
    tr' = l1 ++ mount_plan mounts (str "/c") false ++ l2 /\ granted granting l1 (mount_plan mounts (str "/c") false).
Proof.
  destruct (contained granting map_to_list 1 ex_options [] (str "vt") false [str "/bin/sh"; str "-x"; str "#"] []) as [tr' r] eqn:E.
  assert (existsb runs_program tr' = true) as Hex.
  { replace tr' with (contained granting map_to_list 1 ex_options [] (str "vt") false [str "/bin/sh"; str "-x"; str "#"] []).1 by (by rewrite E).
    vm_compute. reflexivity. }
  apply existsb_exists in Hex as (c & Hin & Hc). apply list_elem_of_In in Hin.
  destruct (program_runs_after_mounts granting map_to_list 1 ex_options [] (str "vt") false [str "/bin/sh"; str "-x"; str "#"] [] tr' r c E Hin Hc)
    as [Hn|(l1 & l2 & H1 & _ & H2)]; [by apply elem_of_nil in Hn|]. exists tr', r, l1, l2. split; [done|]. split; [exact H1|exact H2].
Defined.

(** ** The environment of the program *)

(** The value that [-env] gives to a variable: the last assignment. *)
Definition assigned (s k : bytes) : option bytes :=
  foldl (fun acc c => match SplitN x3d 2 c with [k0; k1] => if bytes_eqb k0 k then Some k1 else acc | _ => acc end) None (Split x2c s).


Lemma set_var_lookup e c k :
  set_var e c !! k = match SplitN x3d 2 c with [k0; k1] => if bytes_eqb k0 k then Some k1 else e !! k | _ => e !! k end.
Proof.
  unfold set_var. destruct (SplitN x3d 2 c) as [|k0 [|k1 [|? ?]]]; try done. unfold bytes_eqb.
  case_bool_decide as E; [subst; by rewrite lookup_insert_eq|by rewrite lookup_insert_ne].
Qed.

Lemma set_vars_lookup (l : list bytes) (e : gmap bytes bytes) k :
  foldl set_var e l !! k =
    foldl (fun acc c => match SplitN x3d 2 c with [k0; k1] => if bytes_eqb k0 k then Some k1 else acc | _ => acc end) (e !! k) l.
Proof. revert e. induction l as [|c l IH]; intros e; [done|]. cbn [foldl]. by rewrite IH, set_var_lookup. Qed.

Lemma assigned_default (l : list bytes) k (d : option bytes) :
  foldl (fun acc c => match SplitN x3d 2 c with [k0; k1] => if bytes_eqb k0 k then Some k1 else acc | _ => acc end) d l =
  match foldl (fun acc c => match SplitN x3d 2 c with [k0; k1] => if bytes_eqb k0 k then Some k1 else acc | _ => acc end) None l with
  | Some v => Some v
  | None => d
  end.
Proof.
  revert d. induction l as [|c l IH]; intros d; [done|]. cbn [foldl].
  destruct (SplitN x3d 2 c) as [|k0 [|k1 [|? ?]]]; try apply IH.
  destruct (bytes_eqb k0 k); [|apply IH]. rewrite (IH (Some k1)). by case_match.
Qed.

Definition fixed_vars (user term : bytes) : list (bytes * bytes) :=
  [(str "HOME", str "/root"); (str "LOGNAME", user); (str "USER", user);
   (str "PATH", str "/usr/sbin:/usr/bin:/sbin:/bin"); (str "TERM", term)].

(** The environment of the program: [container] always says [pflask]; any other variable has the
    last value that [-env] gives it, else its fixed value, else, with [-keepenv], the value it
    had; malformed entries of [-env] change nothing. *)
Theorem environment_lookup o environ term e k :
  environment o environ term = Ret e ->
  exists kept, (if o_keepenv o then keep_vars ∅ environ else Ret ∅) = Ret kept /\
    e !! k =
      if bytes_eqb k (str "container") then Some (str "pflask")
      else match assigned (o_env o) k with
           | Some v => Some v
           | None => match (list_to_map (fixed_vars (o_user o) term) : gmap bytes bytes) !! k with
                     | Some v => Some v
                     | None => kept !! k
                     end
           end.
Proof.
  unfold environment. destruct (if o_keepenv o then keep_vars ∅ environ else Ret ∅) as [kept|x|]; [|done..].
  cbn [mbind outcome_bind]. set (e1 := <[str "HOME" := _]> _). intros [= <-]. exists kept. split; [done|].
  unfold bytes_eqb at 1. case_bool_decide as E; [subst k; by rewrite lookup_insert_eq|].
  rewrite lookup_insert_ne by done.
  match goal with |- ?m !! k = _ =>
    assert (m !! k = match assigned (o_env o) k with Some v => Some v | None => e1 !! k end) as -> end.
  { destruct (o_env o) as [|b s] eqn:Eo; [done|]. rewrite set_vars_lookup. apply assigned_default. }
  destruct (assigned (o_env o) k); [done|]. unfold e1, fixed_vars. cbn [list_to_map foldr fst snd curry uncurry].
  rewrite !lookup_insert, lookup_empty. repeat case_decide; done.
Qed.

Lemma environment_lookup_witness :
  exists e, environment ex_options [] (str "vt") = Ret e /\ e !! str "A" = Some (str "2") /\ e !! str "B" = None /\
    e !! str "container" = Some (str "pflask").
Proof.
  destruct (environment ex_options [] (str "vt")) as [e|x|] eqn:E; [|done..]. exists e. split; [done|].
  destruct (environment_lookup ex_options [] (str "vt") e (str "A") E) as (k1 & Hk1 & H1).
  destruct (environment_lookup ex_options [] (str "vt") e (str "B") E) as (k2 & Hk2 & H2).
  destruct (environment_lookup ex_options [] (str "vt") e (str "container") E) as (k3 & Hk3 & H3).
  injection Hk1 as <-. injection Hk2 as <-. rewrite H1, H2, H3. split_and!; vm_compute; reflexivity.
Defined.

(** ** What goes wrong *)

(** The slave terminal is never unlocked. *)
Theorem ptsopen_never_unlocks answer tr : Ioctl TIOCSPTLCK ∉ tr -> Ioctl TIOCSPTLCK ∉ (ptsopen answer tr).1.
Proof.
  intros Ht. unfold ptsopen, ptsname, ptsunlock, mbind, M_bind, ask, mret, M_ret.
  repeat (case_match; simplify_eq; cbn [fst]); rewrite ?not_elem_of_app;
    repeat (match goal with |- _ /\ _ => split end); try done; by intros ?%list_elem_of_singleton.
Qed.

(** Nodes of the same file system all get the same device number, whatever devices they are. *)
Theorem copied_nodes_same_device (a b : pstat) : p_Dev a = p_Dev b -> snd (modedev a) = snd (modedev b).
Proof. unfold modedev. by intros ->. Qed.

Example null_is_not_copied : snd (modedev (MkPstat false 6 0x103 0x21b6)) <> 0x103.
Proof. vm_compute. discriminate. Qed.

(** A missing node ends the program. *)
Theorem missing_node_panics answer base tr e :
  answer (Stat (str "/dev/tty")) tr = inr e -> (copy_nodes answer base tr).2 = Panic.
Proof.
  intros He. unfold copy_nodes, dev_nodes. cbn [each]. unfold mbind at 1, M_bind at 1, mbind at 1, M_bind at 1, stat_or_nil, mbind at 1, M_bind at 1, ask_or.
  by rewrite He.
Qed.

(** While the detach fails nothing ends the loop, and a detach that succeeds after more than a
    hundred attempts is fatal. *)
Theorem detach_never_gives_up answer fuel kid i tr :
  (forall tr, exists e, answer (PtraceDetach kid) tr = inr e) -> (detach answer fuel kid i tr).2 = Ret None.
Proof.
  intros Ha. revert i tr. induction fuel as [|fuel IH]; intros i tr; [done|]. cbn [detach].
  unfold mbind at 1, M_bind at 1, ask_or. destruct (Ha tr) as [e ->]. unfold mbind at 1, M_bind at 1, try_, mbind at 1, M_bind at 1, ask_or.
  apply IH.
Qed.

Theorem late_detach_fatal answer fuel kid i tr u :
  answer (PtraceDetach kid) tr = inl u -> 100 < i ->
  (detach answer (S fuel) kid i tr).2 = Fail (Errorf "Tried for 10 seconds to get a DETACH. Let's fix the go runtime someday").
Proof.
  intros Ha Hi. cbn [detach]. unfold mbind, M_bind, ask_or. rewrite Ha. destruct (Z.ltb_spec 100 i); [done|lia].
Qed.

(** The program is given its arguments without its name. *)
Theorem exec_drops_name answer range o prog args e tr tr' :
  become answer range o (prog :: args) e tr = (tr', Ret tt) -> last tr' = Some (Exec prog args (env_list range e)).
Proof.
  unfold become. intros H. do 4 (M_inv H). injection H as <-. injection Hm1 as <- <-.
  unfold fatalf, wrap, ask in Hm2. cbn [drop] in Hm2. destruct (answer _ _); [|done]. injection Hm2 as <- _. apply last_snoc.
Qed.

(** An empty last argument ends the program before anything is done. *)
Theorem empty_argument_panics answer range fuel o environ term euid osargs a args tr :
  pflask_main answer range fuel o environ term euid (osargs ++ [[]]) (a :: args) tr = (tr, Panic).
Proof. unfold pflask_main, mbind, M_bind, lift. by rewrite last_snoc. Qed.

(** Raw mode is that of [pkg/termios]. *)
Theorem setRaw_MakeRaw t : setRaw t = Termios.MakeRaw t.
Proof. reflexivity. Qed.

(** The mode set is the one of [Raw] of the package, which hands back the settings before; only the
    text of an error differs. *)
Theorem raw_Raw refuse driver d :
  fst (raw refuse driver d) = fst (Termios.Raw refuse driver d) /\
  is_Ret (snd (raw refuse driver d)) = is_Ret (snd (Termios.Raw refuse driver d)).
Proof.
  unfold raw, Termios.Raw, getTermios, termios_set, Termios.tty_Get, Termios.tty_Set, request, mbind, M_bind, get, mret, M_ret, Termios.ioctl_call.
  destruct (refuse (Termios.calls d) Termios.TCGETS); [done|]. cbn. rewrite setRaw_MakeRaw.
  by destruct (refuse _ (Termios.TCSETS _)).
Qed.

(** A window size that is set is the one that is read afterwards. *)
Theorem winsize_set_get refuse driver w d :
  (forall l c, refuse l c = None) ->
  snd ((_ ← winsize_set refuse driver w; getWinsize refuse driver) d) = Ret w.
Proof.
  intros H. unfold winsize_set, getWinsize, request, mbind, M_bind, get, mret, M_ret, Termios.ioctl_call.
  rewrite H. cbn. by rewrite H.
Qed.
