(* ===== verification/Pty.v ===== *)
(** * Pseudo-terminals ([pkg/pty]) and the terminal of the shell ([cmds/rush/tty_linux.go])

    A command that runs on a pseudo-terminal while the real terminal is in raw mode, the copying
    of what is typed, and the process group that the shell puts in the foreground. *)

From Stdlib Require Import Strings.String.
From S2P Require Import Termios.
From S2P Require Export GoText Kernel.

Module Pty.

Inductive ptcall :=
| OpenTTY
| OpenPtmx
| IoctlPtm (request : Z)
| StatPts (name : bytes)
| OpenPts (name : bytes)
| StartCmd (argv : list bytes)
| SetPtsWinSize (w : WinSize)
| WaitCmd (pid : Z).

Definition ptanswer (c : ptcall) : Type :=
  match c with IoctlPtm _ | StartCmd _ => Z | _ => unit end.

Definition TIOCGPTN : Z := 0x80045430.
Definition TIOCSPTLCK : Z := 0x40045431.

(** The terminal, and what was asked for apart from it. *)
Record world := MkWorld { w_tty : terminal; w_calls : list ptcall }.

Record Pty := MkPty { Argv : list bytes; Sname : bytes; Kid : Z; WS : WinSize; Restorer : Termios }.

Section Pty.
Context (answer : forall c, list ptcall -> ptanswer c + error).
Context (refuse : list ioctl -> ioctl -> option error) (driver : Termios -> Termios -> Termios).

Definition call (c : ptcall) : M world (ptanswer c) := fun w =>
  (MkWorld (w_tty w) (w_calls w ++ [c]), match answer c (w_calls w) with inl r => Ret r | inr e => Fail e end).

(** An operation of [pkg/termios] on the terminal. *)
Definition on_tty {A} (m : M terminal A) : M world A := fun w =>
  let '(t, r) := m (w_tty w) in (MkWorld t (w_calls w), r).

Definition pty_ptsname : M world bytes := n ← call (IoctlPtm TIOCGPTN); mret (str "/dev/pts/" ++ Itoa n).
Definition pty_ptsunlock : M world unit := _ ← call (IoctlPtm TIOCSPTLCK); mret tt.

(** Up to ten looks for the slave; what they find does not matter. *)
Fixpoint wait_for (n : nat) (sname : bytes) : M world unit :=
  match n with
  | O => mret tt
  | S n =>
      r ← result (call (StatPts sname));
      match r with inl _ => mret tt | inr _ => wait_for n sname end
  end.

Definition New (argv : list bytes) : M world Pty :=
  _ ← call OpenTTY;
  restorer ← on_tty (tty_Get refuse driver);
  _ ← call OpenPtmx;
  _ ← pty_ptsunlock;
  sname ← pty_ptsname;
  _ ← wait_for 10 sname;
  _ ← call (OpenPts sname);
  mret (MkPty argv sname (-1) (MkWinSize 0 0 0 0) restorer).

(** The command is started after the terminal was put in raw mode, which is undone when it
    cannot be started. *)
Definition start_or_restore (p : Pty) (restorer : Termios) : M world Z := fun w =>
  match call (StartCmd (Argv p)) w with
  | (w, Fail e) => let '(w, _) := on_tty (tty_Set refuse driver restorer) w in (w, Fail e)
  | r => r
  end.

Definition Start (p : Pty) : M world Pty :=
  _ ← call OpenTTY;
  ws ← on_tty (GetWinSize refuse driver);
  restorer ← on_tty (Raw refuse driver);
  kid ← start_or_restore p restorer;
  _ ← result (call (SetPtsWinSize ws));
  mret (MkPty (Argv p) (Sname p) kid ws restorer).

Definition Wait (p : Pty) : M world unit :=
  deferred (on_tty (tty_Set refuse driver (Restorer p))) (call (WaitCmd (Kid p))).

Definition Run (p : Pty) : M world unit :=
  p ← Start p;
  Wait p.
End Pty.

(** *** The copy of the input

    Results of reading one byte: a byte, nothing, or an error, which ends the copy.  [data] is
    the byte that is kept between the reads. *)
Inductive read1 := Got (b : byte) | Nothing | ReadError.

(** What is echoed and what goes to the pseudo-terminal. *)
Fixpoint pump (data : byte) (reads : list read1) : bytes * bytes :=
  match reads with
  | [] => ([], [])
  | ReadError :: _ => ([], [])
  | r :: reads =>
      let data := match r with Got b => b | _ => data end in
      let echo := if byte_eqb data x0d then [data] else [] in
      let data := if byte_eqb data x0d then x0a else data in
      let '(e, o) := pump data reads in
      (echo ++ e, data :: o)
  end.
End Pty.

(** ** The foreground of the shell *)

Module RushTty.

Inductive tcall := OpenTTY | GetPgrp | CloseTTY | SetPgrp (pgrp : Z).

Definition tanswer (c : tcall) : Type := match c with GetPgrp => Z | _ => unit end.

(** The globals: whether [ttyf] is a file, and [ttypgrp]. *)
Record job := MkJob { ttyf : bool; ttypgrp : Z; j_calls : list tcall }.

Section Tty.
Context (answer : forall c, list tcall -> tanswer c + error).

Definition jcall (c : tcall) : M job (tanswer c + error) := fun j =>
  (MkJob (ttyf j) (ttypgrp j) (j_calls j ++ [c]), Ret (answer c (j_calls j))).

Definition tty : M job unit :=
  r ← jcall OpenTTY;
  match r with
  | inr _ => modify (fun j => MkJob false (ttypgrp j) (j_calls j))
  | inl _ =>
      _ ← modify (fun j => MkJob true (ttypgrp j) (j_calls j));
      r ← jcall GetPgrp;
      match r with
      | inl pgrp => modify (fun j => MkJob (ttyf j) pgrp (j_calls j))
      | inr _ => _ ← jcall CloseTTY; modify (fun j => MkJob false 0 (j_calls j))
      end
  end.

(** A file that is nil panics. *)
Definition foreground : M job unit :=
  j ← get;
  if ttypgrp j =? 0 then mret tt
  else if ttyf j then _ ← jcall (SetPgrp (ttypgrp j)); mret tt
  else lift Panic.
End Tty.

(** [foreground] never uses a file that is not open, and gives back the group that [tty] found. *)
Theorem foreground_restores answer1 answer2 j1 :
  tty answer1 (MkJob false 0 []) = (j1, Ret tt) ->
  exists j2, foreground answer2 j1 = (j2, Ret tt) /\
    (forall g, SetPgrp g ∈ j_calls j2 -> g = ttypgrp j1 /\ g <> 0).
Proof.
  unfold tty, mbind, M_bind, jcall, modify. intros H. cbn [j_calls ttyf ttypgrp] in H.
  assert (exists l, j1 = MkJob (ttyf j1) (ttypgrp j1) l /\ (forall g, SetPgrp g ∉ l) /\ (ttypgrp j1 <> 0 -> ttyf j1 = true)) as (l & Hj & Hl & Hf).
  { destruct (answer1 OpenTTY []) as [u|e]; [|injection H as <-; exists [OpenTTY]; split_and!; [done| |done]; set_solver].
    destruct (answer1 GetPgrp _) as [g|e]; injection H as <-; eexists; split_and!; try done; cbn; set_solver. }
  rewrite Hj. unfold foreground, get, mbind, M_bind, jcall. cbn [ttypgrp ttyf j_calls].
  destruct (Z.eqb_spec (ttypgrp j1) 0) as [E|E].
  - eexists. split; [done|]. cbn. intros g Hg. by apply Hl in Hg.
  - rewrite (Hf E). eexists. split; [done|]. cbn. intros g [Hg|Hg%list_elem_of_singleton]%elem_of_app; [by apply Hl in Hg|].
    by simplify_eq.
Qed.

Lemma foreground_restores_witness :
  exists j1 j2, tty (fun c _ => match c return tanswer c + error with GetPgrp => inl 7 | _ => inl tt end) (MkJob false 0 []) = (j1, Ret tt) /\
    foreground (fun c _ => inr (Errno 25)) j1 = (j2, Ret tt).
Proof.
  eexists. destruct (foreground_restores (fun c _ => match c return tanswer c + error with GetPgrp => inl 7 | _ => inl tt end)
    (fun c _ => inr (Errno 25)) _ eq_refl) as (j2 & H & _). exists j2. split; [reflexivity|exact H].
Defined.
End RushTty.

(** ** Facts *)

Module PtyFacts.
Import Pty.

(** A kernel that lets the settings be set, and a driver that keeps what it is given. *)
Section Restore.
Context (answer : forall c, list ptcall -> ptanswer c + error).
Context (refuse : list ioctl -> ioctl -> option error).
Hypothesis sets : forall cs t, refuse cs (TCSETS t) = None.
Abbreviation keep := (fun _ new : Termios => new).

Lemma on_tty_Set t w : (on_tty (tty_Set refuse keep t) w).2 = Ret tt /\ settings (w_tty (on_tty (tty_Set refuse keep t) w).1) = t.
Proof. unfold on_tty, tty_Set, ioctl_call. by rewrite sets. Qed.

Lemma on_tty_read {A} (c : ioctl) (f : terminal -> A) w :
  (forall t, c <> TCSETS t) ->
  settings (w_tty (on_tty (_ ← ioctl_call refuse keep c; d ← get; mret (f d)) w).1) = settings (w_tty w).
Proof.
  intros Hc. unfold on_tty, mbind, M_bind, ioctl_call. destruct (refuse _ c); cbn; [done|]. by destruct c; try (by edestruct Hc).
Qed.

Lemma Run_restores p w : settings (w_tty (Run answer refuse keep p w).1) = settings (w_tty w).
Proof.
  unfold Run, Start. unfold mbind at 1, M_bind at 1, mbind at 1, M_bind at 1, call at 1.
  destruct (answer OpenTTY (w_calls w)) as [u|e]; [|done]. set (w1 := MkWorld _ _).
  assert (settings (w_tty w1) = settings (w_tty w)) as E1 by done. clearbody w1.
  unfold mbind at 1, M_bind at 1. pose proof (on_tty_read TIOCGWINSZ window w1 ltac:(done)) as E2.
  change (_ ← ioctl_call refuse keep TIOCGWINSZ; d ← get; mret (window d)) with (GetWinSize refuse keep) in E2.
  destruct (on_tty (GetWinSize refuse keep) w1) as [w2 [ws|e|]]; cbn [fst] in E2; [|cbn [fst]; by rewrite E2, E1..].
  unfold mbind at 1, M_bind at 1.
  assert (forall w3 r, on_tty (Raw refuse keep) w2 = (w3, r) ->
    match r with Ret t => t = settings (w_tty w2) | _ => settings (w_tty w3) = settings (w_tty w2) end) as Hraw.
  { intros w3 r. unfold on_tty, Raw, tty_Get, tty_Set, mbind, M_bind, ioctl_call. destruct (refuse _ TCGETS); cbn; [by intros [= <- <-]|].
    rewrite sets. by intros [= <- <-]. }
  destruct (on_tty (Raw refuse keep) w2) as [w3 r3]. specialize (Hraw _ _ eq_refl).
  destruct r3 as [restorer|e|]; [|cbn [fst]; by rewrite Hraw, E2, E1..]. rewrite <- E1, <- E2, <- Hraw. clear Hraw E1 E2 w w1 w2.
  unfold mbind at 1, M_bind at 1, start_or_restore, call at 1.
  destruct (answer (StartCmd (Argv p)) (w_calls w3)) as [kid|e].
  - unfold mbind at 1, M_bind at 1, result, call at 1. set (w4 := MkWorld _ _).
    destruct (answer (SetPtsWinSize ws) (w_calls w4)) as [v|e]; unfold mret, M_ret, Wait, deferred; cbn [Restorer Kid];
      (match goal with |- context [call answer (WaitCmd kid) ?s] => destruct (call answer (WaitCmd kid) s) as [w5 r5] end);
      destruct (on_tty_Set restorer w5) as [Hr Hs]; destruct (on_tty (tty_Set refuse keep restorer) w5) as [w6 r6]; by cbn in *.
  - set (w4 := MkWorld _ _). destruct (on_tty_Set restorer w4) as [Hr Hs].
    destruct (on_tty (tty_Set refuse keep restorer) w4) as [w5 r5]. by cbn in *.
Qed.

(** A command that is run on a pseudo-terminal leaves the settings of the terminal as they
    were, whether it can be started or not and however it ends. *)
Theorem Run_restores_terminal p w : settings (w_tty (Run answer refuse keep p w).1) = settings (w_tty w).
Proof. apply Run_restores. Qed.
End Restore.

Definition ex_tty : terminal :=
  MkTerminal (MkTermios 0x500 5 0xbf 0x8a3b 0 (replicate 32 x00) 38400 38400) (MkWinSize 24 80 0 0) [].

Lemma Run_restores_terminal_witness :
  settings (w_tty (Run (fun c _ => match c return ptanswer c + error with StartCmd _ => inl 9 | WaitCmd _ => inr (Errorf "exit status 2") | IoctlPtm _ => inl 3 | _ => inl tt end)
    (fun _ _ => None) (fun _ t => t) (MkPty [str "sh"] (str "/dev/pts/3") (-1) (MkWinSize 0 0 0 0) (settings ex_tty)) (MkWorld ex_tty [])).1) = settings ex_tty.
Proof.
  apply (Run_restores_terminal (fun c _ => match c return ptanswer c + error with StartCmd _ => inl 9 | WaitCmd _ => inr (Errorf "exit status 2") | IoctlPtm _ => inl 3 | _ => inl tt end)
    (fun _ _ => None)). done.
Defined.

(** What is typed goes to the pseudo-terminal with carriage returns as new lines; only carriage
    returns are echoed. *)
Theorem pump_translates data (typed : bytes) :
  pump data (Got <$> typed) =
    (List.filter (fun b => byte_eqb b x0d) typed, (fun b => if byte_eqb b x0d then x0a else b) <$> typed).
Proof.
  revert data. induction typed as [|b typed IH]; intros data; [done|]. cbn. rewrite IH. by destruct (byte_eqb b x0d).
Qed.

(** A read that gives nothing sends the last byte again. *)
Example pump_repeats : (pump x00 [Got x61; Nothing]).2 = [x61; x61].
Proof. reflexivity. Qed.
End PtyFacts.
