(* ===== verification/Ls.v ===== *)
(** * Walking a tree, and [ls] ([cmds/ls])

    [filepath.Walk] over a tree of files as the kernel shows it, in the order of names, with the
    errors of reading directories and files; the listing of names in its short, quoted and long
    forms.  The tables of users, the names in quotes, dates and the alignment of columns by
    [text/tabwriter] are parameters. *)

From Stdlib Require Import Strings.String.
From stdpp Require Import gmap.
From S2P Require Export GoPath GoText.

(** ** [filepath.Walk] *)

Section Walk.
Context {Info : Type}.

(** A file, or a directory with its entries in the order of their names, or the error of reading
    it; an entry may be a file that [Lstat] fails on. *)
#[warnings="-register-all"]
Inductive tree :=
| TFile (fi : Info)
| TDir (fi : Info) (entries : list (bytes * (tree + error)) + error).

Definition tree_info (t : tree) : Info := match t with TFile fi => fi | TDir fi _ => fi end.
Definition is_dir (t : tree) : bool := match t with TFile _ => false | TDir _ _ => true end.

(** What the function that is called for every file returns. *)
Inductive verdict := Continue | SkipDir | Stop (e : error).

(** What it is told of a file: what [Lstat] says, that it failed, or that the directory cannot be
    read. *)
Inductive sight := Seen (fi : Info) | Missing (e : error) | Unread (fi : Info) (e : error).

Context {St : Type} (walkFn : bytes -> sight -> St -> St * verdict).

(** The loop over the entries of the directory [path]. *)
Section Entries.
Context (walk : bytes -> tree -> St -> St * verdict) (path : bytes).

Fixpoint walk_entries (es : list (bytes * (tree + error))) (s : St) : St * verdict :=
  match es with
  | [] => (s, Continue)
  | (name, inr e) :: es =>
      match walkFn (PathJoin [path; name]) (Missing e) s with
      | (s, Stop e) => (s, Stop e)
      | (s, _) => walk_entries es s
      end
  | (name, inl t) :: es =>
      match walk (PathJoin [path; name]) t s with
      | (s, Continue) => walk_entries es s
      | (s, SkipDir) => if is_dir t then walk_entries es s else (s, SkipDir)
      | (s, Stop e) => (s, Stop e)
      end
  end.
End Entries.

Fixpoint walk (path : bytes) (t : tree) (s : St) : St * verdict :=
  match walkFn path (Seen (tree_info t)) s with
  | (s, SkipDir) => if is_dir t then (s, Continue) else (s, SkipDir)
  | (s, Stop e) => (s, Stop e)
  | (s, Continue) =>
      match t with
      | TFile _ => (s, Continue)
      | TDir fi (inr e) => walkFn path (Unread fi e) s
      | TDir _ (inl es) => walk_entries walk path es s
      end
  end.

(** [filepath.Walk]: the error that is returned, if any. *)
Definition Walk (root : bytes) (t : tree + error) (s : St) : St * option error :=
  let '(s, v) := match t with
                 | inr e => walkFn root (Missing e) s
                 | inl t => walk root t s
                 end in
  (s, match v with Stop e => Some e | _ => None end).
End Walk.
Arguments tree : clear implicits.
Arguments sight : clear implicits.

Section TreeInd.
Context {Info : Type} (P : tree Info -> Prop).
Definition entry_all (e : bytes * (tree Info + error)) : Prop := match snd e with inl t => P t | inr _ => True end.
Context (P_File : forall fi, P (TFile fi)) (P_Err : forall fi e, P (TDir fi (inr e))).
Context (P_Dir : forall fi es, Forall entry_all es -> P (TDir fi (inl es))).

Lemma tree_nested_ind : forall t, P t.
Proof.
  fix IH 1. intros [fi|fi [es|e]]; [apply P_File| |apply P_Err]. apply P_Dir.
  induction es as [|[n [t|e]] es IHes]; constructor; [apply IH|apply IHes|done|apply IHes].
Qed.
End TreeInd.

(** ** [ls] *)

(** [FileMode.IsDir] *)
Definition IsDir (mode : Z) : bool := Z.testbit mode 31.
Arguments IsDir : simpl never.
Definition ModeSymlink : Z := 2 ^ 27.
Definition ModeType : Z := 0x8f000000.

(** What [os.Lstat] tells of a file: the name, the mode of [os.FileMode], device number, owner,
    size and time; and the answer of [Readlink]. *)
Record osinfo := MkOs { os_name : bytes; os_mode : Z; os_rdev : Z; os_uid : Z; os_gid : Z; os_size : Z; os_time : Z; os_link : bytes }.

Record fileInfo := MkFileInfo {
  fi_name : bytes; fi_mode : Z; fi_major : Z; fi_minor : Z; fi_uid : Z; fi_gid : Z; fi_size : Z; fi_modTime : Z; fi_symlink : bytes
}.

Definition set_name (n : bytes) (fi : fileInfo) : fileInfo :=
  MkFileInfo n (fi_mode fi) (fi_major fi) (fi_minor fi) (fi_uid fi) (fi_gid fi) (fi_size fi) (fi_modTime fi) (fi_symlink fi).

Definition is_symlink (mode : Z) : bool := Z.land mode ModeType =? ModeSymlink.

(** The answer of [Readlink], or the text of its error, is in [os_link]. *)
Definition extractImportantParts (fi : osinfo) : fileInfo :=
  MkFileInfo (os_name fi) (os_mode fi) (Z.shiftr (os_rdev fi) 8) (Z.land (os_rdev fi) 0xff) (os_uid fi) (os_gid fi)
    (os_size fi) (os_time fi) (if is_symlink (os_mode fi) then os_link fi else []).

(** *** [FileMode.String], with the letters of devices replaced *)

Definition mode_letters : bytes := str "dalTLDpSugct".

(** The letters of the bits from 31 downwards. *)
Fixpoint letters (bit : Z) (l : bytes) (m : Z) : bytes :=
  match l with
  | [] => []
  | c :: l => (if Z.testbit m bit then [c] else []) ++ letters (bit - 1) l m
  end.

Definition rwx_bits (m : Z) : bytes :=
  concat ((fun p => [if Z.testbit m (fst p) then snd p else x2d]) <$>
    [(8, x72); (7, x77); (6, x78); (5, x72); (4, x77); (3, x78); (2, x72); (1, x77); (0, x78)]).

Definition mode_String (m : Z) : bytes :=
  let l := letters 31 mode_letters m in
  (match l with [] => [x2d] | _ => l end) ++ rwx_bits m.

(** [strings.NewReplacer("Dc", "c", "D", "b")] *)
Fixpoint replace_devices (s : bytes) : bytes :=
  match s with
  | [] => []
  | x44 :: x63 :: s => x63 :: replace_devices s
  | x44 :: s => x62 :: replace_devices s
  | c :: s => c :: replace_devices s
  end.

Section Ls.
(** [user.LookupId] and [user.LookupGroupId], [%#v] of a string, the format of times, and what
    [text/tabwriter] makes of lines. *)
Context (user_name group_name : bytes -> option bytes) (quote_name : bytes -> bytes) (date : Z -> bytes).
Context (tabulate : list bytes -> bytes).
Context (long quoted recurse : bool).

Record caches := MkCaches { uidCache : gmap Z bytes; gidCache : gmap Z bytes }.

Definition lookupUserName (id : Z) (c : caches) : caches * bytes :=
  match uidCache c !! id with
  | Some s => (c, s)
  | None => let s := default (Itoa id) (user_name (Itoa id)) in (MkCaches (<[id := s]> (uidCache c)) (gidCache c), s)
  end.

Definition lookupGroupName (id : Z) (c : caches) : caches * bytes :=
  match gidCache c !! id with
  | Some s => (c, s)
  | None => let s := default (Itoa id) (group_name (Itoa id)) in (MkCaches (uidCache c) (<[id := s]> (gidCache c)), s)
  end.

(** Characters that would break the lines. *)
Definition unprintable (b : byte) : bool := (b2z b <? 32) || (b2z b =? 127).

Definition String_ (fi : fileInfo) : bytes := (fun b => if unprintable b then x3f else b) <$> fi_name fi.

Definition tabs (l : list bytes) : bytes := Join [x09] l.

Definition long_String (fi : fileInfo) (comp : bytes) (c : caches) : caches * bytes :=
  let '(c, u) := lookupUserName (fi_uid fi) c in
  let '(c, g) := lookupGroupName (fi_gid fi) c in
  let size := if (fi_major fi =? 0) && (fi_minor fi =? 0) then Itoa (fi_size fi)
              else Itoa (fi_major fi) ++ str ", " ++ Itoa (fi_minor fi) in
  (c, tabs [replace_devices (mode_String (fi_mode fi)); u; g; size; date (fi_modTime fi); comp] ++
      (if is_symlink (fi_mode fi) then str " -> " ++ fi_symlink fi else [])).

(** [stringer(fi)] *)
Definition stringer (fi : fileInfo) (c : caches) : caches * bytes :=
  let s := if quoted then quote_name (fi_name fi) else String_ fi in
  if long then long_String fi s c else (c, s).

(** What was printed, what waits in the table, what was logged, and the caches. *)
Record listing := MkListing { printed : list bytes; waiting : list bytes; logged : list (bytes * error); names : caches }.

Definition log_error (name : bytes) (e : error) (s : listing) : listing :=
  MkListing (printed s) (waiting s) (logged s ++ [(name, e)]) (names s).

(** The function given to [filepath.Walk]. *)
Definition list_one (d : bytes) (prefix : bool) (path : bytes) (v : sight osinfo) (s : listing) : listing * verdict :=
  match v with
  | Missing e | Unread _ e => (log_error path e s, Continue)
  | Seen osfi =>
      let fi := extractImportantParts osfi in
      let dir := IsDir (os_mode osfi) in
      let '(fi, out) :=
        if recurse then (set_name path fi, [])
        else if bytes_eqb path d && dir then (set_name dot fi, if prefix then [quote_name d] else [])
        else (fi, []) in
      let '(c, line) := stringer fi (names s) in
      (MkListing (printed s ++ out) (waiting s ++ [line]) (logged s) c,
       if negb (bytes_eqb path d) && dir && negb recurse then SkipDir else Continue)
  end.

Definition listName (d : bytes) (t : tree osinfo + error) (prefix : bool) (s : listing) : listing * option error :=
  Walk (list_one d prefix) d t s.

Definition flush (s : listing) : listing := MkListing (printed s ++ [tabulate (waiting s)]) [] (logged s) (names s).

Definition list_names (lstat : bytes -> tree osinfo + error) (prefix : bool) (s : listing) (d : bytes) : listing :=
  flush (match listName d (lstat d) prefix s with
         | (s, Some e) => log_error d e s
         | (s, None) => s
         end).

Definition ls_main (lstat : bytes -> tree osinfo + error) (args : list bytes) : listing :=
  let ns := match args with [] => [dot] | _ => args end in
  let prefix := (1 <? length ns)%nat in
  foldl (list_names lstat prefix) (MkListing [] [] [] (MkCaches ∅ ∅)) ns.
End Ls.

(** ** The visits of a walk *)

Section Visits.
Context {Info : Type}.

(** The files that are seen below [path], a directory before its entries; the entries of
    directories below the first only if [deep]. *)
Section EntryVisits.
Context (visits : bytes -> tree Info -> list (bytes * sight Info)) (path : bytes).

Definition entry_visits (e : bytes * (tree Info + error)) : list (bytes * sight Info) :=
  let p := PathJoin [path; fst e] in
  match snd e with inl t => visits p t | inr err => [(p, Missing err)] end.
End EntryVisits.

Definition this_visit (path : bytes) (t : tree Info) : bytes * sight Info := (path, Seen (tree_info t)).

Fixpoint visits (path : bytes) (t : tree Info) : list (bytes * sight Info) :=
  this_visit path t ::
  match t with
  | TFile _ => []
  | TDir fi (inr e) => [(path, Unread fi e)]
  | TDir _ (inl es) => flat_map (entry_visits visits path) es
  end.

(** What is seen without descending. *)
Definition flat_visits (path : bytes) (t : tree Info) : list (bytes * sight Info) :=
  this_visit path t ::
  match t with
  | TFile _ => []
  | TDir fi (inr e) => [(path, Unread fi e)]
  | TDir _ (inl es) => flat_map (entry_visits (fun p t => [this_visit p t]) path) es
  end.

Context {St : Type} (f : bytes * sight Info -> St -> St).

Definition visit_all (vs : list (bytes * sight Info)) (s : St) : St := foldl (fun s v => f v s) s vs.

Context (walkFn : bytes -> sight Info -> St -> St * verdict).

Definition passes (v : bytes * sight Info) : Prop := forall s, walkFn (fst v) (snd v) s = (f v s, Continue).

Lemma walk_all path t s : Forall passes (visits path t) -> walk walkFn path t s = (visit_all (visits path t) s, Continue).
Proof.
  revert path s. induction t as [fi|fi e|fi es Hes] using tree_nested_ind; intros path s Hp; cbn [visits] in Hp;
    apply Forall_cons in Hp as [H0 Hp]; cbn [walk]; unfold passes in H0; simpl in H0; simpl; rewrite H0; [done| |].
  - apply Forall_cons in Hp as [H1 _]. unfold passes in H1. simpl in H1. by rewrite H1.
  - unfold visit_all, this_visit. simpl. generalize (f (path, Seen fi) s) as s1.
    induction Hes as [|[n [t|e]] es Ht Hes IH]; intros s1; simpl; [done| |]; simpl in Hp.
    + apply Forall_app in Hp as [Hp1 Hp]. unfold entry_all in Ht. simpl in Ht. rewrite Ht, IH by done.
      unfold visit_all. by rewrite <- foldl_app.
    + apply Forall_cons in Hp as [Hp1 Hp]. unfold passes in Hp1. simpl in Hp1. rewrite Hp1. by apply IH.
Qed.

(** A function that refuses the directories below the first. *)
Context (isdir : Info -> bool).
Definition typed (t : tree Info) : Prop := isdir (tree_info t) = is_dir t.

Definition refuses (p : bytes) : Prop := forall v s, walkFn p v s =
  (f (p, v) s, match v with Seen fi => if isdir fi then SkipDir else Continue | _ => Continue end).

Lemma walk_refused p t s : typed t -> refuses p -> walk walkFn p t s = (f (this_visit p t) s, Continue).
Proof.
  intros Ht Hp. unfold typed in Ht.
  destruct t as [fi|fi [es|e]]; simpl in *; rewrite Hp, Ht; done.
Qed.

Lemma walk_flat path t s :
  match t with TDir _ (inl es) => Forall (fun e => refuses (PathJoin [path; fst e]) /\ entry_all typed e) es | _ => True end ->
  (forall v s, walkFn path v s = (f (path, v) s, Continue)) ->
  walk walkFn path t s = (visit_all (flat_visits path t) s, Continue).
Proof.
  intros Ht Hf. destruct t as [fi|fi [es|e]]; simpl; rewrite !Hf; [done| |done].
  unfold visit_all, this_visit. simpl. generalize (f (path, Seen fi) s) as s1.
  induction Ht as [|[n [t|e]] es [Hn Ht] Hes IH]; intros s1; simpl in *; [done| |].
  - rewrite walk_refused by done. apply IH.
  - rewrite Hn. apply IH.
Qed.
End Visits.

(** ** What a listing shows *)

Section LsFacts.
Context (user_name group_name : bytes -> option bytes) (quote_name : bytes -> bytes) (date : Z -> bytes).
Context (long quoted recurse : bool).

#[local] Abbreviation line_of := (stringer user_name group_name quote_name date long quoted).
#[local] Abbreviation list_name := (listName user_name group_name quote_name date long quoted recurse).
#[local] Abbreviation list_visit := (list_one user_name group_name quote_name date long quoted recurse).

(** Caches that hold what a lookup would give. *)
Definition caches_true (c : caches) : Prop :=
  (forall id s, uidCache c !! id = Some s -> s = default (Itoa id) (user_name (Itoa id))) /\
  (forall id s, gidCache c !! id = Some s -> s = default (Itoa id) (group_name (Itoa id))).

Lemma caches_true_empty : caches_true (MkCaches ∅ ∅).
Proof. split; intros id s H; simpl in H; by rewrite lookup_empty in H. Qed.

Lemma lookupUserName_true id c : caches_true c ->
  caches_true (fst (lookupUserName user_name id c)) /\
  snd (lookupUserName user_name id c) = default (Itoa id) (user_name (Itoa id)).
Proof.
  intros [Hu Hg]. unfold lookupUserName. destruct (uidCache c !! id) eqn:E; simpl; [by split; [by split|apply Hu]|].
  split; [|done]. split; [|done]. intros i s. simpl. rewrite lookup_insert_Some. intros [[<- <-]|[_ H]]; eauto.
Qed.

Lemma lookupGroupName_true id c : caches_true c ->
  caches_true (fst (lookupGroupName group_name id c)) /\
  snd (lookupGroupName group_name id c) = default (Itoa id) (group_name (Itoa id)).
Proof.
  intros [Hu Hg]. unfold lookupGroupName. destruct (gidCache c !! id) eqn:E; simpl; [by split; [by split|apply Hg]|].
  split; [|done]. split; [done|]. intros i s. simpl. rewrite lookup_insert_Some. intros [[<- <-]|[_ H]]; eauto.
Qed.

(** The line of a file when nothing has been looked up before. *)
Definition line (fi : fileInfo) : bytes := snd (line_of fi (MkCaches ∅ ∅)).

Lemma long_String_cached fi comp c : caches_true c ->
  caches_true (fst (long_String user_name group_name date fi comp c)) /\
  snd (long_String user_name group_name date fi comp c) =
    snd (long_String user_name group_name date fi comp (MkCaches ∅ ∅)).
Proof.
  intros Hc. pose proof caches_true_empty as He. unfold long_String.
  destruct (lookupUserName_true (fi_uid fi) c Hc) as [Hc1 Hu1].
  destruct (lookupUserName_true (fi_uid fi) _ He) as [He1 Hu2].
  destruct (lookupUserName _ _ c) as [c1 u1], (lookupUserName _ _ (MkCaches ∅ ∅)) as [e1 u2]. simpl in *. subst u1 u2.
  destruct (lookupGroupName_true (fi_gid fi) c1 Hc1) as [Hc2 Hg1].
  destruct (lookupGroupName_true (fi_gid fi) e1 He1) as [He2 Hg2].
  destruct (lookupGroupName _ _ c1) as [c2 g1], (lookupGroupName _ _ e1) as [e2 g2]. simpl in *. by subst g1 g2.
Qed.

Lemma stringer_cached fi c : caches_true c ->
  caches_true (fst (line_of fi c)) /\ snd (line_of fi c) = line fi.
Proof.
  intros Hc. unfold line, Ls.stringer. destruct long; [by apply long_String_cached|done].
Qed.

(** What a visit adds: the line of the file, the error, the name in quotes above a directory. *)
Definition shown (d path : bytes) (osfi : osinfo) : fileInfo :=
  let fi := extractImportantParts osfi in
  if recurse then set_name path fi
  else if bytes_eqb path d && IsDir (os_mode osfi) then set_name dot fi else fi.

Definition visit_lines (d : bytes) (v : bytes * sight osinfo) : list bytes :=
  match snd v with Seen osfi => [line (shown d (fst v) osfi)] | _ => [] end.

Definition visit_errors (v : bytes * sight osinfo) : list (bytes * error) :=
  match snd v with Seen _ => [] | Missing e | Unread _ e => [(fst v, e)] end.

Definition visit_heading (d : bytes) (prefix : bool) (v : bytes * sight osinfo) : list bytes :=
  match snd v with
  | Seen osfi => if negb recurse && bytes_eqb (fst v) d && IsDir (os_mode osfi) && prefix then [quote_name d] else []
  | _ => []
  end.

(** The listing after the visits. *)
Definition after (d : bytes) (prefix : bool) (vs : list (bytes * sight osinfo)) (s s' : listing) : Prop :=
  printed s' = printed s ++ flat_map (visit_heading d prefix) vs /\
  waiting s' = waiting s ++ flat_map (visit_lines d) vs /\
  logged s' = logged s ++ flat_map visit_errors vs /\
  caches_true (names s').

Definition one (d : bytes) (prefix : bool) (v : bytes * sight osinfo) (s : listing) : listing :=
  fst (list_visit d prefix (fst v) (snd v) s).

Lemma one_after d prefix v s : caches_true (names s) -> after d prefix [v] s (one d prefix v s).
Proof.
  intros Hc. destruct v as [p [osfi|e|fi e]]; unfold one, after, Ls.list_one; simpl.
  - set (shown_as := if recurse then _ else _).
    assert (shown_as = (fst shown_as, snd shown_as)) as -> by by destruct shown_as.
    destruct (stringer_cached (fst shown_as) (names s) Hc) as [Hs Hl].
    destruct (line_of (fst shown_as) (names s)) as [c l]. simpl in *. subst l shown_as.
    unfold visit_lines, visit_heading, visit_errors, shown. simpl.
    destruct recurse; [|destruct (bytes_eqb p d), (IsDir (os_mode osfi)), prefix]; simpl;
      rewrite ?app_nil_r; done.
  - unfold visit_lines, visit_heading, visit_errors, log_error. simpl. rewrite !app_nil_r. done.
  - unfold visit_lines, visit_heading, visit_errors, log_error. simpl. rewrite !app_nil_r. done.
Qed.

Lemma visit_all_after d prefix vs s : caches_true (names s) -> after d prefix vs s (visit_all (one d prefix) vs s).
Proof.
  revert s. induction vs as [|v vs IH]; intros s Hc; unfold visit_all; simpl.
  - unfold after. simpl. by rewrite !app_nil_r.
  - destruct (one_after d prefix v s Hc) as (H1 & H2 & H3 & H4).
    destruct (IH _ H4) as (K1 & K2 & K3 & K4). unfold after, visit_all in *.
    simpl in *. rewrite app_nil_r in H1, H2, H3. rewrite K1, K2, K3, H1, H2, H3, <- !app_assoc. done.
Qed.

(** The tree that [Lstat] shows: what is said to be a directory is one, and the entries of the
    directory have names. *)
Definition dir_info (fi : osinfo) : bool := IsDir (os_mode fi).

Definition entry_ok (e : bytes * (tree osinfo + error)) : Prop := plain_elem (fst e) /\ entry_all (typed dir_info) e.

Definition listed_tree (t : tree osinfo) : Prop :=
  typed dir_info t /\ match t with TDir _ (inl es) => Forall entry_ok es | _ => True end.

(** The files of the listing: all those below with [-R], otherwise the directory and its entries. *)
Definition listed (d : bytes) (t : tree osinfo) : list (bytes * sight osinfo) :=
  if recurse then visits d t else flat_visits d t.

Lemma list_one_split d prefix p v s :
  list_visit d prefix p v s = (one d prefix (p, v) s,
    match v with
    | Seen fi => if negb (bytes_eqb p d) && dir_info fi && negb recurse then SkipDir else Continue
    | _ => Continue
    end).
Proof.
  unfold one. destruct v as [fi|e|fi e]; simpl; [|done|done].
  destruct (if recurse then _ else _). by destruct (Ls.stringer _ _ _ _ _ _ _ _).
Qed.

Lemma listName_visits d t prefix s : listed_tree t ->
  list_name d (inl t) prefix s = (visit_all (one d prefix) (listed d t) s, None).
Proof.
  intros [_ Ht]. unfold Ls.listName, Walk, listed. destruct recurse eqn:Er.
  - erewrite walk_all; [done|]. apply Forall_forall. intros [p v] _ s0. cbn [fst snd]. rewrite <- Er, list_one_split, Er.
    destruct v; [|done|done]. by rewrite andb_false_r.
  - erewrite (walk_flat _ _ dir_info); [done| |].
    + destruct t as [|fi [es|e]]; [done| |done]. eapply Forall_impl; [exact Ht|]. intros [n c] [Hn Hc].
      split; [|done]. intros v s0. rewrite <- Er, list_one_split, Er.
      rewrite (bytes_eqb_neq (PathJoin _)) by by apply PathJoin_entry. destruct v; [|done|done].
      by rewrite andb_true_r.
    + intros v s0. rewrite <- Er, list_one_split. rewrite bytes_eqb_refl. by destruct v.
Qed.

(** The line above the entries is only printed for the directory itself. *)
Lemma headings d t prefix : listed_tree t ->
  flat_map (visit_heading d prefix) (listed d t) =
    if negb recurse && is_dir t && prefix then [quote_name d] else [].
Proof.
  intros [Hty Ht]. unfold listed. unfold visit_heading. destruct recurse.
  - induction (visits d t) as [|[p [fi|e|fi e]] vs IH]; simpl in *; done.
  - unfold flat_visits, this_visit. simpl. rewrite bytes_eqb_refl. unfold typed, dir_info in Hty. rewrite Hty. simpl.
    assert (forall l r, r = [] -> (if is_dir t && prefix then l else []) ++ r = if is_dir t && prefix then l else @nil bytes) as Hr.
    { intros l r ->. apply app_nil_r. }
    apply Hr. destruct t as [|fi [es|e]]; [done| |done].
    induction Ht as [|[n [t|e]] es [Hn _] Hes IH]; [done| |by apply IH].
    cbn [flat_map entry_visits this_visit fst snd app]. rewrite bytes_eqb_neq by by apply PathJoin_entry. by apply IH.
Qed.

Lemma String_printable fi : Forall (fun b => unprintable b = false) (String_ fi).
Proof.
  unfold String_. apply Forall_fmap. apply Forall_forall. intros b _. simpl.
  by destruct (unprintable b) eqn:E.
Qed.

(** C27: [ls] of a name shows, in the order of the walk, one line for every file of the listing -
    with [-R] all files below it, by their paths, otherwise a directory as a dot and its entries by
    their names, and no entry of a directory below -, whatever the caches of user names hold; the
    errors are logged and stop nothing; the name in quotes stands above a directory if several
    names are listed; and a line without [-l] and [-Q] has no control character. *)
Theorem ls_lists d t prefix s :
  listed_tree t -> caches_true (names s) ->
  exists s', list_name d (inl t) prefix s = (s', None) /\
    waiting s' = waiting s ++ flat_map (visit_lines d) (listed d t) /\
    logged s' = logged s ++ flat_map visit_errors (listed d t) /\
    printed s' = printed s ++ (if negb recurse && is_dir t && prefix then [quote_name d] else []) /\
    caches_true (names s') /\
    (long = false -> quoted = false -> Forall (Forall (fun b => unprintable b = false)) (flat_map (visit_lines d) (listed d t))).
Proof.
  intros Ht Hc. rewrite listName_visits by done. eexists. split; [done|].
  destruct (visit_all_after d prefix (listed d t) s Hc) as (H1 & H2 & H3 & H4).
  rewrite headings in H1 by done. do 4 (split; [done|]).
  intros Hl Hq. apply Forall_forall. intros l Hin. apply list_elem_of_In, in_flat_map in Hin as ([p v] & _ & Hin).
  unfold visit_lines in Hin. destruct v; simpl in Hin; try done. destruct Hin as [<-|[]].
  unfold line, Ls.stringer. rewrite Hl, Hq. apply String_printable.
Qed.
End LsFacts.

(** ** Listings *)

Module LsExamples.
Definition noname (id : bytes) : option bytes := if bytes_eqb id (str "0") then Some (str "root") else None.
Definition quote (s : bytes) : bytes := [x22] ++ s ++ [x22].
Definition noon (_ : Z) : bytes := str "Jan  1 12:00".
Definition plain (name : bytes) : osinfo := MkOs name 0x1a4 0 0 0 5 0 [].
Definition folder (name : bytes) : osinfo := MkOs name (2 ^ 31 + 0x1ed) 0 0 0 0 0 [].

(** The directory of the tests, with a name of two lines. *)
Definition test_dir : tree osinfo :=
  TDir (folder dot) (inl
    [(str "d1", inl (TDir (folder (str "d1")) (inl [(str "f4", inl (TFile (plain (str "f4"))))])));
     (str "f1", inl (TFile (plain (str "f1"))));
     (str "gone", inr (Errno 2));
     (str "f3" ++ [x0a] ++ str "line 2", inl (TFile (plain (str "f3" ++ [x0a] ++ str "line 2"))))]).

Definition run (long quoted recurse : bool) : listing :=
  fst (listName noname noname quote noon long quoted recurse dot (inl test_dir) false (MkListing [] [] [] (MkCaches ∅ ∅))).

Example ls_names : waiting (run false false false) = [dot; str "d1"; str "f1"; str "f3?line 2"] /\ logged (run false false false) = [(str "gone", Errno 2)].
Proof. by vm_compute. Qed.

Example ls_R : waiting (run false false true) = [dot; str "d1"; str "d1/f4"; str "f1"; str "f3?line 2"].
Proof. by vm_compute. Qed.

Lemma test_dir_ok : listed_tree test_dir.
Proof.
  split; [done|]. repeat constructor; simpl; try done; intros H; vm_compute in H;
    repeat (apply list_elem_of_In in H; simpl in H); repeat (destruct H as [H|H]; [done|]); done.
Qed.

Lemma ls_lists_witness :
  exists s', listName noname noname quote noon true false false dot (inl test_dir) true (MkListing [] [] [] (MkCaches ∅ ∅)) = (s', None) /\
    length (waiting s') = 4%nat /\ logged s' = [(str "gone", Errno 2)] /\ printed s' = [quote dot].
Proof.
  destruct (ls_lists noname noname quote noon true false false dot test_dir true (MkListing [] [] [] (MkCaches ∅ ∅))
    test_dir_ok (caches_true_empty noname noname)) as (s' & H1 & H2 & H3 & H4 & _).
  exists s'. split; [exact H1|]. split; [rewrite H2; reflexivity|]. split; [rewrite H3; reflexivity|rewrite H4; reflexivity].
Defined.

(** The letters of a device follow the order of the bits: a character device with the set-user-id
    bit has a [u] between its [D] and its [c], and is shown as a block device. *)
Theorem setuid_device_shown_as_block m :
  Z.testbit m 26 = true -> Z.testbit m 23 = true -> Z.testbit m 21 = true ->
  (forall b, 26 < b -> Z.testbit m b = false) ->
  head (replace_devices (mode_String m)) = Some x62.
Proof.
  intros Hd Hu Hc Hb. unfold mode_String, mode_letters. lazy -[Z.testbit].
  rewrite !Hb by lia. rewrite Hd, Hu. lazy -[Z.testbit].
  destruct (Z.testbit m 25), (Z.testbit m 24); reflexivity.
Qed.

Lemma setuid_device_witness : head (replace_devices (mode_String (2 ^ 26 + 2 ^ 23 + 2 ^ 21))) = Some x62.
Proof.
  apply setuid_device_shown_as_block; try reflexivity. intros b Hb.
  apply (Z.bits_above_log2 (2 ^ 26 + 2 ^ 23 + 2 ^ 21)); [done|]. change (Z.log2 _) with 26. done.
Defined.

(** The target of a symbolic link is printed as it is: a newline in it breaks the line. *)
Example link_target_unfiltered :
  snd (stringer noname noname quote noon true false (extractImportantParts (MkOs (str "l") (2 ^ 27 + 0x1ff) 0 0 0 3 0 (str "a" ++ [x0a] ++ str "b"))) (MkCaches ∅ ∅)) =
  tabs [str "Lrwxrwxrwx"; str "root"; str "root"; str "3"; str "Jan  1 12:00"; str "l"] ++ str " -> a" ++ [x0a] ++ str "b".
Proof. by vm_compute. Qed.
End LsExamples.
