(* ===== verification/Builtin.v ===== *)
(** * Go code on the command line ([cmds/builtin], [cmds/run])

    [builtin] turns words into source files of the shell, puts them together with the shell's own
    sources on a new file system and runs the shell, which builds itself again; [run] makes a
    program of its arguments, builds and runs it.  [imports.Process], the file system and the
    programs that are run answer the calls. *)

From Stdlib Require Import Strings.String.
From stdpp Require Import gmap.
From S2P Require Import SysCmds.
From S2P Require Export GoPath GoText Kernel.

(** ** [builtin] *)

Module Builtin.

Definition rushPath : bytes := str "/src/github.com/u-root/u-root/cmds/rush".
Definition MS_MGC_VAL : Z := 0xc0ed0000.

Record mount := MkMount { source : bytes; target : bytes; fstype : bytes; flags : Z; opts : bytes }.

Definition namespace : list mount :=
  [MkMount (str "tmpfs") rushPath (str "tmpfs") MS_MGC_VAL [];
   MkMount (str "tmpfs") (str "/ubin") (str "tmpfs") MS_MGC_VAL []].

Definition nl : bytes := [x0a].
Definition startPart : bytes := str "package main" ++ nl.
Definition endPart : bytes := nl ++ str "return err" ++ nl ++ str "}" ++ nl.

(** The text between the verbs [%s]. *)
Definition initPart : list bytes :=
  [str "func init() {" ++ nl ++ [x09] ++ str "addBuiltIn(" ++ [x22];
   [x22] ++ str ", ";
   str ")" ++ nl ++ str "}" ++ nl ++ str "func ";
   str "(c*Command) error {" ++ nl ++ str "var err error" ++ nl].

(** [fmt.Sprintf] of a format with verbs [%s]. *)
Fixpoint Sprintf (pieces args : list bytes) : bytes :=
  match pieces, args with
  | [], _ => []
  | [p], _ => p
  | p :: pieces, a :: args => p ++ a ++ Sprintf pieces args
  | p :: pieces, [] => p ++ str "%!s(MISSING)" ++ Sprintf pieces []
  end.

Definition lbrace : bytes := str "{".
Definition rbrace : bytes := str "}".

(** The loop over the words after the name. *)
Fixpoint words (name : bytes) (ws : list bytes) : bytes :=
  match ws with
  | [] => []
  | v :: ws =>
      if bytes_eqb v lbrace then Sprintf initPart [name] ++ words name ws
      else if bytes_eqb v rbrace then []
      else v ++ nl ++ words name ws
  end.

(** The source for the name [a[0]], with [a[1:] = code :: rest]. *)
Definition goCode (name code : bytes) (rest : list bytes) : outcome error bytes :=
  match code with
  | [] => Panic
  | c :: body =>
      if byte_eqb c x7b then
        match body with
        | [] => Panic
        | _ => Ret (startPart ++ Sprintf initPart [name; name; name] ++ take (length body - 1) body ++ endPart)
        end
      else Ret (startPart ++ words name (code :: rest) ++ endPart)
  end.

Definition go_file (name : bytes) : bytes := PathJoin [rushPath; name ++ str ".go"].

Inductive bcall :=
| Process (src : bytes)
| Glob (pattern : bytes)
| ReadFile (name : bytes)
| Mount (m : mount)
| WriteFile (name data : bytes)
| Run (prog : bytes)
| Unmount (target : bytes).

Definition banswer (c : bcall) : Type :=
  match c with
  | Process _ | ReadFile _ => bytes
  | Glob _ => list bytes
  | _ => unit
  end.

Section Main.
(** [order] is the order in which [range] goes over the map of files. *)
Context (answer : forall c : bcall, list bcall -> banswer c + error).
Context (order : gmap bytes bytes -> list (bytes * bytes)).
Abbreviation call := (ask answer).

Fixpoint sources (a : list bytes) (filemap : gmap bytes bytes) : M (list bcall) (gmap bytes bytes) :=
  match a with
  | name :: code :: rest =>
      src ← lift (goCode name code rest);
      fullCode ← fatalf "bad parse: '%v': %v" (call (Process src));
      sources rest (<[go_file name := fullCode]> filemap)
  | [] => mret filemap
  | [_] => lift Panic
  end.

Fixpoint shell_files (globs : list bytes) (filemap : gmap bytes bytes) : M (list bcall) (gmap bytes bytes) :=
  match globs with
  | [] => mret filemap
  | i :: globs =>
      b ← call (ReadFile i);
      match filemap !! i with
      | Some _ => raise (Errorf "%v exists")
      | None => shell_files globs (<[i := b]> filemap)
      end
  end.

Definition mounts_file : bytes := str "/proc/mounts".

Definition put (f : bytes * bytes) : M (list bcall) unit := call (WriteFile (fst f) (snd f)).
Definition mount_logged (m : mount) : M (list bcall) unit := _ ← ask_or answer (Mount m); mret tt.
Definition unmount_logged (m : mount) : M (list bcall) unit := _ ← ask_or answer (Unmount (target m)); mret tt.

Definition builtin_main (debug : bool) (a : list bytes) : M (list bcall) unit :=
  if (length a <? 2)%nat || negb (Nat.even (length a)) then raise (Errorf "Usage: builtin <command> <code> [<command> <code>]*")
  else
    filemap ← sources a ∅;
    globs ← call (Glob (rushPath ++ str "/*.go"));
    filemap ← shell_files globs filemap;
    _ ← ask_or answer (ReadFile mounts_file);
    _ ← (if debug then _ ← ask_or answer (ReadFile mounts_file); mret tt else mret tt);
    _ ← each mount_logged namespace;
    _ ← each put (order filemap);
    _ ← ask_or answer (Run (str "/buildbin/rush"));
    each unmount_logged namespace.
End Main.
End Builtin.

(** ** [run] *)

Module Run.

Inductive rcall :=
| Process (src : bytes)
| Write (name data : bytes)
| Close (name : bytes)
| Setenv (key value : bytes)
| Command (argv : list bytes) (dir : bytes).

Definition ranswer (c : rcall) : Type := match c with Process _ => bytes | _ => unit end.

Section Main.
Context (answer : forall c : rcall, list rcall -> ranswer c + error).
Context (Open : nat -> bytes -> TempFile.open_result) (reseed : nat -> Z) (TempDir : bytes).
Abbreviation call := (ask answer).

Definition program (args : list bytes) : bytes := str "func main()" ++ concat args.

(** [execName[:len(execName)-3]] *)
Definition strip_go (name : bytes) : outcome error bytes :=
  if (length name <? 3)%nat then Panic else Ret (take (length name - 3) name).

Definition run_main (args : list bytes) : M (list rcall) unit :=
  goCode ← fatalf "bad parse: '%v': %v" (call (Process (program args)));
  f ← fatalf "Script: opening TempFile: %v" (lift (TempFile.TempFile Open reseed TempDir [] (str "run", str ".go") 0));
  _ ← fatalf "Script: Writing %v: %v" (call (Write f goCode));
  _ ← fatalf "Script: Closing %v: %v" (call (Close f));
  _ ← ask_or answer (Setenv (str "GOBIN") (str "/tmp"));
  _ ← ask_or answer (Command [str "go"; str "install"; str "-x"; f] (str "/"));
  execName ← lift (strip_go f);
  _ ← ask_or answer (Command [execName] (str "/tmp"));
  mret tt.
End Main.
End Run.

(** ** Facts about [builtin] *)

Section BuiltinFacts.
Import Builtin.
Context (answer : forall c : bcall, list bcall -> banswer c + error).
Context (order : gmap bytes bytes -> list (bytes * bytes)).

(** The sources of all names on the command line. *)
Fixpoint goCodes (a : list bytes) : outcome error (list bytes) :=
  match a with
  | name :: code :: rest =>
      match goCode name code rest with
      | Ret src => match goCodes rest with Ret srcs => Ret (src :: srcs) | r => r end
      | Fail e => Fail e
      | Panic => Panic
      end
  | [] => Ret []
  | [_] => Panic
  end.

(** The names: every other word. *)
Fixpoint builtin_names (a : list bytes) : list bytes :=
  match a with name :: _ :: rest => name :: builtin_names rest | _ => [] end.

(** The answers to the calls made one after the other from the trace [tr] on: the processed code
    of the sources, and the texts of the files. *)
Fixpoint processed (tr : list bcall) (srcs codes : list bytes) : Prop :=
  match srcs, codes with
  | [], [] => True
  | src :: srcs, code :: codes => answer (Process src) tr = inl code /\ processed (tr ++ [Process src]) srcs codes
  | _, _ => False
  end.

Fixpoint have_read (tr : list bcall) (names texts : list bytes) : Prop :=
  match names, texts with
  | [], [] => True
  | n :: names, text :: texts => answer (ReadFile n) tr = inl text /\ have_read (tr ++ [ReadFile n]) names texts
  | _, _ => False
  end.

(** The assignments [filemap[i] = v], in order. *)
Definition assign (m : gmap bytes bytes) (files : list (bytes * bytes)) : gmap bytes bytes :=
  foldl (fun m f => <[fst f := snd f]> m) m files.

Lemma assign_dom files m i : i ∈ dom (assign m files) <-> i ∈ dom m \/ i ∈ fst <$> files.
Proof.
  revert m. induction files as [|f files IH]; intros m; cbn [assign foldl].
  - set_solver.
  - change (foldl _ _ files) with (assign (<[fst f := snd f]> m) files). rewrite IH, fmap_cons, dom_insert_L. set_solver.
Qed.

Lemma pairs_ind (P : list bytes -> Prop) :
  P [] -> (forall x, P [x]) -> (forall x y a, P a -> P (x :: y :: a)) -> forall a, P a.
Proof.
  intros H0 H1 H2. assert (forall a, P a /\ forall x, P (x :: a)) as H; [|intros a; by apply H].
  induction a as [|y a [IH1 IH2]]; [done|]. split; [apply IH2|]. intros x. by apply H2.
Qed.

Lemma sources_spec a m tr tr' m' :
  sources answer a m tr = (tr', Ret m') ->
  exists srcs codes, goCodes a = Ret srcs /\ tr' = tr ++ (Process <$> srcs) /\ processed tr srcs codes /\
    length codes = length (builtin_names a) /\ m' = assign m (zip (go_file <$> builtin_names a) codes).
Proof.
  revert m tr. induction a as [|x|name code a IH] using pairs_ind; intros m tr H; cbn [sources] in H.
  - injection H as <- <-. exists [], []. by rewrite app_nil_r.
  - done.
  - M_inv H. M_inv H. injection Hm as <- Hc. apply fatalf_inv, ask_inv in Hm0 as [-> Ha].
    apply IH in H as (srcs & codes & Hs & -> & Hp & Hl & ->). exists (a0 :: srcs). eexists (_ :: codes).
    cbn [goCodes]. rewrite Hc, Hs. split; [done|]. split; [by rewrite <- app_assoc|].
    split; [by split|]. split; [cbn; by rewrite Hl|]. reflexivity.
Qed.

Lemma shell_files_spec globs m tr tr' m' :
  shell_files answer globs m tr = (tr', Ret m') ->
  exists texts, tr' = tr ++ (ReadFile <$> globs) /\ have_read tr globs texts /\ length texts = length globs /\
    m' = assign m (zip globs texts) /\ NoDup globs /\ (forall i, i ∈ globs -> i ∉ dom m).
Proof.
  revert m tr. induction globs as [|i globs IH]; intros m tr H; cbn [shell_files] in H.
  - injection H as <- <-. exists []. rewrite app_nil_r. split_and!; [done..|constructor|by intros i ?%elem_of_nil].
  - M_inv H. apply ask_inv in Hm as [-> Ha]. destruct (m !! i) eqn:Ei; [done|].
    apply IH in H as (texts & -> & Hr & Hl & -> & Hnd & Hd). eexists (_ :: texts).
    rewrite dom_insert_L in Hd. apply not_elem_of_dom in Ei.
    split; [by rewrite <- app_assoc|]. split; [by split|]. split; [cbn; by rewrite Hl|]. split; [reflexivity|].
    split; [constructor; [intros Hi; specialize (Hd i Hi); set_solver|done]|].
    intros j [->|Hj]%elem_of_cons; [done|]. specialize (Hd j Hj). set_solver.
Qed.

Lemma mount_logged_calls m tr : mount_logged answer m tr = (tr ++ [Mount m], Ret tt).
Proof. done. Qed.

Lemma unmount_logged_calls m tr : unmount_logged answer m tr = (tr ++ [Unmount (target m)], Ret tt).
Proof. done. Qed.

Definition write_call (f : bytes * bytes) : bcall := WriteFile (fst f) (snd f).

Lemma each_put_spec l tr tr' : each (put answer) l tr = (tr', Ret tt) -> tr' = tr ++ (write_call <$> l).
Proof.
  revert tr. induction l as [|f l IH]; intros tr H; cbn [each] in H.
  - injection H as <-. by rewrite app_nil_r.
  - M_inv H. destruct a. apply (ask_inv answer (write_call f)) in Hm as [-> _]. apply IH in H as ->. by rewrite <- app_assoc.
Qed.

(** The looks at the table of mounts. *)
Definition looks (debug : bool) : list bcall := replicate (if debug then 2 else 1) (ReadFile mounts_file).

(** C25: when [builtin] goes through, the sources of the names were processed in order, then the
    files of the shell that the pattern matches were read; the files are those of the names with
    their processed code (of a name given twice the later) and those of the shell with the texts
    that were read, none of the one in the place of one of the other.  Exactly these files are
    written, each once, after the two file systems were mounted, and the shell is run after all
    of them were written. *)
Theorem builtin_builds debug a tr :
  (forall m, order m ≡ₚ map_to_list m) ->
  builtin_main answer order debug a [] = (tr, Ret tt) ->
  exists srcs codes globs texts, goCodes a = Ret srcs /\ processed [] srcs codes /\
    answer (Glob (rushPath ++ str "/*.go")) (Process <$> srcs) = inl globs /\
    have_read ((Process <$> srcs) ++ [Glob (rushPath ++ str "/*.go")]) globs texts /\
    NoDup globs /\ (forall i, i ∈ globs -> i ∉ go_file <$> builtin_names a) /\
    let m := assign ∅ (zip (go_file <$> builtin_names a) codes ++ zip globs texts) in
    (forall i, i ∈ dom m <-> i ∈ (go_file <$> builtin_names a) ++ globs) /\
    NoDup (fst <$> order m) /\
    tr = (Process <$> srcs) ++ [Glob (rushPath ++ str "/*.go")] ++ (ReadFile <$> globs) ++ looks debug ++
         (Mount <$> namespace) ++ (write_call <$> order m) ++ [Run (str "/buildbin/rush")] ++
         (Unmount ∘ target <$> namespace).
Proof.
  intros Hord H. unfold builtin_main in H. destruct (_ || _); [done|].
  M_inv H. apply sources_spec in Hm as (srcs & codes & Hs & -> & Hpr & Hlc & ->). M_inv H.
  apply (ask_inv answer (Glob _)) in Hm as [-> Hgl].
  M_inv H. apply shell_files_spec in Hm as (texts & -> & Hrd & Hlt & -> & Hnd & Hdis). M_inv H. injection Hm as <- <-. M_inv H.
  assert (s = (((Process <$> srcs) ++ [Glob (rushPath ++ str "/*.go")]) ++ (ReadFile <$> a0)) ++ looks debug) as ->.
  { destruct debug; injection Hm as <- <-; rewrite <- ?app_assoc; done. }
  M_inv H. rewrite (each_calls _ (fun m => [Mount m])) in Hm0 by apply mount_logged_calls. injection Hm0 as <- <-.
  M_inv H. destruct a2. apply each_put_spec in Hm0 as ->. M_inv H. injection Hm0 as <- <-.
  rewrite (each_calls _ (fun m => [Unmount (target m)])) in H by apply unmount_logged_calls. injection H as <-.
  exists srcs, codes, a0, texts.
  assert (fst <$> zip (go_file <$> builtin_names a) codes = go_file <$> builtin_names a) as Hz1
    by (apply fst_zip; rewrite length_fmap; lia).
  assert (fst <$> zip a0 texts = a0) as Hz2 by (apply fst_zip; lia).
  unfold assign. rewrite foldl_app. fold (assign ∅ (zip (go_file <$> builtin_names a) codes)).
  fold (assign (assign ∅ (zip (go_file <$> builtin_names a) codes)) (zip a0 texts)).
  split_and!; [done|done|done|by rewrite app_nil_l in Hrd|done| | |rewrite Hord; apply NoDup_fst_map_to_list|by rewrite <- !app_assoc].
  - intros i Hi Hin. apply (Hdis i Hi). rewrite assign_dom, Hz1. by right.
  - intros i. rewrite !assign_dom, Hz1, Hz2, dom_empty_L. set_solver.
Qed.
End BuiltinFacts.

(** *** Runs of [builtin] *)

Module BuiltinExamples.
Import Builtin.

(** Code is taken as it is; the shell has one file; [mounted] says whether mounts succeed. *)
Definition world (mounted : bool) (c : bcall) (_ : list bcall) : banswer c + error :=
  match c with
  | Process src => inl src
  | Glob _ => inl [go_file (str "rush")]
  | ReadFile _ => inl (str "package main")
  | Mount _ => if mounted then inl tt else inr (Errno 1)
  | _ => inl tt
  end.

Definition hello : list bytes := [str "hello"; str "{ fmt.Println(1) }"].

Lemma hello_done : exists tr, builtin_main (world true) map_to_list false hello [] = (tr, Ret tt) /\
  WriteFile (go_file (str "rush")) (str "package main") ∈ tr.
Proof. eexists. split; [by vm_compute|]. apply list_elem_of_In. vm_compute. tauto. Qed.

Lemma builtin_builds_witness :
  exists tr srcs codes texts, builtin_main (world true) map_to_list false hello [] = (tr, Ret tt) /\
    goCodes hello = Ret srcs /\ codes = srcs /\ texts = [str "package main"] /\
    WriteFile (go_file (str "rush")) (str "package main") ∈ tr.
Proof.
  destruct hello_done as (tr & H & Hin).
  destruct (builtin_builds (world true) map_to_list false hello tr (fun m => Permutation_refl _) H)
    as (srcs & codes & globs & texts & Hs & Hp & Hg & Hr & _).
  exists tr, srcs, codes, texts. injection Hg as <-.
  assert (length srcs = 1%nat) as Hl by (injection Hs as <-; reflexivity). destruct srcs as [|src [|]]; [discriminate Hl| |discriminate Hl].
  destruct codes as [|c [|]]; [exact (match Hp with end)| |exact (match proj2 Hp with end)]. pose proof (proj1 Hp) as Hc. injection Hc as <-.
  destruct texts as [|x [|]]; [exact (match Hr with end)| |exact (match proj2 Hr with end)]. pose proof (proj1 Hr) as Hx. injection Hx as <-.
  split; [exact H|]. split; [exact Hs|]. split; [reflexivity|]. split; [reflexivity|exact Hin].
Defined.

(** What the file for [hello] holds. *)
Example hello_source :
  goCode (str "hello") (str "{ err = nil }") [] =
  Ret (startPart ++ str "func init() {" ++ nl ++ [x09] ++ str "addBuiltIn(" ++ [x22] ++ str "hello" ++ [x22] ++ str ", hello)" ++ nl ++
       str "}" ++ nl ++ str "func hello(c*Command) error {" ++ nl ++ str "var err error" ++ nl ++ str " err = nil " ++ endPart).
Proof. by vm_compute. Qed.
End BuiltinExamples.

Section BuiltinFindings.
Import Builtin.

(** A brace as a word of its own, the form that the loop over the words is for, or an empty word as
    code end the program with an index out of range. *)
Theorem lone_brace_panics answer order debug name rest tr :
  Nat.even (length rest) = true ->
  (builtin_main answer order debug (name :: lbrace :: rest) tr).2 = Panic /\
  (builtin_main answer order debug (name :: [] :: rest) tr).2 = Panic.
Proof. intros He. unfold builtin_main. cbn [length Nat.even]. rewrite He. done. Qed.

Lemma lone_brace_panics_witness : (builtin_main (BuiltinExamples.world true) map_to_list false [str "hello"; lbrace; str "x"; rbrace] []).2 = Panic.
Proof. exact (proj1 (lone_brace_panics (BuiltinExamples.world true) map_to_list false (str "hello") [str "x"; rbrace] [] eq_refl)). Defined.

(** In the form with several words the template has only one of its three arguments. *)
Theorem words_name_missing name ws : exists l r, words name (lbrace :: ws) = l ++ str "%!s(MISSING)" ++ r.
Proof.
  exists (str "func init() {" ++ nl ++ [x09] ++ str "addBuiltIn(" ++ [x22] ++ name ++ [x22] ++ str ", "). eexists.
  cbn [words]. rewrite bytes_eqb_refl. unfold initPart. cbn [Sprintf].
  repeat rewrite <- app_assoc. reflexivity.
Qed.

(** The words after the first two, which were taken as code, are taken as names again. *)
Example words_taken_twice :
  builtin_names [str "hello"; str "x := 1"; lbrace; rbrace] = [str "hello"; lbrace] /\
  (exists srcs, goCodes [str "hello"; str "x := 1"; lbrace; rbrace] = Ret srcs /\ length srcs = 2%nat).
Proof. split; [done|]. eexists. split; by vm_compute. Qed.

(** If the mounts fail, the files are written over those of the shell. *)
Example refused_mount_overwrites :
  let '(tr, r) := builtin_main (BuiltinExamples.world false) map_to_list false BuiltinExamples.hello [] in
  r = Ret tt /\ existsb (fun c => match c with WriteFile i _ => bytes_eqb i (go_file (str "rush")) | _ => false end) tr = true.
Proof. by vm_compute. Qed.
End BuiltinFindings.

(** ** Facts about [run] *)

Section RunFacts.
Import Run.

Lemma run_name_plain suffix : forallb is_digit suffix = true -> plain_elem (TempFile.format_name (str "run", str ".go") suffix).
Proof.
  intros Hd. unfold TempFile.format_name. simpl. repeat split; try done.
  change (x72 :: x75 :: x6e :: suffix ++ str ".go") with (str "run" ++ suffix ++ str ".go").
  intros [Hi|[Hi|Hi]%elem_of_app]%elem_of_app.
  - vm_compute in Hi. set_solver.
  - rewrite forallb_forall in Hd. apply list_elem_of_In, Hd in Hi. done.
  - vm_compute in Hi. set_solver.
Qed.

Context (answer : forall c : rcall, list rcall -> ranswer c + error).
Context (Open : nat -> bytes -> TempFile.open_result) (reseed : nat -> Z) (TempDir : bytes).

(** [run] never panics; when it goes through it has written the processed program to a file of
    its own, closed it, had it installed and started the program of that name without [.go];
    when it stops before, nothing was installed or started. *)
Theorem run_builds_and_runs args :
  match run_main answer Open reseed TempDir args [] with
  | (tr, Ret _) => exists exe code, answer (Process (program args)) [] = inl code /\
      (exists i, Open i (exe ++ str ".go") = TempFile.Opened) /\
      tr = [Process (program args); Write (exe ++ str ".go") code; Close (exe ++ str ".go");
            Setenv (str "GOBIN") (str "/tmp"); Command [str "go"; str "install"; str "-x"; exe ++ str ".go"] (str "/");
            Command [exe] (str "/tmp")]
  | (tr, Fail _) => Forall (fun c => match c with Command _ _ => False | _ => True end) tr
  | (_, Panic) => False
  end.
Proof.
  unfold run_main. unfold mbind at 1, M_bind, fatalf, wrap, ask. destruct (answer (Process (program args)) []) as [code|e] eqn:Ec.
  2:{ by repeat constructor. }
  unfold mbind at 1, M_bind, lift at 1.
  pose proof (TempFile_name Open reseed TempDir [] (str "run", str ".go") 0) as Hf.
  destruct (TempFile.TempFile _ _ _ _ _ _) as [f|e|]; [|by repeat constructor|done].
  destruct Hf as (i & suffix & Ho & _ & Hd & Hname).
  destruct (PathJoin_last (if bytes_eqb [] [] then TempDir else []) _ (run_name_plain suffix Hd)) as [p Hp].
  rewrite Hp in Hname. unfold TempFile.format_name in Hname. cbn [fst snd] in Hname.
  set (exe := p ++ str "run" ++ suffix). assert (f = exe ++ str ".go") as -> by (unfold exe; by rewrite <- !app_assoc).
  unfold mbind at 1, M_bind. destruct (answer (Write _ _) _); [|by repeat constructor].
  unfold mbind at 1, M_bind. destruct (answer (Close _) _); [|by repeat constructor].
  unfold mbind, M_bind, ask_or, lift, strip_go. rewrite length_app. change (length (str ".go")) with 3%nat.
  destruct (Nat.ltb_spec (length exe + 3) 3); [lia|]. rewrite Nat.add_sub, take_app_length.
  exists exe, code. split; [done|]. split; [by exists i|]. done.
Qed.
End RunFacts.

Module RunExamples.
Import Run.

Definition world (c : rcall) (_ : list rcall) : ranswer c + error :=
  match c with Process src => inl (str "package main;" ++ src) | _ => inl tt end.

(** With a [TMPDIR] of its own the program is installed in [/tmp] and started from that directory,
    where it is not. *)
Example run_elsewhere :
  (run_main world (fun _ _ => TempFile.Opened) (fun _ => 7) (str "/home/me") [str "{ }"] []).1 !! 5%nat =
    Some (Command [str "/home/me/run025555898"] (str "/tmp")) /\
  (run_main world (fun _ _ => TempFile.Opened) (fun _ => 7) (str "/home/me") [str "{ }"] []).1 !! 3%nat =
    Some (Setenv (str "GOBIN") (str "/tmp")).
Proof. split; vm_compute; reflexivity. Qed.
End RunExamples.
