(* ===== verification/KernelCmds.v ===== *)
(** * Commands on the kernel ([cmds/mount], [umount], [losetup], [insmod], [rmmod], [lsmod], [dmesg], [kexec], [vboot];
      [pkg/kmodule], [pkg/kexec])

    Each program is the order of its calls to a kernel that may refuse any of them.  The files that
    are read, the verification of signatures and the measurements of [vboot] are answers of the
    world or parameters. *)

From Stdlib Require Import Strings.String.
From S2P Require Export GoPath GoText Kernel.

(** [syscall.BytePtrFromString]: the string with a null byte after it, unless there is one in it. *)
Definition BytePtrFromString (s : bytes) : outcome error bytes :=
  if in_set s x00 then Fail (Errno 22) else Ret (s ++ [x00]).

(** ** [mount] and [umount] *)

Module Mount.

Definition MS_MGC_VAL : Z := 0xc0ed0000.
Definition MS_RDONLY : Z := 1.
Definition MNT_FORCE : Z := 1.
Definition MNT_DETACH : Z := 2.
Definition noFollow : Z := 8.

Inductive mcall := Mount (dev path fstype : bytes) (flags : Z) (data : bytes) | Unmount (path : bytes) (flags : Z).

Section Main.
Context (answer : forall c : mcall, list mcall -> unit + error).

Definition mount_main (ro : bool) (fsType data : bytes) (a : list bytes) : M (list mcall) unit :=
  match a with
  | dev :: path :: _ =>
      let flags := if ro then Z.lor MS_MGC_VAL MS_RDONLY else MS_MGC_VAL in
      fatalf "Mount :%s: on :%s: type :%s: flags %x: %v" (ask answer (Mount dev path fsType flags data))
  | _ => raise (Errorf "Usage: mount [-r] [-t fstype] dev path")
  end.

Definition umount (force lazy : bool) (a : list bytes) : M (list mcall) unit :=
  match a with
  | [path] =>
      if force && lazy then raise (Errorf "force and lazy unmount cannot both be set")
      else
        let flags := if force then Z.lor noFollow MNT_FORCE else noFollow in
        let flags := if lazy then Z.lor flags MNT_DETACH else flags in
        wrap (fun _ => Errorf "umount :%s: flags %x: %v") (ask answer (Unmount path flags))
  | _ => raise (Errorf "Usage: umount [-f | -l] path")
  end.
End Main.
End Mount.

(** ** [losetup] *)

Module Losetup.

Definition LOOP_SET_FD : Z := 0x4c00.
Definition LOOP_CTL_GET_FREE : Z := 0x4c82.
Definition loop_control : bytes := str "/dev/loop-control".

(** The descriptor of an [Open] is its answer. *)
Inductive lcall := Open (name : bytes) (write : bool) | Ioctl (fd request arg : Z) | Close (fd : Z).

Section Main.
Context (answer : forall c : lcall, list lcall -> Z + error).
Abbreviation call := (ask answer).

Definition close (fd : Z) : M (list lcall) unit := _ ← ask_or answer (Close fd); mret tt.

Definition findloop : M (list lcall) bytes :=
  cfd ← fatalf "/dev/loop-control: %v" (call (Open loop_control true));
  a ← fatalf "ioctl: %v" (call (Ioctl cfd LOOP_CTL_GET_FREE 0));
  _ ← close cfd;
  mret (str "/dev/loop" ++ Itoa a).

(** [log.Fatalf] in [findloop] ends the program without the deferred [Close]. *)
Definition losetup_main (detach : bool) (args : list bytes) : M (list lcall) unit :=
  if detach then raise (Errorf "detach: not yet")
  else
    p ← match args with
        | [file] => dev ← findloop; mret (dev, file)
        | [dev; file] => mret (dev, file)
        | _ => raise (Errorf "usage")
        end;
    ffd ← fatalf "file: %v, %v" (call (Open (snd p) false));
    lfd ← fatalf "dev: %v, %v" (call (Open (fst p) false));
    _ ← fatalf "loop set fd ioctl: %v, %v, %v" (call (Ioctl lfd LOOP_SET_FD ffd));
    mret tt.
End Main.
End Losetup.

(** ** Kernel modules *)

Module Kmodule.

Definition ENOSYS : Z := 38.
Definition O_NONBLOCK : Z := 0x800.

Inductive kcall :=
| Open (name : bytes)
| Finit (name : bytes) (opts : bytes) (flags : Z)
| ReadAll (name : bytes)
| InitModule (image : bytes) (opts : bytes)
| DeleteModule (name : bytes) (flags : Z).

Definition kanswer (c : kcall) : Type := match c with ReadAll _ => bytes | _ => unit end.

Section Main.
Context (answer : forall c : kcall, list kcall -> kanswer c + error).
Abbreviation call := (ask answer).

Definition Init (image opts : bytes) : M (list kcall) unit :=
  optsNull ← wrap (fun _ => Errorf "kmodule.Init: could not convert %q to C string: %v") (lift (BytePtrFromString opts));
  match image with
  | [] => lift Panic
  | _ => wrap (fun _ => Errorf "init_module(%v, %q) failed with %v") (call (InitModule image optsNull))
  end.

Definition FileInit (f opts : bytes) (flags : Z) : M (list kcall) unit :=
  optsNull ← wrap (fun _ => Errorf "kmodule.Init: could not convert %q to C string: %v") (lift (BytePtrFromString opts));
  r ← ask_or answer (Finit f optsNull flags);
  match r with
  | inl _ => mret tt
  | inr e =>
      if bool_decide (e = Errno ENOSYS) then
        if negb (flags =? 0) then raise (Errorf "finit_module unavailable")
        else img ← wrap (fun _ => Errorf "kmodule.FileInit: %v") (call (ReadAll f)); Init img opts
      else raise (Errorf "finit_module(%v, %q, %#x) failed with %v")
  end.

Definition Delete (name : bytes) (flags : Z) : M (list kcall) unit :=
  modname ← wrap (fun _ => Errorf "could not delete module %q: %v") (lift (BytePtrFromString name));
  wrap (fun _ => Errorf "could not delete module %q: %v") (call (DeleteModule modname flags)).

(** The arguments are those after the name of the program. *)
Definition insmod_main (args : list bytes) : M (list kcall) unit :=
  match args with
  | [] => raise (Errorf "insmod: ERROR: missing filename.")
  | filename :: opts =>
      let options := GoStrings.Join (str " ") opts in
      _ ← fatalf "could not open %q: %v" (call (Open filename));
      fatalf "insmod: could not load %q: %v" (FileInit filename options 0)
  end.

Definition remove_one (name : bytes) : M (list kcall) unit := fatalf "rmmod: %v" (Delete name O_NONBLOCK).

Definition rmmod_main (args : list bytes) : M (list kcall) unit :=
  match args with
  | [] => raise (Errorf "rmmod: ERROR: missing module name.")
  | _ => each remove_one args
  end.
End Main.

(** *** [lsmod] *)

(** Widths count bytes; names of modules are ASCII. *)
Definition pad_right (n : nat) (s : bytes) : bytes := s ++ replicate (n - length s) x20.
Definition pad_left (n : nat) (s : bytes) : bytes := replicate (n - length s) x20 ++ s.

Definition mod_line (l : bytes) : outcome error bytes :=
  match GoStrings.Split x20 l with
  | name :: size :: used :: usedBy :: _ =>
      let final := pad_right 19 name ++ str " " ++ pad_left 8 size ++ str "  " ++ used in
      if bytes_eqb usedBy (str "-") then Ret final
      else match usedBy with
           | [] => Panic
           | _ => Ret (final ++ str " " ++ take (length usedBy - 1) usedBy)
           end
  | _ => Panic
  end.

Fixpoint mod_lines (ls : list bytes) : list bytes * outcome error unit :=
  match ls with
  | [] => ([], Ret tt)
  | l :: ls =>
      match mod_line l with
      | Ret final => let '(out, r) := mod_lines ls in (final :: out, r)
      | Fail e => ([], Fail e)
      | Panic => ([], Panic)
      end
  end.

Definition heading : bytes := str "Module                  Size  Used by".

(** The lines printed for the text of [/proc/modules], and how it ends. *)
Definition lsmod_main (modules : bytes + error) : list bytes * outcome error unit :=
  match modules with
  | inr e => ([], Fail e)
  | inl text =>
      let '(ls, err) := ScanLines text in
      let '(out, r) := mod_lines ls in
      (heading :: out, match r, err with Ret _, Some e => Fail e | _, _ => r end)
  end.
End Kmodule.

(** ** [dmesg] *)

Module Dmesg.

Definition READ_ALL : Z := 3.
Definition READ_CLEAR : Z := 4.
Definition CLEAR : Z := 5.
Definition buffer_size : Z := 256 * 1024.

(** [syslog(2)] with a buffer: the bytes it stored and the number it returned. *)
Definition dmesg_main (syslog : Z -> Z -> (bytes * Z) + error) (clear readClear : bool) : outcome error bytes :=
  if clear && readClear then Fail (Errorf "cannot specify both -clear and -read-clear")
  else
    let level := if clear then CLEAR else READ_ALL in
    let level := if readClear then READ_CLEAR else level in
    match syslog level buffer_size with
    | inr _ => Fail (Errorf "syslog failed: %v")
    | inl (stored, amt) =>
        let b := stored ++ replicate (Z.to_nat buffer_size - length stored) x00 in
        if (0 <=? amt) && (amt <=? buffer_size) then Ret (take (Z.to_nat amt) b) else Panic
    end.
End Dmesg.

(** ** [kexec] *)

Module Kexec.

Definition NO_INITRAMFS : Z := 4.

(** Files are known by their names; [LoadFile] has the length and the pointer of the command line
    apart. *)
Inductive xcall :=
| ReadCmdline
| OpenFile (name : bytes)
| LoadFile (kernel : bytes) (ramfs : option bytes) (cmdline_len : Z) (cmdline : bytes) (flags : Z)
| Close (name : bytes)
| RebootKexec.

Definition xanswer (c : xcall) : Type := match c with ReadCmdline => bytes | _ => unit end.

Record options := MkOptions { cmdline : bytes; reuseCmdline : bool; initramfs : bytes; load : bool; exec : bool }.

Section Main.
Context (answer : forall c : xcall, list xcall -> xanswer c + error).
Abbreviation call := (ask answer).

Definition Reboot : M (list xcall) unit := wrap (fun _ => Errorf "sys_reboot(..., kexec) = %v") (call RebootKexec).

Definition CurrentKernelCmdline : M (list xcall) bytes := call ReadCmdline.

Definition FileLoad (kernel : bytes) (ramfs : option bytes) (cmdline : bytes) : M (list xcall) unit :=
  let flags := match ramfs with Some _ => 0 | None => NO_INITRAMFS end in
  cmdPtr ← wrap (fun _ => Errorf "could not use cmdline %q: %v") (lift (BytePtrFromString cmdline));
  wrap (fun _ => Errorf "sys_kexec(%d, %d, %s, %x) = %v") (call (LoadFile kernel ramfs (zlen cmdline) cmdPtr flags)).

(** [if opts.load { ... }]; the deferred [Close] calls run when [main] returns, last first. *)
Definition load_kernel (o : options) (args : list bytes) (cmdline : bytes) : M (list xcall) (list bytes) :=
  match args with
  | [] => lift Panic
  | kernelpath :: _ =>
      _ ← fatalf "open(%q): %v" (call (OpenFile kernelpath));
      ramfs ← (if bytes_eqb (initramfs o) [] then mret None
               else _ ← fatalf "open(%q): %v" (call (OpenFile (initramfs o))); mret (Some (initramfs o)));
      _ ← fatalf "%v" (FileLoad kernelpath ramfs cmdline);
      mret (match ramfs with Some r => [r; kernelpath] | None => [kernelpath] end)
  end.

Definition close_one (name : bytes) : M (list xcall) unit := _ ← ask_or answer (Close name); mret tt.

Definition kexec_main (o : options) (args : list bytes) : M (list xcall) unit :=
  if negb (exec o) && bool_decide (args = []) then raise (Errorf "usage: kexec [flags] kernelname OR kexec -e")
  else if negb (bytes_eqb (cmdline o) []) && reuseCmdline o then
    raise (Errorf "--reuse-cmdline and other command line options are mutually exclusive")
  else
    let both := negb (load o) && negb (exec o) in
    cmdline ← (if reuseCmdline o then fatalf "%v" CurrentKernelCmdline else mret (cmdline o));
    opened ← (if load o || both then load_kernel o args cmdline else mret []);
    _ ← (if exec o || both then fatalf "%v" Reboot else mret tt);
    each close_one opened.
End Main.
End Kexec.

(** ** [vboot] *)

Module Vboot.

Definition tpmDevice : bytes := str "/dev/tpm0".
Definition mountPath : bytes := str "/mnt/vboot".
Definition filesystem : bytes := str "ext3".

Record config := MkConfig {
  publicKey : bytes; pcr : Z; bootDev : bytes; linuxKernel : bytes; linuxKernelSignature : bytes; initrd : bytes;
  initrdSignature : bytes; debug : bool; noTPM : bool
}.

Inductive vcall :=
| MkdirAll (path : bytes)
| MountRO (dev path fstype : bytes)
| ReadFile (path : bytes)
| OpenTPM (device : bytes)
| PcrExtend (pcr : Z) (digest : bytes)
| LookPath (name : bytes)
| Exec (binary : bytes) (args : list bytes)
| PowerOff.

Definition vanswer (c : vcall) : Type := match c with ReadFile _ | LookPath _ => bytes | _ => unit end.

Section Main.
Context (answer : forall c : vcall, list vcall -> vanswer c + error).
(** [sha256.Sum256], [sha1.Sum] and [ed25519.Verify], which panics on a key that has not 32 bytes. *)
Context (Sum256 Sum1 : bytes -> bytes) (Verify : bytes -> bytes -> bytes -> bool).
Context (c : config).

(** [die]: a panic if debugging; the machine is switched off otherwise, which does not return, or the
    program ends. *)
Definition die {A} : M (list vcall) A :=
  if debug c then lift Panic
  else r ← ask_or answer PowerOff;
       raise (Errorf (match r with inl _ => "power off" | inr _ => "reboot err: %v" end)).

Definition or_die (q : vcall) : M (list vcall) (vanswer q) :=
  r ← ask_or answer q;
  match r with inl a => mret a | inr _ => die end.

Definition paths : list bytes := [publicKey c; linuxKernel c; linuxKernelSignature c; initrd c; initrdSignature c].

(** The map [files] is read at names of [paths] only. *)
Fixpoint read_files (ps : list bytes) (files : bytes -> bytes) : M (list vcall) (bytes -> bytes) :=
  match ps with
  | [] => mret files
  | p :: ps =>
      data ← or_die (ReadFile p);
      read_files ps (fun q => if bytes_eqb q p then data else files q)
  end.

Definition ed25519_Verify (key message sig : bytes) : outcome error bool :=
  if (length key =? 32)%nat then Ret (Verify key message sig) else Panic.

Definition measure (kernel initrd : bytes) : M (list vcall) unit :=
  _ ← or_die (OpenTPM tpmDevice);
  _ ← ask_or answer (PcrExtend (u32 (pcr c)) (Sum1 kernel));
  _ ← ask_or answer (PcrExtend (u32 (pcr c)) (Sum1 initrd));
  mret tt.

Definition vboot_main : M (list vcall) unit :=
  _ ← or_die (MkdirAll mountPath);
  _ ← or_die (MountRO (bootDev c) mountPath filesystem);
  files ← read_files paths (fun _ => []);
  let kernelDigest := Sum256 (files (linuxKernel c)) in
  let initrdDigest := Sum256 (files (initrd c)) in
  kernelSuccess ← lift (ed25519_Verify (files (publicKey c)) kernelDigest (files (linuxKernelSignature c)));
  initrdSuccess ← lift (ed25519_Verify (files (publicKey c)) initrdDigest (files (linuxKernelSignature c)));
  _ ← (if negb kernelSuccess || negb initrdSuccess then die else mret tt);
  _ ← (if noTPM c then mret tt else measure (files (linuxKernel c)) (files (initrd c)));
  binary ← or_die (LookPath (str "kexec"));
  or_die (Exec binary [str "kexec"; str "-initrd"; initrd c; linuxKernel c]).
End Main.
End Vboot.

(** ** Verified boot *)

Section VbootFacts.
Import Vboot.
Context (answer : forall c : vcall, list vcall -> vanswer c + error).
Context (Sum256 Sum1 : bytes -> bytes) (Verify : bytes -> bytes -> bytes -> bool).
Context (c : config).
Abbreviation main := (vboot_main answer Sum256 Sum1 Verify c).

(** Any call but the start of another program. *)
Definition no_exec (q : vcall) : Prop := match q with Exec _ _ => False | _ => True end.

Lemma die_only {A} : only no_exec (die answer c : M (list vcall) A).
Proof. unfold die. destruct (debug c); eauto with only. apply only_bind; [by apply only_ask_or|]. intros. apply only_raise. Qed.
#[local] Hint Resolve die_only : only.

Lemma or_die_only q : no_exec q -> only no_exec (or_die answer c q).
Proof. intros Hq. unfold or_die. apply only_bind; [by apply only_ask_or|]. intros [a|e]; auto with only. Qed.
#[local] Hint Resolve or_die_only : only.

Lemma read_files_only ps files : only no_exec (read_files answer c ps files).
Proof.
  revert files. induction ps as [|p ps IH]; intros files; cbn [read_files]; [apply only_ret|].
  apply only_bind; [by apply (or_die_only (ReadFile p))|]. auto.
Qed.
#[local] Hint Resolve read_files_only : only.

Lemma die_Ret {A} tr tr' (a : A) : die answer c tr <> (tr', Ret a).
Proof. unfold die. by destruct (debug c). Qed.

Lemma or_die_Ret q tr tr' a : or_die answer c q tr = (tr', Ret a) -> tr' = tr ++ [q] /\ answer q tr = inl a.
Proof.
  unfold or_die. unfold mbind, M_bind, ask_or. destruct (answer q tr) as [b|e]; intros H; [by injection H as <- <-|].
  by apply die_Ret in H.
Qed.

Lemma or_die_calls q tr tr' r : or_die answer c q tr = (tr', r) -> exists post, tr' = tr ++ q :: post /\ Forall no_exec post.
Proof.
  unfold or_die, die, mbind, M_bind, ask_or. destruct (answer q tr) as [b|e].
  - intros H. injection H as <- _. by exists [].
  - destruct (debug c); intros H; [injection H as <- _; by exists []|]. injection H as <- _.
    exists [PowerOff]. rewrite <- app_assoc. split; [done|]. by repeat constructor.
Qed.

(** What a file held when it was read, at a point of the trace. *)
Definition was_read (tr : list vcall) (p data : bytes) : Prop :=
  exists t k, tr = t ++ ReadFile p :: k /\ answer (ReadFile p) t = inl data.

Lemma read_files_spec ps files tr tr' files' :
  read_files answer c ps files tr = (tr', Ret files') ->
  tr' = tr ++ (ReadFile <$> ps) /\ (forall p, p ∈ ps -> was_read tr' p (files' p)) /\
  (forall p, p ∉ ps -> files' p = files p).
Proof.
  revert files tr. induction ps as [|p ps IH]; intros files tr H; cbn [read_files] in H.
  - injection H as <- <-. rewrite app_nil_r. split; [done|]. split; [|done]. intros p Hp. by apply not_elem_of_nil in Hp.
  - M_inv H. apply (or_die_Ret (ReadFile p)) in Hm as [-> Ha]. apply IH in H as (-> & Hin & Hout).
    split; [by rewrite <- app_assoc|]. split.
    + intros q Hq. destruct (decide (q ∈ ps)) as [Hi|Hi]; [by apply Hin|]. apply elem_of_cons in Hq as [->|Hq]; [|done].
      rewrite Hout, bytes_eqb_refl by done. exists tr, (ReadFile <$> ps). by rewrite <- app_assoc.
    + intros q Hq. apply not_elem_of_cons in Hq as [Hne Hq]. rewrite Hout by done. by rewrite bytes_eqb_neq.
Qed.

(** The calls before the signatures are checked. *)
Definition boot_reads : list vcall :=
  [MkdirAll mountPath; MountRO (bootDev c) mountPath filesystem] ++ (ReadFile <$> paths c).

(** The files are as they were read, the key has its size, and both digests were verified, with the one signature. *)
Definition verified (files : bytes -> bytes) : Prop :=
  (forall p, p ∈ paths c -> was_read boot_reads p (files p)) /\ length (files (publicKey c)) = 32%nat /\
  Verify (files (publicKey c)) (Sum256 (files (linuxKernel c))) (files (linuxKernelSignature c)) = true /\
  Verify (files (publicKey c)) (Sum256 (files (initrd c))) (files (linuxKernelSignature c)) = true.

Definition measured (files : bytes -> bytes) : list vcall :=
  if noTPM c then []
  else [OpenTPM tpmDevice; PcrExtend (u32 (pcr c)) (Sum1 (files (linuxKernel c))); PcrExtend (u32 (pcr c)) (Sum1 (files (initrd c)))].

Lemma Verify_Ret key m sig b (s s' : list vcall) :
  lift (ed25519_Verify Verify key m sig) s = (s', Ret b) -> s' = s /\ length key = 32%nat /\ Verify key m sig = b.
Proof.
  unfold lift, ed25519_Verify. destruct (Nat.eqb_spec (length key) 32); intros H; by simplify_eq.
Qed.

Lemma measure_Ret files s s' u :
  (if noTPM c then mret tt else measure answer Sum1 c (files (linuxKernel c)) (files (initrd c))) s = (s', Ret u) ->
  s' = s ++ measured files.
Proof.
  unfold measured. destruct (noTPM c); intros H; [injection H as <- _; by rewrite app_nil_r|].
  unfold measure in H. M_inv H. apply (or_die_Ret (OpenTPM _)) in Hm as [-> _]. injection H as <- _. by rewrite <- !app_assoc.
Qed.

Lemma measure_only k i : only no_exec (measure answer Sum1 c k i).
Proof.
  unfold measure. apply only_bind; [by apply (or_die_only (OpenTPM _))|]. intros _.
  apply only_bind; [by apply (only_ask_or _ answer (PcrExtend _ _))|]. intros _.
  apply only_bind; [by apply (only_ask_or _ answer (PcrExtend _ _))|]. auto with only.
Qed.

Lemma starts_verified tr r b args :
  main [] = (tr, r) -> Exec b args ∈ tr ->
  exists files post, verified files /\ args = [str "kexec"; str "-initrd"; initrd c; linuxKernel c] /\
    tr = boot_reads ++ measured files ++ [LookPath (str "kexec"); Exec b args] ++ post /\ Forall no_exec post.
Proof.
  intros H Hin. assert (~ Forall no_exec tr) as Hne.
  { intros Hf. rewrite Forall_forall in Hf. exact (Hf _ Hin). }
  assert (Forall no_exec []) as H0 by constructor. unfold vboot_main in H.
  eapply only_past in H as (s1 & a1 & Hm1 & H1 & H); [|by apply (or_die_only (MkdirAll _))|done|done].
  eapply only_past in H as (s2 & a2 & Hm2 & H2 & H); [|by apply (or_die_only (MountRO _ _ _))|done|done].
  eapply only_past in H as (s3 & files & Hm3 & H3 & H); [|by apply read_files_only|done|done].
  eapply only_past in H as (s4 & k & Hm4 & H4 & H); [|by apply only_lift|done|done].
  eapply only_past in H as (s5 & i & Hm5 & H5 & H); [|by apply only_lift|done|done].
  eapply only_past in H as (s6 & u & Hm6 & H6 & H); [|by destruct (_ || _); auto with only|done|done].
  eapply only_past in H as (s7 & v & Hm7 & H7 & H); [|by destruct (noTPM c); auto using measure_only with only|done|done].
  eapply only_past in H as (s8 & bin & Hm8 & H8 & H); [|by apply (or_die_only (LookPath _))|done|done].
  apply (or_die_Ret (MkdirAll _)) in Hm1 as [-> _]. apply (or_die_Ret (MountRO _ _ _)) in Hm2 as [-> _].
  apply read_files_spec in Hm3 as (-> & Hread & _). apply Verify_Ret in Hm4 as (-> & Hkey & Hk).
  apply Verify_Ret in Hm5 as (-> & _ & Hi).
  assert (k = true /\ i = true /\ s6 = (([] ++ [MkdirAll mountPath]) ++ [MountRO (bootDev c) mountPath filesystem]) ++ (ReadFile <$> paths c))
    as (-> & -> & ->).
  { destruct k, i; cbn [negb orb] in Hm6; try by apply die_Ret in Hm6. injection Hm6 as <- _. repeat split. }
  apply measure_Ret in Hm7 as ->. apply (or_die_Ret (LookPath _)) in Hm8 as [-> _].
  destruct (or_die_calls (Exec bin [str "kexec"; str "-initrd"; initrd c; linuxKernel c]) _ _ _ H) as (post & Htr & Hpost).
  assert (Exec b args = Exec bin [str "kexec"; str "-initrd"; initrd c; linuxKernel c]) as Heq.
  { rewrite Htr in Hin. apply elem_of_app in Hin as [Hin|[->|Hin]%elem_of_cons]; [|done|].
    - rewrite Forall_forall in H8. by destruct (H8 _ Hin).
    - rewrite Forall_forall in Hpost. by destruct (Hpost _ Hin). }
  injection Heq as -> ->. exists files, post. split; [done|]. split; [done|]. split; [|done].
  rewrite Htr. unfold boot_reads. by rewrite <- !app_assoc.
Qed.

Lemma started_files tr r b args : main [] = (tr, r) -> Exec b args ∈ tr -> exists files, verified files.
Proof. intros H Hin. destruct (starts_verified tr r b args H Hin) as (files & _ & Hv & _). by exists files. Qed.

(** [vboot] starts [kexec], on the kernel and the initial RAM disk that it was given, only after
    it has read key, kernel, disk and signatures, the key verified the digests of the kernel and
    of the disk with the signature of the kernel, and both were measured unless that is switched off; on any other way it never
    starts a program. *)
Theorem vboot_starts_verified tr r b args :
  main [] = (tr, r) -> Exec b args ∈ tr ->
  exists files post, verified files /\ args = [str "kexec"; str "-initrd"; initrd c; linuxKernel c] /\
    tr = boot_reads ++ measured files ++ [LookPath (str "kexec"); Exec b args] ++ post /\ Forall no_exec post.
Proof. apply starts_verified. Qed.
End VbootFacts.

Section VbootSignature.
Import Vboot.
Context (answer : forall c : vcall, list vcall -> vanswer c + error).
Context (Sum256 Sum1 : bytes -> bytes) (Verify : bytes -> bytes -> bytes -> bool) (c : config).

(** The signature of the initial RAM disk is read and not used: the disk is verified with the
    signature of the kernel, so that where a signature fits one message only, nothing but a disk
    with the digest of the kernel is ever started. *)
Theorem vboot_disk_needs_kernel_signature tr r b args :
  (forall key m m' sig, Verify key m sig = true -> Verify key m' sig = true -> m = m') ->
  vboot_main answer Sum256 Sum1 Verify c [] = (tr, r) -> Exec b args ∈ tr ->
  exists kernel disk, was_read answer (boot_reads c) (linuxKernel c) kernel /\ was_read answer (boot_reads c) (initrd c) disk /\ Sum256 kernel = Sum256 disk.
Proof.
  intros Hone H Hin. destruct (started_files answer Sum256 Sum1 Verify c tr r b args H Hin) as (files & Hread & _ & Hk & Hi).
  exists (files (linuxKernel c)), (files (initrd c)).
  split; [apply Hread; unfold paths; set_solver|]. split; [apply Hread; unfold paths; set_solver|]. eauto.
Qed.
End VbootSignature.

Module VbootExamples.
Import Vboot.

Definition standard : config :=
  MkConfig (str "/etc/sig.pub") 12 (str "/dev/sda1") (str "/mnt/vboot/kernel") (str "/mnt/vboot/kernel.sig")
    (str "/mnt/vboot/initrd") (str "/mnt/vboot/initrd.sig") false false.

Definition key : bytes := replicate 32 x01.

(** A machine where the disk is the kernel; [tpm] says whether the TPM measures. *)
Definition world (tpm : bool) (q : vcall) (_ : list vcall) : vanswer q + error :=
  match q with
  | ReadFile p => inl (if bytes_eqb p (str "/etc/sig.pub") then key else if HasSuffix p (str ".sig") then str "ok" else str "image")
  | LookPath _ => inl (str "/bbin/kexec")
  | PcrExtend _ _ => if tpm then inl tt else inr (Errno 5)
  | _ => inl tt
  end.

(** A message is its own digest, and only one has a signature. *)
Definition one_message (_ m sig : bytes) : bool := bytes_eqb m (str "image") && bytes_eqb sig (str "ok").

Definition run (tpm : bool) : list vcall * outcome error unit := vboot_main (world tpm) id id one_message standard [].

Definition kexec_call : vcall := Exec (str "/bbin/kexec") [str "kexec"; str "-initrd"; str "/mnt/vboot/initrd"; str "/mnt/vboot/kernel"].

Lemma booted tpm : exists tr, run tpm = (tr, Ret tt) /\ last tr = Some kexec_call.
Proof. eexists. by destruct tpm; split; vm_compute. Qed.

Lemma vboot_starts_verified_witness :
  exists tr files, run true = (tr, Ret tt) /\ verified (world true) id one_message standard files.
Proof.
  destruct (booted true) as (tr & Hr & Hl).
  assert (kexec_call ∈ tr) as Hin by (apply last_Some_elem_of; exact Hl).
  destruct (vboot_starts_verified (world true) id id one_message standard tr (Ret tt) _ _ Hr Hin) as (files & _ & Hv & _).
  exists tr, files. split; [exact Hr|exact Hv].
Defined.

Lemma vboot_disk_needs_kernel_signature_witness :
  exists kernel disk, was_read (world true) (boot_reads standard) (linuxKernel standard) kernel /\ was_read (world true) (boot_reads standard) (initrd standard) disk /\ kernel = disk.
Proof.
  destruct (booted true) as (tr & Hr & Hl).
  assert (kexec_call ∈ tr) as Hin by (apply last_Some_elem_of; exact Hl).
  refine (vboot_disk_needs_kernel_signature (world true) id id one_message standard tr (Ret tt) _ _ _ Hr Hin).
  intros k m m' sig H1 H2. unfold one_message in *. apply andb_prop in H1 as [H1 _], H2 as [H2 _].
  apply bytes_eqb_eq in H1, H2. by subst.
Defined.

(** A TPM that refuses to measure stops nothing. *)
Example unmeasured_boot : last (run false).1 = Some kexec_call.
Proof. by vm_compute. Qed.
End VbootExamples.

(** ** Loading kernels *)

Section KexecFacts.
Import Kexec.
Context (answer : forall c : xcall, list xcall -> xanswer c + error).

(** What [kexec] does by its options: neither [-l] nor [-e] means both. *)
Definition loads (o : options) : bool := load o || (negb (load o) && negb (exec o)).
Definition boots (o : options) : bool := exec o || (negb (load o) && negb (exec o)).

Definition no_boot (q : xcall) : Prop := match q with RebootKexec => False | _ => True end.

(** The kernel was loaded, before any reboot. *)
Definition loaded_with (o : options) (kernel line : bytes) (tr : list xcall) : Prop :=
  let ramfs := if bytes_eqb (initramfs o) [] then None else Some (initramfs o) in
  let q := LoadFile kernel ramfs (zlen line) (line ++ [x00]) (match ramfs with Some _ => 0 | None => NO_INITRAMFS end) in
  exists t k, tr = t ++ q :: k /\ answer q t = inl tt /\ Forall no_boot t.

Lemma FileLoad_Ret k r line s s' u : FileLoad answer k r line s = (s', Ret u) ->
  let q := LoadFile k r (zlen line) (line ++ [x00]) (match r with Some _ => 0 | None => NO_INITRAMFS end) in
  s' = s ++ [q] /\ answer q s = inl tt.
Proof.
  unfold FileLoad, BytePtrFromString. destruct (in_set line x00); intros H; [done|].
  unfold mbind, M_bind in H. cbn [wrap lift] in H. unfold wrap at 1, lift in H.
  apply (fatalf_inv "sys_kexec(%d, %d, %s, %x) = %v") in H. apply (ask_inv answer (LoadFile _ _ _ _ _)) in H as [-> Ha].
  destruct u. done.
Qed.

Lemma load_kernel_Ret o args line s s' l : load_kernel answer o args line s = (s', Ret l) -> Forall no_boot s' ->
  exists kernel rest, args = kernel :: rest /\ loaded_with o kernel line s' /\ exists k, s' = s ++ k.
Proof.
  unfold load_kernel. destruct args as [|kernel rest]; intros H Hnb; [done|]. M_inv H. destruct a.
  apply fatalf_inv, (ask_inv answer (OpenFile _)) in Hm as [-> _]. M_inv H.
  assert (a = (if bytes_eqb (initramfs o) [] then None else Some (initramfs o)) /\ exists k, s0 = (s ++ [OpenFile kernel]) ++ k) as [-> [k ->]].
  { destruct (bytes_eqb (initramfs o) []).
    - injection Hm as <- <-. split; [done|]. exists []. by rewrite app_nil_r.
    - M_inv Hm. destruct a0. apply fatalf_inv, (ask_inv answer (OpenFile _)) in Hm0 as [-> _]. injection Hm as <- <-. eauto. }
  M_inv H. apply fatalf_inv, FileLoad_Ret in Hm0 as [-> Ha]. injection H as <- _.
  exists kernel, rest. split; [done|]. split.
  - eexists _, []. split; [reflexivity|]. split; [exact Ha|]. by apply Forall_app in Hnb as [? _].
  - rewrite <- !app_assoc. eauto.
Qed.

Lemma load_kernel_only o args line : only no_boot (load_kernel answer o args line).
Proof.
  unfold load_kernel. destruct args as [|kernel rest]; [apply only_lift|].
  apply only_bind; [by apply only_fatalf, (only_ask _ answer (OpenFile _))|]. intros _.
  apply only_bind.
  - destruct (bytes_eqb _ _); [apply only_ret|].
    apply only_bind; [by apply only_fatalf, (only_ask _ answer (OpenFile _))|]. intros _. apply only_ret.
  - intros r. apply only_bind; [|intros _; apply only_ret]. apply only_fatalf. unfold FileLoad.
    apply only_bind; [apply only_wrap, only_lift|]. intros p. by apply only_wrap, (only_ask _ answer (LoadFile _ _ _ _ _)).
Qed.

(** [kexec] reboots only if its options say so, and then, unless it is only to start what is
    loaded, after the kernel of the command line was loaded with the given RAM disk and the
    command line, that of the running kernel if it is to be used again. *)
Theorem kexec_boots_loaded o args tr r :
  kexec_main answer o args [] = (tr, r) -> RebootKexec ∈ tr ->
  boots o = true /\
  (loads o = true -> exists kernel rest line, args = kernel :: rest /\ loaded_with o kernel line tr /\
     (if reuseCmdline o then answer ReadCmdline [] = inl line else line = cmdline o)).
Proof.
  intros H Hin. assert (~ Forall no_boot tr) as Hne by (intros Hf; rewrite Forall_forall in Hf; exact (Hf _ Hin)).
  assert (Forall no_boot []) as H0 by constructor. unfold kexec_main in H.
  destruct (_ && bool_decide _); [by injection H as <- _|]. destruct (_ && reuseCmdline o); [by injection H as <- _|].
  eapply only_past in H as (s1 & line & Hm1 & H1 & H); [| |done|done].
  2:{ destruct (reuseCmdline o); [|apply only_ret]. by apply only_fatalf, (only_ask _ answer ReadCmdline). }
  eapply only_past in H as (s2 & opened & Hm2 & H2 & H); [| |done|done].
  2:{ destruct (load o || _); [apply load_kernel_only|apply only_ret]. }
  unfold boots, loads. destruct (exec o || _).
  2:{ exfalso. apply Hne. eapply (f_equal fst) in H. simpl in H. rewrite <- H. unfold mbind, M_bind, mret, M_ret.
      apply (only_each no_boot (close_one answer)); [|done]. intros f. by apply only_bind; [apply only_ask_or|intros; apply only_ret]. }
  split; [done|]. intros Hl. rewrite Hl in Hm2. apply load_kernel_Ret in Hm2 as (kernel & rest & -> & Hld & _); [|done].
  exists kernel, rest, line. split; [done|]. split.
  - destruct Hld as (t & k0 & Hs & Ha & Hi).
    assert (exists k, tr = s2 ++ k) as [k ->]; [|exists t, (k0 ++ k); by rewrite Hs, <- app_assoc].
    assert (grows (_ ← fatalf "%v" (Reboot answer); each (close_one answer) opened)) as Hg.
    { unfold Reboot, close_one. auto 10 with grows. }
    destruct (Hg s2) as [k Hk]. exists k. by rewrite H in Hk.
  - destruct (reuseCmdline o); [|by injection Hm1 as _ <-].
    by apply fatalf_inv, (ask_inv answer ReadCmdline) in Hm1 as [_ Ha].
Qed.

(** [kexec_file_load(2)] wants the null byte at the end counted in the length of the command line; it
    is not, so that a kernel that checks it refuses every command line but the empty one. *)
Theorem kexec_cmdline_refused kernel ramfs line tr :
  (forall k r n p f t, 0 < n -> p !! Z.to_nat (n - 1) <> Some x00 -> answer (LoadFile k r n p f) t = inr (Errno 22)) ->
  line <> [] -> exists e, (FileLoad answer kernel ramfs line tr).2 = Fail e.
Proof.
  intros Hrule Hne. unfold FileLoad, BytePtrFromString. destruct (in_set line x00) eqn:E; [by eexists|].
  unfold mbind, M_bind, wrap, lift, ask. rewrite Hrule; [by eexists|destruct line; [done|unfold zlen; simpl; lia]|].
  intros H. destruct line as [|x line]; [done|].
  rewrite lookup_app_l in H by (unfold zlen; simpl; lia).
  apply list_elem_of_lookup_2, list_elem_of_In in H.
  apply not_true_iff_false in E. apply E. apply existsb_exists. exists x00. split; [done|apply byte_eqb_refl].
Qed.

(** With both [-l] and [-e] and no kernel the program panics instead of showing its usage. *)
Theorem kexec_both_panics o tr :
  load o = true -> exec o = true -> cmdline o = [] -> reuseCmdline o = false -> (kexec_main answer o [] tr).2 = Panic.
Proof. destruct o. simpl. intros -> -> -> ->. done. Qed.
End KexecFacts.

Module KexecExamples.
Import Kexec.

(** A kernel that checks the end of the command line. *)
Definition world (c : xcall) (_ : list xcall) : xanswer c + error :=
  match c with
  | ReadCmdline => inl (str "quiet" ++ [x0a])
  | LoadFile _ _ n p _ => if (0 <? n) && negb (bool_decide (p !! Z.to_nat (n - 1) = Some x00)) then inr (Errno 22) else inl tt
  | _ => inl tt
  end.

Definition both : options := MkOptions [] false (str "initrd") false false.

Lemma kexec_boots_loaded_witness :
  loads both = true /\ boots both = true /\ RebootKexec ∈ (kexec_main world both [str "bzImage"] []).1.
Proof.
  assert (RebootKexec ∈ (kexec_main world both [str "bzImage"] []).1) as Hin.
  { apply list_elem_of_In. vm_compute. tauto. }
  destruct (kexec_boots_loaded world both [str "bzImage"] _ _ (surjective_pairing _) Hin) as [Hb _].
  split; [reflexivity|]. split; [exact Hb|exact Hin].
Defined.

Lemma kexec_cmdline_refused_witness : exists e, (FileLoad world (str "bzImage") None (str "quiet") []).2 = Fail e.
Proof.
  apply (kexec_cmdline_refused world); [|done]. intros k r n p f t Hn Hp. simpl.
  rewrite (proj2 (Z.ltb_lt 0 n) Hn), bool_decide_eq_false_2 by exact Hp. reflexivity.
Defined.

Lemma kexec_both_panics_witness : (kexec_main world (MkOptions [] false [] true true) [] []).2 = Panic.
Proof. exact (kexec_both_panics world (MkOptions [] false [] true true) [] eq_refl eq_refl eq_refl eq_refl). Defined.
End KexecExamples.

(** ** Modules, mounts, loop devices *)

Section KmoduleFacts.
Import Kmodule.
Context (answer : forall c : kcall, list kcall -> kanswer c + error).

Lemma lift_wrap_Ret {A} (f : error -> error) (o : outcome error A) (s s' : list kcall) a :
  wrap f (lift o) s = (s', Ret a) -> s' = s /\ o = Ret a.
Proof. unfold wrap, lift. destruct o; intros H; by simplify_eq. Qed.

Lemma BytePtr_Ret s p : BytePtrFromString s = Ret p -> p = s ++ [x00].
Proof. unfold BytePtrFromString. destruct (in_set s x00); intros H; by simplify_eq. Qed.

Lemma Init_Ret image opts s s' u : Init answer image opts s = (s', Ret u) ->
  s' = s ++ [InitModule image (opts ++ [x00])] /\ answer (InitModule image (opts ++ [x00])) s = inl tt /\ image <> [].
Proof.
  unfold Init. intros H. M_inv H. apply lift_wrap_Ret in Hm as [-> ->%BytePtr_Ret]. destruct image as [|x image]; [done|].
  apply (fatalf_inv "init_module(%v, %q) failed with %v"), (ask_inv answer (InitModule _ _)) in H as [-> Ha]. destruct u. done.
Qed.

(** The ways of loading the module in [f]. *)
Definition loaded_by_file (f opts : bytes) (s s' : list kcall) : Prop :=
  s' = s ++ [Finit f (opts ++ [x00]) 0] /\ answer (Finit f (opts ++ [x00]) 0) s = inl tt.
Definition loaded_by_image (f opts : bytes) (s s' : list kcall) : Prop :=
  exists img, answer (Finit f (opts ++ [x00]) 0) s = inr (Errno ENOSYS) /\ (exists t, answer (ReadAll f) t = inl img) /\
    (exists t, answer (InitModule img (opts ++ [x00])) t = inl tt) /\
    s' = s ++ [Finit f (opts ++ [x00]) 0; ReadAll f; InitModule img (opts ++ [x00])].

Lemma FileInit_Ret f opts s s' u : FileInit answer f opts 0 s = (s', Ret u) ->
  loaded_by_file f opts s s' \/ loaded_by_image f opts s s'.
Proof.
  unfold FileInit. intros H. M_inv H. apply lift_wrap_Ret in Hm as [-> ->%BytePtr_Ret].
  M_inv H. injection Hm as <- <-. destruct (answer (Finit f (opts ++ [x00]) 0) s) as [[]|e] eqn:E.
  - injection H as <- _. by left.
  - case_bool_decide; [|done]. subst e. M_inv H.
    apply (fatalf_inv "kmodule.FileInit: %v"), (ask_inv answer (ReadAll f)) in Hm as [-> Hr].
    apply Init_Ret in H as (-> & Hi & _). right. exists a. rewrite <- !app_assoc. split_and!; eauto.
Qed.

(** [insmod] that goes through has opened the file and had its module loaded with the options
    joined by spaces: by the file itself, or, if and only if the kernel has no such call, by the
    image read from the file. *)
Theorem insmod_loads args tr u :
  insmod_main answer args [] = (tr, Ret u) ->
  exists f opts, args = f :: opts /\
    (loaded_by_file f (GoStrings.Join (str " ") opts) [Open f] tr \/ loaded_by_image f (GoStrings.Join (str " ") opts) [Open f] tr).
Proof.
  unfold insmod_main. destruct args as [|f opts]; intros H; [done|]. M_inv H. destruct a.
  apply fatalf_inv, (ask_inv answer (Open f)) in Hm as [-> _]. apply fatalf_inv, FileInit_Ret in H. eauto.
Qed.

Lemma remove_one_Ret name s s' u : remove_one answer name s = (s', Ret u) ->
  s' = s ++ [DeleteModule (name ++ [x00]) O_NONBLOCK] /\ answer (DeleteModule (name ++ [x00]) O_NONBLOCK) s = inl tt.
Proof.
  unfold remove_one, Delete. intros H%fatalf_inv. M_inv H. apply lift_wrap_Ret in Hm as [-> ->%BytePtr_Ret].
  apply (fatalf_inv "could not delete module %q: %v"), (ask_inv answer (DeleteModule _ _)) in H as [-> Ha]. destruct u. done.
Qed.

(** [rmmod] removes all modules in order, or stops at the first that cannot be removed. *)
Theorem rmmod_removes args tr u :
  rmmod_main answer args [] = (tr, Ret u) ->
  args <> [] /\ tr = (fun n => DeleteModule (n ++ [x00]) O_NONBLOCK) <$> args /\ granted answer [] tr.
Proof.
  unfold rmmod_main. destruct args as [|a args]; intros H; [done|]. split; [done|].
  assert (forall l s s' v, each (remove_one answer) l s = (s', Ret v) ->
    s' = s ++ ((fun n => DeleteModule (n ++ [x00]) O_NONBLOCK) <$> l) /\ granted answer s ((fun n => DeleteModule (n ++ [x00]) O_NONBLOCK) <$> l)) as Hall.
  { induction l as [|n l IH]; intros s s' v Hl; cbn [each] in Hl; [injection Hl as <- _; by rewrite app_nil_r|].
    M_inv Hl. apply remove_one_Ret in Hm as [-> Ha]. apply IH in Hl as [-> Hg]. rewrite <- app_assoc. split; [done|].
    split; [by exists tt|done]. }
  apply Hall in H as [-> Hg]. done.
Qed.

(** The fallback takes the address of the first byte of the image: an empty file panics. *)
Theorem empty_module_panics f opts s :
  in_set opts x00 = false -> answer (Finit f (opts ++ [x00]) 0) s = inr (Errno ENOSYS) ->
  answer (ReadAll f) (s ++ [Finit f (opts ++ [x00]) 0]) = inl [] -> (FileInit answer f opts 0 s).2 = Panic.
Proof.
  intros Ho Hf Hr. unfold FileInit, BytePtrFromString. rewrite Ho. unfold mbind, M_bind, wrap, lift, ask_or, ask. rewrite Hf, bool_decide_eq_true_2 by done.
  cbn [negb Z.eqb]. rewrite Hr. unfold Init, BytePtrFromString, mbind, M_bind, wrap, lift. by rewrite Ho.
Qed.
End KmoduleFacts.

Section LsmodFacts.
Import Kmodule.

(** A line of [/proc/modules]: name, size, number of users, users with a comma after each or a
    dash, and more. *)
Record module_entry := MkEntry { me_name : bytes; me_size : bytes; me_used : bytes; me_users : list bytes; me_rest : list bytes }.

Definition users_field (e : module_entry) : bytes :=
  match me_users e with [] => str "-" | us => concat ((fun u => u ++ str ",") <$> us) end.

Definition entry_line (e : module_entry) : bytes :=
  GoStrings.Join (str " ") (me_name e :: me_size e :: me_used e :: users_field e :: me_rest e).

Definition entry_fields_ok (e : module_entry) : Prop :=
  Forall (fun f => x20 ∉ f) (me_name e :: me_size e :: me_used e :: users_field e :: me_rest e) /\
  Forall (fun u => u <> []) (me_users e).

Definition shown_entry (e : module_entry) : bytes :=
  pad_right 19 (me_name e) ++ str " " ++ pad_left 8 (me_size e) ++ str "  " ++ me_used e ++
  match me_users e with [] => [] | us => str " " ++ GoStrings.Join (str ",") us end.

Lemma users_join us : us <> [] -> concat ((fun u : bytes => u ++ str ",") <$> us) = GoStrings.Join (str ",") us ++ str ",".
Proof.
  induction us as [|u [|v us] IH]; intros Hne; [done|simpl; by rewrite app_nil_r|].
  rewrite fmap_cons. cbn [concat]. rewrite IH by done. rewrite (GoStrings.Join_cons _ u) by done. by rewrite <- !app_assoc.
Qed.

Lemma mod_line_entry e : entry_fields_ok e -> mod_line (entry_line e) = Ret (shown_entry e).
Proof.
  intros [Hf Hu]. unfold mod_line, entry_line. rewrite GoStrings.Split_Join by done.
  unfold shown_entry, users_field in *. destruct (me_users e) as [|u us] eqn:Eu.
  - rewrite bytes_eqb_refl. by rewrite app_nil_r.
  - rewrite users_join by done. set (j := GoStrings.Join (str ",") (u :: us)).
    assert (bytes_eqb (j ++ str ",") (str "-") = false) as ->.
    { apply bytes_eqb_neq. intros H. apply (f_equal last) in H. change (str ",") with [x2c] in H. rewrite last_snoc in H. done. }
    destruct (j ++ str ",") as [|x w] eqn:Ej; [by destruct j|]. rewrite <- Ej, length_app.
    change (length (str ",")) with 1%nat. rewrite Nat.add_sub, take_app_length. by rewrite <- !app_assoc.
Qed.

(** [lsmod] shows the heading and every module of the table, its users without the last comma. *)
Theorem lsmod_shows es :
  Forall entry_fields_ok es -> Forall (fun e => scannable (entry_line e)) es ->
  lsmod_main (inl (unlines (entry_line <$> es))) = (heading :: (shown_entry <$> es), Ret tt).
Proof.
  intros Hok Hsc. unfold lsmod_main. rewrite ScanLines_unlines by by apply Forall_fmap.
  assert (mod_lines (entry_line <$> es) = (shown_entry <$> es, Ret tt)) as ->; [|done]. clear Hsc.
  induction Hok as [|e es He Hes IH]; [done|]. rewrite !fmap_cons. cbn [mod_lines]. by rewrite mod_line_entry, IH.
Qed.
End LsmodFacts.

Section MountFacts.
Import Mount.
Context (answer : forall c : mcall, list mcall -> unit + error).

(** [umount] makes one call, never follows a link, and forces or detaches but not both; [mount] makes
    one call, for reading only if asked. *)
Theorem umount_flags force lazy a tr r :
  umount answer force lazy a [] = (tr, r) ->
  Forall (fun q => exists path, a = [path] /\ force && lazy = false /\
    exists flags, q = Unmount path flags /\ Z.testbit flags 3 = true /\ Z.testbit flags 0 = force /\ Z.testbit flags 1 = lazy) tr.
Proof.
  unfold umount. destruct a as [|path [|]]; intros H; [injection H as <- _; constructor| |injection H as <- _; constructor].
  destruct force, lazy; simpl in H; [injection H as <- _; constructor|..].
  all: unfold wrap, ask in H; destruct (answer _ _); injection H as <- _; repeat constructor; exists path; eauto 10.
Qed.

Theorem mount_flags ro fsType data a tr r :
  mount_main answer ro fsType data a [] = (tr, r) ->
  Forall (fun q => exists dev path rest flags, a = dev :: path :: rest /\ q = Mount dev path fsType flags data /\ Z.testbit flags 0 = ro) tr.
Proof.
  unfold mount_main. destruct a as [|dev [|path rest]]; intros H; [injection H as <- _; constructor..|].
  unfold fatalf, wrap, ask in H. destruct (answer _ _); injection H as <- _; repeat constructor.
  all: exists dev, path, rest; eexists; split; [done|]; split; [done|]; by destruct ro.
Qed.
End MountFacts.

Section LosetupFacts.
Import Losetup.
Context (answer : forall c : lcall, list lcall -> Z + error).

Lemma call_inv q s s' a : ask answer q s = (s', Ret a) -> s' = s ++ [q] /\ answer q s = inl a.
Proof. apply (ask_inv (R := fun _ => Z)). Qed.

(** The calls that make [dev] a device over [file]. *)
Definition attached (dev file : bytes) (s s' : list lcall) : Prop :=
  exists ffd lfd, answer (Open file false) s = inl ffd /\ answer (Open dev false) (s ++ [Open file false]) = inl lfd /\
    s' = s ++ [Open file false; Open dev false; Ioctl lfd LOOP_SET_FD ffd].

(** [losetup] that goes through has attached the file to the named device, or to the free one that
    the kernel gave. *)
Theorem losetup_attaches detach args tr u :
  losetup_main answer detach args [] = (tr, Ret u) ->
  detach = false /\
  ((exists dev file, args = [dev; file] /\ attached dev file [] tr) \/
   (exists file cfd n, args = [file] /\ answer (Open loop_control true) [] = inl cfd /\
      answer (Ioctl cfd LOOP_CTL_GET_FREE 0) [Open loop_control true] = inl n /\
      attached (str "/dev/loop" ++ Itoa n) file [Open loop_control true; Ioctl cfd LOOP_CTL_GET_FREE 0; Close cfd] tr)).
Proof.
  unfold losetup_main. destruct detach; intros H; [done|]. split; [done|]. M_inv H. destruct a as [dev file]. cbn [fst snd] in H.
  assert (attached dev file s tr) as Hat.
  { M_inv H. apply fatalf_inv, call_inv in Hm0 as [-> H1]. M_inv H. apply fatalf_inv, call_inv in Hm0 as [-> H2].
    M_inv H. apply fatalf_inv, call_inv in Hm0 as [-> H3]. injection H as <- _. exists a, a0. rewrite <- !app_assoc. done. }
  destruct args as [|x [|y [|]]]; [done| | |done].
  - right. M_inv Hm. injection Hm as <- <- <-. unfold findloop in Hm0. M_inv Hm0. apply fatalf_inv, call_inv in Hm as [-> H1].
    M_inv Hm0. apply fatalf_inv, call_inv in Hm as [-> H2]. M_inv Hm0. injection Hm as <- _. injection Hm0 as <- <-.
    exists x, a0, a1. done.
  - left. injection Hm as <- <- <-. by exists x, y.
Qed.
End LosetupFacts.
