(* ===== verification/Console.v ===== *)
(** * The console ([cmds/console])

    A shell on a pseudo-terminal, with the input and output of a serial port, of the keyboard
    controller, or of the program itself.  The ports answer reads and writes. *)

From Stdlib Require Import Strings.String.
From S2P Require Import Termios SysCmds Pty.
From S2P Require Export GoPath GoText Kernel.

(** ** Serial port and keyboard controller *)

Module Port.

Inductive pcall := ReadAt (port : Z) | WriteAt (b : byte) (port : Z).

Definition panswer (c : pcall) : Type := match c with ReadAt _ => byte | WriteAt _ _ => unit end.

Record device := MkDevice { data : Z; status : Z }.

Definition inRdy : Z := 1.
Definition outRdy : Z := 0x40.
Definition Inready : Z := 1.

Definition uart_status : Z := 5.
Definition i8042_dev : device := MkDevice 0x60 0x64.

Section Io.
Context (answer : forall c : pcall, list pcall -> panswer c + error).

Definition OK (u : device) (bit : Z) : M (list pcall) bool :=
  rdy ← ask answer (ReadAt (status u));
  mret (negb (Z.land (b2z rdy) bit =? 0)).

(** The loop of [io]: the buffer and how much of it was done when the loop ended, or [None] if
    it still polls after [fuel] turns.  Errors are assigned to the [err] of the block, the
    one that is returned is not changed: it is [nil]. *)
Section Loop.
Context (u : device) (bit : Z) (f : bytes -> nat -> M (list pcall) bytes).

Fixpoint io (fuel : nat) (b : bytes) (amt : nat) : M (list pcall) (option (bytes * nat)) :=
  if (amt <? length b)%nat then
    match fuel with
    | O => mret None
    | S fuel =>
        r ← result (OK u bit);
        match r with
        | inr _ => mret (Some (b, amt))
        | inl false => io fuel b amt
        | inl true =>
            r ← result (f b amt);
            match r with
            | inr _ => mret (Some (b, amt))
            | inl b => io fuel b (S amt)
            end
        end
    end
  else mret (Some (b, amt)).
End Loop.

(** [portFile.WriteAt(b[:1], u.data)] of [b[amt:]] *)
Definition write_one (u : device) (b : bytes) (amt : nat) : M (list pcall) bytes :=
  match b !! amt with
  | Some x => _ ← ask answer (WriteAt x (data u)); mret b
  | None => lift Panic
  end.

(** [portFile.ReadAt(b[:1], u.data)] *)
Definition read_one (u : device) (b : bytes) (amt : nat) : M (list pcall) bytes :=
  x ← ask answer (ReadAt (data u));
  mret (<[amt := x]> b).

Definition uart_Write (fuel : nat) (u : device) (b : bytes) : M (list pcall) (option (bytes * nat)) :=
  io u outRdy (write_one u) fuel b 0.
Definition uart_Read (fuel : nat) (u : device) (b : bytes) : M (list pcall) (option (bytes * nat)) :=
  io u inRdy (read_one u) fuel b 0.
Definition i8042_Read (fuel : nat) (u : device) (b : bytes) : M (list pcall) (option (bytes * nat)) :=
  io u Inready (read_one u) fuel b 0.
End Io.
End Port.

(** ** The program *)

Module Console.
Import Port.

(** What was set up, and the terminal and the calls of [pkg/pty]. *)
Record cstate := MkState { rootfs : bool; port_open : bool; pty_world : Pty.world }.

Inductive source := SUart (u : device) | SI8042 (u : device) | SStdio.

Section Main.
Context (answer : forall c, list Pty.ptcall -> Pty.ptanswer c + error).
Context (refuse : list ioctl -> ioctl -> option error) (driver : Termios -> Termios -> Termios).
(** The error of opening [/dev/port]. *)
Context (port_error : option error).

Definition on_pty {A} (m : M Pty.world A) : M cstate A := fun s =>
  let '(w, r) := m (pty_world s) in (MkState (rootfs s) (port_open s) w, r).

Definition Rootfs : M cstate unit := modify (fun s => MkState true (port_open s) (pty_world s)).

Definition openPort : M cstate unit := fun s =>
  match port_error with
  | Some e => (s, Fail e)
  | None => (MkState (rootfs s) true (pty_world s), Ret tt)
  end.

Definition openUART (comPort : bytes) : M cstate device :=
  match ParseUint0 comPort 16 with
  | (_, Some _) => raise (Errorf "strconv.ParseUint")
  | (port, None) => _ ← openPort; mret (MkDevice port (port + uart_status))
  end.

Definition openi8042 : M cstate device := _ ← openPort; mret i8042_dev.

(** The switch on the flag [-serial]. *)
Definition choose (serial : bytes) : M cstate source :=
  match serial with
  | [] => lift Panic
  | c :: _ =>
      if byte_eqb c x30 then u ← fatalf "Sorry, can't get a uart: %v" (openUART serial); mret (SUart u)
      else if bytes_eqb serial (str "i8042") then u ← fatalf "Sorry, can't get an i8042: %v" openi8042; mret (SI8042 u)
      else if bytes_eqb serial (str "stdio") then mret SStdio
      else raise (Errorf "console must be one of stdio, i8042, or an IO port with a leading 0 (e.g. 0x3f8)")
  end.

(** [main] up to the end of the shell; the copying runs beside [Wait]. *)
Definition console_main (serial : bytes) (setupRoot : bool) (a : list bytes) : M cstate source :=
  let a := match a with [] => [str "/ubin/rush"] | _ => a end in
  p ← fatalf "Can't open pty: %v" (on_pty (Pty.New answer refuse driver a));
  _ ← (if setupRoot then Rootfs else mret tt);
  dev ← choose serial;
  p ← fatalf "Can't start %v: %v" (on_pty (Pty.Start answer refuse driver p));
  _ ← fatalf "%v" (on_pty (Pty.Wait answer refuse driver p));
  mret dev.
End Main.

(** The copy of the input, one byte at a time: an error of [Read] is printed and the loop goes on; it
    ends when the pseudo-terminal cannot be written.  [data] is the byte that is kept.  The
    results are what is echoed and what the pseudo-terminal was given. *)
Fixpoint copy_input (data : byte) (reads : list (option byte)) (ptm_ok : nat -> bool) (i : nat) : bytes * bytes :=
  match reads with
  | [] => ([], [])
  | r :: reads =>
      let data := default data r in
      let echo := if byte_eqb data x0d then [data] else [] in
      let data := if byte_eqb data x0d then x0a else data in
      if ptm_ok i then
        let '(e, o) := copy_input data reads ptm_ok (S i) in (echo ++ e, data :: o)
      else (echo, [])
  end.
End Console.

(** ** Reading and writing a device that gets ready *)

Section PortFacts.
Import Port.
Context (answer : forall c : pcall, list pcall -> panswer c + error) (u : device) (bit : Z).

Definition poll : pcall := ReadAt (status u).
Definition is_ready (x : byte) : bool := negb (Z.land (b2z x) bit =? 0).

(** After at most [n] looks in vain the device is ready. *)
Definition ready_within (n : nat) : Prop := forall tr, exists k x, (k <= n)%nat /\
  (forall j, (j < k)%nat -> exists y, answer poll (tr ++ replicate j poll) = inl y /\ is_ready y = false) /\
  answer poll (tr ++ replicate k poll) = inl x /\ is_ready x = true.

Context (f : bytes -> nat -> M (list pcall) bytes).

Lemma OK_look tr x : answer poll tr = inl x -> OK answer u bit tr = (tr ++ [poll], Ret (is_ready x)).
Proof. intros Hx. unfold OK, mbind, M_bind, ask. fold poll. by rewrite Hx. Qed.

Lemma io_polls k : forall fuel b amt tr x, (amt < length b)%nat ->
  (forall j, (j < k)%nat -> exists y, answer poll (tr ++ replicate j poll) = inl y /\ is_ready y = false) ->
  answer poll (tr ++ replicate k poll) = inl x -> is_ready x = true ->
  io answer u bit f (k + S fuel) b amt tr =
    (r ← result (f b amt); match r with inr _ => mret (Some (b, amt)) | inl b => io answer u bit f fuel b (S amt) end) (tr ++ replicate (S k) poll).
Proof.
  induction k as [|k IH]; intros fuel b amt tr x Hamt Hno Hx Hr; cbn [io plus]; rewrite (proj2 (Nat.ltb_lt _ _) Hamt).
  - rewrite app_nil_r in Hx. unfold mbind at 1, M_bind at 1. unfold result at 1. rewrite (OK_look _ _ Hx), Hr. done.
  - destruct (Hno 0%nat) as (y & Hy & Hn); [lia|]. rewrite app_nil_r in Hy.
    unfold mbind at 1, M_bind at 1. unfold result at 1. rewrite (OK_look _ _ Hy), Hn.
    rewrite (IH fuel b amt (tr ++ [poll]) x); [|done| |by rewrite <- app_assoc|done].
    + rewrite <- app_assoc. done.
    + intros j Hj. destruct (Hno (S j)) as (z & Hz & Hnz); [lia|]. exists z. by rewrite <- app_assoc.
Qed.

(** Enough turns do the whole buffer, and what holds at every byte holds at the end. *)
Lemma io_all n (Inv : nat -> bytes -> list pcall -> Prop) :
  ready_within n ->
  (forall amt b tr, (amt < length b)%nat -> Inv amt b tr ->
     exists tr' b', f b amt tr = (tr', Ret b') /\ length b' = length b /\ Inv (S amt) b' tr') ->
  (forall amt b tr, Inv amt b tr -> Inv amt b (tr ++ [poll])) ->
  forall left fuel b amt tr, (amt + left)%nat = length b -> (left * S n <= fuel)%nat -> Inv amt b tr ->
  exists tr' b', io answer u bit f fuel b amt tr = (tr', Ret (Some (b', length b))) /\ length b' = length b /\ Inv (length b) b' tr'.
Proof.
  intros Hready Hf Hpoll. induction left as [|left IH]; intros fuel b amt tr Hl Hfuel Hinv.
  - assert ((amt <? length b)%nat = false) as E by (apply Nat.ltb_ge; lia).
    exists tr, b. rewrite <- Hl, Nat.add_0_r. split; [|done]. destruct fuel; cbn [io]; by rewrite E.
  - destruct (Hready tr) as (k & x & Hk & Hno & Hx & Hr). replace fuel with (k + S (fuel - S k))%nat by lia.
    rewrite (io_polls k _ b amt tr x) by (done || lia).
    assert (Inv amt b (tr ++ replicate (S k) poll)) as Hinv'.
    { clear -Hpoll Hinv. generalize (S k) as m. intros m. induction m as [|m IHm]; [by rewrite app_nil_r|].
      rewrite replicate_S_end, app_assoc. by apply Hpoll. }
    destruct (Hf amt b _ ltac:(lia) Hinv') as (tr' & b' & E & Hlen & Hinv2).
    unfold mbind, M_bind, result. rewrite E. rewrite <- Hlen. apply IH; [lia|lia|done].
Qed.
End PortFacts.

Section UartFacts.
Import Port.
Context (answer : forall c : pcall, list pcall -> panswer c + error) (u : device) (n : nat).

(** What was sent. *)
Definition sent (tr : list pcall) : bytes := omap (fun c => match c with WriteAt x _ => Some x | _ => None end) tr.

(** C32: if the port is ready again after at most [n] looks and takes what it is given, a write ends
    within [n + 1] turns for each byte, and the bytes were sent, all of them and in order. *)
Theorem uart_Write_sends b tr fuel :
  ready_within answer u outRdy n -> (forall x t, answer (WriteAt x (data u)) t = inl tt) ->
  (length b * S n <= fuel)%nat ->
  exists tr', uart_Write answer fuel u b tr = (tr', Ret (Some (b, length b))) /\ sent tr' = sent tr ++ b.
Proof.
  intros Hready Hw Hfuel.
  destruct (io_all answer u outRdy (write_one answer u) n (fun amt b' t => b' = b /\ sent t = sent tr ++ take amt b) Hready) with
    (left := length b) (fuel := fuel) (b := b) (amt := 0%nat) (tr := tr) as (tr' & b' & E & _ & -> & Hs); try done.
  - intros amt b' t Hamt [-> Hs]. unfold write_one. destruct (lookup_lt_is_Some_2 b amt Hamt) as [x Hx]. rewrite Hx.
    eexists _, b. unfold mbind, M_bind, ask. rewrite Hw. split; [done|]. split; [done|]. split; [done|].
    unfold sent in *. rewrite omap_app, Hs. simpl. by rewrite <- app_assoc, <- take_S_r.
  - intros amt b' t [-> Hs]. split; [done|]. unfold sent in *. rewrite omap_app, Hs. simpl. by rewrite app_nil_r.
  - split; [done|]. by rewrite app_nil_r.
  - exists tr'. split; [exact E|]. by rewrite Hs, firstn_all.
Qed.

(** A read likewise fills the buffer with bytes that the port gave. *)
Theorem uart_Read_fills b tr fuel :
  ready_within answer u inRdy n -> (forall t, exists x, answer (ReadAt (data u)) t = inl x) ->
  (length b * S n <= fuel)%nat ->
  exists tr' b', uart_Read answer fuel u b tr = (tr', Ret (Some (b', length b))) /\ length b' = length b /\
    Forall (fun x => exists t, answer (ReadAt (data u)) t = inl x) b'.
Proof.
  intros Hready Hg Hfuel.
  destruct (io_all answer u inRdy (read_one answer u) n
    (fun amt b' _ => Forall (fun x => exists t, answer (ReadAt (data u)) t = inl x) (take amt b')) Hready) with
    (left := length b) (fuel := fuel) (b := b) (amt := 0%nat) (tr := tr) as (tr' & b' & E & Hl & Hs); try done.
  - intros amt b' t Hamt Hs. unfold read_one, mbind, M_bind, ask. destruct (Hg t) as [x Hx]. rewrite Hx.
    eexists _, _. split; [done|]. rewrite length_insert. split; [done|].
    rewrite (take_S_r _ _ x) by by apply list_lookup_insert_eq. rewrite take_insert_ge by lia.
    apply Forall_app. split; [done|]. constructor; [by exists t|constructor].
  - by exists tr', b'; rewrite <- Hl, firstn_all in Hs.
Qed.

(** An error of the port is not returned: the caller sees that nothing was read, without error. *)
Theorem port_error_lost e tr b fuel :
  answer (ReadAt (status u)) tr = inr e -> b <> [] ->
  (uart_Read answer (S fuel) u b tr).2 = Ret (Some (b, 0%nat)) /\ (uart_Write answer (S fuel) u b tr).2 = Ret (Some (b, 0%nat)).
Proof.
  intros He Hb. unfold uart_Read, uart_Write. destruct b; [done|]. cbn [io length Nat.ltb Nat.leb].
  unfold mbind, M_bind, result, OK, mbind, M_bind, ask. by rewrite He.
Qed.
End UartFacts.

Module PortExamples.
Import Port.

Definition com1 : device := MkDevice 0x3f8 0x3fd.

(** A port that is ready at every other look. *)
Definition world (c : pcall) (tr : list pcall) : panswer c + error :=
  match c with
  | ReadAt p => inl (if p =? 0x3fd then if Nat.even (length tr) then x00 else x41 else x62)
  | WriteAt _ _ => inl tt
  end.

Lemma world_ready : ready_within world com1 outRdy 1.
Proof.
  intros tr. destruct (Nat.even (length tr)) eqn:E.
  - exists 1%nat, x41. split; [lia|]. split.
    + intros j Hj. assert (j = 0)%nat as -> by lia. exists x00. rewrite app_nil_r. simpl. by rewrite E.
    + simpl. rewrite length_app, Nat.add_1_r, Nat.even_succ, <- Nat.negb_even, E. done.
  - exists 0%nat, x41. rewrite app_nil_r. simpl. rewrite E. split; [lia|]. split; [lia|done].
Qed.

Lemma uart_Write_sends_witness :
  exists tr, uart_Write world 10 com1 (str "login") [] = (tr, Ret (Some (str "login", 5%nat))) /\ sent tr = str "login".
Proof.
  destruct (uart_Write_sends world com1 1 (str "login") [] 10 world_ready (fun _ _ => eq_refl) (le_n _)) as (tr & H & Hs).
  exists tr. split; [exact H|exact Hs].
Defined.
End PortExamples.

Section ConsoleFacts.
Import Port Console.

Section Restores.
Context (answer : forall c, list Pty.ptcall -> Pty.ptanswer c + error).
Context (refuse : list ioctl -> ioctl -> option error) (port_error : option error).
Hypothesis sets : forall cs t, refuse cs (TCSETS t) = None.
Abbreviation keep := (fun _ new : Termios => new).
Abbreviation tty_of s := (settings (Pty.w_tty (pty_world s))).

Lemma choose_keeps serial s : pty_world (choose port_error serial s).1 = pty_world s.
Proof.
  unfold choose, openUART, openi8042, openPort, fatalf, wrap. destruct serial as [|c serial]; [done|].
  destruct (byte_eqb c x30).
  - unfold mbind, M_bind. destruct (ParseUint0 _ _) as [port [e|]]; [done|]. by destruct port_error.
  - destruct (bytes_eqb _ _); [unfold mbind, M_bind; by destruct port_error|]. by destruct (bytes_eqb _ _).
Qed.

(** Operations that do not change the settings. *)
Definition keeps {A} (m : M Pty.world A) : Prop := forall w, settings (Pty.w_tty (m w).1) = settings (Pty.w_tty w).

Lemma keeps_bind {A B} (m : M Pty.world A) (f : A -> M Pty.world B) : keeps m -> (forall a, keeps (f a)) -> keeps (m ≫= f).
Proof.
  intros Hm Hf w. specialize (Hm w). unfold mbind, M_bind. destruct (m w) as [w1 [a|e|]]; [|exact Hm..].
  cbn [fst] in Hm. by rewrite Hf.
Qed.

Lemma keeps_call c : keeps (Pty.call answer c).
Proof. by intros w. Qed.

Lemma keeps_ret {A} (a : A) : keeps (mret a).
Proof. by intros w. Qed.

Lemma keeps_wait_for n sname : keeps (Pty.wait_for answer n sname).
Proof.
  induction n as [|n IH]; [apply keeps_ret|]. cbn [Pty.wait_for]. apply keeps_bind.
  - intros w. unfold result, Pty.call. by destruct (answer _ _).
  - intros [v|e]; [apply keeps_ret|apply IH].
Qed.

Lemma keeps_Get : keeps (Pty.on_tty (tty_Get refuse keep)).
Proof. intros w. unfold Pty.on_tty, tty_Get, mbind, M_bind, ioctl_call. by destruct (refuse _ TCGETS). Qed.

Lemma New_keeps a : keeps (Pty.New answer refuse keep a).
Proof.
  unfold Pty.New, Pty.pty_ptsunlock, Pty.pty_ptsname.
  repeat first [apply keeps_wait_for | apply keeps_Get | apply keeps_bind; [|intros ?] | apply keeps_ret | (intros ?; reflexivity)].
Qed.

(** The console leaves the settings of its terminal as they were, whatever fails. *)
Theorem console_restores serial setupRoot a s :
  tty_of (console_main answer refuse keep port_error serial setupRoot a s).1 = tty_of s.
Proof.
  unfold console_main. set (argv := match a with [] => _ | _ => a end). clearbody argv.
  unfold mbind at 1, M_bind at 1, fatalf at 1, wrap at 1, on_pty at 1.
  pose proof (New_keeps argv (pty_world s)) as E. destruct (Pty.New _ _ _ _ _) as [w [p|e|]]; [|exact E..]. cbn [fst] in E.
  unfold mbind at 1, M_bind at 1. assert (forall b : bool, ((if b then Rootfs else mret tt) : M cstate unit) (MkState (rootfs s) (port_open s) w) =
    (MkState (b || rootfs s) (port_open s) w, Ret tt)) as -> by (by intros []).
  unfold mbind at 1, M_bind at 1. pose proof (choose_keeps serial (MkState (setupRoot || rootfs s) (port_open s) w)) as Ec.
  destruct (choose _ _ _) as [s2 [dev|e|]]; cbn [fst pty_world] in *; [|by rewrite Ec..].
  rewrite <- E, <- Ec. clear E Ec. pose proof (PtyFacts.Run_restores answer refuse sets p (pty_world s2)) as E.
  unfold Pty.Run, mbind, M_bind in E. unfold mbind, M_bind, fatalf, wrap, on_pty.
  destruct (Pty.Start _ _ _ p (pty_world s2)) as [w3 [p'|e|]]; cbn [fst pty_world] in *; [|exact E..].
  destruct (Pty.Wait _ _ _ p' w3) as [w4 [v|e|]]; exact E.
Qed.
End Restores.

(** Bytes that were read go to the shell with carriage returns as new lines. *)
Theorem console_translates data (typed : bytes) i :
  copy_input data (Some <$> typed) (fun _ => true) i =
    (List.filter (fun b => byte_eqb b x0d) typed, (fun b => if byte_eqb b x0d then x0a else b) <$> typed).
Proof.
  revert data i. induction typed as [|b typed IH]; intros data i; [done|]. cbn. rewrite IH. by destruct (byte_eqb b x0d).
Qed.

(** At the end of the input the loop goes on: the last byte is sent to the shell again for every
    further read. *)
Theorem console_repeats_last data n i : data <> x0d ->
  copy_input data (replicate n None) (fun _ => true) i = ([], replicate n data).
Proof.
  intros Hd. revert i. induction n as [|n IH]; intros i; [done|]. cbn. rewrite (proj2 (byte_eqb_neq data x0d) Hd).
  by rewrite IH.
Qed.
End ConsoleFacts.

Module ConsoleExamples.
Import Console.

Lemma console_restores_witness :
  settings (Pty.w_tty (pty_world (console_main
    (fun c _ => match c return Pty.ptanswer c + error with Pty.StartCmd _ => inl 9 | Pty.IoctlPtm _ => inl 3 | Pty.WaitCmd _ => inr (Errorf "exit status 1") | _ => inl tt end)
    (fun _ _ => None) (fun _ t => t) None (str "0x3f8") true [] (MkState false false (Pty.MkWorld PtyFacts.ex_tty []))).1)) = settings PtyFacts.ex_tty.
Proof.
  apply (console_restores
    (fun c _ => match c return Pty.ptanswer c + error with Pty.StartCmd _ => inl 9 | Pty.IoctlPtm _ => inl 3 | Pty.WaitCmd _ => inr (Errorf "exit status 1") | _ => inl tt end)
    (fun _ _ => None) None (fun _ _ => eq_refl) (str "0x3f8") true [] (MkState false false (Pty.MkWorld PtyFacts.ex_tty []))).
Defined.

(** An empty [-serial] is an index out of range. *)
Example empty_serial_panics s : (choose None [] s).2 = Panic.
Proof. reflexivity. Qed.
End ConsoleExamples.
