(* ===== verification/CmdMains.v ===== *)
(** * The [main] functions of [archive], [gpt] and [ed]

    How the flags and arguments choose among the operations of [Archive.v], [Gpt.v] and [Ed.v]:
    [cmds/archive/archive.go], [cmds/gpt/gpt.go] and [cmds/ed/ed.go]. *)

From Stdlib Require Import Strings.String.
From S2P Require Archive Gpt Ed.
From S2P Require Import GoIO GoStrings.

(** ** [archive] *)

Module ArchiveMain.
Import Archive.
Section ArchiveMain.
Context (Walk : bytes -> list (bytes * (winfo + error))) (Lstat_err : bytes -> option error) (Readlink : bytes -> bytes + error).
Context (json_enc : list file -> bytes + error) (json_dec : bytes -> (list file + error) * nat) (Open : bytes -> bytes + error).
Context (sys : list acall -> acall -> option error) (file_v : file -> bytes) (err_v : error -> bytes).
Context {W : Type} `{!Writer W}.

Definition usage {S A} : M S A := raise (Errorf "Usage: archive d|e|t [args...]").

(** The state: the standard output, and the calls that extraction makes.  What [toc] prints is
    one write. *)
Definition archive_main (a : list bytes) : M (W * list acall) unit := fun '(w, tr) =>
  match a with
  | [] => usage (w, tr)
  | op :: args =>
      if bytes_eqb op (str "e") then
        let '(w, r) := encode Walk Lstat_err Readlink json_enc Open args w in ((w, tr), r)
      else if bytes_eqb op (str "t") then
        let '(w, _) := io_Write w (toc json_dec file_v err_v (Open <$> args)) in ((w, tr), Ret tt)
      else if bytes_eqb op (str "d") then
        let '(tr, r) := decode json_dec sys (Open <$> args) tr in ((w, tr), r)
      else usage (w, tr)
  end.
End ArchiveMain.

(** [archive e] with its output in a file, then [archive d] of that file: the calls of the plan for
    every entry, in order, with the contents of the files. *)
Theorem archive_e_d Walk Lstat_err Readlink json_enc json_dec Open sys file_v err_v dirs vtoc out j A
    (Open' : bytes -> bytes + error) :
  dirs <> [] -> buildVTOC Walk Lstat_err Readlink dirs = inl vtoc -> Forall (readable Open) vtoc ->
  strip_all vtoc = Ret out -> json_enc out = inl j -> zlen j < 2 ^ 28 -> json_dec j = (inl out, length j) ->
  (forall tr c, sys tr c = None) ->
  let main Open := archive_main (W := Buffer) Walk Lstat_err Readlink json_enc json_dec Open sys file_v err_v in
  forall s1 r1, main Open (str "e" :: dirs) ({| buf := [] |}, []) = (s1, r1) ->
    Open' A = inl (buf s1.1) ->
    r1 = Ret tt /\
    forall w, main Open' [str "d"; A] (w : Buffer, []) =
      ((w, concat (zip_with plan out (data Open <$> vtoc))), Ret tt).
Proof.
  intros Hd Hb Hr Ho Hj Hl Hdec Hsys main s1 r1 H1 HA.
  destruct (vtoc_roundtrip Walk Lstat_err Readlink json_enc json_dec Open sys dirs vtoc out j Hd Hb Hr Ho Hj Hl Hdec Hsys)
    as (a & He & Hdc).
  unfold main, archive_main in H1. cbn [str] in H1. change (bytes_eqb (str "e") (str "e")) with true in H1. cbv iota in H1.
  rewrite He in H1. injection H1 as <- <-. cbn [fst buf] in HA. split; [done|]. intros w. unfold main, archive_main.
  change (bytes_eqb (str "d") (str "e")) with false. change (bytes_eqb (str "d") (str "t")) with false.
  change (bytes_eqb (str "d") (str "d")) with true. cbv iota. cbn [fmap list_fmap]. by rewrite HA, Hdc.
Qed.
End ArchiveMain.

(** ** [gpt] *)

Module GptMain.
Import Gpt.

(** [json.Decode] leaves as many tables in the slice as the input has; they are indexed one after
    the other, so a second one that is missing is only noticed when the first is on the disk. *)
Definition write_tables (g : list GPT) (d : disk) : disk * outcome error unit :=
  match g with
  | [] => (d, Panic)
  | [g0] =>
      match Write (d, g0) with
      | ((d, _), Ret _) => (d, Panic)
      | ((d, _), Fail _) => (d, Fail (Errorf "Writing %v: %v"))
      | ((d, _), Panic) => (d, Panic)
      end
  | g0 :: g1 :: _ => gpt_w g0 g1 d
  end.

(** The disk afterwards, and the tables that are printed with the error of [log.Fatal]; the usage
    message ends the program. *)
Definition gpt_main (write : bool) (args : list bytes) (OpenFile : bytes -> option error)
    (Decode : list GPT + error) (d : disk) : disk * outcome error (list GPT * option error) :=
  match args with
  | [n] =>
      match OpenFile n with
      | Some e => (d, Fail e)
      | None =>
          if write then
            match Decode with
            | inr _ => (d, Fail (Errorf "Reading in JSON: %v"))
            | inl g =>
                match write_tables g d with
                | (d, Ret _) => (d, Ret ([], None))
                | (d, Fail e) => (d, Fail e)
                | (d, Panic) => (d, Panic)
                end
            end
          else (d, gpt_show d)
      end
  | _ => (d, Fail (Errorf "usage"))
  end.

(** [gpt -w] and then [gpt] show the tables that were given, with their checksums filled in. *)
Theorem gpt_write_show n OpenFile (d : disk) (g b : GPT) rest :
  OpenFile n = None ->
  gpt_ok g -> gpt_ok b -> fits d g -> fits d b -> apart g b ->
  h_CurrentLBA (Header_ g) = 1 -> EqualHeader (Header_ (seal g)) (Header_ (seal b)) = true ->
  Parts g = Parts b -> h_CRC (Header_ (seal g)) <> h_CRC (Header_ (seal b)) ->
  exists d', gpt_main true [n] OpenFile (inl (g :: b :: rest)) d = (d', Ret ([], None)) /\
    forall json, gpt_main false [n] OpenFile json d' = (d', Ret ([seal g; seal b], None)).
Proof.
  intros Hn H1 H2 H3 H4 H5 H6 H7 H8 H9. destruct (gpt_w_New d g b H1 H2 H3 H4 H5 H6 H7 H8 H9) as (d' & Hw & Hr).
  exists d'. unfold gpt_main. rewrite Hn. cbn [write_tables]. rewrite Hw. split; [done|]. intros _. unfold gpt_show. by rewrite Hr.
Qed.

(** An input with one table changes the disk before the program crashes. *)
Lemma one_table_written n OpenFile d g :
  OpenFile n = None -> gpt_ok g -> fits d g ->
  gpt_main true [n] OpenFile (inl [g]) d = (written d g, Panic).
Proof. intros Hn Hg Hf. unfold gpt_main. rewrite Hn. cbn [write_tables]. by rewrite Write_ok. Qed.
End GptMain.

(** ** [ed] *)

Module EdMain.
Import Ed.
Section EdMain.
Context {W : Type} `{Writer W} (Compile : bytes -> matcher + error) (spare : bytes).
Context (open : bytes -> bytes + error) (Error : error -> bytes).

(** [readFile]. *)
Definition readFile (n : bytes) : outcome error bytes :=
  match open n with inl b => Ret b | inr e => Fail e end.

(** The session with an editor that was made. *)
Definition session {E} `{!Editor E W} (ed : outcome error E) (lines : list bytes) (w : W) : W * outcome error status :=
  match ed with
  | Ret f => let '((_, w), r) := ed_loop open Error lines (f, w) in (w, r)
  | Fail e => (w, Fail e)
  | Panic => (w, Panic)
  end.

(** [flag.Usage] returns, so a type that is not in the table is a call of a nil function. *)
Definition ed_main (fileType : bytes) (args lines : list bytes) (w : W) : W * outcome error status :=
  let arg := match args with [n] => Some (readFile n) | _ => None end in
  if bytes_eqb fileType (str "text") then session (Editor0 := Text.text_Editor Compile) (NewTextEditor arg) lines w
  else if bytes_eqb fileType (str "bin") then session (Editor0 := Bin.bin_Editor spare) (NewBinEditor arg) lines w
  else (w, Panic).
End EdMain.

(** A type that the table does not have ends in a crash. *)
Lemma unknown_type_crashes {W} `{Writer W} Compile spare open Error t args lines (w : W) :
  t <> str "text" -> t <> str "bin" -> ed_main Compile spare open Error t args lines w = (w, Panic).
Proof. intros H1 H2. unfold ed_main, bytes_eqb. by rewrite !bool_decide_eq_false_2. Qed.

(** A session with the text editor ends in an error only when its file cannot be read; no command
    makes the program fail. *)
Lemma text_session_fails {W} `{Writer W} Compile spare open Error args lines (w w' : W) e :
  ed_main Compile spare open Error (str "text") args lines w = (w', Fail e) ->
  w' = w /\ exists n, args = [n] /\ open n = inr e.
Proof.
  unfold ed_main. change (bytes_eqb (str "text") (str "text")) with true. cbv iota. unfold session.
  assert (forall f, TextFacts.wf f -> snd (ed_loop (H := Text.text_Editor Compile) open Error lines (f, w)) <> Fail e) as Hloop.
  { intros f Hf E. pose proof (ed_loop_wf Compile open Error lines f w Hf) as Hw.
    destruct (ed_loop _ _ _ _) as [[f' w''] [|e'|]]; done. }
  assert (forall f, TextFacts.wf f ->
    (let '((_, w), r) := ed_loop (H := Text.text_Editor Compile) open Error lines (f, w) in (w, r)) <> (w', Fail e)) as Hno.
  { intros f Hf. specialize (Hloop f Hf). destruct (ed_loop _ _ _ _) as [[f' w''] r]. cbn in Hloop. congruence. }
  destruct args as [|n [|n' args]]; [by intros ?%Hno| |by intros ?%Hno].
  unfold NewTextEditor, readFile, Text.f_Read, lift, mbind, M_bind. destruct (open n) as [b|e'] eqn:Eo.
  - cbn. intros Hx. by apply Hno in Hx; [|apply (TextFacts.wf_fixLines (Text.set_data b Text.file0))].
  - intros [= <- <-]. by eauto.
Qed.
End EdMain.
