(* ===== verification/CmdLines.v ===== *)
(** * Programs with their command lines

    From the arguments of a process to the operation it runs, for programs whose operations are
    modelled with their flags as a record: the flags of [FlagTables.v] are parsed and the checks of
    the number of arguments that [main] makes come before the call.  For [dd] the conversion of its
    operands comes first. *)

From Stdlib Require Import Strings.String.
From S2P Require Dd FileCmds Cp Wc Uniq Comm Sort KernelCmds.
From S2P Require Import GoIO Fs FlagTables.
Import Tables.

(** ** [dd] *)

Module DdLine.
Import Dd.

Definition dd_settings (st : settings) (args : list bytes) : Dd.flags :=
  MkFlags (get_int st "ibs") (get_int st "obs") (get_int st "bs") (get_int st "skip") (get_int st "seek")
    (get_string st "conv") (get_int st "count") (get_string st "inName") (get_string st "outName") (get_string st "status") args.

(** The conversion is applied to the name of the program too. *)
Definition dd_parse (os_Args : list bytes) : outcome error Dd.flags :=
  match convertArgs os_Args with
  | [] => Panic
  | _ :: args => '(st, rest) ← Parse dd_flags args; Ret (dd_settings st rest)
  end.

Definition dd (bytes_ToUpper bytes_ToLower : bytes -> bytes) (os_Open : bytes -> bytes + error) (stdin : Stream)
    (os_OpenFile : bytes -> option error) (Seek : bool -> Z -> option error) (os_Args : list bytes)
  : outcome error (input * output * Z * Z * (bytes -> bytes)) :=
  f ← dd_parse os_Args; dd_main bytes_ToUpper bytes_ToLower os_Open stdin os_OpenFile Seek f.

(** An operand of [dd]. *)
Definition operand (u : decl * value) : bytes := d_name (fst u) ++ x3d :: print_value (snd u).

Lemma convert_operand n v args : x3d ∉ n -> convertArgs ((n ++ x3d :: v) :: args) = (x2d :: n) :: v :: convertArgs args.
Proof.
  intros Hn. cbn [convertArgs]. unfold SplitN. rewrite Split_app by done.
  pose proof (Split_nonempty x3d v) as Hne. destruct (Split x3d v) as [|p ps]; [done|].
  assert (drop (S (length n)) (n ++ x3d :: v) = v) as ->; [|done].
  rewrite drop_app_ge by lia. by replace (S (length n) - length n)%nat with 1%nat by lia.
Qed.

Lemma convert_plain n args : x3d ∉ n -> convertArgs (n :: args) = n :: convertArgs args.
Proof. intros Hn. cbn [convertArgs]. unfold SplitN. by rewrite Split_noin. Qed.

Lemma name_ok_equals n : name_ok n -> x3d ∉ n.
Proof. destruct n as [|c m]; [done|]. intros (_ & Hc & Hm). by apply not_elem_of_cons. Qed.

Lemma dd_flags_ok : table_ok dd_flags.
Proof. apply table_okb_ok. vm_compute. reflexivity. Qed.

Lemma dd_flags_not_bool d : d ∈ dd_flags -> is_bool (d_default d) = false.
Proof.
  intros Hd. assert (forallb (fun d => negb (is_bool (d_default d))) dd_flags = true) as H by (vm_compute; reflexivity).
  rewrite forallb_forall in H. apply list_elem_of_In in Hd. by apply negb_true_iff, H.
Qed.

(** A declared operand with a value of its kind. *)
Definition operand_ok (u : decl * value) : Prop := fst u ∈ dd_flags /\ fits (d_default (fst u)) (snd u).

Lemma convert_operands us :
  Forall operand_ok us ->
  convertArgs (operand <$> us) = concat (print_use <$> ((fun u => MkUse Apart (fst u) (snd u)) <$> us)) /\
  Forall (use_ok dd_flags) ((fun u => MkUse Apart (fst u) (snd u)) <$> us).
Proof.
  induction 1 as [|[d v] us [Hd Hf] _ [IH1 IH2]]; [done|]. rewrite !fmap_cons. cbn [fst snd] in *.
  pose proof dd_flags_ok as [_ Hk]. rewrite Forall_forall in Hk. unfold operand at 1. cbn [fst snd concat].
  rewrite convert_operand by (by apply name_ok_equals, Hk). rewrite IH1. split; [done|].
  constructor; [|done]. split_and!; [done|done|]. cbn [u_style u_value].
  pose proof (dd_flags_not_bool d Hd) as Hb. destruct (d_default d), v; done.
Qed.

(** The operands of [dd] are its flags: whatever operands are given, in any order, main sees the
    defaults with the given values in the order of the operands, also for values that begin with a
    minus sign or have an equals sign in them; there are no arguments left. *)
Theorem dd_operands prog us :
  x3d ∉ prog -> Forall operand_ok us ->
  dd_parse (prog :: (operand <$> us)) =
    Ret (dd_settings (foldl (fun st u => <[d_var (fst u) := snd u]> st)
           (foldl (fun st d => <[d_var d := d_default d]> st) ∅ dd_flags) us) []).
Proof.
  intros Hp Hu. unfold dd_parse. rewrite convert_plain by done. destruct (convert_operands us Hu) as [-> Huse].
  rewrite <- (app_nil_r (concat _)). rewrite Parse_uses by (done || apply dd_flags_ok). cbn [parse]. unfold mbind, outcome_bind.
  f_equal. f_equal. rewrite foldl_fmap. done.
Qed.

Lemma dd_operands_witness :
  dd_parse [str "dd"; str "if=-x=y"; str "bs=4"; str "count=2"] =
    Ret (MkFlags 512 512 4 0 0 (str "none") 2 (str "-x=y") [] (str "xfer") []).
Proof.
  pose proof (dd_operands (str "dd")
    [(FString "inName" "if" "", VString (str "-x=y")); (FInt "bs" "bs" 0, VInt 4); (FInt "count" "count" (2 ^ 63 - 1), VInt 2)]) as H.
  refine (eq_trans (H _ _) _).
  - apply (bool_decide_unpack _). vm_compute. exact I.
  - repeat constructor; vm_compute; try done; repeat (first [left | right]).
  - vm_compute. reflexivity.
Defined.

(** A program in a directory with an equals sign in its name ends with the usage message. *)
Example dd_equals_in_path :
  match dd_parse [str "/a=b/dd"; str "if=x"] with Ret f => f_args f = [str "b/dd"; str "-if"; str "x"] | _ => False end.
Proof. vm_compute. reflexivity. Qed.
End DdLine.

(** ** Commands on files *)

(** [flag.Parse] before an operation with a state. *)
Definition with_flags {S A} (ds : list decl) (args : list bytes) (k : settings -> list bytes -> M S A) : M S A := fun s =>
  match Parse ds args with
  | Ret (st, rest) => k st rest s
  | Fail e => (s, Fail e)
  | Panic => (s, Panic)
  end.

Module FileLines.
Import FileCmds.
Section FileLines.
Context {W : Type} `{!FS W} (err_v : error -> bytes).

Definition rm_line (args : list bytes) : M (cst W) unit :=
  with_flags rm_flags args (fun st files =>
    if (length files <? 1)%nat then raise (Errorf "rm [-Rrvi] file...")
    else rm (MkRm (get_bool st "r") (get_bool st "v") (get_bool st "i")) files).

(** Without operands the usage is printed, and [ln] goes on. *)
Definition ln_line (args : list bytes) : M (cst W) unit :=
  with_flags ln_flags args (fun st targets =>
    ln (MkConfig (get_bool st "symlink") (get_bool st "force") (get_bool st "nondir") (get_bool st "prompt")
          (get_bool st "logical") (get_bool st "physical") (get_bool st "relative") (get_string st "dirtgt")) targets).

Definition mkdir_line (args : list bytes) : M (cst W) unit :=
  with_flags mkdir_flags args (fun st names =>
    mkdir_main err_v (get_bool st "mkall") (get_bool st "verbose") (get_int st "mode") names).
End FileLines.

(** The mode of [mkdir -m] is read by [flag.Int]: without a leading zero it is decimal. *)
Lemma mkdir_mode_decimal {W} `{!FS W} err_v name :
  classify name = NotFlag ->
  mkdir_line err_v [str "-m"; str "755"; name] = mkdir_main (W := W) err_v false false 755 [name] /\ 755 <> 0x1ed.
Proof.
  intros Hn. split; [|done]. unfold mkdir_line, with_flags.
  assert (Parse mkdir_flags [str "-m"; str "755"; name] =
    Ret (<[str "mode" := VInt 755]> (<[str "verbose" := VBool false]> (<[str "mode" := VInt 0x1b6]> {[str "mkall" := VBool false]})), [name])) as ->.
  { unfold Parse. change (declare mkdir_flags [] ∅) with
      (Ret (E := error) (<[str "verbose" := VBool false]> (<[str "mode" := VInt 0x1b6]> (<[str "mkall" := VBool false]> (∅ : settings))))).
    unfold mbind, outcome_bind.
    change (parse mkdir_flags [str "-m"; str "755"; name] ?st) with (parse mkdir_flags [name] (<[str "mode" := VInt 755]> st)).
    cbn [parse]. by rewrite Hn. }
  done.
Qed.
End FileLines.

Module CpLine.
Import Cp.

(** [cp] with its flags; [init] parses them, [main] wants two arguments. *)
Definition cp_line {OS} (os : os_ops OS) (NumCPU : Z) (fuel : nat) (args : list bytes) (w : world OS)
  : option (world OS * outcome error (list error * option error)) :=
  match Parse (cp_flags NumCPU) args with
  | Ret (st, files) =>
      if (length files <? 2)%nat then Some (w, Fail (Errorf "cp [-wRrifvP] file[s] ... dest"))
      else cp os (MkCpFlags (get_bool st "recursive") (get_bool st "ask") (get_bool st "force") (get_bool st "verbose")
                    (get_bool st "symlink")) fuel files w
  | Fail e => Some (w, Fail e)
  | Panic => Some (w, Panic)
  end.
End CpLine.

(** ** Filters *)

Module FilterLines.

Definition wc_line (space_table : Z -> bool) (os_Open : bytes -> bytes + error) (stdin : bytes) (args : list bytes) : outcome error (option (bytes * bool)) :=
  '(st, files) ← Parse wc_flags args;
  Ret (Wc.wc_main space_table (Wc.MkWFlags (get_bool st "lines") (get_bool st "words") (get_bool st "runes") (get_bool st "broken") (get_bool st "chars"))
         os_Open stdin files).

Definition uniq_line (os_Open : bytes -> bytes + error) (stdin : bytes) (args : list bytes) : outcome error (option (bytes * bool)) :=
  '(st, files) ← Parse uniq_flags args;
  Ret (Uniq.uniq_main (Uniq.MkUFlags (get_bool st "uniques") (get_bool st "duplicates") (get_bool st "count")) os_Open stdin files).

Definition comm_line (os_Open : bytes -> bytes + error) (args : list bytes) : outcome error (option bytes) :=
  '(st, files) ← Parse comm_flags args;
  Comm.comm_main (Comm.MkCFlags (get_bool st "s1") (get_bool st "s2") (get_bool st "s3") (get_bool st "help")) os_Open files.

Definition sort_line (os_Open : bytes -> Sort.handle + error) (os_Create : bytes -> option error) (stdin : Sort.handle) (args : list bytes)
  : outcome error (option bytes * bytes) :=
  '(st, files) ← Parse sort_flags args;
  Sort.sort_main os_Open os_Create stdin (get_bool st "reverse") (get_string st "outputFile") files.

End FilterLines.

(** ** Booting *)

Module BootLines.
Import KernelCmds.

Definition kexec_options (st : settings) : Kexec.options :=
  Kexec.MkOptions (get_string st "cmdline") (get_bool st "reuseCmdline") (get_string st "initramfs") (get_bool st "load") (get_bool st "exec").

Definition kexec_line (answer : forall c : Kexec.xcall, list Kexec.xcall -> Kexec.xanswer c + error) (args : list bytes) : M (list Kexec.xcall) unit :=
  with_flags kexec_flags args (fun st rest => Kexec.kexec_main answer (kexec_options st) rest).

Definition vboot_config (st : settings) : Vboot.config :=
  Vboot.MkConfig (get_string st "publicKey") (get_int st "pcr") (get_string st "bootDev") (get_string st "linuxKernel")
    (get_string st "linuxKernelSignature") (get_string st "initrd") (get_string st "initrdSignature") (get_bool st "debug") (get_bool st "noTPM").

Definition vboot_line (answer : forall c : Vboot.vcall, list Vboot.vcall -> Vboot.vanswer c + error)
    (Sum256 Sum1 : bytes -> bytes) (Verify : bytes -> bytes -> bytes -> bool) (args : list bytes) : M (list Vboot.vcall) unit :=
  with_flags vboot_flags args (fun st _ => Vboot.vboot_main answer Sum256 Sum1 Verify (vboot_config st)).

Lemma kexec_flags_ok : table_ok kexec_flags.
Proof. apply table_okb_ok. vm_compute. reflexivity. Qed.

(** The command line that [vboot] gives to [kexec]. *)
Lemma kexec_of_vboot initrd kernel :
  classify kernel = NotFlag ->
  exists st, Parse kexec_flags [str "-initrd"; initrd; kernel] = Ret (st, [kernel]) /\
    kexec_options st = Kexec.MkOptions [] false initrd false false.
Proof.
  intros Hk. pose proof (Parse_uses kexec_flags [MkUse Apart (FString "initramfs" "initrd" "") (VString initrd)] [kernel] kexec_flags_ok) as H.
  cbn [fmap list_fmap concat app print_use print_flag u_style u_decl u_value print_value foldl] in H.
  change (x2d :: d_name (FString "initramfs" "initrd" "")) with (str "-initrd") in H. rewrite H.
  - cbn [parse]. rewrite Hk. eexists. split; [done|]. unfold kexec_options, apply_use. cbn [u_decl u_value].
    unfold get_string, get_bool. change (d_var (FString "initramfs" "initrd" "")) with (str "initramfs").
    rewrite (lookup_insert_eq _ (str "initramfs")). rewrite !lookup_insert_ne by (vm_compute; discriminate). vm_compute. reflexivity.
  - repeat constructor; vm_compute; try done; repeat (first [left | right]).
Qed.

(** C14: when [vboot] has started a program and that is [kexec] and has booted: before it, [vboot] had mounted the device,
    read the files, found that the key verifies the digests of the kernel and of the initial RAM disk, both with the
    signature of the kernel (the signature of the disk is read and not used), and measured both unless that is switched
    off, in this order; and [kexec] has loaded the files of these two names, with an empty command line, before it
    rebooted, if the name of the kernel does not look like a flag. *)
Theorem vboot_boots_verified answer Sum256 Sum1 Verify args tr r b argv kanswer ktr kr :
  vboot_line answer Sum256 Sum1 Verify args [] = (tr, r) -> Vboot.Exec b argv ∈ tr ->
  kexec_line kanswer (drop 1 argv) [] = (ktr, kr) -> Kexec.RebootKexec ∈ ktr ->
  exists st rest, Parse vboot_flags args = Ret (st, rest) /\ let c := vboot_config st in
    (exists files post, verified answer Sum256 Verify c files /\
       tr = boot_reads c ++ measured Sum1 c files ++ [Vboot.LookPath (str "kexec"); Vboot.Exec b argv] ++ post /\
       Forall no_exec post) /\
    (classify (Vboot.linuxKernel c) = NotFlag ->
     loaded_with kanswer (Kexec.MkOptions [] false (Vboot.initrd c) false false) (Vboot.linuxKernel c) [] ktr).
Proof.
  intros Hv Hin Hk Hb. unfold vboot_line, with_flags in Hv.
  destruct (Parse vboot_flags args) as [[st rest]|e|]; [|by injection Hv as <- _; apply elem_of_nil in Hin..].
  exists st, rest. split; [done|]. intros c.
  destruct (starts_verified answer Sum256 Sum1 Verify c tr r b argv Hv Hin) as (files & post & Hver & Hargv & Htr & Hpost).
  split; [by exists files, post|]. intros Hn. destruct (kexec_of_vboot (Vboot.initrd c) _ Hn) as (kst & Hp & Ho).
  rewrite Hargv in Hk. unfold kexec_line, with_flags in Hk. cbn [drop] in Hk. rewrite Hp, Ho in Hk.
  destruct (kexec_boots_loaded kanswer _ _ _ _ Hk Hb) as [_ Hl]. destruct (Hl eq_refl) as (kernel & rest' & line & E & Hld & Hline).
  cbn in Hline. subst line. by injection E as <- <-.
Qed.

(** The standard command lines. *)
Definition kexec_argv : list bytes := [str "kexec"; str "-initrd"; str "/mnt/vboot/initrd"; str "/mnt/vboot/kernel"].

Lemma vboot_boots_verified_witness :
  loaded_with KexecExamples.world (Kexec.MkOptions [] false (str "/mnt/vboot/initrd") false false) (str "/mnt/vboot/kernel") []
    (kexec_line KexecExamples.world (drop 1 kexec_argv) []).1.
Proof.
  destruct (vboot_boots_verified (VbootExamples.world true) id id VbootExamples.one_message [] _ _ (str "/bbin/kexec") kexec_argv
    KexecExamples.world (kexec_line KexecExamples.world (drop 1 kexec_argv) []).1 (kexec_line KexecExamples.world (drop 1 kexec_argv) []).2
    (surjective_pairing _)) as (st & rest & Hp & _ & Hl).
  - apply list_elem_of_In. vm_compute. tauto.
  - apply surjective_pairing.
  - apply list_elem_of_In. vm_compute. tauto.
  - injection Hp as <- _. apply Hl. vm_compute. reflexivity.
Defined.
End BootLines.
