(* ===== verification/ScriptTools.v ===== *)
(** * Tools of the project ([scripts/checklicenses], [scripts/build_perf])

    The search for files without licence over a tree of files, and the measurements of builds
    that are handed over channels to the writers of four tables. *)

From Stdlib Require Import Strings.String.
From stdpp Require Import relations.
From S2P Require Import Ls.
From S2P Require Export GoPath GoText.

(** ** [checklicenses] *)

Module Checklicenses.

Definition nl : bytes := [x0a].

(** The regular expression [license]: the words around a run of digits, hyphens, commas and
    spaces. *)
Definition license_begin : bytes := str "// Copyright ".
Definition license_end : bytes :=
  str " the u-root Authors. All rights reserved" ++ nl ++ str "// Use of this source code is governed by a BSD-style" ++ nl ++
  str "// license that can be found in the LICENSE file." ++ nl.

Definition year_char (c : byte) : bool := is_digit c || in_set (str "-, ") c.

Fixpoint years_then_end (s : bytes) : bool :=
  match s with
  | [] => false
  | c :: s => year_char c && (HasPrefix s license_end || years_then_end s)
  end.

Definition license (s : bytes) : bool :=
  HasPrefix s license_begin && years_then_end (drop (length license_begin) s).

(** [^s$] with [.*] in [s]: a dot does not match a newline. *)
Record rule := MkRule { MatchString : bytes -> bool; invert : bool }.

Definition one_line (s : bytes) : bool := negb (in_set s x0a).
Definition accept_suffix (suffix : bytes) : rule := MkRule (fun s => one_line s && HasSuffix s suffix) false.
Definition reject_prefix (prefix : bytes) : rule := MkRule (fun s => one_line s && HasPrefix s prefix) true.

Definition rules : list rule :=
  [accept_suffix (str ".go"); reject_prefix (str "/vendor/"); reject_prefix (str "/cmds/dhcp/"); reject_prefix (str "/cmds/ectool/");
   reject_prefix (str "/cmds/ldd/"); reject_prefix (str "/cmds/ping/"); reject_prefix (str "/netlink/")].

(** The loop over the rules: whether the file is looked at. *)
Fixpoint rules_pass (rs : list rule) (s : bytes) : bool :=
  match rs with
  | [] => true
  | r :: rs => if Bool.eqb (MatchString r s) (invert r) then false else rules_pass rs s
  end.

(** The names found, and whether the program has dereferenced a nil pointer. *)
Record found := MkFound { incorrect : list bytes; crashed : bool }.

Section Main.
(** [Open] and [ReadAll] of a file. *)
Context (read : bytes -> bytes + error) (absPath : bool) (uroot : bytes).

(** The function given to [filepath.Walk]; what is known of a file is whether it is a directory. *)
Definition check_one (path : bytes) (v : sight bool) (s : found) : found * verdict :=
  match v with
  | Missing e => (MkFound (incorrect s) true, Stop e)
  | Unread true _ | Seen true => (s, Continue)
  | Unread false _ | Seen false =>
      let trimmedPath := TrimPrefix path uroot in
      if rules_pass rules trimmedPath then
        match read path with
        | inr e => (s, Stop e)
        | inl contents =>
            if license contents then (s, Continue)
            else (MkFound (incorrect s ++ [if absPath then path else trimmedPath]) (crashed s), Continue)
        end
      else (s, Continue)
  end.

(** The names that are printed, one to a line, and the exit status. *)
Definition checklicenses_main (t : tree bool + error) : outcome error (bytes * Z) :=
  let '(s, err) := Walk check_one uroot t (MkFound [] false) in
  if crashed s then Panic
  else match err with
       | Some e => Fail e
       | None => match incorrect s with [] => Ret ([], 0) | l => Ret (GoStrings.Join nl l ++ nl, 1) end
       end.
End Main.
End Checklicenses.

Section ChecklicensesFacts.
Import Checklicenses.
Context (read : bytes -> bytes + error) (absPath : bool) (uroot : bytes).

(** The files that are looked at: Go files outside the parts of others. *)
Definition checked (path : bytes) : bool := rules_pass rules (TrimPrefix path uroot).

Lemma rules_pass_iff s : one_line s = true ->
  rules_pass rules s = true <->
  HasSuffix s (str ".go") = true /\
  Forall (fun p => HasPrefix s p = false) [str "/vendor/"; str "/cmds/dhcp/"; str "/cmds/ectool/"; str "/cmds/ldd/"; str "/cmds/ping/"; str "/netlink/"].
Proof.
  intros H1. unfold rules. cbn [rules_pass MatchString invert accept_suffix reject_prefix]. rewrite H1. cbn [andb].
  rewrite !Forall_cons, Forall_nil.
  destruct (HasSuffix s (str ".go")); cbn [Bool.eqb]; [|naive_solver].
  repeat (match goal with |- context [if Bool.eqb ?b true then _ else _] => destruct b; cbn [Bool.eqb]; [naive_solver|] end).
  naive_solver.
Qed.

(** What a visit adds to the list. *)
Definition complaint (v : bytes * sight bool) : list bytes :=
  match v with
  | (path, Seen false) =>
      if checked path && negb (match read path with inl c => license c | inr _ => true end)
      then [if absPath then path else TrimPrefix path uroot] else []
  | _ => []
  end.

(** A tree that can be read as far as it is looked at. *)
Definition readable (v : bytes * sight bool) : Prop :=
  match v with
  | (path, Seen false) => checked path = true -> exists c, read path = inl c
  | (_, Seen true) => True
  | (_, Unread d _) => d = true
  | (_, Missing _) => False
  end.

Definition complain (v : bytes * sight bool) (s : found) : found := MkFound (incorrect s ++ complaint v) (crashed s).

Lemma readable_passes v : readable v -> passes complain (check_one read absPath uroot) v.
Proof.
  unfold passes, complain, complaint. intros Hv [l c]. destruct v as [path [[]|e|[] e]]; cbn [fst snd check_one incorrect crashed readable] in *; try done.
  - by rewrite app_nil_r.
  - fold (checked path). destruct (checked path); [|by rewrite app_nil_r]. destruct (Hv eq_refl) as [t ->].
    destruct (license t); cbn [negb andb]; [by rewrite app_nil_r|done].
  - by rewrite app_nil_r.
Qed.

Lemma complaints_all vs s : visit_all complain vs s = MkFound (incorrect s ++ flat_map complaint vs) (crashed s).
Proof.
  revert s. induction vs as [|v vs IH]; intros s; [destruct s; simpl; by rewrite app_nil_r|].
  unfold visit_all in *. cbn [foldl]. rewrite IH. cbn. by rewrite <- app_assoc.
Qed.

(** On a tree whose files can be read, [checklicenses] prints exactly the files that are looked
    at and have not the licence, in the order of the tree, and fails if there is one. *)
Theorem checklicenses_reports t :
  Forall readable (visits uroot t) ->
  checklicenses_main read absPath uroot (inl t) =
    Ret (match flat_map complaint (visits uroot t) with [] => ([], 0) | l => (GoStrings.Join nl l ++ nl, 1) end).
Proof.
  intros Hr. unfold checklicenses_main, Walk.
  rewrite (walk_all complain) by (eapply Forall_impl; [exact Hr|apply readable_passes]).
  rewrite complaints_all. simpl. by destruct (flat_map complaint (visits uroot t)).
Qed.
End ChecklicensesFacts.

Module ChecklicensesExamples.
Import Checklicenses.

Definition good : bytes := license_begin ++ str "2012-2017" ++ license_end ++ str "package main".
Definition tree0 : tree bool :=
  TDir true (inl [(str "a.go", inl (TFile false)); (str "b.go", inl (TFile false)); (str "c.txt", inl (TFile false));
                  (str "vendor", inl (TDir true (inl [(str "d.go", inl (TFile false))])))]).
Definition read0 (p : bytes) : bytes + error := inl (if bytes_eqb p (str "/u/a.go") then good else str "package main").

Example license_ok : license good = true /\ license (str "package main") = false.
Proof. by vm_compute. Qed.

Lemma checklicenses_reports_witness : checklicenses_main read0 false (str "/u") (inl tree0) = Ret (str "/b.go" ++ nl, 1).
Proof.
  rewrite (checklicenses_reports read0 false (str "/u") tree0); [vm_compute; reflexivity|].
  apply Forall_forall. intros [p [[]|e|[] e]] Hin; vm_compute in Hin |- *; try done; try (intros _; eexists; reflexivity).
  - apply list_elem_of_In in Hin. simpl in Hin. repeat (destruct Hin as [Hin|Hin]; [discriminate Hin|]). contradiction.
  - apply list_elem_of_In in Hin. simpl in Hin. repeat (destruct Hin as [Hin|Hin]; [discriminate Hin|]). contradiction.
Defined.

(** A file that [Lstat] fails on is a nil pointer, and a directory that cannot be read is passed over. *)
Example vanished_file_panics :
  checklicenses_main read0 false (str "/u") (inl (TDir true (inl [(str "gone", inr (Errno 2))]))) = Panic.
Proof. by vm_compute. Qed.

Example unreadable_directory_skipped :
  checklicenses_main read0 false (str "/u") (inl (TDir true (inl [(str "cmds", inl (TDir true (inr (Errno 13))))]))) = Ret ([], 0).
Proof. by vm_compute. Qed.
End ChecklicensesExamples.

(** ** [build_perf] *)

Module BuildPerf.

(** [for i := gogcBegin; i <= gogcEnd; i += gogcStep] *)
Fixpoint range (fuel : nat) (i last step : Z) : list Z :=
  match fuel with
  | O => []
  | S fuel => if i <=? last then i :: range fuel (i + step) last step else []
  end.

Definition gogcs : list Z := range 100 50 2000 50.

(** The directories among the entries of [cmds]. *)
Definition getCmdNames (entries : list (bytes * bool) + error) : outcome error (list bytes) :=
  match entries with
  | inr e => Fail e
  | inl files => Ret (fst <$> List.filter snd files)
  end.

Section Perf.
Context {measurement : Type} (field : nat -> measurement -> bytes).
(** What [go build] of a command takes with a value of [GOGC]; an error is logged. *)
Context (buildCmd : bytes -> Z -> measurement + error).

Definition measure_cmd (gs : list Z) (cmd : bytes) : list (option measurement) :=
  (fun g => match buildCmd cmd g with inl m => Some m | inr _ => None end) <$> gs.

Definition header (gs : list Z) : list bytes := str "cmd \ gogc" :: (Itoa <$> gs).

(** The record of a row in the table [d]; [cmds[row]] may be out of range. *)
Definition record (d : nat) (cmds : list bytes) (row : nat) (ms : list (option measurement)) : outcome error (list bytes) :=
  match cmds !! row with
  | Some cmd => Ret (cmd :: ((fun m => match m with Some m => field d m | None => str "err" end) <$> ms))
  | None => Panic
  end.

(** A writer is about to create its file, waits at its channel, writes a row, or has left its
    loop. *)
Inductive wstate := Creating | Waiting | Writing (ms : list (option measurement)) | Finished.

(** [writeCsv]: the records that are in the file, those that are only in the buffer of the
    [csv.Writer], and the variable [row]. *)
Record writer := MkWriter { file : list (list bytes); buffer : list (list bytes); row : nat; w_state : wstate }.

(** [main]: the commands that are still to be measured, the rows that [measureBuilds] still has to
    send and to which channel next, the channels closed so far, waiting for the group; [log.Fatal]
    or a panic in any goroutine ends them all. *)
Inductive mstate :=
| Measuring (todo : list bytes)
| Sending (d : nat) (ms : list (option measurement)) (todo : list bytes)
| Closing (d : nat)
| Done
| Exited
| Panicked.

Definition running (m : mstate) : Prop := m <> Exited /\ m <> Panicked.

Record system := MkSystem { main : mstate; writers : list writer }.

Context (cmds : list bytes) (gs : list Z).

Definition start (n : nat) : system := MkSystem (Measuring cmds) (replicate n (MkWriter [] [] 0 Creating)).

Definition closed (s : system) (d : nat) : Prop :=
  match main s with Closing k => (d < k)%nat | Done => True | _ => False end.

(** One row: [Write] puts the record into the buffer, and [Flush] what is there into the file. *)
Definition write_row (d : nat) (w : writer) (ms : list (option measurement)) : outcome error writer :=
  match record d cmds (row w) ms with
  | Ret r => Ret (MkWriter (file w ++ buffer w ++ [r]) [] (S (row w)) Waiting)
  | Fail e => Fail e
  | Panic => Panic
  end.

(** Creating a file, and writing or flushing a row, may fail at any time. *)
Inductive step : system -> system -> Prop :=
| step_measure cmd todo ws :
    step (MkSystem (Measuring (cmd :: todo)) ws) (MkSystem (Sending 0 (measure_cmd gs cmd) todo) ws)
| step_measured ws :
    step (MkSystem (Measuring []) ws) (MkSystem (Closing 0) ws)
| step_send d ms todo ws w :
    ws !! d = Some w -> w_state w = Waiting ->
    step (MkSystem (Sending d ms todo) ws)
      (MkSystem (Sending (S d) ms todo) (<[d := MkWriter (file w) (buffer w) (row w) (Writing ms)]> ws))
| step_sent d ms todo ws :
    length ws = d -> step (MkSystem (Sending d ms todo) ws) (MkSystem (Measuring todo) ws)
| step_close d ws :
    (d < length ws)%nat -> step (MkSystem (Closing d) ws) (MkSystem (Closing (S d)) ws)
| step_wait ws :
    Forall (fun w => w_state w = Finished) ws -> step (MkSystem (Closing (length ws)) ws) (MkSystem Done ws)
| step_create m ws d w :
    running m -> ws !! d = Some w -> w_state w = Creating ->
    step (MkSystem m ws) (MkSystem m (<[d := MkWriter [] [header gs] 0 Waiting]> ws))
| step_create_fails m ws d w :
    running m -> ws !! d = Some w -> w_state w = Creating -> step (MkSystem m ws) (MkSystem Exited ws)
| step_write m ws d w ms :
    running m -> ws !! d = Some w -> w_state w = Writing ms ->
    step (MkSystem m ws)
      (match write_row d w ms with
       | Ret w => MkSystem m (<[d := w]> ws)
       | Fail _ => MkSystem Exited ws
       | Panic => MkSystem Panicked ws
       end)
| step_write_fails m ws d w ms :
    running m -> ws !! d = Some w -> w_state w = Writing ms -> step (MkSystem m ws) (MkSystem Exited ws)
| step_finish m ws d w :
    running m -> ws !! d = Some w -> w_state w = Waiting -> closed (MkSystem m ws) d ->
    step (MkSystem m ws) (MkSystem m (<[d := MkWriter (file w) (buffer w) (row w) Finished]> ws)).
End Perf.
End BuildPerf.

Section BuildPerfFacts.
Import BuildPerf.
Context {measurement : Type} (field : nat -> measurement -> bytes) (buildCmd : bytes -> Z -> measurement + error).
Context (cmds : list bytes) (gs : list Z) (n : nat).
Abbreviation pstep := (step field buildCmd cmds gs).
Abbreviation psystem := (@system measurement).

Definition perf_row (d : nat) (cmd : bytes) : list bytes :=
  cmd :: ((fun m => match m with Some m => field d m | None => str "err" end) <$> measure_cmd buildCmd gs cmd).

(** A file after its first [r] rows: the header goes out with the first of them. *)
Definition rows (d r : nat) : list (list bytes) :=
  match r with O => [] | _ => header gs :: (perf_row d <$> take r cmds) end.

Definition waiting_rows (r : nat) : list (list bytes) := match r with O => [header gs] | _ => [] end.

(** How many rows the channel [d] has carried. *)
Definition received (m : @mstate measurement) (d : nat) : nat :=
  match m with
  | Measuring todo => length cmds - length todo
  | Sending k _ todo => length cmds - length todo - (if decide (d < k)%nat then 0 else 1)
  | _ => length cmds
  end.

Definition has_rows (d r : nat) (w : @writer measurement) : Prop :=
  file w = rows d r /\ buffer w = waiting_rows r /\ row w = r.

Definition writer_ok (m : mstate) (d : nat) (w : @writer measurement) : Prop :=
  match w_state w with
  | Creating => received m d = 0%nat
  | Waiting => has_rows d (received m d) w
  | Writing ms => exists r cmd, received m d = S r /\ cmds !! r = Some cmd /\ ms = measure_cmd buildCmd gs cmd /\ has_rows d r w
  | Finished => has_rows d (length cmds) w /\ match m with Closing _ | Done => True | _ => False end
  end.

Definition main_ok (m : mstate) : Prop :=
  match m with
  | Measuring todo => (length todo <= length cmds)%nat /\ todo = drop (length cmds - length todo) cmds
  | Sending k ms todo => (length todo < length cmds)%nat /\ (k <= n)%nat /\ todo = drop (length cmds - length todo) cmds /\
      exists cmd, cmds !! (length cmds - length todo - 1)%nat = Some cmd /\ ms = measure_cmd buildCmd gs cmd
  | Closing d => (d <= n)%nat
  | Done | Exited => True
  | Panicked => False
  end.

Definition perf_inv (s : psystem) : Prop :=
  length (writers s) = n /\ main_ok (main s) /\
  (main s <> Exited -> forall d w, writers s !! d = Some w -> writer_ok (main s) d w) /\
  (main s = Done -> Forall (fun w => w_state w = Finished) (writers s)).

Lemma writer_ok_same m m' d w :
  received m' d = received m d -> (match m with Closing _ | Done => True | _ => False end -> match m' with Closing _ | Done => True | _ => False end) ->
  writer_ok m d w -> writer_ok m' d w.
Proof. intros Hr Hm. unfold writer_ok. rewrite Hr. destruct (w_state w); naive_solver. Qed.

Lemma rows_snoc d r cmd :
  cmds !! r = Some cmd -> rows d r ++ waiting_rows r ++ [perf_row d cmd] = rows d (S r).
Proof. intros Hc. unfold rows. rewrite (take_S_r _ _ cmd), fmap_app by done. by destruct r. Qed.

Lemma write_row_ok d r cmd w :
  cmds !! r = Some cmd -> has_rows d r w ->
  exists w', write_row field cmds d w (measure_cmd buildCmd gs cmd) = Ret w' /\ w_state w' = Waiting /\ has_rows d (S r) w'.
Proof.
  intros Hc (Hf & Hb & Hr). unfold write_row, record. rewrite Hr, Hc. eexists. split; [done|]. split; [done|].
  split_and!; [|done|done]. cbn [file]. rewrite Hf, Hb. by apply (rows_snoc d r cmd).
Qed.

Lemma drop_head (todo : list bytes) cmd :
  (length (cmd :: todo) <= length cmds)%nat -> cmd :: todo = drop (length cmds - length (cmd :: todo)) cmds ->
  cmds !! (length cmds - length todo - 1)%nat = Some cmd /\ todo = drop (length cmds - length todo) cmds.
Proof.
  intros Hl Hd. simpl in *. set (i := (length cmds - S (length todo))%nat) in *.
  replace (length cmds - length todo - 1)%nat with i by lia. replace (length cmds - length todo)%nat with (S i) by lia.
  split.
  - rewrite <- (Nat.add_0_r i), <- lookup_drop, <- Hd. done.
  - rewrite <- Nat.add_1_r, <- drop_drop, <- Hd. done.
Qed.

Lemma perf_start : perf_inv (start cmds n).
Proof.
  split; [apply length_replicate|]. split; [|split; [|done]].
  - simpl. rewrite Nat.sub_diag. split; [lia|done].
  - intros _ d w Hw. apply lookup_replicate in Hw as [-> _]. unfold writer_ok. simpl. by rewrite Nat.sub_diag.
Qed.

(** A step of one writer that leaves the others. *)
Lemma writers_insert m (ws : list (@writer measurement)) d w' :
  (forall e w, ws !! e = Some w -> writer_ok m e w) -> writer_ok m d w' ->
  forall e w, <[d := w']> ws !! e = Some w -> writer_ok m e w.
Proof. intros Hws Hw' e w He. apply list_lookup_insert_Some in He as [(-> & <- & _)|[_ He]]; auto. Qed.

Lemma perf_exited ws : length ws = n -> perf_inv (MkSystem Exited ws).
Proof. intros Hn. by split_and!. Qed.

(** A writer that is not finished is not waited for any more. *)
Lemma not_done (m : @mstate measurement) (ws : list (@writer measurement)) d w : (m = Done -> Forall (fun w => w_state w = Finished) ws) -> ws !! d = Some w ->
  w_state w <> Finished -> m <> Done.
Proof. intros Hd Hw Hs ->. by apply Forall_lookup_1 with (i := d) (x := w) in Hd. Qed.

Lemma perf_main_step s s' : perf_inv s -> pstep s s' -> main s <> main s' -> main s' <> Exited -> perf_inv s'.
Proof.
  intros (Hn & Hm & Hw & Hdone) Hs Hne Hex.
  destruct Hs as [cmd todo ws|ws|d ms todo ws w Hd Hst|d ms todo ws Hd|d ws Hd|ws Hall|m ws d w Hrun Hd Hst|m ws d w Hrun Hd Hst
    |m ws d w ms Hrun Hd Hst|m ws d w ms Hrun Hd Hst|m ws d w Hrun Hd Hst Hcl];
    unfold perf_inv; cbn [main writers main_ok] in *; rewrite ?length_insert; try done; first [specialize (Hw ltac:(done))|destruct Hrun as [Hr1 _]; specialize (Hw Hr1)].
  - destruct Hm as [Hl Hdr]. destruct (drop_head _ _ Hl Hdr) as [Hc Ht]. simpl in Hl.
    split; [done|]. split; [split; [lia|]; split; [lia|]; split; [done|]; by exists cmd|]. split; [|done].
    intros _ e w He. eapply writer_ok_same; [| |by apply Hw]; [|done]. simpl. destruct (decide (e < 0)%nat); lia.
  - split; [done|]. split; [lia|]. split; [|done]. intros _ e w He. eapply writer_ok_same; [| |by apply Hw]; [|done]. simpl. lia.
  - destruct Hm as (Hl & Hk & Hdr & cmd & Hc & ->). pose proof (lookup_lt_Some _ _ _ Hd).
    split; [done|]. split; [split; [done|]; split; [lia|]; split; [done|]; by exists cmd|]. split; [|done].
    intros _ e w' He. apply list_lookup_insert_Some in He as [(<- & <- & _)|[Hne' He]].
    + pose proof (Hw _ _ Hd) as Hok. unfold writer_ok in Hok |- *. rewrite Hst in Hok. simpl in Hok |- *.
      destruct (decide (d < d)%nat); [lia|]. destruct (decide (d < S d)%nat); [|lia].
      exists (length cmds - length todo - 1)%nat, cmd. split; [lia|]. done.
    + eapply writer_ok_same; [| |by apply Hw]; [|done]. simpl. destruct (decide (e < d)%nat), (decide (e < S d)%nat); lia.
  - destruct Hm as (Hl & Hk & Hdr & _). split; [done|]. split; [split; [lia|done]|]. split; [|done].
    intros _ e w He. pose proof (lookup_lt_Some _ _ _ He). eapply writer_ok_same; [| |by apply Hw]; [|done]. simpl.
    destruct (decide (e < d)%nat); lia.
  - split; [done|]. split; [lia|]. split; [|done]. intros _ e w He. eapply writer_ok_same; [| |by apply Hw]; done.
  - split; [done|]. split; [done|]. split; [|done]. intros _ e w He. eapply writer_ok_same; [| |by apply Hw]; done.
  - exfalso. pose proof (Hw _ _ Hd) as Hok. unfold writer_ok in Hok. rewrite Hst in Hok. destruct Hok as (r & cmd & Hr & Hc & -> & Ht).
    destruct (write_row_ok d r cmd w Hc Ht) as (w' & E & _). by rewrite E in Hne.
Qed.

Lemma perf_step s s' : perf_inv s -> pstep s s' -> perf_inv s'.
Proof.
  intros Hi Hs. pose proof Hi as (Hn & Hm & Hw & Hdone). pose proof (perf_main_step s s' Hi Hs) as Hmain.
  destruct Hs as [cmd todo ws|ws|d ms todo ws w Hd Hst|d ms todo ws Hd|d ws Hd|ws Hall|m ws d w Hrun Hd Hst|m ws d w Hrun Hd Hst
    |m ws d w ms Hrun Hd Hst|m ws d w ms Hrun Hd Hst|m ws d w Hrun Hd Hst Hcl]; cbn [main writers] in *;
    try (apply Hmain; [first [done|intros [=]; lia]|done]); try (by apply perf_exited); clear Hmain.
  - destruct Hrun as [Hr1 _]. specialize (Hw Hr1). unfold perf_inv. cbn [main writers]. rewrite length_insert. split; [done|]. split; [done|]. split.
    + intros _. apply writers_insert; [done|]. pose proof (Hw _ _ Hd) as Hok. unfold writer_ok in Hok |- *. rewrite Hst in Hok. cbn [w_state].
      by rewrite Hok.
    + intros ->. by destruct (not_done Done ws d w Hdone Hd); [congruence|].
  - destruct Hrun as [Hr1 _]. specialize (Hw Hr1). pose proof (Hw _ _ Hd) as Hok. unfold writer_ok in Hok. rewrite Hst in Hok.
    destruct Hok as (r & cmd & Hr & Hc & -> & Ht). destruct (write_row_ok d r cmd w Hc Ht) as (w' & -> & Hs' & Hw').
    unfold perf_inv. cbn [main writers]. rewrite length_insert. split; [done|]. split; [done|]. split.
    + intros _. apply writers_insert; [done|]. unfold writer_ok. by rewrite Hs', Hr.
    + intros ->. by destruct (not_done Done ws d w Hdone Hd); [congruence|].
  - destruct Hrun as [Hr1 _]. specialize (Hw Hr1). pose proof (Hw _ _ Hd) as Hok. unfold writer_ok in Hok. rewrite Hst in Hok.
    unfold perf_inv. cbn [main writers]. rewrite length_insert. split; [done|]. split; [done|]. split.
    + intros _. apply writers_insert; [done|]. unfold writer_ok. simpl. unfold closed in Hcl. simpl in Hcl. by destruct m.
    + intros ->. apply Forall_insert; auto.
Qed.

#[local] Instance finished_dec (w : @writer measurement) : Decision (w_state w = Finished).
Proof. destruct (w_state w); [right|right|right|left]; done. Defined.

(** As long as [main] has not ended, something can go on: nothing waits for ever. *)
Lemma perf_progress s : perf_inv s -> main s <> Done -> main s <> Exited -> exists s', pstep s s'.
Proof.
  destruct s as [m ws]. intros (Hn & Hm & Hw & _) Hne Hex. simpl in *. specialize (Hw Hex).
  assert (running m) as Hrun by (split; [done|by intros ->]).
  assert (forall d w, ws !! d = Some w -> w_state w = Waiting \/ w_state w = Finished \/ exists s', pstep (MkSystem m ws) s') as Hbusy.
  { intros d w Hd. destruct (w_state w) eqn:E; [|by left| |by right; left]; right; right; eexists; [by eapply step_create|by eapply step_write]. }
  destruct m as [[|cmd todo]|d ms todo|d| | |]; [eexists; apply step_measured|eexists; apply step_measure| | |done..].
  - destruct Hm as (Hl & Hk & _). destruct (decide (d = n)) as [->|Hd]; [eexists; by apply step_sent|].
    destruct (lookup_lt_is_Some_2 ws d) as [w Hwd]; [lia|]. destruct (Hbusy d w Hwd) as [Hst|[Hst|Hs]]; [|exfalso|done].
    + eexists. by eapply step_send.
    + pose proof (Hw d w Hwd) as Hok. unfold writer_ok in Hok. rewrite Hst in Hok. by destruct Hok.
  - simpl in Hm. destruct (decide (d = n)) as [->|Hd]; [|eexists; apply step_close; lia].
    destruct (decide (Forall (fun w => w_state w = Finished) ws)) as [Hall|Hall].
    + rewrite <- Hn. eexists. by apply step_wait.
    + apply not_Forall_Exists, Exists_exists in Hall as (w & Hin & Hst); [|apply _]. apply list_elem_of_lookup in Hin as [e He].
      destruct (Hbusy e w He) as [Hst'|[Hst'|Hs]]; [|done|done]. eexists. eapply step_finish; [done|done|done|].
      unfold closed. simpl. apply lookup_lt_Some in He. lia.
Qed.

(** What is left to do. *)
Definition writer_weight (w : @writer measurement) : nat :=
  match w_state w with Creating | Writing _ => 2 | Waiting => 1 | Finished => 0 end.

Definition main_weight (m : @mstate measurement) : nat :=
  match m with
  | Measuring todo => n + 2 + (2 * n + 2) * length todo
  | Sending d _ todo => n + 2 + (2 * n + 2) * length todo + 2 * (n - d) + 1
  | Closing d => n - d + 1
  | Done | Exited | Panicked => 0
  end.

Definition weight (s : psystem) : nat := main_weight (main s) + sum_list_with writer_weight (writers s).

Lemma sum_insert (ws : list (@writer measurement)) d w w' : ws !! d = Some w ->
  (sum_list_with writer_weight (<[d := w']> ws) + writer_weight w = sum_list_with writer_weight ws + writer_weight w')%nat.
Proof.
  revert d. induction ws as [|x ws IH]; intros [|d] Hd; simpl in *; [done|done|simplify_eq; lia|]. specialize (IH d Hd). lia.
Qed.

Lemma sum_insert_less (ws : list (@writer measurement)) d w w' : ws !! d = Some w ->
  (writer_weight w' < writer_weight w)%nat ->
  (sum_list_with writer_weight (<[d := w']> ws) < sum_list_with writer_weight ws)%nat.
Proof. intros Hd Hl. pose proof (sum_insert ws d w w' Hd). lia. Qed.

(** The end of the program leaves the writers and has no weight itself. *)
Lemma weight_ends (m m' : @mstate measurement) (ws : list (@writer measurement)) d w : running m -> (m = Done -> Forall (fun w => w_state w = Finished) ws) ->
  ws !! d = Some w -> w_state w <> Finished -> m' = Exited \/ m' = Panicked ->
  (main_weight m' + sum_list_with writer_weight ws < main_weight m + sum_list_with writer_weight ws)%nat.
Proof.
  intros [H1 H2] Hdone Hd Hst Hm'. pose proof (not_done m ws d w Hdone Hd Hst).
  destruct Hm' as [->| ->], m; simpl; (done || lia).
Qed.

Lemma weight_step s s' : perf_inv s -> pstep s s' -> (weight s' < weight s)%nat.
Proof.
  intros (Hn & Hm & Hw & Hdone) Hs. unfold weight.
  destruct Hs as [cmd todo ws|ws|d ms todo ws w Hd Hst|d ms todo ws Hd|d ws Hd|ws Hall|m ws d w Hrun Hd Hst|m ws d w Hrun Hd Hst
    |m ws d w ms Hrun Hd Hst|m ws d w ms Hrun Hd Hst|m ws d w Hrun Hd Hst Hcl];
    cbn [main writers main_weight] in *; rewrite ?length_cons; try lia.
  - pose proof (lookup_lt_Some _ _ _ Hd). pose proof (sum_insert ws d w (MkWriter (file w) (buffer w) (row w) (Writing ms)) Hd) as E.
    unfold writer_weight in E at 2 4. rewrite Hst in E. simpl in E. lia.
  - apply Nat.add_lt_mono_l, (sum_insert_less ws d w); [done|]. unfold writer_weight. rewrite Hst. simpl. lia.
  - apply (weight_ends m Exited ws d w); [done|done|done|congruence|by left].
  - destruct (write_row field cmds d w ms) as [w'|e|] eqn:E; cbn [main writers].
    + apply Nat.add_lt_mono_l, (sum_insert_less ws d w); [done|]. unfold write_row in E.
      destruct (record _ _ _ _ _); [|done..]. injection E as <-. unfold writer_weight. rewrite Hst. simpl. lia.
    + apply (weight_ends m Exited ws d w); [done|done|done|congruence|by left].
    + apply (weight_ends m Panicked ws d w); [done|done|done|congruence|by right].
  - apply (weight_ends m Exited ws d w); [done|done|done|congruence|by left].
  - apply Nat.add_lt_mono_l, (sum_insert_less ws d w); [done|]. unfold writer_weight. rewrite Hst. simpl. lia.
Qed.

Lemma perf_bounded k s s' : perf_inv s -> nsteps pstep k s s' -> perf_inv s' /\ (k + weight s' <= weight s)%nat.
Proof.
  intros Hi Hk. induction Hk as [|k s s1 s' Hs _ IH]; [split; [done|lia]|].
  pose proof (weight_step _ _ Hi Hs). destruct (IH (perf_step _ _ Hi Hs)). split; [done|lia].
Qed.

(** C26: whatever the order in which [main] and the writers of the [n] tables go on, and whichever
    creation of a file or write of a row fails: no goroutine panics, they never wait for each
    other for ever, there is a bound on the number of their steps, and the program ends at
    [log.Fatal] or with [main] at its end.  Then every file has the header and a row for every
    command, in order, or nothing at all if there is no command: the header alone is never
    flushed. *)
Theorem build_perf_completes k s :
  nsteps pstep k (start cmds n) s ->
  (k <= 3 * n + 2 + (2 * n + 2) * length cmds)%nat /\
  main s <> Panicked /\
  (main s = Done \/ main s = Exited \/ exists s', pstep s s') /\
  (main s = Done -> forall d w, writers s !! d = Some w ->
     file w = match cmds with [] => [] | _ => header gs :: (perf_row d <$> cmds) end).
Proof.
  intros Hk. destruct (perf_bounded _ _ _ perf_start Hk) as [Hi Hb]. split; [|split; [|split]].
  - unfold weight in Hb. cbn [main writers start main_weight] in Hb.
    assert (sum_list_with writer_weight (replicate n (MkWriter [] [] 0 Creating)) = 2 * n)%nat as E.
    { clear. induction n as [|j IH]; simpl in *; lia. }
    rewrite E in Hb. lia.
  - destruct Hi as (_ & Hm & _). by intros E; rewrite E in Hm.
  - destruct (main s) eqn:E; try (by left); try (by right; left); right; right; apply perf_progress; by rewrite ?E.
  - intros Hd d w Hw. destruct Hi as (_ & _ & Hok & Hfin). rewrite Hd in Hok. specialize (Hok ltac:(done) d w Hw). specialize (Hfin Hd).
    apply Forall_lookup_1 with (i := d) (x := w) in Hfin; [|done]. unfold writer_ok in Hok. rewrite Hfin in Hok.
    destruct Hok as [(-> & _) _]. unfold rows. rewrite firstn_all. by destruct cmds.
Qed.
End BuildPerfFacts.

Module BuildPerfExamples.
Import BuildPerf.

Example gogcs_range : length gogcs = 40%nat /\ head gogcs = Some 50 /\ last gogcs = Some 2000.
Proof. by vm_compute. Qed.

Definition build0 (cmd : bytes) (g : Z) : Z + error := if g =? 50 then inr (Errorf "exit status 1") else inl g.
Definition field0 (_ : nat) (m : Z) : bytes := Itoa m.

(** One table and one command, to the end. *)
Lemma one_table : exists s, nsteps (step field0 build0 [str "ls"] [50; 100]) 9 (start [str "ls"] 1) s /\ main s = Done.
Proof.
  eexists. split.
  - eapply nsteps_l; [eapply step_create with (d := 0%nat); [done|reflexivity|reflexivity]|].
    eapply nsteps_l; [apply step_measure|].
    eapply nsteps_l; [eapply step_send; reflexivity|].
    eapply nsteps_l; [eapply step_write with (d := 0%nat); [done|reflexivity|reflexivity]|].
    eapply nsteps_l; [apply step_sent; reflexivity|].
    eapply nsteps_l; [apply step_measured|].
    eapply nsteps_l; [apply step_close; simpl; lia|].
    eapply nsteps_l; [eapply step_finish with (d := 0%nat); [done|reflexivity|reflexivity|unfold closed; simpl; lia]|].
    eapply nsteps_l; [eapply (step_wait _ _ _ _ [_]); by repeat constructor|]. apply nsteps_O.
  - reflexivity.
Qed.

Lemma build_perf_completes_witness :
  exists s, nsteps (step field0 build0 [str "ls"] [50; 100]) 9 (start [str "ls"] 1) s /\ main s = Done /\
    forall w, writers s !! 0%nat = Some w ->
      file w = [[str "cmd \ gogc"; str "50"; str "100"]; [str "ls"; str "err"; str "100"]].
Proof.
  destruct one_table as (s & Hk & Hd). exists s. split; [exact Hk|]. split; [exact Hd|]. intros w Hw.
  destruct (build_perf_completes field0 build0 [str "ls"] [50; 100] 1 9 s Hk) as (_ & _ & _ & H).
  rewrite (H Hd 0%nat w Hw). vm_compute. reflexivity.
Defined.
End BuildPerfExamples.
