(* ===== verification/Tools.v ===== *)
(** * Small tools ([cmds/ping], [seq], [msr], [gpgv], [mm], [unshare], [shutdown], [uname], [pwd], [sleep], [wget], [wifi], [xinit])

    Each is a loop or a sequence of calls with its error paths.  The network, the registers,
    floating-point numbers with their text, and the packets of OpenPGP are parameters. *)

From Stdlib Require Import Strings.String.
From S2P Require Import Boot SysCmds.
From S2P Require Export GoPath GoText GoBinary Kernel.

(** ** [ping] *)

Module Ping.

Inductive icall := Dial (net host : bytes) | SetDeadline (ms : Z) | Write (msg : bytes) | Read (size : nat) | Sleep (ms : Z).

Definition ianswer (c : icall) : Type := match c with Read _ => bytes | _ => unit end.

Section Main.
Context (answer : forall c : icall, list icall -> ianswer c + error).

(** One turn of the loop, with the message left by the one before; a reply is read over it. *)
Definition ping_once (net host : bytes) (waitFor interval i : Z) (msg : bytes) : M (list icall) bytes :=
  _ ← fatalf "net.Dial(%v %v) failed: %v" (ask answer (Dial net host));
  _ ← ask_or answer (SetDeadline waitFor);
  match msg with
  | [] => lift Panic
  | _ :: rest =>
      let msg := z2b (i `mod` 256) :: rest in
      w ← ask_or answer (Write msg);
      msg ← match w with
            | inr _ => mret msg
            | inl _ =>
                _ ← ask_or answer (SetDeadline waitFor);
                r ← ask_or answer (Read (length msg));
                mret (match r with inl reply => take (length msg) reply ++ drop (length reply) msg | inr _ => msg end)
            end;
      _ ← ask_or answer (Sleep interval);
      mret msg
  end.

(** [for i = 1; *iter == 0 || i < *iter; i++]; [None] when the fuel is used up. *)
Fixpoint ping_loop (fuel : nat) (net host : bytes) (waitFor interval iter i : Z) (msg : bytes) : M (list icall) (option unit) :=
  if (iter =? 0) || (i <? iter) then
    match fuel with
    | O => mret None
    | S fuel =>
        msg ← ping_once net host waitFor interval i msg;
        ping_loop fuel net host waitFor interval iter (i + 1) msg
    end
  else mret (Some tt).

(** Without a destination the usage or the version is printed, and the program ends. *)
Definition ping_main (fuel : nat) (net6 : bool) (packetSize iter intv wtf : Z) (args : list bytes) : M (list icall) (option unit) :=
  match args with
  | [] => mret (Some tt)
  | host :: _ =>
      let netname := if net6 then str "ip6:ipv6-icmp" else str "ip4:icmp" in
      if packetSize <? 0 then lift Panic
      else ping_loop fuel netname host wtf intv iter 1 (replicate (Z.to_nat packetSize) x00)
  end.
End Main.
End Ping.

(** ** [seq] *)

Module Seq.

Section Seq.
(** Numbers: addition, order, whether one is zero; [Sscanf] with [%v] of one or two words;
    [fmt.Sprintf] of a format with a width; how many decimals the fraction of a positive step has. *)
Context {F : Type} (fadd : F -> F -> F) (fle : F -> F -> bool) (one : F) (is_zero : F -> bool).
Context (scan1 : bytes -> F + error) (scan2 : bytes -> (F * F) + error).
Context (Sprintf : bytes -> Z -> F -> bytes) (decimals : F -> option Z).

(** The loop: [None] if it has not ended after [fuel] turns; the newline is deferred. *)
Fixpoint seq_loop (fuel : nat) (format : bytes) (width : Z) (separator : bytes) (stt stp end_ : F) : option bytes :=
  if fle stt end_ then
    match fuel with
    | O => None
    | S fuel =>
        let out := Sprintf format width stt in
        let stt := fadd stt stp in
        let out := out ++ (if fle stt end_ then separator else []) in
        option_map (app out) (seq_loop fuel format width separator stt stp end_)
    end
  else Some [x0a].

Definition verb : bytes := str "%v".

(** The step of three arguments and the format for it; the step is looked at before its error. *)
Definition step_of (format : bytes) (arg : bytes) : outcome error (F * bytes) :=
  let '(stp, err) := match scan1 arg with inl s => (s, None) | inr e => (one, Some e) end in
  let format := match decimals stp with
                | Some d => if bytes_eqb format verb then str "%." ++ Itoa d ++ str "f" else format
                | None => format
                end in
  if is_zero stp then Fail (Errorf "step value should be != 0")
  else match err with Some e => Fail e | None => Ret (stp, format) end.

Definition seq (fuel : nat) (format separator : bytes) (widthEqual : bool) (args : list bytes) : outcome error (option bytes) :=
  let argc := length args in
  if (argc <? 1)%nat || (4 <? argc)%nat then Fail (Errorf "Mismatch n args; got %v, wants 1 >= n args >= 3")
  else
    match (match args with [_; step; _] => step_of format step | _ => Ret (one, format) end) with
    | Fail e => Fail e
    | Panic => Panic
    | Ret (stp, format) =>
        let bounds := match args with
                      | [e] => match scan1 e with inl v => inl (one, v) | inr e => inr e end
                      | _ => scan2 (default [] (head args) ++ str " " ++ default [] (last args))
                      end in
        match bounds with
        | inr e => Fail e
        | inl (stt, end_) =>
            let format := Replace1 format (str "%") (str "%0*") in
            let width := if widthEqual then zlen (Sprintf format 0 end_) else 0 in
            Ret (seq_loop fuel format width separator stt stp end_)
        end
    end.
End Seq.
End Seq.

(** ** [msr] *)

Module Msr.

Section Msr.
(** [OpenFile], and after it [Seek] and the transfer of eight bytes at an address, for each file. *)
Context (open : bytes -> bool -> option error) (seek : bytes -> Z -> option error).
Context (read8 : bytes -> Z -> bytes + error) (write8 : bytes -> Z -> bytes -> option error).

Definition openAll (m : list bytes) (rw : bool) : list (option error) := (fun f => open f rw) <$> m.

Definition doio {A} (f : bytes) (addr : Z) (io : A + error) : A + error :=
  match seek f addr with Some _ => inr (Errorf "Bad address %v: %v") | None => io end.

Definition rdmsr (m : list bytes) (addr : Z) : list (Z + error) :=
  zip_with (fun f err =>
    match err with
    | Some e => inr e
    | None => doio f addr (match read8 f addr with inl b => inl (le_val b) | inr e => inr e end)
    end) m (openAll m false).

Definition wrmsr (m : list bytes) (addr data : Z) : list (option error) :=
  zip_with (fun f err =>
    match err with
    | Some e => Some e
    | None => match doio f addr (match write8 f addr (le_bytes 8 data) with None => inl tt | Some e => inr e end) with
              | inl _ => None
              | inr e => Some e
              end
    end) m (openAll m true).

Inductive msr_output := Value (f : bytes) (v : Z) | Problem (f : bytes) (e : error).

(** [Glob] of the cores; the lines that are printed. *)
Definition msr_main (Glob : bytes -> list bytes + error) (a : list bytes) : outcome error (list msr_output) :=
  match a with
  | op :: cores :: reg :: rest =>
      match Glob (PathJoin [str "/dev/cpu"; cores; str "msr"]) with
      | inr _ => Fail (Errorf "No MSRs matched %v: %v")
      | inl [] => Fail (Errorf "No msrs found.")
      | inl m =>
          match ParseUint0 reg 32 with
          | (_, Some _) => Fail (Errorf "%v: %v")
          | (addr, None) =>
              if bytes_eqb op (str "r") then
                Ret (zip_with (fun f r => match r with inl v => Value f v | inr e => Problem f e end) m (rdmsr m addr))
              else if bytes_eqb op (str "w") then
                match rest with
                | [] => Fail (Errorf "usage")
                | value :: _ =>
                    match ParseUint0 value 64 with
                    | (_, Some _) => Fail (Errorf "%v: %v")
                    | (v, None) =>
                        Ret (omap (fun fe => match snd fe with Some e => Some (Problem (fst fe) e) | None => None end) (zip m (wrmsr m addr v)))
                    end
                end
              else Fail (Errorf "usage")
          end
      end
  | _ => Fail (Errorf "usage")
  end.
End Msr.
End Msr.

(** ** [gpgv] *)

Module Gpgv.

(** The first packet of a file. *)
Inductive packet := PublicKey (k : bytes) | Signature (hash : Z) (sig : bytes) | SignatureV3 (hash : Z) (sig : bytes) | OtherPacket.

Section Gpgv.
(** The reader of packets; the content, as far as [io.Copy] gets it; the state of a hash after some
    input, if the function is linked in; the verification by a key. *)
Context (Next : bytes -> packet + error) (copy : bytes -> bytes * option error).
Context (available : Z -> bool) (Sum : Z -> bytes -> bytes).
Context (VerifySignature VerifySignatureV3 : bytes -> bytes -> bytes -> option error).

Definition readPublicSigningKey (keyf : bytes) : outcome error bytes :=
  match Next keyf with
  | inr e => Fail e
  | inl (PublicKey k) => Ret k
  | inl _ => Fail (Errorf "expected first packet to be PublicKey")
  end.

Definition verdict (err : option error) : outcome error unit := match err with Some e => Fail e | None => Ret tt end.

Definition verifyDetachedSignature (key contentf sigf : bytes) : outcome error unit :=
  match Next sigf with
  | inr e => Fail e
  | inl (Signature hash sig as p) | inl (SignatureV3 hash sig as p) =>
      if available hash then
        let '(content, err) := copy contentf in
        let verify := match p with SignatureV3 _ _ => VerifySignatureV3 | _ => VerifySignature end in
        match err with
        | Some e => if bool_decide (e = EOF) then verdict (verify key (Sum hash content) sig) else Fail e
        | None => verdict (verify key (Sum hash content) sig)
        end
      else Panic
  | inl _ => Fail (Errorf "unrecognized signature")
  end.

(** [main]: the files by name; what is printed. *)
Definition gpgv_main (Open : bytes -> bytes + error) (args : list bytes) : outcome error bytes :=
  match args with
  | [k; s; c] =>
      match Open k, Open s, Open c with
      | inr e, _, _ | inl _, inr e, _ | inl _, inl _, inr e => Fail e
      | inl keyf, inl sigf, inl contentf =>
          match readPublicSigningKey keyf with
          | Fail _ => Fail (Errorf "key %v")
          | Panic => Panic
          | Ret key =>
              match verifyDetachedSignature key contentf sigf with
              | Ret _ => Ret (str "OK")
              | Fail _ => Fail (Errorf "verify: %v")
              | Panic => Panic
              end
          end
      end
  | _ => Fail (Errorf "usage: boot-verify [-v] key sig content")
  end.
End Gpgv.
End Gpgv.

(** ** [mm]: a root for containers of minimega *)

Module Mm.

Definition namespace : list Creator := [
  Boot.Dir (str "proc") 0x16d; Boot.Dir (str "sys") 0x16d; Boot.Dir (str "buildbin") 0x1ff; Boot.Dir (str "ubin") 0x1ff; Boot.Dir (str "tmp") 0x1ff;
  Boot.Dir (str "env") 0x1ff; Boot.Dir (str "etc") 0x1ff; Boot.Dir (str "tcz") 0x1ff; Boot.Dir (str "dev") 0x1ff; Boot.Dir (str "dev/pts") 0x1ff;
  Boot.Dir (str "lib") 0x1ff; Boot.Dir (str "usr/lib") 0x1ff; Boot.Dir (str "go/pkg/linux_amd64") 0x1ff; Boot.Link (str "/init") (str "init");
  Boot.Mount (str "none") (str "dev/pts") (str "devpts") MS_MGC_VAL (str "newinstance,ptmxmode=666,gid=5,mode=620");
  Boot.Symlink (str "dev/ptmx") (str "/dev/pts/ptmx")].

Definition commands (dest : bytes) : list (list bytes) :=
  [[str "minimega"; str "-e"; str "vm"; str "config"; str "filesystem"; dest];
   [str "minimega"; str "-e"; str "vm"; str "config"; str "snapshot"; str "false"];
   [str "minimega"; str "-e"; str "vm"; str "launch"; str "container"; str "uroot"];
   [str "minimega"; str "-e"; str "vm"; str "start"; str "all"]].

Section Main.
(** Refusals of the calls of [Create] and of the commands; the answers of the two [Chdir] and of
    [Mkdir]. *)
Context (refuse : list bcall -> bcall -> option error).

(** The first error ends the program. *)
Fixpoint create_until (cs : list Creator) (w : world) : world * option error :=
  match cs with
  | [] => (w, None)
  | c :: cs => match Create refuse c w with
               | (w, Some e) => (w, Some e)
               | (w, None) => create_until cs w
               end
  end.

Fixpoint run_until (cmds : list (list bytes)) (w : world) : world * option error :=
  match cmds with
  | [] => (w, None)
  | c :: cmds => match sys refuse (BRun c [] false false) w with
                 | (w, Some e) => (w, Some e)
                 | (w, None) => run_until cmds w
                 end
  end.

Definition mm_main (dest : bytes) (chdir1 mkdir chdir2 : option error) (w : world) : world * option error :=
  let '(w, r) := match chdir1 with
                 | None => (w, None)
                 | Some _ => match mkdir, chdir2 with
                             | Some e, _ | None, Some e => (w, Some e)
                             | None, None => create_until namespace w
                             end
                 end in
  match r with Some e => (w, Some e) | None => run_until (commands dest) w end.
End Main.
End Mm.

(** ** [unshare], [shutdown], [uname], [pwd], [sleep], [wget] *)

Module Info.

Record spaces := MkSpaces { ipc : bool; mount : bool; pid : bool; net : bool; uts : bool; user : bool }.

Definition CLONE_NEWNS : Z := 0x20000.
Definition CLONE_NEWUTS : Z := 0x4000000.
Definition CLONE_NEWIPC : Z := 0x8000000.
Definition CLONE_NEWUSER : Z := 0x10000000.
Definition CLONE_NEWPID : Z := 0x20000000.
Definition CLONE_NEWNET : Z := 0x40000000.

Definition or_if (b : bool) (flag flags : Z) : Z := if b then Z.lor flags flag else flags.

(** The command that is run and its flags; an error of the command is only logged. *)
Definition unshare (s : spaces) (a : list bytes) : list bytes * Z :=
  (match a with [] => [str "/ubin/rush"; str "rush"] | _ => a end,
   or_if (user s) CLONE_NEWUSER (or_if (pid s) CLONE_NEWPID (or_if (net s) CLONE_NEWNET
     (or_if (ipc s) CLONE_NEWIPC (or_if (uts s) CLONE_NEWUTS (or_if (mount s) CLONE_NEWNS 0)))))).

Definition opcodes : list (bytes * Z) :=
  [(str "halt", 0x4321fedc); (str "reboot", 0x1234567); (str "suspend", 0xd000fce2)].

(** The argument of [reboot(2)], if it is called. *)
Definition shutdown (dryrun : bool) (args : list bytes) : outcome error (option Z) :=
  match (match args with [] => Some (str "reboot") | [op] => Some op | _ => None end) with
  | None => Fail (Errorf "shutdown [-dryrun] [halt|reboot|suspend] (defaults to reboot)")
  | Some op => match find (fun p => bytes_eqb (fst p) op) opcodes with
               | None => Fail (Errorf "shutdown [-dryrun] [halt|reboot|suspend] (defaults to reboot)")
               | Some (_, f) => Ret (if dryrun then None else Some f)
               end
  end.

Record Utsname := MkUts { Sysname : bytes; Nodename : bytes; Release : bytes; Version : bytes; Machine : bytes; Domainname : bytes }.
Record uname_flags := MkUnameFlags { all : bool; kernel : bool; node : bool; release : bool; version : bool; machine : bool; domain : bool }.

(** [NFlag] is the number of flags given, also as [-s=false]. *)
Definition handleFlags (f : uname_flags) (NFlag : nat) (u : Utsname) : bytes :=
  let put (b : bool) (s : bytes) := if b then [s] else [] in
  GoStrings.Join (str " ")
    (if all f || (NFlag =? 0)%nat then [Sysname u; Nodename u; Release u; Version u; Machine u; Domainname u]
     else put (kernel f) (Sysname u) ++ put (node f) (Nodename u) ++ put (release f) (Release u) ++
          put (version f) (Version u) ++ put (machine f) (Machine u) ++ put (domain f) (Domainname u)).

(** The loop of [main] over the arguments, after the flags were parsed. *)
Fixpoint pwd_physical (args : list bytes) (physical : bool) : bool :=
  match args with
  | [] => physical
  | a :: args => pwd_physical args (if bytes_eqb a (str "-L") then false else if bytes_eqb a (str "-P") then true else physical)
  end.

Definition pwd (Getwd : bytes + error) (EvalSymlinks : bytes -> bytes + error) (args : list bytes) (physical : bool) : bytes + error :=
  match Getwd with
  | inr e => inr e
  | inl path => if pwd_physical args physical then EvalSymlinks path else inl path
  end.

(** [time.ParseDuration], in nanoseconds, is a parameter. *)
Definition parseDuration (ParseDuration : bytes -> Z + error) (s : bytes) : Z + error :=
  let r := match ParseDuration s with inl d => inl d | inr _ => ParseDuration (s ++ str "s") end in
  match r with
  | inl d => if d <? 0 then inr (Errorf "invalid duration") else inl d
  | inr _ => inr (Errorf "invalid duration")
  end.

(** [http.Get]: status and body, the body with the error that ends it. *)
Definition wget (Get : bytes -> (Z * bytes * option error) + error) (arg : bytes) : bytes * option error :=
  match Get arg with
  | inr e => ([], Some e)
  | inl (status, body, err) => if negb (status =? 200) then ([], Some (Errorf "non-200 HTTP status: %d")) else (body, err)
  end.
End Info.

(** ** [wifi] and [xinit] *)

Module Startup.

Inductive scall :=
| Output (argv : list bytes)
| WriteFile (name data : bytes) (perm : Z)
| Background (argv : list bytes)
| Run (argv env : list bytes)
| Symlink (old new : bytes)
| Glob (pattern : bytes)
| Sleep.

Definition sanswer (c : scall) : Type :=
  match c with Output _ => bytes | Glob _ => list bytes | _ => unit end.

Section Main.
Context (answer : forall c : scall, list scall -> sanswer c + error).
Abbreviation call := (ask answer).

Definition background (argv : list bytes) : M (list scall) unit := _ ← ask_or answer (Background argv); mret tt.

Definition conf_file : bytes := str "/tmp/wifi.conf".

Definition wifi_main (iface : bytes) (a : list bytes) : M (list scall) unit :=
  match a with
  | [essid; pass] =>
      conf ← fatalf "%v %v: %v" (call (Output [str "wpa_passphrase"; essid; pass]));
      _ ← fatalf "/tmp/wifi.conf: %v" (call (WriteFile conf_file conf 0x124));
      _ ← background [str "wpa_supplicant"; str "-i" ++ iface; str "-c/tmp/wifi.conf"];
      fatalf "%v: %v" (call (Run [str "dhclient"; str "-ipv4=true"; str "-ipv6=false"; str "-verbose"; iface] []))
  | _ => raise (Errorf "usage")
  end.

Definition display : bytes := str "DISPLAY=:0".

(** The loop until a display is there; [None] when the fuel is used up. *)
Fixpoint wait_display (fuel : nat) : M (list scall) (option unit) :=
  s ← call (Glob (str "/tmp/.X*/X?"));
  match s with
  | _ :: _ => mret (Some tt)
  | [] => match fuel with
          | O => mret None
          | S fuel => _ ← ask_or answer Sleep; wait_display fuel
          end
  end.

Definition x_programs : list (list bytes) := [[str "wingo"]; [str "flwm"]; [str "midori"]; [str "opera-12"]].

Definition xinit_main (fuel : nat) : M (list scall) unit :=
  _ ← call (Symlink (str "/usr/local/bin/bash") (str "/bin/bash"));
  _ ← call (Symlink (str "/lib/ld-linux-x86-64.so.2") (str "/lib64/ld-linux-x86-64.so.2"));
  _ ← background [str "Xfbdev"];
  r ← wait_display fuel;
  match r with
  | None => mret tt
  | Some _ =>
      _ ← each background x_programs;
      wrap (fun _ => Errorf "X11 start %v %v: %v") (call (Run [str "aterm"] [display]))
  end.
End Main.
End Startup.

(** ** Facts *)

Section PingFacts.
Import Ping.
Context (answer : forall c : icall, list icall -> ianswer c + error).

Definition dials (tr : list icall) : nat := length (List.filter (fun c => match c with Dial _ _ => true | _ => false end) tr).

(** The numbers of the messages. *)
Definition numbers (tr : list icall) : bytes := omap (fun c => match c with Write (b :: _) => Some b | _ => None end) tr.

Lemma dials_snoc t c : dials (t ++ [c]) = (dials t + match c with Dial _ _ => 1 | _ => 0 end)%nat.
Proof. unfold dials. rewrite List.filter_app, length_app. by destruct c. Qed.

Lemma numbers_snoc t c : numbers (t ++ [c]) = numbers t ++ match c with Write (b :: _) => [b] | _ => [] end.
Proof. unfold numbers. rewrite omap_app. by destruct c as [| |[]| |]. Qed.

Lemma ping_once_spec net host wt iv i msg tr :
  msg <> [] -> (forall t, answer (Dial net host) t = inl tt) ->
  exists tr' msg', ping_once answer net host wt iv i msg tr = (tr', Ret msg') /\ msg' <> [] /\ length msg' = length msg /\
    dials tr' = S (dials tr) /\ numbers tr' = numbers tr ++ [z2b (i `mod` 256)].
Proof.
  intros Hm Hd. destruct msg as [|b rest]; [done|]. unfold ping_once, fatalf, wrap, mbind, M_bind, ask, ask_or, mret, M_ret.
  rewrite Hd. destruct (answer (Write _) _) as [u|e].
  - destruct (answer (Read _) _) as [reply|e].
    + eexists _, _. split; [done|]. set (m := take _ _ ++ drop _ _).
      assert (length m = length (b :: rest)) as Hl.
      { unfold m. rewrite length_app, length_take, length_drop. rewrite !length_cons. lia. }
      split; [destruct m; [simpl in Hl; lia|done]|]. split; [done|]. rewrite !dials_snoc, !numbers_snoc, ?app_nil_r. split; [lia|done].
    + eexists _, _. split; [done|]. split; [done|]. split; [done|]. rewrite !dials_snoc, !numbers_snoc, ?app_nil_r. split; [lia|done].
  - eexists _, _. split; [done|]. split; [done|]. split; [done|]. rewrite !dials_snoc, !numbers_snoc, ?app_nil_r. split; [lia|done].
Qed.

Lemma ping_loop_spec net host wt iv iter k : forall fuel i msg tr,
  msg <> [] -> (forall t, answer (Dial net host) t = inl tt) -> iter <> 0 -> Z.of_nat k = Z.max 0 (iter - i) -> (k <= fuel)%nat ->
  exists tr', ping_loop answer fuel net host wt iv iter i msg tr = (tr', Ret (Some tt)) /\ dials tr' = (dials tr + k)%nat.
Proof.
  induction k as [|k IH]; intros fuel i msg tr Hm Hd Hi Hk Hf.
  - exists tr. rewrite Nat.add_0_r. split; [|done]. destruct fuel; cbn [ping_loop];
      rewrite (proj2 (Z.eqb_neq iter 0) Hi), (proj2 (Z.ltb_ge i iter)) by lia; done.
  - destruct fuel as [|fuel]; [lia|]. cbn [ping_loop]. rewrite (proj2 (Z.ltb_lt i iter)), orb_true_r by lia.
    destruct (ping_once_spec net host wt iv i msg tr Hm Hd) as (tr1 & msg1 & E & Hm1 & _ & Hd1 & _).
    rewrite (M_bind_Ret _ _ _ _ _ E). destruct (IH fuel (i + 1) msg1 tr1) as (tr2 & E2 & Hd2); [done|done|done|lia|lia|].
    exists tr2. split; [done|]. lia.
Qed.

(** With a number of iterations and a host that can be reached [ping] ends, after one
    connection less than it was asked for. *)
Theorem ping_counts host rest packetSize iter intv wtf net6 fuel :
  0 < packetSize -> 0 < iter -> iter <= Z.of_nat fuel -> (forall n h t, answer (Dial n h) t = inl tt) ->
  exists tr, ping_main answer fuel net6 packetSize iter intv wtf (host :: rest) [] = (tr, Ret (Some tt)) /\ Z.of_nat (dials tr) = iter - 1.
Proof.
  intros Hp Hi Hf Hd. unfold ping_main. rewrite (proj2 (Z.ltb_ge packetSize 0)) by lia.
  destruct (ping_loop_spec (if net6 then str "ip6:ipv6-icmp" else str "ip4:icmp") host wtf intv iter (Z.to_nat (iter - 1)) fuel 1
    (replicate (Z.to_nat packetSize) x00) []) as (tr & E & Hn); [|done|lia|lia|lia|].
  - destruct (Z.to_nat packetSize) eqn:E; [lia|done].
  - exists tr. split; [exact E|]. rewrite Hn. simpl. lia.
Qed.

(** Without a number it never ends. *)
Theorem ping_forever fuel net host wt iv i msg tr :
  msg <> [] -> (forall t, answer (Dial net host) t = inl tt) -> (ping_loop answer fuel net host wt iv 0 i msg tr).2 = Ret None.
Proof.
  revert i msg tr. induction fuel as [|fuel IH]; intros i msg tr Hm Hd; [done|]. cbn [ping_loop].
  rewrite Z.eqb_refl. cbn [orb]. destruct (ping_once_spec net host wt iv i msg tr Hm Hd) as (tr1 & msg1 & E & Hm1 & _).
  rewrite (M_bind_Ret _ _ _ _ _ E). by apply IH.
Qed.
End PingFacts.

Module PingExamples.
Import Ping.
Definition world (c : icall) (_ : list icall) : ianswer c + error :=
  match c with Read _ => inl [x45; x00; x99] | _ => inl tt end.

Lemma ping_counts_witness :
  exists tr, ping_main world 4 false 4 4 1000 100 [str "10.0.2.2"] [] = (tr, Ret (Some tt)) /\ Z.of_nat (dials tr) = 3.
Proof. apply (ping_counts world (str "10.0.2.2") [] 4 4 1000 100 false 4); try lia. reflexivity. Defined.

(** What was read is sent again as the data of the next message. *)
Example reply_sent_again :
  List.filter (fun c => match c with Write _ => true | _ => false end) (ping_main world 4 false 4 3 1000 100 [str "10.0.2.2"] []).1 =
  [Write [x01; x00; x00; x00]; Write [x02; x00; x99; x00]].
Proof. by vm_compute. Qed.

(** Messages without data are an index out of range. *)
Example empty_packet_panics : (ping_main world 4 false 0 3 1000 100 [str "10.0.2.2"] []).2 = Panic.
Proof. by vm_compute. Qed.
End PingExamples.

Section SeqFacts.
Import Seq.
Context {F : Type} (fadd : F -> F -> F) (fle : F -> F -> bool) (Sprintf : bytes -> Z -> F -> bytes).
Context (format separator : bytes) (width : Z) (stp end_ : F).
Abbreviation loop := (fun fuel stt => seq_loop fadd fle Sprintf fuel format width separator stt stp end_).

(** The numbers from [stt] on. *)
Fixpoint terms (n : nat) (stt : F) : list F :=
  match n with O => [] | S n => stt :: terms n (fadd stt stp) end.

Fixpoint term (n : nat) (stt : F) : F :=
  match n with O => stt | S n => term n (fadd stt stp) end.

(** If the first [n] numbers are not beyond the end and the next one is, [seq] prints just
    them, with the separator between two of them and a newline at the end. *)
Theorem seq_prints n fuel stt :
  (forall k, (k < n)%nat -> fle (term k stt) end_ = true) -> fle (term n stt) end_ = false -> (n <= fuel)%nat ->
  loop fuel stt = Some (GoStrings.Join separator (Sprintf format width <$> terms n stt) ++ [x0a]).
Proof.
  revert fuel stt. induction n as [|n IH]; intros fuel stt Hin Hout Hf.
  - change (term 0 stt) with stt in Hout. destruct fuel; cbn [seq_loop]; by rewrite Hout.
  - destruct fuel as [|fuel]; [lia|]. cbn [seq_loop]. pose proof (Hin 0%nat ltac:(lia)) as H0. change (term 0 stt) with stt in H0.
    rewrite H0. cbn [term] in Hout. rewrite IH; [|intros k Hk; apply (Hin (S k)); lia|done|lia].
    cbn [option_map terms fmap list_fmap]. f_equal. destruct n as [|n].
    + change (term 0 (fadd stt stp)) with (fadd stt stp) in Hout. rewrite Hout. simpl. by rewrite !app_nil_r.
    + pose proof (Hin 1%nat ltac:(lia)) as H1. change (term 1 stt) with (fadd stt stp) in H1. rewrite H1.
      rewrite (GoStrings.Join_cons _ _ (_ <$> terms (S n) _)) by done. by rewrite <- !app_assoc.
Qed.

(** A step that leads no nearer to the end, such as a negative one, prints for ever. *)
Theorem seq_never_ends fuel stt :
  (forall x, fle x end_ = true -> fle (fadd x stp) end_ = true) -> fle stt end_ = true -> loop fuel stt = None.
Proof.
  intros Hs. revert stt. induction fuel as [|fuel IH]; intros stt H0; cbn [seq_loop]; rewrite H0; [done|].
  by rewrite IH by by apply Hs.
Qed.
End SeqFacts.

Module SeqExamples.
Import Seq.

(** Whole numbers. *)
Definition show (_ : bytes) (_ : Z) (z : Z) : bytes := Itoa z.
Definition scan1 (s : bytes) : Z + error := match Atoi s with (z, None) => inl z | _ => inr (Errorf "expected integer") end.
Definition scan2 (s : bytes) : (Z * Z) + error :=
  match Fields s with
  | [a; b] => match scan1 a, scan1 b with inl x, inl y => inl (x, y) | inr e, _ | _, inr e => inr e end
  | _ => inr (Errorf "unexpected EOF")
  end.
Definition seq_Z (args : list bytes) : outcome error (option bytes) :=
  seq Z.add Z.leb 1 (Z.eqb 0) scan1 scan2 show (fun _ => None) 100 verb (str " ") false args.

Example seq_3_2_7 : seq_Z [str "3"; str "2"; str "7"] = Ret (Some (str "3 5 7" ++ [x0a])).
Proof. by vm_compute. Qed.

(** A fourth argument is accepted: the two in the middle are not looked at. *)
Example seq_four : seq_Z [str "3"; str "x"; str "y"; str "5"] = Ret (Some (str "3 4 5" ++ [x0a])).
Proof. by vm_compute. Qed.

Lemma seq_prints_witness : seq_loop Z.add Z.leb show 3 verb 0 (str " ") 3 2 7 = Some (str "3 5 7" ++ [x0a]).
Proof.
  rewrite (seq_prints Z.add Z.leb show verb (str " ") 0 2 7 3 3 3); [reflexivity| |reflexivity|lia].
  intros [|[|[|k]]] Hk; [reflexivity..|lia].
Defined.

Lemma seq_never_ends_witness : seq_loop Z.add Z.leb show 1000 verb 0 (str " ") 3 (-2) 7 = None.
Proof. apply (seq_never_ends Z.add Z.leb show verb (str " ") 0 (-2) 7); [|reflexivity]. intros x Hx. apply Z.leb_le in Hx. apply Z.leb_le. lia. Defined.
End SeqExamples.

Section GpgvFacts.
Import Gpgv.
Context (Next : bytes -> packet + error) (copy : bytes -> bytes * option error).
Context (available : Z -> bool) (Sum : Z -> bytes -> bytes).
Context (VerifySignature VerifySignatureV3 : bytes -> bytes -> bytes -> option error).
Context (Open : bytes -> bytes + error).

(** [gpgv] says OK only if the first packet of the key file is a public key, that of the
    signature file a signature, and the key verifies it over the digest of the whole content. *)
Theorem gpgv_ok_verified args out :
  gpgv_main Next copy available Sum VerifySignature VerifySignatureV3 Open args = Ret out ->
  out = str "OK" /\ exists kf sf cf keyf sigf contentf key hash sig content err,
    args = [kf; sf; cf] /\ Open kf = inl keyf /\ Open sf = inl sigf /\ Open cf = inl contentf /\
    Next keyf = inl (PublicKey key) /\ copy contentf = (content, err) /\ (err = None \/ err = Some EOF) /\
    ((Next sigf = inl (Signature hash sig) /\ VerifySignature key (Sum hash content) sig = None) \/
     (Next sigf = inl (SignatureV3 hash sig) /\ VerifySignatureV3 key (Sum hash content) sig = None)).
Proof.
  unfold gpgv_main. destruct args as [|kf [|sf [|cf [|]]]]; try done.
  destruct (Open kf) as [keyf|] eqn:Ek; [|done]. destruct (Open sf) as [sigf|] eqn:Es; [|done]. destruct (Open cf) as [contentf|] eqn:Ec; [|done].
  unfold readPublicSigningKey. destruct (Next keyf) as [[key| | |]|] eqn:En; try done.
  unfold verifyDetachedSignature. destruct (copy contentf) as [content err] eqn:Ep.
  assert (forall v : outcome error unit, match err with Some e => if bool_decide (e = EOF) then v else Fail e | None => v end = Ret tt ->
    v = Ret tt /\ (err = None \/ err = Some EOF)) as Hcopy.
  { intros v. destruct err as [e|]; [|by auto]. destruct (bool_decide (e = EOF)) eqn:Eb; [|done]. apply bool_decide_eq_true in Eb as ->. auto. }
  destruct (Next sigf) as [[|hash sig|hash sig|]|] eqn:Eg; try done; (destruct (available hash); [|done]); cbv zeta;
    (match goal with |- context [match ?m with Ret _ => Ret (str "OK") | _ => _ end] => destruct m as [[]| |] eqn:Em end; [|done..]);
    intros H; injection H as <-; (split; [done|]); apply Hcopy in Em as [Em Herr]; unfold verdict in Em.
  - destruct (VerifySignature key (Sum hash content) sig) eqn:Ev; [done|].
    exists kf, sf, cf, keyf, sigf, contentf, key, hash, sig, content, err. split_and!; auto.
  - destruct (VerifySignatureV3 key (Sum hash content) sig) eqn:Ev; [done|].
    exists kf, sf, cf, keyf, sigf, contentf, key, hash, sig, content, err. split_and!; auto.
Qed.
End GpgvFacts.

Section OtherFacts.
Import Info.

Lemma or_if_bit b k flags i : 0 <= k -> Z.testbit (or_if b (2 ^ k) flags) i = Z.testbit flags i || (b && (k =? i)).
Proof.
  intros Hk. unfold or_if. destruct b; cbn [andb]; [|by rewrite orb_false_r]. by rewrite Z.lor_spec, Z.pow2_bits_eqb.
Qed.

(** Every name space that was asked for, and no other, is unshared. *)
Theorem unshare_flags s a i :
  Z.testbit (snd (unshare s a)) i =
    (mount s && (17 =? i)) || (uts s && (26 =? i)) || (ipc s && (27 =? i)) || (net s && (30 =? i)) || (pid s && (29 =? i)) || (user s && (28 =? i)).
Proof.
  unfold unshare. cbn [snd]. change CLONE_NEWUSER with (2 ^ 28). change CLONE_NEWPID with (2 ^ 29). change CLONE_NEWNET with (2 ^ 30).
  change CLONE_NEWIPC with (2 ^ 27). change CLONE_NEWUTS with (2 ^ 26). change CLONE_NEWNS with (2 ^ 17).
  rewrite !or_if_bit, Z.testbit_0_l by lia. done.
Qed.

(** The machine is only stopped by a known operation, and never in a dry run. *)
Theorem shutdown_calls dryrun args f :
  shutdown dryrun args = Ret (Some f) ->
  dryrun = false /\ exists op, (args = [] /\ op = str "reboot" \/ args = [op]) /\ (op, f) ∈ opcodes.
Proof.
  unfold shutdown. destruct (match args with [] => _ | _ => _ end) as [op|] eqn:Ea; [|done].
  destruct (find _ opcodes) as [[name g]|] eqn:Ef; [|done]. destruct dryrun; [done|]. intros H. injection H as ->. split; [done|].
  apply find_some in Ef as [Hin Hn]. apply bytes_eqb_eq in Hn. simpl in Hn. subst name. exists op. split.
  - destruct args as [|x [|]]; simplify_eq; auto.
  - by apply list_elem_of_In.
Qed.

(** The last of [-L] and [-P] counts. *)
Theorem pwd_last_wins args rest p :
  Forall (fun a => a <> str "-L" /\ a <> str "-P") rest ->
  pwd_physical (args ++ str "-P" :: rest) p = true /\ pwd_physical (args ++ str "-L" :: rest) p = false.
Proof.
  intros Hr. assert (forall q, pwd_physical rest q = q) as Hrest.
  { induction Hr as [|a rest [H1 H2] Hr IH]; intros q; [done|]. cbn [pwd_physical]. by rewrite !bytes_eqb_neq, IH. }
  revert p. induction args as [|a args IH]; intros p; [|apply IH]. cbn [app pwd_physical]. rewrite !bytes_eqb_refl.
  rewrite (bytes_eqb_neq (str "-P") (str "-L")) by done. by rewrite !Hrest.
Qed.

(** A time to sleep is never negative, and a number without unit is in seconds. *)
Theorem parseDuration_ok ParseDuration s :
  match parseDuration ParseDuration s with
  | inl d => 0 <= d /\ (ParseDuration s = inl d \/ (exists e, ParseDuration s = inr e) /\ ParseDuration (s ++ str "s") = inl d)
  | inr e => e = Errorf "invalid duration"
  end.
Proof.
  unfold parseDuration. destruct (ParseDuration s) as [d|e] eqn:E1.
  - destruct (Z.ltb_spec d 0); [done|]. auto.
  - destruct (ParseDuration (s ++ str "s")) as [d|e'] eqn:E2; [|done]. destruct (Z.ltb_spec d 0); [done|]. eauto.
Qed.
End OtherFacts.

Section MmFacts.
Import Mm.
Context (refuse : list bcall -> bcall -> option error).

Lemma create_until_log cs w w' : create_until refuse cs w = (w', None) -> log w' = log w ++ concat (calls_of <$> cs).
Proof.
  revert w. induction cs as [|c cs IH]; intros w H; cbn [create_until] in H.
  - injection H as <-. by rewrite app_nil_r.
  - pose proof (Create_log refuse c w) as Hl. destruct (Create refuse c w) as [w1 [e|]]; [done|]. apply IH in H. simpl in Hl.
    rewrite H, Hl, fmap_cons. cbn [concat]. by rewrite <- app_assoc.
Qed.

Lemma run_until_log cmds w w' : run_until refuse cmds w = (w', None) -> log w' = log w ++ ((fun c => BRun c [] false false) <$> cmds).
Proof.
  revert w. induction cmds as [|c cmds IH]; intros w H; cbn [run_until] in H.
  - injection H as <-. by rewrite app_nil_r.
  - unfold sys in H. destruct (refuse _ _); [done|]. apply IH in H. simpl in H. by rewrite H, <- app_assoc.
Qed.

(** [mm] that goes through has made the whole root, or found it, before it ran the four commands. *)
Theorem mm_builds dest chdir1 mkdir chdir2 w w' :
  mm_main refuse dest chdir1 mkdir chdir2 w = (w', None) ->
  log w' = log w ++ (match chdir1 with None => [] | Some _ => concat (calls_of <$> namespace) end) ++
           ((fun c => BRun c [] false false) <$> commands dest).
Proof.
  unfold mm_main. destruct chdir1 as [e|].
  - destruct mkdir, chdir2; try done. destruct (create_until refuse namespace w) as [w1 [e1|]] eqn:E; [done|]. intros H.
    apply run_until_log in H. apply create_until_log in E. by rewrite H, E, <- app_assoc.
  - intros H. apply run_until_log in H. by rewrite H.
Qed.

(** The directories come before what is put in them. *)
Theorem mm_ordered : ordered [Boot.Dir dot 0x1ff] namespace = true.
Proof. by vm_compute. Qed.
End MmFacts.

Section StartupFacts.
Import Startup.
Context (answer : forall c : scall, list scall -> sanswer c + error).

(** If one of its links is there already, as after a first run, [xinit] starts nothing. *)
Theorem xinit_needs_links fuel e :
  answer (Symlink (str "/usr/local/bin/bash") (str "/bin/bash")) [] = inr e ->
  xinit_main answer fuel [] = ([Symlink (str "/usr/local/bin/bash") (str "/bin/bash")], Fail e).
Proof. intros H. unfold xinit_main, mbind, M_bind, ask. by rewrite H. Qed.

(** The client is run after the passphrase was written and the supplicant started. *)
Theorem wifi_connects iface a tr u :
  wifi_main answer iface a [] = (tr, Ret u) ->
  exists essid pass conf, a = [essid; pass] /\
    tr = [Output [str "wpa_passphrase"; essid; pass]; WriteFile conf_file conf 0x124;
          Background [str "wpa_supplicant"; str "-i" ++ iface; str "-c/tmp/wifi.conf"];
          Run [str "dhclient"; str "-ipv4=true"; str "-ipv6=false"; str "-verbose"; iface] []].
Proof.
  unfold wifi_main. destruct a as [|essid [|pass [|]]]; try done. intros H. M_inv H.
  apply fatalf_inv, (ask_inv answer (Output _)) in Hm as [-> _]. M_inv H. destruct a0.
  apply fatalf_inv, (ask_inv answer (WriteFile _ _ _)) in Hm as [-> _]. M_inv H. injection Hm as <- _. destruct u.
  apply fatalf_inv, (ask_inv answer (Run _ _)) in H as [-> _]. by exists essid, pass, a.
Qed.
End StartupFacts.

Module GpgvExamples.
Import Gpgv.

(** Files that are packets by their first byte; a key verifies what it is equal to. *)
Definition Next0 (f : bytes) : packet + error :=
  match f with x6b :: k => inl (PublicKey k) | x73 :: s => inl (Signature 8 s) | _ => inl OtherPacket end.
Definition verify0 (key digest sig : bytes) : option error := if bytes_eqb (key ++ digest) sig then None else Some (Errorf "hash tag doesn't match").
Definition files0 (name : bytes) : bytes + error :=
  if bytes_eqb name (str "key") then inl (str "kK") else if bytes_eqb name (str "sig") then inl (str "sKtext") else inl (str "text").

Lemma gpgv_ok_verified_witness :
  exists key content, Next0 (str "kK") = inl (PublicKey key) /\ verify0 key content (key ++ content) = None /\
    gpgv_main Next0 (fun c => (c, None)) (fun _ => true) (fun _ c => c) verify0 verify0 files0 [str "key"; str "sig"; str "text"] = Ret (str "OK").
Proof.
  destruct (gpgv_ok_verified Next0 (fun c => (c, None)) (fun _ => true) (fun _ c => c) verify0 verify0 files0
    [str "key"; str "sig"; str "text"] (str "OK") eq_refl) as (_ & kf & sf & cf & keyf & sigf & contentf & key & hash & sig & content & err & Ha & Hk & _ & _ & Hn & _).
  exists key, content. injection Ha as <- <- <-. injection Hk as <-. split; [exact Hn|]. split; [|vm_compute; reflexivity].
  unfold verify0. by rewrite bytes_eqb_refl.
Defined.
End GpgvExamples.
