(* ===== verification/ConstTables.v ===== *)
(** * Constants and types of the packages for Linux

    The declarations of constants, and of the structures that system calls fill, as the files write
    them; octal numbers are in hexadecimal here.  The lemmas compare them with the constants that the
    models of the components use. *)

From stdpp Require Import strings.
From S2P Require Import Prelude GoDecls.
From S2P Require Termios Pflask KernelCmds Console.
Local Open Scope Z_scope.
Local Open Scope go_decl_scope.

(** ** Terminals: [pkg/termios/termios_linux.go] and [cmds/pflask/termios.go] *)

Definition termios_types : list decl := [
  Consts ["NCCS" ::= Num 32];
  TypeOf "ControlChar" U8; TypeOf "Speed" U32; TypeOf "TCFlag" U32;
  StructOf "Termios" [
    ("Iflag", Named "TCFlag"); ("Oflag", Named "TCFlag"); ("Cflag", Named "TCFlag"); ("Lflag", Named "TCFlag"); ("Line", U8);
    ("CC", Arr (Ref "NCCS") (Named "ControlChar")); ("Ispeed", Named "Speed"); ("Ospeed", Named "Speed")];
  StructOf "WinSize" [("Row", U16); ("Col", U16); ("Xpixel", U16); ("Ypixel", U16)]].

Definition termios_consts : list decl := [
  Consts [
    "IGNBRK" ::= Conv "TCFlag" (Num 0x1); "BRKINT" ::= Conv "TCFlag" (Num 0x2);
    "PARMRK" ::= Conv "TCFlag" (Num 0x8); "ISTRIP" ::= Conv "TCFlag" (Num 0x20);
    "INLCR" ::= Conv "TCFlag" (Num 0x40); "IGNCR" ::= Conv "TCFlag" (Num 0x80);
    "ICRNL" ::= Conv "TCFlag" (Num 0x100); "IXON" ::= Conv "TCFlag" (Num 0x400);
    "OPOST" ::= Conv "TCFlag" (Num 0x1); "ECHO" ::= Conv "TCFlag" (Num 0x8); "ECHONL" ::= Conv "TCFlag" (Num 0x40);
    "ICANON" ::= Conv "TCFlag" (Num 0x2); "ISIG" ::= Conv "TCFlag" (Num 0x1);
    "IEXTEN" ::= Conv "TCFlag" (Num 0x8000); "CSIZE" ::= Conv "TCFlag" (Num 0x30);
    "CS8" ::= Conv "TCFlag" (Num 0x30); "PARENB" ::= Conv "TCFlag" (Num 0x100); "VTIME" ::= Num 5; "VMIN" ::= Num 6];
  Consts ["TCGETS" ::= Num 0x5401; "TCSETS" ::= Num 0x5402; "TIOCGWINSZ" ::= Num 0x5413; "TIOCSWINSZ" ::= Num 0x5414]].

Definition pflask_types : list decl := [
  Consts ["NCCS" ::= Num 32];
  TypeOf "cc_t" U8; TypeOf "speed_t" U32; TypeOf "tcflag_t" U32;
  StructOf "termios" [
    ("c_iflag", Named "tcflag_t"); ("c_oflag", Named "tcflag_t"); ("c_cflag", Named "tcflag_t"); ("c_lflag", Named "tcflag_t");
    ("c_line", Named "cc_t"); ("c_cc", Arr (Ref "NCCS") (Named "cc_t")); ("c_ispeed", Named "speed_t"); ("c_ospeed", Named "speed_t")];
  StructOf "winsize" [("ws_row", U16); ("ws_col", U16); ("ws_xpixel", U16); ("ws_ypixel", U16)]].

Definition pflask_consts : list decl := [
  Consts [
    "t_IGNBRK" ::= Conv "tcflag_t" (Num 0x1); "t_BRKINT" ::= Conv "tcflag_t" (Num 0x2);
    "t_PARMRK" ::= Conv "tcflag_t" (Num 0x8); "t_ISTRIP" ::= Conv "tcflag_t" (Num 0x20);
    "t_INLCR" ::= Conv "tcflag_t" (Num 0x40); "t_IGNCR" ::= Conv "tcflag_t" (Num 0x80);
    "t_ICRNL" ::= Conv "tcflag_t" (Num 0x100); "t_IXON" ::= Conv "tcflag_t" (Num 0x400);
    "t_OPOST" ::= Conv "tcflag_t" (Num 0x1); "t_ECHO" ::= Conv "tcflag_t" (Num 0x8);
    "t_ECHONL" ::= Conv "tcflag_t" (Num 0x40); "t_ICANON" ::= Conv "tcflag_t" (Num 0x2);
    "t_ISIG" ::= Conv "tcflag_t" (Num 0x1); "t_IEXTEN" ::= Conv "tcflag_t" (Num 0x8000);
    "t_CSIZE" ::= Conv "tcflag_t" (Num 0x30); "t_CS8" ::= Conv "tcflag_t" (Num 0x30);
    "t_PARENB" ::= Conv "tcflag_t" (Num 0x100); "t_VTIME" ::= Num 5; "t_VMIN" ::= Num 6];
  Consts ["i_TCGETS" ::= Num 0x5401; "i_TCSETS" ::= Num 0x5402; "i_TIOCGWINSZ" ::= Num 0x5413; "i_TIOCSWINSZ" ::= Num 0x5414]].

(** [cmds/stty/termios_linux.go]. *)
Definition stty_consts : list decl := [Consts ["syscallTIOCGWINSZ" ::= Num 0x5413; "syscallTIOCSWINSZ" ::= Num 0x5414]].

(** ** Loop devices: [cmds/losetup/losetup.go] and [cmds/tcz/tcz.go] *)

Definition losetup_consts : list decl := [
  Consts [
    "LOOP_SET_CAPACITY" ::= Num 0x4C07; "LOOP_CHANGE_FD" ::= Num 0x4C06; "LOOP_GET_STATUS64" ::= Num 0x4C05;
    "LOOP_SET_STATUS64" ::= Num 0x4C04; "LOOP_GET_STATUS" ::= Num 0x4C03; "LOOP_SET_STATUS" ::= Num 0x4C02;
    "LOOP_CLR_FD" ::= Num 0x4C01; "LOOP_SET_FD" ::= Num 0x4C00; "LO_NAME_SIZE" ::= Num 64; "LO_KEY_SIZE" ::= Num 32;
    "LOOP_CTL_ADD" ::= Num 0x4C80; "LOOP_CTL_REMOVE" ::= Num 0x4C81; "LOOP_CTL_GET_FREE" ::= Num 0x4C82;
    "SYS_ioctl" ::= Num 16]].

Definition tcz_consts : list decl := [
  Consts [
    "LOOP_SET_CAPACITY" ::= Num 0x4C07; "LOOP_CHANGE_FD" ::= Num 0x4C06; "LOOP_GET_STATUS64" ::= Num 0x4C05;
    "LOOP_SET_STATUS64" ::= Num 0x4C04; "LOOP_GET_STATUS" ::= Num 0x4C03; "LOOP_SET_STATUS" ::= Num 0x4C02;
    "LOOP_CLR_FD" ::= Num 0x4C01; "LOOP_SET_FD" ::= Num 0x4C00; "LO_NAME_SIZE" ::= Num 64; "LO_KEY_SIZE" ::= Num 32;
    "LOOP_CTL_ADD" ::= Num 0x4C80; "LOOP_CTL_REMOVE" ::= Num 0x4C81; "LOOP_CTL_GET_FREE" ::= Num 0x4C82;
    "SYS_ioctl" ::= Num 16]].

(** ** System calls *)

Definition dmesg_consts : list decl := [
  Consts ["_SYSLOG_ACTION_READ" ::= Num 2; "_SYSLOG_ACTION_READ_ALL" ::= Num 3; "_SYSLOG_ACTION_READ_CLEAR" ::= Num 4;
    "_SYSLOG_ACTION_CLEAR" ::= Num 5]].

Definition kexec_consts : list decl := [
  Consts ["_SYS_KEXEC_FILE_LOAD" ::= Num 320];
  Consts ["_KEXEC_FILE_UNLOAD" ::= Num 0x1; "_KEXEC_FILE_ON_CRASH" ::= Num 0x2; "_KEXEC_FILE_NO_INITRAMFS" ::= Num 0x4]].

Definition kmodule_consts : list decl := [Consts ["MODULE_INIT_IGNORE_MODVERSIONS" ::= Num 0x1; "MODULE_INIT_IGNORE_VERMAGIC" ::= Num 0x2]].
Definition kmodule_amd64 : list decl := [Consts ["_SYS_FINIT_MODULE" ::= Num 313]].
Definition kmodule_arm64 : list decl := [Consts ["_SYS_FINIT_MODULE" ::= Num 379]].
Definition kmodule_ppc64le : list decl := [Consts ["_SYS_FINIT_MODULE" ::= Num 353]].

(** ** Devices *)

(** [cmds/console/uart_linux.go] and [cmds/ls/fileinfo_linux.go]. *)
Definition uart_consts : list decl := [Consts ["status" ::= Num 5; "inRdy" ::= Num 1; "outRdy" ::= Num 0x40]].
Definition ls_consts : list decl := [Consts ["minorBits" ::= Num 8; "minorMask" ::= Sub (Shl (Num 1) (Ref "minorBits")) (Num 1)]].

Definition packages : list (list decl) :=
  [termios_types ++ termios_consts; pflask_types ++ pflask_consts; stty_consts; losetup_consts; tcz_consts; dmesg_consts; kexec_consts;
   kmodule_consts ++ kmodule_amd64; kmodule_consts ++ kmodule_arm64; kmodule_consts ++ kmodule_ppc64le; uart_consts; ls_consts].

(** The declarations are well typed in every package. *)
Lemma packages_typed : Forall (fun p => exists s, elab_package p = Some s /\ well_typed s) packages.
Proof.
  assert (forallb (fun p => bool_decide (is_Some (elab_package p))) packages = true) as H by (vm_compute; reflexivity).
  rewrite forallb_forall in H. apply Forall_forall. intros p Hp%list_elem_of_In. apply H, bool_decide_eq_true in Hp as [s Hs].
  exists s. split; [done|by apply elab_package_ok in Hs].
Qed.

Definition values (ds : list decl) (xs : list string) : list (option Z) :=
  match elab_package ds with Some s => lookup_const s <$> xs | None => [] end.
Definition sizes (ds : list decl) (xs : list string) : list (option Z * option Z) :=
  match elab_package ds with Some s => (fun x => (lookup_wire s x, lookup_mem s x)) <$> xs | None => [] end.

Definition flag_names : list string :=
  ["IGNBRK"; "BRKINT"; "PARMRK"; "ISTRIP"; "INLCR"; "IGNCR"; "ICRNL"; "IXON"; "OPOST"; "ECHO"; "ECHONL"; "ICANON"; "ISIG"; "IEXTEN";
   "CSIZE"; "CS8"; "PARENB"; "VTIME"; "VMIN"]%string.

(** The constants of the model of [pkg/termios] are those of the package. *)
Lemma termios_constants :
  values (termios_types ++ termios_consts) flag_names = Some <$>
    [Termios.IGNBRK; Termios.BRKINT; Termios.PARMRK; Termios.ISTRIP; Termios.INLCR; Termios.IGNCR; Termios.ICRNL; Termios.IXON;
     Termios.OPOST; Termios.ECHO; Termios.ECHONL; Termios.ICANON; Termios.ISIG; Termios.IEXTEN; Termios.CSIZE; Termios.CS8;
     Termios.PARENB; Z.of_nat Termios.VTIME; Z.of_nat Termios.VMIN].
Proof. vm_compute. reflexivity. Qed.

(** The copy of the terminal settings in [pflask] agrees with the package: the same flags, places of
    the control characters and requests, and structures of the same size, 60 bytes with three of
    padding in memory and eight bytes. *)
Theorem pflask_termios_agrees :
  values (pflask_types ++ pflask_consts) ((fun x => "t_" +:+ x) <$> flag_names) = values (termios_types ++ termios_consts) flag_names /\
  values (pflask_types ++ pflask_consts) ((fun x => "i_" +:+ x) <$> ["TCGETS"; "TCSETS"; "TIOCGWINSZ"; "TIOCSWINSZ"]) =
    values (termios_types ++ termios_consts) ["TCGETS"; "TCSETS"; "TIOCGWINSZ"; "TIOCSWINSZ"] /\
  values stty_consts ["syscallTIOCGWINSZ"; "syscallTIOCSWINSZ"] = values (termios_types ++ termios_consts) ["TIOCGWINSZ"; "TIOCSWINSZ"] /\
  sizes (pflask_types ++ pflask_consts) ["termios"; "winsize"] = [(Some 57, Some 60); (Some 8, Some 8)] /\
  sizes (termios_types ++ termios_consts) ["Termios"; "WinSize"] = [(Some 57, Some 60); (Some 8, Some 8)].
Proof. split_and!; vm_compute; reflexivity. Qed.

(** [tcz] has its own copy of the constants of [losetup], with those of the model among them. *)
Lemma loop_constants :
  elab_package losetup_consts = elab_package tcz_consts /\
  values losetup_consts ["LOOP_SET_FD"; "LOOP_CTL_GET_FREE"] = [Some KernelCmds.Losetup.LOOP_SET_FD; Some KernelCmds.Losetup.LOOP_CTL_GET_FREE].
Proof. split; vm_compute; reflexivity. Qed.

Lemma uart_constants : values uart_consts ["inRdy"; "outRdy"] = [Some Console.Port.inRdy; Some Console.Port.outRdy].
Proof. vm_compute. reflexivity. Qed.
