(* ===== verification/SmallCmds.v ===== *)
(** * Small commands

    The programs that put one library call between their arguments and their output, and the parts
    of the other programs that come before their work: the system's name ([uroot/uname_*.go]),
    [netcat], [pe], [printenv], [hostname], [lddfiles], [srvfiles], [true], [false] and [sync], the
    builtins and the start of the shell, the dispatch of [cpio], and [LdSo] of [pkg/ldd]. *)

From Stdlib Require Import Strings.String.
From S2P Require Import GoStrings GoUtf8 GoPath GoIO.
From S2P Require RushParse RushExec Ldd Tools Ed.

(** ** The name of the system *)

Module Uts.
Import Tools.Info.

(** [toString]: the elements before the first 0, each made a string by a conversion from a byte, which
    takes it as a code point. *)
Fixpoint toString_loop (s : bytes) (d : list Z) : bytes :=
  match d with
  | [] => s
  | c :: d => if c =? 0 then s else toString_loop (s ++ EncodeRune (u8 c)) d
  end.

Definition toString (d : list Z) : bytes := toString_loop [] d.

(** The elements of an array of [uint8] and of one of [int8] with the same bytes. *)
Definition uint8s (b : bytes) : list Z := b2z <$> b.
Definition int8s (b : bytes) : list Z := (fun c => if b2z c <? 128 then b2z c else b2z c - 256) <$> b.

(** The bytes of [syscall.Utsname]. *)
Record raw_uts := MkRaw { r_Sysname : bytes; r_Nodename : bytes; r_Release : bytes; r_Version : bytes; r_Machine : bytes; r_Domainname : bytes }.

Definition Uname (elements : bytes -> list Z) (syscall_Uname : raw_uts + error) : outcome error Utsname :=
  match syscall_Uname with
  | inr e => Fail e
  | inl u =>
      let s b := toString (elements b) in
      Ret (MkUts (s (r_Sysname u)) (s (r_Nodename u)) (s (r_Release u)) (s (r_Version u)) (s (r_Machine u)) (s (r_Domainname u)))
  end.

(** The arrays are of [int8] or [uint8], depending on the machine. *)
Definition Uname_amd64 := Uname int8s.
Definition Uname_386 := Uname int8s.
Definition Uname_arm64 := Uname int8s.
Definition Uname_arm := Uname uint8s.
Definition Uname_ppc64le := Uname uint8s.

Definition Uname_darwin : outcome error Utsname :=
  Ret (MkUts (str "unknown") (str "unknown") (str "nastylion") (str "10.x") (str "amd64") (str "unknown")).

(** [main] of the command. *)
Definition uname_main (Uname : outcome error Utsname) (f : uname_flags) (NFlag : nat) : outcome error bytes :=
  u ← Uname; Ret (handleFlags f NFlag u ++ [x0a]).

Lemma toString_loop_int8s s b : toString_loop s (int8s b) = toString_loop s (uint8s b).
Proof.
  revert s. induction b as [|c b IH]; intros s; [done|]. pose proof (b2z_range c). unfold int8s, uint8s in *. cbn [fmap list_fmap toString_loop].
  destruct (b2z c <? 128) eqn:E; [by rewrite IH|]. apply Z.ltb_ge in E.
  destruct (b2z c - 256 =? 0) eqn:E1; [apply Z.eqb_eq in E1; lia|]. destruct (b2z c =? 0) eqn:E2; [apply Z.eqb_eq in E2; lia|].
  rewrite IH. do 3 f_equal. unfold u8. rewrite <- (Z.mod_add (b2z c - 256) 1) by lia. f_equal. lia.
Qed.

(** All machines read the same names from the same bytes. *)
Lemma Uname_machines u : Uname int8s u = Uname uint8s u.
Proof. destruct u as [u|e]; [|done]. unfold Uname, toString. by rewrite !toString_loop_int8s. Qed.

(** A C string in an array: its bytes, a 0, and whatever is left in the array. *)
Definition c_string (s rest : bytes) : bytes := s ++ x00 :: rest.

Lemma toString_loop_app s d rest :
  x00 ∉ d -> toString_loop s (uint8s (c_string d rest)) = s ++ concat ((fun c => EncodeRune (b2z c)) <$> d).
Proof.
  revert s. induction d as [|c d IH]; intros s Hd; [by rewrite app_nil_r|]. apply not_elem_of_cons in Hd as [Hc Hd].
  change (uint8s (c_string (c :: d) rest)) with (b2z c :: uint8s (c_string d rest)). cbn [toString_loop].
  destruct (b2z c =? 0) eqn:E; [apply Z.eqb_eq in E; destruct Hc; rewrite <- (z2b_b2z c), E; done|].
  rewrite IH by done. cbn [fmap list_fmap concat]. rewrite app_assoc. unfold u8. rewrite Z.mod_small by apply b2z_range. done.
Qed.

Lemma encode_ascii d : Forall (fun c => b2z c < 0x80) d -> concat ((fun c => EncodeRune (b2z c)) <$> d) = d.
Proof. induction 1 as [|c d Hc _ IH]; [done|]. cbn [fmap list_fmap concat]. rewrite EncodeRune_ascii by done. by rewrite IH. Qed.

(** The name of a system is the text that the kernel stored, up to the first 0, if it is ASCII, and has
    a byte more for every byte that is not: a host name in UTF-8 comes out encoded twice. *)
Theorem toString_reads s rest :
  x00 ∉ s ->
  let r := toString (uint8s (c_string s rest)) in
  length r = (length s + length (List.filter (fun c => (0x80 <=? b2z c)%Z) s))%nat /\
  (Forall (fun c => b2z c < 0x80) s -> r = s).
Proof.
  intros Hs. cbv zeta. unfold toString. rewrite toString_loop_app by done. cbn [app]. split; [|apply encode_ascii].
  clear Hs. induction s as [|c s IH]; [done|]. cbn [fmap list_fmap concat List.filter]. rewrite length_app, IH.
  destruct (Z.leb_spec 0x80 (b2z c)) as [H|H]; [rewrite EncodeRune_high by done|rewrite EncodeRune_ascii by done]; cbn [length]; lia.
Qed.

Example toString_latin : toString (int8s (c_string [x6b; xc3; xb6] [])) = [x6b; xc3; x83; xc2; xb6].
Proof. vm_compute. reflexivity. Qed.
End Uts.

(** ** [netcat] *)

Module Netcat.

(** The state of a connection: what standard input and the peer still have to give, in the pieces in
    which they give it, what was sent and printed, and whether [main] has returned. *)
Record state := MkState { input : list bytes; incoming : list bytes; sent : bytes; printed : bytes; finished : bool }.

(** The copy of standard input is a goroutine; [main] copies from the connection and returns at its
    end, which ends the goroutine too. *)
Inductive step : state -> state -> Prop :=
| Send c cs inc s p : step (MkState (c :: cs) inc s p false) (MkState cs inc (s ++ c) p false)
| Receive i c cs s p : step (MkState i (c :: cs) s p false) (MkState i cs s (p ++ c) false)
| Return i s p : step (MkState i [] s p false) (MkState i [] s p true).

Definition start (i inc : list bytes) : state := MkState i inc [] [] false.

(** The steps that are left at most. *)
Definition left_over (s : state) : nat := length (input s) + length (incoming s) + (if finished s then 0 else 1).

Record ok (i inc : list bytes) (s : state) : Prop := {
  ok_input : exists done_, i = done_ ++ input s /\ sent s = concat done_;
  ok_incoming : concat inc = printed s ++ concat (incoming s);
  ok_finished : finished s = true -> incoming s = []
}.

Lemma start_ok i inc : ok i inc (start i inc).
Proof. split; [by exists []|done|done]. Qed.

Lemma step_ok i inc s t : ok i inc s -> step s t -> ok i inc t.
Proof.
  intros [(d & Hd & Hs) Hi Hf] Hst. destruct Hst as [c cs inc' s p|i' c cs s p|i' s p]; cbn in *; split; cbn; try done.
  - exists (d ++ [c]). rewrite <- app_assoc, concat_app. cbn. rewrite app_nil_r. by subst.
  - by exists d.
  - rewrite Hi. cbn. by rewrite app_assoc.
  - by exists d.
Qed.

Lemma step_less s t : step s t -> (left_over t < left_over s)%nat.
Proof. destruct 1; unfold left_over; cbn; lia. Qed.

Lemma step_or_done s : finished s = true \/ exists t, step s t.
Proof. destruct s as [i [|c inc] se p []]; try (by left); right; eexists; constructor. Qed.

Lemma reach_ok i inc s t : ok i inc s -> rtc step s t -> ok i inc t.
Proof. intros Hs Hr. induction Hr as [|x y z Hxy _ IH]; [done|]. by eapply IH, step_ok. Qed.

(** Whatever the order in which the two copies run, [netcat] returns, when the peer closes the
    connection, with all that the peer sent printed; of the input a part from its beginning was sent,
    and every run can be continued to such an end. *)
Theorem netcat_runs i inc s :
  rtc step (start i inc) s ->
  (exists t, rtc step s t /\ finished t = true) /\
  (exists done_ rest, i = done_ ++ rest /\ sent s = concat done_) /\
  (finished s = true -> printed s = concat inc).
Proof.
  intros Hr. pose proof (reach_ok i inc _ _ (start_ok i inc) Hr) as [(d & Hd & Hs) Hi Hf]. split_and!.
  - clear. remember (left_over s) as k eqn:Ek. revert s Ek. induction (lt_wf k) as [k _ IH]. intros s ->.
    destruct (step_or_done s) as [Hd|[t Ht]]; [by exists s|].
    destruct (IH (left_over t) (step_less _ _ Ht) t eq_refl) as (u & Hu & Hfu). exists u. split; [by eapply rtc_l|done].
  - by exists d, (input s).
  - intros H. rewrite Hi, (Hf H). cbn. by rewrite app_nil_r.
Qed.

Lemma netcat_runs_witness :
  exists t, rtc step (MkState [] [] (str "x") (str "y") false) t /\ finished t = true.
Proof.
  assert (rtc step (start [str "x"] [str "y"]) (MkState [] [] (str "x") (str "y") false)) as H
    by (eapply rtc_l; [apply Send|]; eapply rtc_l; [apply Receive|]; apply rtc_refl).
  exact (proj1 (netcat_runs [str "x"] [str "y"] _ H)).
Defined.

(** [main] before the copies. *)
Definition netcat_main (Dial : bytes -> bytes -> option error) (netType : bytes) (args : list bytes) : outcome error unit :=
  match args with
  | [] => Fail (Errorf "netcat [go-style network address]")
  | a :: _ => match Dial netType a with Some e => Fail e | None => Ret tt end
  end.
End Netcat.

(** ** The shell: builtins and the start of [main] *)

Module RushStart.
Import RushExec.

Section Registry.
Context {F : Type}.

Record registry := MkBuiltins { builtins : gmap bytes F; forkBuiltins : gmap bytes F }.

Definition addBuiltIn (name : bytes) (f : F) (g : registry) : registry * option error :=
  match builtins g !! name with
  | Some _ => (g, Some (Errorf "%v already a builtin"))
  | None => (MkBuiltins (<[name := f]> (builtins g)) (forkBuiltins g), None)
  end.

(** The test looks at the other map. *)
Definition addForkBuiltIn (name : bytes) (f : F) (g : registry) : registry * option error :=
  match builtins g !! name with
  | Some _ => (g, Some (Errorf "%v already a forkBuiltin"))
  | None => (MkBuiltins (builtins g) (<[name := f]> (forkBuiltins g)), None)
  end.

Definition add_all (l : list (bytes * F)) (g : registry) : registry := foldl (fun g p => fst (addBuiltIn (fst p) (snd p) g)) g l.

(** The first builtin of a name stays, whatever is added after it. *)
Lemma add_all_keeps l g name f : builtins g !! name = Some f -> builtins (add_all l g) !! name = Some f.
Proof.
  revert g. induction l as [|[n h] l IH]; intros g Hg; [done|]. cbn [add_all foldl fst snd]. apply IH. unfold addBuiltIn.
  destruct (builtins g !! n) eqn:E; [done|]. cbn. rewrite lookup_insert_ne; [done|]. intros ->. congruence.
Qed.

(** The builtins that are registered are found under their names, for names that are different, and a
    name that is taken is refused without a change. *)
Theorem builtins_registered l name f :
  NoDup l.*1 -> (name, f) ∈ l -> builtins (add_all l (MkBuiltins ∅ ∅)) !! name = Some f /\
  forall f', snd (addBuiltIn name f' (add_all l (MkBuiltins ∅ ∅))) <> None /\
             fst (addBuiltIn name f' (add_all l (MkBuiltins ∅ ∅))) = add_all l (MkBuiltins ∅ ∅).
Proof.
  intros Hn Hl. assert (forall g, (forall n, n ∈ l.*1 -> builtins g !! n = None) -> builtins (add_all l g) !! name = Some f) as H.
  { induction l as [|[n h] l IH]; [by apply elem_of_nil in Hl|]. intros g Hg. cbn [fmap list_fmap fst] in Hn. apply NoDup_cons in Hn as [Hn1 Hn2].
    cbn [add_all foldl fst snd]. assert (addBuiltIn n h g = (MkBuiltins (<[n := h]> (builtins g)) (forkBuiltins g), None)) as ->.
    { unfold addBuiltIn. rewrite (Hg n) by (cbn; apply elem_of_cons; by left). done. }
    apply elem_of_cons in Hl as [[= <- <-]|Hl]; cbn [fst].
    - apply add_all_keeps. cbn. by rewrite lookup_insert_eq.
    - apply IH; [done|done|]. intros m Hm. cbn. rewrite lookup_insert_ne by (intros ->; done). apply Hg. cbn. apply elem_of_cons. by right. }
  assert (builtins (add_all l (MkBuiltins ∅ ∅)) !! name = Some f) as E by (apply H; intros; apply lookup_empty).
  split; [exact E|]. intros f'. unfold addBuiltIn. rewrite E. done.
Qed.

(** A forked builtin is replaced by a second one of its name, and refused if there is an ordinary one. *)
Lemma fork_replaced name f f' :
  forkBuiltins (fst (addForkBuiltIn name f' (fst (addForkBuiltIn name f (MkBuiltins ∅ ∅))))) !! name = Some f' /\
  snd (addForkBuiltIn name f' (fst (addBuiltIn name f (MkBuiltins ∅ ∅)))) <> None.
Proof.
  split; unfold addForkBuiltIn, addBuiltIn; repeat (cbn [builtins forkBuiltins fst snd]; rewrite lookup_empty); cbn [builtins forkBuiltins fst snd];
    by rewrite lookup_insert_eq.
Qed.
End Registry.
Arguments registry : clear implicits.

(** The builtins of the shell itself: each registers itself in [init]. *)
Inductive builtin := Cd | ExitBuiltin | Time.
Definition shell_builtins : list (bytes * builtin) := [(str "cd", Cd); (str "exit", ExitBuiltin); (str "time", Time)].
Definition shell_registry : registry builtin := add_all shell_builtins (MkBuiltins ∅ ∅).

(** [main] up to its loop: what it goes on to do. *)
Inductive started := RunFork (f : builtin) (argv : list bytes) | Refused (code : Z) | Loop | Bummer.

Definition rush_start (g : registry builtin) (os_Args : list bytes) : started :=
  match os_Args with
  | [] => Bummer
  | a0 :: argv =>
      match forkBuiltins g !! Base a0 with
      | Some f => RunFork f argv
      | None => match argv with [] => Loop | _ => Refused 1 end
      end
  end.

(** The shell of the repository registers no forked builtin: it runs its loop without arguments and
    refuses all others. *)
Lemma rush_start_loop a0 argv : rush_start shell_registry (a0 :: argv) = match argv with [] => Loop | _ => Refused 1 end.
Proof. unfold rush_start. assert (forkBuiltins shell_registry !! Base a0 = None) as -> by (apply lookup_empty). done. Qed.

(** What [runit] does with a command agrees with the registry: it runs the program of the command
    unless its name is that of a builtin. *)
Lemma runit_builtins {World} start_wait chdir (c : Cmd) (w : World) :
  builtins shell_registry !! cmd c = None ->
  runit start_wait chdir c w =
    let c' := MkCmd (MkCommand (args (parsed c)) (fdmap (parsed c)) (link (parsed c)) (bg (parsed c)))
                (cmd c) (argv c) (Stdin c) (Stdout c) (Stderr c) (opened c) in
    let '(w, err) := start_wait c' w in (w, Done err).
Proof.
  intros H. unfold runit. assert (forall p, p ∈ shell_builtins -> cmd c <> fst p) as Hne.
  { intros [n f] Hp Hc. cbn in Hc. destruct (builtins_registered shell_builtins n f) as [E _]; [|done|].
    - apply (bool_decide_unpack _). vm_compute. exact I.
    - unfold shell_registry in H. rewrite Hc, E in H. done. }
  assert (forall s f, (str s, f) ∈ shell_builtins -> bytes_eqb (cmd c) (str s) = false) as Hb.
  { intros s f Hp. apply Hne in Hp. by apply bytes_eqb_neq. }
  destruct (argv c) as [|a l]; cbn [runit_argv]; rewrite (Hb "cd"%string Cd), (Hb "exit"%string ExitBuiltin), (Hb "time"%string Time) by (repeat constructor); done.
Qed.
End RushStart.

(** ** Programs around one call *)

Module Mains.

(** [LdSo]: the first match of the pattern of the dynamic linker. *)
Definition ldso : bytes := str "/lib*/ld-linux-*.so.*".
Definition LdSo (Glob : bytes -> list bytes + error) : bytes + error :=
  match Glob ldso with
  | inr e => inr e
  | inl [] => inr (Errorf "No ld.so matches %v")
  | inl (n :: _) => inl n
  end.

(** [lddfiles]: the files of the command line and then what they need. *)
Definition lddfiles_main (Ldd : list bytes -> outcome error (list bytes)) (args : list bytes) : outcome error bytes :=
  match Ldd args with
  | Ret l => Ret (unlines args ++ unlines l)
  | Fail _ => Fail (Errorf "ldd: %v")
  | Panic => Panic
  end.

Definition printenv (environ : list bytes) : bytes := unlines environ.

Definition hostname_main (Hostname : bytes + error) : outcome error bytes :=
  match Hostname with inr _ => Fail (Errorf "could not obtain hostname: %v") | inl h => Ret (h ++ [x0a]) end.

(** [pe]: a file, or standard input, as JSON. *)
Section Pe.
Context {File : Type} (NewFile : bytes -> File + error) (Open : bytes -> File + error) (MarshalIndent : File -> bytes + error).

Definition pe_main (stdin : bytes) (args : list bytes) : outcome error bytes :=
  match (match args with [] => inl (NewFile stdin) | [n] => inl (Open n) | _ => inr tt end) with
  | inr _ => Fail (Errorf "Usage: pe [FILENAME]")
  | inl (inr e) => Fail e
  | inl (inl f) => match MarshalIndent f with inr e => Fail e | inl j => Ret (j ++ [x0a]) end
  end.
End Pe.

(** [srvfiles]: the address that is listened on, and the error that ends the program. *)
Definition srvfiles_main (ListenAndServe : bytes -> bytes -> error) (host port dir : bytes) : outcome error unit :=
  Fail (ListenAndServe (host ++ str ":" ++ port) dir).

(** [sleep] and [wget]: one argument. *)
Definition sleep_main (ParseDuration : bytes -> Z + error) (args : list bytes) : outcome error Z :=
  match args with
  | [a] => match Tools.Info.parseDuration ParseDuration a with inl d => Ret d | inr e => Fail e end
  | _ => Fail (Errorf "Incorrect number of arguments")
  end.

Definition wget_main (Get : bytes -> (Z * bytes * option error) + error) (args : list bytes) : bytes * option error :=
  match args with
  | [url] => Tools.Info.wget Get url
  | _ => ([], Some (Errorf "Usage: %s [ARGS] URL"))
  end.

(** The exit codes of [true] and [false]. *)
Definition true_main : Z := 0.
Definition false_main : Z := 1.

(** The files that [lddfiles] prints can be read back, line by line, when no name has a newline in it:
    first the arguments, then the list. *)
Lemma lddfiles_lines Ldd args l :
  Ldd args = Ret l -> Forall (fun n => x0a ∉ n) (args ++ l) ->
  exists out, lddfiles_main Ldd args = Ret out /\ Split x0a out = args ++ l ++ [[]].
Proof.
  intros E H. unfold lddfiles_main. rewrite E. eexists. split; [done|].
  assert (unlines args ++ unlines l = unlines (args ++ l)) as -> by (unfold unlines; by rewrite fmap_app, concat_app).
  rewrite app_assoc. clear E. induction H as [|n ns Hn _ IH]; [done|].
  change (unlines (n :: ns)) with ((n ++ [x0a]) ++ unlines ns). rewrite <- app_assoc. cbn [app]. by rewrite Split_app, IH.
Qed.
End Mains.

(** ** [ed]: comparing editors and writing files *)

Module EdEqual.
Import Ed.

(** An [Editor] as an interface value. *)
Inductive any_editor := IsText (f : Text.file) | IsBin (f : Bin.bin).

(** The places where the data differ. *)
Fixpoint differences (i : Z) (a b : bytes) : list Z :=
  match a, b with
  | x :: a, y :: b => (if byte_eqb x y then [] else [i]) ++ differences (i + 1) a b
  | _, _ => []
  end.

Inductive difference := LinesDiffer | LengthDiffers | ByteDiffers (i : Z).

(** [Equal] of the text editor: the parts of its message; the other editor has to be a text editor. *)
Definition file_differences (f g : Text.file) : list difference :=
  (if bool_decide (Text.lines f = Text.lines g) then [] else [LinesDiffer]) ++
  (if negb (zlen (Text.text f) =? zlen (Text.text g)) then [LengthDiffers] else ByteDiffers <$> differences 0 (Text.text f) (Text.text g)).

Definition file_Equal (f : Text.file) (e : any_editor) : outcome error (option (list difference)) :=
  match e with
  | IsText g => Ret (match file_differences f g with [] => None | l => Some l end)
  | IsBin _ => Panic
  end.

(** [Equal] of the binary editor, which asks for a text editor too. *)
Definition bin_Equal (f : Bin.bin) (e : any_editor) : outcome error (option error) :=
  match e with
  | IsText g => Ret (if bool_decide (Bin.data f = Text.data g) then None else Some (Errorf "%v is not the same as %v"))
  | IsBin _ => Panic
  end.

(** [WriteFile]: the file created, and what [Write] does with it. *)
Definition WriteFile {W} `{Writer W} (Create : bytes -> W + error) (n : bytes) (startLine endLine : Z) (f : Text.file) : option W * outcome error Z :=
  match Create n with
  | inr e => (None, Fail e)
  | inl w => let '((_, w), r) := Text.f_Write startLine endLine (f, w) in (Some w, r)
  end.

Lemma differences_nil i a b : length a = length b -> differences i a b = [] -> a = b.
Proof.
  revert i b. induction a as [|x a IH]; intros i [|y b] Hl; try done. cbn. destruct (byte_eqb x y) eqn:E; [|done].
  apply byte_eqb_eq in E as ->. cbn. intros H. f_equal. by apply (IH (i + 1)); [injection Hl|].
Qed.

Lemma differences_same i a : differences i a a = [].
Proof. revert i. induction a as [|x a IH]; intros i; [done|]. cbn. by rewrite byte_eqb_refl, IH. Qed.

(** Two text editors are reported equal exactly when they hold the same text with the same lines; where
    the cursor is and whether the text was changed do not count. *)
Theorem file_Equal_same f g :
  file_Equal f (IsText g) = Ret None <-> Text.text f = Text.text g /\ Text.lines f = Text.lines g.
Proof.
  cbn. unfold file_differences. case_bool_decide as Hl; cbn [app].
  - destruct (zlen (Text.text f) =? zlen (Text.text g)) eqn:E; cbn [negb].
    + apply Z.eqb_eq in E. unfold zlen in E. split.
      * destruct (differences 0 (Text.text f) (Text.text g)) eqn:Ed; [|done]. intros _. split; [|done]. apply (differences_nil 0); [lia|done].
      * intros [-> _]. by rewrite differences_same.
    + apply Z.eqb_neq in E. split; [done|]. intros [Et _]. by rewrite Et in E.
  - split; [done|]. by intros [_ ?].
Qed.

(** Two binary editors cannot be compared. *)
Lemma bin_Equal_panics f g : bin_Equal f (IsBin g) = Panic.
Proof. done. Qed.
End EdEqual.
