(* ===== verification/SmallParts.v ===== *)
(** * Parts of programs around those modelled elsewhere

    The conversion of [stat] results on Darwin, the hashes of [validate], the port of [io], the build
    that [build_perf] measures, the latency that [ping] prints, the flags that [ps] takes from its
    first argument and the unfinished encoder of [archive]. *)

From Stdlib Require Import Strings.String.
From S2P Require Import CpioFs GoText GoPath.
From S2P Require TextCmds ScriptTools Ps SysCmds.

(** ** [sysInfo] on Darwin ([pkg/cpio/sysinfo_darwin.go]) *)

Module Darwin.

(** [syscall.Stat_t] of Darwin: the device numbers are of type [int32]. *)
Record Stat_darwin := MkStatD {
  d_dev : Z; d_ino : Z; d_mode : Z; d_nlink : Z; d_uid : Z; d_gid : Z; d_rdev : Z; d_size : Z; d_mtime : Z
}.

Definition sysInfo_darwin (n : bytes) (s : Stat_darwin) : Info :=
  MkInfo (d_ino s) (d_mode s) (d_uid s) (d_gid s) (d_nlink s) (u64 (d_mtime s)) (u64 (d_size s))
    (u64 (d_dev s)) (u64 (Z.shiftr (d_dev s) 8)) (u64 (Z.land (d_dev s) 0xff))
    (u64 (Z.shiftr (d_rdev s) 8)) (u64 (Z.land (d_rdev s) 0xff)) n.

(** The same result of [stat] on Linux. *)
Definition as_linux (s : Stat_darwin) : Stat_t :=
  MkStat (d_dev s) (d_ino s) (d_mode s) (d_nlink s) (d_uid s) (d_gid s) (d_rdev s) (d_size s) (d_mtime s).

Definition is_i32 (z : Z) : Prop := - 2 ^ 31 <= z < 2 ^ 31.

(** The conversion on Darwin is that of Linux for device numbers that are not negative; a negative one,
    whose sign is extended, gives a major number that does not fit in the field of an archive. *)
Theorem sysInfo_darwin_linux n s :
  is_i32 (d_dev s) -> is_i32 (d_rdev s) ->
  (0 <= d_dev s -> 0 <= d_rdev s -> sysInfo_darwin n s = sysInfo n (as_linux s)) /\
  (d_dev s < 0 -> 2 ^ 32 <= Major (sysInfo_darwin n s)).
Proof.
  unfold is_i32. intros Hd Hr. split.
  - intros H1 H2. unfold sysInfo_darwin, sysInfo, as_linux. cbn.
    assert (forall z, 0 <= z < 2 ^ 31 -> u64 (Z.shiftr z 8) = Z.shiftr z 8 /\ u64 (Z.land z 0xff) = Z.land z 0xff) as H.
    { intros z Hz. rewrite Z.shiftr_div_pow2 by lia. change 0xff with (Z.ones 8). rewrite Z.land_ones by lia.
      pose proof (Z.mod_pos_bound z (2 ^ 8) ltac:(lia)). split; apply u64_small; [|lia].
      split; [apply Z.div_pos; lia|]. apply Z.div_lt_upper_bound; lia. }
    destruct (H (d_dev s)) as [-> ->]; [lia|]. destruct (H (d_rdev s)) as [-> ->]; [lia|]. by rewrite (u64_small (d_dev s)) by lia.
  - intros Hneg. cbn. rewrite Z.shiftr_div_pow2 by lia.
    assert (- 2 ^ 23 <= d_dev s / 2 ^ 8 < 0) as Hq by (split; [apply Z.div_le_lower_bound; lia|apply Z.div_lt_upper_bound; lia]).
    unfold u64. rewrite <- (Z.mod_add _ 1) by lia. rewrite Z.mod_small by lia. lia.
Qed.
End Darwin.

(** ** The hashes of [validate] *)

Module Hashes.

(** The names, with the numbers of [crypto.Hash]. *)
Definition algs : list (bytes * Z) :=
  [(str "MD4", 1); (str "MD5", 2); (str "SHA1", 3); (str "SHA224", 4); (str "SHA256", 5); (str "SHA384", 6); (str "SHA512", 7);
   (str "RIPEMD160", 9); (str "SHA3_224", 10); (str "SHA3_256", 11); (str "SHA3_384", 12); (str "SHA3_512", 13)].

(** [init] fills [try] with the names, in the order in which the map gives them. *)
Definition tries (order : list bytes) : Prop := order ≡ₚ algs.*1.

(** A name that is not in the table is the zero hash. *)
Definition alg (n : bytes) : Z := match list_find (fun p => fst p = n) algs with Some (_, (_, h)) => h | None => 0 end.

(** [sign]: the key has to be a signer; the signature is logged and the answer is no. *)
Definition sign (available : Z -> bool) (signer : option (bytes -> Z -> bytes + error)) (n b : bytes) : outcome error (option (bytes + error) * bool) :=
  if available (alg n) then
    match signer with None => Panic | Some Sign => Ret (Some (Sign b (alg n)), false) end
  else Ret (None, false).

(** No signature is ever accepted. *)
Lemma sign_false available signer n b r : sign available signer n b = Ret r -> snd r = false.
Proof. unfold sign. destruct (available (alg n)), signer; intros [= <-]; done. Qed.

Lemma algs_distinct : NoDup algs.*1 /\ NoDup algs.*2.
Proof. split; apply (bool_decide_unpack _); vm_compute; exact I. Qed.

Lemma alg_known n h : (n, h) ∈ algs -> alg n = h.
Proof.
  intros H. assert (forallb (fun p => bool_decide (alg (fst p) = snd p)) algs = true) as Hc by (vm_compute; reflexivity).
  rewrite forallb_forall in Hc. apply list_elem_of_In, Hc, bool_decide_eq_true in H. done.
Qed.
End Hashes.

(** ** The port of [io] *)

Module IoPort.

Section Port.
(** [/dev/port]: opening it, seeking, reading and writing at an address. *)
Context (Open : option error) (Seek : Z -> option error) (read_at : Z -> nat -> bytes + error) (write_at : Z -> bytes -> option error).

Definition doio {A} (a16 : Z) (f : Z -> outcome error A) : outcome error A :=
  match Open with
  | Some e => Fail e
  | None => match Seek (i64 a16) with Some _ => Fail (Errorf "in: bad address %v: %v") | None => f (i64 a16) end
  end.

(** [in] and [out] with [encoding/binary], for a value of [n] bytes. *)
Definition io_in (a16 : Z) (n : nat) : outcome error Z :=
  doio a16 (fun a => match read_at a n with inl b => Ret (le_val b) | inr e => Fail e end).
Definition io_out (a16 : Z) (n : nat) (v : Z) : outcome error unit :=
  doio a16 (fun a => match write_at a (le_bytes n v) with None => Ret tt | Some e => Fail e end).
End Port.

(** A value written to a port that keeps what is written is the one that is read from it. *)
Lemma io_out_in Seek a n v b :
  0 <= v < 256 ^ Z.of_nat n -> (forall z, Seek z = None) ->
  (forall w, io_out None Seek (fun _ x => if bytes_eqb x b then None else Some (Errno 5)) a n w = Ret tt -> le_bytes n w = b) /\
  (b = le_bytes n v -> io_in None Seek (fun _ _ => inl b) a n = Ret v).
Proof.
  intros Hv Hs. unfold io_out, io_in, doio. rewrite Hs. split.
  - intros w. destruct (bytes_eqb (le_bytes n w) b) eqn:E; [|done]. intros _. by apply bytes_eqb_eq in E.
  - intros ->. rewrite le_val_le_bytes, Z.mod_small by done. done.
Qed.
End IoPort.

(** ** The build that [build_perf] measures *)

Module BuildCmd.

Section Build.
(** Times as the library gives them in seconds. *)
Context {F : Type}.

Record measurement := MkMeasurement { realTime : F; userTime : F; sysTime : F; maxRss : Z }.

Definition cmdsPath : bytes := str "$GOPATH/src/github.com/u-root/u-root/cmds".

(** A run of a program: arguments, directory, environment; its times if it succeeds. *)
Context (ExpandEnv : bytes -> bytes) (environ : list bytes)
        (Run : list bytes -> bytes -> list bytes -> (F * F * F * Z) + error) (Sprint : F -> bytes).

Definition buildCmd (cmd : bytes) (gogc : Z) : measurement + error :=
  match Run [str "go"; str "build"] (PathJoin [ExpandEnv cmdsPath; cmd]) (environ ++ [str "GOGC=" ++ Itoa gogc]) with
  | inr e => inr e
  | inl (r, u, s, rss) => inl (MkMeasurement r u s rss)
  end.

(** The files and the field that each of them gets. *)
Definition descs : list (bytes * (measurement -> bytes)) :=
  [(str "build_perf_real.csv", fun m => Sprint (realTime m)); (str "build_perf_user.csv", fun m => Sprint (userTime m));
   (str "build_perf_sys.csv", fun m => Sprint (sysTime m)); (str "build_perf_max_rss.csv", fun m => Itoa (maxRss m))].

(** The parameters of the writers of [ScriptTools]. *)
Definition field (d : nat) (m : measurement) : bytes := match descs !! d with Some (_, f) => f m | None => [] end.

(** A failed build leaves a hole, the others give the four fields of their run. *)
Lemma measure_fields gs cmd :
  Forall2 (fun g m => match m, buildCmd cmd g with
     | Some m, inl m' => m = m'
     | None, inr _ => True
     | _, _ => False end) gs (ScriptTools.BuildPerf.measure_cmd buildCmd gs cmd).
Proof.
  unfold ScriptTools.BuildPerf.measure_cmd. induction gs as [|g gs IH]; [constructor|]. cbn. constructor; [|exact IH]. by destruct (buildCmd cmd g).
Qed.
End Build.
End BuildCmd.

(** ** The latency that [ping] prints *)

Module Latency.

(** The unit that is chosen, from the nanoseconds that passed; [fixed2 x d] prints [x/d] with two
    digits after the point. *)
Definition beatifulLatency (fixed2 : Z -> Z -> bytes) (now : Z) : bytes :=
  if 1000000 <? now then fixed2 now 1000000 ++ str " ms"
  else if 1000 <? now then fixed2 now 1000 ++ [x20; xc2; xb5]
  else Itoa now ++ str " ns".

Definition optwithoutparam (version : bool) : bytes :=
  if version then str "ping utility, Uroot version" ++ [x0a]
  else str "ping [-hV] [-c count] [-i interval] [-s packetsize] [-w deadline] destination" ++ [x0a].
End Latency.

(** ** [archive]: the encoder that is not there yet *)

Module Encoder.
Definition encodeVTOC : Z * option error := (-1, Some (Errorf "not yet")).

(** [NewVTOCEncoder] runs its options up to the first that fails and keeps nothing. *)
Fixpoint NewVTOCEncoder {V} (opts : list (V -> V * option error)) (v : V) : option error :=
  match opts with
  | [] => None
  | o :: opts => match o v with (_, Some e) => Some e | (v, None) => NewVTOCEncoder opts v end
  end.
End Encoder.

(** ** [dhclient]: the interfaces that are configured *)

Module DhclientStart.

Definition default_ifName : bytes := str "^e.*".

(** [main] before its goroutines: the names of the links that match.  [Compile]: the matcher of a POSIX
    expression; [MustCompilePOSIX] panics if there is none. *)
Definition dhclient_start (random : bool) (Compile : bytes -> option (bytes -> bool)) (LinkList : list bytes + error) (args : list bytes) :
    outcome error (list bytes) :=
  if negb random then Fail (Errorf "We're sorry, the random number generator is not up. Please file a ticket")
  else
    match args with
    | _ :: _ :: _ => Fail (Errorf "only one re")
    | _ =>
        match Compile (match args with a :: _ => a | [] => default_ifName end) with
        | None => Panic
        | Some matches =>
            match LinkList with
            | inr _ => Fail (Errorf "Can't get list of link names: %v")
            | inl names => Ret (List.filter matches names)
            end
        end
    end.

(** What is printed at the end, from the number of results that came. *)
Definition dhclient_end (nif : nat) : bytes := if (nif =? 0)%nat then str "No interfaces match %v" else [].

(** Only interfaces of the system that match the expression are configured, each as often as the system
    lists it. *)
Lemma dhclient_start_matches random Compile LinkList args names :
  dhclient_start random Compile LinkList args = Ret names ->
  exists re matches all, Compile re = Some matches /\ LinkList = inl all /\ names = List.filter matches all /\
    (args = [] /\ re = default_ifName \/ args = [re]).
Proof.
  unfold dhclient_start. destruct random; [|done]. destruct args as [|a [|b l]]; [| |done].
  - destruct (Compile default_ifName) as [m|] eqn:E; [|done]. destruct LinkList as [all|e]; [|done]. intros [= <-].
    exists default_ifName, m, all. split_and!; try done. by left.
  - destruct (Compile a) as [m|] eqn:E; [|done]. destruct LinkList as [all|e]; [|done]. intros [= <-]. exists a, m, all. split_and!; try done. by right.
Qed.
End DhclientStart.

(** ** [msr] and [pci]: the files that are looked for *)

Module Globs.
Section Globs.
Context (Glob : bytes -> list bytes + error).

(** [msrList]: no file at all ends the program. *)
Definition msrList (n : bytes) : outcome error (list bytes) :=
  match Glob (PathJoin [str "/dev/cpu"; n; str "msr"]) with
  | inr _ => Fail (Errorf "No MSRs matched %v: %v")
  | inl [] => Fail (Errorf "No msrs found. Make sure your kernel is compiled with msrs, and you may need to 'sudo modprobe msr'. To see available msrs, ls /dev/cpu.")
  | inl m => Ret m
  end.

Definition NewBusReader : outcome error (list bytes) :=
  match Glob (str "/sys/bus/pci/devices/*") with inr e => Fail e | inl globs => Ret globs end.
End Globs.

Lemma msrList_found Glob n m : msrList Glob n = Ret m -> m <> [] /\ Glob (PathJoin [str "/dev/cpu"; n; str "msr"]) = inl m.
Proof. unfold msrList. destruct (Glob _) as [[|x l]|e]; try done. intros [= <-]. done. Qed.
End Globs.

(** ** Other systems *)

Module Stubs.

(** Without [kexec_file_load]: ENOSYS. *)
Definition FileLoad_other : outcome error unit := Fail (Errno 38).

(** [sameFile] of [cp] on Plan 9. *)
Record plan9_dir := MkDir { qid_path : Z; dir_type : Z; dir_dev : Z }.
Definition sameFile_plan9 (a b : plan9_dir) : bool := (qid_path a =? qid_path b) && (dir_type a =? dir_type b) && (dir_dev a =? dir_dev b).

(** It is the equality of what identifies a file. *)
Lemma sameFile_plan9_eq a b : sameFile_plan9 a b = true <-> a = b.
Proof.
  unfold sameFile_plan9. rewrite !andb_true_iff, !Z.eqb_eq. destruct a, b; cbn. split; [by intros [[-> ->] ->]|]. by intros [= -> -> ->].
Qed.

(** [New] of [pkg/termios]. *)
Definition termios_New {F} (OpenFile : bytes -> F + error) : outcome error F :=
  match OpenFile (str "/dev/tty") with inr e => Fail e | inl f => Ret f end.
End Stubs.
